(* ===== verification/_CoqProject ===== *)
-Q . S2P
Prelude.v
Bitcoin.v
Errors.v
ChainParams.v
Codec.v
Merkle.v
Sigops.v
Extensions.v
Udata.v
SwiftSync.v
Consensus.v
ConsensusFacts.v
BlockFacts.v
ChainStore.v
ChainQuery.v
PartialChain.v
ChainState.v
FlatStore.v
FlatFacts.v
FlatRefine.v
FlatOk.v
ChainShape.v
ChainFacts.v
ChainReorg.v
ChainAccept.v
ChainTerm.v
ChainReach.v
ChainWork.v
Mempool.v
MempoolFacts.v
Filters.v
StumpUpdater.v
BlockProof.v
Descriptors.v
Wallet.v
WalletDb.v
WalletFacts.v
WalletTx.v
WalletBlocks.v
WalletRuns.v
Text.v
Onion.v
SocketAddr.v
AddressMan.v
AddressManFacts.v
AddressManRuns.v
AddressManReach.v
Node.v
NodeBlocks.v
NodePeers.v
NodeConn.v
SyncNode.v
NodeFacts.v
NodeRetry.v
NodeDownload.v
NodeChain.v
NetMessage.v
Transport.v
PeerTask.v
PeerFacts.v
SelectNode.v
SelectFacts.v
SwiftNode.v
SwiftFrame.v
SwiftFacts.v
RunNode.v
RunFilters.v
RunFacts.v
Backfill.v
Sample.v
SampleRules.v
SampleStore.v
SampleChain.v
SampleNode.v
SampleWallet.v
SampleNet.v
SampleSync.v
SampleSelect.v
SamplePeer.v
SampleSwift.v
