(* ===== verification/Prelude.v ===== *)
(** * Floresta: a verification of its validation core

    Floresta is a Bitcoin full node that stores the UTXO set as a Utreexo
    accumulator.  This library models the part of it that decides what the
    chain is and whether a block is valid, translated from the Rust sources,
    and proves that it does what it means to do.  Paths are relative to
    [src/crates/floresta-chain/src/pruned_utreexo/] unless they say otherwise.

    ** The program and the files

    A block comes from the network with a Utreexo proof.  The proof's compact
    leaves are turned into the outputs the block spends ([udata.rs]), the
    consensus rules check the block against them ([consensus.rs], [merkle.rs],
    [sigops.rs], [extensions.rs]), the accumulator is updated, and the chain
    state ([chain_state.rs]) moves its validation index.  Headers alone move
    the best chain, by extension or reorganisation.  Everything is kept in a
    chain store ([chainstore.rs], implemented by [flat_chain_store.rs]).
    Intervals of the chain can be validated apart ([partial_chain.rs]).
    The mempool keeps the transactions the node has broadcast
    ([floresta-mempool]) and the filter store keeps compact block filters for
    wallet rescans ([floresta-compact-filters]).  The watch-only wallet follows
    addresses and descriptors through blocks and unconfirmed transactions
    ([floresta-watch-only]).  The node ([floresta-wire]) keeps connections to
    peers that its address manager chooses, downloads blocks and proofs from
    them and gives them to the chain state in order.

    - [Prelude]: outcomes, the state monad, tactics, hint databases, machine
      integers and generic lemmas.
    - [Bitcoin]: the data of rust-bitcoin and rustreexo, and the classes that
      stand for the code of these crates ([HeaderLib], [TxLib], [KernelLib],
      [HashLib], [UtreexoLib]) with the documented behaviour relied on
      ([HeaderLibOk], [StumpOk]).
    - [Errors], [ChainParams], [Codec]: [error.rs], [chainparams.rs], and the
      byte-level encodings of rust-bitcoin's primitive types.
    - [Merkle]: [merkle.rs] and [floresta-watch-only/src/merkle.rs].
    - [Sigops], [Extensions], [Udata]: [sigops.rs],
      [floresta-chain/src/extensions.rs], [udata.rs].
    - [SwiftSync], [Consensus]: [consensus.rs]; theorems in [ConsensusFacts]
      (transactions, subsidy, supply) and [BlockFacts] (blocks).
    - [ChainStore]: the store trait as a class, its promises [ChainStoreOk]
      and [StoreTotal] on an abstract view [StoreView], a reference store
      [ViewStore], and the codecs of [chainstore.rs].
    - [FlatStore]: [flat_chain_store.rs]; [FlatFacts] (index arithmetic, hash
      index), [FlatRefine] (headers, accumulators) and [FlatOk] (the store
      implements [ChainStoreOk]).
    - [ChainQuery], [ChainState]: the reads and the writes of
      [chain_state.rs], over any [ChainStore]; [chain_state_builder.rs].
    - [PartialChain]: [partial_chain.rs].
    - [ChainShape] (the invariant on maps), [ChainFacts] (the invariant of the
      chain state, connecting blocks), [ChainReorg] (reorganisations),
      [ChainAccept] (accepting headers), [ChainTerm] (termination, errors),
      [ChainReach] (runs of a node), [ChainWork] (work and locators).
    - [Mempool], [MempoolFacts]: [floresta-mempool/src/mempool.rs].
    - [Filters]: [floresta-compact-filters/src/].
    - [StumpUpdater]:
      [floresta-wire/src/p2p_wire/stump_updater.rs].
    - [BlockProof]: [floresta-wire/src/p2p_wire/block_proof.rs].
    - [Descriptors], [Wallet], [WalletDb]: [floresta-watch-only/src/]: keys and
      descriptors, the address cache, and the databases with the promises
      ([AddressCacheDatabaseOk]) the cache relies on; [WalletFacts] (the
      invariant, derivation), [WalletTx] (transactions), [WalletBlocks]
      (blocks against a ledger) and [WalletRuns] (start-up, runs, histories).
    - [Text]: numbers, IPv4 and IPv6 addresses as the standard library parses
      and prints them; [Onion], [SocketAddr]:
      [floresta-wire/src/p2p_wire/onion.rs] and [bitcoin_socket_addr.rs].
    - [AddressMan]: [floresta-wire/src/p2p_wire/address_man.rs], with
      [AddressManFacts] (routability, the invariant), [AddressManRuns] (adding,
      pruning, expiring, choosing) and [AddressManReach] (sequences of calls,
      restarts).
    - [Node], [NodeBlocks], [NodePeers], [NodeConn], [SyncNode]: the node of
      [floresta-wire/src/p2p_wire/node/]: its state and the sending of requests
      ([mod.rs], [peer_man.rs]), blocks and blame ([blocks.rs]), the life of
      peers and retries ([peer_man.rs]), connections and users ([conn.rs],
      [user_req.rs]), and the synchronisation with its loop as a step relation
      ([sync_ctx.rs]).  [NodeFacts] (the invariant), [NodeRetry] (requests are
      not lost), [NodeDownload] (processing and blame, the plan
      of the download, bans) and [NodeChain] (the node on the chain state).
    - [NetMessage]: the messages of the protocol and their BIP324 encoding
      ([network_message_ext.rs]); [Transport]: the SOCKS5 handshake
      ([socks.rs]), frames, packets and connecting ([transport.rs]); [PeerTask], [PeerFacts]: the task of a
      connection ([peer.rs]), whose notifications the node handles.
    - [SelectNode]: the choice of the best chain of headers and of the
      accumulator to start from ([chain_selector_ctx.rs]), with [SelectFacts]
      (the invariant, accumulators as bytes, and the cut-and-choose protocol
      between two peers that disagree).
    - [SwiftNode]: SwiftSync ([swift_sync_ctx.rs]), the download of blocks
      without proofs that runs before the synchronisation: workers process the
      blocks in any order, their reports are messages ([FromWorker]), and the
      updater of [StumpUpdater] applies the additions.  [SwiftFrame] says what
      the handlers that the contexts share leave alone, [SwiftFacts] has the
      accounts of the blocks, and what a finished SwiftSync has checked.
    - [RunNode]: normal operation ([running_ctx.rs]), with [RunFacts] (the
      invariant from the start of the synchronisation on, headers and the chain
      state) and [RunFilters] (compact filters); [Backfill]: the
      validation of assumed blocks in the background.
    - [Sample], [SampleRules], [SampleStore], [SampleChain], [SampleNode], [SampleWallet],
      [SampleNet], [SampleSync],
      [SampleSelect], [SamplePeer], [SampleSwift]: a
      concrete instance of the library classes, a sample chain with a fork,
      and the theorems applied to it.

    ** How the model corresponds to the code

    A fallible computation returns an [outcome]: [Ok], [Err] with the error
    of the source, [Panic] (an [unwrap], [expect], [assert] or checked
    arithmetic that fails) or [Diverge] (a loop out of fuel).  A method on
    [&mut self], or one that writes behind a lock, is an [stm]: it returns the
    state it leaves behind on errors too.  Records, enumerations and functions
    keep the names of the source; a loop is a [Fixpoint] of its own next to
    its function.  Integers are [Z]; the arithmetic that can overflow is
    [u32_add], [u32_sub], [wrap64] and the like.  Hashes are integers, with
    [to_byte_array] where the bytes matter.  [HashMap] and [HashSet] are
    [gmap] and [gset].  The memory-mapped files of the flat store are maps
    from slots to records, its accumulator file is a list of bytes.

    Code that is not in the repository is a parameter: the methods of the
    classes above, and [Codec], [ScriptBuild], [FlatLib] (the LRU cache and
    the checksums), [DescriptorLib], [Sha256Lib], [Sha3Lib], [Json],
    [ProofBuild], [HintsLib], and [NetTypes], [NetCodecs] and [RawLib] for the messages of the
    protocol.  The chain is an interface to the node ([ChainBackend],
    [ChainTotal]) that the chain state implements.  What a
    theorem assumes of it is a class of laws that the crate documents ([LruOk],
    [CodecOk], [CodecLen], [JsonOk], [HintsOk], [MerkleBackendOk], [NetCodecsOk], [RawLibOk]), and the sample files
    give instances that satisfy them.  A random draw and the order in which a
    hash map is visited ([HashOrder]) are arguments, and so are the times.

    ** What the theorems show

    - The chain state keeps its invariant ([chain_inv]): the best chain is
      linked from the genesis block to the tip, indexed by hash and by height,
      fully validated exactly up to the validation index, with the accumulator
      of that block.  [accept_header] and [connect_block] are characterised on
      their successful branches, are harmless on their failing ones, and
      [accept_header] terminates.  A node on the flat-file store started on an
      empty directory keeps a readable chain in every run.
    - The flat-file store refines the abstract store.  It reads back the best
      chain and the accumulator it saved; which other accumulators a save keeps
      is stated too, since one at or below the validation index cuts the file.
    - Blocks that pass the rules create no money beyond the subsidy, spend no
      output twice and spend only outputs that exist; the subsidy schedule,
      the supply and the transaction checks are exact.
    - Merkle roots agree with a recursive tree and cannot be malleated short of
      a hash collision; wallet proofs are sound and complete.
    - The SwiftSync aggregator cancels; its optimised path is equivalent.
    - Work multiplication, median time past and locators are exact; the codecs
      round-trip.
    - The mempool keeps its sizes, dependencies and conflicts consistent;
      accepting, confirming and block templates are characterised on every
      branch.  The transactions chosen for a template are within the weight
      limit, the ones they pull in are not counted.
    - The bytes of the filter store represent the list of stored filters
      through writes, reopenings and a lost index; rescans are exact, but for
      a filter of the maximal size, on which the iterator panics.
    - The accumulator updater gives the accumulator of the blocks in order,
      whatever the order of arrival; sparse additions and request bitmaps lose
      nothing.
    - The watch-only wallet keeps its maps consistent in every run, its
      database has the same addresses, scripts and histories, and blocks change balances and unspent outputs as a ledger
      does; addresses are derived beyond the gap limit.  One theorem states
      what the database forgets.
    - The address manager keeps its addresses and the lists of peers by
      service consistent and bounded in every sequence of calls (the lists of
      good peers may name peers that lost the service), chooses peers that may be connected to, prunes the
      oldest addresses and survives a restart; routability is membership in
      CIDR blocks; addresses of peers are printed and parsed back.
    - The syncing node keeps its lists of peers and blocks consistent whatever
      is sent to it and whatever fails; requests of a lost peer are handed over;
      processing of blocks ends, extends the validated chain one block at a
      time, and blames the peer that sent the faulty part.  Two theorems state
      where it does not do what it means to: a ban ends with the connection, and
      leaves of absent heights go unpunished.
    - The task of a connection tells the node nothing before its handshake is
      done, and then what the version message of the peer said; it bounds the
      addresses and announcements a peer can make the node handle, and drops a
      silent peer one round after its deadlines at the latest.
      Messages written to a transport are read back, frames are read exactly
      when they are well-formed, of the right network and undamaged, and the
      handshake with a proxy succeeds exactly when the proxy accepts.  Two
      lemmas state what goes wrong with early requests and handshakes that
      never end.
    - The node that selects a chain keeps the same invariant; of two peers that
      disagree about an accumulator it blames the one that lies, after it found
      the last block on which they agree; it reads exactly the well-formed
      accumulators.  One theorem states that it panics when two neighbouring
      candidates agree.
    - While the node runs a SwiftSync, each block it asked for is requested,
      stored or processed, and in one place only, and the sums are those of
      the blocks processed; when it ends without an abort, every block up to
      the stop height was processed with its hints, the outputs hinted as
      spent cancel those spent, the supply is within the subsidies, and the
      chain is marked with the accumulator of all additions; honest hints are
      never rejected at the end.
    - The running node keeps that invariant and a bound on what it remembers of
      announcements; headers reach the chain only near its tip and blocks are
      asked for only when they are the tip; filters that come in order are
      stored exactly, and a stopped backfill resumes where it was.  Two theorems
      state what goes wrong with filters that come early or again, and one that
      headers without a known parent go unpunished.

    ** Fuel and bounds

    The walks over stored headers take fuel: a fuel above the stored heights
    plus one is enough ([ChainTerm.accept_header_total]), since the parent of
    a stored header is one below it.  The testnet difficulty walk takes 2016
    steps, the length of a period.  Locator and median-time loops are bounded
    by the 32 doublings of a step and by eleven headers.  The Merkle loops take
    the length of the list, which is at least the depth of the tree.
    The recursion of a block template is no deeper than the number of stored
    transactions.  The loops over a filters file take its length, since every
    record has eight bytes of header; the updater takes the number of pending
    updates plus one.  The base32 loop takes 60 steps, since a u8 counter
    decreases by five, and a number of at most 20 digits is printed; peers are
    chosen in ten attempts, as in the source.  The processing of pending blocks
    takes the number of stored blocks plus one, since every round removes one,
    and so does the loop over the filters kept for later.  The binary search between
    two peers halves an interval of 32 bits and takes 33 rounds; the linear
    search takes fuel above the height of the tip, and the loops that wait for
    messages take fuel because nothing bounds the messages that arrive.

    ** Not modelled

    Network I/O, RPC, Electrum and the command-line programs; the format of the
    hints file ([HintsLib]) and the threads of workers, which are the reports they
    will send; floating-point averages, metrics, logging and the
    texts of errors; file permissions and the failure of system calls; locks, since the operations
    modelled hold the write lock for their duration or are called by one
    task. *)

From stdpp Require Import base gmap list sets fin_maps.
From Stdlib Require Import ZArith Lia.

Open Scope Z_scope.

(** * Outcomes of Rust functions

    [Ok] and [Err] are the two constructors of Rust's [Result].  [Panic] is a
    panic: a failed [expect], [assert!] or array access, and an arithmetic
    overflow or underflow of a plain [+], [-] or [*] (the overflow-checking
    profile).  [Diverge] is the answer of a fuel-bounded loop whose fuel ran
    out; every loop of the development has a theorem bounding the fuel it
    needs. *)

Inductive outcome (E A : Type) : Type :=
  | Ok (a : A)
  | Err (e : E)
  | Panic
  | Diverge.

Arguments Ok {E A} a.
Arguments Err {E A} e.
Arguments Panic {E A}.
Arguments Diverge {E A}.

#[export] Instance outcome_ret {E} : MRet (outcome E) := fun A a => Ok a.
#[export] Instance outcome_bind {E} : MBind (outcome E) := fun A B f o =>
  match o with
  | Ok a => f a
  | Err e => Err e
  | Panic => Panic
  | Diverge => Diverge
  end.
#[export] Instance outcome_fmap {E} : FMap (outcome E) := fun A B f o =>
  match o with
  | Ok a => Ok (f a)
  | Err e => Err e
  | Panic => Panic
  | Diverge => Diverge
  end.

(** Rust's [map_err], and the conversion [?] performs through [From]. *)
Definition map_err {E E' A} (f : E -> E') (o : outcome E A) : outcome E' A :=
  match o with
  | Ok a => Ok a
  | Err e => Err (f e)
  | Panic => Panic
  | Diverge => Diverge
  end.

(** Rust's [Option::ok_or]. *)
Definition ok_or {E A} (o : option A) (e : E) : outcome E A :=
  match o with Some a => Ok a | None => Err e end.

(** [expect] / [unwrap] on an option. *)
Definition expect {E A} (o : option A) : outcome E A :=
  match o with Some a => Ok a | None => Panic end.

(** A guard [if c { Err(e)?; }]. *)
Definition err_if {E} (c : bool) (e : E) : outcome E unit :=
  if c then Err e else Ok tt.

(** Rust's [Result::ok]. *)
Definition ok_opt {E A} (o : outcome E A) : option A :=
  match o with Ok a => Some a | _ => None end.

Definition is_ok {E A} (o : outcome E A) : bool :=
  match o with Ok _ => true | _ => false end.

(** * Stateful code

    A method on [&mut self], or on a value behind a lock, is a function from
    the state to an outcome and the state it leaves behind.  An error does not
    undo the writes made before it. *)

Definition stm (S E A : Type) : Type := S -> outcome E A * S.

#[export] Instance stm_ret {S E} : MRet (stm S E) := fun A a s => (Ok a, s).
#[export] Instance stm_bind {S E} : MBind (stm S E) := fun A B f m s =>
  match m s with
  | (Ok a, s') => f a s'
  | (Err e, s') => (Err e, s')
  | (Panic, s') => (Panic, s')
  | (Diverge, s') => (Diverge, s')
  end.

(** A computation that does not touch the state, a read, and a write. *)
Definition lift {S E A} (o : outcome E A) : stm S E A := fun s => (o, s).
Definition gets {S E A} (f : S -> outcome E A) : stm S E A := fun s => (f s, s).
Definition modify {S E} (f : S -> S) : stm S E unit := fun s => (Ok tt, f s).

(** A [for] loop that threads a value and may stop with an error. *)
Fixpoint fold_loop {E A B} (f : A -> B -> outcome E A) (a : A) (l : list B) : outcome E A :=
  match l with
  | [] => Ok a
  | b :: rest => a ← f a b; fold_loop f a rest
  end.

(** * Machine integers

    A machine integer of width [w] is a [Z] in [[0, 2^w)]; the wrap-around is
    written out. *)

Definition u32_max : Z := 4294967295.
Definition u64_max : Z := 18446744073709551615.
Definition is_u32 (z : Z) : Prop := 0 <= z <= u32_max.
Definition is_u64 (z : Z) : Prop := 0 <= z <= u64_max.
Definition wrap32 (z : Z) : Z := z mod 4294967296.
Definition wrap64 (z : Z) : Z := z mod 18446744073709551616.

(** Plain [+] and [-] on [u32] / [u64]: panic when out of range. *)
Definition u32_add {E} (a b : Z) : outcome E Z :=
  if a + b <=? u32_max then Ok (a + b) else Panic.
Definition u32_sub {E} (a b : Z) : outcome E Z :=
  if b <=? a then Ok (a - b) else Panic.
Definition u32_mul {E} (a b : Z) : outcome E Z :=
  if a * b <=? u32_max then Ok (a * b) else Panic.
Definition u64_add {E} (a b : Z) : outcome E Z :=
  if a + b <=? u64_max then Ok (a + b) else Panic.
Definition u64_sub {E} (a b : Z) : outcome E Z :=
  if b <=? a then Ok (a - b) else Panic.
Definition u64_mul {E} (a b : Z) : outcome E Z :=
  if a * b <=? u64_max then Ok (a * b) else Panic.

(** [checked_add] on [u64], [saturating_sub], and [saturating_add] on [usize]
    (64 bits). *)
Definition checked_add64 (a b : Z) : option Z :=
  if a + b <=? u64_max then Some (a + b) else None.
Definition saturating_sub (a b : Z) : Z := Z.max 0 (a - b).
Definition saturating_add64 (a b : Z) : Z := Z.min u64_max (a + b).
Definition saturating_mul64 (a b : Z) : Z := Z.min u64_max (a * b).

(** * Automation *)

Create HintDb floresta.
Create Rewrite HintDb floresta_simp.

(** Case analysis on the scrutinee of every [match] / [if] of a hypothesis
    that equates an outcome with [Ok]: the failing branches are discarded. *)
Ltac ok_step H :=
  match type of H with
  | Ok _ = Ok _ => injection H; clear H; intros
  | Err _ = Ok _ => discriminate H
  | Panic = Ok _ => discriminate H
  | Diverge = Ok _ => discriminate H
  | context [mbind _ ?o] =>
      let E := fresh "E" in destruct o eqn:E; cbn [mbind outcome_bind] in H
  | context [match ?o with _ => _ end] =>
      let E := fresh "E" in destruct o eqn:E; try discriminate H
  end.
Ltac ok_inv H := repeat (ok_step H; try discriminate H).

(** Turn boolean comparisons of hypotheses and goal into propositions. *)
Ltac zbool :=
  repeat match goal with
  | H : (_ <=? _) = true |- _ => apply Z.leb_le in H
  | H : (_ <=? _) = false |- _ => apply Z.leb_gt in H
  | H : (_ <? _) = true |- _ => apply Z.ltb_lt in H
  | H : (_ <? _) = false |- _ => apply Z.ltb_ge in H
  | H : (_ =? _) = true |- _ => apply Z.eqb_eq in H
  | H : (_ =? _) = false |- _ => apply Z.eqb_neq in H
  | H : (_ && _)%bool = true |- _ => apply andb_true_iff in H; destruct H
  | H : (_ || _)%bool = false |- _ => apply orb_false_iff in H; destruct H
  | H : negb _ = true |- _ => apply negb_true_iff in H
  | H : negb _ = false |- _ => apply negb_false_iff in H
  | H : bool_decide _ = true |- _ => apply bool_decide_eq_true in H
  | H : bool_decide _ = false |- _ => apply bool_decide_eq_false in H
  end.

(** * Generic lemmas *)

Lemma obind_ok {E A B} (o : outcome E A) (f : A -> outcome E B) b :
  (o ≫= f) = Ok b <-> exists a, o = Ok a /\ f a = Ok b.
Proof.
  destruct o; cbn; split; intros H; try (discriminate H); eauto;
    destruct H as (x & Hx & Hf); congruence.
Qed.

Lemma stm_bind_ok {S E A B} (m : stm S E A) (f : A -> stm S E B) s b s2 :
  (m ≫= f) s = (Ok b, s2) <-> exists a s1, m s = (Ok a, s1) /\ f a s1 = (Ok b, s2).
Proof.
  unfold mbind, stm_bind. destruct (m s) as [o s1]. split.
  - destruct o; intros Hf; try discriminate Hf. by exists a, s1.
  - by intros (a & s1' & [= -> ->] & Hf).
Qed.

Lemma stm_bind_err {S E A B} (m : stm S E A) (f : A -> stm S E B) s e s2 :
  (m ≫= f) s = (Err e, s2) <->
  m s = (Err e, s2) \/ exists a s1, m s = (Ok a, s1) /\ f a s1 = (Err e, s2).
Proof.
  unfold mbind, stm_bind. destruct (m s) as [o s1]. split.
  - destruct o; intros Hf; try discriminate Hf; [right; by exists a, s1|left; congruence].
  - intros [[= -> ->]|(a & s1' & [= -> ->] & Hf)]; done.
Qed.

(** [fails o o']: [o] is not a value, and [o'] is the same failure. *)
Inductive fails {E A B} : outcome E A -> outcome E B -> Prop :=
  | fails_err e : fails (Err e) (Err e)
  | fails_panic : fails Panic Panic
  | fails_diverge : fails Diverge Diverge.
#[export] Hint Constructors fails : floresta.

Lemma fails_trans {E A B C} (o1 : outcome E A) (o2 : outcome E B) (o3 : outcome E C) :
  fails o1 o2 -> fails o2 o3 -> fails o1 o3.
Proof. destruct 1; inversion 1; constructor. Qed.

Lemma stm_bind_cases {S E A B} (m : stm S E A) (f : A -> stm S E B) s o s2 :
  (m ≫= f) s = (o, s2) ->
  (exists a s1, m s = (Ok a, s1) /\ f a s1 = (o, s2)) \/
  (exists o', m s = (o', s2) /\ fails o' o).
Proof.
  unfold mbind, stm_bind. destruct (m s) as [[a|e| |] s1].
  - left. by exists a, s1.
  - intros [= <- <-]. right. eexists. split; [done|constructor].
  - intros [= <- <-]. right. eexists. split; [done|constructor].
  - intros [= <- <-]. right. eexists. split; [done|constructor].
Qed.

(** A read that succeeds. *)
Lemma stm_bind_gets {S E A B} (g : S -> outcome E A) (f : A -> stm S E B) s a :
  g s = Ok a -> (gets g ≫= f) s = f a s.
Proof. unfold mbind, stm_bind, gets. by intros ->. Qed.

Lemma stm_bind_lift {S E A B} (o : outcome E A) (f : A -> stm S E B) s a :
  o = Ok a -> (lift o ≫= f) s = f a s.
Proof. unfold mbind, stm_bind, lift. by intros ->. Qed.

(** * Totality *)

(** A computation that ends: with a value, an error or a panic. *)
Definition ends {E A} (o : outcome E A) : Prop := o <> Diverge.

Lemma obind_ends {E A B} (o : outcome E A) (f : A -> outcome E B) :
  ends o -> (forall a, o = Ok a -> ends (f a)) -> ends (o ≫= f).
Proof. unfold ends. destruct o; cbn; auto. Qed.
Lemma stm_bind_ends {S E A B} (m : stm S E A) (f : A -> stm S E B) s :
  ends (m s).1 -> (forall a s', m s = (Ok a, s') -> ends (f a s').1) -> ends ((m ≫= f) s).1.
Proof. unfold ends, mbind, stm_bind. destruct (m s) as [[] s']; cbn; auto. Qed.
Lemma map_err_ends {E E' A} (f : E -> E') (o : outcome E A) : ends o -> ends (map_err f o).
Proof. by destruct o. Qed.
Lemma err_if_ends {E} (c : bool) (e : E) : ends (err_if c e).
Proof. by destruct c. Qed.
Lemma ok_or_ends {E A} (o : option A) (e : E) : ends (ok_or o e).
Proof. by destruct o. Qed.
Lemma expect_ends {E A} (o : option A) : ends (@expect E A o).
Proof. by destruct o. Qed.
Lemma u32_add_ends {E} a b : ends (@u32_add E a b).
Proof. unfold u32_add. by destruct (_ <=? _). Qed.
Lemma u32_sub_ends {E} a b : ends (@u32_sub E a b).
Proof. unfold u32_sub. by destruct (_ <=? _). Qed.
Lemma u64_add_ends {E} a b : ends (@u64_add E a b).
Proof. unfold u64_add. by destruct (_ <=? _). Qed.
Lemma u64_sub_ends {E} a b : ends (@u64_sub E a b).
Proof. unfold u64_sub. by destruct (_ <=? _). Qed.
Lemma u64_mul_ends {E} a b : ends (@u64_mul E a b).
Proof. unfold u64_mul. by destruct (_ <=? _). Qed.

(** Goals [ends o] about code without loops of its own: the database [total]
    holds the totality of the functions it calls. *)
Create HintDb total.
#[export] Hint Resolve map_err_ends err_if_ends ok_or_ends expect_ends u32_add_ends
  u32_sub_ends u64_add_ends u64_sub_ends u64_mul_ends : total.
Ltac total :=
  repeat first
    [ solve [eauto with total nocore]
    | match goal with
      | |- ends (Ok _) => discriminate
      | |- ends (Err _) => discriminate
      | |- ends Panic => discriminate
      end
    | apply obind_ends; [|intros ? ?]
    | apply map_err_ends
    | apply stm_bind_ends; [|intros ? ? ?]
    | progress (unfold lift, gets, modify, mret, stm_ret; cbn [fst snd])
    | case_match ].

Lemma err_if_ok {E} (c : bool) (e : E) u : err_if c e = Ok u <-> c = false.
Proof. destruct c, u; cbn; split; congruence. Qed.

Lemma ok_or_ok {E A} (o : option A) (e : E) a : ok_or o e = Ok a <-> o = Some a.
Proof. destruct o; cbn; split; congruence. Qed.

Lemma u32_add_ok {E} a b c : @u32_add E a b = Ok c <-> c = a + b /\ a + b <= u32_max.
Proof.
  unfold u32_add. destruct (Z.leb_spec (a + b) u32_max); split.
  - intros [= <-]. lia.
  - intros [-> _]. done.
  - done.
  - lia.
Qed.

Lemma u32_sub_ok {E} a b c : @u32_sub E a b = Ok c <-> c = a - b /\ b <= a.
Proof.
  unfold u32_sub. destruct (Z.leb_spec b a); split.
  - intros [= <-]. lia.
  - intros [-> _]. done.
  - done.
  - lia.
Qed.

Lemma checked_add64_Some a b c :
  checked_add64 a b = Some c <-> c = a + b /\ a + b <= u64_max.
Proof.
  unfold checked_add64. destruct (Z.leb_spec (a + b) u64_max); split.
  - intros [= <-]. lia.
  - intros [-> _]. done.
  - done.
  - lia.
Qed.

(** ** Sums *)

Fixpoint sum_Z {A} (f : A -> Z) (l : list A) : Z :=
  match l with
  | [] => 0
  | x :: l' => f x + sum_Z f l'
  end.

Lemma sum_Z_app {A} (f : A -> Z) l1 l2 : sum_Z f (l1 ++ l2) = sum_Z f l1 + sum_Z f l2.
Proof. induction l1; cbn; lia. Qed.

Lemma sum_Z_nonneg {A} (f : A -> Z) l : (forall x, x ∈ l -> 0 <= f x) -> 0 <= sum_Z f l.
Proof.
  induction l as [|a l IH]; cbn; intros H; [lia|].
  assert (0 <= f a) by (apply H; left).
  assert (0 <= sum_Z f l) by (apply IH; intros; apply H; by right).
  lia.
Qed.

Lemma sum_Z_ext {A} (f g : A -> Z) l :
  (forall x, x ∈ l -> f x = g x) -> sum_Z f l = sum_Z g l.
Proof.
  induction l as [|a l IH]; cbn; intros H; [done|].
  f_equal; [apply H; left | apply IH; intros; apply H; by right].
Qed.

(** The total of a weight over a finite map. *)
Definition map_sum {K V} `{Countable K} (f : V -> Z) (m : gmap K V) : Z :=
  map_fold (fun _ v acc => f v + acc) 0 m.

Section MapSum.
Context {K V : Type} `{Countable K} (f : V -> Z).

Lemma map_sum_empty : map_sum f (∅ : gmap K V) = 0.
Proof. apply map_fold_empty. Qed.

Lemma map_sum_insert_new (m : gmap K V) k v :
  m !! k = None -> map_sum f (<[k:=v]> m) = f v + map_sum f m.
Proof.
  intros Hk. unfold map_sum. rewrite map_fold_insert_L; [done| |done].
  intros. lia.
Qed.

Lemma map_sum_delete (m : gmap K V) k v :
  m !! k = Some v -> map_sum f (delete k m) = map_sum f m - f v.
Proof.
  intros Hk. rewrite <-(insert_delete_id m k v) at 2 by done.
  rewrite map_sum_insert_new by apply lookup_delete_eq. lia.
Qed.

Lemma map_sum_insert_le (m : gmap K V) k v :
  map_Forall (fun _ w => 0 <= f w) m -> map_sum f (<[k:=v]> m) <= f v + map_sum f m.
Proof.
  intros Hpos. destruct (m !! k) as [w|] eqn:Hk.
  - rewrite <-insert_delete_eq, map_sum_insert_new by apply lookup_delete_eq.
    rewrite (map_sum_delete _ _ _ Hk). specialize (Hpos k w Hk). cbn in Hpos. lia.
  - rewrite map_sum_insert_new by done. lia.
Qed.
End MapSum.

(** ** Byte strings *)

(** Little-endian encoding in [n] bytes; bytes are [Z] in [[0, 256)]. *)
Fixpoint le_bytes (n : nat) (z : Z) : list Z :=
  match n with
  | O => []
  | S n' => z mod 256 :: le_bytes n' (z / 256)
  end.

Fixpoint le_int (l : list Z) : Z :=
  match l with
  | [] => 0
  | b :: l' => b + 256 * le_int l'
  end.

Definition be_bytes (n : nat) (z : Z) : list Z := rev (le_bytes n z).
Definition be_int (l : list Z) : Z := le_int (rev l).

Definition is_byte (b : Z) : Prop := 0 <= b < 256.

Lemma length_le_bytes n z : length (le_bytes n z) = n.
Proof. revert z; induction n; cbn; intros; [done|]. by rewrite IHn. Qed.

Lemma le_bytes_byte n z : Forall is_byte (le_bytes n z).
Proof.
  revert z; induction n; cbn; intros; constructor; auto.
  apply Z.mod_pos_bound; lia.
Qed.

Lemma le_int_bytes n z : 0 <= z < 256 ^ Z.of_nat n -> le_int (le_bytes n z) = z.
Proof.
  revert z; induction n as [|n IH]; intros z Hz.
  - cbn in *. lia.
  - rewrite Nat2Z.inj_succ, Z.pow_succ_r in Hz by lia. cbn [le_bytes le_int].
    rewrite IH by (split; [apply Z.div_pos | apply Z.div_lt_upper_bound]; lia).
    pose proof (Z.div_mod z 256). lia.
Qed.

Lemma le_int_bound l : Forall is_byte l -> 0 <= le_int l < 256 ^ Z.of_nat (length l).
Proof.
  induction 1 as [|b l Hb _ IH]; [cbn; lia|].
  cbn [le_int length]. rewrite Nat2Z.inj_succ, Z.pow_succ_r by lia.
  unfold is_byte in Hb. lia.
Qed.

Lemma le_bytes_int l : Forall is_byte l -> le_bytes (length l) (le_int l) = l.
Proof.
  induction 1 as [|b l Hb _ IH]; [done|].
  cbn [le_int length le_bytes]. unfold is_byte in Hb.
  assert ((b + 256 * le_int l) mod 256 = b) as ->.
  { rewrite Z.mul_comm, Z.mod_add by lia. apply Z.mod_small; lia. }
  assert ((b + 256 * le_int l) / 256 = le_int l) as ->.
  { rewrite Z.mul_comm, Z.div_add by lia. rewrite Z.div_small; lia. }
  by rewrite IH.
Qed.

Lemma le_int_app l1 l2 :
  le_int (l1 ++ l2) = le_int l1 + 256 ^ Z.of_nat (length l1) * le_int l2.
Proof.
  induction l1 as [|b l1 IH]; [cbn; lia|].
  cbn [le_int length app]. rewrite IH, Nat2Z.inj_succ, Z.pow_succ_r by lia. lia.
Qed.

#[export] Hint Resolve le_bytes_byte : floresta.
#[export] Hint Rewrite length_le_bytes : floresta_simp.
