(* ===== verification/Bitcoin.v ===== *)
(** The data types and library functions Floresta takes from its dependencies.

    [rust-bitcoin], [rustreexo] and [bitcoin_hashes] are not part of the
    repository.  Their data types are records with the fields the code reads;
    every function of theirs the code calls is a field of the classes below,
    so that all theorems hold for any implementation of them.  A theorem that
    relies on documented behaviour of such a function states it as a
    hypothesis. *)

From stdpp Require Import base gmap list countable strings.
From Stdlib Require Import ZArith.
From S2P Require Import Prelude.

(** * Data

    Hashes are the [Z] whose 32-byte little-endian encoding is the byte array
    of the hash, so [BlockHash::all_zeros()] is 0.  Scripts and witness items
    are lists of bytes. *)

Abbreviation BlockHash := Z (only parsing).
Abbreviation Txid := Z (only parsing).
Abbreviation Script := (list Z) (only parsing).

Definition all_zeros : BlockHash := 0.
Definition to_byte_array (h : BlockHash) : list Z := le_bytes 32 h.

Record BlockHeader := mkBlockHeader {
  hd_version : Z;
  prev_blockhash : BlockHash;
  hd_merkle_root : Z;
  hd_time : Z;
  hd_bits : Z;
  hd_nonce : Z
}.

Record OutPoint := mkOutPoint { op_txid : Txid; op_vout : Z }.

Record TxOut := mkTxOut { txo_value : Z; script_pubkey : Script }.

Record TxIn := mkTxIn {
  previous_output : OutPoint;
  script_sig : Script;
  sequence : Z;
  witness : list (list Z)
}.

(** [absolute::LockTime]: the two variants of [nLockTime]. *)
Inductive AbsLockTime :=
  | Blocks (height : Z)
  | Seconds (time : Z).

(** [relative::LockTime], in units of blocks or of 512 seconds. *)
Inductive RelLockTime :=
  | RelBlocks (blocks : Z)
  | RelTime (intervals : Z).

Record Transaction := mkTransaction {
  tx_version : Z;
  tx_lock_time : AbsLockTime;
  tx_input : list TxIn;
  tx_output : list TxOut
}.

Record Block := mkBlock { blk_header : BlockHeader; txdata : list Transaction }.

Inductive Network := Bitcoin | Testnet | Testnet4 | Signet | Regtest.

(** [bitcoin::params::Params], the fields Floresta reads. *)
Record Params := mkParams {
  bip34_height : Z;
  bip65_height : Z;
  bip66_height : Z;
  miner_confirmation_window : Z;
  pow_target_spacing : Z;
  max_attainable_target : Z;
  allow_min_difficulty_blocks : bool;
  no_pow_retargeting : bool
}.

(** [script::Instruction] and its decoding error. *)
Inductive Instruction :=
  | PushBytes (data : list Z)
  | Op (opcode : Z).

(** [opcodes::Class] in the legacy context, as far as sigop counting
    distinguishes it. *)
Inductive OpClass :=
  | OrdinaryCheckSig
  | OrdinaryCheckSigVerify
  | OrdinaryCheckMultiSig
  | OrdinaryCheckMultiSigVerify
  | PushNum (n : Z)
  | OtherClass.

(** [BitcoinNodeHash]: an empty leaf or a 32-byte hash. *)
Inductive NodeHash :=
  | EmptyHash
  | SomeHash (h : Z).

#[export] Instance BlockHeader_eq_dec : EqDecision BlockHeader.
Proof. solve_decision. Defined.
#[export] Instance OutPoint_eq_dec : EqDecision OutPoint.
Proof. solve_decision. Defined.
#[export] Instance TxOut_eq_dec : EqDecision TxOut.
Proof. solve_decision. Defined.
#[export] Instance AbsLockTime_eq_dec : EqDecision AbsLockTime.
Proof. solve_decision. Defined.
#[export] Instance Network_eq_dec : EqDecision Network.
Proof. solve_decision. Defined.
#[export] Instance NodeHash_eq_dec : EqDecision NodeHash.
Proof. solve_decision. Defined.

#[export] Instance OutPoint_countable : Countable OutPoint.
Proof.
  refine (inj_countable' (fun o => (op_txid o, op_vout o))
            (fun p => mkOutPoint p.1 p.2) _).
  by intros [].
Defined.

(** * Constants of rust-bitcoin *)

Definition MAX_MONEY : Z := 2100000000000000.
Definition ONE_BTC : Z := 100000000.
Definition AMOUNT_MAX : Z := u64_max.
Definition MAX_BLOCK_SIGOPS_COST : Z := 80000.
Definition MAX_BLOCK_WEIGHT : Z := 4000000.
Definition WITNESS_SCALE_FACTOR : Z := 4.
Definition DIFFCHANGE_INTERVAL : Z := 2016.
Definition SUBSIDY_HALVING_INTERVAL : Z := 210000.

(** * Library functions *)

(** Block headers: hash, proof of work and targets. *)
Class HeaderLib := {
  block_hash : BlockHeader -> BlockHash;
  header_target : BlockHeader -> Z;
  header_work : BlockHeader -> Z;
  (** [Header::validate_pow]: the block hash when it meets the target. *)
  validate_pow : BlockHeader -> Z -> option BlockHash;
  to_compact_lossy : Z -> Z;
  (** [CompactTarget::from_next_work_required], converted to a [Target]. *)
  from_next_work_required : Z -> Z -> Params -> Z;
  genesis_block : Network -> Block;
  params_new : Network -> Params
}.

(** Transactions and scripts. *)
Class TxLib := {
  compute_txid : Transaction -> Txid;
  is_coinbase : Transaction -> bool;
  is_null : OutPoint -> bool;
  (** [Sequence::is_final], [to_relative_lock_time], [is_time_locked]. *)
  sequence_is_final : Z -> bool;
  to_relative_lock_time : Z -> option RelLockTime;
  is_time_locked : Z -> bool;
  is_op_return : Script -> bool;
  is_p2pkh : Script -> bool;
  is_p2sh : Script -> bool;
  is_p2wpkh : Script -> bool;
  is_p2wsh : Script -> bool;
  is_witness_program : Script -> bool;
  is_push_only : Script -> bool;
  (** [Script::instructions]; [None] stands for a decoding error. *)
  instructions : Script -> list (option Instruction);
  instructions_minimal : Script -> list (option Instruction);
  read_scriptint : list Z -> option Z;
  (** [Opcode::classify] in [ClassifyContext::Legacy]. *)
  classify_legacy : Z -> OpClass;
  (** [Transaction::total_sigop_cost] without previous outputs. *)
  total_sigop_cost_no_prevouts : Transaction -> Z;
  check_witness_commitment : Block -> bool;
  block_weight : Block -> Z;
  block_coinbase : Block -> option Transaction
}.

(** [Block::block_hash] is the hash of the block's header. *)
Definition blk_hash `{HeaderLib} (b : Block) : BlockHash := block_hash (blk_header b).

(** libbitcoinkernel, compiled in by the cargo feature [bitcoinkernel]. *)
Class KernelLib := {
  bitcoinkernel : bool;
  KERNEL_VERIFY_P2SH : Z;
  KERNEL_VERIFY_WITNESS : Z;
  KERNEL_VERIFY_TAPROOT : Z;
  KERNEL_VERIFY_CHECKLOCKTIMEVERIFY : Z;
  KERNEL_VERIFY_DERSIG : Z;
  KERNEL_VERIFY_CHECKSEQUENCEVERIFY : Z;
  KERNEL_VERIFY_NULLDUMMY : Z;
  KTransaction : Type;
  KScriptPubkey : Type;
  KPrecomputed : Type;
  (** Constructors fail with the text of their error. *)
  ktransaction_try_from : Transaction -> string + KTransaction;
  kscript_try_from : Script -> string + KScriptPubkey;
  kprecomputed_new : KTransaction -> list (KScriptPubkey * Z) -> string + KPrecomputed;
  (** [bitcoinkernel::verify script amount tx input_index flags data]; [None]
      when the input verifies, and the text of the error otherwise. *)
  kernel_verify :
    KScriptPubkey -> Z -> KTransaction -> nat -> Z -> KPrecomputed -> option string
}.

(** Hash functions.  An engine fed with several inputs hashes their
    concatenation. *)
Class HashLib := {
  sha256d : list Z -> Z;
  sha512_256 : list Z -> Z;
  (** [siphash24] keyed with two 64-bit keys. *)
  siphash24 : Z -> Z -> list Z -> Z;
  pubkey_hash : list Z -> list Z;
  script_hash : list Z -> list Z;
  wpubkey_hash : list Z -> list Z;
  wscript_hash : list Z -> list Z
}.

(** rustreexo: the accumulator of unspent outputs. *)
Class UtreexoLib := {
  Stump : Type;
  Proof_ : Type;
  StumpError : Type;
  stump_new : Stump;
  (** [Stump::modify acc adds dels proof]. *)
  stump_modify : Stump -> list NodeHash -> list NodeHash -> Proof_ -> StumpError + Stump;
  stump_verify : Stump -> Proof_ -> list NodeHash -> StumpError + bool;
  stump_roots : Stump -> list NodeHash;
  stump_serialize : Stump -> StumpError + list Z;
  stump_deserialize : list Z -> StumpError + Stump
}.

(** Documented behaviour some theorems rely on: [validate_pow] returns the
    hash of the header, and a serialised accumulator is not empty and is read
    back. *)
Class HeaderLibOk `{HeaderLib} : Prop :=
  validate_pow_hash : forall hd t h, validate_pow hd t = Some h -> h = block_hash hd.
Class StumpOk `{UtreexoLib} : Prop :=
  stump_roundtrip : forall a b, stump_serialize a = inr b -> b <> [] /\ stump_deserialize b = inr a.
