(* ===== verification/Errors.v ===== *)
(** The error types of [floresta-chain]
    ([crates/floresta-chain/src/pruned_utreexo/error.rs] and the error enums
    that convert into them). *)

From stdpp Require Import base list strings.
From Stdlib Require Import ZArith.
From S2P Require Import Prelude Bitcoin.

(** [BlockValidationErrors]. *)
Inductive BlockValidationErrors :=
  | BlockDoesntExtendTip
  | InvalidCoinbase (msg : string)
  | UtxoNotFound (o : OutPoint)
  | ScriptValidationError (msg : string)
  | NullPrevOut
  | EmptyInputs
  | EmptyOutputs
  | ScriptError
  | BlockTooBig
  | TooManySigops
  | TooManyCoins
  | NotEnoughPow
  | BadDiffBits
  | BadVersion
  | BadMerkleRoot
  | BadWitnessCommitment
  | NotEnoughMoney
  | FirstTxIsNotCoinbase
  | BadCoinbaseOutValue
  | EmptyBlock
  | BlockExtendsAnOrphanChain
  | BadBip34
  | InvalidUtreexoProof
  | CoinbaseNotMatured
  | NonFinalTransaction
  | UnspendableUTXO
  | BIP94TimeWarp
  | DuplicateInput
  | BadRelativeLockTime.

(** [TransactionError]: the offending transaction and its error. *)
Record TransactionError := mkTransactionError {
  te_txid : Txid;
  te_error : BlockValidationErrors
}.

(** The texts of [BlockchainError::InvalidTip], by the message formatted. *)
Inductive InvalidTipReason :=
  | OrphanAncestor (h : BlockHash)
  | BlockIsInvalid (h : BlockHash)
  | InAnInvalidChain (h : BlockHash)
  | NotInStorage (h : BlockHash)
  | NoForkPoint.

(** [ScriptPubKeyKind] and [CompactLeafData] of [udata.rs]. *)
Inductive ScriptPubKeyKind :=
  | OtherKind (script : list Z)
  | PubKeyHash
  | WitnessV0PubKeyHash
  | ScriptHash
  | WitnessV0ScriptHash.

Record CompactLeafData := mkCompactLeafData {
  header_code : Z;
  amount : Z;
  spk_ty : ScriptPubKeyKind
}.

(** [LeafErrorKind] and [UtreexoLeafError]. *)
Inductive LeafErrorKind :=
  | EmptyStack
  | InvalidInstruction
  | NotPushBytes
  | GenesisCreationHeight.

Record UtreexoLeafError := mkUtreexoLeafError {
  le_leaf : CompactLeafData;
  le_txid : Txid;
  le_vin : nat;
  le_kind : LeafErrorKind
}.

Section BlockchainErrors.
Context `{UtreexoLib}.

(** [BlockchainError].  The database error is boxed and type-erased by the
    code, which only displays it. *)
Inductive BlockchainError :=
  | BlockNotPresent
  | OrphanOrInvalidBlock
  | BlockValidation (e : BlockValidationErrors)
  | TransactionErr (e : TransactionError)
  | InvalidUtreexoProofErr
  | AccumulatorError (e : StumpError)
  | UtreexoLeaf (e : UtreexoLeafError)
  | Database
  | ChainNotInitialized
  | InvalidTip (r : InvalidTipReason)
  | BadValidationIndex
  | OperationOverflow.
End BlockchainErrors.

(** [BlockExtError] and its conversion. *)
Inductive BlockExtError :=
  | ExtBadMerkleRoot
  | ExtBadWitnessCommitment
  | ExtBlockTooBig
  | ExtTooManySigops.

Definition from_BlockExtError (e : BlockExtError) : BlockValidationErrors :=
  match e with
  | ExtBadMerkleRoot => BadMerkleRoot
  | ExtBadWitnessCommitment => BadWitnessCommitment
  | ExtBlockTooBig => BlockTooBig
  | ExtTooManySigops => TooManySigops
  end.

(** [FlatChainstoreError]; an I/O error is not inspected by the code. *)
Inductive FlatChainstoreError :=
  | Io
  | HeaderNotFound
  | FullIndex
  | OversizedIndex
  | UnsupportedSchema (v : Z)
  | PoisonedLock
  | BadMagic (m : Z)
  | OversizedAccumulator
  | InvalidMetadataPointer
  | CorruptedDatabase
  | InvalidValidationIndex.
