(* ===== verification/ChainParams.v ===== *)
(** Network parameters ([crates/floresta-chain/src/pruned_utreexo/chainparams.rs]). *)

From stdpp Require Import base gmap list.
From Stdlib Require Import ZArith Lia.
From S2P Require Import Prelude Bitcoin.

Definition VERIFY_NONE : Z := 0.
Definition VERIFY_P2SH : Z := Z.shiftl 1 0.
Definition VERIFY_WITNESS : Z := Z.shiftl 1 11.

Inductive SubsidyHalvingInterval :=
  | IntervalBitcoin
  | IntervalRegtest.

(** [SubsidyHalvingInterval::get]. *)
Definition interval_get (i : SubsidyHalvingInterval) : Z :=
  match i with
  | IntervalBitcoin => SUBSIDY_HALVING_INTERVAL
  | IntervalRegtest => 150
  end.

Record ChainParams := mkChainParams {
  params : Params;
  genesis : Block;
  subsidy_halving_interval : SubsidyHalvingInterval;
  pow_target_timespan : Z;
  coinbase_maturity : Z;
  segwit_activation_height : Z;
  csv_activation_height : Z;
  exceptions : gmap BlockHash Z;
  network : Network;
  enforce_bip94 : bool
}.

(** [AssumeValidArg] ([chain_state.rs]). *)
Inductive AssumeValidArg :=
  | Disabled
  | Hardcoded
  | UserInput (h : BlockHash).

Section ChainParams.
Context `{HeaderLib}.

(** [get_exceptions]: blocks validated under other script flags. *)
Definition get_exceptions : gmap BlockHash Z :=
  <[0x00000000dd30457c001f4095d208cc1296b0eed002427aa599874af7a432b105 := VERIFY_NONE]>
  (<[0x0000000000000000000f14c35b2d841e986ab5441de8c585d5ffe55ea1e395ad
       := Z.lor VERIFY_P2SH VERIFY_WITNESS]>
  (<[0x00000000000002dc756eebf4f49723ed8d30cc28a5f108eb94b1ba88ac4f9c22 := VERIFY_NONE]>
   ∅)).

(** [From<Network> for ChainParams]. *)
Definition chain_params_from (n : Network) : ChainParams :=
  let two_weeks := 14 * 24 * 60 * 60 in
  let mk interval timespan segwit csv bip94 :=
    mkChainParams (params_new n) (genesis_block n) interval timespan 100 segwit csv
      get_exceptions n bip94 in
  match n with
  | Bitcoin => mk IntervalBitcoin two_weeks 481824 419328 false
  | Testnet => mk IntervalBitcoin two_weeks 834624 770112 false
  | Testnet4 => mk IntervalBitcoin two_weeks 1 1 true
  | Signet => mk IntervalBitcoin two_weeks 1 1 false
  | Regtest => mk IntervalRegtest (24 * 60 * 60) 0 1 false
  end.

(** [ChainParams::get_assume_valid]. *)
Definition get_assume_valid (n : Network) (arg : AssumeValidArg) : option BlockHash :=
  match arg with
  | Disabled => None
  | UserInput h => Some h
  | Hardcoded =>
      Some match n with
      | Bitcoin => 0x000000000000000000019d4afaefa42fc5b4211a7edcce7681a1478df661ead6
      | Signet => 0x00000008f507c8db68879442b1eea8c312fd66b445d4dd9b1b12c4bc8188ef64
      | Testnet => 0x000000005cf458fb1f79c8fee78822eead52aee40530a6bbe018cd61f22d6bb1
      | Testnet4 => 0x000000000066d17b237cd1ac323526731084c3eed82caeacd1ec028c6fea7276
      | Regtest => 0x0f9188f13cb7b2c71f2a335e3a4fc328bf5beb436012afca590b1a11466e2206
      end
  end.

(** [ChainParams::get_sigop_flags] (builds without [bitcoinkernel]). *)
Definition get_sigop_flags (c : ChainParams) (h : BlockHash) : Z :=
  match exceptions c !! h with
  | Some f => f
  | None => Z.lor VERIFY_P2SH VERIFY_WITNESS
  end.

(** [ChainParams::get_validation_flags] (builds with [bitcoinkernel]). *)
Definition get_validation_flags `{KernelLib} (c : ChainParams) (height : Z) (h : BlockHash) : Z :=
  match exceptions c !! h with
  | Some f => f
  | None =>
      let flags := Z.lor (Z.lor KERNEL_VERIFY_P2SH KERNEL_VERIFY_WITNESS) KERNEL_VERIFY_TAPROOT in
      let flags := if bip65_height (params c) <=? height
                   then Z.lor flags KERNEL_VERIFY_CHECKLOCKTIMEVERIFY else flags in
      let flags := if bip66_height (params c) <=? height
                   then Z.lor flags KERNEL_VERIFY_DERSIG else flags in
      let flags := if csv_activation_height c <=? height
                   then Z.lor flags KERNEL_VERIFY_CHECKSEQUENCEVERIFY else flags in
      let flags := if segwit_activation_height c <=? height
                   then Z.lor flags KERNEL_VERIFY_NULLDUMMY else flags in
      flags
  end.

(** The flags of a block, as selected by [#[cfg(feature = "bitcoinkernel")]]
    in the two validation functions. *)
Definition block_flags `{KernelLib} (c : ChainParams) (height : Z) (h : BlockHash) : Z :=
  if bitcoinkernel then get_validation_flags c height h else get_sigop_flags c h.
End ChainParams.
