(* ===== verification/Codec.v ===== *)
(** Consensus encoding: the interface of rust-bitcoin's [Encodable] and
    [Decodable] traits.

    An encoder appends bytes to a writer; a decoder consumes a prefix of a
    reader and returns the rest.  [CodecOk] is the promise of a codec to its
    clients: what was encoded is decoded back and the reader is left exactly
    after it.  Clients are proved against this class, so a theorem about a
    Floresta type holds for any implementation of the primitive codecs. *)

From stdpp Require Import base list strings.
From Stdlib Require Import ZArith Lia.
From S2P Require Import Prelude Bitcoin.

(** [encode::Error]: end of input, [ParseFailed] with its message, or
    [OversizedVectorAllocation]. *)
Inductive DecodeError :=
  | UnexpectedEof
  | ParseFailed (msg : string)
  | OversizedVectorAllocation (requested max : Z).

Class Codec (A : Type) := {
  enc : A -> list Z;
  dec : list Z -> outcome DecodeError (A * list Z)
}.

Class CodecOk (A : Type) `{!Codec A} (wf : A -> Prop) : Prop :=
  dec_enc : forall (a : A) (rest : list Z), wf a -> dec (enc a ++ rest) = Ok (a, rest).

(** Every encoding of the type has this many bytes. *)
Class CodecLen (A : Type) `{!Codec A} (n : nat) : Prop :=
  enc_length : forall a : A, length (enc a) = n.

(** The JSON encoding of a type by serde. *)
Class Json (A : Type) := {
  to_vec : A -> list Z;
  from_slice : list Z -> string + A
}.
Class JsonOk (A : Type) `{!Json A} : Prop :=
  from_to : forall a : A, from_slice (to_vec a) = inr a.

(** * Fixed-width little-endian integers *)

Definition take_bytes (n : nat) (r : list Z) : outcome DecodeError (list Z * list Z) :=
  if (n <=? length r)%nat then Ok (take n r, drop n r) else Err UnexpectedEof.

Definition dec_le (n : nat) (r : list Z) : outcome DecodeError (Z * list Z) :=
  p ← take_bytes n r; Ok (le_int (p.1), p.2).

(** Newtypes distinguish the widths: [u8], [u32], [u64] and 32-byte hashes. *)
Record u8 := U8 { u8_val : Z }.
Record u32 := U32 { u32_val : Z }.
Record u64 := U64 { u64_val : Z }.
Record hash32 := H32 { h32_val : Z }.

#[export] Instance u8_codec : Codec u8 :=
  {| enc a := le_bytes 1 (u8_val a); dec r := p ← dec_le 1 r; Ok (U8 p.1, p.2) |}.
#[export] Instance u32_codec : Codec u32 :=
  {| enc a := le_bytes 4 (u32_val a); dec r := p ← dec_le 4 r; Ok (U32 p.1, p.2) |}.
#[export] Instance u64_codec : Codec u64 :=
  {| enc a := le_bytes 8 (u64_val a); dec r := p ← dec_le 8 r; Ok (U64 p.1, p.2) |}.
#[export] Instance hash32_codec : Codec hash32 :=
  {| enc a := le_bytes 32 (h32_val a); dec r := p ← dec_le 32 r; Ok (H32 p.1, p.2) |}.

Lemma dec_le_bytes n z rest :
  0 <= z < 256 ^ Z.of_nat n -> dec_le n (le_bytes n z ++ rest) = Ok (z, rest).
Proof.
  intros Hz. unfold dec_le, take_bytes.
  rewrite length_app, length_le_bytes.
  destruct (Nat.leb_spec n (n + length rest)); [|lia]. cbn.
  rewrite take_app_le by (rewrite length_le_bytes; lia).
  rewrite take_ge by (rewrite length_le_bytes; lia).
  rewrite drop_app_le by (rewrite length_le_bytes; lia).
  rewrite drop_ge by (rewrite length_le_bytes; lia). cbn.
  by rewrite le_int_bytes.
Qed.

#[export] Instance u8_codec_ok : CodecOk u8 (fun a => 0 <= u8_val a < 256).
Proof.
  intros [z] rest Hz. cbn [u8_val] in Hz.
  cbn -[dec_le le_bytes]. rewrite (dec_le_bytes 1); [done|cbn; lia].
Qed.
#[export] Instance u32_codec_ok : CodecOk u32 (fun a => is_u32 (u32_val a)).
Proof.
  intros [z] rest Hz. unfold is_u32, u32_max in Hz. cbn [u32_val] in Hz.
  cbn -[dec_le le_bytes]. rewrite (dec_le_bytes 4); [done|cbn; lia].
Qed.
#[export] Instance u64_codec_ok : CodecOk u64 (fun a => is_u64 (u64_val a)).
Proof.
  intros [z] rest Hz. unfold is_u64, u64_max in Hz. cbn [u64_val] in Hz.
  cbn -[dec_le le_bytes]. rewrite (dec_le_bytes 8); [done|cbn; lia].
Qed.
#[export] Instance hash32_codec_ok : CodecOk hash32 (fun a => 0 <= h32_val a < 256 ^ 32).
Proof.
  intros [z] rest Hz. cbn [h32_val] in Hz.
  cbn -[dec_le le_bytes]. rewrite (dec_le_bytes 32); [done|exact Hz].
Qed.

#[export] Instance u8_codec_len : CodecLen u8 1.
Proof. intros a. apply length_le_bytes. Qed.
#[export] Instance u32_codec_len : CodecLen u32 4.
Proof. intros a. apply length_le_bytes. Qed.
#[export] Instance u64_codec_len : CodecLen u64 8.
Proof. intros a. apply length_le_bytes. Qed.
#[export] Instance hash32_codec_len : CodecLen hash32 32.
Proof. intros a. apply length_le_bytes. Qed.

(** * Sequences decoded by a counted loop *)

Fixpoint dec_many {A} `{!Codec A} (n : nat) (r : list Z)
  : outcome DecodeError (list A * list Z) :=
  match n with
  | O => Ok ([], r)
  | S n' => p ← dec r; q ← dec_many n' p.2; Ok (p.1 :: q.1, q.2)
  end.

Lemma dec_many_ok {A} `{!Codec A} wf `{!CodecOk A wf} (l : list A) rest :
  Forall wf l -> dec_many (length l) ((l ≫= enc) ++ rest) = Ok (l, rest).
Proof.
  induction 1 as [|a l Ha _ IH]; [done|].
  rewrite bind_cons, <-app_assoc. cbn [length dec_many].
  rewrite dec_enc by done. cbn [mbind outcome_bind fst snd].
  by rewrite IH.
Qed.
