(* ===== verification/Merkle.v ===== *)
(** Transaction Merkle trees.

    - [ConsensusMerkle] and [Consensus::check_merkle_root]
      ([floresta-chain/src/pruned_utreexo/merkle.rs]): [calculate_root],
      [reduce_level], [calculate_branch], [check_merkle_root];
    - the [MerkleBackend] trait ([floresta-common/src/merkle.rs]) as a type
      class;
    - [MerkleProof] ([floresta-watch-only/src/merkle.rs]), the wallet's
      inclusion proofs, against that class.

    The reference definition is the top-down tree [mroot]; the level-by-level
    loops of the code are proved equal to it. *)

From stdpp Require Import base list.
From Stdlib Require Import ZArith Lia.
From S2P Require Import Prelude Bitcoin Codec.

Open Scope Z_scope.

(** [MerkleBackend]: the sibling hashes of a position, [None] when it is out
    of bounds. *)
Class MerkleBackend := {
  calculate_branch : list Z -> nat -> outcome unit (option (list Z))
}.

Section ConsensusMerkle.
Context `{HashLib}.

(** Each pair's packed [left || right] input, an unpaired last hash being
    duplicated. *)
Fixpoint pack_pairs (level : list Z) : list (list Z) :=
  match level with
  | [] => []
  | [l] => [to_byte_array l ++ to_byte_array l]
  | l :: r :: rest => (to_byte_array l ++ to_byte_array r) :: pack_pairs rest
  end.

(** [ConsensusMerkle::reduce_level]. *)
Definition reduce_level (level : list Z) : list Z := map sha256d (pack_pairs level).

(** The loop over [level.chunks_exact(2)] that sets [mutated]. *)
Fixpoint equal_siblings (level : list Z) : bool :=
  match level with
  | a :: b :: rest => (a =? b) || equal_siblings rest
  | _ => false
  end.

(** The [while level.len() > 1] loop of [calculate_root]. *)
Fixpoint root_loop (fuel : nat) (level : list Z) (mutated : bool) : list Z * bool :=
  match fuel with
  | O => (level, mutated)
  | S fuel' =>
      if (1 <? length level)%nat
      then root_loop fuel' (reduce_level level) (mutated || equal_siblings level)
      else (level, mutated)
  end.

(** [ConsensusMerkle::calculate_root]; every level is shorter than the one
    below, so the number of leaves is enough fuel ([root_loop_enough]). *)
Definition calculate_root (txids : list Z) : option (Z * bool) :=
  match txids with
  | [] => None
  | _ =>
      let '(level, mutated) := root_loop (length txids) txids false in
      root ← head level; Some (root, mutated)
  end.

(** The [while level.len() > 1] loop of [calculate_branch]. *)
Fixpoint branch_loop (fuel : nat) (level : list Z) (position : nat) (branch : list Z)
  : outcome unit (list Z) :=
  match fuel with
  | O => if (1 <? length level)%nat then Diverge else Ok branch
  | S fuel' =>
      if (1 <? length level)%nat then
        current ← expect (level !! position);
        let sibling := default current (level !! (Nat.lxor position 1)) in
        branch_loop fuel' (reduce_level level) (position / 2) (branch ++ [sibling])
      else Ok branch
  end.

(** [MerkleBackend::calculate_branch] of [ConsensusMerkle]. *)
Definition consensus_calculate_branch (leaves : list Z) (position : nat)
  : outcome unit (option (list Z)) :=
  if (length leaves <=? position)%nat then Ok None
  else branch ← branch_loop (length leaves) leaves position []; Ok (Some branch).

#[export] Instance ConsensusMerkleBackend : MerkleBackend :=
  {| calculate_branch := consensus_calculate_branch |}.

(** [Consensus::check_merkle_root]. *)
Definition check_merkle_root `{TxLib} (block : Block) : option (list Txid) :=
  let txids := map compute_txid (txdata block) in
  let '(root, mutated) := default (all_zeros, false) (calculate_root txids) in
  if negb mutated && (hd_merkle_root (blk_header block) =? root) then Some txids else None.
End ConsensusMerkle.

(** * [MerkleProof] *)

Record MerkleProof := mkMerkleProof {
  mp_target : Txid;
  mp_pos : Z;
  mp_hashes : list Z
}.

Section MerkleProof.
Context `{HashLib}.

(** [MerkleProof::parent_hash]. *)
Definition parent_hash (l r : Z) : Z := sha256d (to_byte_array l ++ to_byte_array r).

(** The loop of [MerkleProof::verify]. *)
Fixpoint verify_loop (computed placement : Z) (hashes : list Z) : Z :=
  match hashes with
  | [] => computed
  | hash :: rest =>
      let computed := if Z.land placement 1 =? 0
                      then parent_hash computed hash else parent_hash hash computed in
      verify_loop computed (Z.shiftr placement 1) rest
  end.

(** [MerkleProof::verify]. *)
Definition mp_verify (p : MerkleProof) (root : Z) : bool :=
  root =? verify_loop (mp_target p) (mp_pos p) (mp_hashes p).

(** [MerkleProof::from_block_hashes] and [from_block]. *)
Definition from_block_hashes `{MerkleBackend} (tx_list : list Z) (target : Z)
  : outcome unit MerkleProof :=
  target_hash ← expect (tx_list !! Z.to_nat target);
  branch ← calculate_branch tx_list (Z.to_nat target);
  proof ← expect branch;
  Ok (mkMerkleProof target_hash target proof).

Definition from_block `{TxLib, MerkleBackend} (block : Block) (target : Z)
  : outcome unit MerkleProof :=
  from_block_hashes (map compute_txid (txdata block)) target.

(** [Encodable] / [Decodable] for [MerkleProof]: position, target, number of
    hashes, hashes. *)
Definition mp_enc (p : MerkleProof) : list Z :=
  enc (U64 (mp_pos p)) ++ enc (H32 (mp_target p)) ++
  enc (U64 (Z.of_nat (length (mp_hashes p)))) ++ (map H32 (mp_hashes p) ≫= enc).

Definition mp_dec (r : list Z) : outcome DecodeError (MerkleProof * list Z) :=
  '(pos, r) ← dec (A:=u64) r;
  '(target, r) ← dec (A:=hash32) r;
  '(len, r) ← dec (A:=u64) r;
  '(hashes, r) ← dec_many (A:=hash32) (Z.to_nat (u64_val len)) r;
  Ok (mkMerkleProof (h32_val target) (u64_val pos) (map h32_val hashes), r).
End MerkleProof.

(** * The reference tree *)

Section Reference.
Context `{HashLib}.

(** The root of a tree of depth [n] over the leaves [l]: the left subtree has
    the first [2^n] leaves, and an empty right subtree repeats the left one. *)
Fixpoint mroot (n : nat) (l : list Z) : Z :=
  match n with
  | O => default 0 (head l)
  | S n' =>
      let lroot := mroot n' (take (2 ^ n')%nat l) in
      match drop (2 ^ n')%nat l with
      | [] => parent_hash lroot lroot
      | r => parent_hash lroot (mroot n' r)
      end
  end.

(** Some level of the tree over [l] has two equal real siblings. *)
Fixpoint mutated_levels (n : nat) (l : list Z) : bool :=
  match n with
  | O => false
  | S n' => equal_siblings l || mutated_levels n' (reduce_level l)
  end.

(** [n] is the depth of the tree over [l]. *)
Definition tree_depth (n : nat) (l : list Z) : Prop :=
  (length l <= 2 ^ n)%nat /\ match n with O => (0 < length l)%nat | S k => (2 ^ k < length l)%nat end.

(** The strings that are hashed to compute the tree of depth [n] over [l], and
    the ones hashed by [MerkleProof::verify]. *)
Fixpoint tree_inputs (n : nat) (l : list Z) : list (list Z) :=
  match n with
  | O => []
  | S n' => pack_pairs l ++ tree_inputs n' (reduce_level l)
  end.
Fixpoint verify_inputs (computed placement : Z) (hashes : list Z) : list (list Z) :=
  match hashes with
  | [] => []
  | hash :: rest =>
      let input := if Z.land placement 1 =? 0
                   then to_byte_array computed ++ to_byte_array hash
                   else to_byte_array hash ++ to_byte_array computed in
      input :: verify_inputs (sha256d input) (Z.shiftr placement 1) rest
  end.

(** Two of the strings that were hashed differ and have the same hash. *)
Definition collision (xs ys : list (list Z)) : Prop :=
  exists x y, x ∈ xs /\ y ∈ ys /\ x <> y /\ sha256d x = sha256d y.

Definition is_hash (z : Z) : Prop := 0 <= z < 256 ^ 32.
End Reference.

(** * Lemmas on levels *)

Section Lemmas.
Context `{HashLib}.

(** Induction two elements at a time. *)
Lemma pair_ind (P : list Z -> Prop) :
  P [] -> (forall a, P [a]) -> (forall a b l, P l -> P (a :: b :: l)) -> forall l, P l.
Proof.
  intros H0 H1 H2 l. enough (P l /\ forall a, P (a :: l)) by tauto.
  induction l as [|b l [IHa IHb]]; auto.
Qed.

Lemma length_reduce l : length (reduce_level l) = ((length l + 1) / 2)%nat.
Proof.
  unfold reduce_level. rewrite length_map.
  induction l as [|a|a b l IH] using pair_ind; [done..|].
  cbn [pack_pairs length]. rewrite IH.
  replace (S (S (length l)) + 1)%nat with ((length l + 1) + 1 * 2)%nat by lia.
  rewrite Nat.div_add by lia. lia.
Qed.

Lemma reduce_take k l : reduce_level (take (2 * k) l) = take k (reduce_level l).
Proof.
  unfold reduce_level. revert k.
  induction l as [|a|a b l IH] using pair_ind; intros [|k]; try done.
  - cbn. by rewrite !take_nil.
  - replace (2 * S k)%nat with (S (S (2 * k))) by lia.
    cbn [take pack_pairs map]. f_equal. apply IH.
Qed.

Lemma reduce_drop k l : reduce_level (drop (2 * k) l) = drop k (reduce_level l).
Proof.
  unfold reduce_level. revert k.
  induction l as [|a|a b l IH] using pair_ind; intros [|k]; try done.
  - replace (2 * S k)%nat with (S (S (2 * k))) by lia. cbn. by rewrite !drop_nil.
  - replace (2 * S k)%nat with (S (S (2 * k))) by lia.
    cbn [drop pack_pairs map]. apply IH.
Qed.

Lemma reduce_nil_iff l : reduce_level l = [] <-> l = [].
Proof. destruct l as [|a [|b l]]; cbn; done. Qed.

Lemma mroot_S n l :
  mroot (S n) l =
  match drop (2 ^ n) l with
  | [] => parent_hash (mroot n (take (2 ^ n) l)) (mroot n (take (2 ^ n) l))
  | _ => parent_hash (mroot n (take (2 ^ n) l)) (mroot n (drop (2 ^ n) l))
  end.
Proof. cbn [mroot]. by destruct (drop (2 ^ n) l). Qed.

Lemma pow2_pos n : (0 < 2 ^ n)%nat.
Proof. induction n; cbn; lia. Qed.

Lemma mroot_reduce n l :
  l <> [] -> (length l <= 2 ^ S n)%nat -> mroot (S n) l = mroot n (reduce_level l).
Proof.
  revert l. induction n as [|n IH]; intros l Hne Hlen.
  - destruct l as [|a [|b [|c l]]]; done.
  - pose proof (pow2_pos n).
    assert (Hp : (2 ^ S n = 2 * 2 ^ n)%nat) by (cbn; lia).
    assert (Hp' : (2 ^ S (S n) = 2 * 2 ^ S n)%nat) by (cbn; lia).
    rewrite (mroot_S (S n)), (mroot_S n (reduce_level l)).
    rewrite (IH (take (2 ^ S n) l)).
    2: { destruct l; [done|]. rewrite Hp. destruct (2 * 2 ^ n)%nat eqn:E; [lia|done]. }
    2: { rewrite length_take. lia. }
    rewrite Hp, reduce_take, <-reduce_drop.
    destruct (drop (2 * 2 ^ n) l) as [|x r] eqn:Hd; [done|].
    rewrite <-Hd, (IH (drop (2 * 2 ^ n) l)).
    2: by rewrite Hd.
    2: rewrite length_drop; lia.
    destruct (reduce_level (drop (2 * 2 ^ n) l)) eqn:Hr; [|done].
    apply (proj1 (reduce_nil_iff _)) in Hr. congruence.
Qed.

(** ** Depth *)

Lemma tree_depth_nonempty n l : tree_depth n l -> l <> [].
Proof.
  intros [_ Hd] ->. destruct n; cbn [length] in Hd; [|pose proof (pow2_pos n)]; lia.
Qed.

Lemma tree_depth_0 l : tree_depth 0 l -> exists x, l = [x].
Proof.
  intros [Hl Hp]. destruct l as [|x [|y l]]; cbn in *; try lia. by exists x.
Qed.

Lemma tree_depth_S n l : tree_depth (S n) l -> (1 < length l)%nat /\ tree_depth n (reduce_level l).
Proof.
  intros [Hle Hlt]. pose proof (pow2_pos n). split; [lia|].
  unfold tree_depth. rewrite length_reduce.
  assert (Hp : (2 ^ S n = 2 * 2 ^ n)%nat) by (cbn; lia).
  split.
  - apply Nat.lt_succ_r. apply Nat.Div0.div_lt_upper_bound. lia.
  - destruct n as [|k].
    + apply Nat.div_str_pos. lia.
    + assert (Hk : (2 ^ S k = 2 * 2 ^ k)%nat) by (cbn; lia).
      apply Nat.div_le_lower_bound; lia.
Qed.

Lemma tree_depth_exists l : l <> [] -> exists n, tree_depth n l /\ (n <= length l)%nat.
Proof.
  intros Hne. assert (Hl : (0 < length l)%nat) by (destruct l; cbn; [done|lia]).
  exists (Nat.log2_up (length l)). unfold tree_depth.
  destruct (decide (length l = 1%nat)) as [->|Hn]; [cbn; lia|].
  pose proof (Nat.log2_up_spec (length l) ltac:(lia)) as [Hlo Hhi].
  pose proof (Nat.log2_up_le_lin (length l) ltac:(lia)).
  pose proof (Nat.log2_up_pos (length l) ltac:(lia)).
  destruct (Nat.log2_up (length l)) as [|k] eqn:E; [lia|]. cbn [Nat.pred] in Hlo. lia.
Qed.

Lemma tree_depth_unique n m l : tree_depth n l -> tree_depth m l -> n = m.
Proof.
  revert m l. induction n as [|n IH]; intros [|m] l Hn Hm; auto.
  - apply tree_depth_0 in Hn as [x ->]. apply tree_depth_S in Hm. cbn in Hm. lia.
  - apply tree_depth_0 in Hm as [x ->]. apply tree_depth_S in Hn. cbn in Hn. lia.
  - apply tree_depth_S in Hn, Hm. f_equal. eapply IH; [apply Hn|apply Hm].
Qed.

(** ** The loops reach the reference tree *)

Lemma root_loop_spec n : forall l fuel m,
  tree_depth n l -> (n <= fuel)%nat ->
  root_loop fuel l m = ([mroot n l], m || mutated_levels n l).
Proof.
  induction n as [|n IH]; intros l fuel m Hd Hf.
  - apply tree_depth_0 in Hd as [x ->]. destruct fuel; cbn; by rewrite orb_false_r.
  - destruct fuel as [|fuel]; [lia|].
    pose proof (tree_depth_nonempty _ _ Hd). pose proof Hd as [Hle _].
    apply tree_depth_S in Hd as [Hl Hd]. cbn [root_loop].
    destruct (Nat.ltb_spec 1 (length l)); [|lia].
    rewrite (IH _ _ _ Hd) by lia. rewrite mroot_reduce by done.
    cbn [mutated_levels]. by rewrite orb_assoc.
Qed.

(** ** Siblings and parents *)

Lemma lxor_1 p : Nat.lxor p 1 = if Nat.even p then (p + 1)%nat else (p - 1)%nat.
Proof.
  destruct (Nat.even p) eqn:E.
  - apply Nat.even_spec in E as [q ->].
    apply Nat.bits_inj. intros [|k].
    + rewrite Nat.lxor_spec, Nat.testbit_even_0, Nat.testbit_odd_0. done.
    + rewrite Nat.lxor_spec, Nat.testbit_even_succ', Nat.testbit_odd_succ'.
      cbn. by rewrite Nat.bits_0, xorb_false_r.
  - assert (Ho : Nat.odd p = true) by (unfold Nat.odd; by rewrite E).
    apply Nat.odd_spec in Ho as [q ->].
    replace (2 * q + 1 - 1)%nat with (2 * q)%nat by lia.
    apply Nat.bits_inj. intros [|k].
    + rewrite Nat.lxor_spec, Nat.testbit_even_0, Nat.testbit_odd_0. done.
    + rewrite Nat.lxor_spec, Nat.testbit_even_succ', Nat.testbit_odd_succ'.
      cbn. by rewrite Nat.bits_0, xorb_false_r.
Qed.

(** The string hashed for the parent of position [p], and that parent. *)
Lemma pack_lookup l p x :
  l !! p = Some x ->
  pack_pairs l !! (p / 2)%nat =
    Some (let sibling := default x (l !! (Nat.lxor p 1)) in
          if Nat.even p then to_byte_array x ++ to_byte_array sibling
          else to_byte_array sibling ++ to_byte_array x).
Proof.
  rewrite lxor_1. revert p.
  induction l as [|a|a b l IH] using pair_ind; intros p Hp; [done| |].
  - destruct p as [|p]; [|done]. cbn in Hp. injection Hp as <-. done.
  - destruct p as [|[|p]]; [by injection Hp as <-|by injection Hp as <-|].
    cbn in Hp. replace (S (S p)) with (p + 1 * 2)%nat by lia.
    rewrite Nat.div_add, Nat.add_1_r by lia.
    transitivity (pack_pairs l !! (p / 2)%nat); [done|].
    rewrite (IH _ Hp). replace (p + 1 * 2)%nat with (S (S p)) by lia. cbn [Nat.even].
    destruct (Nat.even p) eqn:E; [by rewrite !Nat.add_1_r|].
    destruct p as [|p]; [done|]. cbn. by rewrite Nat.sub_0_r.
Qed.

Lemma reduce_lookup l p x :
  l !! p = Some x ->
  reduce_level l !! (p / 2)%nat =
    Some (let sibling := default x (l !! (Nat.lxor p 1)) in
          if Nat.even p then parent_hash x sibling else parent_hash sibling x).
Proof.
  intros Hp. unfold reduce_level. change (map sha256d (pack_pairs l)) with (sha256d <$> pack_pairs l).
  rewrite list_lookup_fmap, (pack_lookup _ _ _ Hp). cbn. by destruct (Nat.even p).
Qed.

Lemma placement_even p : (Z.land (Z.of_nat p) 1 =? 0) = Nat.even p.
Proof.
  rewrite (Z.land_ones _ 1) by lia. change (2 ^ 1) with 2.
  destruct (Nat.even p) eqn:E.
  - apply Nat.even_spec in E as [q ->].
    apply Z.eqb_eq. rewrite Nat2Z.inj_mul, Z.mul_comm. apply Z.mod_mul. lia.
  - assert (Ho : Nat.odd p = true) by (unfold Nat.odd; by rewrite E).
    apply Nat.odd_spec in Ho as [q ->]. apply Z.eqb_neq.
    rewrite Nat2Z.inj_add, Nat2Z.inj_mul, Z.add_comm, Z.mul_comm, Z.mod_add by lia. done.
Qed.

Lemma placement_half p : Z.shiftr (Z.of_nat p) 1 = Z.of_nat (p / 2).
Proof. rewrite Z.shiftr_div_pow2 by lia. by rewrite Nat2Z.inj_div. Qed.

Lemma branch_loop_spec n : forall l fuel p x acc,
  tree_depth n l -> (n <= fuel)%nat -> l !! p = Some x ->
  exists br, branch_loop fuel l p acc = Ok (acc ++ br) /\ length br = n /\
             verify_loop x (Z.of_nat p) br = mroot n l.
Proof.
  induction n as [|n IH]; intros l fuel p x acc Hd Hf Hp.
  - apply tree_depth_0 in Hd as [y ->]. exists [].
    assert (p = 0%nat) as -> by (apply lookup_lt_Some in Hp; cbn in Hp; lia).
    injection Hp as <-. rewrite app_nil_r. by destruct fuel.
  - destruct fuel as [|fuel]; [lia|].
    pose proof (tree_depth_nonempty _ _ Hd). pose proof Hd as [Hle _].
    apply tree_depth_S in Hd as [Hl Hd]. cbn [branch_loop].
    destruct (Nat.ltb_spec 1 (length l)); [|lia].
    rewrite Hp. cbn [mbind outcome_bind expect].
    set (sib := default x (l !! Nat.lxor p 1)).
    pose proof (reduce_lookup _ _ _ Hp) as Hq.
    destruct (IH _ fuel _ _ (acc ++ [sib]) Hd ltac:(lia) Hq) as (br & Hbr & Hlen & Hv).
    exists (sib :: br). rewrite Hbr, <-app_assoc. split_and!; [done|cbn; lia|].
    cbn [verify_loop]. rewrite placement_even, placement_half, mroot_reduce by done.
    rewrite <-Hv. by destruct (Nat.even p).
Qed.

(** ** Unmutated levels determine their leaves *)

Lemma to_byte_array_inj a b :
  is_hash a -> is_hash b -> to_byte_array a = to_byte_array b -> a = b.
Proof.
  unfold to_byte_array, is_hash. intros Ha Hb E.
  rewrite <-(le_int_bytes 32 a), <-(le_int_bytes 32 b) by (cbn in *; lia). by rewrite E.
Qed.

Lemma pack_inj2 a b c d :
  is_hash a -> is_hash b -> is_hash c -> is_hash d ->
  to_byte_array a ++ to_byte_array b = to_byte_array c ++ to_byte_array d -> a = c /\ b = d.
Proof.
  intros ???? E. apply app_inj_1 in E as [E1 E2].
  - split; by apply to_byte_array_inj.
  - unfold to_byte_array. by rewrite !length_le_bytes.
Qed.

Lemma cons_inj {A} (a b : A) l1 l2 : a :: l1 = b :: l2 -> a = b /\ l1 = l2.
Proof. by intros [= -> ->]. Qed.

Lemma pack_pairs_inj l1 : forall l2,
  Forall is_hash l1 -> Forall is_hash l2 ->
  equal_siblings l1 = false -> equal_siblings l2 = false ->
  pack_pairs l1 = pack_pairs l2 -> l1 = l2.
Proof.
  induction l1 as [|a|a b l1 IH] using pair_ind; intros l2 H1 H2 M1 M2 E;
    destruct l2 as [|c [|d l2]]; try done;
    repeat match goal with
    | Hf : Forall _ (_ :: _) |- _ => apply Forall_cons in Hf as [??]
    end; cbn [pack_pairs equal_siblings] in *; apply cons_inj in E as [E Er].
  - apply pack_inj2 in E as [-> _]; done.
  - apply pack_inj2 in E as [-> ->]; try done. by rewrite Z.eqb_refl in M2.
  - apply pack_inj2 in E as [-> ->]; try done. by rewrite Z.eqb_refl in M1.
  - apply orb_false_iff in M1 as [_ M1], M2 as [_ M2].
    apply pack_inj2 in E as [-> ->]; try done. by rewrite (IH l2).
Qed.

Lemma collision_app xs xs' ys ys' :
  collision xs ys \/ collision xs' ys' -> collision (xs ++ xs') (ys ++ ys').
Proof.
  intros [(x & y & Hx & Hy & Hne & E)|(x & y & Hx & Hy & Hne & E)]; exists x, y;
    (split_and!; [apply elem_of_app; auto|apply elem_of_app; auto|done|done]).
Qed.

Lemma map_sha256d_inj p1 : forall p2,
  map sha256d p1 = map sha256d p2 -> p1 = p2 \/ collision p1 p2.
Proof.
  induction p1 as [|x p1 IH]; intros [|y p2] E; try done; [by left|].
  injection E as E Er. destruct (decide (x = y)) as [->|Hne].
  - destruct (IH p2 Er) as [->|Hc]; [by left|right]. apply (collision_app [y] p1 [y] p2). by right.
  - right. exists x, y. split_and!; [left|left|done|done].
Qed.

Lemma reduce_is_hash l : (forall x, is_hash (sha256d x)) -> Forall is_hash (reduce_level l).
Proof. intros Hr. unfold reduce_level. apply Forall_map, Forall_true. intros. apply Hr. Qed.

Lemma mroot_unmutated_inj n : (forall x, is_hash (sha256d x)) -> forall l1 l2,
  tree_depth n l1 -> tree_depth n l2 -> Forall is_hash l1 -> Forall is_hash l2 ->
  mutated_levels n l1 = false -> mutated_levels n l2 = false ->
  mroot n l1 = mroot n l2 -> l1 = l2 \/ collision (tree_inputs n l1) (tree_inputs n l2).
Proof.
  intros Hr. induction n as [|n IH]; intros l1 l2 D1 D2 H1 H2 M1 M2 E.
  - apply tree_depth_0 in D1 as [x ->], D2 as [y ->]. cbn in E. left. by f_equal.
  - pose proof (tree_depth_nonempty _ _ D1). pose proof (tree_depth_nonempty _ _ D2).
    pose proof D1 as [L1 _]. pose proof D2 as [L2 _].
    rewrite !mroot_reduce in E by done.
    apply tree_depth_S in D1 as [_ D1], D2 as [_ D2].
    apply orb_false_iff in M1 as [S1 M1], M2 as [S2 M2].
    destruct (IH _ _ D1 D2 (reduce_is_hash _ Hr) (reduce_is_hash _ Hr) M1 M2 E) as [Er|];
      [|right; apply collision_app; by right].
    destruct (map_sha256d_inj _ _ Er) as [Ep|]; [|right; apply collision_app; by left].
    left. by apply pack_pairs_inj.
Qed.

Lemma verify_loop_cons x p sib br :
  verify_loop x p (sib :: br) =
  verify_loop (sha256d (if Z.land p 1 =? 0 then to_byte_array x ++ to_byte_array sib
                        else to_byte_array sib ++ to_byte_array x)) (Z.shiftr p 1) br.
Proof. cbn [verify_loop]. by destruct (_ =? _). Qed.

Lemma verify_loop_sound n : (forall x, is_hash (sha256d x)) -> forall l p x y br,
  tree_depth n l -> Forall is_hash l -> Forall is_hash br -> is_hash x ->
  length br = n -> l !! p = Some y ->
  verify_loop x (Z.of_nat p) br = mroot n l ->
  x = y \/ collision (verify_inputs x (Z.of_nat p) br) (tree_inputs n l).
Proof.
  intros Hr. induction n as [|n IH]; intros l p x y br D Hl Hb Hx Hn Hp E.
  - apply tree_depth_0 in D as [z ->].
    assert (p = 0%nat) as -> by (apply lookup_lt_Some in Hp; cbn in Hp; lia).
    injection Hp as <-. destruct br; [|done]. by left.
  - destruct br as [|sib br]; [done|]. apply Forall_cons in Hb as [Hs Hb].
    pose proof (tree_depth_nonempty _ _ D). pose proof D as [Hle _].
    apply tree_depth_S in D as [_ D]. rewrite mroot_reduce, verify_loop_cons in E by done.
    pose proof (reduce_lookup _ _ _ Hp) as Hq. pose proof (pack_lookup _ _ _ Hp) as Hk.
    assert (Hy : is_hash y) by exact (Forall_lookup_1 _ _ _ _ Hl Hp).
    assert (Hd : is_hash (default y (l !! Nat.lxor p 1))).
    { destruct (l !! Nat.lxor p 1) eqn:El; [exact (Forall_lookup_1 _ _ _ _ Hl El)|exact Hy]. }
    cbn [verify_inputs tree_inputs]. rewrite placement_even, placement_half in *. cbv zeta in *.
    set (s1 := if Nat.even p then to_byte_array x ++ _ else _) in *.
    set (s2 := if Nat.even p then to_byte_array y ++ _ else _) in *.
    assert (Es2 : (if Nat.even p then parent_hash y (default y (l !! Nat.lxor p 1))
                   else parent_hash (default y (l !! Nat.lxor p 1)) y) = sha256d s2)
      by (unfold s2; by destruct (Nat.even p)).
    rewrite Es2 in Hq.
    destruct (IH _ _ _ _ _ D (reduce_is_hash _ Hr) Hb (Hr _) ltac:(by injection Hn) Hq E) as [Ep|Hc];
      [|right; apply (collision_app [s1]); by right].
    destruct (decide (s1 = s2)) as [E12|Hne].
    + left. unfold s1, s2 in E12. destruct (Nat.even p); apply pack_inj2 in E12 as [? ?]; done.
    + right. apply (collision_app [s1]). left. exists s1, s2.
      split_and!; [left|by eapply list_elem_of_lookup_2|done|done].
Qed.

Lemma calculate_root_eq n l :
  tree_depth n l -> calculate_root l = Some (mroot n l, mutated_levels n l).
Proof.
  intros Hd. pose proof (tree_depth_nonempty _ _ Hd) as Hne.
  destruct (tree_depth_exists _ Hne) as (n' & Hd' & Hle).
  assert (n' = n) as -> by (by eapply tree_depth_unique).
  unfold calculate_root. rewrite (root_loop_spec _ _ _ _ Hd) by done. by destruct l.
Qed.
End Lemmas.

(** * Theorems *)

(** What a [MerkleBackend] promises to the wallet: for every position the
    branch it returns hashes up to the block's Merkle root. *)
Class MerkleBackendOk `{HashLib, MerkleBackend} : Prop := {
  branch_to_root : forall leaves pos leaf,
    leaves !! pos = Some leaf ->
    exists br root mutated,
      calculate_branch leaves pos = Ok (Some br) /\
      calculate_root leaves = Some (root, mutated) /\
      verify_loop leaf (Z.of_nat pos) br = root;
  branch_out_of_bounds : forall leaves pos,
    (length leaves <= pos)%nat -> calculate_branch leaves pos = Ok None
}.

#[export] Instance ConsensusMerkleBackendOk `{HashLib} : MerkleBackendOk.
Proof.
  split.
  - intros leaves pos leaf Hp. pose proof (lookup_lt_Some _ _ _ Hp).
    assert (Hne : leaves <> []) by (by destruct leaves).
    destruct (tree_depth_exists _ Hne) as (n & Hd & Hle).
    destruct (branch_loop_spec n _ (length leaves) _ _ [] Hd Hle Hp) as (br & Hbr & _ & Hv).
    exists br, (mroot n leaves), (mutated_levels n leaves).
    split_and!; [|by apply calculate_root_eq|done]. cbn. unfold consensus_calculate_branch.
    destruct (Nat.leb_spec (length leaves) pos); [lia|]. by rewrite Hbr.
  - intros leaves pos Hle. cbn. unfold consensus_calculate_branch.
    by destruct (Nat.leb_spec (length leaves) pos); [|lia].
Qed.

Section Theorems.
Context `{HashLib}.

(** C29: The level-by-level loop of calculate_root computes the root of the recursive
    Merkle tree of the transaction ids, with odd levels padded by their last node, and
    reports a mutation exactly when two real siblings of some level are equal; it
    terminates for every non-empty list. *)
Theorem calculate_root_spec (txids : list Z) (Hne : txids <> []) :
  exists n, tree_depth n txids /\
    calculate_root txids = Some (mroot n txids, mutated_levels n txids).
Proof.
  destruct (tree_depth_exists _ Hne) as (n & Hd & _). exists n.
  split; [done|by apply calculate_root_eq].
Qed.

(** C28: CVE-2012-2459: if check_merkle_root accepts two blocks with the same Merkle
    root in the header and transaction trees of the same depth, both have the same
    transaction ids, unless two different inputs hashed in these two trees collide under
    SHA256d. *)
Theorem check_merkle_root_no_malleation `{TxLib} (b1 b2 : Block) (ids1 ids2 : list Txid) (n : nat)
  (Hrange : forall x, is_hash (sha256d x))
  (Hid : forall tx, is_hash (compute_txid tx))
  (D1 : tree_depth n (map compute_txid (txdata b1)))
  (D2 : tree_depth n (map compute_txid (txdata b2)))
  (H1 : check_merkle_root b1 = Some ids1)
  (H2 : check_merkle_root b2 = Some ids2)
  (Hroot : hd_merkle_root (blk_header b1) = hd_merkle_root (blk_header b2)) :
  ids1 = ids2 \/ collision (tree_inputs n ids1) (tree_inputs n ids2).
Proof.
  unfold check_merkle_root in *.
  rewrite (calculate_root_eq _ _ D1) in H1. rewrite (calculate_root_eq _ _ D2) in H2.
  cbn in H1, H2.
  destruct (mutated_levels n _) eqn:M1 in H1; [done|].
  destruct (mutated_levels n _) eqn:M2 in H2; [done|]. cbn in H1, H2.
  destruct (Z.eqb_spec (hd_merkle_root (blk_header b1))
              (mroot n (map compute_txid (txdata b1)))) as [E1|]; [|done].
  destruct (Z.eqb_spec (hd_merkle_root (blk_header b2))
              (mroot n (map compute_txid (txdata b2)))) as [E2|]; [|done].
  injection H1 as <-. injection H2 as <-.
  apply (mroot_unmutated_inj n Hrange); auto; try congruence;
    apply Forall_map, Forall_true; intros; apply Hid.
Qed.

(** The proof built by from_block_hashes for any position of a block verifies against
    the root that calculate_root computes for that block. *)
Theorem wallet_proof_verifies `{!MerkleBackend, !MerkleBackendOk} (tx_list : list Z) (target : Z)
  (Hlo : 0 <= target) (Hhi : target < Z.of_nat (length tx_list)) :
  exists p root mutated,
    from_block_hashes tx_list target = Ok p /\
    calculate_root tx_list = Some (root, mutated) /\
    mp_verify p root = true.
Proof.
  destruct (lookup_lt_is_Some_2 tx_list (Z.to_nat target)) as [leaf Hleaf]; [lia|].
  destruct (branch_to_root _ _ _ Hleaf) as (br & root & m & Hbr & Hroot & Hv).
  exists (mkMerkleProof leaf target br), root, m. split_and!; [|done|].
  - unfold from_block_hashes. rewrite Hleaf. cbn. by rewrite Hbr.
  - unfold mp_verify. cbn. rewrite Z2Nat.id in Hv by done. rewrite Hv. apply Z.eqb_refl.
Qed.

(** A wallet Merkle proof of the right length that verifies against the root of a block,
    at a position that exists in it, proves the transaction at that position, unless an
    input hashed by the verification collides with one hashed in the tree. *)
Theorem wallet_proof_sound (tx_list : list Z) (p : MerkleProof) (n : nat) (leaf root : Z) (m : bool)
  (Hrange : forall x, is_hash (sha256d x))
  (Hdepth : tree_depth n tx_list)
  (Hroot : calculate_root tx_list = Some (root, m))
  (Hleaves : Forall is_hash tx_list)
  (Hhashes : Forall is_hash (mp_hashes p))
  (Htarget : is_hash (mp_target p))
  (Hlen : length (mp_hashes p) = n)
  (Hpos : 0 <= mp_pos p)
  (Hleaf : tx_list !! Z.to_nat (mp_pos p) = Some leaf)
  (Hv : mp_verify p root = true) :
  mp_target p = leaf \/
  collision (verify_inputs (mp_target p) (mp_pos p) (mp_hashes p)) (tree_inputs n tx_list).
Proof.
  rewrite (calculate_root_eq _ _ Hdepth) in Hroot. injection Hroot as <- _.
  apply Z.eqb_eq in Hv. rewrite <-(Z2Nat.id (mp_pos p)) in Hv by done.
  rewrite <-(Z2Nat.id (mp_pos p)) by done. by eapply (verify_loop_sound n Hrange).
Qed.

(** Decoding an encoded wallet Merkle proof returns the proof and the rest of the input. *)
Theorem merkle_proof_roundtrip (p : MerkleProof) (rest : list Z)
  (Hpos : is_u64 (mp_pos p)) (Htarget : is_hash (mp_target p))
  (Hlen : is_u64 (Z.of_nat (length (mp_hashes p)))) (Hh : Forall is_hash (mp_hashes p)) :
  mp_dec (mp_enc p ++ rest) = Ok (p, rest).
Proof.
  unfold mp_dec, mp_enc. rewrite <-!app_assoc.
  rewrite dec_enc by done. cbn [mbind outcome_bind].
  rewrite dec_enc by done. cbn [mbind outcome_bind].
  rewrite dec_enc by done. cbn [mbind outcome_bind u64_val].
  rewrite Nat2Z.id, <-(length_map H32 (mp_hashes p)).
  rewrite (dec_many_ok (fun a => 0 <= h32_val a < 256 ^ 32)).
  - cbn. rewrite map_map. cbn. rewrite map_id. by destruct p.
  - apply Forall_map. eapply Forall_impl; [exact Hh|]. done.
Qed.
End Theorems.
