(* ===== verification/Sigops.v ===== *)
(** Signature-operation costs
    ([crates/floresta-chain/src/pruned_utreexo/sigops.rs]) and the [UtxoData]
    record ([pruned_utreexo/mod.rs]) they read. *)

From stdpp Require Import base gmap list.
From Stdlib Require Import ZArith Lia.
From S2P Require Import Prelude Bitcoin ChainParams.

(** [UtxoData]: an unspent output and where it was created. *)
Record UtxoData := mkUtxoData {
  u_txout : TxOut;
  u_is_coinbase : bool;
  creation_height : Z;
  creation_time : Z
}.

Abbreviation UtxoMap := (gmap OutPoint UtxoData) (only parsing).

(** [instructions().map_while(Result::ok)]. *)
Fixpoint map_while_ok {A} (l : list (option A)) : list A :=
  match l with
  | Some a :: l' => a :: map_while_ok l'
  | _ => []
  end.

Section Sigops.
Context `{TxLib}.

(** One iteration of [count_sigops_accurate]: the count and the last pushed
    number. *)
Definition count_step (st : Z * option Z) (i : Instruction) : Z * option Z :=
  let '(count, last_pushnum) := st in
  match i with
  | PushBytes _ => (count, None)
  | Op opcode =>
      match classify_legacy opcode with
      | OrdinaryCheckSig | OrdinaryCheckSigVerify => (count + 1, None)
      | OrdinaryCheckMultiSig | OrdinaryCheckMultiSigVerify =>
          (count + default 20 last_pushnum, None)
      | PushNum n => if (1 <=? n) && (n <=? 16) then (count, Some n) else (count, None)
      | OtherClass => (count, None)
      end
  end.

(** [contextual::count_sigops_accurate]. *)
Definition count_sigops_accurate (script : Script) : Z :=
  (foldl count_step (0, None) (map_while_ok (instructions script))).1.

(** [contextual::pushed_redeem_script]. *)
Definition pushed_redeem_script (script_sig : Script) : option Script :=
  if negb (is_push_only script_sig) then None
  else match last (instructions script_sig) with
       | Some (Some (PushBytes bytes)) => Some bytes
       | _ => None
       end.

(** [contextual::p2sh_sigop_cost]. *)
Definition p2sh_sigop_cost (input : TxIn) (prevout : Script) : Z :=
  if negb (is_p2sh prevout) then 0
  else match pushed_redeem_script (script_sig input) with
       | None => 0
       | Some redeem_script =>
           saturating_mul64 (count_sigops_accurate redeem_script) WITNESS_SCALE_FACTOR
       end.

(** [contextual::witness_sigop_cost]. *)
Definition witness_sigop_cost (input : TxIn) (prevout : Script) : Z :=
  let program :=
    if is_witness_program prevout then Some prevout
    else if is_p2sh prevout then pushed_redeem_script (script_sig input)
    else None in
  match program with
  | None => 0
  | Some script =>
      if is_p2wpkh script then 1
      else if is_p2wsh script then
        match last (witness input) with
        | Some w => count_sigops_accurate w
        | None => 0
        end
      else 0
  end.

(** [SigopExt::legacy_sigop_cost]. *)
Definition legacy_sigop_cost (tx : Transaction) : Z := total_sigop_cost_no_prevouts tx.

(** The per-input step of [SigopExt::sigop_cost]. *)
Definition input_sigop_cost (utxos : UtxoMap) (flags : Z) (cost : Z) (input : TxIn) : Z :=
  match utxos !! previous_output input with
  | None => cost
  | Some prevout =>
      let prevout_script := script_pubkey (u_txout prevout) in
      let cost := if negb (Z.land flags VERIFY_P2SH =? 0)
                  then saturating_add64 cost (p2sh_sigop_cost input prevout_script) else cost in
      if negb (Z.land flags VERIFY_WITNESS =? 0)
      then saturating_add64 cost (witness_sigop_cost input prevout_script) else cost
  end.

(** [SigopExt::sigop_cost]. *)
Definition sigop_cost (tx : Transaction) (utxos : UtxoMap) (flags : Z) : Z :=
  let cost := legacy_sigop_cost tx in
  if is_coinbase tx || (Z.land flags (Z.lor VERIFY_P2SH VERIFY_WITNESS) =? 0) then cost
  else foldl (input_sigop_cost utxos flags) cost (tx_input tx).
End Sigops.

(** * Bounds *)

Section SigopLemmas.
Context `{TxLib}.

(** The counting state stays non-negative, and an accepted push is 1..16. *)
Definition count_inv (n : Z) (st : Z * option Z) : Prop :=
  0 <= st.1 <= 20 * n /\ match st.2 with Some k => 1 <= k <= 16 | None => True end.

Lemma count_step_inv n st i : count_inv n st -> count_inv (n + 1) (count_step st i).
Proof.
  destruct st as [c lp]. intros [Hc Hl]. cbn [fst snd] in Hc, Hl.
  destruct i as [d|o]; [split; cbn; [lia|done]|]. unfold count_step.
  destruct (classify_legacy o); try (split; cbn; [lia|done]).
  - destruct lp; split; cbn; try lia; done.
  - destruct lp; split; cbn; try lia; done.
  - destruct (Z.leb_spec 1 n0), (Z.leb_spec n0 16); split; cbn; try lia; done.
Qed.

Lemma count_foldl_inv l : forall n st,
  count_inv n st -> count_inv (n + Z.of_nat (length l)) (foldl count_step st l).
Proof.
  induction l as [|i l IH]; intros n st Hst.
  - cbn. by rewrite Z.add_0_r.
  - cbn [foldl length]. apply count_step_inv with (i := i) in Hst.
    apply IH in Hst. by replace (n + Z.of_nat (S (length l)))
      with (n + 1 + Z.of_nat (length l)) by lia.
Qed.

Lemma count_sigops_accurate_bound script :
  0 <= count_sigops_accurate script <= 20 * Z.of_nat (length (map_while_ok (instructions script))).
Proof.
  unfold count_sigops_accurate.
  assert (Hi : count_inv 0 (0, None)) by (split; cbn; [lia|done]).
  apply (count_foldl_inv (map_while_ok (instructions script))) in Hi. apply Hi.
Qed.

Lemma p2sh_sigop_cost_nonneg i s : 0 <= p2sh_sigop_cost i s.
Proof.
  unfold p2sh_sigop_cost. destruct (negb _); [lia|].
  destruct (pushed_redeem_script _) as [r|]; [|lia].
  pose proof (count_sigops_accurate_bound r). unfold saturating_mul64, WITNESS_SCALE_FACTOR, u64_max. lia.
Qed.

Lemma witness_sigop_cost_nonneg i s : 0 <= witness_sigop_cost i s.
Proof.
  unfold witness_sigop_cost. destruct (if is_witness_program s then _ else _) as [p|]; [|lia].
  destruct (is_p2wpkh p); [lia|]. destruct (is_p2wsh p); [|lia].
  destruct (last (witness i)) as [w|]; [|lia]. pose proof (count_sigops_accurate_bound w). lia.
Qed.

Lemma input_sigop_cost_mono u f c i : 0 <= c <= u64_max -> c <= input_sigop_cost u f c i <= u64_max.
Proof.
  intros Hc. unfold input_sigop_cost. destruct (u !! _) as [p|]; [|lia].
  pose proof (p2sh_sigop_cost_nonneg i (script_pubkey (u_txout p))).
  pose proof (witness_sigop_cost_nonneg i (script_pubkey (u_txout p))).
  unfold saturating_add64 in *. destruct (negb _), (negb _); lia.
Qed.

(** Prevout-dependent costs only ever add to the legacy cost. *)
Lemma sigop_cost_legacy_le tx u f :
  0 <= legacy_sigop_cost tx <= u64_max -> legacy_sigop_cost tx <= sigop_cost tx u f <= u64_max.
Proof.
  intros Hl. unfold sigop_cost. destruct (_ || _)%bool; [lia|].
  revert Hl. generalize (legacy_sigop_cost tx) as c. induction (tx_input tx) as [|i l IH]; intros c Hc; [cbn; lia|].
  cbn [foldl]. pose proof (input_sigop_cost_mono u f c i Hc). specialize (IH (input_sigop_cost u f c i)). lia.
Qed.
End SigopLemmas.
