(* ===== verification/Extensions.v ===== *)
(** Extension traits on blocks, headers, transactions and work
    ([crates/floresta-chain/src/extensions.rs]): the non-contextual block
    checks, the median time past and the multiplication of a 256-bit work. *)

From stdpp Require Import base list sorting.
From Stdlib Require Import ZArith Lia.
From S2P Require Import Prelude Bitcoin Errors ChainParams Merkle Sigops.

Definition MEDIAN_TIME_PAST_BLOCK_COUNT : nat := 11.

(** [Bip30UnspendableExt::is_bip30_unspendable]. *)
Definition is_bip30_unspendable `{HeaderLib} (b : Block) (height : Z) : bool :=
  let bhash_91722 := 0x00000000000271a2dc26e7667f8419f2e15416dc6955e5a6c6cdf3f2574dd08e in
  let bhash_91812 := 0x00000000000af0aed4792b1acee3d966af36cf5def14935db8de83d6f9306f2f in
  if height =? 91722 then blk_hash b =? bhash_91722
  else if height =? 91812 then blk_hash b =? bhash_91812
  else false.

(** [TransactionExt::is_bip68_enabled]: the version is compared as a [u32]. *)
Definition is_bip68_enabled (tx : Transaction) : bool := 2 <=? wrap32 (tx_version tx).

(** [BlockExt::check_block_structure]. *)
Definition check_block_structure `{HashLib, TxLib} (b : Block)
  : outcome BlockExtError (list Txid) :=
  txids ← ok_or (check_merkle_root b) ExtBadMerkleRoot;
  _ ← err_if (negb (check_witness_commitment b)) ExtBadWitnessCommitment;
  _ ← err_if (MAX_BLOCK_WEIGHT <? block_weight b) ExtBlockTooBig;
  _ ← err_if (MAX_BLOCK_SIGOPS_COST <? sum_Z legacy_sigop_cost (txdata b)) ExtTooManySigops;
  Ok txids.

(** * Median time past *)

Section MedianTimePast.
Context {St E : Type}.

(** The caller's lookup of a previous header ([FnMut]: it may keep state). *)
Context (previous_header : St -> BlockHeader -> outcome E (BlockHeader * St)).

(** The collecting loop of [median_time_past_with]. *)
Fixpoint mtp_loop (n : nat) (st : St) (current_header : BlockHeader) (block_timestamps : list Z)
  : outcome E (list Z) :=
  match n with
  | O => Ok block_timestamps
  | S n' =>
      let block_timestamps := block_timestamps ++ [hd_time current_header] in
      if (length block_timestamps =? MEDIAN_TIME_PAST_BLOCK_COUNT)%nat
         || (prev_blockhash current_header =? all_zeros)
      then Ok block_timestamps
      else
        '(current_header, st) ← previous_header st current_header;
        mtp_loop n' st current_header block_timestamps
  end.

(** [HeaderExt::median_time_past_with]. *)
Definition median_time_past_with (st : St) (header : BlockHeader) : outcome E Z :=
  block_timestamps ← mtp_loop MEDIAN_TIME_PAST_BLOCK_COUNT st header [];
  let sorted := merge_sort Z.le block_timestamps in
  expect (sorted !! (length sorted / 2)%nat).
End MedianTimePast.

(** * Work *)

(** [work_bytes.chunks_exact(4)] read as little-endian [u32]s. *)
Fixpoint chunks4 (l : list Z) : list Z :=
  match l with
  | a :: b :: c :: d :: rest => le_int [a; b; c; d] :: chunks4 rest
  | _ => []
  end.

(** The multiplication loop: each word's product with the carry, the low 32
    bits stored in front of the bytes stored before. *)
Fixpoint mul_loop (factor : Z) (words : list Z) (carry_high : Z) (result_bytes : list Z)
  : outcome unit (Z * list Z) :=
  match words with
  | [] => Ok (carry_high, result_bytes)
  | word :: rest =>
      product ← u64_mul word factor;
      product ← u64_add product carry_high;
      mul_loop factor rest (Z.shiftr product 32) (be_bytes 4 (wrap32 product) ++ result_bytes)
  end.

(** [WorkExt::multiply_work_by_u32]; the error is [ChainWorkOverflow]. *)
Definition multiply_work_by_u32 (work factor : Z) : outcome unit Z :=
  if factor =? 0 then Ok 0
  else if factor =? 1 then Ok work
  else
    '(carry_high, result_bytes) ← mul_loop factor (chunks4 (le_bytes 32 work)) 0 [];
    if 0 <? carry_high then Err tt else Ok (be_int result_bytes).

(** * Lemmas *)

(** The number a little-endian list of 32-bit words denotes. *)
Fixpoint words_int (l : list Z) : Z :=
  match l with
  | [] => 0
  | w :: l' => w + 2 ^ 32 * words_int l'
  end.

Definition is_word (w : Z) : Prop := 0 <= w < 2 ^ 32.

Lemma chunks4_spec (l : list Z) k :
  Forall is_byte l -> length l = (4 * k)%nat ->
  words_int (chunks4 l) = le_int l /\ Forall is_word (chunks4 l) /\ length (chunks4 l) = k.
Proof.
  revert l. induction k as [|k IH]; intros l Hb Hl.
  - destruct l; [done|cbn in Hl; lia].
  - destruct l as [|a [|b [|c [|d l]]]]; cbn in Hl; try lia.
    repeat match goal with Hf : Forall _ (_ :: _) |- _ => apply Forall_cons in Hf as [??] end.
    destruct (IH l) as (Hw & Hf & Hk); [done|lia|].
    cbn [chunks4 words_int length]. unfold is_byte in *. split_and!; [|constructor|lia].
    + rewrite Hw. cbn. lia.
    + unfold is_word. cbn. lia.
    + done.
Qed.

Lemma be_int_cons_block b l :
  be_int (be_bytes 4 b ++ l) = be_int l + 256 ^ Z.of_nat (length l) * le_int (le_bytes 4 b).
Proof.
  unfold be_int, be_bytes. rewrite rev_app_distr, rev_involutive, le_int_app, length_rev. lia.
Qed.

Lemma mul_loop_spec factor words : forall carry bytes,
  0 <= factor < 2 ^ 32 -> Forall is_word words -> 0 <= carry < 2 ^ 32 ->
  Forall is_byte bytes ->
  exists carry' bytes',
    mul_loop factor words carry bytes = Ok (carry', bytes') /\
    0 <= carry' < 2 ^ 32 /\ Forall is_byte bytes' /\
    length bytes' = (length bytes + 4 * length words)%nat /\
    be_int bytes' + 256 ^ Z.of_nat (length bytes') * carry' =
      be_int bytes + 256 ^ Z.of_nat (length bytes) * (words_int words * factor + carry).
Proof.
  induction words as [|w words IH]; intros carry bytes Hf Hw Hc Hbs.
  - exists carry, bytes. cbn. split_and!; try lia; done.
  - apply Forall_cons in Hw as [Hw Hws]. unfold is_word in Hw.
    assert (Hprod : 0 <= w * factor <= (2 ^ 32 - 1) * (2 ^ 32 - 1)) by nia.
    set (p := w * factor + carry).
    assert (Hp : 0 <= p < 2 ^ 64) by (unfold p; lia).
    assert (Hsh : Z.shiftr p 32 = p / 2 ^ 32) by (apply Z.shiftr_div_pow2; lia).
    destruct (IH (Z.shiftr p 32) (be_bytes 4 (wrap32 p) ++ bytes)) as (c' & b' & E & Hc' & Hbs' & Hl & Hv);
      [done|done|rewrite Hsh; split; [apply Z.div_pos|apply Z.div_lt_upper_bound]; lia| |].
    { apply Forall_app. split; [apply Forall_rev, le_bytes_byte|done]. }
    exists c', b'. cbn [mul_loop]. unfold u64_mul, u64_add, u64_max.
    destruct (Z.leb_spec (w * factor) 18446744073709551615); [|lia].
    cbn [mbind outcome_bind]. fold p.
    destruct (Z.leb_spec p 18446744073709551615); [|lia]. cbn [mbind outcome_bind].
    rewrite E. unfold be_bytes in Hl at 1.
    rewrite length_app, length_rev, length_le_bytes in Hl.
    split_and!; [done|lia|lia|done|cbn [length]; lia|].
    rewrite Hv, be_int_cons_block, length_app. unfold be_bytes.
    rewrite length_rev, length_le_bytes, Nat2Z.inj_add, Z.pow_add_r by lia.
    rewrite le_int_bytes by (unfold wrap32; change (256 ^ Z.of_nat 4) with 4294967296;
                             apply Z.mod_pos_bound; lia).
    rewrite Hsh. unfold wrap32. cbn [words_int].
    change (256 ^ Z.of_nat 4) with (2 ^ 32). change 4294967296 with (2 ^ 32).
    pose proof (Z.div_mod p (2 ^ 32)). unfold p in *. nia.
Qed.

(** ** Medians *)

Definition count_le (m : Z) (l : list Z) : nat := length (filter (fun x => x <= m) l).
Definition count_ge (m : Z) (l : list Z) : nat := length (filter (fun x => m <= x) l).

Lemma filter_all {A} (P : A -> Prop) `{forall x, Decision (P x)} (l : list A) :
  Forall P l -> filter P l = l.
Proof.
  induction 1 as [|x l Hx _ IH]; [done|]. rewrite filter_cons_True by done. by rewrite IH.
Qed.

Lemma Sorted_split (l1 l2 : list Z) m :
  Sorted Z.le (l1 ++ m :: l2) -> Forall (fun x => x <= m) l1 /\ Forall (fun x => m <= x) l2.
Proof.
  intros Hs. apply Sorted_StronglySorted in Hs; [|intros ???; lia].
  induction l1 as [|a l1 IH]; cbn in Hs; apply StronglySorted_inv in Hs as [Hs Hf].
  - split; [constructor|done].
  - destruct (IH Hs) as [H1 H2]. split; [constructor|]; auto.
    apply Forall_app in Hf as [_ Hf]. by apply Forall_cons in Hf as [? _].
Qed.

(** The element at position [i] of the sorted list has more than [i] elements
    at or below it, and at least [length - i] at or above it. *)
Lemma sorted_rank (l : list Z) i m :
  merge_sort Z.le l !! i = Some m ->
  m ∈ l /\ (i < count_le m l)%nat /\ (length l - i <= count_ge m l)%nat.
Proof.
  intros Hi.
  assert (Hp : merge_sort Z.le l ≡ₚ l) by apply merge_sort_Permutation.
  assert (Hs : Sorted Z.le (merge_sort Z.le l)).
  { apply Sorted_merge_sort. intros x y. lia. }
  split; [rewrite <-Hp; by eapply list_elem_of_lookup_2|].
  unfold count_le, count_ge. rewrite <-!Hp.
  pose proof (take_drop_middle _ _ _ Hi) as Em.
  set (s := merge_sort Z.le l) in *. clearbody s. clear Hp.
  assert (Hlen : length (take i s) = i).
  { rewrite length_take. apply lookup_lt_Some in Hi. lia. }
  rewrite <-Em in Hs. apply Sorted_split in Hs as [H1 H2].
  rewrite <-Em at 1. rewrite <-Em at 4.
  rewrite !filter_app, !length_app, (filter_all _ _ H1).
  rewrite (filter_cons_True _ m (drop (S i) s)) by lia.
  rewrite (filter_cons_True _ m (drop (S i) s)) by lia.
  rewrite (filter_all _ _ H2). cbn [length]. rewrite Hlen, length_drop.
  split; [lia|]. lia.
Qed.

Lemma mtp_loop_length {St E} (prev : St -> BlockHeader -> outcome E (BlockHeader * St)) n :
  forall st h ts r,
  mtp_loop prev (S n) st h ts = Ok r -> (length ts + S n <= 11)%nat ->
  (length ts < length r <= 11)%nat.
Proof.
  induction n as [|n IH]; intros st h ts r Hr Hl.
  - cbn [mtp_loop] in Hr. destruct (_ || _)%bool.
    + injection Hr as <-. rewrite length_app. cbn. lia.
    + apply obind_ok in Hr as ([h' st'] & _ & Hr). injection Hr as <-.
      rewrite length_app. cbn. lia.
  - remember (S n) as k. cbn [mtp_loop] in Hr. destruct (_ || _)%bool.
    + injection Hr as <-. rewrite length_app. cbn. lia.
    + apply obind_ok in Hr as ([h' st'] & _ & Hr). subst k.
      apply IH in Hr; rewrite length_app in *; cbn in *; lia.
Qed.

(** * Theorems *)

Lemma multiply_exact (work factor : Z) :
  0 <= work < 2 ^ 256 -> is_u32 factor ->
  multiply_work_by_u32 work factor =
    if work * factor <? 2 ^ 256 then Ok (work * factor) else Err tt.
Proof.
  intros Hw Hf.
  unfold multiply_work_by_u32, is_u32, u32_max in *.
  destruct (Z.eqb_spec factor 0) as [->|]; [by rewrite Z.mul_0_r|].
  destruct (Z.eqb_spec factor 1) as [->|].
  { rewrite Z.mul_1_r. by destruct (Z.ltb_spec work (2 ^ 256)); [|lia]. }
  destruct (chunks4_spec (le_bytes 32 work) 8) as (Hv & Hws & Hl).
  { apply le_bytes_byte. } { apply length_le_bytes. }
  rewrite le_int_bytes in Hv by (change (256 ^ Z.of_nat 32) with (2 ^ 256); lia).
  destruct (mul_loop_spec factor (chunks4 (le_bytes 32 work)) 0 []) as (c & bs & E & Hc & Hbs & Hlb & Hb);
    [lia|done|lia|constructor|].
  rewrite E. cbn [mbind outcome_bind]. rewrite Hl in Hlb. cbn [length Nat.add] in Hlb.
  rewrite Hlb, Hv in Hb. change (be_int []) with 0 in Hb.
  change (256 ^ Z.of_nat (4 * 8)) with (2 ^ 256) in Hb.
  change (256 ^ Z.of_nat (length [])) with 1 in Hb.
  assert (Hbound : 0 <= be_int bs < 2 ^ 256).
  { unfold be_int. pose proof (le_int_bound (rev bs)) as Hi.
    rewrite length_rev, Hlb in Hi. apply Hi. by apply Forall_rev. }
  destruct (Z.ltb_spec 0 c), (Z.ltb_spec (work * factor) (2 ^ 256)); try done; nia || f_equal; nia.
Qed.

(** multiply_work_by_u32 is exact 256-bit multiplication: it returns the product when it
    is below 2^256 and the overflow error otherwise, for every 256-bit work and 32-bit
    factor. *)
Theorem multiply_work_by_u32_exact (work factor : Z)
  (Hw : 0 <= work < 2 ^ 256) (Hf : is_u32 factor) :
  multiply_work_by_u32 work factor =
    if work * factor <? 2 ^ 256 then Ok (work * factor) else Err tt.
Proof. by apply multiply_exact. Qed.

(** median_time_past_with returns the median of the timestamps of the header and its
    ancestors, between one and eleven of them: an element of the list with more than
    half of them at or below it and at least half at or above it. *)
Theorem median_time_past_is_median {St E} (prev : St -> BlockHeader -> outcome E (BlockHeader * St))
  (st : St) (h : BlockHeader) (ts : list Z)
  (Hts : mtp_loop prev MEDIAN_TIME_PAST_BLOCK_COUNT st h [] = Ok ts) :
  (1 <= length ts <= 11)%nat /\
  exists m, median_time_past_with prev st h = Ok m /\ m ∈ ts /\
    (length ts / 2 < count_le m ts)%nat /\ (length ts - length ts / 2 <= count_ge m ts)%nat.
Proof.
  assert (Hl : (1 <= length ts <= 11)%nat).
  { apply mtp_loop_length in Hts; cbn in *; lia. }
  split; [done|]. unfold median_time_past_with. rewrite Hts. cbn [mbind outcome_bind].
  assert (Hlen : length (merge_sort Z.le ts) = length ts).
  { apply Permutation_length, merge_sort_Permutation. }
  rewrite Hlen.
  destruct (lookup_lt_is_Some_2 (merge_sort Z.le ts) (length ts / 2)) as [m Hm].
  { rewrite Hlen. apply Nat.div_lt; lia. }
  exists m. rewrite Hm. split; [done|]. by apply sorted_rank.
Qed.
