(* ===== verification/Udata.v ===== *)
(** Utreexo leaf data ([crates/floresta-chain/src/pruned_utreexo/udata.rs]):
    the leaf hash of an output, the leaves a block adds to the accumulator,
    and [process_proof], which rebuilds the spent outputs of a block from the
    compact leaves of a proof.  [is_unspendable] belongs to [consensus.rs]. *)

From stdpp Require Import base gmap sets list strings.
From Stdlib Require Import ZArith Lia.
From S2P Require Import Prelude Bitcoin Errors Codec Sigops Extensions.

Definition MAX_SCRIPT_SIZE : Z := 10000.
Definition GENESIS_HEIGHT : Z := 0.

(** [UTREEXO_TAG_V1]. *)
Definition UTREEXO_TAG_V1 : list Z := [
  0x5b; 0x83; 0x2d; 0xb8; 0xca; 0x26; 0xc2; 0x5b; 0xe1; 0xc5; 0x42; 0xd6; 0xcc; 0xed; 0xdd; 0xa8;
  0xc1; 0x45; 0x61; 0x5c; 0xff; 0x5c; 0x35; 0x72; 0x7f; 0xb3; 0x46; 0x26; 0x10; 0x80; 0x7e; 0x20;
  0xae; 0x53; 0x4d; 0xc3; 0xf6; 0x42; 0x99; 0x19; 0x99; 0x31; 0x77; 0x2e; 0x03; 0x78; 0x7d; 0x18;
  0x15; 0x6e; 0xb3; 0x15; 0x1e; 0x0e; 0xd1; 0xb3; 0x09; 0x8b; 0xdc; 0x84; 0x45; 0x86; 0x18; 0x85].

(** [LeafData]. *)
Record LeafData := mkLeafData {
  ld_block_hash : BlockHash;
  ld_prevout : OutPoint;
  ld_header_code : Z;
  ld_utxo : TxOut
}.

(** Constructors of the standard scripts from a hash ([ScriptBuf::new_p2pkh]
    and the like), functions of rust-bitcoin. *)
Class ScriptBuild := {
  new_p2pkh : list Z -> Script;
  new_p2sh : list Z -> Script;
  new_p2wpkh : list Z -> Script;
  new_p2wsh : list Z -> Script
}.

(** * Codecs *)

Section SpkCodec.
Context `{!Codec (list Z)}.

(** [Encodable for ScriptPubKeyKind]: the bytes written and the length
    returned; [Codec (list Z)] is the codec of [Box<[u8]>]. *)
Definition spk_enc (k : ScriptPubKeyKind) : list Z :=
  match k with
  | OtherKind script => enc (U8 0) ++ enc script
  | PubKeyHash => enc (U8 1)
  | WitnessV0PubKeyHash => enc (U8 2)
  | ScriptHash => enc (U8 3)
  | WitnessV0ScriptHash => enc (U8 4)
  end.

Definition spk_enc_len (k : ScriptPubKeyKind) : nat :=
  match k with
  | OtherKind script => 1 + length (enc script)
  | _ => 1
  end.

(** [Decodable for ScriptPubKeyKind]. *)
Definition spk_dec (r : list Z) : outcome DecodeError (ScriptPubKeyKind * list Z) :=
  '(ty, r) ← dec (A:=u8) r;
  if u8_val ty =? 0 then '(s, r) ← dec (A:=list Z) r; Ok (OtherKind s, r)
  else if u8_val ty =? 1 then Ok (PubKeyHash, r)
  else if u8_val ty =? 2 then Ok (WitnessV0PubKeyHash, r)
  else if u8_val ty =? 3 then Ok (ScriptHash, r)
  else if u8_val ty =? 4 then Ok (WitnessV0ScriptHash, r)
  else Err (ParseFailed "Invalid script type"%string).
End SpkCodec.

Section Udata.
Context `{HashLib, TxLib, HeaderLib, ScriptBuild} `{!Codec TxOut}.

(** [Consensus::is_unspendable]. *)
Definition is_unspendable (script : Script) : bool :=
  (MAX_SCRIPT_SIZE <? Z.of_nat (length script)) || is_op_return script.

(** * Leaf hashes *)

(** [LeafData::_get_leaf_hashes]. *)
Definition leaf_data_hash (l : LeafData) : Z :=
  sha512_256 (UTREEXO_TAG_V1 ++ UTREEXO_TAG_V1 ++ to_byte_array (ld_block_hash l) ++
    to_byte_array (op_txid (ld_prevout l)) ++ le_bytes 4 (op_vout (ld_prevout l)) ++
    le_bytes 4 (ld_header_code l) ++ enc (ld_utxo l)).

(** [proof_util::get_leaf_hashes]. *)
Definition get_leaf_hashes (txid : Txid) (is_cb : bool) (vout : Z) (utxo : TxOut)
  (height : Z) (bhash : BlockHash) : Z :=
  let header_code := if is_cb then Z.lor (wrap32 (Z.shiftl height 1)) 1
                     else wrap32 (Z.shiftl height 1) in
  sha512_256 (UTREEXO_TAG_V1 ++ UTREEXO_TAG_V1 ++ to_byte_array bhash ++ to_byte_array txid ++
    le_bytes 4 vout ++ le_bytes 4 header_code ++ enc utxo).

(** * Additions of a block *)

(** [get_input_outpoints]. *)
Definition get_input_outpoints (txs : list Transaction) : gset OutPoint :=
  list_to_set (txs ≫= fun tx => map previous_output (tx_input tx)).

(** The loop over the outputs of a transaction in [get_block_adds]; [vout]
    counts from 0 and must fit a [u32]. *)
Fixpoint adds_outputs {E} (spent : gset OutPoint) (txid : Txid) (is_cb : bool) (height : Z)
  (bhash : BlockHash) (vout : Z) (outs : list TxOut) : outcome E (list NodeHash) :=
  match outs with
  | [] => Ok []
  | output :: rest =>
      vout32 ← (if vout <=? u32_max then Ok vout else Panic);
      tail ← adds_outputs spent txid is_cb height bhash (vout + 1) rest;
      if is_unspendable (script_pubkey output) || bool_decide (mkOutPoint txid vout32 ∈ spent)
      then Ok tail
      else Ok (SomeHash (get_leaf_hashes txid is_cb vout32 output height bhash) :: tail)
  end.

Fixpoint adds_txs {E} (spent : gset OutPoint) (height : Z) (bhash : BlockHash)
  (txs : list Transaction) : outcome E (list NodeHash) :=
  match txs with
  | [] => Ok []
  | tx :: rest =>
      here ← adds_outputs spent (compute_txid tx) (is_coinbase tx) height bhash 0 (tx_output tx);
      tail ← adds_txs spent height bhash rest;
      Ok (here ++ tail)
  end.

(** [get_block_adds]. *)
Definition get_block_adds {E} (b : Block) (height : Z) (bhash : BlockHash)
  : outcome E (list NodeHash) :=
  adds_txs (get_input_outpoints (txdata b)) height bhash (txdata b).

(** The output loop of [get_block_adds_from_hints]: it also carries the
    block-wide [output_index]. *)
Fixpoint hint_outputs {E} (spent : gset OutPoint) (unspent_indexes : gset Z) (txid : Txid)
  (is_cb bip30 : bool) (height : Z) (bhash : BlockHash) (vout output_index : Z)
  (outs : list TxOut) : outcome E (list NodeHash * Z) :=
  match outs with
  | [] => Ok ([], output_index)
  | output :: rest =>
      if is_unspendable (script_pubkey output) then
        hint_outputs spent unspent_indexes txid is_cb bip30 height bhash (vout + 1) output_index rest
      else
        vout32 ← (if vout <=? u32_max then Ok vout else Panic);
        if bool_decide (mkOutPoint txid vout32 ∈ spent) then
          hint_outputs spent unspent_indexes txid is_cb bip30 height bhash (vout + 1)
            (output_index + 1) rest
        else
          let is_bip30_unspendable := is_cb && bip30 in
          let leaf :=
            if is_bip30_unspendable || bool_decide (output_index ∈ unspent_indexes)
            then SomeHash (get_leaf_hashes txid is_cb vout32 output height bhash)
            else EmptyHash in
          let next := if is_bip30_unspendable then output_index else output_index + 1 in
          '(tail, idx) ← hint_outputs spent unspent_indexes txid is_cb bip30 height bhash
                           (vout + 1) next rest;
          Ok (leaf :: tail, idx)
  end.

Fixpoint hint_txs {E} (spent : gset OutPoint) (unspent_indexes : gset Z) (bip30 : bool)
  (height : Z) (bhash : BlockHash) (output_index : Z) (txs : list (Transaction * Txid))
  : outcome E (list NodeHash) :=
  match txs with
  | [] => Ok []
  | (tx, txid) :: rest =>
      '(here, idx) ← hint_outputs spent unspent_indexes txid (is_coinbase tx) bip30 height bhash
                       0 output_index (tx_output tx);
      tail ← hint_txs spent unspent_indexes bip30 height bhash idx rest;
      Ok (here ++ tail)
  end.

(** [get_block_adds_from_hints]. *)
Definition get_block_adds_from_hints {E} (b : Block) (txids : list Txid) (height : Z)
  (bhash : BlockHash) (unspent_indexes : gset Z) : outcome E (list NodeHash) :=
  if negb (length (txdata b) =? length txids)%nat then Panic
  else hint_txs (get_input_outpoints (txdata b)) unspent_indexes (is_bip30_unspendable b height)
         height bhash 0 (zip (txdata b) txids).

(** * Reconstruction of spent outputs *)

(** The hash of the last push of the scriptSig ([get_pk_hash] and
    [get_script_hash], which differ in the hash function). *)
Definition last_push_hash (hash : list Z -> list Z) (input : TxIn)
  : outcome LeafErrorKind (list Z) :=
  match last (instructions (script_sig input)) with
  | None => Err EmptyStack
  | Some (Some (PushBytes b)) => Ok (hash b)
  | Some (Some _) => Err NotPushBytes
  | Some None => Err InvalidInstruction
  end.
Definition get_pk_hash (input : TxIn) := last_push_hash pubkey_hash input.
Definition get_script_hash (input : TxIn) := last_push_hash script_hash input.

(** The hash of the last witness item ([get_witness_pk_hash] and
    [get_witness_script_hash]). *)
Definition last_witness_hash (hash : list Z -> list Z) (input : TxIn)
  : outcome LeafErrorKind (list Z) :=
  match last (witness input) with
  | Some w => Ok (hash w)
  | None => Err EmptyStack
  end.
Definition get_witness_pk_hash (input : TxIn) := last_witness_hash wpubkey_hash input.
Definition get_witness_script_hash (input : TxIn) := last_witness_hash wscript_hash input.

(** [reconstruct_script_pubkey]. *)
Definition reconstruct_script_pubkey (leaf : CompactLeafData) (input : TxIn)
  : outcome LeafErrorKind Script :=
  match spk_ty leaf with
  | OtherKind spk => Ok spk
  | PubKeyHash => h ← get_pk_hash input; Ok (new_p2pkh h)
  | WitnessV0PubKeyHash => h ← get_witness_pk_hash input; Ok (new_p2wpkh h)
  | ScriptHash => h ← get_script_hash input; Ok (new_p2sh h)
  | WitnessV0ScriptHash => h ← get_witness_script_hash input; Ok (new_p2wsh h)
  end.

(** [reconstruct_leaf_data]. *)
Definition reconstruct_leaf_data (leaf : CompactLeafData) (input : TxIn) (bhash : BlockHash)
  : outcome LeafErrorKind LeafData :=
  spk ← reconstruct_script_pubkey leaf input;
  Ok (mkLeafData bhash (previous_output input) (header_code leaf) (mkTxOut (amount leaf) spk)).

(** [get_script_type]. *)
Definition get_script_type (script : Script) : ScriptPubKeyKind :=
  if is_p2pkh script then PubKeyHash
  else if is_p2sh script then ScriptHash
  else if is_p2wpkh script then WitnessV0PubKeyHash
  else if is_p2wsh script then WitnessV0ScriptHash
  else OtherKind script.

Section ProcessProof.
Context {E : Type} (from_leaf_error : UtreexoLeafError -> E).
Context (get_block_hash : Z -> outcome E BlockHash) (get_mtp : Z -> outcome E Z).

(** The iterator over the leaves, and the two results. *)
Record ProofState := mkProofState {
  leaves_iter : list CompactLeafData;
  del_hashes : list Z;
  proof_utxos : gmap OutPoint UtxoData
}.

(** Whether an outpoint is an output of a transaction of this block. *)
Definition is_same_block_output (same_block : gmap Txid nat) (o : OutPoint) : bool :=
  match same_block !! op_txid o with
  | Some output_count => op_vout o <? Z.of_nat output_count
  | None => false
  end.

(** The body of the input loop of [process_proof]. *)
Definition process_input (same_block : gmap Txid nat) (tx : Transaction) (txid : Txid)
  (vin : nat) (input : TxIn) (st : ProofState) : outcome E ProofState :=
  if is_same_block_output same_block (previous_output input) then Ok st
  else match leaves_iter st with
  | [] => Ok st
  | leaf :: leaves =>
      let creation_height := Z.shiftr (header_code leaf) 1 in
      let is_cb := negb (Z.land (header_code leaf) 1 =? 0) in
      if creation_height =? GENESIS_HEIGHT then
        Err (from_leaf_error (mkUtreexoLeafError leaf txid vin GenesisCreationHeight))
      else
        hash ← get_block_hash creation_height;
        ld ← map_err (fun e => from_leaf_error (mkUtreexoLeafError leaf txid vin e))
               (reconstruct_leaf_data leaf input hash);
        creation_time ←
          (if is_bip68_enabled tx && is_time_locked (sequence input)
           then h ← u32_sub creation_height 1; get_mtp h else Ok 0);
        Ok (mkProofState leaves (del_hashes st ++ [leaf_data_hash ld])
              (<[ld_prevout ld := mkUtxoData (ld_utxo ld) is_cb creation_height creation_time]>
                 (proof_utxos st)))
  end.

Fixpoint process_inputs (same_block : gmap Txid nat) (tx : Transaction) (txid : Txid)
  (vin : nat) (inputs : list TxIn) (st : ProofState) : outcome E ProofState :=
  match inputs with
  | [] => Ok st
  | input :: rest =>
      st ← process_input same_block tx txid vin input st;
      process_inputs same_block tx txid (S vin) rest st
  end.

Fixpoint process_txs (same_block : gmap Txid nat) (txs : list Transaction) (st : ProofState)
  : outcome E ProofState :=
  match txs with
  | [] => Ok st
  | tx :: rest =>
      st ← process_inputs same_block tx (compute_txid tx) 0 (tx_input tx) st;
      process_txs same_block rest st
  end.

(** The map from the block's transaction ids to their output counts. *)
Definition same_block_transactions (txs : list Transaction) : gmap Txid nat :=
  foldl (fun m tx => <[compute_txid tx := length (tx_output tx)]> m) ∅ txs.

(** [process_proof]: the coinbase is skipped. *)
Definition process_proof (leaves : list CompactLeafData) (txs : list Transaction)
  : outcome E (list Z * gmap OutPoint UtxoData) :=
  st ← process_txs (same_block_transactions txs) (tail txs) (mkProofState leaves [] ∅);
  Ok (del_hashes st, proof_utxos st).
End ProcessProof.
End Udata.

(** * Lemmas *)

Section UdataLemmas.
Context `{HashLib, TxLib, HeaderLib, ScriptBuild} `{!Codec TxOut}.

(** The header code a leaf carries: height in the upper 31 bits, coinbase flag
    in bit 0. *)
Definition make_header_code (is_cb : bool) (height : Z) : Z :=
  if is_cb then Z.lor (wrap32 (Z.shiftl height 1)) 1 else wrap32 (Z.shiftl height 1).

Lemma make_header_code_val is_cb height :
  0 <= height < 2 ^ 31 -> make_header_code is_cb height = 2 * height + Z.b2z is_cb.
Proof.
  intros Hh. unfold make_header_code, wrap32.
  rewrite Z.shiftl_mul_pow2, Z.mod_small by lia. change (2 ^ 1) with 2.
  destruct is_cb; cbn [Z.b2z]; [|lia].
  rewrite (Z.mul_comm height 2). symmetry. apply Z.add_nocarry_lor.
  apply Z.bits_inj'. intros i Hi. rewrite Z.land_spec, Z.bits_0.
  destruct (decide (i = 0)) as [->|].
  - by rewrite Z.testbit_even_0.
  - change 1 with (2 ^ 0). rewrite Z.pow2_bits_false by lia. apply andb_false_r.
Qed.

Lemma header_code_decode is_cb height :
  0 <= height < 2 ^ 31 ->
  Z.shiftr (make_header_code is_cb height) 1 = height /\
  negb (Z.land (make_header_code is_cb height) 1 =? 0) = is_cb.
Proof.
  intros Hh. rewrite make_header_code_val by done.
  rewrite Z.shiftr_div_pow2, (Z.land_ones _ 1) by lia. change (2 ^ 1) with 2. split.
  - rewrite Z.mul_comm, Z.div_add_l by lia.
    destruct is_cb; [change (Z.b2z true / 2) with 0|change (Z.b2z false / 2) with 0]; lia.
  - rewrite Z.add_comm, Z.mul_comm, Z.mod_add by lia. by destruct is_cb.
Qed.

(** The hash of a rebuilt leaf is the hash the output was added under. *)
Lemma leaf_data_hash_get txid vout is_cb utxo height bhash :
  leaf_data_hash (mkLeafData bhash (mkOutPoint txid vout) (make_header_code is_cb height) utxo)
  = get_leaf_hashes txid is_cb vout utxo height bhash.
Proof. done. Qed.

(** The compact leaf a prover sends for an output. *)
Definition compact_leaf (is_cb : bool) (height : Z) (utxo : TxOut) : CompactLeafData :=
  mkCompactLeafData (make_header_code is_cb height) (txo_value utxo)
    (get_script_type (script_pubkey utxo)).

(** The input reveals the data its previous output's script commits to. *)
Definition reveals (spk : Script) (input : TxIn) : Prop :=
  match get_script_type spk with
  | OtherKind _ => True
  | PubKeyHash =>
      exists pk, last (instructions (script_sig input)) = Some (Some (PushBytes pk)) /\
                 new_p2pkh (pubkey_hash pk) = spk
  | ScriptHash =>
      exists s, last (instructions (script_sig input)) = Some (Some (PushBytes s)) /\
                new_p2sh (script_hash s) = spk
  | WitnessV0PubKeyHash =>
      exists pk, last (witness input) = Some pk /\ new_p2wpkh (wpubkey_hash pk) = spk
  | WitnessV0ScriptHash =>
      exists s, last (witness input) = Some s /\ new_p2wsh (wscript_hash s) = spk
  end.

Lemma reconstruct_revealed is_cb height utxo input :
  reveals (script_pubkey utxo) input ->
  reconstruct_script_pubkey (compact_leaf is_cb height utxo) input = Ok (script_pubkey utxo).
Proof.
  unfold reveals, reconstruct_script_pubkey, get_pk_hash, get_script_hash, get_witness_pk_hash,
    get_witness_script_hash, last_push_hash, last_witness_hash. cbn [spk_ty compact_leaf].
  destruct (get_script_type (script_pubkey utxo)) eqn:Ht; intros Hr;
    try (destruct Hr as (x & -> & <-); done).
  unfold get_script_type in Ht. repeat case_match; simplify_eq; done.
Qed.

(** ** Additions from hints *)

Lemma hint_outputs_all {E} spent hints txid is_cb bip30 height bhash outs : forall vout idx,
  (forall i, idx <= i < idx + Z.of_nat (length outs) -> i ∈ hints) ->
  vout + Z.of_nat (length outs) <= u32_max + 1 ->
  exists adds idx',
    @adds_outputs _ _ _ E spent txid is_cb height bhash vout outs = Ok adds /\
    @hint_outputs _ _ _ E spent hints txid is_cb bip30 height bhash vout idx outs = Ok (adds, idx') /\
    idx <= idx' <= idx + Z.of_nat (length outs).
Proof.
  induction outs as [|o outs IH]; intros vout idx Hi Hv.
  - exists [], idx. cbn. split_and!; [done|done|lia|lia].
  - cbn [adds_outputs hint_outputs length] in *.
    destruct (Z.leb_spec vout u32_max); [|lia]. cbn [mbind outcome_bind].
    destruct (is_unspendable _); cbn [orb].
    { destruct (IH (vout + 1) idx) as (a & i' & E1 & E2 & Hb); [intros; apply Hi; lia|lia|].
      exists a, i'. rewrite E1, E2. split_and!; [done|done|lia|lia]. }
    destruct (bool_decide _).
    { destruct (IH (vout + 1) (idx + 1)) as (a & i' & E1 & E2 & Hb); [intros; apply Hi; lia|lia|].
      exists a, i'. rewrite E1, E2. split_and!; [done|done|lia|lia]. }
    rewrite (bool_decide_eq_true_2 (idx ∈ hints)) by (apply Hi; lia). rewrite orb_true_r.
    destruct (IH (vout + 1) (if (is_cb && bip30)%bool then idx else idx + 1))
      as (a & i' & E1 & E2 & Hb); [intros; apply Hi; destruct (_ && _)%bool; lia|lia|].
    eexists _, i'. rewrite E1, E2. cbn [mbind outcome_bind].
    split_and!; [done|done|destruct (_ && _)%bool; lia|destruct (_ && _)%bool; lia].
Qed.

(** Total number of outputs of a list of transactions. *)
Definition output_count (txs : list Transaction) : Z :=
  sum_Z (fun tx => Z.of_nat (length (tx_output tx))) txs.

Lemma output_count_nonneg txs : 0 <= output_count txs.
Proof. apply sum_Z_nonneg. intros. lia. Qed.

Lemma hint_txs_all {E} spent hints bip30 height bhash txs : forall idx,
  (forall i, idx <= i < idx + output_count txs -> i ∈ hints) ->
  (forall tx, tx ∈ txs -> Z.of_nat (length (tx_output tx)) <= u32_max + 1) ->
  exists adds,
    @adds_txs _ _ _ E spent height bhash txs = Ok adds /\
    @hint_txs _ _ _ E spent hints bip30 height bhash idx (zip txs (map compute_txid txs)) = Ok adds.
Proof.
  induction txs as [|tx txs IH]; intros idx Hi Hv; [by exists []|].
  cbn [output_count sum_Z] in Hi. fold (output_count txs) in Hi.
  pose proof (output_count_nonneg txs).
  destruct (hint_outputs_all (E:=E) spent hints (compute_txid tx) (is_coinbase tx) bip30 height bhash
              (tx_output tx) 0 idx) as (a & i' & E1 & E2 & Hb).
  { intros; apply Hi; lia. } { apply Hv. left. }
  destruct (IH i') as (t & E3 & E4).
  { intros; apply Hi; lia. } { intros; apply Hv; by right. }
  exists (a ++ t). cbn [adds_txs hint_txs zip zip_with map].
  rewrite E1, E2. cbn [mbind outcome_bind]. by rewrite E3, E4.
Qed.

(** ** The state of [process_proof] *)

Section Process.
Context {E : Type} (fle : UtreexoLeafError -> E).
Context (gbh : Z -> outcome E BlockHash) (gmtp : Z -> outcome E Z).

(** What holds of the results after the inputs [ins] were processed: every
    rebuilt output is spent by one of them, was not created by this block or
    by genesis; one deletion hash per consumed leaf. *)
Definition proof_inv (same_block : gmap Txid nat) (leaves : list CompactLeafData)
  (ins : list TxIn) (st : ProofState) : Prop :=
  (forall o u, proof_utxos st !! o = Some u ->
     o ∈ map previous_output ins /\ is_same_block_output same_block o = false /\
     creation_height u <> GENESIS_HEIGHT) /\
  exists used, leaves = used ++ leaves_iter st /\ length used = length (del_hashes st).

Lemma process_input_inv sb tx txid vin input ins leaves st st' :
  proof_inv sb leaves ins st ->
  process_input fle gbh gmtp sb tx txid vin input st = Ok st' ->
  proof_inv sb leaves (ins ++ [input]) st'.
Proof.
  intros [Hu (used & Hl & Hlen)] Hp. unfold process_input in Hp.
  assert (Hmono : forall o, o ∈ map previous_output ins -> o ∈ map previous_output (ins ++ [input])).
  { intros o Ho. rewrite map_app. apply elem_of_app. by left. }
  destruct (is_same_block_output sb (previous_output input)) eqn:Hsb.
  { injection Hp as <-. split; [intros o u Ho|by exists used].
    destruct (Hu o u Ho) as (?&?&?); auto. }
  destruct (leaves_iter st) as [|leaf rest] eqn:Hit.
  { injection Hp as <-. split; [intros o u Ho|exists used; by rewrite Hit].
    destruct (Hu o u Ho) as (?&?&?); auto. }
  destruct (Z.eqb_spec (Z.shiftr (header_code leaf) 1) GENESIS_HEIGHT) as [|Hgen]; [done|].
  apply obind_ok in Hp as (bh & _ & Hp). apply obind_ok in Hp as (ld & Hld & Hp).
  apply obind_ok in Hp as (ct & _ & Hp). injection Hp as <-.
  unfold reconstruct_leaf_data in Hld.
  destruct (reconstruct_script_pubkey leaf input) as [spk| | |]; cbn in Hld; try done.
  injection Hld as <-. cbn [ld_prevout ld_utxo proof_utxos leaves_iter del_hashes]. split.
  - intros o u Ho. cbn [proof_utxos] in Ho. rewrite lookup_insert in Ho. case_decide as Hd.
    + injection Ho as <-. subst o. split_and!; [|done|done].
      rewrite map_app. apply elem_of_app. right. by apply list_elem_of_singleton.
    + destruct (Hu o u Ho) as (?&?&?); auto.
  - exists (used ++ [leaf]). rewrite <-app_assoc. split; [done|].
    cbn [del_hashes]. rewrite !length_app. cbn [length]. lia.
Qed.

Lemma process_inputs_inv sb tx txid inputs : forall vin ins leaves st st',
  proof_inv sb leaves ins st ->
  process_inputs fle gbh gmtp sb tx txid vin inputs st = Ok st' ->
  proof_inv sb leaves (ins ++ inputs) st'.
Proof.
  induction inputs as [|i inputs IH]; intros vin ins leaves st st' Hi Hp.
  - injection Hp as <-. by rewrite app_nil_r.
  - cbn [process_inputs] in Hp. apply obind_ok in Hp as (st1 & Hp1 & Hp2).
    apply process_input_inv with (ins := ins) (leaves := leaves) in Hp1; [|done].
    apply IH with (ins := ins ++ [i]) (leaves := leaves) in Hp2; [|done].
    by rewrite <-app_assoc in Hp2.
Qed.

Lemma process_txs_inv sb txs : forall ins leaves st st',
  proof_inv sb leaves ins st ->
  process_txs fle gbh gmtp sb txs st = Ok st' ->
  proof_inv sb leaves (ins ++ (txs ≫= tx_input)) st'.
Proof.
  induction txs as [|tx txs IH]; intros ins leaves st st' Hi Hp.
  - injection Hp as <-. by rewrite app_nil_r.
  - cbn [process_txs] in Hp. apply obind_ok in Hp as (st1 & Hp1 & Hp2).
    apply process_inputs_inv with (ins := ins) (leaves := leaves) in Hp1; [|done].
    apply IH with (ins := ins ++ tx_input tx) (leaves := leaves) in Hp2; [|done].
    by rewrite <-app_assoc in Hp2.
Qed.
End Process.
End UdataLemmas.

(** * Theorems *)

Section UdataTheorems.
Context `{HashLib, TxLib, HeaderLib, ScriptBuild} `{!Codec TxOut}.

(** C30: The leaf hash that process_proof deletes for an input is the leaf hash that
    get_block_adds added for the output it spends: from the compact leaf of that output
    and an input that reveals its script, the full leaf is reconstructed and the UTXO
    map gets the output with its height, coinbase flag and, for time-locked inputs, the
    median time past of the block below. *)
Theorem deleted_leaf_is_added_leaf {E : Type} (fle : UtreexoLeafError -> E)
  (gbh : Z -> outcome E BlockHash) (gmtp : Z -> outcome E Z) (sb : gmap Txid nat)
  (tx : Transaction) (txid : Txid) (vin : nat) (input : TxIn)
  (is_cb : bool) (height : Z) (bhash : BlockHash) (utxo : TxOut) (ct : Z)
  (leaves : list CompactLeafData) (dels : list Z) (utxos : gmap OutPoint UtxoData)
  (Hheight : 1 <= height < 2 ^ 31)
  (Hother : is_same_block_output sb (previous_output input) = false)
  (Hhash : gbh height = Ok bhash)
  (Hmtp : gmtp (height - 1) = Ok ct)
  (Hrev : reveals (script_pubkey utxo) input) :
  let ct' := if (is_bip68_enabled tx && is_time_locked (sequence input))%bool then ct else 0 in
  process_input fle gbh gmtp sb tx txid vin input
    (mkProofState (compact_leaf is_cb height utxo :: leaves) dels utxos) =
  Ok (mkProofState leaves
        (dels ++ [get_leaf_hashes (op_txid (previous_output input)) is_cb
                    (op_vout (previous_output input)) utxo height bhash])
        (<[previous_output input := mkUtxoData utxo is_cb height ct']> utxos)).
Proof.
  intros ct'. subst ct'. unfold process_input. rewrite Hother. cbn [leaves_iter header_code compact_leaf].
  destruct (header_code_decode is_cb height) as [-> ->]; [lia|].
  destruct (Z.eqb_spec height GENESIS_HEIGHT) as [Hg|_]; [unfold GENESIS_HEIGHT in Hg; lia|].
  rewrite Hhash. cbn [mbind outcome_bind]. unfold reconstruct_leaf_data.
  change (mkCompactLeafData _ _ _) with (compact_leaf is_cb height utxo).
  rewrite (reconstruct_revealed _ _ _ _ Hrev). cbn [mbind outcome_bind map_err].
  destruct (previous_output input) as [tid v]. destruct utxo as [val spk].
  unfold u32_sub. destruct (Z.leb_spec 1 height); [|lia].
  destruct (_ && _)%bool; cbn [mbind outcome_bind]; [rewrite Hmtp|]; done.
Qed.

(** With every output of a block hinted as unspent, get_block_adds_from_hints
    (SwiftSync) adds the same leaves as get_block_adds (plain sync). *)
Theorem block_adds_from_full_hints {E} (b : Block) (height : Z) (bhash : BlockHash) (hints : gset Z)
  (Hall : forall i, 0 <= i < output_count (txdata b) -> i ∈ hints)
  (Hsize : forall tx, tx ∈ txdata b -> Z.of_nat (length (tx_output tx)) <= u32_max + 1) :
  exists adds,
    @get_block_adds _ _ _ E b height bhash = Ok adds /\
    @get_block_adds_from_hints _ _ _ _ E b (map compute_txid (txdata b)) height bhash hints = Ok adds.
Proof.
  destruct (hint_txs_all (E:=E) (get_input_outpoints (txdata b)) hints (is_bip30_unspendable b height)
              height bhash (txdata b) 0) as (adds & E1 & E2); [|done|].
  { intros. apply Hall. lia. }
  exists adds. split; [done|]. unfold get_block_adds_from_hints.
  rewrite length_map, Nat.eqb_refl. done.
Qed.

(** The UTXO map returned by process_proof holds only outputs spent by non-coinbase
    inputs of the block, never an output created in the block itself and never one that
    claims creation at the genesis height, and it deletes at most as many leaves as the
    proof supplies. *)
Theorem process_proof_utxos {E : Type} (fle : UtreexoLeafError -> E)
  (gbh : Z -> outcome E BlockHash) (gmtp : Z -> outcome E Z)
  (leaves : list CompactLeafData) (txs : list Transaction)
  (dels : list Z) (utxos : gmap OutPoint UtxoData)
  (Hp : process_proof fle gbh gmtp leaves txs = Ok (dels, utxos)) :
  (length dels <= length leaves)%nat /\
  forall o u, utxos !! o = Some u ->
    o ∈ map previous_output (tail txs ≫= tx_input) /\
    is_same_block_output (same_block_transactions txs) o = false /\
    creation_height u <> GENESIS_HEIGHT.
Proof.
  unfold process_proof in Hp. apply obind_ok in Hp as (st & Hst & Hp). injection Hp as <- <-.
  assert (Hi : proof_inv (same_block_transactions txs) leaves [] (mkProofState leaves [] ∅)).
  { split; [by intros o u Ho|]. by exists []. }
  apply (process_txs_inv fle gbh gmtp _ _ _ _ _ _ Hi) in Hst as [Hu (used & -> & Hl)].
  rewrite length_app. split; [lia|done].
Qed.
End UdataTheorems.
