(* ===== verification/SwiftSync.v ===== *)
(** The SwiftSync aggregator ([swift_sync_agg] of
    [crates/floresta-chain/src/pruned_utreexo/consensus.rs]): an
    order-independent 128-bit sum of hashes of outpoints.

    [agg_of] is the specification of an aggregator state: the two sums taken
    over the integers, reduced modulo [2^64] only at the end. *)

From stdpp Require Import base list.
From Stdlib Require Import ZArith Lia.
From S2P Require Import Prelude Bitcoin.

Record SipHashKeys := mkSipHashKeys { key0 : Z; key1 : Z; key2 : Z; key3 : Z }.

(** A [siphash24::HashEngine]: its keys and the bytes fed to it so far. *)
Record SipEngine := mkSipEngine { eng_k0 : Z; eng_k1 : Z; eng_input : list Z }.

Record TxidHashMidstate := mkTxidHashMidstate { base0 : SipEngine; base1 : SipEngine }.

Record SwiftSyncAgg := mkSwiftSyncAgg { agg0 : Z; agg1 : Z }.

Section SwiftSyncAgg.
Context `{HashLib}.

Definition engine_input (e : SipEngine) (bytes : list Z) : SipEngine :=
  mkSipEngine (eng_k0 e) (eng_k1 e) (eng_input e ++ bytes).
Definition engine_finish (e : SipEngine) : Z := siphash24 (eng_k0 e) (eng_k1 e) (eng_input e).

(** [TxidHashMidstate::new]. *)
Definition midstate_new (keys : SipHashKeys) (txid : list Z) : TxidHashMidstate :=
  mkTxidHashMidstate (engine_input (mkSipEngine (key0 keys) (key1 keys) []) txid)
                     (engine_input (mkSipEngine (key2 keys) (key3 keys) []) txid).

(** [TxidHashMidstate::finalize_with_vout]. *)
Definition finalize_with_vout (m : TxidHashMidstate) (vout : Z) : Z * Z :=
  let vout_le := le_bytes 4 vout in
  (engine_finish (engine_input (base0 m) vout_le), engine_finish (engine_input (base1 m) vout_le)).

(** [SwiftSyncAgg::zero] and [is_zero]. *)
Definition agg_zero : SwiftSyncAgg := mkSwiftSyncAgg 0 0.
Definition agg_is_zero (a : SwiftSyncAgg) : bool := (agg0 a =? 0) && (agg1 a =? 0).

(** [SwiftSyncAgg::sip64]. *)
Definition sip64 (k0 k1 : Z) (msg : list Z) : Z :=
  engine_finish (engine_input (mkSipEngine k0 k1 []) msg).

(** [SwiftSyncAgg::hash_outpoint]. *)
Definition hash_outpoint (keys : SipHashKeys) (o : OutPoint) : Z * Z :=
  let bytes := to_byte_array (op_txid o) ++ le_bytes 4 (op_vout o) in
  (sip64 (key0 keys) (key1 keys) bytes, sip64 (key2 keys) (key3 keys) bytes).

(** [wrapping_add] and [wrapping_sub]. *)
Definition agg_wrapping_add (a : SwiftSyncAgg) (rhs : Z * Z) : SwiftSyncAgg :=
  mkSwiftSyncAgg (wrap64 (agg0 a + rhs.1)) (wrap64 (agg1 a + rhs.2)).
Definition agg_wrapping_sub (a : SwiftSyncAgg) (rhs : Z * Z) : SwiftSyncAgg :=
  mkSwiftSyncAgg (wrap64 (agg0 a - rhs.1)) (wrap64 (agg1 a - rhs.2)).

(** [SwiftSyncAgg::add], [add_with_vout], [remove] and [Add]. *)
Definition agg_add (salt : SipHashKeys) (a : SwiftSyncAgg) (o : OutPoint) : SwiftSyncAgg :=
  agg_wrapping_add a (hash_outpoint salt o).
Definition agg_add_with_vout (a : SwiftSyncAgg) (hasher : TxidHashMidstate) (vout : Z)
  : SwiftSyncAgg := agg_wrapping_add a (finalize_with_vout hasher vout).
Definition agg_remove (salt : SipHashKeys) (a : SwiftSyncAgg) (o : OutPoint) : SwiftSyncAgg :=
  agg_wrapping_sub a (hash_outpoint salt o).
Definition agg_plus (a rhs : SwiftSyncAgg) : SwiftSyncAgg :=
  agg_wrapping_add a (agg0 rhs, agg1 rhs).

(** [Consensus::add_outputs_to_agg]. *)
Definition add_outputs_to_agg (salt : SipHashKeys) (agg : SwiftSyncAgg) (txid : Txid)
  (spent_vouts : list Z) : SwiftSyncAgg :=
  match spent_vouts with
  | [] => agg
  | [v] => agg_add salt agg (mkOutPoint txid v)
  | _ =>
      let midstate := midstate_new salt (to_byte_array txid) in
      foldl (fun a vout => agg_add_with_vout a midstate vout) agg spent_vouts
  end.

(** * Specification *)

(** The aggregator whose two sums are [p]. *)
Definition agg_of (p : Z * Z) : SwiftSyncAgg := mkSwiftSyncAgg (wrap64 p.1) (wrap64 p.2).

(** The sums of the hashes of a list of outpoints. *)
Definition hash_sum (salt : SipHashKeys) (l : list OutPoint) : Z * Z :=
  (sum_Z (fun o => (hash_outpoint salt o).1) l, sum_Z (fun o => (hash_outpoint salt o).2) l).

(** The aggregator after adding the outpoints [adds] and removing [rems]. *)
Definition agg_delta (salt : SipHashKeys) (adds rems : list OutPoint) : SwiftSyncAgg :=
  agg_of ((hash_sum salt adds).1 - (hash_sum salt rems).1,
          (hash_sum salt adds).2 - (hash_sum salt rems).2).

Lemma wrap64_add_l a b : wrap64 (wrap64 a + b) = wrap64 (a + b).
Proof. unfold wrap64. by rewrite Z.add_mod_idemp_l. Qed.
Lemma wrap64_sub_l a b : wrap64 (wrap64 a - b) = wrap64 (a - b).
Proof. unfold wrap64. by rewrite Zminus_mod_idemp_l. Qed.
Lemma wrap64_add_r a b : wrap64 (a + wrap64 b) = wrap64 (a + b).
Proof. unfold wrap64. by rewrite Z.add_mod_idemp_r. Qed.

Lemma agg_add_of salt p o :
  agg_add salt (agg_of p) o =
    agg_of (p.1 + (hash_outpoint salt o).1, p.2 + (hash_outpoint salt o).2).
Proof.
  unfold agg_add, agg_wrapping_add, agg_of. cbn [agg0 agg1 fst snd]. by rewrite !wrap64_add_l.
Qed.

Lemma agg_remove_of salt p o :
  agg_remove salt (agg_of p) o =
    agg_of (p.1 - (hash_outpoint salt o).1, p.2 - (hash_outpoint salt o).2).
Proof.
  unfold agg_remove, agg_wrapping_sub, agg_of. cbn [agg0 agg1 fst snd]. by rewrite !wrap64_sub_l.
Qed.

Lemma agg_plus_of p q : agg_plus (agg_of p) (agg_of q) = agg_of (p.1 + q.1, p.2 + q.2).
Proof.
  unfold agg_plus, agg_wrapping_add, agg_of. cbn [agg0 agg1 fst snd].
  by rewrite !wrap64_add_l, !wrap64_add_r.
Qed.

Lemma agg_zero_of : agg_zero = agg_of (0, 0).
Proof. done. Qed.

Lemma sum_Z_perm {A} (f : A -> Z) l1 l2 : l1 ≡ₚ l2 -> sum_Z f l1 = sum_Z f l2.
Proof. induction 1; cbn; lia. Qed.

Lemma hash_sum_app salt l1 l2 :
  hash_sum salt (l1 ++ l2) =
    ((hash_sum salt l1).1 + (hash_sum salt l2).1, (hash_sum salt l1).2 + (hash_sum salt l2).2).
Proof. unfold hash_sum. cbn [fst snd]. by rewrite !sum_Z_app. Qed.

Lemma hash_sum_perm salt l1 l2 : l1 ≡ₚ l2 -> hash_sum salt l1 = hash_sum salt l2.
Proof. intros Hp. unfold hash_sum. by rewrite !(sum_Z_perm _ _ _ Hp). Qed.

Lemma agg_delta_plus salt a1 r1 a2 r2 :
  agg_plus (agg_delta salt a1 r1) (agg_delta salt a2 r2) = agg_delta salt (a1 ++ a2) (r1 ++ r2).
Proof.
  unfold agg_delta. rewrite agg_plus_of, !hash_sum_app. cbn [fst snd]. f_equal. f_equal; lia.
Qed.

Lemma agg_delta_perm salt a1 r1 a2 r2 :
  a1 ≡ₚ a2 -> r1 ≡ₚ r2 -> agg_delta salt a1 r1 = agg_delta salt a2 r2.
Proof.
  intros Ha Hr. unfold agg_delta. by rewrite (hash_sum_perm _ _ _ Ha), (hash_sum_perm _ _ _ Hr).
Qed.

Lemma agg_delta_balanced salt l : agg_delta salt l l = agg_zero.
Proof. unfold agg_delta. by rewrite !Z.sub_diag. Qed.

(** Hashing a vout on top of the midstate of its txid hashes the outpoint. *)
Lemma midstate_hash salt txid vout :
  finalize_with_vout (midstate_new salt (to_byte_array txid)) vout =
    hash_outpoint salt (mkOutPoint txid vout).
Proof. done. Qed.

Lemma agg_add_foldl salt l : forall adds rems,
  foldl (agg_add salt) (agg_delta salt adds rems) l = agg_delta salt (adds ++ l) rems.
Proof.
  induction l as [|o l IH]; intros adds rems; [by rewrite app_nil_r|].
  cbn [foldl].
  replace (adds ++ o :: l) with ((adds ++ [o]) ++ l) by (by rewrite <-app_assoc).
  rewrite <-IH. f_equal. unfold agg_delta. rewrite agg_add_of, hash_sum_app. cbn.
  f_equal. f_equal; lia.
Qed.

Lemma agg_remove_foldl salt l : forall adds rems,
  foldl (agg_remove salt) (agg_delta salt adds rems) l = agg_delta salt adds (rems ++ l).
Proof.
  induction l as [|o l IH]; intros adds rems; [by rewrite app_nil_r|].
  cbn [foldl].
  replace (rems ++ o :: l) with ((rems ++ [o]) ++ l) by (by rewrite <-app_assoc).
  rewrite <-IH. f_equal. unfold agg_delta. rewrite agg_remove_of, hash_sum_app. cbn.
  f_equal. f_equal; lia.
Qed.

Lemma add_outputs_foldl salt agg txid vouts :
  add_outputs_to_agg salt agg txid vouts = foldl (agg_add salt) agg (map (mkOutPoint txid) vouts).
Proof.
  destruct vouts as [|v [|w vouts]]; [done|done|]. unfold add_outputs_to_agg.
  generalize (v :: w :: vouts) as l. intros l. revert agg.
  induction l as [|x l IH]; intros agg; [done|]. cbn [foldl map].
  unfold agg_add_with_vout at 2. rewrite midstate_hash. apply IH.
Qed.

(** A sum of aggregators, in any order. *)
Lemma agg_plus_foldl (l : list SwiftSyncAgg) : forall p,
  foldl agg_plus (agg_of p) l = agg_of (p.1 + sum_Z agg0 l, p.2 + sum_Z agg1 l).
Proof.
  induction l as [|a l IH]; intros p; cbn [foldl sum_Z]; [by rewrite !Z.add_0_r; destruct p|].
  assert (agg_plus (agg_of p) a = agg_of (p.1 + agg0 a, p.2 + agg1 a)) as ->.
  { unfold agg_plus, agg_wrapping_add, agg_of. cbn [agg0 agg1 fst snd]. by rewrite !wrap64_add_l. }
  rewrite IH. cbn [fst snd]. f_equal. f_equal; lia.
Qed.
Lemma agg_plus_perm l1 l2 : l1 ≡ₚ l2 -> foldl agg_plus agg_zero l1 = foldl agg_plus agg_zero l2.
Proof. intros Hp. rewrite agg_zero_of, !agg_plus_foldl. by rewrite !(sum_Z_perm _ _ _ Hp). Qed.
Lemma agg_plus_deltas salt (ds : list (list OutPoint * list OutPoint)) : forall adds rems,
  foldl agg_plus (agg_delta salt adds rems) (map (fun d => agg_delta salt d.1 d.2) ds) =
    agg_delta salt (adds ++ concat (map fst ds)) (rems ++ concat (map snd ds)).
Proof.
  induction ds as [|d ds IH]; intros adds rems; cbn [foldl map concat]; [by rewrite !app_nil_r|].
  rewrite agg_delta_plus, IH. by rewrite <-!app_assoc.
Qed.
End SwiftSyncAgg.

(** * Theorems *)

Section SwiftSyncTheorems.
Context `{HashLib}.

(** add_outputs_to_agg, which shares the hash midstate of the transaction id between its
    outputs, gives the same aggregator as adding each outpoint on its own. *)
Theorem add_outputs_to_agg_equiv (salt : SipHashKeys) (agg : SwiftSyncAgg) (txid : Txid)
  (vouts : list Z) :
  add_outputs_to_agg salt agg txid vouts =
    foldl (fun a v => agg_add salt a (mkOutPoint txid v)) agg vouts.
Proof. rewrite add_outputs_foldl. revert agg. induction vouts; intros agg; cbn; auto. Qed.

(** The SwiftSync aggregator is zero whenever the outpoints added are a permutation of
    the outpoints removed, however they are split into blocks, in whatever order the
    blocks are summed and with outputs removed before they are added. *)
Theorem swift_sync_cancels (salt : SipHashKeys) (deltas : list (list OutPoint * list OutPoint))
  (Hbal : concat (map fst deltas) ≡ₚ concat (map snd deltas)) :
  agg_is_zero (foldl (fun a d =>
    agg_plus a (foldl (agg_remove salt) (foldl (agg_add salt) agg_zero d.1) d.2))
    agg_zero deltas) = true.
Proof.
  assert (Hz : agg_zero = agg_delta salt [] []) by done.
  assert (Hd : forall d, foldl (agg_remove salt) (foldl (agg_add salt) agg_zero d.1) d.2
                         = agg_delta salt d.1 d.2).
  { intros d. by rewrite Hz, agg_add_foldl, agg_remove_foldl. }
  enough (Hs : forall adds rems, foldl (fun a d =>
     agg_plus a (foldl (agg_remove salt) (foldl (agg_add salt) agg_zero d.1) d.2))
     (agg_delta salt adds rems) deltas
     = agg_delta salt (adds ++ concat (map fst deltas)) (rems ++ concat (map snd deltas))).
  { rewrite Hz at 1. rewrite Hs. cbn [app].
    rewrite (agg_delta_perm _ _ _ _ _ Hbal (Permutation_refl _)). by rewrite agg_delta_balanced. }
  clear Hbal. induction deltas as [|d deltas IH]; intros adds rems; cbn [foldl map concat].
  - by rewrite !app_nil_r.
  - rewrite Hd, agg_delta_plus, IH. by rewrite <-!app_assoc.
Qed.
End SwiftSyncTheorems.
