(* ===== verification/Consensus.v ===== *)
(** The consensus rules ([Consensus] of
    [crates/floresta-chain/src/pruned_utreexo/consensus.rs]): subsidy and
    supply, lock times, transaction and block checks, and the update of the
    accumulator. *)

From stdpp Require Import base gmap sets list strings.
From Stdlib Require Import ZArith Lia.
From S2P Require Import Prelude Bitcoin Errors ChainParams Codec Merkle Sigops Extensions Udata.
From S2P Require Import SwiftSync.

Definition MAX_SUBSIDY_HALVINGS : Z := 64.
Definition i32_min : Z := -2147483648.
Definition i64_max : Z := 9223372036854775807.

Definition UNSPENDABLE_BIP30_UTXO_91722 : list Z := [
  0x84; 0xb3; 0xaf; 0x07; 0x83; 0xb4; 0x10; 0xb4; 0x56; 0x4c; 0x5d; 0x1f; 0x36; 0x18; 0x68; 0x55;
  0x9f; 0x7c; 0xf7; 0x7c; 0xfc; 0x65; 0xce; 0x2b; 0xe9; 0x51; 0x21; 0x03; 0x57; 0x02; 0x2f; 0xe3].

Definition UNSPENDABLE_BIP30_UTXO_91812 : list Z := [
  0xbc; 0x6b; 0x4b; 0xf7; 0xce; 0xbb; 0xd3; 0x3a; 0x18; 0xd6; 0xb0; 0xfe; 0x1f; 0x8e; 0xcc; 0x7a;
  0xa5; 0x40; 0x30; 0x83; 0xc3; 0x9e; 0xe3; 0x43; 0xb9; 0x85; 0xd5; 0x1f; 0xd0; 0x29; 0x5a; 0xd8].

(** [LockTimeCutoff]. *)
Inductive LockTimeCutoff :=
  | HeaderTime (t : Z)
  | Mtp (t : Z).

(** [LockTimeCutoff::value]. *)
Definition cutoff_value (c : LockTimeCutoff) : Z :=
  match c with HeaderTime t | Mtp t => t end.

(** [LockTimeCutoff::relative_locktime_satisfied]. *)
Definition relative_locktime_satisfied (c : LockTimeCutoff) (lock : RelLockTime)
  (elapsed_height creation_time : Z) : bool :=
  match c with
  | HeaderTime _ => true
  | Mtp value =>
      match lock with
      | RelBlocks blocks => blocks <=? elapsed_height
      | RelTime time => time <=? saturating_sub value creation_time / 512
      end
  end.

(** * Subsidy and supply *)

(** [Consensus::get_subsidy]. *)
Definition get_subsidy (c : ChainParams) (height : Z) : Z :=
  let halvings := height / interval_get (subsidy_halving_interval c) in
  if MAX_SUBSIDY_HALVINGS <=? halvings then 0
  else Z.shiftr (50 * ONE_BTC) halvings.

(** The loop of [max_supply_at_height] over the full epochs. *)
Fixpoint supply_epochs (c : ChainParams) (epoch : Z) (n : nat) (total : Z) : outcome unit Z :=
  match n with
  | O => Ok total
  | S n' =>
      let blocks_per_epoch := interval_get (subsidy_halving_interval c) in
      reward ← u64_mul blocks_per_epoch (get_subsidy c (blocks_per_epoch * epoch));
      total ← u64_add total reward;
      supply_epochs c (epoch + 1) n' total
  end.

(** [Consensus::max_supply_at_height]. *)
Definition max_supply_at_height (c : ChainParams) (height : Z) : outcome unit Z :=
  let blocks_per_epoch := interval_get (subsidy_halving_interval c) in
  block_count ← (if height + 1 <=? u32_max then Ok (height + 1) else Panic);
  let full_epochs := block_count / blocks_per_epoch in
  let rem_blocks := block_count mod blocks_per_epoch in
  total ← supply_epochs c 0 (Z.to_nat (Z.min full_epochs MAX_SUBSIDY_HALVINGS)) 0;
  total ← (if full_epochs <? MAX_SUBSIDY_HALVINGS
           then reward ← u64_mul rem_blocks (get_subsidy c (blocks_per_epoch * full_epochs));
                u64_add total reward
           else Ok total);
  u64_sub total (get_subsidy c (blocks_per_epoch * 0)).

(** * Headers *)

(** [Consensus::min_header_version]: the maximum of the versions whose BIP is
    active. *)
Definition min_header_version (p : Params) (height : Z) : Z :=
  let active := filter (fun av : Z * Z => av.1 <= height)
    [(bip34_height p, 2); (bip66_height p, 3); (bip65_height p, 4)] in
  match map snd active with
  | [] => i32_min
  | v :: vs => foldl Z.max v vs
  end.

(** [Consensus::check_bip94_time]: the subtraction is a plain [u32] one. *)
Definition check_bip94_time (block prev_block : BlockHeader)
  : outcome BlockValidationErrors unit :=
  limit ← u32_sub (hd_time prev_block) 600;
  if hd_time block <? limit then Err BIP94TimeWarp else Ok tt.

(** [Consensus::calc_next_work_required]. *)
Definition calc_next_work_required `{HeaderLib} (last_block first_block : BlockHeader)
  (c : ChainParams) : Z :=
  let actual_timespan := saturating_sub (hd_time last_block) (hd_time first_block) in
  let bits := if enforce_bip94 c then hd_bits first_block else hd_bits last_block in
  from_next_work_required bits actual_timespan (params c).

(** [Consensus::block_lock_time_cutoff]; the closure is only run after CSV. *)
Definition block_lock_time_cutoff {E} (c : ChainParams) (height : Z) (header : BlockHeader)
  (previous_median_time_past : unit -> outcome E Z) : outcome E LockTimeCutoff :=
  if csv_activation_height c <=? height
  then mtp ← previous_median_time_past tt; Ok (Mtp mtp)
  else Ok (HeaderTime (hd_time header)).

Section Rules.
Context `{HashLib, TxLib, HeaderLib, KernelLib, UtreexoLib}.

Abbreviation R := (outcome BlockchainError) (only parsing).

(** [tx_err!]. *)
Definition tx_err (tx : Transaction) (e : BlockValidationErrors) : BlockchainError :=
  TransactionErr (mkTransactionError (compute_txid tx) e).

(** * Transactions *)

(** [Consensus::total_out_value]. *)
Fixpoint total_out_loop (value : Z) (outs : list TxOut) : R Z :=
  match outs with
  | [] => Ok value
  | out :: rest =>
      value ← ok_or (checked_add64 value (txo_value out)) (BlockValidation TooManyCoins);
      total_out_loop value rest
  end.
Definition total_out_value (tx : Transaction) : R Z := total_out_loop 0 (tx_output tx).

(** The [HashSet] loop of [has_duplicate_inputs]. *)
Fixpoint duplicate_loop (seen : gset OutPoint) (inputs : list TxIn) : bool :=
  match inputs with
  | [] => false
  | input :: rest =>
      if bool_decide (previous_output input ∈ seen) then true
      else duplicate_loop ({[previous_output input]} ∪ seen) rest
  end.

(** [Consensus::has_duplicate_inputs]. *)
Definition has_duplicate_inputs (inputs : list TxIn) : bool :=
  match inputs with
  | [_] => false
  | [i0; i1] => bool_decide (previous_output i0 = previous_output i1)
  | _ => duplicate_loop ∅ inputs
  end.

(** [Consensus::validate_script_size]. *)
Definition validate_script_size (tx : Transaction) (script : Script) : R unit :=
  if is_unspendable script then Err (tx_err tx ScriptError) else Ok tt.

(** The input loop of [check_transaction_context_free]. *)
Fixpoint check_inputs (tx : Transaction) (inputs : list TxIn) : R unit :=
  match inputs with
  | [] => Ok tt
  | input :: rest =>
      _ ← err_if (is_null (previous_output input)) (tx_err tx NullPrevOut);
      _ ← validate_script_size tx (script_sig input);
      check_inputs tx rest
  end.

(** [Consensus::check_transaction_context_free]. *)
Definition check_transaction_context_free (tx : Transaction) : R Z :=
  _ ← err_if (bool_decide (tx_input tx = [])) (tx_err tx EmptyInputs);
  _ ← err_if (bool_decide (tx_output tx = [])) (tx_err tx EmptyOutputs);
  _ ← check_inputs tx (tx_input tx);
  _ ← err_if (has_duplicate_inputs (tx_input tx)) (tx_err tx DuplicateInput);
  out_value ← total_out_value tx;
  _ ← err_if (MAX_MONEY <? out_value) (BlockValidation TooManyCoins);
  Ok out_value.

(** [Consensus::take_utxo]. *)
Definition take_utxo (tx : Transaction) (input : TxIn) (utxos : gmap OutPoint UtxoData)
  : R (UtxoData * gmap OutPoint UtxoData) :=
  match utxos !! previous_output input with
  | Some u => Ok (u, delete (previous_output input) utxos)
  | None => Err (tx_err tx (UtxoNotFound (previous_output input)))
  end.

(** The body of the input loop of [verify_transaction] up to the sum. *)
Definition check_spend (tx : Transaction) (height : Z) (lock_time_cutoff : LockTimeCutoff)
  (input : TxIn) (utxo : UtxoData) : R unit :=
  _ ← (if u_is_coinbase utxo
       then mature ← u32_add (creation_height utxo) 100;
            err_if (height <? mature) (tx_err tx CoinbaseNotMatured)
       else Ok tt);
  _ ← (if is_bip68_enabled tx then
         match to_relative_lock_time (sequence input) with
         | Some lock =>
             let elapsed_height := saturating_sub height (creation_height utxo) in
             err_if (negb (relative_locktime_satisfied lock_time_cutoff lock elapsed_height
                             (creation_time utxo))) (tx_err tx BadRelativeLockTime)
         | None => Ok tt
         end
       else Ok tt);
  validate_script_size tx (script_pubkey (u_txout utxo)).

(** The input loop of [verify_transaction]: the sum of the inputs, the spent
    outputs in input order, and the remaining outputs. *)
Fixpoint spend_inputs (tx : Transaction) (height : Z) (lock_time_cutoff : LockTimeCutoff)
  (inputs : list TxIn) (in_value : Z) (spent : list UtxoData) (utxos : gmap OutPoint UtxoData)
  : R (Z * list UtxoData * gmap OutPoint UtxoData) :=
  match inputs with
  | [] => Ok (in_value, spent, utxos)
  | input :: rest =>
      '(utxo, utxos) ← take_utxo tx input utxos;
      _ ← check_spend tx height lock_time_cutoff input utxo;
      in_value ← ok_or (checked_add64 in_value (txo_value (u_txout utxo)))
                   (BlockValidation TooManyCoins);
      spend_inputs tx height lock_time_cutoff rest in_value (spent ++ [utxo]) utxos
  end.

(** [Consensus::verify_input_scripts] (with [bitcoinkernel]). *)
Definition script_error (tx : Transaction) (msg : string) : BlockchainError :=
  tx_err tx (ScriptValidationError msg).

Definition kernel_result {A} (tx : Transaction) (r : string + A) : R A :=
  match r with inl msg => Err (script_error tx msg) | inr a => Ok a end.

Fixpoint kernel_prevouts (tx : Transaction) (spent : list UtxoData)
  : R (list (KScriptPubkey * Z)) :=
  match spent with
  | [] => Ok []
  | utxo :: rest =>
      let value := txo_value (u_txout utxo) in
      _ ← err_if (i64_max <? value) (tx_err tx TooManyCoins);
      spk ← kernel_result tx (kscript_try_from (script_pubkey (u_txout utxo)));
      tail ← kernel_prevouts tx rest;
      Ok ((spk, value) :: tail)
  end.

Fixpoint kernel_verify_all (tx : Transaction) (ktx : KTransaction) (data : KPrecomputed)
  (flags : Z) (input_index : nat) (prevouts : list (KScriptPubkey * Z)) : R unit :=
  match prevouts with
  | [] => Ok tt
  | (script, amount) :: rest =>
      match kernel_verify script amount ktx input_index flags data with
      | Some msg => Err (script_error tx msg)
      | None => kernel_verify_all tx ktx data flags (S input_index) rest
      end
  end.

Definition verify_input_scripts (tx : Transaction) (spent : list UtxoData) (flags : Z) : R unit :=
  ktx ← kernel_result tx (ktransaction_try_from tx);
  prevouts ← kernel_prevouts tx spent;
  data ← kernel_result tx (kprecomputed_new ktx prevouts);
  kernel_verify_all tx ktx data flags 0 prevouts.

(** [Consensus::verify_transaction]: input value, output value, and the
    outputs left after the spends. *)
Definition verify_transaction (tx : Transaction) (utxos : gmap OutPoint UtxoData) (height : Z)
  (lock_time_cutoff : LockTimeCutoff) (verify_script : bool) (flags : Z)
  : R (Z * Z * gmap OutPoint UtxoData) :=
  out_value ← check_transaction_context_free tx;
  '(in_value, spent, utxos) ← spend_inputs tx height lock_time_cutoff (tx_input tx) 0 [] utxos;
  _ ← err_if (MAX_MONEY <? in_value) (BlockValidation TooManyCoins);
  _ ← err_if (in_value <? out_value) (tx_err tx NotEnoughMoney);
  _ ← (if bitcoinkernel && verify_script then verify_input_scripts tx spent flags else Ok tt);
  Ok (in_value, out_value, utxos).

(** [Consensus::verify_coinbase]. *)
Definition verify_coinbase (tx : Transaction) : R unit :=
  match tx_input tx with
  | [input] =>
      _ ← err_if (negb (is_null (previous_output input)))
            (tx_err tx (InvalidCoinbase "Invalid Coinbase PrevOut"%string));
      let size := Z.of_nat (length (script_sig input)) in
      err_if (negb ((2 <=? size) && (size <=? 100)))
        (tx_err tx (InvalidCoinbase "Invalid ScriptSig size"%string))
  | _ => Err (tx_err tx (InvalidCoinbase "Coinbase must have 1 input"%string))
  end.

(** [Consensus::is_final_transaction]. *)
Definition is_final_transaction (tx : Transaction) (height : Z)
  (lock_time_cutoff : LockTimeCutoff) : bool :=
  if bool_decide (tx_lock_time tx = Blocks 0) then true
  else
    let lock_time_reached :=
      match tx_lock_time tx with
      | Blocks lock_height => lock_height <? height
      | Seconds lock_time => lock_time <? cutoff_value lock_time_cutoff
      end in
    lock_time_reached || forallb (fun input => sequence_is_final (sequence input)) (tx_input tx).

(** * Blocks *)

(** The loop over a transaction's outputs in [verify_block_transactions]. *)
Fixpoint insert_outputs (txid : Txid) (is_cb : bool) (height : Z) (cutoff : LockTimeCutoff)
  (vout : Z) (outs : list TxOut) (utxos : gmap OutPoint UtxoData) : gmap OutPoint UtxoData :=
  match outs with
  | [] => utxos
  | out :: rest =>
      insert_outputs txid is_cb height cutoff (vout + 1) rest
        (<[mkOutPoint txid (wrap32 vout) := mkUtxoData out is_cb height (cutoff_value cutoff)]> utxos)
  end.

(** The locals of [verify_block_transactions]. *)
Record BlockState := mkBlockState {
  bs_utxos : gmap OutPoint UtxoData;
  bs_fee : Z;
  bs_sigops : Z
}.

(** One iteration of the loop over the block's transactions. *)
Definition block_tx_step (height : Z) (cutoff : LockTimeCutoff) (verify_script : bool) (flags : Z)
  (n : nat) (tx : Transaction) (st : BlockState) : R BlockState :=
  _ ← err_if (negb (is_final_transaction tx height cutoff)) (BlockValidation NonFinalTransaction);
  let sigops := saturating_add64 (bs_sigops st) (sigop_cost tx (bs_utxos st) flags) in
  _ ← err_if (MAX_BLOCK_SIGOPS_COST <? sigops) (BlockValidation TooManySigops);
  '(utxos, fee) ←
    (if (n =? 0)%nat then
       _ ← err_if (negb (is_coinbase tx)) (BlockValidation FirstTxIsNotCoinbase);
       _ ← verify_coinbase tx;
       Ok (bs_utxos st, bs_fee st)
     else
       '(in_value, out_value, utxos) ←
          verify_transaction tx (bs_utxos st) height cutoff verify_script flags;
       tx_fee ← u64_sub in_value out_value;
       fee ← ok_or (checked_add64 (bs_fee st) tx_fee) (BlockValidation TooManyCoins);
       Ok (utxos, fee));
  Ok (mkBlockState
        (insert_outputs (compute_txid tx) (n =? 0)%nat height cutoff 0 (tx_output tx) utxos)
        fee sigops).

Fixpoint block_txs (height : Z) (cutoff : LockTimeCutoff) (verify_script : bool) (flags : Z)
  (n : nat) (txs : list Transaction) (st : BlockState) : R BlockState :=
  match txs with
  | [] => Ok st
  | tx :: rest =>
      st ← block_tx_step height cutoff verify_script flags n tx st;
      block_txs height cutoff verify_script flags (S n) rest st
  end.

(** [Consensus::verify_block_transactions]; the final map of outputs, local
    to the function, is returned for the theorems. *)
Definition verify_block_transactions_state (height : Z) (cutoff : LockTimeCutoff)
  (utxos : gmap OutPoint UtxoData) (txs : list Transaction) (subsidy : Z)
  (verify_script : bool) (flags : Z) : R BlockState :=
  match txs with
  | [] => Err (BlockValidation EmptyBlock)
  | coinbase :: _ =>
      st ← block_txs height cutoff verify_script flags 0 txs (mkBlockState utxos 0 0);
      allowed_reward ← ok_or (checked_add64 (bs_fee st) subsidy) (BlockValidation TooManyCoins);
      coinbase_total ← total_out_value coinbase;
      _ ← err_if (allowed_reward <? coinbase_total) (BlockValidation BadCoinbaseOutValue);
      Ok st
  end.

Definition verify_block_transactions (height : Z) (cutoff : LockTimeCutoff)
  (utxos : gmap OutPoint UtxoData) (txs : list Transaction) (subsidy : Z)
  (verify_script : bool) (flags : Z) : R unit :=
  _ ← verify_block_transactions_state height cutoff utxos txs subsidy verify_script flags;
  Ok tt.

(** [Consensus::get_bip34_height]. *)
Definition get_bip34_height (b : Block) : option Z :=
  cb ← block_coinbase b;
  input ← head (tx_input cb);
  push ← head (instructions_minimal (script_sig input));
  match push with
  | Some (PushBytes bytes) => h ← read_scriptint bytes; Some (wrap32 h)
  | Some (Op opcode) =>
      if (0x51 <=? opcode) && (opcode <=? 0x60) then Some (opcode - 0x50) else None
  | None => None
  end.

(** [Consensus::check_bip34]. *)
Definition check_bip34 (c : ChainParams) (b : Block) (height : Z) : R unit :=
  err_if ((bip34_height (params c) <=? height) && negb (bool_decide (get_bip34_height b = Some height)))
    (BlockValidation BadBip34).

(** [Consensus::check_block]. *)
Definition check_block (c : ChainParams) (b : Block) (height : Z) : R (list Txid) :=
  txids ← map_err (fun e => BlockValidation (from_BlockExtError e)) (check_block_structure b);
  _ ← check_bip34 c b height;
  Ok txids.

(** * SwiftSync *)

(** The output loop of [verify_block_transactions_swiftsync]: the block-wide
    output index, the unspent amount and the vouts hinted as spent. *)
Fixpoint swift_outputs (unspent_indexes : gset Z) (vout output_index unspent_amount : Z)
  (spent_vouts : list Z) (outs : list TxOut) : Z * Z * list Z :=
  match outs with
  | [] => (output_index, unspent_amount, spent_vouts)
  | out :: rest =>
      if is_unspendable (script_pubkey out) then
        swift_outputs unspent_indexes (vout + 1) output_index
          (default AMOUNT_MAX (checked_add64 unspent_amount (txo_value out))) spent_vouts rest
      else if bool_decide (output_index ∈ unspent_indexes) then
        swift_outputs unspent_indexes (vout + 1) (output_index + 1)
          (default AMOUNT_MAX (checked_add64 unspent_amount (txo_value out))) spent_vouts rest
      else
        swift_outputs unspent_indexes (vout + 1) (output_index + 1) unspent_amount
          (spent_vouts ++ [wrap32 vout]) rest
  end.

Record SwiftState := mkSwiftState { sw_agg : SwiftSyncAgg; sw_amount : Z; sw_index : Z }.

(** One iteration of the transaction loop. *)
Definition swift_tx_step (unspent_indexes : gset Z) (salt : SipHashKeys) (bip30 : bool)
  (n : nat) (tx : Transaction) (txid : Txid) (st : SwiftState) : R SwiftState :=
  let finish (st : SwiftState) :=
    let '(idx, amount, spent_vouts) :=
      swift_outputs unspent_indexes 0 (sw_index st) (sw_amount st) [] (tx_output tx) in
    mkSwiftState (add_outputs_to_agg salt (sw_agg st) txid spent_vouts) amount idx in
  if (n =? 0)%nat then
    _ ← err_if (negb (is_coinbase tx)) (BlockValidation FirstTxIsNotCoinbase);
    _ ← verify_coinbase tx;
    coinbase_total ← total_out_value tx;
    _ ← err_if (MAX_MONEY <? coinbase_total) (BlockValidation TooManyCoins);
    if bip30 then Ok st else Ok (finish st)
  else
    _ ← check_transaction_context_free tx;
    let agg := foldl (fun a input => agg_remove salt a (previous_output input))
                 (sw_agg st) (tx_input tx) in
    Ok (finish (mkSwiftState agg (sw_amount st) (sw_index st))).

Fixpoint swift_txs (unspent_indexes : gset Z) (salt : SipHashKeys) (bip30 : bool) (n : nat)
  (txs : list (Transaction * Txid)) (st : SwiftState) : R SwiftState :=
  match txs with
  | [] => Ok st
  | (tx, txid) :: rest =>
      st ← swift_tx_step unspent_indexes salt bip30 n tx txid st;
      swift_txs unspent_indexes salt bip30 (S n) rest st
  end.

(** [Consensus::verify_block_transactions_swiftsync]. *)
Definition verify_block_transactions_swiftsync (height : Z) (b : Block) (txids : list Txid)
  (unspent_indexes : gset Z) (salt : SipHashKeys) : R (SwiftSyncAgg * Z) :=
  if negb (length (txdata b) =? length txids)%nat then Panic
  else
    _ ← err_if (bool_decide (txdata b = [])) (BlockValidation EmptyBlock);
    st ← swift_txs unspent_indexes salt (is_bip30_unspendable b height) 0
           (zip (txdata b) txids) (mkSwiftState agg_zero 0 0);
    Ok (sw_agg st, sw_amount st).

(** [SwiftSyncDelta]. *)
Record SwiftSyncDelta := mkSwiftSyncDelta {
  aggregator_delta : SwiftSyncAgg;
  unspent_amount : Z;
  utreexo_adds : list NodeHash
}.

Section Accumulator.
Context `{!Codec TxOut}.

(** [Consensus::process_block_swiftsync]. *)
Definition process_block_swiftsync (c : ChainParams) (b : Block) (height : Z)
  (unspent_indexes : gset Z) (salt : SipHashKeys) : R SwiftSyncDelta :=
  txids ← check_block c b height;
  adds ← get_block_adds_from_hints b txids height (blk_hash b) unspent_indexes;
  '(agg, amount) ← verify_block_transactions_swiftsync height b txids unspent_indexes salt;
  Ok (mkSwiftSyncDelta agg amount adds).

(** [Consensus::contains_unspendable_utxo]. *)
Definition contains_unspendable_utxo (del_hashes : list Z) : bool :=
  existsb (fun h => bool_decide (to_byte_array h = UNSPENDABLE_BIP30_UTXO_91722)
                    || bool_decide (to_byte_array h = UNSPENDABLE_BIP30_UTXO_91812)) del_hashes.

(** [Consensus::update_acc]. *)
Definition update_acc (acc : Stump) (b : Block) (height : Z) (proof : Proof_)
  (del_hashes : list Z) : R Stump :=
  _ ← err_if (contains_unspendable_utxo del_hashes) (BlockValidation UnspendableUTXO);
  adds ← get_block_adds b height (blk_hash b);
  match stump_modify acc adds (map SomeHash del_hashes) proof with
  | inl e => Err (AccumulatorError e)
  | inr acc => Ok acc
  end.
End Accumulator.
End Rules.
