(* ===== verification/ConsensusFacts.v ===== *)
(** Theorems about the consensus rules of [Consensus.v]: the subsidy schedule
    and the supply bound, the transaction checks, and the conservation of
    value and absence of double spends in an accepted block. *)

From stdpp Require Import base gmap sets list strings.
From Stdlib Require Import ZArith Lia.
From S2P Require Import Prelude Bitcoin Errors ChainParams Codec Merkle Sigops Extensions Udata.
From S2P Require Import SwiftSync Consensus.

(** * Subsidy and supply *)

Lemma interval_pos i : 0 < interval_get i.
Proof. destruct i; cbn; unfold SUBSIDY_HALVING_INTERVAL; lia. Qed.

Lemma interval_le i : interval_get i <= 210000.
Proof. destruct i; cbn; unfold SUBSIDY_HALVING_INTERVAL; lia. Qed.

(** The subsidy of epoch [e]. *)
Definition epoch_subsidy (e : Z) : Z := 5000000000 / 2 ^ e.

Lemma epoch_subsidy_zero e : 64 <= e -> epoch_subsidy e = 0.
Proof.
  intros He. unfold epoch_subsidy. apply Z.div_small. split; [lia|].
  assert (2 ^ 64 <= 2 ^ e) by (apply Z.pow_le_mono_r; lia). lia.
Qed.

Lemma epoch_subsidy_bounds e : 0 <= e -> 0 <= epoch_subsidy e <= 5000000000.
Proof.
  intros He. unfold epoch_subsidy. assert (0 < 2 ^ e) by lia. split.
  - apply Z.div_pos; lia.
  - apply Z.div_le_upper_bound; [lia|]. nia.
Qed.

Lemma get_subsidy_epoch c h :
  0 <= h -> get_subsidy c h = epoch_subsidy (h / interval_get (subsidy_halving_interval c)).
Proof.
  intros Hh. unfold get_subsidy, MAX_SUBSIDY_HALVINGS.
  pose proof (interval_pos (subsidy_halving_interval c)).
  assert (0 <= h / interval_get (subsidy_halving_interval c)) by (apply Z.div_pos; lia).
  destruct (Z.leb_spec 64 (h / interval_get (subsidy_halving_interval c))).
  - by rewrite epoch_subsidy_zero.
  - by rewrite Z.shiftr_div_pow2.
Qed.

(** Halving: twice the next epoch's subsidy never exceeds this one's. *)
Lemma epoch_subsidy_half e : 0 <= e -> 2 * epoch_subsidy (e + 1) <= epoch_subsidy e.
Proof.
  intros He. unfold epoch_subsidy. rewrite Z.pow_add_r by lia. change (2 ^ 1) with 2.
  rewrite <-Z.div_div by lia. apply Z.mul_div_le. lia.
Qed.

(** The total of the first [n] epochs' subsidies, per block. *)
Fixpoint epochs_total (n : nat) : Z :=
  match n with
  | O => 0
  | S k => epochs_total k + epoch_subsidy (Z.of_nat k)
  end.

Lemma epochs_total_bound n :
  0 <= epochs_total n /\ epochs_total n + 2 * epoch_subsidy (Z.of_nat n) <= 10000000000.
Proof.
  induction n as [|n [IH0 IH]].
  - cbn [epochs_total]. change (Z.of_nat 0) with 0. change (epoch_subsidy 0) with 5000000000. lia.
  - cbn [epochs_total]. pose proof (epoch_subsidy_bounds (Z.of_nat n) ltac:(lia)).
    pose proof (epoch_subsidy_half (Z.of_nat n) ltac:(lia)).
    rewrite Nat2Z.inj_succ, <-Z.add_1_r. lia.
Qed.

(** The total subsidy of the first [n] blocks, genesis included. *)
Fixpoint blocks_total (c : ChainParams) (n : nat) : Z :=
  match n with
  | O => 0
  | S k => blocks_total c k + get_subsidy c (Z.of_nat k)
  end.

Lemma blocks_total_epoch c k r :
  Z.of_nat r <= interval_get (subsidy_halving_interval c) ->
  blocks_total c (Z.to_nat (interval_get (subsidy_halving_interval c)) * k + r)
  = blocks_total c (Z.to_nat (interval_get (subsidy_halving_interval c)) * k)
    + Z.of_nat r * epoch_subsidy (Z.of_nat k).
Proof.
  pose proof (interval_pos (subsidy_halving_interval c)) as Hpos.
  set (I := interval_get (subsidy_halving_interval c)) in *.
  induction r as [|r IH]; intros Hr.
  - rewrite Nat.add_0_r. lia.
  - rewrite Nat.add_succ_r. cbn [blocks_total]. rewrite IH by lia.
    rewrite get_subsidy_epoch by lia. fold I.
    replace (Z.of_nat (Z.to_nat I * k + r) / I) with (Z.of_nat k); [lia|].
    rewrite Nat2Z.inj_add, Nat2Z.inj_mul, Z2Nat.id by lia.
    rewrite Z.mul_comm, Z.div_add_l by lia. rewrite Z.div_small; lia.
Qed.

Lemma blocks_total_full c k :
  blocks_total c (Z.to_nat (interval_get (subsidy_halving_interval c)) * k)
  = interval_get (subsidy_halving_interval c) * epochs_total k.
Proof.
  pose proof (interval_pos (subsidy_halving_interval c)) as Hpos.
  induction k as [|k IH].
  - rewrite Nat.mul_0_r. cbn. lia.
  - rewrite Nat.mul_succ_r, blocks_total_epoch by lia. rewrite IH. cbn [epochs_total]. lia.
Qed.

Lemma epochs_total_stable k : (64 <= k)%nat -> epochs_total k = epochs_total 64.
Proof.
  induction 1 as [|k Hk IH]; [done|].
  change (epochs_total (S k)) with (epochs_total k + epoch_subsidy (Z.of_nat k)).
  rewrite epoch_subsidy_zero, IH by lia. apply Z.add_0_r.
Qed.

Lemma supply_epochs_spec c n : forall e,
  supply_epochs c (Z.of_nat e) n (interval_get (subsidy_halving_interval c) * epochs_total e)
  = Ok (interval_get (subsidy_halving_interval c) * epochs_total (e + n)).
Proof.
  pose proof (interval_pos (subsidy_halving_interval c)) as Hpos.
  pose proof (interval_le (subsidy_halving_interval c)) as Hle.
  induction n as [|n IH]; intros e; [by rewrite Nat.add_0_r|].
  cbn [supply_epochs]. set (I := interval_get (subsidy_halving_interval c)) in *.
  rewrite get_subsidy_epoch by lia. fold I.
  rewrite (Z.mul_comm I (Z.of_nat e)), Z.div_mul by lia.
  pose proof (epoch_subsidy_bounds (Z.of_nat e) ltac:(lia)).
  pose proof (epochs_total_bound e).
  unfold u64_mul, u64_add, u64_max.
  destruct (Z.leb_spec (I * epoch_subsidy (Z.of_nat e)) 18446744073709551615); [|nia].
  cbn [mbind outcome_bind].
  destruct (Z.leb_spec (I * epochs_total e + I * epoch_subsidy (Z.of_nat e)) 18446744073709551615);
    [|nia].
  cbn [mbind outcome_bind]. specialize (IH (S e)). cbn [epochs_total] in IH.
  rewrite Nat2Z.inj_succ, <-Z.add_1_r, Z.mul_add_distr_l in IH.
  rewrite IH. do 2 f_equal. f_equal. lia.
Qed.

Lemma blocks_total_bound c n : blocks_total c n <= 2100000000000000.
Proof.
  pose proof (interval_pos (subsidy_halving_interval c)) as Hpos.
  pose proof (interval_le (subsidy_halving_interval c)) as Hle.
  set (I := interval_get (subsidy_halving_interval c)) in *.
  pose proof (Nat.div_mod_eq n (Z.to_nat I)) as Hn.
  pose proof (Nat.mod_upper_bound n (Z.to_nat I) ltac:(lia)) as Hm.
  rewrite Hn, blocks_total_epoch, blocks_total_full by (fold I; lia). fold I.
  set (k := (n / Z.to_nat I)%nat). set (r := (n mod Z.to_nat I)%nat) in *.
  pose proof (epochs_total_bound k). pose proof (epoch_subsidy_bounds (Z.of_nat k) ltac:(lia)).
  assert (Z.of_nat r * epoch_subsidy (Z.of_nat k) <= I * epoch_subsidy (Z.of_nat k)) by nia.
  nia.
Qed.

Lemma blocks_total_sum c n : blocks_total c (S n) = get_subsidy c 0 + sum_Z (get_subsidy c) (seqZ 1 (Z.of_nat n)).
Proof.
  induction n as [|n IH].
  { change (seqZ 1 (Z.of_nat 0)) with (@nil Z). cbn [blocks_total sum_Z].
    change (Z.of_nat 0) with 0. lia. }
  change (blocks_total c (S (S n))) with (blocks_total c (S n) + get_subsidy c (Z.of_nat (S n))).
  rewrite IH.
  replace (seqZ 1 (Z.of_nat (S n))) with (seqZ 1 (Z.of_nat n) ++ [1 + Z.of_nat n]).
  - rewrite sum_Z_app. cbn [sum_Z].
    replace (1 + Z.of_nat n) with (Z.of_nat (S n)) by lia. lia.
  - symmetry. rewrite Nat2Z.inj_succ, <-Z.add_1_r. rewrite seqZ_app by lia. done.
Qed.

(** get_subsidy is 50 BTC divided by two to the number of completed halving intervals,
    rounded down, at every height, the heights past the shift limit included, and never
    increases with the height. *)
Theorem get_subsidy_schedule (c : ChainParams) (h : Z) (Hh : 0 <= h) :
  get_subsidy c h = 50 * ONE_BTC / 2 ^ (h / interval_get (subsidy_halving_interval c)) /\
  forall h', h <= h' -> get_subsidy c h' <= get_subsidy c h.
Proof.
  split; [by rewrite get_subsidy_epoch|]. intros h' Hle.
  rewrite !get_subsidy_epoch by lia. unfold epoch_subsidy.
  pose proof (interval_pos (subsidy_halving_interval c)).
  set (I := interval_get (subsidy_halving_interval c)) in *.
  assert (0 <= h / I) by (apply Z.div_pos; lia).
  apply Z.div_le_compat_l; [lia|]. split; [lia|].
  apply Z.pow_le_mono_r; [lia|]. apply Z.div_le_mono; lia.
Qed.

(** max_supply_at_height, which sums whole halving periods, equals the sum of the
    subsidies of the blocks 1 to the height, never overflows below u32::MAX, and the
    supply never exceeds MAX_MONEY. *)
Theorem max_supply_is_sum (c : ChainParams) (height : Z) (Hh : 0 <= height < u32_max) :
  max_supply_at_height c height = Ok (sum_Z (get_subsidy c) (seqZ 1 height)) /\
  sum_Z (get_subsidy c) (seqZ 1 height) <= MAX_MONEY.
Proof.
  pose proof (interval_pos (subsidy_halving_interval c)) as Hpos.
  pose proof (interval_le (subsidy_halving_interval c)) as Hle.
  pose proof (blocks_total_sum c (Z.to_nat height)) as Hsum. rewrite Z2Nat.id in Hsum by lia.
  pose proof (blocks_total_bound c (S (Z.to_nat height))) as Hb.
  assert (H0 : get_subsidy c 0 = 5000000000) by (rewrite get_subsidy_epoch by lia; done).
  split; [|unfold MAX_MONEY; lia].
  unfold max_supply_at_height. destruct (Z.leb_spec (height + 1) u32_max); [|lia].
  cbn [mbind outcome_bind]. set (I := interval_get (subsidy_halving_interval c)) in *.
  set (k := (height + 1) / I). set (r := (height + 1) mod I).
  assert (Hk : 0 <= k) by (apply Z.div_pos; lia).
  assert (Hr : 0 <= r < I) by (apply Z.mod_pos_bound; lia).
  assert (Hn : S (Z.to_nat height) = (Z.to_nat I * Z.to_nat k + Z.to_nat r)%nat).
  { pose proof (Z.div_mod (height + 1) I ltac:(lia)) as Hdm. fold k r in Hdm.
    apply Nat2Z.inj. rewrite Nat2Z.inj_succ, Nat2Z.inj_add, Nat2Z.inj_mul, !Z2Nat.id by lia. lia. }
  rewrite Hn, blocks_total_epoch, blocks_total_full in Hsum by (fold I; lia).
  fold I in Hsum. rewrite !Z2Nat.id in Hsum by lia.
  pose proof (supply_epochs_spec c (Z.to_nat (Z.min k MAX_SUBSIDY_HALVINGS)) 0) as Hs.
  fold I in Hs. cbn [epochs_total Nat.add] in Hs. rewrite Z.mul_0_r in Hs.
  change (Z.of_nat 0) with 0 in Hs. rewrite Hs. cbn [mbind outcome_bind].
  rewrite Z.mul_0_r, H0. unfold MAX_SUBSIDY_HALVINGS in *.
  pose proof (epoch_subsidy_bounds k Hk). pose proof (epochs_total_bound (Z.to_nat k)) as [He0 He].
  rewrite Z2Nat.id in He by lia.
  assert (Hnn : 0 <= sum_Z (get_subsidy c) (seqZ 1 height)).
  { apply sum_Z_nonneg. intros x Hx. apply elem_of_seqZ in Hx.
    rewrite get_subsidy_epoch by lia. apply epoch_subsidy_bounds. apply Z.div_pos; lia. }
  destruct (Z.ltb_spec k 64).
  - rewrite Z.min_l by lia. rewrite get_subsidy_epoch by nia. fold I.
    rewrite (Z.mul_comm I k), Z.div_mul by lia.
    unfold u64_mul, u64_add, u64_sub, u64_max.
    destruct (Z.leb_spec (r * epoch_subsidy k) 18446744073709551615); [|nia].
    cbn [mbind outcome_bind].
    destruct (Z.leb_spec (I * epochs_total (Z.to_nat k) + r * epoch_subsidy k)
                18446744073709551615); [|nia].
    cbn [mbind outcome_bind].
    destruct (Z.leb_spec 5000000000 (I * epochs_total (Z.to_nat k) + r * epoch_subsidy k)); [|lia].
    f_equal. lia.
  - rewrite Z.min_r by lia. change (Z.to_nat 64) with 64%nat.
    rewrite (epochs_total_stable (Z.to_nat k)), epoch_subsidy_zero in Hsum by lia.
    cbn [mbind outcome_bind]. unfold u64_sub.
    destruct (Z.leb_spec 5000000000 (I * epochs_total 64)); [|lia]. f_equal. lia.
Qed.

(** * Transactions *)

Section TxFacts.
Context `{HashLib, TxLib, HeaderLib, KernelLib, UtreexoLib}.

Abbreviation prevouts l := (map previous_output l).

(** Total value of a list of outputs, and of a map of unspent outputs. *)
Definition out_sum (outs : list TxOut) : Z := sum_Z txo_value outs.
Definition utxo_value (u : UtxoData) : Z := txo_value (u_txout u).
Definition utxo_total (m : gmap OutPoint UtxoData) : Z := map_sum utxo_value m.
Definition outs_nonneg (outs : list TxOut) : Prop := Forall (fun o => 0 <= txo_value o) outs.
Definition utxos_nonneg (m : gmap OutPoint UtxoData) : Prop :=
  map_Forall (fun _ u => 0 <= utxo_value u) m.

Lemma duplicate_loop_spec l : forall seen,
  duplicate_loop seen l = false <->
  NoDup (prevouts l) /\ forall o, o ∈ prevouts l -> o ∉ seen.
Proof.
  induction l as [|i l IH]; intros seen; cbn [duplicate_loop map].
  - split; [|done]. intros _. split; [constructor|]. intros o Ho. by apply not_elem_of_nil in Ho.
  - case_bool_decide as Hin; [split; [done|]|].
    { intros [_ Hn]. exfalso. apply (Hn (previous_output i)); [left|done]. }
    rewrite IH, NoDup_cons. split.
    + intros [Hnd Hn]. split_and!; [|done|].
      * intros Hi. apply (Hn _ Hi), elem_of_union_l, elem_of_singleton_2. done.
      * intros o [->|Ho]%elem_of_cons; [done|]. intros Ho'.
        by apply (Hn o Ho), elem_of_union_r.
    + intros [[Hni Hnd] Hn]. split; [done|]. intros o Ho.
      intros [->%elem_of_singleton|Hs]%elem_of_union; [done|].
      by apply (Hn o); [right|].
Qed.

Lemma has_duplicate_false l : has_duplicate_inputs l = false <-> NoDup (prevouts l).
Proof.
  assert (Hloop : duplicate_loop ∅ l = false <-> NoDup (prevouts l)).
  { rewrite duplicate_loop_spec. split; [by intros [? _]|]. intros Hn. split; [done|].
    intros o _. apply not_elem_of_empty. }
  destruct l as [|a [|b [|c l]]]; try exact Hloop; cbn [has_duplicate_inputs map].
  rewrite bool_decide_eq_false, NoDup_cons, list_elem_of_singleton. split.
  - intros Hne. split; [done|]. apply NoDup_singleton.
  - by intros [? _].
Qed.

Lemma total_out_loop_ok outs : forall v t,
  total_out_loop v outs = Ok t -> t = v + out_sum outs.
Proof.
  induction outs as [|o outs IH]; intros v t Ht; cbn in Ht |- *.
  - injection Ht as <-. unfold out_sum. cbn. lia.
  - apply obind_ok in Ht as (v' & Hv & Ht). apply ok_or_ok, checked_add64_Some in Hv as [-> _].
    apply IH in Ht. unfold out_sum in *. cbn. lia.
Qed.

Lemma total_out_loop_small outs : forall v,
  outs_nonneg outs -> v + out_sum outs <= u64_max ->
  total_out_loop v outs = Ok (v + out_sum outs).
Proof.
  induction outs as [|o outs IH]; intros v Hn Hle; unfold out_sum in *; cbn in *.
  - f_equal. lia.
  - apply Forall_cons in Hn as [Ho Hn].
    assert (0 <= sum_Z txo_value outs).
    { apply sum_Z_nonneg. intros x Hx. by eapply Forall_forall in Hn. }
    unfold checked_add64. destruct (Z.leb_spec (v + txo_value o) u64_max); [|lia].
    cbn. rewrite IH by (done || lia). f_equal. lia.
Qed.

Lemma check_inputs_ok tx l :
  check_inputs tx l = Ok tt <->
  Forall (fun i => is_null (previous_output i) = false /\ is_unspendable (script_sig i) = false) l.
Proof.
  induction l as [|i l IH]; cbn [check_inputs]; [split; [constructor|done]|].
  rewrite Forall_cons, <-IH. unfold err_if, validate_script_size.
  destruct (is_null _), (is_unspendable _); cbn; intuition congruence.
Qed.

(** check_transaction_context_free accepts a transaction exactly when it has inputs and
    outputs, no null prevout and no unspendable input script, no duplicate prevout (the
    one, two and many input paths agree), and a total output value of at most MAX_MONEY,
    which is what it returns. *)
Theorem check_transaction_context_free_iff (tx : Transaction) (v : Z)
  (Hn : outs_nonneg (tx_output tx)) :
  check_transaction_context_free tx = Ok v <->
  tx_input tx <> [] /\ tx_output tx <> [] /\
  Forall (fun i => is_null (previous_output i) = false /\ is_unspendable (script_sig i) = false)
    (tx_input tx) /\
  NoDup (prevouts (tx_input tx)) /\
  v = out_sum (tx_output tx) /\ v <= MAX_MONEY.
Proof.
  unfold check_transaction_context_free.
  rewrite <-(check_inputs_ok tx), <-has_duplicate_false.
  assert (Hmm : MAX_MONEY <= u64_max) by (unfold MAX_MONEY, u64_max; lia). split.
  - intros Hc.
    apply obind_ok in Hc as (? & H5 & Hc). apply err_if_ok in H5.
    apply obind_ok in Hc as (? & H6 & Hc). apply err_if_ok in H6.
    apply obind_ok in Hc as ([] & H7 & Hc).
    apply obind_ok in Hc as (? & H8 & Hc). apply err_if_ok in H8.
    apply obind_ok in Hc as (t & H9 & Hc).
    apply obind_ok in Hc as (? & H10 & Hc). apply err_if_ok in H10. injection Hc as <-.
    apply total_out_loop_ok in H9. zbool. split_and!; done || lia.
  - intros (Hi & Ho & Hci & Hd & -> & Hm).
    rewrite !bool_decide_eq_false_2 by done. cbn [err_if mbind outcome_bind].
    rewrite Hci, Hd. cbn [err_if mbind outcome_bind].
    unfold total_out_value. rewrite total_out_loop_small by (done || lia).
    cbn [mbind outcome_bind]. rewrite Z.add_0_l. unfold err_if.
    by destruct (Z.ltb_spec MAX_MONEY (out_sum (tx_output tx))); [lia|].
Qed.

(** What the input loop of [verify_transaction] does to the outputs. *)
Lemma spend_inputs_spec tx h cut l : forall v sp u v' sp' u',
  spend_inputs tx h cut l v sp u = Ok (v', sp', u') ->
  utxo_total u' = utxo_total u - (v' - v) /\
  NoDup (prevouts l) /\
  (forall o, o ∈ prevouts l -> u' !! o = None) /\
  (forall o, o ∉ prevouts l -> u' !! o = u !! o) /\
  (forall i, i ∈ l -> exists x, u !! previous_output i = Some x /\
                                check_spend tx h cut i x = Ok tt).
Proof.
  induction l as [|i l IH]; intros v sp u v' sp' u' Hs; cbn [spend_inputs] in Hs.
  - injection Hs as -> -> ->. split_and!; try done; [lia|constructor| |];
      intros o Ho; by apply not_elem_of_nil in Ho.
  - unfold take_utxo in Hs. destruct (u !! previous_output i) as [x|] eqn:Hx; [|done].
    cbn [mbind outcome_bind] in Hs.
    apply obind_ok in Hs as ([] & Hc & Hs).
    apply obind_ok in Hs as (v1 & Hv & Hs). apply ok_or_ok, checked_add64_Some in Hv as [-> _].
    apply IH in Hs as (Ht & Hnd & Hin & Hout & Hchk). clear IH.
    assert (Hni : previous_output i ∉ prevouts l).
    { intros Hi. apply list_elem_of_fmap in Hi as (j & Hj & Hjl).
      destruct (Hchk j Hjl) as (y & Hy & _). rewrite <-Hj, lookup_delete_eq in Hy. done. }
    cbn [map]. split_and!.
    + unfold utxo_total in *. rewrite Ht, (map_sum_delete _ _ _ _ Hx). unfold utxo_value. lia.
    + by apply NoDup_cons.
    + intros o [->|Ho]%elem_of_cons; [|by apply Hin].
      rewrite Hout by done. apply lookup_delete_eq.
    + intros o Ho. apply not_elem_of_cons in Ho as [Hne Ho]. rewrite Hout by done.
      by apply lookup_delete_ne.
    + intros j [->|Hj]%elem_of_cons; [by exists x|].
      destruct (Hchk j Hj) as (y & Hy & Hcy). exists y. split; [|done].
      by apply lookup_delete_Some in Hy as [_ ?].
Qed.

(** The conditions under which an output may be spent at [height]. *)
Definition spendable_at (tx : Transaction) (height : Z) (cut : LockTimeCutoff) (i : TxIn)
  (x : UtxoData) : Prop :=
  (u_is_coinbase x = true -> creation_height x + 100 <= height) /\
  (is_bip68_enabled tx = true -> forall lock, to_relative_lock_time (sequence i) = Some lock ->
     relative_locktime_satisfied cut lock (saturating_sub height (creation_height x))
       (creation_time x) = true) /\
  is_unspendable (script_pubkey (u_txout x)) = false.

Lemma check_spend_ok tx h cut i x :
  check_spend tx h cut i x = Ok tt -> spendable_at tx h cut i x.
Proof.
  intros Hc. unfold check_spend in Hc. apply obind_ok in Hc as ([] & Hm & Hc).
  apply obind_ok in Hc as ([] & Hb & Hs). split_and!.
  - intros Hcb. rewrite Hcb in Hm. apply obind_ok in Hm as (m & Hadd & Hm).
    apply u32_add_ok in Hadd as [-> _]. apply err_if_ok in Hm. zbool. lia.
  - intros H68 lock Hl. rewrite H68, Hl in Hb. apply err_if_ok in Hb. by zbool.
  - unfold validate_script_size in Hs. by destruct (is_unspendable _).
Qed.

Lemma verify_transaction_facts (tx : Transaction) (u u' : gmap OutPoint UtxoData) (height : Z)
  (cut : LockTimeCutoff) (vs : bool) (flags vin vout : Z)
  (Hv : verify_transaction tx u height cut vs flags = Ok (vin, vout, u')) :
  vout = out_sum (tx_output tx) /\ vout <= vin <= MAX_MONEY /\
  utxo_total u' = utxo_total u - vin /\
  NoDup (prevouts (tx_input tx)) /\
  (forall o, u' !! o = if decide (o ∈ prevouts (tx_input tx)) then None else u !! o) /\
  (forall i, i ∈ tx_input tx -> exists x, u !! previous_output i = Some x /\
                                          spendable_at tx height cut i x).
Proof.
  unfold verify_transaction in Hv. apply obind_ok in Hv as (ov & Hc & Hv).
  apply obind_ok in Hv as ([[iv sp] u1] & Hs & Hv).
  apply obind_ok in Hv as (? & Hm & Hv). apply err_if_ok in Hm.
  apply obind_ok in Hv as (? & Hle & Hv). apply err_if_ok in Hle.
  apply obind_ok in Hv as (? & _ & Hv). injection Hv as <- <- <-. zbool.
  assert (ov = out_sum (tx_output tx)) as ->.
  { unfold check_transaction_context_free in Hc.
    repeat (apply obind_ok in Hc as (? & ? & Hc)). injection Hc as <-.
    match goal with Ht : total_out_value _ = Ok _ |- _ => apply total_out_loop_ok in Ht; lia end. }
  apply spend_inputs_spec in Hs as (Ht & Hnd & Hin & Hout & Hchk).
  split_and!; try done; try lia.
  - intros o. case_decide; auto.
  - intros i Hi. destruct (Hchk i Hi) as (y & Hy & Hcs). exists y. split; [done|].
    by apply check_spend_ok.
Qed.

(** C26: When verify_transaction accepts, the output value is the sum of the outputs, it
    is at most the input value, which is at most MAX_MONEY, the UTXO map loses exactly
    the spent outputs and exactly their value, the inputs are distinct, and each spent
    output existed, was mature when a coinbase and satisfied its relative lock time. *)
Theorem verify_transaction_sound (tx : Transaction) (u u' : gmap OutPoint UtxoData) (height : Z)
  (cut : LockTimeCutoff) (vs : bool) (flags vin vout : Z)
  (Hv : verify_transaction tx u height cut vs flags = Ok (vin, vout, u')) :
  vout = out_sum (tx_output tx) /\ vout <= vin <= MAX_MONEY /\
  utxo_total u' = utxo_total u - vin /\
  NoDup (prevouts (tx_input tx)) /\
  (forall o, u' !! o = if decide (o ∈ prevouts (tx_input tx)) then None else u !! o) /\
  (forall i, i ∈ tx_input tx -> exists x, u !! previous_output i = Some x /\
                                          spendable_at tx height cut i x).
Proof. by apply verify_transaction_facts in Hv. Qed.
End TxFacts.

(** * SwiftSync: what a block adds to the aggregator *)

Section SwiftBlock.
Context `{HashLib, TxLib, HeaderLib, UtreexoLib} `{!Codec TxOut}.

(** The outputs of a transaction that can be spent, and those of a block in
    order; the coinbase of a block that BIP 30 overwrote has none. *)
Fixpoint spendable_from (txid : Txid) (vout : Z) (outs : list TxOut) : list OutPoint :=
  match outs with
  | [] => []
  | out :: rest =>
      (if is_unspendable (script_pubkey out) then [] else [mkOutPoint txid (wrap32 vout)]) ++ spendable_from txid (vout + 1) rest
  end.
Definition spendable_outputs (bip30 : bool) (n : nat) (tx : Transaction) : list OutPoint :=
  if (n =? 0)%nat && bip30 then [] else spendable_from (compute_txid tx) 0 (tx_output tx).
Definition block_spendable (b : Block) (height : Z) : list OutPoint :=
  concat (imap (spendable_outputs (is_bip30_unspendable b height)) (txdata b)).

(** The elements at positions that are not in a set. *)
Fixpoint unhinted {A} (us : gset Z) (i : Z) (l : list A) : list A :=
  match l with
  | [] => []
  | x :: rest => (if bool_decide (i ∈ us) then [] else [x]) ++ unhinted us (i + 1) rest
  end.
Lemma unhinted_app {A} us (l1 l2 : list A) : forall i,
  unhinted us i (l1 ++ l2) = unhinted us i l1 ++ unhinted us (i + Z.of_nat (length l1)) l2.
Proof.
  induction l1 as [|x l1 IH]; intros i; cbn [unhinted app length]; [by rewrite Z.add_0_r|].
  rewrite IH, <-app_assoc. do 3 f_equal. lia.
Qed.

(** The outputs a block creates that the hints say are spent, and the outputs
    it spends. *)
Definition hinted_spent (b : Block) (height : Z) (us : gset Z) : list OutPoint := unhinted us 0 (block_spendable b height).
Definition spent_outputs (b : Block) : list OutPoint := tail (txdata b) ≫= fun tx => map previous_output (tx_input tx).

Lemma swift_outputs_spec us txid outs : forall vout idx amount sv,
  let '(idx', _, sv') := swift_outputs us vout idx amount sv outs in
  idx' = idx + Z.of_nat (length (spendable_from txid vout outs)) /\
  map (mkOutPoint txid) sv' = map (mkOutPoint txid) sv ++ unhinted us idx (spendable_from txid vout outs).
Proof.
  induction outs as [|o outs IH]; intros vout idx amount sv; cbn [swift_outputs spendable_from].
  { cbn. by rewrite Z.add_0_r, app_nil_r. }
  set (more := default AMOUNT_MAX (checked_add64 amount (txo_value o))). destruct (is_unspendable _).
  { exact (IH (vout + 1) idx more sv). }
  cbn [app unhinted length]. case_bool_decide as Hi.
  - specialize (IH (vout + 1) (idx + 1) more sv). destruct (swift_outputs _ _ _ _ _ _) as [[idx' a] sv'].
    destruct IH as [-> ->]. split; [lia|done].
  - specialize (IH (vout + 1) (idx + 1) amount (sv ++ [wrap32 vout])). destruct (swift_outputs _ _ _ _ _ _) as [[idx' a] sv'].
    destruct IH as [-> ->]. split; [lia|]. rewrite map_app, <-app_assoc. done.
Qed.
Lemma swift_adds_spec us salt tx idx amount adds rems :
  let '(idx', _, sv) := swift_outputs us 0 idx amount [] (tx_output tx) in
  let l := spendable_from (compute_txid tx) 0 (tx_output tx) in
  idx' = idx + Z.of_nat (length l) /\
  add_outputs_to_agg salt (agg_delta salt adds rems) (compute_txid tx) sv = agg_delta salt (adds ++ unhinted us idx l) rems.
Proof.
  pose proof (swift_outputs_spec us (compute_txid tx) (tx_output tx) 0 idx amount []) as Ho.
  destruct (swift_outputs _ _ _ _ _ _) as [[idx' a] sv]. destruct Ho as [-> Hsv]. split; [done|].
  rewrite add_outputs_foldl, Hsv. apply agg_add_foldl.
Qed.
Lemma agg_remove_inputs salt l : forall a, foldl (fun a input => agg_remove salt a (previous_output input)) a l =
  foldl (agg_remove salt) a (map previous_output l).
Proof. induction l as [|i l IH]; intros a; cbn; [done|apply IH]. Qed.

Definition spent_by (n : nat) (tx : Transaction) : list OutPoint := if (n =? 0)%nat then [] else map previous_output (tx_input tx).
Lemma swift_tx_spec us salt bip30 n tx st st' adds rems : sw_agg st = agg_delta salt adds rems ->
  swift_tx_step us salt bip30 n tx (compute_txid tx) st = Ok st' ->
  sw_index st' = sw_index st + Z.of_nat (length (spendable_outputs bip30 n tx)) /\
  sw_agg st' = agg_delta salt (adds ++ unhinted us (sw_index st) (spendable_outputs bip30 n tx)) (rems ++ spent_by n tx).
Proof.
  intros Ha. unfold swift_tx_step, spendable_outputs, spent_by. destruct (n =? 0)%nat; cbn [andb].
  - intros (_ & _ & (_ & _ & (v & _ & (_ & _ & Hst)%obind_ok)%obind_ok)%obind_ok)%obind_ok. rewrite app_nil_r.
    destruct bip30; [injection Hst as <-; cbn; by rewrite Z.add_0_r, app_nil_r|]. injection Hst as <-. rewrite Ha.
    pose proof (swift_adds_spec us salt tx (sw_index st) (sw_amount st) adds rems) as Hs.
    destruct (swift_outputs _ _ _ _ _ _) as [[idx a] sv]. exact Hs.
  - intros (v & _ & Hst)%obind_ok. injection Hst as <-. cbn [sw_agg sw_index sw_amount].
    rewrite Ha, agg_remove_inputs, agg_remove_foldl.
    pose proof (swift_adds_spec us salt tx (sw_index st) (sw_amount st) adds (rems ++ map previous_output (tx_input tx))) as Hs.
    destruct (swift_outputs _ _ _ _ _ _) as [[idx a] sv]. exact Hs.
Qed.

Lemma swift_txs_spec us salt bip30 txs : forall n st st' adds rems, sw_agg st = agg_delta salt adds rems ->
  swift_txs us salt bip30 n (zip txs (map compute_txid txs)) st = Ok st' ->
  sw_agg st' = agg_delta salt (adds ++ unhinted us (sw_index st) (concat (imap (fun k => spendable_outputs bip30 (n + k)) txs)))
                 (rems ++ concat (imap (fun k => spent_by (n + k)) txs)).
Proof.
  induction txs as [|tx txs IH]; intros n st st' adds rems Ha; cbn [zip zip_with map swift_txs].
  { intros [= <-]. cbn. by rewrite !app_nil_r. }
  intros (st1 & E1 & E2)%obind_ok. destruct (swift_tx_spec us salt bip30 n tx st st1 adds rems Ha E1) as [Ei Eg].
  rewrite (IH (S n) st1 st' _ _ Eg E2). cbn [imap concat]. rewrite !Nat.add_0_r, unhinted_app, <-!app_assoc, Ei.
  assert (Hs : forall (f : nat -> Transaction -> list OutPoint), imap (fun k => f (S n + k)%nat) txs = imap (((fun k => f (n + k)%nat)) ∘ S) txs).
  { intros f. apply imap_ext. intros k x _. cbn. f_equal. lia. }
  by rewrite !Hs.
Qed.

Lemma spent_by_tail txs : forall h : nat -> nat,
  concat (imap (fun k => spent_by (S (h k))) txs) = txs ≫= fun tx => map previous_output (tx_input tx).
Proof. induction txs as [|tx txs IH]; intros h; cbn; [done|]. f_equal. exact (IH (h ∘ S)). Qed.

(** The aggregator of a block: the outputs hinted as spent minus the outputs it
    spends. *)
Lemma swift_delta_spec c b height us salt delta : process_block_swiftsync c b height us salt = Ok delta ->
  aggregator_delta delta = agg_delta salt (hinted_spent b height us) (spent_outputs b).
Proof.
  unfold process_block_swiftsync. intros (txids & Ec & (adds & _ & ([agg amount] & Ev & [= <-])%obind_ok)%obind_ok)%obind_ok. cbn.
  assert (txids = map compute_txid (txdata b)) as ->.
  { unfold check_block in Ec. apply obind_ok in Ec as (ids & Es & (_ & _ & [= <-])%obind_ok).
    destruct (check_block_structure b) as [l| | |] eqn:El; try done. injection Es as <-. unfold check_block_structure in El.
    apply obind_ok in El as (ids & Em%ok_or_ok & (_ & _ & (_ & _ & (_ & _ & [= <-])%obind_ok)%obind_ok)%obind_ok).
    unfold check_merkle_root in Em. destruct (default _ _) as [root mutated]. destruct (_ && _); [by injection Em|done]. }
  unfold verify_block_transactions_swiftsync in Ev. destruct (negb _); [done|].
  apply obind_ok in Ev as (_ & Hne%err_if_ok%bool_decide_eq_false & (st & Es & [= <- _])%obind_ok).
  assert (Hz : sw_agg (mkSwiftState agg_zero 0 0) = agg_delta salt [] []) by done.
  rewrite (swift_txs_spec us salt _ (txdata b) 0 _ st [] [] Hz Es). cbn [app sw_index]. f_equal.
  unfold spent_outputs. destruct (txdata b) as [|cb txs]; [done|]. cbn [imap concat tail app].
  exact (spent_by_tail txs id).
Qed.

(** ** The unspent amount *)

Definition amounts_unsigned (b : Block) : Prop := Forall (fun tx => outs_nonneg (tx_output tx)) (txdata b).

Lemma saturating_nonneg a b : 0 <= a -> 0 <= b -> 0 <= default AMOUNT_MAX (checked_add64 a b).
Proof. intros Ha Hb. unfold checked_add64. destruct (_ <=? _); cbn; unfold AMOUNT_MAX, u64_max; lia. Qed.
Lemma swift_outputs_nonneg us outs : outs_nonneg outs -> forall vout idx amount sv, 0 <= amount ->
  let '(_, a, _) := swift_outputs us vout idx amount sv outs in 0 <= a.
Proof.
  induction 1 as [|o outs Ho _ IH]; intros vout idx amount sv Ha; cbn [swift_outputs]; [done|].
  destruct (is_unspendable _); [|case_bool_decide]; apply IH; [by apply saturating_nonneg..|done].
Qed.
Lemma swift_tx_nonneg us salt bip30 n tx txid st st' : outs_nonneg (tx_output tx) -> 0 <= sw_amount st ->
  swift_tx_step us salt bip30 n tx txid st = Ok st' -> 0 <= sw_amount st'.
Proof.
  intros Ho Ha. pose proof (swift_outputs_nonneg us (tx_output tx) Ho 0 (sw_index st) (sw_amount st) [] Ha) as Hs.
  unfold swift_tx_step. destruct (n =? 0)%nat.
  - intros (_ & _ & (_ & _ & (v & _ & (_ & _ & Hst)%obind_ok)%obind_ok)%obind_ok)%obind_ok.
    destruct bip30; injection Hst as <-; [done|]. by destruct (swift_outputs _ _ _ _ _ _) as [[idx a] sv].
  - intros (v & _ & Hst)%obind_ok. injection Hst as <-. cbn [sw_index sw_amount].
    by destruct (swift_outputs _ _ _ _ _ _) as [[idx a] sv].
Qed.
Lemma swift_txs_nonneg us salt bip30 txs : Forall (fun tx => outs_nonneg (tx_output tx)) txs -> forall ids n st st', 0 <= sw_amount st ->
  swift_txs us salt bip30 n (zip txs ids) st = Ok st' -> 0 <= sw_amount st'.
Proof.
  induction 1 as [|tx txs Ho _ IH]; intros [|id ids] n st st' Ha; cbn [zip zip_with swift_txs]; try by intros [= <-].
  intros (st1 & E1 & E2)%obind_ok. apply (IH _ _ _ _ (swift_tx_nonneg _ _ _ _ _ _ _ _ Ho Ha E1) E2).
Qed.
Lemma swift_amount_nonneg c b height us salt delta : amounts_unsigned b -> process_block_swiftsync c b height us salt = Ok delta ->
  0 <= unspent_amount delta.
Proof.
  intros Hb. unfold process_block_swiftsync. intros (txids & _ & (adds & _ & ([agg amount] & Ev & [= <-])%obind_ok)%obind_ok)%obind_ok.
  cbn. unfold verify_block_transactions_swiftsync in Ev. destruct (negb _); [done|].
  apply obind_ok in Ev as (_ & _ & (st & Es & [= _ <-])%obind_ok). by apply (swift_txs_nonneg _ _ _ _ Hb) in Es.
Qed.
End SwiftBlock.

Lemma max_supply_ok (c : ChainParams) (height limit : Z) : 0 <= height -> max_supply_at_height c height = Ok limit ->
  limit = sum_Z (get_subsidy c) (seqZ 1 height) /\ limit < u64_max.
Proof.
  intros Hh Hm. assert (height < u32_max).
  { unfold max_supply_at_height in Hm. destruct (Z.leb_spec (height + 1) u32_max); [lia|done]. }
  destruct (max_supply_is_sum c height ltac:(lia)) as [E Hle]. rewrite E in Hm. injection Hm as <-. split; [done|].
  unfold MAX_MONEY, u64_max in *. lia.
Qed.
