(* ===== verification/BlockFacts.v ===== *)
(** What an accepted block guarantees: properties of
    [verify_block_transactions] ([consensus.rs]) as a whole.  The value of
    the unspent outputs grows by at most the subsidy, no output is spent
    twice, every spend refers to an existing or an earlier output, and the
    sigop budget holds. *)

From stdpp Require Import base gmap sets list strings.
From Stdlib Require Import ZArith Lia.
From S2P Require Import Prelude Bitcoin Errors ChainParams Codec Merkle Sigops Extensions Udata.
From S2P Require Import SwiftSync Consensus ConsensusFacts.

Section BlockFacts.
Context `{HashLib, TxLib, HeaderLib, KernelLib, UtreexoLib}.

(** The outputs spent by the [n]-th transaction: the coinbase spends none. *)
Definition tx_spends (n : nat) (tx : Transaction) : list OutPoint :=
  if (n =? 0)%nat then [] else map previous_output (tx_input tx).

(** The value the [n]-th transaction takes from its inputs' surplus. *)
Definition tx_funded (n : nat) (tx : Transaction) : Z :=
  if (n =? 0)%nat then 0 else out_sum (tx_output tx).

(** The outpoints created by a transaction. *)
Definition creates (tx : Transaction) (o : OutPoint) : Prop :=
  op_txid o = compute_txid tx /\
  exists k, (k < length (tx_output tx))%nat /\ op_vout o = wrap32 (Z.of_nat k).

Lemma insert_outputs_total txid cb h cut outs : forall vout u,
  utxos_nonneg u -> outs_nonneg outs ->
  utxo_total (insert_outputs txid cb h cut vout outs u) <= utxo_total u + out_sum outs /\
  utxos_nonneg (insert_outputs txid cb h cut vout outs u).
Proof.
  induction outs as [|o outs IH]; intros vout u Hu Ho; unfold out_sum; cbn.
  - split; [lia|done].
  - apply Forall_cons in Ho as [Ho Hos].
    set (u1 := <[_ := _]> u).
    assert (Hu1 : utxos_nonneg u1) by (apply map_Forall_insert_2; done).
    destruct (IH (vout + 1) u1 Hu1 Hos) as [Ht Hn]. split; [|done].
    pose proof (map_sum_insert_le utxo_value u (mkOutPoint txid (wrap32 vout))
      (mkUtxoData o cb h (cutoff_value cut)) Hu) as Hle.
    unfold utxo_total, out_sum in *. fold u1 in Hle. unfold utxo_value at 2 in Hle. cbn in Hle.
    lia.
Qed.

Lemma insert_outputs_lookup txid cb h cut outs o : forall j u,
  is_Some (insert_outputs txid cb h cut (Z.of_nat j) outs u !! o) ->
  is_Some (u !! o) \/
  op_txid o = txid /\ exists k, (j <= k < j + length outs)%nat /\ op_vout o = wrap32 (Z.of_nat k).
Proof.
  induction outs as [|t outs IH]; intros j u Hs; cbn [insert_outputs length] in *; [by left|].
  replace (Z.of_nat j + 1) with (Z.of_nat (S j)) in Hs by lia.
  apply IH in Hs as [Hs|(Ht & k & Hk & Hv)].
  - apply lookup_insert_is_Some in Hs as [<-|[_ Hs]]; [|by left].
    right. split; [done|]. exists j. split; [lia|done].
  - right. split; [done|]. exists k. split; [lia|done].
Qed.

(** One transaction of an accepted block. *)
Record step_facts (height : Z) (cut : LockTimeCutoff) (n : nat) (tx : Transaction)
  (st st' : BlockState) (mid : gmap OutPoint UtxoData) : Prop := {
  sf_mid : forall o, mid !! o = if decide (o ∈ tx_spends n tx) then None else bs_utxos st !! o;
  sf_nodup : NoDup (tx_spends n tx);
  sf_exists : forall o, o ∈ tx_spends n tx -> is_Some (bs_utxos st !! o);
  sf_final : bs_utxos st' = insert_outputs (compute_txid tx) (n =? 0)%nat height cut 0
                              (tx_output tx) mid;
  sf_value : utxo_total mid + bs_fee st' + tx_funded n tx = utxo_total (bs_utxos st) + bs_fee st;
  sf_budget : bs_sigops st' <= MAX_BLOCK_SIGOPS_COST;
  sf_lock : is_final_transaction tx height cut = true
}.

Lemma block_tx_step_facts height cut vs flags n tx st st' :
  block_tx_step height cut vs flags n tx st = Ok st' ->
  exists mid, step_facts height cut n tx st st' mid.
Proof.
  intros Hs. unfold block_tx_step in Hs.
  apply obind_ok in Hs as ([] & Hf & Hs). apply err_if_ok in Hf. zbool.
  apply obind_ok in Hs as ([] & Hb & Hs). apply err_if_ok in Hb. zbool.
  apply obind_ok in Hs as ([mid fee] & Hm & Hs). injection Hs as <-.
  exists mid. destruct (n =? 0)%nat eqn:En.
  - apply obind_ok in Hm as (? & _ & Hm). apply obind_ok in Hm as (? & _ & Hm).
    injection Hm as <- <-.
    split; unfold tx_spends, tx_funded; rewrite ?En; cbn; try done; try lia.
    + constructor.
    + intros o Ho. by apply not_elem_of_nil in Ho.
  - apply obind_ok in Hm as ([[vin vout] u1] & Hv & Hm).
    apply obind_ok in Hm as (d & Hd & Hm). apply obind_ok in Hm as (f & Hfee & Hm).
    apply ok_or_ok, checked_add64_Some in Hfee as [-> _]. injection Hm as <- <-.
    unfold u64_sub in Hd. destruct (vout <=? vin); [|done]. injection Hd as <-.
    apply verify_transaction_facts in Hv as (-> & Hle & Ht & Hnd & Hmid & Hin).
    split; unfold tx_spends, tx_funded; rewrite ?En; cbn; try done; try lia.
    intros o (i & -> & Hi)%list_elem_of_fmap. destruct (Hin i Hi) as (x & Hx & _). by exists x.
Qed.

(** ** Value *)

Lemma block_txs_value height cut vs flags txs : forall n st st',
  block_txs height cut vs flags (S n) txs st = Ok st' ->
  utxos_nonneg (bs_utxos st) -> Forall (fun tx => outs_nonneg (tx_output tx)) txs ->
  utxo_total (bs_utxos st') + bs_fee st' <= utxo_total (bs_utxos st) + bs_fee st.
Proof.
  induction txs as [|tx txs IH]; intros n st st' Hb Hu Ho; cbn in Hb.
  - injection Hb as <-. lia.
  - apply obind_ok in Hb as (st1 & Hs & Hb). apply Forall_cons in Ho as [Ho Hos].
    apply block_tx_step_facts in Hs as (mid & F).
    assert (Hmid : utxos_nonneg mid).
    { intros o x Hx. rewrite (sf_mid _ _ _ _ _ _ _ F) in Hx. case_decide; [done|].
      by apply (Hu o). }
    destruct (insert_outputs_total (compute_txid tx) false height cut (tx_output tx) 0 mid
                Hmid Ho) as [Ht Hn].
    pose proof (sf_final _ _ _ _ _ _ _ F) as Hfin. cbn in Hfin. rewrite <-Hfin in Ht, Hn.
    pose proof (sf_value _ _ _ _ _ _ _ F) as Hval. cbn in Hval.
    specialize (IH _ _ _ Hb Hn Hos). lia.
Qed.

(** C24: A block accepted by verify_block_transactions creates at most the subsidy: the
    total value of the UTXO map after the block is at most the total before it plus the
    subsidy, so no money is created by any transaction and the coinbase claims at most
    subsidy plus fees. *)
Theorem block_value_conserved (height : Z) (cut : LockTimeCutoff)
  (utxos : gmap OutPoint UtxoData) (txs : list Transaction) (subsidy : Z) (vs : bool) (flags : Z)
  (st : BlockState) (Hu : utxos_nonneg utxos)
  (Ho : Forall (fun tx => outs_nonneg (tx_output tx)) txs)
  (Hb : verify_block_transactions_state height cut utxos txs subsidy vs flags = Ok st) :
  utxo_total (bs_utxos st) <= utxo_total utxos + subsidy.
Proof.
  destruct txs as [|cb txs]; [done|]. cbn [verify_block_transactions_state] in Hb.
  apply obind_ok in Hb as (st1 & Hb & Hr). apply obind_ok in Hr as (ar & Har & Hr).
  apply ok_or_ok, checked_add64_Some in Har as [-> _].
  apply obind_ok in Hr as (ct & Hct & Hr). apply total_out_loop_ok in Hct.
  apply obind_ok in Hr as (? & Hle & Hr). apply err_if_ok in Hle. injection Hr as <-. zbool.
  cbn [block_txs] in Hb. apply obind_ok in Hb as (st0 & Hs & Hb).
  apply Forall_cons in Ho as [Ho Hos]. apply block_tx_step_facts in Hs as (mid & F).
  assert (Hmid : mid = utxos).
  { apply map_eq. intros o. rewrite (sf_mid _ _ _ _ _ _ _ F).
    case_decide as Hi; [by apply not_elem_of_nil in Hi|done]. }
  subst mid.
  destruct (insert_outputs_total (compute_txid cb) true height cut (tx_output cb) 0 utxos Hu Ho)
    as [Ht Hn].
  pose proof (sf_final _ _ _ _ _ _ _ F) as Hfin. cbn in Hfin. rewrite <-Hfin in Ht, Hn.
  pose proof (sf_value _ _ _ _ _ _ _ F) as Hval. cbn in Hval.
  pose proof (block_txs_value _ _ _ _ _ _ _ _ Hb Hn Hos). lia.
Qed.

(** ** Spends *)

(** The outputs spent by the transactions from position [n] on. *)
Fixpoint block_spends (n : nat) (txs : list Transaction) : list OutPoint :=
  match txs with
  | [] => []
  | tx :: rest => tx_spends n tx ++ block_spends (S n) rest
  end.

Lemma block_txs_spends height cut vs flags txs : forall n st st',
  block_txs height cut vs flags n txs st = Ok st' ->
  NoDup (map compute_txid txs) ->
  (forall o, is_Some (bs_utxos st !! o) -> op_txid o ∉ map compute_txid txs) ->
  NoDup (block_spends n txs) /\
  (forall o, o ∈ block_spends n txs ->
     is_Some (bs_utxos st !! o) \/ op_txid o ∈ map compute_txid txs).
Proof.
  induction txs as [|tx txs IH]; intros n st st' Hb Hnd Hfresh; cbn in *.
  - split; [constructor|]. intros o Ho. by apply not_elem_of_nil in Ho.
  - apply obind_ok in Hb as (st1 & Hs & Hb). apply NoDup_cons in Hnd as [Hni Hnd].
    apply block_tx_step_facts in Hs as (mid & F).
    assert (Hst1 : forall o, is_Some (bs_utxos st1 !! o) ->
              (is_Some (bs_utxos st !! o) /\ o ∉ tx_spends n tx) \/ op_txid o = compute_txid tx).
    { intros o Ho. rewrite (sf_final _ _ _ _ _ _ _ F) in Ho.
      apply (insert_outputs_lookup _ _ _ _ _ _ 0) in Ho as [Ho|[Ho _]]; [left|by right].
      rewrite (sf_mid _ _ _ _ _ _ _ F) in Ho. case_decide; [by destruct Ho|done]. }
    destruct (IH _ _ _ Hb Hnd) as [Hnd' Hin].
    { intros o Ho. destruct (Hst1 o Ho) as [[Ho' _]| ->]; [|done].
      intros Hm. apply (Hfresh o Ho'). by right. }
    split.
    + apply NoDup_app. split_and!; [by apply (sf_nodup _ _ _ _ _ _ _ F)| |done].
      intros o Hsp Hrest. pose proof (sf_exists _ _ _ _ _ _ _ F o Hsp) as Hold.
      specialize (Hfresh o Hold). apply not_elem_of_cons in Hfresh as [Hne Hnr].
      destruct (Hin o Hrest) as [Hs1|]; [|done].
      destruct (Hst1 o Hs1) as [[_ ?]|?]; done.
    + intros o [Hsp|Hrest]%elem_of_app; [left; by apply (sf_exists _ _ _ _ _ _ _ F)|].
      destruct (Hin o Hrest) as [Hs1|Hm]; [|right; by right].
      destruct (Hst1 o Hs1) as [[? _]|Ht]; [by left|right; rewrite Ht; left].
Qed.

(** C25: No output is spent twice in a block accepted by verify_block_transactions,
    neither by one transaction nor by two, provided the transaction ids of the block are
    distinct and not those of outputs supplied by the proof. *)
Theorem block_no_double_spend (height : Z) (cut : LockTimeCutoff)
  (utxos : gmap OutPoint UtxoData) (txs : list Transaction) (subsidy : Z) (vs : bool) (flags : Z)
  (st : BlockState) (Hids : NoDup (map compute_txid txs))
  (Hnew : forall o, is_Some (utxos !! o) -> op_txid o ∉ map compute_txid txs)
  (Hb : verify_block_transactions_state height cut utxos txs subsidy vs flags = Ok st) :
  NoDup (block_spends 0 txs).
Proof.
  destruct txs as [|cb txs]; [constructor|]. cbn [verify_block_transactions_state] in Hb.
  apply obind_ok in Hb as (st1 & Hb & _).
  apply (block_txs_spends _ _ _ _ _ _ _ _ Hb Hids Hnew).
Qed.

(** Where the outputs spent by each transaction come from. *)
Lemma block_txs_origin height cut vs flags post pre : forall n st st',
  block_txs height cut vs flags n (pre ++ post) st = Ok st' ->
  exists stm, block_txs height cut vs flags (n + length pre) post stm = Ok st' /\
  (forall o, is_Some (bs_utxos stm !! o) ->
     is_Some (bs_utxos st !! o) \/ exists t, t ∈ pre /\ creates t o).
Proof.
  induction pre as [|tx pre IH]; intros n st st' Hb; cbn [app block_txs length] in Hb.
  - exists st. rewrite Nat.add_0_r. auto.
  - apply obind_ok in Hb as (st1 & Hs & Hb).
    apply IH in Hb as (stm & Hp & Ho). exists stm.
    split; [by replace (n + length (tx :: pre))%nat with (S n + length pre)%nat by (cbn; lia)|].
    apply block_tx_step_facts in Hs as (mid & F).
    intros o Hs. destruct (Ho o Hs) as [Hs1|(t & Ht & Hc)]; [|right; exists t; split; [by right|done]].
    rewrite (sf_final _ _ _ _ _ _ _ F) in Hs1.
    apply (insert_outputs_lookup _ _ _ _ _ _ 0) in Hs1 as [Hm|(Ht & k & Hk & Hv)].
    + rewrite (sf_mid _ _ _ _ _ _ _ F) in Hm. case_decide; [by destruct Hm|by left].
    + right. exists tx. split; [left|]. split; [done|]. exists k. split; [lia|done].
Qed.

(** Every non-coinbase transaction of an accepted block is final, and each of its inputs
    spends an output supplied by the proof or created by a transaction before it in the
    block; in particular an output created later in the block cannot be spent. *)
Theorem block_inputs_exist (height : Z) (cut : LockTimeCutoff)
  (utxos : gmap OutPoint UtxoData) (cb : Transaction) (pre : list Transaction)
  (tx : Transaction) (post : list Transaction) (subsidy : Z) (vs : bool) (flags : Z)
  (st : BlockState)
  (Hb : verify_block_transactions_state height cut utxos (cb :: pre ++ tx :: post) subsidy vs
          flags = Ok st) :
  is_final_transaction tx height cut = true /\
  forall o, o ∈ map previous_output (tx_input tx) ->
    is_Some (utxos !! o) \/ exists t, t ∈ cb :: pre /\ creates t o.
Proof.
  cbn [verify_block_transactions_state] in Hb. apply obind_ok in Hb as (st1 & Hb & _).
  apply (block_txs_origin _ _ _ _ (tx :: post) (cb :: pre)) in Hb as (stm & Hp & Ho).
  cbn [block_txs length] in Hp. apply obind_ok in Hp as (st2 & Hs & _).
  apply block_tx_step_facts in Hs as (mid & F). split; [apply (sf_lock _ _ _ _ _ _ _ F)|].
  intros o Hi. apply Ho. by apply (sf_exists _ _ _ _ _ _ _ F).
Qed.
End BlockFacts.
