(* ===== verification/ChainStore.v ===== *)
(** The storage interface of the chain
    ([crates/floresta-chain/src/pruned_utreexo/chainstore.rs]): disk headers
    and their encoding, the best-chain record and its encoding, and the
    [ChainStore] trait as a class with the abstract view its operations act
    on. *)

From stdpp Require Import base gmap list strings.
From Stdlib Require Import ZArith Lia.
From S2P Require Import Prelude Bitcoin Errors Codec.

(** * Disk headers *)

Inductive DiskBlockHeader :=
  | FullyValid (header : BlockHeader) (height : Z)
  | AssumedValid (header : BlockHeader) (height : Z)
  | Orphan (header : BlockHeader)
  | HeadersOnly (header : BlockHeader) (height : Z)
  | InFork (header : BlockHeader) (height : Z)
  | InvalidChain (header : BlockHeader).

#[export] Instance DiskBlockHeader_eq_dec : EqDecision DiskBlockHeader.
Proof. solve_decision. Defined.

(** [Deref for DiskBlockHeader]. *)
Definition deref (d : DiskBlockHeader) : BlockHeader :=
  match d with
  | FullyValid header _ => header
  | Orphan header => header
  | HeadersOnly header _ => header
  | InFork header _ => header
  | InvalidChain header => header
  | AssumedValid header _ => header
  end.

(** [DiskBlockHeader::height]. *)
Definition dh_height (d : DiskBlockHeader) : option Z :=
  match d with
  | InFork _ height => Some height
  | FullyValid _ height => Some height
  | HeadersOnly _ height => Some height
  | AssumedValid _ height => Some height
  | Orphan _ => None
  | InvalidChain _ => None
  end.

(** [DiskBlockHeader::block_hash]. *)
Definition dh_hash `{HeaderLib} (d : DiskBlockHeader) : BlockHash := block_hash (deref d).

(** [DiskBlockHeader::try_height]. *)
Definition try_height `{UtreexoLib} (d : DiskBlockHeader) : outcome BlockchainError Z :=
  ok_or (dh_height d) OrphanOrInvalidBlock.

(** * Encoding *)

Definition INVALID_TAG : DecodeError := ParseFailed "DiskBlockHeader: invalid tag".

Section DiskCodec.
Context `{!Codec BlockHeader}.

(** [Encodable for DiskBlockHeader]: the bytes written. *)
Definition disk_header_enc (d : DiskBlockHeader) : list Z :=
  match d with
  | FullyValid header height => enc (U8 0x00) ++ enc header ++ enc (U32 height)
  | Orphan header => enc (U8 0x01) ++ enc header
  | HeadersOnly header height => enc (U8 0x02) ++ enc header ++ enc (U32 height)
  | InFork header height => enc (U8 0x03) ++ enc header ++ enc (U32 height)
  | InvalidChain header => enc (U8 0x04) ++ enc header
  | AssumedValid header height => enc (U8 0x05) ++ enc header ++ enc (U32 height)
  end.

(** The length [consensus_encode] reports. *)
Definition disk_header_enc_len (d : DiskBlockHeader) : Z :=
  match d with
  | FullyValid _ _ | HeadersOnly _ _ | InFork _ _ | AssumedValid _ _ => 80 + 1 + 4
  | Orphan _ | InvalidChain _ => 80 + 1
  end.

(** [Decodable for DiskBlockHeader]. *)
Definition disk_header_dec (r : list Z) : outcome DecodeError (DiskBlockHeader * list Z) :=
  '(tag, r) ← dec (A := u8) r;
  '(header, r) ← dec (A := BlockHeader) r;
  let with_height (k : BlockHeader -> Z -> DiskBlockHeader) :=
    '(height, r) ← dec (A := u32) r; Ok (k header (u32_val height), r) in
  match u8_val tag with
  | 0x00 => with_height FullyValid
  | 0x01 => Ok (Orphan header, r)
  | 0x02 => with_height HeadersOnly
  | 0x03 => with_height InFork
  | 0x04 => Ok (InvalidChain header, r)
  | 0x05 => with_height AssumedValid
  | _ => Err INVALID_TAG
  end.
End DiskCodec.

(** * The best chain *)

Record BestChain := mkBestChain {
  best_block : BlockHash;
  depth : Z;
  validation_index : BlockHash;
  alternative_tips : list BlockHash
}.

#[export] Instance BestChain_eq_dec : EqDecision BestChain.
Proof. solve_decision. Defined.

(** [BestChain::new_block] and [BestChain::valid_block]. *)
Definition bc_new_block (h : BlockHash) (height : Z) (b : BestChain) : BestChain :=
  mkBestChain h height (validation_index b) (alternative_tips b).
Definition bc_valid_block (h : BlockHash) (b : BestChain) : BestChain :=
  mkBestChain (best_block b) (depth b) h (alternative_tips b).

Section BestChainCodec.
Context `{!Codec (list hash32)}.

(** [Encodable] and [Decodable] for [BestChain]; the vector of hashes is
    encoded by rust-bitcoin. *)
Definition best_chain_enc (b : BestChain) : list Z :=
  enc (H32 (best_block b)) ++ enc (U32 (depth b)) ++ enc (H32 (validation_index b)) ++
  enc (map H32 (alternative_tips b)).

Definition best_chain_dec (r : list Z) : outcome DecodeError (BestChain * list Z) :=
  '(best, r) ← dec (A := hash32) r;
  '(d, r) ← dec (A := u32) r;
  '(vi, r) ← dec (A := hash32) r;
  '(tips, r) ← dec (A := list hash32) r;
  Ok (mkBestChain (h32_val best) (u32_val d) (h32_val vi) (map h32_val tips), r).
End BestChainCodec.

(** * The store *)

(** [ChainStoreWarning]. *)
Inductive ChainStoreWarning :=
  | HeaderStorageFull
  | BlockIndexFull.

#[export] Instance ChainStoreWarning_eq_dec : EqDecision ChainStoreWarning.
Proof. solve_decision. Defined.

(** The [ChainStore] trait over a store [S] with error type [DbErr].  A
    method on [&mut self] returns the store it leaves behind, on errors too. *)
Class ChainStore (S DbErr : Type) := {
  save_roots_for_block : list Z -> Z -> S -> outcome DbErr unit * S;
  load_roots_for_block : Z -> S -> outcome DbErr (option (list Z)) * S;
  load_height : S -> outcome DbErr (option BestChain);
  save_height : BestChain -> S -> outcome DbErr unit * S;
  get_header : BlockHash -> S -> outcome DbErr (option DiskBlockHeader);
  store_header_by_height : Z -> S -> outcome DbErr (option DiskBlockHeader);
  save_header : DiskBlockHeader -> S -> outcome DbErr unit * S;
  store_block_hash : Z -> S -> outcome DbErr (option BlockHash);
  store_flush : S -> outcome DbErr unit * S;
  update_block_index : Z -> BlockHash -> S -> outcome DbErr unit * S;
  check_integrity : S -> outcome DbErr unit;
  size_on_disk : S -> outcome DbErr Z;
  store_warnings : S -> list ChainStoreWarning
}.

(** A header of the best chain. *)
Definition is_main (d : DiskBlockHeader) : bool :=
  match d with FullyValid _ _ | HeadersOnly _ _ | AssumedValid _ _ => true | _ => false end.

(** What a store promises to the chain state, stated on an abstract view:
    headers by hash, the header recorded for each height, and the serialised
    accumulators by height.  A store represents a view ([rep]).

    The promise is what the chain state relies on.  A header of the best
    chain is saved and indexed in one go, and its height is not taken by
    another best-chain header: the blocks it replaces were moved to a fork
    before.  Saving it resets the accumulator recorded at its height.  Saving
    an accumulator is only promised to keep that accumulator. *)
Record StoreView := mkStoreView {
  v_headers : gmap BlockHash DiskBlockHeader;
  v_slots : gmap Z DiskBlockHeader;
  v_roots : gmap Z (list Z)
}.

Class ChainStoreOk (S DbErr : Type) `{HeaderLib} `{!ChainStore S DbErr}
  (rep : S -> StoreView -> Prop) (roots_room : S -> Prop) : Prop := {
  get_header_rep : forall s v h, rep s v -> get_header h s = Ok (v_headers v !! h);
  slot_rep : forall s v n d, rep s v -> v_slots v !! n = Some d ->
    store_header_by_height n s = Ok (Some d) /\ store_block_hash n s = Ok (Some (dh_hash d));
  load_roots_rep : forall s v n, rep s v -> 0 <= n ->
    rep (load_roots_for_block n s).2 v /\
    forall r, (load_roots_for_block n s).1 = Ok (Some r) <-> v_roots v !! n = Some r;
  save_main_rep : forall s v d n s1 s2, rep s v ->
    is_main d = true -> dh_height d = Some n -> 0 < n -> dh_hash d <> 0 ->
    (exists g, v_slots v !! 0 = Some g /\ dh_hash d <> dh_hash g) ->
    (forall h' d', v_headers v !! h' = Some d' -> is_main d' = true -> dh_height d' = Some n ->
       h' = dh_hash d) ->
    save_header d s = (Ok tt, s1) -> update_block_index n (dh_hash d) s1 = (Ok tt, s2) ->
    rep s2 (mkStoreView (<[dh_hash d := d]> (v_headers v)) (<[n := d]> (v_slots v))
              (delete n (v_roots v))) /\
    (roots_room s -> roots_room s2);
  save_fork_rep : forall s v d s1, rep s v ->
    is_main d = false -> dh_hash d <> 0 ->
    (exists g, v_slots v !! 0 = Some g /\ dh_hash d <> dh_hash g) ->
    save_header d s = (Ok tt, s1) ->
    rep s1 (mkStoreView (<[dh_hash d := d]> (v_headers v)) (v_slots v) (v_roots v));
  save_roots_rep : forall s v n d r s1, rep s v -> roots_room s -> 0 < n ->
    v_slots v !! n = Some d -> r <> [] -> save_roots_for_block r n s = (Ok tt, s1) ->
    exists roots, rep s1 (mkStoreView (v_headers v) (v_slots v) roots) /\ roots !! n = Some r;
  save_height_rep : forall s v b s1, rep s v -> save_height b s = (Ok tt, s1) -> rep s1 v;
  flush_rep : forall s v s1, rep s v -> store_flush s = (Ok tt, s1) -> rep s1 v
}.

(** No operation of the store loops forever. *)
Class StoreTotal (S DbErr : Type) `{HeaderLib} `{!ChainStore S DbErr} : Prop := {
  get_header_total : forall h s, ends (get_header h s);
  store_block_hash_total : forall n s, ends (store_block_hash n s);
  store_header_by_height_total : forall n s, ends (store_header_by_height n s);
  save_header_total : forall d s, ends (save_header d s).1;
  update_block_index_total : forall n h s, ends (update_block_index n h s).1;
  load_roots_total : forall n s, ends (load_roots_for_block n s).1;
  save_roots_total : forall r n s, ends (save_roots_for_block r n s).1;
  save_height_total : forall b s, ends (save_height b s).1;
  store_flush_total : forall s, ends (store_flush s).1
}.

(** A store that is its own view: the reference implementation. *)
Record ViewStore := mkViewStore {
  vs_view : StoreView;
  vs_best : option BestChain
}.

Definition view_save_header `{HeaderLib} (d : DiskBlockHeader) (s : ViewStore)
  : outcome unit unit * ViewStore :=
  let v := vs_view s in
  let headers := <[dh_hash d := d]> (v_headers v) in
  match is_main d, dh_height d with
  | true, Some n =>
      (Ok tt, mkViewStore (mkStoreView headers (<[n := d]> (v_slots v)) (delete n (v_roots v)))
                (vs_best s))
  | _, _ => (Ok tt, mkViewStore (mkStoreView headers (v_slots v) (v_roots v)) (vs_best s))
  end.

#[export] Instance view_store `{HeaderLib} : ChainStore ViewStore unit := {|
  save_roots_for_block r n s :=
    let v := vs_view s in
    (Ok tt, mkViewStore (mkStoreView (v_headers v) (v_slots v) (<[n := r]> (v_roots v)))
              (vs_best s));
  load_roots_for_block n s := (Ok (v_roots (vs_view s) !! n), s);
  load_height s := Ok (vs_best s);
  save_height b s := (Ok tt, mkViewStore (vs_view s) (Some b));
  get_header h s := Ok (v_headers (vs_view s) !! h);
  store_header_by_height n s := Ok (v_slots (vs_view s) !! n);
  save_header := view_save_header;
  store_block_hash n s := Ok (option_map dh_hash (v_slots (vs_view s) !! n));
  store_flush s := (Ok tt, s);
  update_block_index _ _ s := (Ok tt, s);
  check_integrity _ := Ok tt;
  size_on_disk _ := Ok 0;
  store_warnings _ := []
|}.

#[export] Instance view_store_ok `{HeaderLib} :
  ChainStoreOk ViewStore unit (fun s v => vs_view s = v) (fun _ => True).
Proof.
  split.
  - by intros s v h <-.
  - intros s v n d <- Hd. cbn. by rewrite Hd.
  - intros s v n <- _. cbn. split; [done|]. intros r. split; congruence.
  - intros s v d n s1 s2 <- Hm Hd _ _ _ _ Hs [= <-]. cbn in Hs. unfold view_save_header in Hs.
    rewrite Hm, Hd in Hs. by injection Hs as <-.
  - intros s v d s1 <- Hm _ _ Hs. cbn in Hs. unfold view_save_header in Hs. rewrite Hm in Hs.
    by injection Hs as <-.
  - intros s v n d r s1 <- _ _ _ _ [= <-]. eexists. split; [done|]. apply lookup_insert_eq.
  - by intros s v b s1 <- [= <-].
  - by intros s v s1 <- [= <-].
Qed.

(** * Theorems *)

#[export] Instance view_store_total `{HeaderLib} : StoreTotal ViewStore unit.
Proof.
  split; try done. intros d s. cbn. unfold view_save_header.
  by destruct (is_main d), (dh_height d).
Qed.

Section CodecTheorems.
Context `{!Codec BlockHeader} (wf : BlockHeader -> Prop) `{!CodecOk BlockHeader wf}
  `{!CodecLen BlockHeader 80} `{!Codec (list hash32)}.

(** A disk header whose fields fit their encodings. *)
Definition disk_header_wf (d : DiskBlockHeader) : Prop :=
  wf (deref d) /\ match dh_height d with Some h => is_u32 h | None => True end.

(** Decoding an encoded DiskBlockHeader returns the header and the rest of the input,
    for every status, and the length the encoder reports is the number of bytes it
    writes. *)
Theorem disk_header_roundtrip (d : DiskBlockHeader) (rest : list Z) (Hd : disk_header_wf d) :
  disk_header_dec (disk_header_enc d ++ rest) = Ok (d, rest) /\
  Z.of_nat (length (disk_header_enc d)) = disk_header_enc_len d.
Proof.
  destruct Hd as [Hw Hh]. split.
  - destruct d; unfold disk_header_enc, disk_header_dec; rewrite <-!app_assoc;
      (rewrite dec_enc by (cbn; lia)); cbn [mbind outcome_bind u8_val];
      (rewrite (dec_enc (A := BlockHeader)) by exact Hw); cbn [mbind outcome_bind];
      try done; (rewrite (dec_enc (A := u32)) by exact Hh); done.
  - destruct d; cbn [disk_header_enc]; rewrite ?length_app, !enc_length; done.
Qed.

(** A DiskBlockHeader with a tag other than the six known ones is rejected by the
    decoder with the invalid-tag error. *)
Theorem disk_header_bad_tag (tag : Z) (hdr : BlockHeader) (rest : list Z)
  (Ht : 5 < tag < 256) (Hw : wf hdr) :
  disk_header_dec (enc (U8 tag) ++ enc hdr ++ rest) = Err INVALID_TAG.
Proof.
  unfold disk_header_dec. rewrite dec_enc by (cbn; lia). cbn [mbind outcome_bind u8_val].
  rewrite (dec_enc (A := BlockHeader)) by exact Hw. cbn [mbind outcome_bind].
  destruct tag as [|p|p]; try lia. do 3 (destruct p as [p|p|]; try done; try lia).
Qed.

(** Decoding an encoded BestChain returns the tip, depth, validation index and
    alternative tips, and the rest of the input. *)
Theorem best_chain_roundtrip (b : BestChain) (rest : list Z)
  (lwf : list hash32 -> Prop) `{!CodecOk (list hash32) lwf}
  (Hb : 0 <= best_block b < 256 ^ 32) (Hv : 0 <= validation_index b < 256 ^ 32)
  (Hd : is_u32 (depth b)) (Ht : lwf (map H32 (alternative_tips b))) :
  best_chain_dec (best_chain_enc b ++ rest) = Ok (b, rest).
Proof.
  unfold best_chain_dec, best_chain_enc. rewrite <-!app_assoc.
  rewrite (dec_enc (A := hash32)) by exact Hb. cbn [mbind outcome_bind].
  rewrite (dec_enc (A := u32)) by exact Hd. cbn [mbind outcome_bind].
  rewrite (dec_enc (A := hash32)) by exact Hv. cbn [mbind outcome_bind].
  rewrite (dec_enc (A := list hash32)) by exact Ht. cbn [mbind outcome_bind].
  cbn [h32_val u32_val]. rewrite map_map. cbn. rewrite map_id. by destruct b.
Qed.
End CodecTheorems.
