(* ===== verification/ChainQuery.v ===== *)
(** The chain state and its read-only methods ([ChainStateInner] and the
    methods of [ChainState] that take read locks only,
    [crates/floresta-chain/src/pruned_utreexo/chain_state.rs]).

    A method is a function of the inner state.  Loops that walk towards the
    genesis block take fuel; [ChainFacts] bounds the fuel they need. *)

From stdpp Require Import base gmap list strings.
From Stdlib Require Import ZArith Lia.
From S2P Require Import Prelude Bitcoin Errors ChainParams Codec Merkle Sigops Extensions Udata.
From S2P Require Import SwiftSync Consensus ChainStore.

(** [IBDState]. *)
Inductive IBDState :=
  | HeadersSync
  | SwiftSyncing (processed_blocks total_blocks : Z)
  | ProofSync
  | Done.

#[export] Instance IBDState_eq_dec : EqDecision IBDState.
Proof. solve_decision. Defined.

(** A [BlockConsumer]: the two channels that implement the trait, with the
    messages sent on them so far. *)
Record BlockConsumer := mkBlockConsumer {
  wants_spent_utxos : bool;
  received : list (Block * Z * option (gmap OutPoint UtxoData))
}.

(** [BlockConsumer::on_block] of the two channels. *)
Definition on_block {E} (b : Block) (height : Z) (spent : option (gmap OutPoint UtxoData))
  (k : BlockConsumer) : outcome E BlockConsumer :=
  if wants_spent_utxos k then
    spent ← expect spent;
    Ok (mkBlockConsumer true (received k ++ [(b, height, Some spent)]))
  else Ok (mkBlockConsumer false (received k ++ [(b, height, None)])).

(** [Work] addition checks the 256-bit overflow. *)
Definition work_add {E} (a b : Z) : outcome E Z :=
  if a + b <? 2 ^ 256 then Ok (a + b) else Panic.

Section ChainQuery.
Context `{HashLib, TxLib, HeaderLib, KernelLib, UtreexoLib}.
Context {S DbErr : Type} `{!ChainStore S DbErr}.

Abbreviation R := (outcome BlockchainError) (only parsing).

(** [ChainStateInner]; [consensus] holds the parameters only. *)
Record ChainStateInner := mkInner {
  acc : Stump;
  chainstore : S;
  best_chain : BestChain;
  subscribers : list BlockConsumer;
  fee_estimation : Z * Z * Z;
  ibd : IBDState;
  parameters : ChainParams;
  assume_valid : option BlockHash
}.

(** The loops' fuel. *)
Context (fuel : nat).

(** [From<T: DatabaseError> for BlockchainError], applied by [?]. *)
Definition db {A} (o : outcome DbErr A) : R A := map_err (fun _ => Database) o.

(** [From<BlockValidationErrors> for BlockchainError]. *)
Definition validation {A} (o : outcome BlockValidationErrors A) : R A := map_err BlockValidation o.

(** * Lookups *)

Definition get_disk_block_header (c : ChainStateInner) (h : BlockHash) : R DiskBlockHeader :=
  o ← db (get_header h (chainstore c)); ok_or o BlockNotPresent.

Definition get_block_header (c : ChainStateInner) (h : BlockHash) : R BlockHeader :=
  o ← db (get_header h (chainstore c));
  match o with
  | Some header => Ok (deref header)
  | None => Err BlockNotPresent
  end.

Definition get_header_by_height (c : ChainStateInner) (height : Z) : R DiskBlockHeader :=
  o ← db (store_header_by_height height (chainstore c)); ok_or o BlockNotPresent.

Definition get_block_hash (c : ChainStateInner) (height : Z) : R BlockHash :=
  o ← db (store_block_hash height (chainstore c)); ok_or o BlockNotPresent.

Definition get_block_height (c : ChainStateInner) (h : BlockHash) : R (option Z) :=
  d ← get_disk_block_header c h; Ok (dh_height d).

Definition get_best_block (c : ChainStateInner) : Z * BlockHash :=
  (depth (best_chain c), best_block (best_chain c)).

Definition get_height (c : ChainStateInner) : Z := depth (best_chain c).

Definition get_chain_tips (c : ChainStateInner) : list BlockHash :=
  best_block (best_chain c) :: alternative_tips (best_chain c).

Definition estimate_fee (c : ChainStateInner) (target : Z) : Z :=
  if target =? 1 then (fee_estimation c).1.1
  else if target =? 10 then (fee_estimation c).1.2
  else (fee_estimation c).2.

Definition is_in_ibd (c : ChainStateInner) : bool := negb (bool_decide (ibd c = Done)).

Definition get_root_hashes (c : ChainStateInner) : list NodeHash := stump_roots (acc c).

Definition is_genesis (c : ChainStateInner) (header : BlockHeader) : bool :=
  block_hash header =? blk_hash (genesis (parameters c)).

Definition get_ancestor (c : ChainStateInner) (header : BlockHeader) : R DiskBlockHeader :=
  get_disk_block_header c (prev_blockhash header).

(** [get_validation_index]: only a [FullyValid] header is accepted. *)
Definition get_validation_index (c : ChainStateInner) : R Z :=
  header ← get_disk_block_header c (validation_index (best_chain c));
  match header with
  | FullyValid _ height => Ok height
  | _ => Err BadValidationIndex
  end.

Definition is_coinbase_mature (c : ChainStateInner) (height : Z) (h : BlockHash) : R bool :=
  d ← get_disk_block_header c h;
  current_height ← try_height d;
  mature ← u32_add height (coinbase_maturity (parameters c));
  Ok (mature <=? current_height).

Definition get_assume_valid_height (c : ChainStateInner) : R (option Z) :=
  match assume_valid c with
  | None => Ok None
  | Some h =>
      o ← db (get_header h (chainstore c));
      match o with
      | Some (HeadersOnly _ height) | Some (FullyValid _ height) | Some (AssumedValid _ height) =>
          if depth (best_chain c) <? height then Ok None
          else
            idx ← db (store_block_hash height (chainstore c));
            if bool_decide (idx = Some h) then Ok (Some height) else Ok None
      | _ => Ok None
      end
  end.

Definition verify_script (c : ChainStateInner) (height : Z) : outcome DbErr bool :=
  match assume_valid c with
  | Some h =>
      o ← get_header h (chainstore c);
      match o with
      | Some (HeadersOnly _ assume_h) | Some (FullyValid _ assume_h) => Ok (assume_h <? height)
      | _ => Ok true
      end
  | None => Ok true
  end.

(** * Times and targets *)

Definition median_time_past (c : ChainStateInner) (header : BlockHeader) : R Z :=
  median_time_past_with
    (fun (_ : unit) current_header =>
       d ← get_disk_block_header c (prev_blockhash current_header); Ok (deref d, tt))
    tt header.

Definition previous_median_time_past (c : ChainStateInner) (header : BlockHeader) : R Z :=
  previous_header ← get_disk_block_header c (prev_blockhash header);
  median_time_past c (deref previous_header).

Definition get_mtp_by_height (c : ChainStateInner) (height : Z) : R Z :=
  header ← get_header_by_height c height; median_time_past c (deref header).

(** The loop of [get_ancestor_at_height]. *)
Fixpoint ancestor_loop (c : ChainStateInner) (n : nat) (header : BlockHeader) : R BlockHeader :=
  match n with
  | O => Ok header
  | Datatypes.S n' =>
      d ← get_disk_block_header c (prev_blockhash header); ancestor_loop c n' (deref d)
  end.

Definition get_ancestor_at_height (c : ChainStateInner) (header : BlockHeader)
  (header_height target_height : Z) : R BlockHeader :=
  if bool_decide (ok_opt (get_block_hash c header_height) = Some (block_hash header))
  then d ← get_header_by_height c target_height; Ok (deref d)
  else ancestor_loop c (Z.to_nat (header_height - target_height)) header.

(** The walk back to the last block not mined under the testnet rule. *)
Fixpoint min_diff_loop (c : ChainStateInner) (n : nat) (min_bits height : Z) (header : BlockHeader)
  : R BlockHeader :=
  match n with
  | O => Diverge
  | Datatypes.S n' =>
      if negb (height mod 2016 =? 0) && (hd_bits header =? min_bits) then
        d ← get_disk_block_header c (prev_blockhash header);
        height ← u32_sub height 1;
        min_diff_loop c n' min_bits height (deref d)
      else Ok header
  end.

Definition get_next_required_work (c : ChainStateInner) (last_block : BlockHeader)
  (next_height : Z) (next_header : BlockHeader) : R Z :=
  let p := params (parameters c) in
  if negb (next_height mod 2016 =? 0) then
    if negb (allow_min_difficulty_blocks p) then Ok (header_target last_block)
    else
      spacing ← u64_mul (pow_target_spacing p) 2;
      limit ← u64_add (hd_time last_block) spacing;
      if limit <? hd_time next_header then Ok (max_attainable_target p)
      else
        let min_difficulty_bits := to_compact_lossy (max_attainable_target p) in
        height ← u32_sub next_height 1;
        header ← min_diff_loop c 2016 min_difficulty_bits height last_block;
        Ok (header_target header)
  else if negb (no_pow_retargeting p) then
    prev ← u32_sub next_height 1;
    first ← u32_sub next_height DIFFCHANGE_INTERVAL;
    first_block ← get_ancestor_at_height c last_block prev first;
    let target := calc_next_work_required last_block first_block (parameters c) in
    if target <? max_attainable_target p then Ok target else Ok (max_attainable_target p)
  else Ok (header_target last_block).

(** A [height % window] with a zero window panics. *)
Definition check_bip94_block (c : ChainStateInner) (b : BlockHeader) (height : Z) : R unit :=
  let window := miner_confirmation_window (params (parameters c)) in
  if negb (enforce_bip94 (parameters c)) then Ok tt
  else if window =? 0 then Panic
  else if negb (height mod window =? 0) then Ok tt
  else
    prev_header ← get_disk_block_header c (prev_blockhash b);
    validation (check_bip94_time b (deref prev_header)).

(** [validate_header]. *)
Definition validate_header (c : ChainStateInner) (header : BlockHeader) : R BlockHash :=
  h ← ok_or (validate_pow header (header_target header)) (BlockValidation NotEnoughPow);
  prev_block ← get_disk_block_header c (prev_blockhash header);
  prev_height ← ok_or (dh_height prev_block) (BlockValidation BlockExtendsAnOrphanChain);
  height ← u32_add prev_height 1;
  expected_target ← get_next_required_work c (deref prev_block) height header;
  _ ← err_if (negb (hd_bits header =? to_compact_lossy expected_target))
        (BlockValidation BadDiffBits);
  _ ← check_bip94_block c header height;
  let min_version := min_header_version (params (parameters c)) height in
  _ ← err_if (hd_version header <? min_version) (BlockValidation BadVersion);
  Ok h.

(** * Work *)

(** The epochs of [get_branch_work]: [(0..=block_height).step_by(2016)]. *)
Definition epoch_starts (block_height : Z) : list Z :=
  map (Z.mul 2016) (seqZ 0 (block_height / 2016 + 1)).

Fixpoint branch_work_loop (c : ChainStateInner) (block_height : Z) (starts : list Z) (total : Z)
  : R Z :=
  match starts with
  | [] => Ok total
  | epoch_start_height :: rest =>
      last ← u32_add epoch_start_height 2015;
      let epoch_end_height := Z.min last block_height in
      let blocks_in_epoch := epoch_end_height - epoch_start_height + 1 in
      h ← get_block_hash c epoch_start_height;
      header ← get_block_header c h;
      epoch_chainwork ←
        map_err (fun _ => OperationOverflow)
          (multiply_work_by_u32 (header_work header) blocks_in_epoch);
      total ← work_add total epoch_chainwork;
      branch_work_loop c block_height rest total
  end.

Definition get_branch_work (c : ChainStateInner) (header : BlockHeader) : R Z :=
  o ← get_block_height c (block_hash header);
  block_height ← ok_or o BlockNotPresent;
  branch_work_loop c block_height (epoch_starts block_height) 0.

Definition get_work (c : ChainStateInner) (tip : BlockHash) : R Z :=
  header ← get_block_header c tip; get_branch_work c header.

(** [get_fork_work]. *)
Fixpoint fork_work_loop (c : ChainStateInner) (n : nat) (fork_point : BlockHash)
  (header : BlockHeader) (work : Z) : R Z :=
  match n with
  | O => Diverge
  | Datatypes.S n' =>
      if block_hash header =? fork_point then Ok work
      else
        work ← work_add work (header_work header);
        d ← get_ancestor c header;
        fork_work_loop c n' fork_point (deref d) work
  end.

Definition get_fork_work (c : ChainStateInner) (new_tip : BlockHeader) (fork_point : BlockHash)
  : R Z :=
  work ← get_work c fork_point;
  fork_work_loop c fuel fork_point new_tip work.

(** * Branches *)

(** [check_branch]. *)
Fixpoint check_branch_loop (c : ChainStateInner) (n : nat) (header : BlockHeader) : R unit :=
  match n with
  | O => Diverge
  | Datatypes.S n' =>
      if is_genesis c header then Ok tt
      else
        d ← get_ancestor c header;
        match d with
        | Orphan b => Err (InvalidTip (OrphanAncestor (block_hash b)))
        | _ => check_branch_loop c n' (deref d)
        end
  end.
Definition check_branch (c : ChainStateInner) (branch_tip : BlockHeader) : R unit :=
  check_branch_loop c fuel branch_tip.

(** [get_chain_depth]; the counter is a [u32]. *)
Fixpoint chain_depth_loop (c : ChainStateInner) (n : nat) (header : BlockHeader) (counter : Z)
  : R Z :=
  match n with
  | O => Diverge
  | Datatypes.S n' =>
      if is_genesis c header then Ok counter
      else
        d ← get_ancestor c header;
        counter ← u32_add counter 1;
        chain_depth_loop c n' (deref d) counter
  end.
Definition get_chain_depth (c : ChainStateInner) (branch_tip : BlockHeader) : R Z :=
  chain_depth_loop c fuel branch_tip 0.

(** [find_fork_point]. *)
Fixpoint fork_point_loop (c : ChainStateInner) (n : nat) (header : BlockHeader) : R BlockHeader :=
  match n with
  | O => Diverge
  | Datatypes.S n' =>
      if is_genesis c header then Err (InvalidTip NoForkPoint)
      else
        o ← db (get_header (block_hash header) (chainstore c));
        match o with
        | Some (HeadersOnly b _) => Ok b
        | Some (FullyValid b _) => Ok b
        | Some (InFork b _) => d ← get_ancestor c b; fork_point_loop c n' (deref d)
        | Some (AssumedValid b _) => Ok b
        | Some (Orphan b) => Err (InvalidTip (OrphanAncestor (block_hash b)))
        | Some (InvalidChain b) => Err (InvalidTip (BlockIsInvalid (block_hash b)))
        | None => Err (InvalidTip (NotInStorage (block_hash header)))
        end
  end.
Definition find_fork_point (c : ChainStateInner) (header : BlockHeader) : R BlockHeader :=
  d ← get_ancestor c header; fork_point_loop c fuel (deref d).

Definition get_fork_point (c : ChainStateInner) (b : BlockHash) : R BlockHash :=
  header ← get_block_header c b;
  fork_point ← find_fork_point c header;
  Ok (block_hash fork_point).

(** [get_last_valid_block]. *)
Fixpoint last_valid_loop (c : ChainStateInner) (n : nat) (header : BlockHeader) : R BlockHash :=
  match n with
  | O => Diverge
  | Datatypes.S n' =>
      if is_genesis c header then Ok (block_hash header)
      else
        d ← get_ancestor c header;
        match d with
        | FullyValid _ _ | AssumedValid _ _ => Ok (dh_hash d)
        | Orphan _ => Err (InvalidTip (OrphanAncestor (dh_hash d)))
        | HeadersOnly _ _ | InFork _ _ => last_valid_loop c n' (deref d)
        | InvalidChain _ => Err (InvalidTip (InAnInvalidChain (dh_hash d)))
        end
  end.
Definition get_last_valid_block (c : ChainStateInner) (header : BlockHeader) : R BlockHash :=
  last_valid_loop c fuel header.

(** * Locators *)

(** The doubling of the step after ten entries. *)
Definition next_step {E} (len : nat) (step : Z) : outcome E Z :=
  if (10 <=? len)%nat then u32_mul step 2 else Ok step.

(** The heights of [get_block_locator]; the index falls in every iteration,
    so its start value bounds the number of iterations. *)
Fixpoint locator_loop (n : nat) (index step : Z) (indexes : list Z) : R (list Z) :=
  match n with
  | O => Ok indexes
  | Datatypes.S n' =>
      if 0 <? index then
        step ← next_step (length indexes) step;
        let indexes := indexes ++ [index] in
        if step <? index then locator_loop n' (index - step) step indexes else Ok indexes
      else Ok indexes
  end.

Definition locator_heights (top_height : Z) : R (list Z) :=
  indexes ← locator_loop (Z.to_nat top_height) top_height 1 []; Ok (indexes ++ [0]).

(** [get_block_locator]; [flat_map] over results drops the errors. *)
Definition get_block_locator (c : ChainStateInner) : R (list BlockHash) :=
  indexes ← locator_heights (get_height c);
  Ok (list_omap _ _ (fun idx => ok_opt (get_block_hash c idx)) indexes).

(** The inner loop of [get_block_locator_for_tip]. *)
Fixpoint walk_back (c : ChainStateInner) (n : nat) (d : DiskBlockHeader) : R DiskBlockHeader :=
  match n with
  | O => Ok d
  | Datatypes.S n' => d ← get_ancestor c (deref d); walk_back c n' d
  end.

Fixpoint tip_locator_loop (c : ChainStateInner) (n : nat) (index current_height step : Z)
  (current_header : DiskBlockHeader) (hashes : list BlockHash) : R (list BlockHash) :=
  match n with
  | O => Ok hashes
  | Datatypes.S n' =>
      if 0 <? index then
        current_header ← walk_back c (Z.to_nat (current_height - index)) current_header;
        let current_height := Z.min current_height index in
        step ← next_step (length hashes) step;
        let hashes := hashes ++ [dh_hash current_header] in
        if step <? index
        then tip_locator_loop c n' (index - step) current_height step current_header hashes
        else Ok hashes
      else Ok hashes
  end.

(** [get_block_locator_for_tip]. *)
Definition get_block_locator_for_tip (c : ChainStateInner) (tip : BlockHash) : R (list BlockHash) :=
  d ← get_disk_block_header c tip;
  height ← try_height d;
  current_header ← get_disk_block_header c tip;
  hashes ← tip_locator_loop c (Z.to_nat height) height height 1 current_header [];
  g ← get_block_hash c 0;
  Ok (hashes ++ [g]).

(** * Recovery *)

(** The loop of [find_best_chain]; a height that does not match its slot
    fails an assertion. *)
Fixpoint best_chain_loop (c : ChainStateInner) (n : nat) (best : BlockHash) (d : Z)
  (vi : BlockHash) (next_height : Z) : outcome BlockchainError BestChain :=
  match n with
  | O => Diverge
  | Datatypes.S n' =>
      let done := Ok (mkBestChain best d vi []) in
      match store_block_hash next_height (chainstore c) with
      | Ok (Some h) =>
          match get_disk_block_header c h with
          | Ok (FullyValid _ height) =>
              if height =? next_height then
                next ← u32_add next_height 1; best_chain_loop c n' h next_height h next
              else Panic
          | Ok (HeadersOnly _ height) | Ok (AssumedValid _ height) =>
              if height =? next_height then
                next ← u32_add next_height 1; best_chain_loop c n' h next_height vi next
              else Panic
          | Panic => Panic
          | Diverge => Diverge
          | _ => done
          end
      | Panic => Panic
      | Diverge => Diverge
      | _ => done
      end
  end.

(** [find_best_chain]. *)
Definition find_best_chain (c : ChainStateInner) : R BestChain :=
  match store_block_hash 0 (chainstore c) with
  | Ok (Some g) => best_chain_loop c fuel g 0 g 1
  | _ => Panic
  end.

(** [deserialize_accumulator]. *)
Definition deserialize (bytes : list Z) : R Stump :=
  match stump_deserialize bytes with
  | inl e => Err (AccumulatorError e)
  | inr a => Ok a
  end.
Definition deserialize_accumulator (o : option (list Z)) : R Stump :=
  match o with
  | Some bytes => deserialize bytes
  | None => Ok stump_new
  end.

(** * Block validation *)

(** [validate_block_no_acc]. *)
Definition validate_block_no_acc (c : ChainStateInner) (b : Block) (height : Z)
  (inputs : gmap OutPoint UtxoData) : R unit :=
  let p := parameters c in
  _ ← check_block p b height;
  let subsidy := get_subsidy p height in
  cutoff ← block_lock_time_cutoff p height (blk_header b)
             (fun _ => previous_median_time_past c (blk_header b));
  let flags := block_flags p height (blk_hash b) in
  vs ← db (verify_script c height);
  verify_block_transactions height cutoff inputs (txdata b) subsidy vs flags.

(** [BlockchainInterface::validate_block]. *)
Definition validate_block (c : ChainStateInner) (b : Block) (proof : Proof_)
  (inputs : gmap OutPoint UtxoData) (del_hashes : list Z) (a : Stump) : R unit :=
  match stump_verify a proof (map SomeHash del_hashes) with
  | inl e => Err (AccumulatorError e)
  | inr false => Err (BlockValidation InvalidUtreexoProof)
  | inr true =>
      d ← get_disk_block_header c (blk_hash b);
      height ← try_height d;
      validate_block_no_acc c b height inputs
  end.
End ChainQuery.

Arguments ChainStateInner {_} S.
