(* ===== verification/PartialChain.v ===== *)
(** Partial chains, used to sync intervals of the chain in parallel
    ([crates/floresta-chain/src/pruned_utreexo/partial_chain.rs]), what a run of
    [process_block] over an interval of blocks computes, and which validation
    errors do not stop it.

    The methods the source leaves [unimplemented!()] always panic and are not
    repeated here; the ones below are all the others. *)

From stdpp Require Import base gmap list strings.
From Stdlib Require Import ZArith Lia.
From S2P Require Import Prelude Bitcoin Errors ChainParams Codec Merkle Sigops Extensions Udata SwiftSync Consensus.

Section PartialChain.
Context `{HashLib, TxLib, HeaderLib, KernelLib, UtreexoLib}.
Context `{!Codec TxOut}.

Abbreviation R := (outcome BlockchainError) (only parsing).

Record PartialChainStateInner := mkPartial {
  current_acc : Stump;
  blocks : list BlockHeader;
  current_height : Z;
  final_height : Z;
  error : option BlockValidationErrors;
  p_parameters : ChainParams;
  p_assume_valid : bool
}.

Definition is_sync (p : PartialChainStateInner) : bool := current_height p =? final_height p.

Definition p_get_block (p : PartialChainStateInner) (height : Z) : option BlockHeader :=
  if wrap32 (Z.of_nat (length (blocks p))) <=? height then None
  else blocks p !! Z.to_nat height.

Definition update_state (height : Z) (a : Stump) (p : PartialChainStateInner)
  : PartialChainStateInner :=
  mkPartial a (blocks p) height (final_height p) (error p) (p_parameters p) (p_assume_valid p).

Definition set_error (e : BlockValidationErrors) (p : PartialChainStateInner)
  : PartialChainStateInner :=
  mkPartial (current_acc p) (blocks p) (current_height p) (final_height p) (Some e)
    (p_parameters p) (p_assume_valid p).

Definition p_get_ancestor (p : PartialChainStateInner) (height : Z) : R BlockHeader :=
  prev ← u32_sub height 1; ok_or (p_get_block p prev) BlockNotPresent.

(** [median_time_past]; the closure counts the height down. *)
Definition p_median_time_past (p : PartialChainStateInner) (height : Z) : R Z :=
  header ← ok_or (p_get_block p height) BlockNotPresent;
  median_time_past_with
    (fun current_height _ =>
       current_height ← u32_sub current_height 1;
       prev ← ok_or (p_get_block p current_height) BlockNotPresent;
       Ok (prev, current_height))
    height header.

Definition p_previous_median_time_past (p : PartialChainStateInner) (height : Z) : R Z :=
  p_median_time_past p (saturating_sub height 1).

Definition p_validate_block (p : PartialChainStateInner) (b : Block) (height : Z)
  (inputs : gmap OutPoint UtxoData) : R unit :=
  _ ← check_block (p_parameters p) b height;
  prev_block ← p_get_ancestor p height;
  _ ← err_if (negb (prev_blockhash (blk_header b) =? block_hash prev_block))
        (BlockValidation BlockExtendsAnOrphanChain);
  let subsidy := get_subsidy (p_parameters p) height in
  cutoff ← block_lock_time_cutoff (p_parameters p) height (blk_header b)
             (fun _ => p_previous_median_time_past p height);
  let verify_script := p_assume_valid p in
  let flags := block_flags (p_parameters p) height (blk_hash b) in
  verify_block_transactions height cutoff inputs (txdata b) subsidy verify_script flags.

(** Errors that may describe a mutated payload do not poison the chain. *)
Definition poisons (e : BlockValidationErrors) : bool :=
  match e with BadMerkleRoot | BadWitnessCommitment => false | _ => true end.

(** The part of [process_block] after validation. *)
Definition p_update_acc (b : Block) (height : Z) (proof : Proof_) (del_hashes : list Z)
  : stm PartialChainStateInner BlockchainError Z := fun p =>
  match update_acc (current_acc p) b height proof del_hashes with
  | Ok a => (Ok height, update_state height a p)
  | Err _ => (Err InvalidUtreexoProofErr, set_error InvalidUtreexoProof p)
  | Panic => (Panic, p)
  | Diverge => (Diverge, p)
  end.

(** [process_block] and [UpdatableChainstate::connect_block]: the [if let]
    returns on a [BlockValidation] error only. *)
Definition process_block (b : Block) (proof : Proof_) (inputs : gmap OutPoint UtxoData)
  (del_hashes : list Z) : stm PartialChainStateInner BlockchainError Z := fun p =>
  match u32_add (current_height p) 1 with
  | Ok height =>
      match p_validate_block p b height inputs with
      | Err (BlockValidation e) =>
          (Err (BlockValidation e), if poisons e then set_error e p else p)
      | Panic => (Panic, p)
      | Diverge => (Diverge, p)
      | _ => p_update_acc b height proof del_hashes p
      end
  | Err e => (Err e, p)
  | Panic => (Panic, p)
  | Diverge => (Diverge, p)
  end.

(** * The rest of the two traits *)

Definition list_blocks (p : PartialChainStateInner) : list BlockHeader := blocks p.
Definition list_valid_blocks (p : PartialChainStateInner) : list BlockHeader :=
  take (Z.to_nat (current_height p)) (blocks p).
Definition has_invalid_blocks (p : PartialChainStateInner) : bool :=
  match error p with Some _ => true | None => false end.
Definition p_get_root_hashes (p : PartialChainStateInner) : list NodeHash :=
  stump_roots (current_acc p).
Definition p_get_block_hash (p : PartialChainStateInner) (height : Z) : R BlockHash :=
  ok_or (block_hash <$> blocks p !! Z.to_nat height) BlockNotPresent.
Definition p_get_best_block (p : PartialChainStateInner) : R (Z * BlockHash) :=
  h ← p_get_block_hash p (final_height p); Ok (final_height p, h).
Definition p_is_coinbase_mature (p : PartialChainStateInner) (height : Z) (_ : BlockHash) : R bool :=
  mature ← u32_add height (coinbase_maturity (p_parameters p));
  Ok (current_height p <? mature).
Definition p_is_in_ibd (p : PartialChainStateInner) : bool := negb (is_sync p).

(** The loop of [get_block_locator]. *)
Fixpoint p_locator_loop (p : PartialChainStateInner) (n : nat) (height step : Z)
  (hashes : list BlockHash) : R (list BlockHash) :=
  match n with
  | O => Ok hashes
  | S n' =>
      if 0 <? height then
        h ← p_get_block_hash p height;
        let hashes := hashes ++ [h] in
        step ← (if (10 <? length hashes)%nat then u32_mul step 2 else Ok step);
        p_locator_loop p n' (saturating_sub height step) step hashes
      else Ok hashes
  end.
Definition p_get_block_locator (p : PartialChainStateInner) : R (list BlockHash) :=
  p_locator_loop p (Z.to_nat (current_height p)) (current_height p) 1 [].
End PartialChain.

Section PartialFacts.
Context `{HashLib, TxLib, HeaderLib, KernelLib, UtreexoLib}.
Context `{!Codec TxOut}.
Implicit Types p : PartialChainStateInner.

(** A block with what a utreexo node sends beside it. *)
Record BlockInput := mkBlockInput {
  bi_block : Block;
  bi_proof : Proof_;
  bi_inputs : gmap OutPoint UtxoData;
  bi_dels : list Z
}.

Definition process_block_input (i : BlockInput) : stm PartialChainStateInner BlockchainError Z :=
  process_block (bi_block i) (bi_proof i) (bi_inputs i) (bi_dels i).

(** Driving a partial chain over its blocks, up to the first error. *)
Fixpoint process_all (l : list BlockInput) : stm PartialChainStateInner BlockchainError unit :=
  match l with
  | [] => mret tt
  | i :: l' => _ ← process_block_input i; process_all l'
  end.

(** The accumulators after the blocks from height [h] on. *)
Fixpoint fold_acc (a : Stump) (h : Z) (l : list BlockInput) : outcome BlockchainError Stump :=
  match l with
  | [] => Ok a
  | i :: l' =>
      a' ← update_acc a (bi_block i) h (bi_proof i) (bi_dels i); fold_acc a' (h + 1) l'
  end.

(** The validation results [process_block] goes on with. *)
Definition not_rejected (o : outcome BlockchainError unit) : Prop :=
  match o with
  | Ok _ => True
  | Err (BlockValidation _) => False
  | Err _ => True
  | Panic | Diverge => False
  end.

(** Validation does not depend on the progress of the chain. *)
Lemma validate_update_state h a p b n inputs :
  p_validate_block (update_state h a p) b n inputs = p_validate_block p b n inputs.
Proof. reflexivity. Qed.

Lemma process_block_input_ok i p n p' :
  process_block_input i p = (Ok n, p') ->
  n = current_height p + 1 /\ n <= u32_max /\
  not_rejected (p_validate_block p (bi_block i) n (bi_inputs i)) /\
  exists a, update_acc (current_acc p) (bi_block i) n (bi_proof i) (bi_dels i) = Ok a /\
    p' = update_state n a p.
Proof.
  unfold process_block_input, process_block, u32_add.
  destruct (Z.leb_spec (current_height p + 1) u32_max) as [Hle|]; [|done].
  unfold not_rejected, p_update_acc. intros Hx.
  destruct (p_validate_block p _ _ _) as [u|[]| |] eqn:Ev; try done;
    destruct (update_acc _ _ _ _ _) as [a|e'| |] eqn:Ea; try done;
    injection Hx as <- <-; rewrite Ev; (split_and!; [done|done|done|by exists a]).
Qed.

Lemma process_all_ok l : forall p p', process_all l p = (Ok tt, p') ->
  exists a, fold_acc (current_acc p) (current_height p + 1) l = Ok a /\
    p' = update_state (current_height p + Z.of_nat (length l)) a p /\
    forall k i, l !! k = Some i ->
      not_rejected (p_validate_block p (bi_block i) (current_height p + 1 + Z.of_nat k) (bi_inputs i)).
Proof.
  induction l as [|i l IH]; intros p p' Hl.
  { injection Hl as <-. exists (current_acc p). split_and!; [done| |done].
    rewrite Z.add_0_r. by destruct p. }
  cbn [process_all] in Hl. apply stm_bind_ok in Hl as (n & p1 & Hp & Hl).
  apply process_block_input_ok in Hp as (-> & _ & Hv & a & Ha & ->).
  apply IH in Hl as (a' & Hf & -> & Hall). exists a'. cbn in Hf. split_and!.
  - cbn. by rewrite Ha.
  - unfold update_state. cbn. f_equal. lia.
  - intros [|k] j Hj; cbn in Hj.
    + injection Hj as <-. by rewrite Z.add_0_r.
    + specialize (Hall k j Hj). rewrite validate_update_state in Hall. cbn in Hall.
      by replace (current_height p + 1 + Z.of_nat (S k)) with (current_height p + 1 + 1 + Z.of_nat k)
        by lia.
Qed.

(** A validated block extends the header below it. *)
Lemma validated_links p b n inputs :
  0 < n -> p_validate_block p b n inputs = Ok tt ->
  exists hd, blocks p !! Z.to_nat (n - 1) = Some hd /\ prev_blockhash (blk_header b) = block_hash hd.
Proof.
  intros Hn Hv. unfold p_validate_block in Hv. apply obind_ok in Hv as (ids & _ & Hv).
  apply obind_ok in Hv as (hd & Hh & Hv). apply obind_ok in Hv as ([] & Hp & _).
  apply err_if_ok in Hp. zbool. unfold p_get_ancestor in Hh.
  apply obind_ok in Hh as (m & Hm & Hh). apply u32_sub_ok in Hm as [-> _]. apply ok_or_ok in Hh.
  unfold p_get_block in Hh. destruct (_ <=? _); [done|]. by exists hd.
Qed.

(** C31: A partial chain that processes a list of blocks without an error advances by
    one height per block, folds the accumulator over the blocks in order, keeps its
    headers, and none of the blocks failed with a block validation error; a block that
    passed validation extends the header below it. *)
Theorem partial_sync_correct (l : list BlockInput) p p' (Hh : 0 <= current_height p)
  (Hl : process_all l p = (Ok tt, p')) :
  current_height p' = current_height p + Z.of_nat (length l) /\
  fold_acc (current_acc p) (current_height p + 1) l = Ok (current_acc p') /\
  blocks p' = blocks p /\ final_height p' = final_height p /\ error p' = error p /\
  forall k i, l !! k = Some i ->
    let n := current_height p + 1 + Z.of_nat k in
    not_rejected (p_validate_block p (bi_block i) n (bi_inputs i)) /\
    (p_validate_block p (bi_block i) n (bi_inputs i) = Ok tt ->
     exists hd, blocks p !! Z.to_nat (n - 1) = Some hd /\
       prev_blockhash (blk_header (bi_block i)) = block_hash hd).
Proof.
  apply process_all_ok in Hl as (a & Hf & -> & Hall). split_and!; try done.
  intros k i Hi n. split; [by apply Hall|]. apply validated_links. lia.
Qed.

(** When process_block fails, height, accumulator and headers of the partial chain are
    unchanged, and the chain is marked invalid exactly for block validation errors other
    than a bad Merkle root or a bad witness commitment, which may come from a malleated
    block. *)
Theorem process_block_error i p e p' (Hx : process_block_input i p = (Err e, p')) :
  current_height p' = current_height p /\ current_acc p' = current_acc p /\ blocks p' = blocks p /\
  match e with
  | BlockValidation BadMerkleRoot | BlockValidation BadWitnessCommitment => error p' = error p
  | BlockValidation v => error p' = Some v
  | _ => e = InvalidUtreexoProofErr /\ error p' = Some InvalidUtreexoProof
  end.
Proof.
  unfold process_block_input, process_block, u32_add, p_update_acc in Hx.
  destruct (_ <=? _); [|done].
  destruct (p_validate_block p _ _ _) as [u|[]| |] eqn:Ev; try done;
    try (destruct (update_acc _ _ _ _ _); try done; by injection Hx as <- <-).
  injection Hx as <- <-. by destruct e0.
Qed.

(** A block whose validation fails with a transaction error, for instance an input that
    does not exist or an invalid script, is still accepted by the partial chain when its
    proof updates the accumulator: process_block returns Ok, advances, and the chain is
    not marked invalid. *)
Theorem partial_chain_accepts_invalid_transaction i p e a
  (Hv : p_validate_block p (bi_block i) (current_height p + 1) (bi_inputs i)
        = Err (TransactionErr e))
  (Hh : current_height p + 1 <= u32_max)
  (Ha : update_acc (current_acc p) (bi_block i) (current_height p + 1) (bi_proof i) (bi_dels i) = Ok a) :
  process_block_input i p = (Ok (current_height p + 1), update_state (current_height p + 1) a p) /\
  has_invalid_blocks (update_state (current_height p + 1) a p) = has_invalid_blocks p.
Proof.
  unfold process_block_input, process_block, u32_add, p_update_acc.
  rewrite (proj2 (Z.leb_le _ _)), Hv, Ha by lia. done.
Qed.
End PartialFacts.
