(* ===== verification/ChainState.v ===== *)
(** The methods of [ChainState] that change the state
    ([crates/floresta-chain/src/pruned_utreexo/chain_state.rs] and
    [chain_state_builder.rs]): accepting headers, reorganisations, connecting
    blocks, recovery and construction.

    A method is a computation of [stm] over [ChainStateInner]; the locks
    serialise the methods and are not modelled. *)

From stdpp Require Import base gmap list strings.
From Stdlib Require Import ZArith Lia.
From S2P Require Import Prelude Bitcoin Errors ChainParams Codec Merkle Sigops Extensions Udata.
From S2P Require Import SwiftSync Consensus ChainStore ChainQuery PartialChain.

Section ChainState.
Context `{HashLib, TxLib, HeaderLib, KernelLib, UtreexoLib}.
Context `{!Codec TxOut}.
Context {S DbErr : Type} `{!ChainStore S DbErr}.
Context (fuel : nat).

Abbreviation Inner := (ChainStateInner S) (only parsing).
Abbreviation M := (stm (ChainStateInner S) BlockchainError) (only parsing).

(** * Field updates *)

Definition set_store (s : S) (c : Inner) : Inner :=
  mkInner (acc c) s (best_chain c) (subscribers c) (fee_estimation c) (ibd c) (parameters c)
    (assume_valid c).
Definition set_best (b : BestChain) (c : Inner) : Inner :=
  mkInner (acc c) (chainstore c) b (subscribers c) (fee_estimation c) (ibd c) (parameters c)
    (assume_valid c).
Definition set_acc (a : Stump) (c : Inner) : Inner :=
  mkInner a (chainstore c) (best_chain c) (subscribers c) (fee_estimation c) (ibd c)
    (parameters c) (assume_valid c).
Definition set_subscribers (l : list BlockConsumer) (c : Inner) : Inner :=
  mkInner (acc c) (chainstore c) (best_chain c) l (fee_estimation c) (ibd c) (parameters c)
    (assume_valid c).
Definition set_ibd (i : IBDState) (c : Inner) : Inner :=
  mkInner (acc c) (chainstore c) (best_chain c) (subscribers c) (fee_estimation c) i
    (parameters c) (assume_valid c).

(** A method of the store, its error converted by [?]. *)
Definition store {A} (m : S -> outcome DbErr A * S) : M A := fun c =>
  let '(o, s) := m (chainstore c) in (db o, set_store s c).

(** * Headers *)

Definition update_header (d : DiskBlockHeader) : M unit := store (save_header d).

Definition update_header_and_index (d : DiskBlockHeader) (h : BlockHash) (height : Z) : M unit :=
  _ ← store (save_header d); store (update_block_index height h).

(** [push_headers]: [offset as u32] and a plain addition. *)
Fixpoint push_headers_loop (headers : list BlockHeader) (height offset : Z) : M unit :=
  match headers with
  | [] => mret tt
  | header :: rest =>
      disk_height ← lift (u32_add height (wrap32 offset));
      let disk_header := FullyValid header disk_height in
      _ ← update_header_and_index disk_header (dh_hash disk_header) disk_height;
      push_headers_loop rest height (offset + 1)
  end.
Definition push_headers (headers : list BlockHeader) (height : Z) : M unit :=
  push_headers_loop headers height 0.

(** [get_roots_for_block]. *)
Definition get_roots_for_block (height : Z) : M (option Stump) :=
  o ← store (load_roots_for_block height);
  match o with
  | None => mret None
  | Some bytes => a ← lift (deserialize bytes); mret (Some a)
  end.

(** * Recovery *)

(** The search of [reindex_chain] for the last accumulator. *)
Fixpoint find_acc (heights : list Z) : M (option (Z * Stump)) :=
  match heights with
  | [] => mret None
  | h :: rest =>
      o ← get_roots_for_block h;
      match o with
      | Some a => mret (Some (h, a))
      | None => find_acc rest
      end
  end.

(** The roll-back of [reindex_chain]. *)
Fixpoint roll_back (heights : list Z) : M unit :=
  match heights with
  | [] => mret tt
  | height :: rest =>
      header ← gets (fun c => get_header_by_height c height);
      _ ← update_header (HeadersOnly (deref header) height);
      roll_back rest
  end.

(** [reindex_chain]. *)
Definition reindex_chain : M unit :=
  best ← gets (find_best_chain fuel);
  o ← gets (fun c => get_block_height c (validation_index best));
  let validation_index_height := default 0 o in
  found ← find_acc (rev (seqZ 1 validation_index_height));
  match found with
  | Some (last_acc_height, a) =>
      _ ← roll_back (seqZ (last_acc_height + 1) (validation_index_height - last_acc_height));
      last_acc_header ← gets (fun c => get_header_by_height c last_acc_height);
      _ ← modify (set_acc a);
      modify (set_best (bc_valid_block (dh_hash last_acc_header) best))
  | None => modify (set_best best)
  end.

(** [maybe_reindex]. *)
Definition maybe_reindex (potential_tip : DiskBlockHeader) : M unit :=
  match potential_tip with
  | HeadersOnly _ height =>
      best_height ← gets (fun c => Ok (get_best_block c).1);
      if best_height <? height then reindex_chain else mret tt
  | _ => mret tt
  end.

(** [check_db_integrity]. *)
Definition check_db_integrity : M unit :=
  res ← gets (fun c =>
    match check_integrity (chainstore c) with
    | Ok _ => Ok true
    | Err _ => Ok false
    | Panic => Panic
    | Diverge => Diverge
    end);
  if (res : bool) then mret tt else reindex_chain.

Definition is_fully_valid (d : DiskBlockHeader) : bool :=
  match d with FullyValid _ _ => true | _ => false end.

(** [check_chain_integrity]. *)
Definition check_chain_integrity : M unit :=
  _ ← check_db_integrity;
  '(best_height, best_hash) ← gets (fun c => Ok (get_best_block c));
  d ← gets (fun c => get_disk_block_header c best_hash);
  best_disk_height ← lift (try_height d);
  if negb (best_height =? best_disk_height) then reindex_chain
  else
    vi ← gets (fun c =>
      match get_validation_index c with
      | Ok idx => Ok (Some idx)
      | Err _ => Ok None
      | Panic => Panic
      | Diverge => Diverge
      end);
    match vi with
    | None => reindex_chain
    | Some vi =>
        last_valid_block ← gets (fun c => get_block_hash c vi);
        last_valid_header ← gets (fun c => get_disk_block_header c last_valid_block);
        if negb (is_fully_valid last_valid_header) then reindex_chain
        else
          next_height ← lift (u32_add vi 1);
          if best_height <? next_height then mret tt
          else
            next_block_hash ← gets (fun c => get_block_hash c next_height);
            next_header ← gets (fun c => get_disk_block_header c next_block_hash);
            if is_fully_valid next_header then reindex_chain else mret tt
    end.

(** * Construction *)

Definition initial_inner (a : Stump) (s : S) (best : BestChain) (net : Network)
  (arg : AssumeValidArg) : Inner :=
  mkInner a s best [] (1, 1, 1) HeadersSync (chain_params_from net) (get_assume_valid net arg).

(** [ChainState::new]: a failing store panics. *)
Definition new_chain_state (s : S) (net : Network) (arg : AssumeValidArg)
  : outcome BlockchainError Inner :=
  let g := genesis_block net in
  match save_header (FullyValid (blk_header g) 0) s with
  | (Ok _, s) =>
      match update_block_index 0 (blk_hash g) s with
      | (Ok _, s) =>
          Ok (initial_inner stump_new s (mkBestChain (blk_hash g) 0 (blk_hash g) []) net arg)
      | _ => Panic
      end
  | _ => Panic
  end.

(** [load_chain_state]. *)
Definition load_chain_state (s : S) (net : Network) (arg : AssumeValidArg)
  : outcome BlockchainError Inner :=
  o ← db (load_height s);
  best ← ok_or o ChainNotInitialized;
  o ← db (get_header (validation_index best) s);
  d ← ok_or o BlockNotPresent;
  validation_index_height ← try_height d;
  let '(loaded, s) := load_roots_for_block validation_index_height s in
  loaded_acc ← db loaded;
  a ← deserialize_accumulator loaded_acc;
  let '(o, c) := check_chain_integrity (initial_inner a s best net arg) in
  _ ← o; Ok c.

(** [ChainState::open]. *)
Definition open (s : S) (net : Network) (arg : AssumeValidArg) : outcome BlockchainError Inner :=
  o ← db (load_height s);
  match o with
  | Some _ => load_chain_state s net arg
  | None => new_chain_state s net arg
  end.

(** * Reorganisations *)

(** [reorg_acc]. *)
Definition reorg_acc (vi : BlockHash) : M Stump :=
  o ← gets (fun c => get_block_height c vi);
  height ← lift (ok_or o BlockNotPresent);
  if height =? 0 then mret stump_new
  else
    o ← get_roots_for_block height;
    lift (ok_or o BadValidationIndex).

(** [mark_chain_as_active]. *)
Fixpoint mark_active_loop (n : nat) (fork_point : BlockHash) (header : DiskBlockHeader) (height : Z)
  : M unit :=
  match n with
  | O => lift Diverge
  | Datatypes.S n' =>
      g ← gets (fun c => Ok (is_genesis c (deref header)));
      if negb g && negb (dh_hash header =? fork_point) then
        let disk_header := HeadersOnly (deref header) height in
        _ ← update_header_and_index disk_header (dh_hash disk_header) height;
        header ← gets (fun c => get_ancestor c (deref header));
        height ← lift (u32_sub height 1);
        mark_active_loop n' fork_point header height
      else mret tt
  end.
Definition mark_chain_as_active (new_tip : BlockHeader) (fork_point : BlockHash) : M unit :=
  height ← gets (fun c => get_chain_depth fuel c new_tip);
  mark_active_loop fuel fork_point (HeadersOnly new_tip height) height.

(** [mark_chain_as_inactive]. *)
Fixpoint mark_inactive_loop (n : nat) (fork_point : BlockHash) (header : BlockHeader) (height : Z)
  : M unit :=
  match n with
  | O => lift Diverge
  | Datatypes.S n' =>
      g ← gets (fun c => Ok (is_genesis c header));
      if negb g && negb (block_hash header =? fork_point) then
        _ ← update_header (InFork header height);
        d ← gets (fun c => get_ancestor c header);
        height ← lift (u32_sub height 1);
        mark_inactive_loop n' fork_point (deref d) height
      else mret tt
  end.
Definition mark_chain_as_inactive (old_tip : BlockHeader) (fork_point : BlockHash) : M unit :=
  height ← gets (fun c => get_chain_depth fuel c old_tip);
  mark_inactive_loop fuel fork_point old_tip height.

(** [change_active_chain]. *)
Definition change_active_chain (new_tip : BlockHeader) (last_valid : BlockHash) (d : Z) (a : Stump)
  (c : Inner) : Inner :=
  set_acc a (set_best (mkBestChain (block_hash new_tip) d last_valid
                         (alternative_tips (best_chain c))) c).

(** [reorg]: everything that can fail on the new branch comes first. *)
Definition reorg (new_tip : BlockHeader) : M unit :=
  current_best_block ← gets (fun c => get_block_header c (get_best_block c).2);
  fork_point ← gets (fun c => find_fork_point fuel c new_tip);
  vi ← gets (fun c => get_last_valid_block fuel c new_tip);
  d ← gets (fun c => get_chain_depth fuel c new_tip);
  a ← reorg_acc vi;
  _ ← mark_chain_as_inactive current_best_block (block_hash fork_point);
  _ ← mark_chain_as_active new_tip (block_hash fork_point);
  modify (change_active_chain new_tip vi d a).

(** [Vec::remove] at the first position of a hash. *)
Fixpoint remove_first (h : BlockHash) (l : list BlockHash) : list BlockHash :=
  match l with
  | [] => []
  | x :: rest => if h =? x then rest else x :: remove_first h rest
  end.

(** [push_alt_tip]. *)
Definition push_alt_tip (branch_tip : BlockHeader) : M unit :=
  ancestor ← gets (fun c =>
    match get_ancestor c branch_tip with
    | Ok a => Ok (Some a)
    | Err BlockNotPresent => Ok None
    | Err e => Err e
    | Panic => Panic
    | Diverge => Diverge
    end);
  modify (fun c =>
    let b := best_chain c in
    let tips := match ancestor with
                | Some a => remove_first (dh_hash a) (alternative_tips b)
                | None => alternative_tips b
                end in
    set_best (mkBestChain (best_block b) (depth b) (validation_index b)
                (tips ++ [block_hash branch_tip])) c).

(** [maybe_reorg]. *)
Definition maybe_reorg (branch_tip : BlockHeader) : M unit :=
  current_tip ← gets (fun c => get_block_header c (get_best_block c).2);
  _ ← gets (fun c => check_branch fuel c branch_tip);
  fork_point ← gets (fun c => find_fork_point fuel c branch_tip);
  current_work ← gets (fun c => get_branch_work c current_tip);
  new_work ← gets (fun c => get_fork_work fuel c branch_tip (block_hash fork_point));
  if current_work <? new_work then reorg branch_tip
  else
    _ ← push_alt_tip branch_tip;
    d ← gets (fun c => get_ancestor c branch_tip);
    parent_height ← lift (try_height d);
    height ← lift (u32_add parent_height 1);
    update_header (InFork branch_tip height).

(** [switch_chain]. *)
Definition switch_chain (new_tip : BlockHash) : M unit :=
  header ← gets (fun c => get_block_header c new_tip); reorg header.

(** * Accepting headers *)

(** The part of [accept_header] for a header that is not stored yet. *)
Definition accept_new_header (header : BlockHeader) : M unit :=
  '(best_height, best_hash) ← gets (fun c => Ok (get_best_block c));
  h ← gets (fun c => validate_header c header);
  if prev_blockhash header =? best_hash then
    height ← lift (u32_add best_height 1);
    _ ← modify (fun c => set_best (bc_new_block h height (best_chain c)) c);
    update_header_and_index (HeadersOnly header height) h height
  else maybe_reorg header.

(** [accept_header]. *)
Definition accept_header (header : BlockHeader) : M unit := fun c =>
  match get_disk_block_header c (block_hash header) with
  | Err Database => (Err Database, c)
  | Ok found => maybe_reindex found c
  | Panic => (Panic, c)
  | Diverge => (Diverge, c)
  | _ => accept_new_header header c
  end.

(** * Connecting blocks *)

(** [update_view]. *)
Definition serialize (a : Stump) : outcome BlockchainError (list Z) :=
  match stump_serialize a with
  | inl e => Err (AccumulatorError e)
  | inr bytes => Ok bytes
  end.

Definition update_view (height : Z) (header : BlockHeader) (a : Stump) : M unit :=
  _ ← store (save_header (FullyValid header height));
  _ ← store (update_block_index height (block_hash header));
  roots ← lift (serialize a);
  _ ← store (save_roots_for_block roots height);
  _ ← modify (set_acc a);
  modify (fun c => set_best (bc_valid_block (block_hash header) (best_chain c)) c).

(** [update_tip] and [update_ibd]. *)
Definition update_tip (h : BlockHash) (height : Z) : M unit :=
  modify (fun c => set_best (bc_new_block h height (best_chain c)) c).
Definition update_ibd (i : IBDState) : M unit := modify (set_ibd i).

(** [flush]. *)
Definition flush : M unit :=
  best ← gets (fun c => Ok (best_chain c));
  _ ← store (save_height best);
  store store_flush.

(** [subscribe] and [notify]. *)
Definition subscribe (k : BlockConsumer) : M unit :=
  modify (fun c => set_subscribers (subscribers c ++ [k]) c).

Fixpoint notify_loop (b : Block) (height : Z) (inputs : option (gmap OutPoint UtxoData))
  (l : list BlockConsumer) : outcome BlockchainError (list BlockConsumer) :=
  match l with
  | [] => Ok []
  | client :: rest =>
      client ← (if wants_spent_utxos client then on_block b height inputs client
                else on_block b height None client);
      rest ← notify_loop b height inputs rest;
      Ok (client :: rest)
  end.

Definition notify (b : Block) (height : Z) (inputs : option (gmap OutPoint UtxoData)) : M unit :=
  l ← gets (fun c => notify_loop b height inputs (subscribers c));
  modify (set_subscribers l).

(** The height [connect_block] connects a block at, by the state of its
    header. *)
Definition connect_height (c : Inner) (header : DiskBlockHeader) : outcome BlockchainError Z :=
  match header with
  | FullyValid _ height =>
      vi ← get_validation_index c;
      _ ← err_if (negb (height =? vi)) (BlockValidation BlockDoesntExtendTip);
      Ok height
  | Orphan _ | AssumedValid _ _ | InFork _ _ | InvalidChain _ =>
      Err (BlockValidation BlockExtendsAnOrphanChain)
  | HeadersOnly _ height =>
      vi ← get_validation_index c;
      next ← u32_add vi 1;
      _ ← err_if (negb (height =? next)) (BlockValidation BlockDoesntExtendTip);
      Ok height
  end.

(** The checks of [connect_block], which only read the state. *)
Definition connect_checks (b : Block) (proof : Proof_) (inputs : gmap OutPoint UtxoData)
  (del_hashes : list Z) (c : Inner) : outcome BlockchainError (Z * Stump) :=
  header ← get_disk_block_header c (blk_hash b);
  height ← connect_height c header;
  a ← update_acc (acc c) b height proof del_hashes;
  _ ← validate_block_no_acc c b height inputs;
  Ok (height, a).

(** [connect_block]. *)
Definition connect_block (b : Block) (proof : Proof_) (inputs : gmap OutPoint UtxoData)
  (del_hashes : list Z) : M Z :=
  '(height, a) ← gets (connect_checks b proof inputs del_hashes);
  inputs_for_notifications ← gets (fun c =>
    Ok (if existsb wants_spent_utxos (subscribers c) then Some inputs else None));
  _ ← update_view height (blk_header b) a;
  in_ibd ← gets (fun c => Ok (is_in_ibd c));
  _ ← (if negb in_ibd || (height mod 100000 =? 0) then flush else mret tt);
  _ ← notify b height inputs_for_notifications;
  mret height.

(** * Marking blocks *)

(** [mark_block_as_valid]. *)
Definition mark_block_as_valid (h : BlockHash) : M unit :=
  header ← gets (fun c => get_disk_block_header c h);
  height ← lift (try_height header);
  update_header (FullyValid (deref header) height).

(** [mark_chain_as_assumed]. *)
Fixpoint mark_assumed_loop (n : nat) (header : DiskBlockHeader) (h : BlockHash) : M unit :=
  match n with
  | O => lift Diverge
  | Datatypes.S n' =>
      g ← gets (fun c => Ok (is_genesis c (deref header)));
      if (g : bool) then mret tt
      else
        height ← lift (try_height header);
        _ ← update_header_and_index (FullyValid (deref header) height) h height;
        header ← gets (fun c => get_ancestor c (deref header));
        mark_assumed_loop n' header (dh_hash header)
  end.
Definition mark_chain_as_assumed (a : Stump) (assumed_hash : BlockHash) : M bool :=
  assumed_header ← gets (fun c => get_disk_block_header c assumed_hash);
  _ ← mark_assumed_loop fuel assumed_header assumed_hash;
  height ← lift (try_height assumed_header);
  _ ← update_view height (deref assumed_header) a;
  _ ← flush;
  mret true.

(** [invalidate_block]. *)
Fixpoint invalidate_loop (heights : list Z) : M unit :=
  match heights with
  | [] => mret tt
  | h :: rest =>
      hash ← gets (fun c => get_block_hash c h);
      header ← gets (fun c => get_block_header c hash);
      _ ← update_header (InvalidChain header);
      invalidate_loop rest
  end.
Definition invalidate_block (b : BlockHash) : M unit :=
  d ← gets (fun c => get_disk_block_header c b);
  height ← lift (try_height d);
  current_height ← gets (fun c => Ok (get_height c));
  _ ← invalidate_loop (seqZ height (current_height - height + 1));
  header ← gets (fun c => get_block_header c b);
  ancestor ← gets (fun c => get_ancestor c header);
  new_height ← lift (u32_sub height 1);
  update_tip (dh_hash ancestor) new_height.

(** * Partial chains *)

(** [get_partial_chain]: a missing block panics. *)
Fixpoint partial_blocks (c : Inner) (heights : list Z) : outcome BlockchainError (list BlockHeader) :=
  match heights with
  | [] => Ok []
  | height :: rest =>
      h ← expect (ok_opt (get_block_hash c height));
      d ← expect (ok_opt (get_disk_block_header c h));
      tail ← partial_blocks c rest;
      Ok (deref d :: tail)
  end.
Definition get_partial_chain (c : Inner) (initial_height final : Z) (a : Stump)
  : outcome BlockchainError PartialChainStateInner :=
  headers ← partial_blocks c (seqZ 0 (final + 1));
  Ok (mkPartial a headers initial_height final None (parameters c) false).

(** * The builder *)

(** [BlockchainBuilderError]. *)
Inductive BlockchainBuilderError :=
  | MissingChainstore
  | MissingChainParams
  | IncompleteTip
  | BuilderDatabase.

(** [ChainStateBuilder]. *)
Record ChainStateBuilder := mkBuilder {
  b_acc : option Stump;
  b_chainstore : option S;
  b_ibd : IBDState;
  b_chain_params : option ChainParams;
  b_assume_valid : option BlockHash;
  b_tip : option (BlockHash * Z);
  b_tip_header : option BlockHeader
}.

Definition builder_new : ChainStateBuilder := mkBuilder None None HeadersSync None None None None.
Definition with_chainstore (s : S) (b : ChainStateBuilder) : ChainStateBuilder :=
  mkBuilder (b_acc b) (Some s) (b_ibd b) (b_chain_params b) (b_assume_valid b) (b_tip b)
    (b_tip_header b).
Definition select_ibd (i : IBDState) (b : ChainStateBuilder) : ChainStateBuilder :=
  mkBuilder (b_acc b) (b_chainstore b) i (b_chain_params b) (b_assume_valid b) (b_tip b)
    (b_tip_header b).
Definition with_chain_params (p : ChainParams) (b : ChainStateBuilder) : ChainStateBuilder :=
  mkBuilder (b_acc b) (b_chainstore b) (b_ibd b) (Some p) (b_assume_valid b) (b_tip b)
    (b_tip_header b).
Definition with_assume_valid (arg : AssumeValidArg) (net : Network) (b : ChainStateBuilder)
  : ChainStateBuilder :=
  mkBuilder (b_acc b) (b_chainstore b) (b_ibd b) (b_chain_params b) (get_assume_valid net arg)
    (b_tip b) (b_tip_header b).
Definition assume_utreexo (a : Stump) (b : ChainStateBuilder) : ChainStateBuilder :=
  mkBuilder (Some a) (b_chainstore b) (b_ibd b) (b_chain_params b) (b_assume_valid b) (b_tip b)
    (b_tip_header b).
Definition with_tip (tip : BlockHash * Z) (header : BlockHeader) (b : ChainStateBuilder)
  : ChainStateBuilder :=
  mkBuilder (b_acc b) (b_chainstore b) (b_ibd b) (b_chain_params b) (b_assume_valid b) (Some tip)
    (Some header).

(** [ChainStateBuilder::best_block]: the validation index is the genesis. *)
Definition builder_best_block (b : ChainStateBuilder) : outcome BlockchainBuilderError BestChain :=
  p ← ok_or (b_chain_params b) MissingChainParams;
  let genesis_hash := block_hash (blk_header (genesis p)) in
  let '(best, d) := default (genesis_hash, 0) (b_tip b) in
  Ok (mkBestChain best d genesis_hash []).

(** [TryFrom<ChainStateBuilder> for ChainState]. *)
Definition builder_try_from (b : ChainStateBuilder) : outcome BlockchainBuilderError Inner :=
  s ← ok_or (b_chainstore b) MissingChainstore;
  best ← builder_best_block b;
  p ← ok_or (b_chain_params b) MissingChainParams;
  Ok (mkInner (default stump_new (b_acc b)) s best [] (1, 1, 1) (b_ibd b) p (b_assume_valid b)).

Definition builder_db {A} (o : outcome DbErr A) : outcome BlockchainBuilderError A :=
  map_err (fun _ => BuilderDatabase) o.

(** [ChainStateBuilder::build]. *)
Definition build (b : ChainStateBuilder) : outcome BlockchainBuilderError Inner :=
  s ← ok_or (b_chainstore b) MissingChainstore;
  match b_tip_header b, b_tip b with
  | Some first_header, Some (h, height) =>
      let '(o, s) := save_header (FullyValid first_header height) s in
      _ ← builder_db o;
      let '(o, s) := update_block_index height h s in
      _ ← builder_db o;
      builder_try_from (with_chainstore s b)
  | None, None => builder_try_from b
  | _, _ => Err IncompleteTip
  end.
End ChainState.
