(* ===== verification/FlatStore.v ===== *)
(** The flat-file store
    ([crates/floresta-chain/src/pruned_utreexo/flat_chain_store.rs]): two
    memory-mapped files of headers, an open-addressing index from block hashes
    to slots, a metadata record, a file of accumulators and an LRU cache.

    A memory map is a finite map from slots to values, where an absent slot is
    zeroed memory.  Reads and writes of the maps cannot fail; of the
    accumulator file, only reading past its end fails.  The cache's mutex is
    never poisoned: no method panics while it holds it. *)

From stdpp Require Import base gmap list strings sets fin_sets.
From Stdlib Require Import ZArith Lia.
From S2P Require Import Prelude Bitcoin Errors Codec ChainStore.

Definition FLAT_CHAINSTORE_MAGIC : Z := 0x74736C66.
Definition FLAT_CHAINSTORE_VERSION : Z := 1.
Definition MAX_ACCUMULATOR_SIZE : Z := 2056.

(** * Tagged indexes *)

Module Index.
Definition FORK_BIT : Z := 0x80000000.
Definition INDEX_MASK : Z := 0x7FFFFFFF.

(** An [Index] is its raw [u32]. *)
Definition new (index : Z) : outcome FlatChainstoreError Z :=
  if FORK_BIT <=? index then Err OversizedIndex else Ok index.
Definition new_fork (index : Z) : outcome FlatChainstoreError Z :=
  if FORK_BIT <=? index then Err OversizedIndex else Ok (Z.lor index FORK_BIT).
Definition is_main_chain (i : Z) : bool := Z.land i FORK_BIT =? 0.
Definition index (i : Z) : Z := Z.land i INDEX_MASK.
Definition is_empty (i : Z) : bool := i =? 0.
End Index.

(** * Records *)

(** [HashedDiskHeader]. *)
Record HashedDiskHeader := mkHashed {
  h_header : DiskBlockHeader;
  h_hash : BlockHash;
  acc_pos : Z;
  acc_len : Z
}.

(** [DbCheckSum]. *)
Record DbCheckSum := mkCheckSum {
  headers_checksum : Z;
  index_checksum : Z;
  fork_headers_checksum : Z
}.

#[export] Instance DbCheckSum_eq_dec : EqDecision DbCheckSum.
Proof. solve_decision. Defined.

(** [Metadata]. *)
Record Metadata := mkMetadata {
  m_magic : Z;
  m_version : Z;
  m_best_block : BlockHash;
  m_depth : Z;
  m_validation_index : BlockHash;
  m_alternative_tips : list BlockHash;
  m_fork_count : Z;
  m_headers_file_size : Z;
  m_fork_file_size : Z;
  m_block_index_occupancy : Z;
  m_index_capacity : Z;
  m_checksum : DbCheckSum
}.

(** [MetadataV0]: one more field, and the file is longer. *)
Record MetadataV0 := mkMetadataV0 {
  v0_magic : Z;
  v0_version : Z;
  v0_best_block : BlockHash;
  v0_depth : Z;
  v0_validation_index : BlockHash;
  v0_alternative_tips : list BlockHash;
  v0_assume_valid_index : Z;
  v0_fork_count : Z;
  v0_headers_file_size : Z;
  v0_fork_file_size : Z;
  v0_block_index_occupancy : Z;
  v0_index_capacity : Z;
  v0_checksum : DbCheckSum
}.

(** The LRU cache (crate [lru]) and the checksum (crate [twox-hash]). *)
Class FlatLib := {
  Lru : Type;
  lru_new : Z -> Lru;
  lru_get : BlockHash -> Lru -> option DiskBlockHeader * Lru;
  lru_put : BlockHash -> DiskBlockHeader -> Lru -> Lru;
  xxh3_headers : gmap Z HashedDiskHeader -> Z -> Z;
  xxh3_index : gmap Z Z -> Z -> Z;
  size_of_hashed_header : Z;
  size_of_metadata : Z
}.

(** What the cache promises: a lookup answers from the stored entries, and
    storing an entry may only evict others. *)
Class LruOk `{FlatLib} (entries : Lru -> gmap BlockHash DiskBlockHeader) : Prop := {
  lru_get_entries : forall h c,
    (lru_get h c).1 = entries c !! h /\ entries (lru_get h c).2 = entries c;
  lru_put_same : forall h d c, entries (lru_put h d c) !! h = Some d;
  lru_put_other : forall h d c h' d', h' <> h ->
    entries (lru_put h d c) !! h' = Some d' -> entries c !! h' = Some d';
  lru_new_empty : forall n, entries (lru_new n) = ∅
}.

(** * Pure helpers *)

(** [BlockIndex::index_hash_fn]. *)
Definition jenkins_step (hash byte : Z) : Z :=
  let hash := wrap32 (hash + byte) in
  let hash := wrap32 (hash + wrap32 (Z.shiftl hash 10)) in
  Z.lxor hash (Z.shiftr hash 6).
Definition index_hash_fn (h : BlockHash) : Z :=
  let hash := foldl jenkins_step (Z.shiftl 1 16 - 1) (to_byte_array h) in
  let hash := wrap32 (hash + wrap32 (Z.shiftl hash 3)) in
  let hash := Z.lxor hash (Z.shiftr hash 11) in
  wrap32 (hash + wrap32 (Z.shiftl hash 15)).

(** [FlatChainStore::truncate_to_pow2]. *)
Definition truncate_to_pow2 {E} (n : Z) : outcome E Z :=
  if n =? 0 then Ok 0
  else
    let n := n - 1 in
    let n := Z.lor n (Z.shiftr n 1) in
    let n := Z.lor n (Z.shiftr n 2) in
    let n := Z.lor n (Z.shiftr n 4) in
    let n := Z.lor n (Z.shiftr n 8) in
    let n := Z.lor n (Z.shiftr n 16) in
    u64_add n 1.

(** [From<MetadataV0> for Metadata]. *)
Definition metadata_from_v0 (v : MetadataV0) : Metadata :=
  mkMetadata (v0_magic v) FLAT_CHAINSTORE_VERSION (v0_best_block v) (v0_depth v)
    (v0_validation_index v) (v0_alternative_tips v) (v0_fork_count v) (v0_headers_file_size v)
    (v0_fork_file_size v) (v0_block_index_occupancy v) (v0_index_capacity v) (v0_checksum v).

Section FlatStore.
Context `{HeaderLib, FlatLib}.

Abbreviation F := (outcome FlatChainstoreError) (only parsing).

Record FlatChainStore := mkFlat {
  f_headers : gmap Z HashedDiskHeader;
  f_metadata : Metadata;
  f_index_map : gmap Z Z;
  f_index_size : Z;
  f_forks : gmap Z HashedDiskHeader;
  f_acc_file : list Z;
  f_cache : Lru;
  f_warnings : list ChainStoreWarning
}.

Abbreviation FM := (stm FlatChainStore FlatChainstoreError) (only parsing).

Definition set_metadata (m : Metadata) (s : FlatChainStore) : FlatChainStore :=
  mkFlat (f_headers s) m (f_index_map s) (f_index_size s) (f_forks s) (f_acc_file s) (f_cache s)
    (f_warnings s).
Definition set_cache (c : Lru) (s : FlatChainStore) : FlatChainStore :=
  mkFlat (f_headers s) (f_metadata s) (f_index_map s) (f_index_size s) (f_forks s) (f_acc_file s)
    c (f_warnings s).
Definition set_acc_file (l : list Z) (s : FlatChainStore) : FlatChainStore :=
  mkFlat (f_headers s) (f_metadata s) (f_index_map s) (f_index_size s) (f_forks s) l (f_cache s)
    (f_warnings s).
Definition write_bucket (p v : Z) (s : FlatChainStore) : FlatChainStore :=
  mkFlat (f_headers s) (f_metadata s) (<[p := v]> (f_index_map s)) (f_index_size s) (f_forks s)
    (f_acc_file s) (f_cache s) (f_warnings s).
Definition write_slot (i : Z) (h : HashedDiskHeader) (s : FlatChainStore) : FlatChainStore :=
  if Index.is_main_chain i then
    mkFlat (<[Index.index i := h]> (f_headers s)) (f_metadata s) (f_index_map s) (f_index_size s)
      (f_forks s) (f_acc_file s) (f_cache s) (f_warnings s)
  else
    mkFlat (f_headers s) (f_metadata s) (f_index_map s) (f_index_size s)
      (<[Index.index i := h]> (f_forks s)) (f_acc_file s) (f_cache s) (f_warnings s).
Definition set_occupancy (n : Z) (m : Metadata) : Metadata :=
  mkMetadata (m_magic m) (m_version m) (m_best_block m) (m_depth m) (m_validation_index m)
    (m_alternative_tips m) (m_fork_count m) (m_headers_file_size m) (m_fork_file_size m) n
    (m_index_capacity m) (m_checksum m).
Definition set_fork_count (n : Z) (m : Metadata) : Metadata :=
  mkMetadata (m_magic m) (m_version m) (m_best_block m) (m_depth m) (m_validation_index m)
    (m_alternative_tips m) n (m_headers_file_size m) (m_fork_file_size m)
    (m_block_index_occupancy m) (m_index_capacity m) (m_checksum m).
Definition set_checksum (k : DbCheckSum) (m : Metadata) : Metadata :=
  mkMetadata (m_magic m) (m_version m) (m_best_block m) (m_depth m) (m_validation_index m)
    (m_alternative_tips m) (m_fork_count m) (m_headers_file_size m) (m_fork_file_size m)
    (m_block_index_occupancy m) (m_index_capacity m) k.
Definition set_best_chain (b : BestChain) (m : Metadata) : Metadata :=
  mkMetadata (m_magic m) (m_version m) (best_block b) (depth b) (validation_index b)
    (m_alternative_tips m) (m_fork_count m) (m_headers_file_size m) (m_fork_file_size m)
    (m_block_index_occupancy m) (m_index_capacity m) (m_checksum m).

(** * Slots *)

(** The file of an index and its capacity. *)
Definition slot_file (s : FlatChainStore) (i : Z) : Z * gmap Z HashedDiskHeader :=
  if Index.is_main_chain i then (m_headers_file_size (f_metadata s), f_headers s)
  else (m_fork_file_size (f_metadata s), f_forks s).

(** [get_disk_header]: zeroed memory has the all-zeros hash. *)
Definition get_disk_header (s : FlatChainStore) (i : Z) : F HashedDiskHeader :=
  let '(max_size, file) := slot_file s i in
  if max_size <=? Index.index i then Err FullIndex
  else
    match file !! Index.index i with
    | Some h => if h_hash h =? all_zeros then Err HeaderNotFound else Ok h
    | None => Err HeaderNotFound
    end.

(** [get_disk_header_mut]: the slot, possibly zeroed ([None]). *)
Definition get_disk_header_mut (s : FlatChainStore) (i : Z) : F (option HashedDiskHeader) :=
  let '(max_size, file) := slot_file s i in
  if max_size <=? Index.index i then Err FullIndex else Ok (file !! Index.index i).

(** * The index *)

(** [IndexBucket]; a pointer is the number of its bucket. *)
Inductive IndexBucket :=
  | Empty (ptr : Z)
  | Occupied (ptr : Z) (header : DiskBlockHeader).

(** The probing loop of [hash_map_find_pos]. *)
Fixpoint find_pos_loop (s : FlatChainStore) (n : nat) (h : BlockHash) (mask hash : Z)
  : F IndexBucket :=
  match n with
  | O => Err FullIndex
  | S n' =>
      let ptr := Z.land hash mask in
      let candidate_index := default 0 (f_index_map s !! ptr) in
      file_header ← get_disk_header s candidate_index;
      if h_hash file_header =? h then Ok (Occupied ptr (h_header file_header))
      else if Index.is_empty candidate_index then Ok (Empty ptr)
      else find_pos_loop s n' h mask (wrap64 (hash + 1))
  end.

(** [hash_map_find_pos]. *)
Definition hash_map_find_pos (s : FlatChainStore) (h : BlockHash) : F IndexBucket :=
  mask ← u64_sub (f_index_size s) 1;
  find_pos_loop s (Z.to_nat (f_index_size s)) h mask (index_hash_fn h).

(** [set_index_for_hash]: whether the bucket was empty. *)
Definition set_index_for_hash (h : BlockHash) (i : Z) : FM bool :=
  pos ← gets (fun s => hash_map_find_pos s h);
  match pos with
  | Empty ptr => _ ← modify (write_bucket ptr i); mret true
  | Occupied ptr _ => _ ← modify (write_bucket ptr i); mret false
  end.

(** [get_index_for_hash]. *)
Definition get_index_for_hash (s : FlatChainStore) (h : BlockHash)
  : F (option (Z * DiskBlockHeader)) :=
  pos ← hash_map_find_pos s h;
  match pos with
  | Empty _ => Ok None
  | Occupied ptr header => Ok (Some (default 0 (f_index_map s !! ptr), header))
  end.

(** [get_header_by_hash]. *)
Definition get_header_by_hash (s : FlatChainStore) (h : BlockHash) : F (option DiskBlockHeader) :=
  o ← get_index_for_hash s h; Ok (option_map snd o).

(** [add_index_entry]. *)
Definition add_index_entry (h : BlockHash) (i : Z) : FM unit :=
  m ← gets (fun s => Ok (f_metadata s));
  let next_occupancy := m_block_index_occupancy m + 1 in
  if m_index_capacity m <=? next_occupancy then lift (Err FullIndex)
  else
    is_new ← set_index_for_hash h i;
    if (is_new : bool)
    then modify (fun s => set_metadata (set_occupancy next_occupancy (f_metadata s)) s)
    else mret tt.

(** * Headers *)

(** [write_header_to_storage]. *)
Definition write_header_to_storage (d : DiskBlockHeader) : FM unit :=
  height ← lift (expect (dh_height d));
  i ← lift (Index.new height);
  _ ← gets (fun s => get_disk_header_mut s i);
  modify (write_slot i (mkHashed d (dh_hash d) 0 0)).

(** [save_fork_block]. *)
Definition save_fork_block (d : DiskBlockHeader) : FM unit :=
  fork_blocks ← gets (fun s => Ok (m_fork_count (f_metadata s)));
  i ← lift (Index.new_fork fork_blocks);
  _ ← gets (fun s => get_disk_header_mut s i);
  _ ← modify (write_slot i (mkHashed d (dh_hash d) 0 0));
  i ← lift (Index.new_fork fork_blocks);
  _ ← add_index_entry (dh_hash d) i;
  modify (fun s => set_metadata (set_fork_count (m_fork_count (f_metadata s) + 1)
                                   (f_metadata s)) s).

(** [try_push_warning], and the warning raised when a write is refused. *)
Definition try_push_warning (w : ChainStoreWarning) (s : FlatChainStore) : FlatChainStore :=
  if bool_decide (w ∈ f_warnings s) then s
  else mkFlat (f_headers s) (f_metadata s) (f_index_map s) (f_index_size s) (f_forks s)
         (f_acc_file s) (f_cache s) (f_warnings s ++ [w]).
Definition warn_if_full (w : ChainStoreWarning) (m : FM unit) : FM unit := fun s =>
  match m s with
  | (Err FullIndex, s) => (Err FullIndex, try_push_warning w s)
  | r => r
  end.

(** [ChainStore::save_header]: the cache is written first. *)
Definition flat_save_header (d : DiskBlockHeader) : FM unit :=
  _ ← modify (fun s => set_cache (lru_put (dh_hash d) d (f_cache s)) s);
  warn_if_full HeaderStorageFull
    match d with
    | FullyValid _ _ | HeadersOnly _ _ | AssumedValid _ _ => write_header_to_storage d
    | InFork _ _ | Orphan _ | InvalidChain _ => save_fork_block d
    end.

(** [ChainStore::get_header]. *)
Definition flat_get_header (h : BlockHash) : FM (option DiskBlockHeader) := fun s =>
  match lru_get h (f_cache s) with
  | (Some d, c) => (Ok (Some d), set_cache c s)
  | (None, c) =>
      let s := set_cache c s in
      match get_header_by_hash s h with
      | Ok (Some d) => (Ok (Some d), set_cache (lru_put h d (f_cache s)) s)
      | o => (o, s)
      end
  end.

Definition not_found_none {A} (o : F A) : F (option A) :=
  match o with
  | Ok a => Ok (Some a)
  | Err HeaderNotFound => Ok None
  | Err e => Err e
  | Panic => Panic
  | Diverge => Diverge
  end.

(** [ChainStore::get_header_by_height] and [ChainStore::get_block_hash]. *)
Definition flat_header_by_height (height : Z) (s : FlatChainStore) : F (option DiskBlockHeader) :=
  i ← Index.new height;
  o ← not_found_none (get_disk_header s i); Ok (option_map h_header o).
Definition flat_block_hash (height : Z) (s : FlatChainStore) : F (option BlockHash) :=
  i ← Index.new height;
  o ← not_found_none (get_disk_header s i); Ok (option_map h_hash o).

(** [ChainStore::update_block_index]. *)
Definition flat_update_block_index (height : Z) (h : BlockHash) : FM unit :=
  i ← lift (Index.new height);
  warn_if_full BlockIndexFull (add_index_entry h i).

(** * Accumulators *)

(** [File::set_len]. *)
Definition set_len (n : nat) (l : list Z) : list Z := take n l ++ replicate (n - length l) 0.

(** The height of the validation index recorded in the metadata. *)
Definition recorded_validation_height : FM Z :=
  vi ← gets (fun s => Ok (m_validation_index (f_metadata s)));
  o ← flat_get_header vi;
  match o with
  | None => mret 0
  | Some d => lift (ok_or (dh_height d) InvalidValidationIndex)
  end.

(** [ChainStore::save_roots_for_block]. *)
Definition flat_save_roots (roots : list Z) (height : Z) : FM unit :=
  i ← lift (Index.new height);
  vi ← recorded_validation_height;
  _ ← (if height <=? vi then
         header ← gets (fun s => get_disk_header s i);
         modify (fun s => set_acc_file (set_len (Z.to_nat (acc_pos header)) (f_acc_file s)) s)
       else mret tt);
  pos ← gets (fun s => Ok (Z.of_nat (length (f_acc_file s))));
  let size := Z.of_nat (length roots) in
  _ ← lift (err_if (MAX_ACCUMULATOR_SIZE <? size) OversizedAccumulator);
  o ← gets (fun s => get_disk_header_mut s i);
  match o with
  | None => lift (Err HeaderNotFound)
  | Some header =>
      _ ← lift (err_if (h_hash header =? all_zeros) HeaderNotFound);
      _ ← modify (write_slot i (mkHashed (h_header header) (h_hash header) (wrap32 pos)
                                  (wrap32 size)));
      modify (fun s => set_acc_file (f_acc_file s ++ roots) s)
  end.

(** [ChainStore::load_roots_for_block]; [read_exact] fails at the end of the
    file. *)
Definition flat_load_roots (height : Z) (s : FlatChainStore) : F (option (list Z)) :=
  i ← Index.new height;
  header ← get_disk_header s i;
  if acc_len header =? 0 then Ok None
  else
    let bytes := take (Z.to_nat (acc_len header)) (drop (Z.to_nat (acc_pos header)) (f_acc_file s)) in
    if (length bytes =? Z.to_nat (acc_len header))%nat then Ok (Some bytes) else Err Io.

(** * Metadata *)

(** The fork loop of [derive_alternative_tips]. *)
Fixpoint fork_hashes_loop (s : FlatChainStore) (slots : list Z)
  (fork_hashes parent_hashes : gset BlockHash) : F (gset BlockHash * gset BlockHash) :=
  match slots with
  | [] => Ok (fork_hashes, parent_hashes)
  | slot :: rest =>
      i ← Index.new_fork (wrap32 slot);
      hdr ← get_disk_header s i;
      match h_header hdr with
      | InFork _ _ | Orphan _ | InvalidChain _ =>
          fork_hashes_loop s rest ({[h_hash hdr]} ∪ fork_hashes)
            ({[prev_blockhash (deref (h_header hdr))]} ∪ parent_hashes)
      | FullyValid _ _ | HeadersOnly _ _ | AssumedValid _ _ => Err CorruptedDatabase
      end
  end.

(** The candidates still in a fork by the index. *)
Fixpoint filter_tips (s : FlatChainStore) (candidates : list BlockHash) : F (list BlockHash) :=
  match candidates with
  | [] => Ok []
  | h :: rest =>
      o ← get_header_by_hash s h;
      tips ← filter_tips s rest;
      Ok (match o with Some (InFork _ _) => h :: tips | _ => tips end)
  end.

(** [derive_alternative_tips]; the order of a hash set is unspecified. *)
Definition derive_alternative_tips (s : FlatChainStore) : F (list BlockHash) :=
  '(fork_hashes, parent_hashes) ←
     fork_hashes_loop s (seqZ 0 (m_fork_count (f_metadata s))) ∅ ∅;
  filter_tips s (elements (fork_hashes ∖ parent_hashes)).

(** [get_best_chain], [load_height], [do_save_height]. *)
Definition get_best_chain (s : FlatChainStore) : F BestChain :=
  tips ← derive_alternative_tips s;
  let m := f_metadata s in
  Ok (mkBestChain (m_best_block m) (m_depth m) (m_validation_index m) tips).
Definition flat_load_height (s : FlatChainStore) : F (option BestChain) :=
  x ← get_best_chain s; Ok (if depth x =? 0 then None else Some x).
Definition do_save_height (b : BestChain) : FM unit :=
  modify (fun s => set_metadata (set_best_chain b (f_metadata s)) s).

(** [compute_checksum], [check_integrity], [do_flush]. *)
Definition compute_checksum (s : FlatChainStore) : DbCheckSum :=
  mkCheckSum (xxh3_headers (f_headers s) (m_headers_file_size (f_metadata s)))
    (xxh3_index (f_index_map s) (f_index_size s))
    (xxh3_headers (f_forks s) (m_fork_file_size (f_metadata s))).
Definition flat_check_integrity (s : FlatChainStore) : F unit :=
  err_if (negb (bool_decide (m_checksum (f_metadata s) = compute_checksum s))) CorruptedDatabase.
Definition do_flush : FM unit :=
  modify (fun s => set_metadata (set_checksum (compute_checksum s) (f_metadata s)) s).

(** [size_on_disk]; the three files exist while the store is open. *)
Definition flat_size_on_disk (s : FlatChainStore) : F Z :=
  n ← u64_mul (m_depth (f_metadata s) + 1) size_of_hashed_header;
  k ← u64_mul (m_fork_count (f_metadata s)) size_of_hashed_header;
  t ← u64_add n k;
  t ← u64_add t (f_index_size s * 4);
  t ← u64_add t size_of_metadata;
  u64_add t (Z.of_nat (length (f_acc_file s))).

#[export] Instance flat_store : ChainStore FlatChainStore FlatChainstoreError := {|
  save_roots_for_block := flat_save_roots;
  load_roots_for_block n s := (flat_load_roots n s, s);
  load_height := flat_load_height;
  save_height := do_save_height;
  get_header h s := (flat_get_header h s).1;
  store_header_by_height := flat_header_by_height;
  save_header := flat_save_header;
  store_block_hash := flat_block_hash;
  store_flush := do_flush;
  update_block_index := flat_update_block_index;
  check_integrity := flat_check_integrity;
  size_on_disk := flat_size_on_disk;
  store_warnings := f_warnings
|}.

(** * Opening *)

(** The metadata file, told apart by its length. *)
Inductive MetadataFile :=
  | MetaV0 (v : MetadataV0)
  | MetaV1 (m : Metadata).

(** The files of a data directory. *)
Record DataDir := mkDataDir {
  d_metadata : option MetadataFile;
  d_headers : gmap Z HashedDiskHeader;
  d_index : gmap Z Z;
  d_forks : gmap Z HashedDiskHeader;
  d_accs : list Z
}.

(** [FlatChainStoreConfig], the fields that reach the data. *)
Record FlatChainStoreConfig := mkConfig {
  block_index_size : option Z;
  headers_file_size : option Z;
  cache_size : option Z;
  fork_file_size : option Z
}.

(** [FlatChainStoreConfig::new]. *)
Definition default_config : FlatChainStoreConfig :=
  mkConfig (Some 10000000) (Some 10000000) (Some 10000) (Some 10000).

(** [maybe_migrate]: the metadata after it, and whether it migrated. *)
Definition maybe_migrate (o : option MetadataFile) : option MetadataFile * bool :=
  match o with
  | Some (MetaV0 v) => (Some (MetaV1 (metadata_from_v0 v)), true)
  | _ => (o, false)
  end.

(** [init_file] maps a file at a size: a longer file is cut, a shorter one
    grows with zeros. *)
Definition init_file {A} (size : Z) (m : gmap Z A) : gmap Z A :=
  filter (fun kv : Z * A => kv.1 < size) m.

Definition effective_cache_size (o : option Z) : Z :=
  match o with Some n => if n =? 0 then 1000 else n | None => 1000 end.

Definition sized (o : option Z) (dflt : Z) : F Z := truncate_to_pow2 (default dflt o).

(** [create_chain_store]. *)
Definition create_chain_store (cfg : FlatChainStoreConfig) (d : DataDir) : F FlatChainStore :=
  index_size ← sized (block_index_size cfg) 10000000;
  headers_size ← sized (headers_file_size cfg) 10000000;
  fork_size ← sized (fork_file_size cfg) 10000;
  Ok (mkFlat (init_file headers_size (d_headers d))
        (mkMetadata FLAT_CHAINSTORE_MAGIC FLAT_CHAINSTORE_VERSION all_zeros 0 all_zeros
           (replicate 64 all_zeros) 0 headers_size fork_size 0 index_size (mkCheckSum 0 0 0))
        (init_file index_size (d_index d)) index_size (init_file fork_size (d_forks d))
        (d_accs d) (lru_new (effective_cache_size (cache_size cfg))) []).

(** [FlatChainStore::new]. *)
Definition flat_new (cfg : FlatChainStoreConfig) (d : DataDir) : F FlatChainStore :=
  match (maybe_migrate (d_metadata d)).1 with
  | Some (MetaV1 m) =>
      if FLAT_CHAINSTORE_VERSION <? m_version m then Err (UnsupportedSchema (m_version m))
      else if negb (m_magic m =? FLAT_CHAINSTORE_MAGIC) then Err (BadMagic (m_magic m))
      else
        Ok (mkFlat (init_file (m_headers_file_size m) (d_headers d)) m
              (init_file (m_index_capacity m) (d_index d)) (m_index_capacity m)
              (init_file (m_fork_file_size m) (d_forks d)) (d_accs d)
              (lru_new (effective_cache_size (cache_size cfg))) [])
  | _ =>
      s ← create_chain_store cfg d;
      let '(o, s) := do_flush s in
      _ ← o; Ok s
  end.
End FlatStore.
