(* ===== verification/FlatFacts.v ===== *)
(** Correctness of the flat-file store: the tagged indexes, the rounding of
    the capacities, the open-addressing index as a finite map from block
    hashes to headers, and the file of accumulators. *)

From stdpp Require Import base gmap list sets fin_maps.
From Stdlib Require Import ZArith Lia.
From S2P Require Import Prelude Bitcoin Errors Codec ChainStore FlatStore.

(** * Indexes and capacities *)

Lemma land_fork_bit i : 0 <= i < Index.FORK_BIT -> Z.land i Index.FORK_BIT = 0.
Proof.
  intros Hi. apply Z.bits_inj'. intros n Hn.
  rewrite Z.land_spec, Z.bits_0. unfold Index.FORK_BIT in *.
  change 0x80000000 with (2 ^ 31) in *. rewrite Z.pow2_bits_eqb by lia.
  destruct (Z.eqb_spec 31 n) as [<-|]; [|apply andb_false_r].
  rewrite andb_true_r. apply Z.testbit_false; [lia|].
  rewrite Z.div_small by lia. done.
Qed.

Lemma index_mask i : Index.index i = i mod 2 ^ 31.
Proof.
  unfold Index.index, Index.INDEX_MASK. change 0x7FFFFFFF with (Z.ones 31).
  apply Z.land_ones. lia.
Qed.

Lemma index_new_ok i j : 0 <= i ->
  Index.new i = Ok j -> j = i /\ i < 2 ^ 31 /\ Index.is_main_chain j = true /\ Index.index j = i.
Proof.
  intros H0 Hn. unfold Index.new in Hn. destruct (Z.leb_spec Index.FORK_BIT i); [done|].
  injection Hn as <-. unfold Index.is_main_chain. rewrite land_fork_bit, index_mask by lia.
  unfold Index.FORK_BIT in *. rewrite Z.mod_small by lia. done.
Qed.

Lemma index_new_fork_ok i j : 0 <= i ->
  Index.new_fork i = Ok j ->
  j = i + 2 ^ 31 /\ i < 2 ^ 31 /\ Index.is_main_chain j = false /\ Index.index j = i.
Proof.
  intros H0 Hn. unfold Index.new_fork in Hn. destruct (Z.leb_spec Index.FORK_BIT i); [done|].
  injection Hn as <-.
  assert (Hl : Z.lor i Index.FORK_BIT = i + 2 ^ 31).
  { pose proof (Z.add_lor_land i Index.FORK_BIT) as E. rewrite land_fork_bit in E by lia.
    unfold Index.FORK_BIT in *. lia. }
  rewrite Hl. unfold Index.FORK_BIT in *.
  split_and!; [done|lia| |].
  - unfold Index.is_main_chain. rewrite <-Hl. apply Z.eqb_neq. intros E.
    assert (Hb : Z.testbit (Z.land (Z.lor i Index.FORK_BIT) Index.FORK_BIT) 31 = true).
    { rewrite Z.land_spec, Z.lor_spec. apply andb_true_iff. split; [|done].
      apply orb_true_iff. by right. }
    unfold Index.FORK_BIT in E, Hb. rewrite E in Hb. done.
  - rewrite index_mask. replace (i + 2 ^ 31) with (i + 1 * 2 ^ 31) by lia.
    rewrite Z.mod_add, Z.mod_small by lia. done.
Qed.

(** Index::new and Index::new_fork tag a 31-bit position so that position and file can
    be read back and only position 0 of the headers file is taken for an empty bucket,
    and they refuse every position from 2^31 on. *)
Theorem index_tags_faithful (i : Z) (Hi : is_u32 i) :
  (i < 2 ^ 31 -> exists m f, Index.new i = Ok m /\ Index.new_fork i = Ok f /\
     Index.index m = i /\ Index.index f = i /\
     Index.is_main_chain m = true /\ Index.is_main_chain f = false /\
     (Index.is_empty m = true <-> i = 0) /\ Index.is_empty f = false) /\
  (2 ^ 31 <= i -> Index.new i = Err OversizedIndex /\ Index.new_fork i = Err OversizedIndex).
Proof.
  unfold is_u32 in Hi. split.
  - intros Hlt. destruct (Index.new i) eqn:Hm, (Index.new_fork i) eqn:Hf;
      try (unfold Index.new, Index.new_fork, Index.FORK_BIT in *;
           destruct (Z.leb_spec 0x80000000 i); done || lia).
    apply index_new_ok in Hm as (-> & _ & Hmm & Hmi); [|lia].
    apply index_new_fork_ok in Hf as (-> & _ & Hfm & Hfi); [|lia].
    exists i, (i + 2 ^ 31). unfold Index.is_empty.
    split_and!; try done; [apply Z.eqb_eq|apply Z.eqb_neq; lia].
  - intros Hge. unfold Index.new, Index.new_fork, Index.FORK_BIT.
    destruct (Z.leb_spec 0x80000000 i); [done|lia].
Qed.

(** Smearing the bits of a number to the right. *)
Definition smeared (m x w : Z) : Prop :=
  forall i, 0 <= i -> Z.testbit x i = true <-> exists j, i <= j < i + w /\ Z.testbit m j = true.

Lemma smear_step m x w :
  0 <= w -> smeared m x w -> smeared m (Z.lor x (Z.shiftr x w)) (w + w).
Proof.
  intros Hw Hs i Hi. rewrite Z.lor_spec, Z.shiftr_spec, orb_true_iff by lia.
  rewrite (Hs i Hi), (Hs (i + w)) by lia. split.
  - intros [(j & Hj & Hb)|(j & Hj & Hb)]; exists j; split; done || lia.
  - intros (j & Hj & Hb). destruct (Z.lt_ge_cases j (i + w)); [left|right]; exists j;
      split; done || lia.
Qed.

Lemma smeared_ones m x w :
  0 < m -> Z.log2 m < w -> smeared m x w -> x = Z.ones (Z.log2 m + 1).
Proof.
  intros Hm Hw Hs. apply Z.bits_inj'. intros i Hi. pose proof (Z.log2_nonneg m).
  destruct (Z.testbit (Z.ones (Z.log2 m + 1)) i) eqn:Ho.
  - apply Z.ones_spec_iff in Ho; [|lia]. apply Hs; [done|]. exists (Z.log2 m).
    split; [lia|]. apply Z.bit_log2. lia.
  - apply not_true_is_false. intros Hb. apply Hs in Hb as (j & Hj & Hb); [|done].
    assert (j <= Z.log2 m).
    { destruct (Z.le_gt_cases j (Z.log2 m)); [done|]. rewrite Z.bits_above_log2 in Hb; done || lia. }
    assert (Z.testbit (Z.ones (Z.log2 m + 1)) i = true); [|congruence].
    apply Z.ones_spec_iff; lia.
Qed.

Lemma truncate_rounds_up (n : Z) (Hn : 1 <= n <= 2 ^ 32) :
  truncate_to_pow2 (E := FlatChainstoreError) n = Ok (2 ^ Z.log2_up n) /\
  n <= 2 ^ Z.log2_up n < 2 * n.
Proof.
  assert (Hup : n <= 2 ^ Z.log2_up n < 2 * n).
  { destruct (Z.eq_dec n 1) as [->|]; [done|].
    pose proof (Z.log2_up_spec n ltac:(lia)) as [Hlo Hhi]. split; [done|].
    replace (2 ^ Z.log2_up n) with (2 * 2 ^ Z.pred (Z.log2_up n)); [lia|].
    rewrite <-Z.pow_succ_r by (pose proof (Z.log2_up_pos n); lia). f_equal. lia. }
  split; [|done]. unfold truncate_to_pow2. destruct (Z.eqb_spec n 0); [lia|].
  destruct (Z.eq_dec n 1) as [->|Hne]; [done|]. set (m := n - 1). assert (Hm : 0 < m) by lia.
  assert (H1 : smeared m m 1).
  { intros i Hi. split; [intros Hb; exists i; split; [lia|done]|].
    intros (j & Hj & Hb). by replace i with j by lia. }
  apply smear_step in H1; [|lia]. apply smear_step in H1; [|lia].
  apply smear_step in H1; [|lia]. apply smear_step in H1; [|lia].
  apply smear_step in H1; [|lia].
  apply smeared_ones in H1; [|done|].
  - cbv zeta. change (1 + 1) with 2 in H1. change (2 + 2) with 4 in H1.
    change (4 + 4) with 8 in H1. change (8 + 8) with 16 in H1. rewrite H1.
    rewrite Z.ones_equiv. unfold u64_add.
    replace (Z.pred (2 ^ (Z.log2 m + 1)) + 1) with (2 ^ (Z.log2 m + 1)) by lia.
    assert (Hl : Z.log2_up n = Z.log2 m + 1).
    { unfold Z.log2_up. destruct (Z.compare_spec 1 n); try lia. unfold m. done. }
    rewrite Hl in *. unfold u64_max. destruct (Z.leb_spec (2 ^ (Z.log2 m + 1)) 18446744073709551615);
      [done|lia].
  - change (1 + 1 + (1 + 1) + (1 + 1 + (1 + 1)) + (1 + 1 + (1 + 1) + (1 + 1 + (1 + 1))) + _) with 32.
    apply Z.log2_lt_pow2; lia.
Qed.

(** truncate_to_pow2 rounds a capacity between 1 and 2^32 up to the next power of two,
    less than twice the requested size. *)
Theorem truncate_to_pow2_rounds_up (n : Z) (Hn : 1 <= n <= 2 ^ 32) :
  truncate_to_pow2 (E := FlatChainstoreError) n = Ok (2 ^ Z.log2_up n) /\
  n <= 2 ^ Z.log2_up n < 2 * n.
Proof. by apply truncate_rounds_up. Qed.

(** * The open-addressing index *)

Lemma mod_add_inj a i j n :
  0 <= i < n -> 0 <= j < n -> (a + i) mod n = (a + j) mod n -> i = j.
Proof.
  intros Hi Hj E. assert (D : (i - j) mod n = 0).
  { replace (i - j) with ((a + i) - (a + j)) by lia.
    rewrite Zminus_mod, E, Z.sub_diag. apply Z.mod_0_l. lia. }
  apply Z.mod_divide in D as [q Hq]; [|lia].
  assert (q = 0) by nia. lia.
Qed.

Lemma index_hash_range h : 0 <= index_hash_fn h < 2 ^ 32.
Proof. apply Z.mod_pos_bound. lia. Qed.

(** A [u32] is its tag and its position. *)
Lemma index_decode v : 0 <= v < 2 ^ 32 ->
  v = Index.index v + if Index.is_main_chain v then 0 else 2 ^ 31.
Proof.
  intros Hv. destruct (Z.lt_ge_cases v (2 ^ 31)) as [Hlt|Hge].
  - destruct (index_new_ok v v) as (_ & _ & -> & ->); [lia| |lia].
    unfold Index.new, Index.FORK_BIT. destruct (Z.leb_spec 0x80000000 v); [lia|done].
  - assert (Hf : Index.new_fork (v - 2 ^ 31) = Ok v).
    { unfold Index.new_fork, Index.FORK_BIT. destruct (Z.leb_spec 0x80000000 (v - 2 ^ 31)); [lia|].
      f_equal. pose proof (Z.add_lor_land (v - 2 ^ 31) Index.FORK_BIT) as E.
      rewrite land_fork_bit in E; unfold Index.FORK_BIT in *; lia. }
    apply index_new_fork_ok in Hf as (_ & _ & -> & ->); lia.
Qed.

Section Table.
Context `{HeaderLib, FlatLib}.
Implicit Types s : FlatChainStore.

#[local] Opaque index_hash_fn.

(** The raw value of a bucket, and the [i]-th bucket probed for a hash. *)
Definition bucket s (p : Z) : Z := default 0 (f_index_map s !! p).
Definition probe s (h : BlockHash) (i : nat) : Z :=
  (index_hash_fn h + Z.of_nat i) mod f_index_size s.

(** The hash of the header a bucket points to. *)
Definition bucket_key s (p : Z) : option BlockHash :=
  match get_disk_header s (bucket s p) with Ok hd => Some (h_hash hd) | _ => None end.

Definition table_size s : nat := Z.to_nat (f_index_size s).
Definition occupied s : gmap Z Z := filter (fun kv : Z * Z => kv.2 <> 0) (f_index_map s).

Lemma bucket_key_Some s p k :
  bucket_key s p = Some k <-> exists hd, get_disk_header s (bucket s p) = Ok hd /\ h_hash hd = k.
Proof.
  unfold bucket_key. destruct (get_disk_header s (bucket s p)) as [hd| | |]; split;
    try (intros (? & ? & ?)); try congruence. intros [= <-]. by exists hd.
Qed.

(** Every occupied bucket lies on the probe sequence of its key, with no
    gap and no earlier copy before it; the genesis block lives in slot 0 and
    needs no bucket. *)
Record table_inv s (g : HashedDiskHeader) : Prop := {
  ti_pow2 : exists k, 0 <= k <= 32 /\ f_index_size s = 2 ^ k;
  ti_capacity : m_index_capacity (f_metadata s) = f_index_size s;
  ti_genesis : get_disk_header s 0 = Ok g;
  ti_u32 : forall p, 0 <= bucket s p < 2 ^ 32;
  ti_resolve : forall p, bucket s p <> 0 ->
    exists k, bucket_key s p = Some k /\ k <> h_hash g;
  ti_probe : forall p k, bucket s p <> 0 -> bucket_key s p = Some k ->
    exists i, (i < table_size s)%nat /\ p = probe s k i /\
      forall j, (j < i)%nat -> bucket s (probe s k j) <> 0 /\ bucket_key s (probe s k j) <> Some k;
  ti_occupancy : Z.of_nat (size (occupied s)) = m_block_index_occupancy (f_metadata s);
  ti_room : m_block_index_occupancy (f_metadata s) < f_index_size s
}.

Lemma table_size_pos s g : table_inv s g -> 1 <= f_index_size s <= 2 ^ 32.
Proof.
  intros [(k & Hk & ->) _ _ _ _ _ _ _]. split.
  - apply (Z.pow_le_mono_r 2 0 k); lia.
  - apply Z.pow_le_mono_r; lia.
Qed.

Lemma probe_land s g h (i : nat) :
  table_inv s g -> Z.land (index_hash_fn h + Z.of_nat i) (f_index_size s - 1) = probe s h i.
Proof.
  intros [(k & Hk & Hs) _ _ _ _ _ _ _]. unfold probe. rewrite Hs.
  replace (2 ^ k - 1) with (Z.ones k) by (rewrite Z.ones_equiv; lia).
  apply Z.land_ones. lia.
Qed.

Lemma probe_inj s g h (i j : nat) :
  table_inv s g -> (i < table_size s)%nat -> (j < table_size s)%nat ->
  probe s h i = probe s h j -> i = j.
Proof.
  intros Hinv Hi Hj E. pose proof (table_size_pos _ _ Hinv). unfold probe, table_size in *.
  apply Nat2Z.inj, (mod_add_inj (index_hash_fn h) _ _ (f_index_size s)); [lia..|done].
Qed.

Lemma probe_surj s g h p :
  table_inv s g -> 0 <= p < f_index_size s ->
  exists i, (i < table_size s)%nat /\ probe s h i = p.
Proof.
  intros Hinv Hp. pose proof (table_size_pos _ _ Hinv).
  pose proof (Z.mod_pos_bound (p - index_hash_fn h) (f_index_size s) ltac:(lia)).
  exists (Z.to_nat ((p - index_hash_fn h) mod f_index_size s)).
  unfold probe, table_size. split; [lia|]. rewrite Z2Nat.id by lia.
  rewrite Zplus_mod_idemp_r. replace (index_hash_fn h + (p - index_hash_fn h)) with p by lia.
  by apply Z.mod_small.
Qed.

(** A table below its capacity has an empty bucket. *)
Lemma empty_bucket s g : table_inv s g -> exists p, 0 <= p < f_index_size s /\ bucket s p = 0.
Proof.
  intros Hinv.
  destruct (decide (Exists (fun p => bucket s p = 0) (seqZ 0 (f_index_size s)))) as [He|Hn].
  - apply Exists_exists in He as (p & Hp & Hb). apply elem_of_seqZ in Hp. exists p. split; [lia|done].
  - exfalso. assert (Hsub : list_to_set (seqZ 0 (f_index_size s)) ⊆ dom (occupied s)).
    { intros p Hp. apply elem_of_list_to_set in Hp. apply elem_of_dom.
      assert (Hb : bucket s p <> 0).
      { intros Hb. apply Hn, Exists_exists. by exists p. }
      unfold bucket in Hb. destruct (f_index_map s !! p) as [v|] eqn:Hv; [|done].
      exists v. by apply map_lookup_filter_Some. }
    apply subseteq_size in Hsub. rewrite size_dom in Hsub.
    rewrite size_list_to_set in Hsub by apply NoDup_seqZ. rewrite length_seqZ in Hsub.
    pose proof (ti_occupancy _ _ Hinv). pose proof (ti_room _ _ Hinv).
    pose proof (table_size_pos _ _ Hinv). lia.
Qed.

(** The outcome of a search from the [i]-th probe: the first bucket that is
    empty or holds the key. *)
Inductive found s h (i : nat) : outcome FlatChainstoreError IndexBucket -> Prop :=
  | Found_key j hd :
      (i <= j < table_size s)%nat ->
      (forall l, (i <= l < j)%nat ->
         bucket s (probe s h l) <> 0 /\ bucket_key s (probe s h l) <> Some h) ->
      get_disk_header s (bucket s (probe s h j)) = Ok hd -> h_hash hd = h ->
      found s h i (Ok (Occupied (probe s h j) (h_header hd)))
  | Found_empty j :
      (i <= j < table_size s)%nat ->
      (forall l, (i <= l < j)%nat ->
         bucket s (probe s h l) <> 0 /\ bucket_key s (probe s h l) <> Some h) ->
      bucket s (probe s h j) = 0 -> bucket_key s (probe s h j) <> Some h ->
      found s h i (Ok (Empty (probe s h j))).

Lemma find_pos_loop_found s g h : table_inv s g -> forall n i,
  (i + n = table_size s)%nat ->
  (exists j, (i <= j < table_size s)%nat /\ bucket s (probe s h j) = 0) ->
  found s h i (find_pos_loop s n h (f_index_size s - 1) (index_hash_fn h + Z.of_nat i)).
Proof.
  intros Hinv. induction n as [|n IH]; intros i Hn (j & Hj & Hz); [lia|].
  cbn [find_pos_loop]. rewrite (probe_land _ _ _ _ Hinv). fold (bucket s (probe s h i)).
  assert (Hr : exists hd, get_disk_header s (bucket s (probe s h i)) = Ok hd).
  { destruct (Z.eq_dec (bucket s (probe s h i)) 0) as [->|Hb].
    - exists g. apply (ti_genesis _ _ Hinv).
    - destruct (ti_resolve _ _ Hinv _ Hb) as (k & (hd & ? & _)%bucket_key_Some & _). by exists hd. }
  destruct Hr as [hd Hhd]. rewrite Hhd. cbn [mbind outcome_bind].
  destruct (Z.eqb_spec (h_hash hd) h) as [Hk|Hk].
  { apply Found_key; try done; lia. }
  assert (Hkey : bucket_key s (probe s h i) <> Some h) by (unfold bucket_key; rewrite Hhd; congruence).
  unfold Index.is_empty. destruct (Z.eqb_spec (bucket s (probe s h i)) 0) as [Hb|Hb].
  { apply Found_empty; try done; lia. }
  assert (Hij : i <> j) by (by intros ->).
  pose proof (index_hash_range h). pose proof (table_size_pos _ _ Hinv).
  assert (Hw : wrap64 (index_hash_fn h + Z.of_nat i + 1) = index_hash_fn h + Z.of_nat (S i)).
  { unfold table_size in *. unfold wrap64. rewrite Z.mod_small by lia. lia. }
  rewrite Hw. destruct (IH (S i)) as [j' hd' Hj' Hl Hg He|j' Hj' Hl Hg He]; [lia|by exists j; split; [lia|]| |].
  - apply Found_key; try done; [lia|]. intros l Hll. destruct (decide (l = i)) as [->|]; [done|].
    apply Hl. lia.
  - apply Found_empty; try done; [lia|]. intros l Hll. destruct (decide (l = i)) as [->|]; [done|].
    apply Hl. lia.
Qed.

Lemma find_pos_found s g h : table_inv s g -> found s h 0 (hash_map_find_pos s h).
Proof.
  intros Hinv. pose proof (table_size_pos _ _ Hinv). unfold hash_map_find_pos, u64_sub.
  destruct (Z.leb_spec 1 (f_index_size s)); [|lia]. cbn [mbind outcome_bind].
  destruct (empty_bucket _ _ Hinv) as (p & Hp & Hb).
  destruct (probe_surj _ _ h p Hinv Hp) as (i & Hi & <-).
  replace (index_hash_fn h) with (index_hash_fn h + Z.of_nat 0) by lia.
  apply (find_pos_loop_found _ _ _ Hinv); [done|]. exists i. split; [lia|done].
Qed.

(** A header the index reaches. *)
Definition stored s (h : BlockHash) (d : DiskBlockHeader) : Prop :=
  exists v hd, (v = 0 \/ exists p, bucket s p = v) /\
    get_disk_header s v = Ok hd /\ h_hash hd = h /\ h_header hd = d.

(** An occupied bucket with the key is the one a search finds. *)
Lemma found_bucket s g h p r :
  table_inv s g -> found s h 0 r -> bucket s p <> 0 -> bucket_key s p = Some h ->
  exists d, r = Ok (Occupied p d).
Proof.
  intros Hinv Hf Hb Hk. destruct (ti_probe _ _ Hinv p h Hb Hk) as (i & Hi & -> & Hbefore).
  destruct Hf as [j hd Hj Hl Hg He|j Hj Hl Hg He].
  - destruct (Nat.lt_trichotomy i j) as [Hlt|[->|Hlt]].
    + destruct (Hl i) as [_ Hne]; [lia|]. done.
    + by eexists.
    + destruct (Hbefore j Hlt) as [_ Hne]. unfold bucket_key in Hne. rewrite Hg in Hne. congruence.
  - exfalso. destruct (Nat.lt_trichotomy i j) as [Hlt|[->|Hlt]].
    + destruct (Hl i) as [_ Hne]; [lia|]. done.
    + done.
    + destruct (Hbefore j Hlt) as [Hne _]. done.
Qed.

Lemma get_header_by_hash_stored s g h :
  table_inv s g ->
  (exists o, get_header_by_hash s h = Ok o) /\
  forall d, get_header_by_hash s h = Ok (Some d) <-> stored s h d.
Proof.
  intros Hinv. pose proof (find_pos_found _ _ h Hinv) as Hf.
  unfold get_header_by_hash, get_index_for_hash.
  split; [destruct Hf; by eexists|].
  intros d. split.
  - destruct Hf as [j hd Hj Hl Hg He|]; [|done]. cbn. intros [= <-].
    exists (bucket s (probe s h j)), hd. split_and!; try done. right. by eexists.
  - intros (v & hd & Hv & Hg & Hh & Hd).
    destruct (Z.eq_dec v 0) as [->|Hne].
    + (* the genesis block *)
      rewrite (ti_genesis _ _ Hinv) in Hg. injection Hg as ->.
      destruct Hf as [j hd' Hj Hl Hg' He|j Hj Hl Hg' He].
      * destruct (Z.eq_dec (bucket s (probe s h j)) 0) as [Hz|Hz].
        -- rewrite Hz, (ti_genesis _ _ Hinv) in Hg'. injection Hg' as <-. cbn. by rewrite Hd.
        -- destruct (ti_resolve _ _ Hinv _ Hz) as (k & (hd2 & Hr & Hk)%bucket_key_Some & Hn). congruence.
      * unfold bucket_key in He. rewrite Hg', (ti_genesis _ _ Hinv) in He. congruence.
    + destruct Hv as [?|[p <-]]; [done|].
      assert (Hk : bucket_key s p = Some h) by (unfold bucket_key; by rewrite Hg, Hh).
      destruct (found_bucket _ _ _ _ _ Hinv Hf Hne Hk) as [d' Hr]. rewrite Hr in *.
      inversion Hf as [j hd' Hj Hl Hg' He|]; subst. cbn. 
      assert (hd' = hd) as -> by congruence. done.
Qed.

(** ** Writes *)

(** Whether an index has a slot in its file. *)
Definition has_slot s (i : Z) : Prop := Index.index i < (slot_file s i).1.

Lemma get_disk_header_mut_ok s i o :
  get_disk_header_mut s i = Ok o -> has_slot s i /\ o = (slot_file s i).2 !! Index.index i.
Proof.
  unfold get_disk_header_mut, has_slot. destruct (slot_file s i) as [n f]. cbn.
  destruct (Z.leb_spec n (Index.index i)); [done|]. by intros [= <-].
Qed.

Lemma get_disk_header_write_slot s i hd v :
  0 <= i < 2 ^ 32 -> 0 <= v < 2 ^ 32 -> has_slot s i -> h_hash hd <> 0 ->
  get_disk_header (write_slot i hd s) v =
  if decide (v = i) then Ok hd else get_disk_header s v.
Proof.
  intros Hi Hv Hs Hh. pose proof (index_decode i Hi) as Ei. pose proof (index_decode v Hv) as Ev.
  unfold get_disk_header, has_slot, slot_file, write_slot in *.
  case_decide as E.
  - subst v. destruct (Index.is_main_chain i); cbn in *;
      (rewrite (proj2 (Z.leb_gt _ _)) by lia); rewrite lookup_insert_eq;
      by destruct (Z.eqb_spec (h_hash hd) all_zeros).
  - destruct (Index.is_main_chain i), (Index.is_main_chain v); cbn in *; try done;
      rewrite lookup_insert_ne by lia; done.
Qed.

Lemma table_inv_ext s s' g :
  f_index_map s' = f_index_map s -> f_index_size s' = f_index_size s ->
  m_index_capacity (f_metadata s') = m_index_capacity (f_metadata s) ->
  m_block_index_occupancy (f_metadata s') = m_block_index_occupancy (f_metadata s) ->
  get_disk_header s' 0 = Ok g -> (forall p, bucket_key s' p = bucket_key s p) ->
  table_inv s g -> table_inv s' g.
Proof.
  intros Em Es Ec Eo Eg Ek [I1 I2 I3 I4 I5 I6 I7 I8].
  assert (Eb : forall p, bucket s' p = bucket s p) by (intros; unfold bucket; by rewrite Em).
  assert (Ep : forall h i, probe s' h i = probe s h i) by (intros; unfold probe; by rewrite Es).
  split; rewrite ?Es, ?Ec, ?Eo; try done.
  - intros p. by rewrite Eb.
  - intros p. rewrite Eb, Ek. auto.
  - intros p k. rewrite Eb, Ek. intros Hb Hk. destruct (I6 p k Hb Hk) as (i & Hi & Hp & Hj).
    exists i. unfold table_size. rewrite Es, Ep. split_and!; try done.
    intros j. rewrite Ep, Eb, Ek. auto.
  - unfold occupied. by rewrite Em.
Qed.

Lemma write_slot_inv s g i hd :
  table_inv s g -> 0 < i < 2 ^ 32 -> has_slot s i -> h_hash hd <> 0 ->
  (forall p, bucket s p = i -> bucket_key s p = Some (h_hash hd)) ->
  table_inv (write_slot i hd s) g /\
  (forall k d, k <> h_hash hd -> stored (write_slot i hd s) k d <-> stored s k d).
Proof.
  intros Hinv Hi Hs Hh Hfree.
  assert (Hget : forall v, 0 <= v < 2 ^ 32 -> get_disk_header (write_slot i hd s) v =
            if decide (v = i) then Ok hd else get_disk_header s v)
    by (intros; apply get_disk_header_write_slot; try done; lia).
  assert (Eb : forall p, bucket (write_slot i hd s) p = bucket s p)
    by (intros; unfold bucket, write_slot; by destruct (Index.is_main_chain i)).
  pose proof (ti_u32 _ _ Hinv) as Hu. split.
  - eapply table_inv_ext; try exact Hinv;
      try (unfold write_slot; by destruct (Index.is_main_chain i)).
    + rewrite Hget by lia. rewrite decide_False by lia. apply (ti_genesis _ _ Hinv).
    + intros p. specialize (Hu p). unfold bucket_key at 1. rewrite Eb, Hget by lia.
      case_decide as E; [|done]. by rewrite (Hfree p E).
  - intros k d Hk. unfold stored. split; intros (v & hd' & Hv & Hg & Hh' & Hd).
    + exists v, hd'. assert (Hvu : 0 <= v < 2 ^ 32).
      { destruct Hv as [->|[p <-]]; [lia|]. rewrite Eb. apply Hu. }
      rewrite Hget in Hg by done. case_decide as E; [congruence|]. split_and!; try done.
      destruct Hv as [->|[p <-]]; [by left|right]. exists p. by rewrite Eb.
    + exists v, hd'. assert (Hvu : 0 <= v < 2 ^ 32).
      { destruct Hv as [->|[p <-]]; [lia|]. apply Hu. }
      rewrite Hget by done. case_decide as E.
      { destruct Hv as [->|[p Hp]]; [lia|]. rewrite E in Hp.
        pose proof (Hfree p Hp) as (hd2 & Hg2 & Hk2)%bucket_key_Some.
        rewrite Hp, <-E, Hg in Hg2. congruence. }
      split_and!; try done. destruct Hv as [->|[p <-]]; [by left|right]. exists p. by rewrite Eb.
Qed.

(** A bucket found for [h] was empty or held [h]. *)
Lemma found_ptr s g h p b :
  table_inv s g -> h <> h_hash g -> found s h 0 (Ok b) ->
  (b = Empty p -> bucket s p = 0) /\
  (forall d, b = Occupied p d -> bucket s p <> 0 /\ bucket_key s p = Some h) /\
  ((exists d, b = Occupied p d) \/ b = Empty p -> exists j, (j < table_size s)%nat /\
     p = probe s h j /\ forall l, (l < j)%nat ->
       bucket s (probe s h l) <> 0 /\ bucket_key s (probe s h l) <> Some h).
Proof.
  intros Hinv Hg Hf. inversion Hf as [j hd Hj Hl Hgd He Eb|j Hj Hl Hz He Eb]; subst.
  - split_and!; [done| |].
    + intros d [= <- _]. split; [|apply bucket_key_Some; by exists hd].
      intros Hz. rewrite Hz, (ti_genesis _ _ Hinv) in Hgd. congruence.
    + intros [[d [= <- _]]|]; [|done]. exists j. split_and!; [lia|done|]. intros l Hll. apply Hl. lia.
  - split_and!; [by intros [= <-]|done|].
    intros [[d ?]|[= <-]]; [done|]. exists j. split_and!; [lia|done|]. intros l Hll. apply Hl. lia.
Qed.

Lemma write_bucket_inv s g h i p b n :
  table_inv s g -> hash_map_find_pos s h = Ok b -> h <> h_hash g -> 0 < i < 2 ^ 32 ->
  (exists hd, get_disk_header s i = Ok hd /\ h_hash hd = h) ->
  (exists d, b = Occupied p d) /\ n = m_block_index_occupancy (f_metadata s) \/
  b = Empty p /\ n = m_block_index_occupancy (f_metadata s) + 1 ->
  n < f_index_size s ->
  let s' := set_metadata (set_occupancy n (f_metadata s)) (write_bucket p i s) in
  table_inv s' g /\ bucket s' p = i /\
  (forall q, q <> p -> bucket s' q = bucket s q) /\
  (bucket s p = 0 \/ bucket_key s p = Some h).
Proof.
  intros Hinv Hfind Hg Hi (hd & Hhd & Hh) Hb Hn s'.
  pose proof (find_pos_found _ _ h Hinv) as Hf. rewrite Hfind in Hf.
  destruct (found_ptr _ _ _ p _ Hinv Hg Hf) as (Hemp & Hocc & Hpos).
  destruct Hpos as (j & Hj & Hp & Hl); [destruct Hb as [[? _]|[? _]]; by auto|].
  assert (Ebp : bucket s' p = i) by (unfold bucket; cbn; by rewrite lookup_insert_eq).
  assert (Ebq : forall q, q <> p -> bucket s' q = bucket s q)
    by (intros; unfold bucket; cbn; by rewrite lookup_insert_ne).
  assert (Eg : forall v, get_disk_header s' v = get_disk_header s v) by done.
  assert (Ekp : bucket_key s' p = Some h) by (unfold bucket_key; by rewrite Ebp, Eg, Hhd, Hh).
  assert (Ekq : forall q, q <> p -> bucket_key s' q = bucket_key s q)
    by (intros; unfold bucket_key; by rewrite Ebq, Eg).
  assert (Hold : bucket s p = 0 \/ bucket_key s p = Some h).
  { destruct Hb as [[[d ->] _]|[-> _]]; [right; by apply (Hocc d)|left; by apply Hemp]. }
  split_and!; try done. pose proof Hinv as [I1 I2 I3 I4 I5 I6 I7 I8]. split; try done.
  - intros q. destruct (decide (q = p)) as [->|]; [lia|rewrite Ebq by done; done].
  - intros q. destruct (decide (q = p)) as [->|]; [by exists h|rewrite Ebq, Ekq by done; auto].
  - intros q k Hq Hk. destruct (decide (q = p)) as [->|Hqp].
    + rewrite Ekp in Hk. injection Hk as <-. exists j. split_and!; [done|done|].
      intros l Hll. specialize (Hl l Hll).
      assert (Hlp : probe s h l <> p).
      { rewrite Hp. intros E. apply (probe_inj _ _ _ _ _ Hinv) in E; lia. }
      change (probe s' h l) with (probe s h l). by rewrite Ebq, Ekq.
    + rewrite Ebq in Hq by done. rewrite Ekq in Hk by done.
      destruct (I6 q k Hq Hk) as (i' & Hi' & Hq' & Hbefore). exists i'. split_and!; [done|done|].
      intros l Hll. change (probe s' k l) with (probe s k l).
      destruct (decide (probe s k l = p)) as [E|E]; [|rewrite Ebq, Ekq by done; auto].
      rewrite E, Ebp, Ekp. split; [lia|]. intros [= <-].
      destruct (found_bucket _ _ _ _ _ Hinv Hf Hq Hk) as [d [= ->]].
      destruct Hb as [[[d' [= ? ?]] _]|[? _]]; done.
  - assert (Eocc : occupied s' = <[p := i]> (occupied s)).
    { unfold occupied. cbn. apply map_filter_insert_True. cbn. lia. }
    cbn. rewrite Eocc. destruct Hb as [[[d ->] ->]|[-> ->]].
    + destruct (Hocc d eq_refl) as [Hnz _].
      rewrite map_size_insert_Some; [done|]. unfold bucket in Hnz.
      destruct (f_index_map s !! p) as [v|] eqn:Ev; [|done]. exists v.
      by apply map_lookup_filter_Some.
    + specialize (Hemp eq_refl). rewrite map_size_insert_None; [rewrite Nat2Z.inj_succ, I7; lia|].
      apply map_lookup_filter_None. right. intros v Hv. cbn. unfold bucket in Hemp.
      rewrite Hv in Hemp. cbn in Hemp. by intros [].
Qed.
End Table.
