(* ===== verification/FlatRefine.v ===== *)
(** The flat-file store implements a map from block hashes to headers and a
    map from heights to headers, and the file of accumulators returns what
    was saved as long as it is not truncated. *)

From stdpp Require Import base gmap list sets fin_maps.
From Stdlib Require Import ZArith Lia.
From S2P Require Import Prelude Bitcoin Errors Codec ChainStore FlatStore FlatFacts.

Section Refinement.
Context `{HeaderLib, FlatLib} (entries : Lru -> gmap BlockHash DiskBlockHeader) `{!LruOk entries}.
Implicit Types s : FlatChainStore.

#[local] Opaque index_hash_fn.

(** The invariant of the store: the index invariant, fork slots below the
    fork count, and a cache that agrees with the files. *)
Record flat_inv s (g : HashedDiskHeader) : Prop := {
  fi_table : table_inv s g;
  fi_forks : 0 <= m_fork_count (f_metadata s) /\
    forall p, bucket s p <> 0 -> Index.is_main_chain (bucket s p) = false ->
      Index.index (bucket s p) < m_fork_count (f_metadata s);
  fi_cache : forall h d, entries (f_cache s) !! h = Some d -> get_header_by_hash s h = Ok (Some d)
}.

(** Two stores with the same headers by hash. *)
Lemma lookup_of_stored s s' g g' h :
  table_inv s g -> table_inv s' g' -> (forall d, stored s' h d <-> stored s h d) ->
  get_header_by_hash s' h = get_header_by_hash s h.
Proof.
  intros Hi Hi' Hs.
  destruct (get_header_by_hash_stored _ _ h Hi) as [[o Ho] Hst].
  destruct (get_header_by_hash_stored _ _ h Hi') as [[o' Ho'] Hst'].
  rewrite Ho, Ho'. f_equal. destruct o as [d|], o' as [d'|]; [..|done].
  - assert (stored s h d') as E%Hst by (apply Hs, Hst', Ho'). congruence.
  - assert (stored s' h d) as E%Hst' by (apply Hs, Hst, Ho). congruence.
  - assert (stored s h d') as E%Hst by (apply Hs, Hst', Ho'). congruence.
Qed.

Lemma find_pos_loop_set_cache s c h mask n : forall hash,
  find_pos_loop (set_cache c s) n h mask hash = find_pos_loop s n h mask hash.
Proof.
  induction n as [|n IH]; intros hash; cbn [find_pos_loop]; [done|].
  change (f_index_map (set_cache c s)) with (f_index_map s).
  change (get_disk_header (set_cache c s)) with (get_disk_header s).
  destruct (get_disk_header s _) as [hd| | |]; cbn; try done. by rewrite IH.
Qed.

Lemma get_header_set_cache s c h : get_header_by_hash (set_cache c s) h = get_header_by_hash s h.
Proof.
  unfold get_header_by_hash, get_index_for_hash, hash_map_find_pos. cbn.
  destruct (u64_sub (f_index_size s) 1) as [mask| | |]; cbn; try done.
  by rewrite find_pos_loop_set_cache.
Qed.

(** What [add_index_entry] does to a well-formed store. *)
Lemma add_index_entry_spec s s' g h i hd :
  table_inv s g -> get_disk_header s i = Ok hd -> h_hash hd = h -> h <> h_hash g ->
  0 < i < 2 ^ 32 -> add_index_entry h i s = (Ok tt, s') ->
  table_inv s' g /\ stored s' h (h_header hd) /\
  (forall k d, k <> h -> stored s' k d <-> stored s k d) /\
  (forall p, bucket s' p = i \/ bucket s' p = bucket s p) /\
  (exists n p, s' = set_metadata (set_occupancy n (f_metadata s)) (write_bucket p i s)).
Proof.
  intros Hinv Hhd Hh Hg Hi Hadd. unfold add_index_entry in Hadd.
  apply stm_bind_ok in Hadd as (m & s0 & [= <- <-] & Hadd).
  destruct (Z.leb_spec (m_index_capacity (f_metadata s)) (m_block_index_occupancy (f_metadata s) + 1))
    as [|Hroom]; [done|]. rewrite (ti_capacity _ _ Hinv) in Hroom.
  apply stm_bind_ok in Hadd as (is_new & s1 & Hset & Hadd). unfold set_index_for_hash in Hset.
  apply stm_bind_ok in Hset as (b & s2 & Hfind & Hset). injection Hfind as Hfind <-.
  assert (Hw : exists p n, s' = set_metadata (set_occupancy n (f_metadata s)) (write_bucket p i s) /\
     n < f_index_size s /\
     ((exists d, b = Occupied p d) /\ n = m_block_index_occupancy (f_metadata s) \/
      b = Empty p /\ n = m_block_index_occupancy (f_metadata s) + 1)).
  { destruct b as [p|p d]; apply stm_bind_ok in Hset as (? & ? & [= <- <-] & [= <- <-]);
      injection Hadd as <-; exists p.
    - eexists. split; [reflexivity|]. split; [lia|by right].
    - exists (m_block_index_occupancy (f_metadata s)).
      split; [by destruct s as [? [] ? ? ? ? ? ?]|]. split; [apply (ti_room _ _ Hinv)|left].
      split; [by exists d|done]. }
  destruct Hw as (p & n & -> & Hn & Hb).
  destruct (write_bucket_inv s g h i p b n Hinv Hfind Hg Hi ltac:(by exists hd) Hb Hn)
    as (Hinv' & Hp & Hq & Hold).
  set (s' := set_metadata _ _) in *.
  assert (Eg : forall v, get_disk_header s' v = get_disk_header s v) by done.
  split_and!; [done| | | |by exists n, p].
  - exists i, hd. split_and!; try done. right. by exists p.
  - intros k d Hk. unfold stored. setoid_rewrite Eg. split; intros (v & hd' & Hv & Hv' & Hh' & Hd);
      exists v, hd'; split_and!; try done; destruct Hv as [->|[q <-]]; try (by left).
    + destruct (decide (q = p)) as [->|Hqp]; [rewrite Hp in Hv'; congruence|].
      right. exists q. by rewrite Hq.
    + destruct (decide (q = p)) as [->|Hqp]; [|right; exists q; by apply Hq].
      destruct Hold as [Hz|(hd2 & Hg2 & Hk2)%bucket_key_Some]; [by left|congruence].
  - intros q. destruct (decide (q = p)) as [->|]; [by left|right; by apply Hq].
Qed.

(** Reading through the cache is reading the files. *)
Lemma flat_get_header_lookup s g h :
  flat_inv s g -> exists c, flat_get_header h s = (get_header_by_hash s h, set_cache c s) /\
    flat_inv (set_cache c s) g.
Proof.
  intros Hinv. unfold flat_get_header. destruct (lru_get h (f_cache s)) as [o c] eqn:El.
  destruct (lru_get_entries h (f_cache s)) as [E1 E2]. rewrite El in E1, E2. cbn in E1, E2.
  assert (Hkeep : forall c', (forall k d, entries c' !! k = Some d ->
             get_header_by_hash s k = Ok (Some d)) -> flat_inv (set_cache c' s) g).
  { intros c' Hc'. destruct Hinv as [I1 I2 I3]. split; [|exact I2|intros; rewrite get_header_set_cache; auto].
    by apply (table_inv_ext s); try apply I1. }
  assert (Hc : flat_inv (set_cache c s) g).
  { apply Hkeep. intros k d. rewrite E2. apply (fi_cache _ _ Hinv). }
  destruct o as [d|].
  - exists c. split; [|done]. by rewrite (fi_cache _ _ Hinv h d).
  - rewrite get_header_set_cache.
    destruct (get_header_by_hash_stored _ _ h (fi_table _ _ Hinv)) as [[o Ho] _]. rewrite Ho.
    destruct o as [d|]; [|by exists c]. exists (lru_put h d c). split; [done|].
    apply Hkeep. intros k d' Hk. destruct (decide (k = h)) as [->|Hne].
    + rewrite lru_put_same in Hk. congruence.
    + apply lru_put_other in Hk; [|done]. rewrite E2 in Hk. by apply (fi_cache _ _ Hinv).
Qed.

Lemma flat_get_header_fst s g h : flat_inv s g -> (flat_get_header h s).1 = get_header_by_hash s h.
Proof. intros Hinv. by destruct (flat_get_header_lookup _ _ h Hinv) as (c & -> & _). Qed.

Lemma warn_if_full_ok w m s s' : warn_if_full w m s = (Ok tt, s') <-> m s = (Ok tt, s').
Proof.
  unfold warn_if_full. destruct (m s) as [o s1]. destruct o as [|e| |]; try done.
  by destruct e.
Qed.

Lemma save_header_main s s1 d n :
  is_main d = true -> dh_height d = Some n -> 0 <= n -> flat_save_header d s = (Ok tt, s1) ->
  n < 2 ^ 31 /\ has_slot s n /\ Index.is_main_chain n = true /\ Index.index n = n /\
  s1 = write_slot n (mkHashed d (dh_hash d) 0 0) (set_cache (lru_put (dh_hash d) d (f_cache s)) s).
Proof.
  intros Hm Hd Hn Hs. unfold flat_save_header in Hs.
  apply stm_bind_ok in Hs as (? & s0 & [= <- <-] & Hs). apply warn_if_full_ok in Hs.
  assert (Hw : write_header_to_storage d (set_cache (lru_put (dh_hash d) d (f_cache s)) s)
               = (Ok tt, s1)) by (by destruct d). clear Hs.
  unfold write_header_to_storage in Hw. rewrite Hd in Hw.
  apply stm_bind_ok in Hw as (h & s2 & [= -> <-] & Hw).
  apply stm_bind_ok in Hw as (i & s2 & Hi & Hw). injection Hi as Hi <-.
  apply index_new_ok in Hi as (-> & Hlt & Hmain & Hidx); [|done].
  apply stm_bind_ok in Hw as (o & s2 & Hg & Hw). injection Hg as Hg <-. injection Hw as <-.
  apply get_disk_header_mut_ok in Hg as [Hslot _]. done.
Qed.

Lemma main_index_lt v : 0 <= v < 2 ^ 31 -> Index.is_main_chain v = true /\ Index.index v = v.
Proof.
  intros Hv. destruct (index_new_ok v v) as (_ & _ & ? & ?); [lia| |done].
  unfold Index.new, Index.FORK_BIT. destruct (Z.leb_spec 0x80000000 v); [lia|done].
Qed.

Lemma header_by_height_update s s1 n hd m :
  (forall v, 0 <= v < 2 ^ 32 -> get_disk_header s1 v =
     if decide (v = n) then Ok hd else get_disk_header s v) ->
  0 <= n < 2 ^ 31 -> 0 <= m ->
  flat_header_by_height m s1 =
  if decide (m = n) then Ok (Some (h_header hd)) else flat_header_by_height m s.
Proof.
  intros Hget Hn Hm. unfold flat_header_by_height.
  destruct (Index.new m) as [i|e| |] eqn:Hi; cbn [mbind outcome_bind].
  - apply index_new_ok in Hi as (-> & Hlt & _ & _); [|done]. rewrite Hget by lia. by case_decide.
  - rewrite decide_False; [done|]. intros ->. unfold Index.new, Index.FORK_BIT in Hi.
    destruct (Z.leb_spec 0x80000000 n); [lia|done].
  - unfold Index.new in Hi. by destruct (_ <=? _).
  - unfold Index.new in Hi. by destruct (_ <=? _).
Qed.

(** Writing a slot and indexing it: the step both kinds of header share. *)
Lemma insert_slot_spec s s2 g i hd :
  table_inv s g -> 0 < i < 2 ^ 32 -> has_slot s i -> h_hash hd <> 0 -> h_hash hd <> h_hash g ->
  (forall p, bucket s p = i -> bucket_key s p = Some (h_hash hd)) ->
  add_index_entry (h_hash hd) i (write_slot i hd s) = (Ok tt, s2) ->
  table_inv s2 g /\
  (forall k, get_header_by_hash s2 k =
     if decide (k = h_hash hd) then Ok (Some (h_header hd)) else get_header_by_hash s k) /\
  (forall v, 0 <= v < 2 ^ 32 -> get_disk_header s2 v =
     if decide (v = i) then Ok hd else get_disk_header s v) /\
  (forall p, bucket s2 p = i \/ bucket s2 p = bucket s p) /\
  f_cache s2 = f_cache s /\ m_fork_count (f_metadata s2) = m_fork_count (f_metadata s) /\
  f_acc_file s2 = f_acc_file s.
Proof.
  intros Ht Hi Hslot Hh Hg Hfree Hadd.
  destruct (write_slot_inv s g i hd) as [Ht1 Hst1]; try done.
  assert (Hget : forall v, 0 <= v < 2 ^ 32 -> get_disk_header (write_slot i hd s) v =
            if decide (v = i) then Ok hd else get_disk_header s v).
  { intros v Hv. apply get_disk_header_write_slot; done || lia. }
  destruct (add_index_entry_spec _ s2 g (h_hash hd) i hd Ht1) as (Ht2 & Hst & Hother & Hb & Hs2);
    try done; [rewrite Hget by lia; by rewrite decide_True|].
  split_and!; [done| | | | | |].
  - intros k. case_decide as E.
    + subst k. by apply (get_header_by_hash_stored _ _ _ Ht2).
    + apply (lookup_of_stored _ _ g g); [done|done|]. intros d'. by rewrite Hother, Hst1.
  - destruct Hs2 as (n & p & ->). exact Hget.
  - intros p. destruct (Hb p) as [E|E]; [by left|right]. rewrite E.
    unfold bucket, write_slot. by destruct (Index.is_main_chain i).
  - destruct Hs2 as (n & p & ->). unfold write_slot. by destruct (Index.is_main_chain i).
  - destruct Hs2 as (n & p & ->). unfold write_slot. by destruct (Index.is_main_chain i).
  - destruct Hs2 as (n & p & ->). unfold write_slot. by destruct (Index.is_main_chain i).
Qed.

(** The cache after saving [d] agrees with the files that now hold [d]. *)
Lemma cache_after_put s s2 g d :
  flat_inv s g -> f_cache s2 = lru_put (dh_hash d) d (f_cache s) ->
  (forall k, get_header_by_hash s2 k =
     if decide (k = dh_hash d) then Ok (Some d) else get_header_by_hash s k) ->
  forall h d', entries (f_cache s2) !! h = Some d' -> get_header_by_hash s2 h = Ok (Some d').
Proof.
  intros Hinv Hc Hlook h d'. rewrite Hc, Hlook. case_decide as E.
  - subst h. rewrite lru_put_same. congruence.
  - intros Hk. apply lru_put_other in Hk; [|done]. by apply (fi_cache _ _ Hinv).
Qed.

(** Saving and indexing a best-chain header. *)
Lemma save_main_inserts s s1 s2 g d n :
  flat_inv s g -> is_main d = true -> dh_height d = Some n -> 0 < n ->
  dh_hash d <> 0 -> dh_hash d <> h_hash g ->
  (forall p, bucket s p = n -> bucket_key s p = Some (dh_hash d)) ->
  flat_save_header d s = (Ok tt, s1) -> flat_update_block_index n (dh_hash d) s1 = (Ok tt, s2) ->
  flat_inv s2 g /\ n < 2 ^ 31 /\
  (forall k, get_header_by_hash s2 k =
     if decide (k = dh_hash d) then Ok (Some d) else get_header_by_hash s k) /\
  (forall v, 0 <= v < 2 ^ 32 -> get_disk_header s2 v =
     if decide (v = n) then Ok (mkHashed d (dh_hash d) 0 0) else get_disk_header s v) /\
  f_acc_file s2 = f_acc_file s.
Proof.
  intros Hinv Hm Hd Hn Hh Hg Hfree Hs Hu.
  apply (save_header_main _ _ _ n) in Hs as (Hlt & Hslot & Hmain & Hidx & ->); [|done|done|lia].
  unfold flat_update_block_index in Hu. apply stm_bind_ok in Hu as (i & s3 & Hi & Hu).
  injection Hi as Hi <-. apply index_new_ok in Hi as (-> & _ & _ & _); [|lia].
  apply warn_if_full_ok in Hu. set (s0 := set_cache _ s) in *.
  assert (Ht0 : table_inv s0 g) by (by apply (table_inv_ext s); try apply Hinv).
  apply (insert_slot_spec s0 s2 g) in Hu as (Ht2 & Hlook & Hget & Hb & Hc & Hfc & Hacc);
    try done; [|lia]. cbn [h_hash h_header] in Hlook.
  assert (Hlook' : forall k, get_header_by_hash s2 k =
            if decide (k = dh_hash d) then Ok (Some d) else get_header_by_hash s k)
    by (intros k; rewrite Hlook; case_decide; [done|apply get_header_set_cache]).
  split_and!; try done.
  split; [done| |exact (cache_after_put s s2 g d Hinv Hc Hlook')].
  destruct Hinv as [_ [Hf0 Hf] _]. rewrite Hfc. split; [done|]. intros q Hq Hmq.
  destruct (Hb q) as [E|E]; rewrite E in *; [congruence|by apply Hf].
Qed.

(** [save_fork_block], as the shared step on the next fork slot. *)
Lemma save_header_fork s s1 d :
  is_main d = false -> 0 <= m_fork_count (f_metadata s) -> flat_save_header d s = (Ok tt, s1) ->
  let fc := m_fork_count (f_metadata s) in let i := fc + 2 ^ 31 in
  let s0 := set_cache (lru_put (dh_hash d) d (f_cache s)) s in
  fc < 2 ^ 31 /\ Index.is_main_chain i = false /\ Index.index i = fc /\ has_slot s i /\
  exists s2, add_index_entry (dh_hash d) i (write_slot i (mkHashed d (dh_hash d) 0 0) s0)
             = (Ok tt, s2) /\
    s1 = set_metadata (set_fork_count (m_fork_count (f_metadata s2) + 1) (f_metadata s2)) s2.
Proof.
  intros Hm Hf0 Hs fc i s0. unfold flat_save_header in Hs.
  apply stm_bind_ok in Hs as (? & s2 & [= <- <-] & Hs). apply warn_if_full_ok in Hs.
  assert (Hw : save_fork_block d s0 = (Ok tt, s1)) by (by destruct d). clear Hs.
  unfold save_fork_block in Hw. apply stm_bind_ok in Hw as (fc' & s2 & [= <- <-] & Hw).
  apply stm_bind_ok in Hw as (j & s2 & Hi & Hw). injection Hi as Hi <-.
  pose proof Hi as Hi'. apply index_new_fork_ok in Hi as (-> & Hlt & Hmain & Hidx); [|done].
  apply stm_bind_ok in Hw as (o & s2 & Hslot & Hw). injection Hslot as Hslot <-.
  apply get_disk_header_mut_ok in Hslot as [Hslot _].
  apply stm_bind_ok in Hw as (? & s2 & [= <- <-] & Hw).
  apply stm_bind_ok in Hw as (i2 & s2 & Hi2 & Hw). injection Hi2 as Hi2 <-.
  rewrite Hi' in Hi2. injection Hi2 as <-.
  apply stm_bind_ok in Hw as ([] & s3 & Hadd & Hw). injection Hw as <-.
  split_and!; try done. by exists s3.
Qed.

(** Saving a fork header. *)
Lemma save_fork_inserts s s1 g d :
  flat_inv s g -> is_main d = false -> dh_hash d <> 0 -> dh_hash d <> h_hash g ->
  flat_save_header d s = (Ok tt, s1) ->
  flat_inv s1 g /\
  (forall k, get_header_by_hash s1 k =
     if decide (k = dh_hash d) then Ok (Some d) else get_header_by_hash s k) /\
  (forall v, 0 <= v < 2 ^ 31 -> get_disk_header s1 v = get_disk_header s v) /\
  f_acc_file s1 = f_acc_file s.
Proof.
  intros Hinv Hm Hh Hg Hs. pose proof Hinv as [Ht [Hf0 Hf] Hc].
  apply save_header_fork in Hs as (Hlt & Hmain & Hidx & Hslot & s2 & Hadd & ->); [|done..].
  set (fc := m_fork_count (f_metadata s)) in *. set (s0 := set_cache _ s) in *.
  assert (Ht0 : table_inv s0 g) by (by apply (table_inv_ext s); try apply Ht).
  apply (insert_slot_spec s0 s2 g) in Hadd as (Ht2 & Hlook & Hget & Hb & Hca & Hfc & Hacc);
    try done; [|lia|].
  2:{ intros p Hp. exfalso. change (bucket s0 p) with (bucket s p) in Hp.
      specialize (Hf p). rewrite Hp, Hidx in Hf. specialize (Hf ltac:(lia) Hmain). lia. }
  change (m_fork_count (f_metadata s0)) with fc in Hfc. cbn [h_hash h_header] in Hlook.
  set (s3 := set_metadata _ s2).
  assert (Ht3 : table_inv s3 g) by (by apply (table_inv_ext s2); try apply Ht2).
  assert (Hlook' : forall k, get_header_by_hash s3 k =
            if decide (k = dh_hash d) then Ok (Some d) else get_header_by_hash s k).
  { intros k. rewrite (lookup_of_stored s2 s3 g g) by done. rewrite Hlook.
    case_decide; [done|apply get_header_set_cache]. }
  split_and!; try done.
  - split; [done| |exact (cache_after_put s s3 g d Hinv Hca Hlook')].
    cbn. rewrite Hfc. split; [lia|]. intros q Hq Hmq. change (bucket s3 q) with (bucket s2 q) in *.
    destruct (Hb q) as [E|E]; rewrite E in *; [lia|]. specialize (Hf q Hq Hmq).
    change (bucket s0 q) with (bucket s q). lia.
  - intros v Hv. change (get_disk_header s3 v) with (get_disk_header s2 v).
    rewrite Hget, decide_False by lia. done.
Qed.

(** * A fresh store *)

(** An index without entries. *)
Lemma table_inv_all_empty s g k :
  (forall p, bucket s p = 0) -> 0 <= k <= 32 -> f_index_size s = 2 ^ k ->
  m_index_capacity (f_metadata s) = f_index_size s -> get_disk_header s 0 = Ok g ->
  m_block_index_occupancy (f_metadata s) = 0 -> table_inv s g.
Proof.
  intros Hb Hk Hs Hc Hg Ho. assert (Hpos : 1 <= 2 ^ k) by (apply (Z.pow_le_mono_r 2 0 k); lia).
  split; try done.
  - by exists k.
  - intros p. rewrite Hb. lia.
  - intros p Hp. by rewrite Hb in Hp.
  - intros p h Hp. by rewrite Hb in Hp.
  - rewrite Ho. assert (occupied s = ∅) as ->; [|done].
    apply map_eq. intros p. rewrite lookup_empty. apply map_lookup_filter_None. right.
    intros v Hv. specialize (Hb p). unfold bucket in Hb. rewrite Hv in Hb. cbn in *. by intros [].
  - lia.
Qed.

Lemma flat_new_fresh cfg s :
  flat_new cfg (mkDataDir None ∅ ∅ ∅ []) = Ok s ->
  exists n, sized (block_index_size cfg) 10000000 = Ok n /\ f_index_size s = n /\
    m_index_capacity (f_metadata s) = n /\ f_index_map s = ∅ /\ f_headers s = ∅ /\
    f_forks s = ∅ /\ m_block_index_occupancy (f_metadata s) = 0 /\
    m_fork_count (f_metadata s) = 0 /\ exists c, f_cache s = lru_new c.
Proof.
  unfold flat_new, create_chain_store. cbn [maybe_migrate d_metadata fst].
  intros Hs. apply obind_ok in Hs as (s0 & Hc & Hs). injection Hs as <-.
  apply obind_ok in Hc as (n & Hn & Hc). apply obind_ok in Hc as (hs & _ & Hc).
  apply obind_ok in Hc as (fs & _ & Hc). injection Hc as <-.
  exists n. cbn. split_and!; try done; try apply map_filter_empty. by eexists.
Qed.

(** Indexing the genesis block leaves the index empty. *)
Lemma index_genesis s s' g h :
  table_inv s g -> (forall p, bucket s p = 0) -> h_hash g = h ->
  flat_update_block_index 0 h s = (Ok tt, s') ->
  (forall p, bucket s' p = 0) /\ f_index_size s' = f_index_size s /\
  f_metadata s' = f_metadata s /\ f_cache s' = f_cache s /\
  (forall v, get_disk_header s' v = get_disk_header s v).
Proof.
  intros Ht Hb Hh Hu. unfold flat_update_block_index in Hu.
  apply stm_bind_ok in Hu as (i & s0 & [= <- <-] & Hu). apply warn_if_full_ok in Hu.
  unfold add_index_entry in Hu. apply stm_bind_ok in Hu as (m & s0 & [= <- <-] & Hu).
  destruct (_ <=? _); [done|]. apply stm_bind_ok in Hu as (nw & s1 & Hset & Hu).
  unfold set_index_for_hash in Hset. apply stm_bind_ok in Hset as (b & s2 & Hf & Hset).
  injection Hf as Hf <-. pose proof (find_pos_found _ _ h Ht) as Hfound. rewrite Hf in Hfound.
  inversion Hfound as [j hd Hj Hl Hg He|j Hj Hl Hz He]; subst b.
  - apply stm_bind_ok in Hset as (? & s2 & [= <- <-] & [= <- <-]). injection Hu as <-.
    split_and!; try done. intros p. unfold bucket. cbn.
    destruct (decide (p = probe s h j)) as [->|]; [by rewrite lookup_insert_eq|].
    rewrite lookup_insert_ne by done. apply Hb.
  - exfalso. apply He. unfold bucket_key. by rewrite Hz, (ti_genesis _ _ Ht), Hh.
Qed.

(** A fresh store after the genesis block was saved. *)
Lemma fresh_store_genesis cfg gh n s s1 s2 :
  block_index_size cfg = Some n -> 1 <= n <= 2 ^ 32 ->
  flat_new cfg (mkDataDir None ∅ ∅ ∅ []) = Ok s -> block_hash gh <> 0 ->
  flat_save_header (FullyValid gh 0) s = (Ok tt, s1) ->
  flat_update_block_index 0 (block_hash gh) s1 = (Ok tt, s2) ->
  flat_inv s2 (mkHashed (FullyValid gh 0) (block_hash gh) 0 0) /\
  (forall h, get_header_by_hash s2 h =
     Ok (if decide (h = block_hash gh) then Some (FullyValid gh 0) else None)) /\
  (forall v hd, 0 <= v < 2 ^ 31 -> get_disk_header s2 v = Ok hd ->
     v = 0 /\ hd = mkHashed (FullyValid gh 0) (block_hash gh) 0 0).
Proof.
  intros Hn Hn2 Hf Hg0 Hs Hu.
  apply flat_new_fresh in Hf as (sz & Hsz & Es & Ec & Ei & Eh & Efk & Eo & Efc & (c & Ecache)).
  assert (Hpow : sz = 2 ^ Z.log2_up n /\ 0 <= Z.log2_up n <= 32).
  { rewrite Hn in Hsz. change (truncate_to_pow2 (E := FlatChainstoreError) n = Ok sz) in Hsz.
    destruct (truncate_rounds_up n Hn2) as [E _]. rewrite E in Hsz. injection Hsz as <-.
    split; [done|]. split; [apply Z.log2_up_nonneg|].
    change 32 with (Z.log2_up (2 ^ 32)). apply Z.log2_up_le_mono. lia. }
  destruct Hpow as [-> Hlog].
  apply (save_header_main _ _ _ 0) in Hs as (_ & Hslot & Hmain & Hidx & ->); [|done..].
  set (g := mkHashed _ _ _ _) in *. change (dh_hash (FullyValid gh 0)) with (block_hash gh) in *.
  set (s0 := set_cache _ s) in *.
  assert (Hgen : get_disk_header (write_slot 0 g s0) 0 = Ok g).
  { rewrite get_disk_header_write_slot by (done || lia). by rewrite decide_True. }
  assert (Hb : forall p, bucket (write_slot 0 g s0) p = 0).
  { intros p. unfold bucket, write_slot. rewrite Hmain. cbn. by rewrite Ei, lookup_empty. }
  assert (Ht1 : table_inv (write_slot 0 g s0) g).
  { apply (table_inv_all_empty _ _ (Z.log2_up n)); try done;
      unfold write_slot; rewrite Hmain; cbn; by rewrite ?Es, ?Ec, ?Eo. }
  apply (index_genesis _ _ g) in Hu as (Hb2 & Es2 & Em2 & Ec2 & Eg2); try done.
  assert (Ht2 : table_inv s2 g).
  { apply (table_inv_all_empty _ _ (Z.log2_up n)); rewrite ?Em2, ?Es2, ?Eg2; try done;
      unfold write_slot; rewrite Hmain; cbn; by rewrite ?Es, ?Ec, ?Eo. }
  assert (Hlook : forall h, get_header_by_hash s2 h =
            Ok (if decide (h = block_hash gh) then Some (FullyValid gh 0) else None)).
  { intros h. destruct (get_header_by_hash_stored _ _ h Ht2) as [[o Ho] Hst]. case_decide as E.
    - apply Hst. exists 0, g. split_and!; try done; [by left|]. by rewrite Eg2.
    - rewrite Ho. f_equal. destruct o as [d|]; [|done].
      apply Hst in Ho as (v & hd & Hv & Hg & Hh & Hd). exfalso. apply E.
      assert (v = 0) as -> by (destruct Hv as [?|[p <-]]; [done|apply Hb2]).
      rewrite Eg2, Hgen in Hg. injection Hg as <-. done. }
  assert (Hinv : flat_inv s2 g).
  { split; [done| |].
    - rewrite Em2. unfold write_slot. rewrite Hmain. cbn. rewrite Efc. split; [lia|].
      intros p Hp. by rewrite Hb2 in Hp.
    - intros h d. rewrite Ec2. unfold write_slot. rewrite Hmain. cbn. rewrite Ecache, Hlook.
      case_decide as E; [subst h; rewrite lru_put_same; congruence|].
      intros Hk. apply lru_put_other in Hk; [|done]. by rewrite lru_new_empty in Hk. }
  split_and!; try done. intros v hd Hv. rewrite Eg2, get_disk_header_write_slot by (done || lia).
  case_decide as E; [by intros [= <-]|]. unfold get_disk_header, slot_file.
  destruct (main_index_lt v Hv) as [-> _]. cbn. rewrite Eh, lookup_empty. by destruct (_ <=? _).
Qed.
End Refinement.

(** * Accumulators *)

Section Accumulators.
Context `{HeaderLib, FlatLib}.
Implicit Types s : FlatChainStore.

Lemma flat_get_header_cache h s o s1 :
  flat_get_header h s = (o, s1) -> exists c, s1 = set_cache c s.
Proof.
  unfold flat_get_header. destruct (lru_get h (f_cache s)) as [[d|] c].
  - intros [= _ <-]. by exists c.
  - destruct (get_header_by_hash (set_cache c s) h) as [[d|]| | |]; intros [= _ <-]; by eexists.
Qed.

Lemma recorded_validation_cache s o s1 :
  recorded_validation_height s = (o, s1) -> exists c, s1 = set_cache c s.
Proof.
  unfold recorded_validation_height, mbind, stm_bind. cbn.
  destruct (flat_get_header (m_validation_index (f_metadata s)) s) as [o' s2] eqn:E.
  apply flat_get_header_cache in E as [c ->].
  destruct o' as [[d|]| | |]; intros [= _ <-]; by exists c.
Qed.

(** What a successful [save_roots_for_block] does. *)
Lemma save_roots_ok roots n s s' :
  0 <= n -> flat_save_roots roots n s = (Ok tt, s') ->
  exists vi c header kept,
    recorded_validation_height s = (Ok vi, set_cache c s) /\
    get_disk_header s n = Ok header /\ n < 2 ^ 31 /\ has_slot s n /\
    kept = (if n <=? vi then set_len (Z.to_nat (acc_pos header)) (f_acc_file s)
            else f_acc_file s) /\
    Z.of_nat (length roots) <= MAX_ACCUMULATOR_SIZE /\
    s' = set_acc_file (kept ++ roots)
           (write_slot n (mkHashed (h_header header) (h_hash header)
              (wrap32 (Z.of_nat (length kept))) (wrap32 (Z.of_nat (length roots))))
              (set_acc_file kept (set_cache c s))).
Proof.
  intros Hn Hs. unfold flat_save_roots in Hs.
  apply stm_bind_ok in Hs as (i & s0 & Hi & Hs). injection Hi as Hi <-.
  apply index_new_ok in Hi as (-> & Hlt & Hmain & Hidx); [|done].
  apply stm_bind_ok in Hs as (vi & s1 & Hvi & Hs).
  pose proof (recorded_validation_cache _ _ _ Hvi) as [c ->].
  apply stm_bind_ok in Hs as (u & s2 & Htr & Hs).
  apply stm_bind_ok in Hs as (pos & s3 & Hpos & Hs). injection Hpos as Hpos <-.
  apply stm_bind_ok in Hs as (? & s3 & Hsz & Hs). injection Hsz as Hsz <-.
  apply err_if_ok in Hsz. zbool.
  apply stm_bind_ok in Hs as (o & s3 & Hslot & Hs). injection Hslot as Hslot <-.
  apply get_disk_header_mut_ok in Hslot as [Hhas ->].
  destruct ((slot_file s2 n).2 !! Index.index n) as [header|] eqn:Eslot; [|done].
  apply stm_bind_ok in Hs as (? & s3 & Hz & Hs). injection Hz as Hz <-. apply err_if_ok in Hz.
  apply stm_bind_ok in Hs as (? & s3 & Hw & Hs). injection Hw as <- <-. injection Hs as <-.
  assert (Hs2 : s2 = set_acc_file (f_acc_file s2) (set_cache c s)).
  { destruct (n <=? vi); [|injection Htr as _ <-; done].
    apply stm_bind_ok in Htr as (hd & s3 & Hhd & Htr).
    injection Hhd as _ <-. by injection Htr as _ <-. }
  assert (Hgd : get_disk_header s n = Ok header).
  { rewrite Hs2 in Hhas, Eslot. unfold get_disk_header, has_slot, slot_file in *.
    rewrite Hmain in *. cbn in *. destruct (Z.leb_spec (m_headers_file_size (f_metadata s)) (Index.index n));
      [lia|]. by rewrite Eslot, Hz. }
  exists vi, c, header, (f_acc_file s2). split_and!; try done.
  - rewrite Hs2 in Hhas. exact Hhas.
  - destruct (n <=? vi); [|by injection Htr as _ <-].
    apply stm_bind_ok in Htr as (hd & s3 & Hhd & Htr). injection Hhd as Hhd <-.
    change (get_disk_header (set_cache c s) n) with (get_disk_header s n) in Hhd.
    rewrite Hgd in Hhd. injection Hhd as <-. by injection Htr as _ <-.
  - rewrite <-Hs2, Hpos. unfold write_slot. by rewrite Hmain.
Qed.

Lemma load_roots_ok m s r :
  0 <= m -> flat_load_roots m s = Ok (Some r) <->
  exists header, m < 2 ^ 31 /\ get_disk_header s m = Ok header /\ acc_len header <> 0 /\
    r = take (Z.to_nat (acc_len header)) (drop (Z.to_nat (acc_pos header)) (f_acc_file s)) /\
    length r = Z.to_nat (acc_len header).
Proof.
  intros Hm. unfold flat_load_roots. split.
  - intros Hl. apply obind_ok in Hl as (i & Hi & Hl).
    apply index_new_ok in Hi as (-> & Hlt & _ & _); [|done].
    apply obind_ok in Hl as (header & Hg & Hl). exists header.
    destruct (Z.eqb_spec (acc_len header) 0); [done|].
    destruct (Nat.eqb_spec (length (take (Z.to_nat (acc_len header))
      (drop (Z.to_nat (acc_pos header)) (f_acc_file s)))) (Z.to_nat (acc_len header))) as [E|E];
      [|done]. injection Hl as <-. done.
  - intros (header & Hlt & Hg & Hne & -> & Hlen). unfold Index.new, Index.FORK_BIT.
    destruct (Z.leb_spec 0x80000000 m); [lia|]. cbn. rewrite Hg. cbn.
    destruct (Z.eqb_spec (acc_len header) 0); [done|].
    by rewrite (proj2 (Nat.eqb_eq _ _) Hlen).
Qed.

(** An accumulator saved above the recorded validation index is read back byte for byte
    at its height, and the accumulators of all other heights are still read back as
    before. *)
Theorem roots_roundtrip (roots : list Z) (n vi : Z) s s'
  (Hn : 0 <= n) (Hr : roots <> []) (Hlen : Z.of_nat (length (f_acc_file s)) < 2 ^ 32)
  (Hvi : (recorded_validation_height s).1 = Ok vi) (Hlt : vi < n)
  (Hs : flat_save_roots roots n s = (Ok tt, s')) :
  flat_load_roots n s' = Ok (Some roots) /\
  forall m r, 0 <= m -> m <> n -> flat_load_roots m s = Ok (Some r) ->
    flat_load_roots m s' = Ok (Some r).
Proof.
  apply save_roots_ok in Hs as (vi' & c & header & kept & Hrec & Hg & Hn31 & Hslot & Hk & Hsz & Es);
    [|done]. rewrite Hrec in Hvi. injection Hvi as ->.
  destruct (Z.leb_spec n vi); [lia|]. subst kept. unfold MAX_ACCUMULATOR_SIZE in Hsz.
  assert (Hhash : h_hash header <> 0).
  { unfold get_disk_header in Hg. destruct (slot_file s n) as [a f]. destruct (_ <=? _); [done|].
    destruct (f !! Index.index n) as [x|]; [|done]. destruct (Z.eqb_spec (h_hash x) all_zeros); [done|].
    by injection Hg as <-. }
  set (hd' := mkHashed _ _ _ _) in Es.
  assert (Hget : forall v, 0 <= v < 2 ^ 32 -> get_disk_header s' v =
            if decide (v = n) then Ok hd' else get_disk_header s v).
  { intros v Hv. rewrite Es.
    change (get_disk_header (set_acc_file ?a ?b) v) with (get_disk_header b v).
    rewrite get_disk_header_write_slot by (done || lia). done. }
  assert (Hfile : f_acc_file s' = f_acc_file s ++ roots) by (by rewrite Es).
  assert (Hw1 : wrap32 (Z.of_nat (length (f_acc_file s))) = Z.of_nat (length (f_acc_file s)))
    by (apply Z.mod_small; lia).
  assert (Hw2 : wrap32 (Z.of_nat (length roots)) = Z.of_nat (length roots))
    by (apply Z.mod_small; lia).
  split.
  - apply load_roots_ok; [done|]. exists hd'. rewrite Hget, decide_True by (done || lia).
    cbn [acc_len acc_pos hd']. rewrite Hw1, Hw2, Hfile, !Nat2Z.id, drop_app_length, take_ge by done.
    split_and!; try done. destruct roots; [done|cbn; lia].
  - intros m r Hm Hne Hl. apply load_roots_ok in Hl as (hm & Hm31 & Hgm & Hz & -> & Hln); [|done].
    apply load_roots_ok; [done|]. exists hm. rewrite Hget, decide_False by (done || lia).
    rewrite Hfile. rewrite length_take, length_drop in Hln.
    split_and!; try done.
    + destruct (Z.to_nat (acc_len hm)) as [|k] eqn:Ek; [done|].
      rewrite drop_app_le, take_app_le by (rewrite ?length_drop; lia). done.
    + rewrite length_take, length_drop. lia.
Qed.

Lemma add_index_entry_frame h i s o s' :
  add_index_entry h i s = (o, s') ->
  (forall v, get_disk_header s' v = get_disk_header s v) /\ f_acc_file s' = f_acc_file s.
Proof.
  unfold add_index_entry, set_index_for_hash, mbind, stm_bind. cbn.
  destruct (_ <=? _); [by intros [= _ <-]|]. cbn.
  destruct (hash_map_find_pos s h) as [[p|p d]| | |]; cbn; by intros [= _ <-].
Qed.

(** When a best-chain header at or below the recorded validation index is saved again
    before its accumulator, as update_view does after a reorg, the accumulator file
    afterwards holds only the new accumulator: those of all lower blocks are dropped
    too, since saving the header has reset the position the truncation uses. *)
Theorem resaved_block_drops_accumulators (d : DiskBlockHeader) (n vi : Z) (roots : list Z)
  s s1 s2 s3 (Hm : is_main d = true) (Hd : dh_height d = Some n) (Hn : 0 <= n)
  (Hh : dh_hash d <> 0)
  (Hs : flat_save_header d s = (Ok tt, s1))
  (Hu : flat_update_block_index n (dh_hash d) s1 = (Ok tt, s2))
  (Hvi : (recorded_validation_height s2).1 = Ok vi) (Hle : n <= vi)
  (Hr : flat_save_roots roots n s2 = (Ok tt, s3)) :
  f_acc_file s3 = roots.
Proof.
  apply (save_header_main _ _ _ n) in Hs as (Hlt & Hslot & _ & _ & ->); [|done..].
  unfold flat_update_block_index in Hu. apply stm_bind_ok in Hu as (i & s4 & Hi & Hu).
  injection Hi as Hi <-. apply index_new_ok in Hi as (-> & _); [|done].
  apply warn_if_full_ok, add_index_entry_frame in Hu as [Hget _].
  apply save_roots_ok in Hr as (vi' & c & header & kept & Hrec & Hg & _ & _ & Hk & _ & ->); [|done].
  rewrite Hrec in Hvi. injection Hvi as ->. destruct (Z.leb_spec n vi); [|lia].
  rewrite Hget, get_disk_header_write_slot, decide_True in Hg by (done || lia).
  injection Hg as <-. subst kept. unfold write_slot. by destruct (Index.is_main_chain n).
Qed.
End Accumulators.
