(* ===== verification/FlatOk.v ===== *)
(** The flat-file store keeps the promises of the [ChainStore] interface. *)

From stdpp Require Import base gmap list sets fin_maps.
From Stdlib Require Import ZArith Lia.
From S2P Require Import Prelude Bitcoin Errors Codec ChainStore FlatStore FlatFacts FlatRefine.

Section FlatOk.
Context `{HeaderLib, FlatLib} (entries : Lru -> gmap BlockHash DiskBlockHeader) `{!LruOk entries}.
Implicit Types s : FlatChainStore.

#[local] Opaque index_hash_fn.

(** The slots of the headers file hold best-chain headers at their heights. *)
Definition slots_wf s : Prop := forall n hd, 0 <= n < 2 ^ 31 -> get_disk_header s n = Ok hd ->
  is_main (h_header hd) = true /\ dh_height (h_header hd) = Some n /\
  h_hash hd = dh_hash (h_header hd) /\ 0 <= acc_pos hd < 2 ^ 32.

(** The view a store represents. *)
Record flat_rep s (v : StoreView) : Prop := {
  fr_inv : exists g, flat_inv entries s g;
  fr_wf : slots_wf s;
  fr_headers : forall h, get_header_by_hash s h = Ok (v_headers v !! h);
  fr_slots : forall n d, v_slots v !! n = Some d <->
    0 <= n < 2 ^ 31 /\ exists hd, get_disk_header s n = Ok hd /\ h_header hd = d;
  fr_roots : forall n r, v_roots v !! n = Some r <-> 0 <= n /\ flat_load_roots n s = Ok (Some r)
}.

(** Positions in the accumulator file are kept in 32 bits. *)
Definition flat_room s : Prop := Z.of_nat (length (f_acc_file s)) < 2 ^ 32.

Lemma slot_reads s v n d : flat_rep s v -> v_slots v !! n = Some d ->
  flat_header_by_height n s = Ok (Some d) /\ flat_block_hash n s = Ok (Some (dh_hash d)).
Proof.
  intros Hr (Hn & hd & Hg & <-)%(fr_slots _ _ Hr).
  assert (Hi : Index.new n = Ok n).
  { unfold Index.new, Index.FORK_BIT. destruct (Z.leb_spec 0x80000000 n); [lia|done]. }
  unfold flat_header_by_height, flat_block_hash. rewrite Hi. cbn. rewrite Hg. cbn.
  destruct (fr_wf _ _ Hr n hd Hn Hg) as (_ & _ & -> & _). done.
Qed.

(** The genesis entry of the index invariant is slot 0 of the view. *)
Lemma genesis_slot s v g d :
  flat_rep s v -> flat_inv entries s g -> v_slots v !! 0 = Some d -> h_hash g = dh_hash d.
Proof.
  intros Hr Hinv (_ & hd & Hg & <-)%(fr_slots _ _ Hr).
  destruct (fr_wf _ _ Hr 0 hd ltac:(lia) Hg) as (_ & _ & <- & _).
  pose proof (ti_genesis _ _ (fi_table _ _ _ Hinv)). congruence.
Qed.

Lemma recorded_validation_inv s g o s1 :
  flat_inv entries s g -> recorded_validation_height s = (o, s1) -> flat_inv entries s1 g.
Proof.
  intros Hinv. unfold recorded_validation_height, mbind, stm_bind. cbn.
  destruct (flat_get_header_lookup entries s g (m_validation_index (f_metadata s)) Hinv)
    as (c & -> & Hc).
  destruct (get_header_by_hash s _) as [[d|]| | |]; by intros [= _ <-].
Qed.

(** Reads of accumulators when one slot changes. *)
Lemma load_roots_frame s s' n m r :
  (forall v, 0 <= v < 2 ^ 31 -> v <> n -> get_disk_header s' v = get_disk_header s v) ->
  f_acc_file s' = f_acc_file s -> 0 <= m -> m <> n ->
  flat_load_roots m s' = Ok (Some r) <-> flat_load_roots m s = Ok (Some r).
Proof.
  intros Hget Hf Hm Hne. rewrite !load_roots_ok by done. rewrite Hf.
  split; intros (hd & Hlt & Hg & Hrest); exists hd; rewrite Hget in * by (done || lia); done.
Qed.

Lemma save_main_flat s v d n s1 s2 :
  flat_rep s v -> is_main d = true -> dh_height d = Some n -> 0 < n -> dh_hash d <> 0 ->
  (exists g, v_slots v !! 0 = Some g /\ dh_hash d <> dh_hash g) ->
  (forall h' d', v_headers v !! h' = Some d' -> is_main d' = true -> dh_height d' = Some n ->
     h' = dh_hash d) ->
  flat_save_header d s = (Ok tt, s1) -> flat_update_block_index n (dh_hash d) s1 = (Ok tt, s2) ->
  flat_rep s2 (mkStoreView (<[dh_hash d := d]> (v_headers v)) (<[n := d]> (v_slots v))
                 (delete n (v_roots v))) /\ (flat_room s -> flat_room s2).
Proof.
  intros Hr Hm Hd Hn Hh (gd & Hgd & Hng) Hfree Hs Hu.
  pose proof Hr as [[g Hinv] Hwf Hhdr Hsl Hro].
  assert (Hfree' : forall p, bucket s p = n -> bucket_key s p = Some (dh_hash d)).
  { intros p Hp. destruct (ti_resolve _ _ (fi_table _ _ _ Hinv) p) as (k & Hk & _); [lia|].
    rewrite Hk. f_equal. apply bucket_key_Some in Hk as (hd & Hg & Hk). rewrite Hp in Hg.
    assert (Hn31 : n < 2 ^ 31).
    { apply (save_header_main _ _ _ n) in Hs as (? & _); done || lia. }
    destruct (Hwf n hd ltac:(lia) Hg) as (Hm' & Hd' & Hh' & _).
    apply (Hfree k (h_header hd)); try done.
    assert (Hst : stored s k (h_header hd)).
    { exists n, hd. split_and!; try done. right. by exists p. }
    apply (get_header_by_hash_stored _ _ _ (fi_table _ _ _ Hinv)) in Hst.
    rewrite Hhdr in Hst. by injection Hst. }
  rewrite <-(genesis_slot _ _ _ _ Hr Hinv Hgd) in Hng.
  destruct (save_main_inserts entries s s1 s2 g d n) as (Hinv2 & Hn31 & Hlook & Hget & Hacc); try done.
  split; [|unfold flat_room; by rewrite Hacc]. split.
  - by exists g.
  - intros m hd Hm0 Hg. rewrite Hget in Hg by lia. case_decide as E; [|by apply (Hwf m)].
    injection Hg as <-. subst m. cbn. split_and!; done || lia.
  - intros h. rewrite Hlook. cbn. case_decide as E.
    + subst h. by rewrite lookup_insert_eq.
    + by rewrite lookup_insert_ne.
  - intros m x. cbn. destruct (decide (m = n)) as [->|E].
    + rewrite lookup_insert_eq, Hget, decide_True by (done || lia). split.
      * intros [= <-]. split; [lia|]. by eexists.
      * by intros (_ & hd & [= <-] & <-).
    + rewrite lookup_insert_ne, Hsl by done. split; intros (Hm0 & hd & Hg & Hx); split; try done;
        exists hd; rewrite Hget, decide_False in * by (done || lia); done.
  - intros m r. cbn. destruct (decide (m = n)) as [->|E].
    + rewrite lookup_delete_eq. split; [done|]. intros [_ (hd & _ & Hg & Hz & _)%load_roots_ok]; [|lia].
      rewrite Hget, decide_True in Hg by (done || lia). injection Hg as <-. done.
    + rewrite lookup_delete_ne, Hro by done.
      split; intros [Hm0 Hl]; split; try done; [apply (load_roots_frame s s2 n m r)|
        apply (load_roots_frame s s2 n m r) in Hl]; try done; intros v' Hv' Hne;
        rewrite Hget, decide_False by (done || lia); done.
Qed.

Lemma save_fork_flat s v d s1 :
  flat_rep s v -> is_main d = false -> dh_hash d <> 0 ->
  (exists g, v_slots v !! 0 = Some g /\ dh_hash d <> dh_hash g) ->
  flat_save_header d s = (Ok tt, s1) ->
  flat_rep s1 (mkStoreView (<[dh_hash d := d]> (v_headers v)) (v_slots v) (v_roots v)).
Proof.
  intros Hr Hm Hh (gd & Hgd & Hng) Hs. pose proof Hr as [[g Hinv] Hwf Hhdr Hsl Hro].
  rewrite <-(genesis_slot _ _ _ _ Hr Hinv Hgd) in Hng.
  destruct (save_fork_inserts entries s s1 g d) as (Hinv1 & Hlook & Hget & Hacc); try done. split.
  - by exists g.
  - intros m hd Hm0 Hg. rewrite Hget in Hg by done. by apply Hwf.
  - intros h. rewrite Hlook. cbn. case_decide as E.
    + subst h. by rewrite lookup_insert_eq.
    + by rewrite lookup_insert_ne.
  - intros m x. cbn. rewrite Hsl. split; intros (Hm0 & hd & Hg & Hx); split; try done;
      exists hd; rewrite Hget in * by done; done.
  - intros m r. cbn. rewrite Hro. split; intros [Hm0 Hl]; split; try done;
      [apply (load_roots_frame s s1 (-1) m r)|apply (load_roots_frame s s1 (-1) m r) in Hl];
      try done; try lia; intros v' Hv' _; by rewrite Hget.
Qed.

(** The part of a slot the index sees. *)
Definition slot_core (o : outcome FlatChainstoreError HashedDiskHeader)
  : option (BlockHash * DiskBlockHeader) :=
  match o with Ok hd => Some (h_hash hd, h_header hd) | _ => None end.

Lemma stored_core s h d :
  stored s h d <-> exists v, (v = 0 \/ exists p, bucket s p = v) /\
    slot_core (get_disk_header s v) = Some (h, d).
Proof.
  split.
  - intros (v & hd & Hv & Hg & <- & <-). exists v. by rewrite Hg.
  - intros (v & Hv & Hc). destruct (get_disk_header s v) as [hd| | |] eqn:Hg; try done.
    injection Hc as <- <-. by exists v, hd.
Qed.

(** Rewriting the accumulator fields of a slot. *)
Lemma write_roots_inv s n header pos len l g :
  flat_inv entries s g -> 0 < n < 2 ^ 31 -> has_slot s n -> get_disk_header s n = Ok header ->
  let s1 := set_acc_file l
    (write_slot n (mkHashed (h_header header) (h_hash header) pos len) s) in
  flat_inv entries s1 g /\ (forall h, get_header_by_hash s1 h = get_header_by_hash s h) /\
  (forall v, 0 <= v < 2 ^ 32 -> get_disk_header s1 v =
     if decide (v = n) then Ok (mkHashed (h_header header) (h_hash header) pos len)
     else get_disk_header s v).
Proof.
  intros Hinv Hn Hslot Hg s1.
  assert (Hmain : Index.is_main_chain n = true) by (apply main_index_lt; lia).
  assert (Hhash : h_hash header <> 0).
  { unfold get_disk_header in Hg. destruct (slot_file s n) as [a f]. destruct (_ <=? _); [done|].
    destruct (f !! Index.index n) as [x|]; [|done].
    destruct (Z.eqb_spec (h_hash x) all_zeros); [done|]. by injection Hg as <-. }
  set (hd' := mkHashed _ _ _ _) in *.
  assert (Hget : forall v, 0 <= v < 2 ^ 32 -> get_disk_header s1 v =
            if decide (v = n) then Ok hd' else get_disk_header s v).
  { intros v Hv. change (get_disk_header s1 v) with (get_disk_header (write_slot n hd' s) v).
    apply get_disk_header_write_slot; done || lia. }
  assert (Eb : forall p, bucket s1 p = bucket s p)
    by (intros; unfold bucket, s1, write_slot; by rewrite Hmain).
  assert (Hcore : forall v, 0 <= v < 2 ^ 32 ->
            slot_core (get_disk_header s1 v) = slot_core (get_disk_header s v)).
  { intros v Hv. rewrite Hget by done. case_decide as E; [|done]. subst v. by rewrite Hg. }
  pose proof (ti_u32 _ _ (fi_table _ _ _ Hinv)) as Hu.
  assert (Ht1 : table_inv s1 g).
  { apply (table_inv_ext s); try (unfold s1, write_slot; by rewrite Hmain);
      [| |apply (fi_table _ _ _ Hinv)].
    - rewrite Hget, decide_False by lia. apply (ti_genesis _ _ (fi_table _ _ _ Hinv)).
    - intros p. specialize (Hcore (bucket s p) (Hu p)). unfold bucket_key. rewrite Eb.
      revert Hcore. unfold slot_core.
      destruct (get_disk_header s1 (bucket s p)), (get_disk_header s (bucket s p)); congruence. }
  assert (Hlook : forall h, get_header_by_hash s1 h = get_header_by_hash s h).
  { intros h. apply (lookup_of_stored _ _ g g); [apply (fi_table _ _ _ Hinv)|done|].
    intros d. rewrite !stored_core. split; intros (v & Hv & Hc); exists v;
      assert (Hvu : 0 <= v < 2 ^ 32)
        by (destruct Hv as [->|[p <-]]; [lia|rewrite ?Eb; apply Hu]);
      rewrite Hcore in * by done; (split; [|done]);
      (destruct Hv as [->|[p <-]]; [by left|right; exists p; by rewrite Eb]). }
  split_and!; try done. destruct Hinv as [_ Hf Hc]. split; [done| |].
  - setoid_rewrite Eb. unfold s1, write_slot. by rewrite Hmain.
  - intros h d. rewrite Hlook. unfold s1, write_slot. rewrite Hmain. apply Hc.
Qed.

Lemma save_roots_flat s v n d r s1 :
  flat_rep s v -> flat_room s -> 0 < n -> v_slots v !! n = Some d -> r <> [] ->
  flat_save_roots r n s = (Ok tt, s1) ->
  exists roots, flat_rep s1 (mkStoreView (v_headers v) (v_slots v) roots) /\ roots !! n = Some r.
Proof.
  intros Hr Hroom Hn Hd Hne Hs. pose proof Hr as [[g Hinv] Hwf Hhdr Hsl Hro].
  apply save_roots_ok in Hs as (vi & c & header & kept & Hrec & Hg & Hn31 & Hslot & Hk & Hsz & Es);
    [|lia]. unfold MAX_ACCUMULATOR_SIZE in Hsz. unfold flat_room in Hroom.
  apply (recorded_validation_inv _ _ _ _ Hinv) in Hrec.
  assert (Hinvk : flat_inv entries (set_acc_file kept (set_cache c s)) g).
  { destruct Hrec as [I1 I2 I3]. split; [|exact I2|].
    - by apply (table_inv_ext (set_cache c s)); try apply I1.
    - intros h x Hx. apply I3 in Hx. rewrite get_header_set_cache in Hx.
      rewrite (lookup_of_stored s _ g g h); try done; [apply Hinv|].
      by apply (table_inv_ext (set_cache c s)); try apply I1. }
  destruct (Hwf n header ltac:(lia) Hg) as (Hm & Hdh & Hh & Hpos).
  assert (Hkl : Z.of_nat (length kept) < 2 ^ 32).
  { rewrite Hk. destruct (n <=? vi); [|done]. unfold set_len. rewrite length_app, length_take, length_replicate.
    lia. }
  destruct (write_roots_inv _ n header (wrap32 (Z.of_nat (length kept)))
              (wrap32 (Z.of_nat (length r))) (kept ++ r) g Hinvk) as (Hinv1 & Hlook & Hget);
    try done; try lia. rewrite <-Es in Hinv1, Hlook, Hget.
  set (hd' := mkHashed _ _ _ _) in Hget.
  assert (Hw1 : wrap32 (Z.of_nat (length kept)) = Z.of_nat (length kept)) by (apply Z.mod_small; lia).
  assert (Hw2 : wrap32 (Z.of_nat (length r)) = Z.of_nat (length r)) by (apply Z.mod_small; lia).
  assert (Hload : flat_load_roots n s1 = Ok (Some r)).
  { apply load_roots_ok; [lia|]. exists hd'. rewrite Hget, decide_True by (done || lia).
    assert (Hf : f_acc_file s1 = kept ++ r) by (by rewrite Es).
    cbn [acc_len acc_pos hd']. rewrite Hw1, Hw2, Hf, !Nat2Z.id, drop_app_length, take_ge by done.
    split_and!; try done. destruct r; [done|cbn; lia]. }
  assert (Hlk : forall h, get_header_by_hash (set_acc_file kept (set_cache c s)) h =
            get_header_by_hash s h).
  { intros h. apply (lookup_of_stored _ _ g g); [apply Hinv|apply Hinvk|done]. }
  set (roots := map_imap (fun m _ => match flat_load_roots m s1 with Ok o => o | _ => None end)
                  (v_slots v)).
  assert (Hsl1 : forall m x, v_slots v !! m = Some x <->
            0 <= m < 2 ^ 31 /\ exists hd, get_disk_header s1 m = Ok hd /\ h_header hd = x).
  { intros m x. rewrite Hsl. split; intros (Hm0 & hd & Hgm & Hx); (split; [done|]);
      destruct (decide (m = n)) as [->|E].
    - exists hd'. rewrite Hget, decide_True by (done || lia). split; [done|].
      assert (hd = header) as -> by congruence. done.
    - exists hd. by rewrite Hget, decide_False by (done || lia).
    - exists header. rewrite Hget, decide_True in Hgm by (done || lia). by injection Hgm as <-.
    - exists hd. by rewrite Hget, decide_False in Hgm by (done || lia). }
  exists roots. split; [split|].
  - by exists g.
  - intros m hd Hm0 Hgm. rewrite Hget in Hgm by lia. case_decide as E; [|by apply (Hwf m)].
    injection Hgm as <-. subst m. cbn. split_and!; try done; lia.
  - intros h. by rewrite Hlook, Hlk, Hhdr.
  - exact Hsl1.
  - intros m x. cbn. unfold roots. rewrite map_lookup_imap. split.
    + destruct (v_slots v !! m) as [y|] eqn:Ey; [|done]. apply Hsl1 in Ey as [Hm0 _]. cbn.
      destruct (flat_load_roots m s1) as [o| | |]; try done. intros ->. split; [lia|done].
    + intros [Hm0 Hl]. pose proof Hl as (hd & Hlt & Hgm & _)%load_roots_ok; [|done].
      assert (Hy : v_slots v !! m = Some (h_header hd)) by (apply Hsl1; split; [lia|by exists hd]).
      rewrite Hy. cbn. by rewrite Hl.
  - unfold roots. rewrite map_lookup_imap, Hd. cbn. by rewrite Hload.
Qed.

(** ** What becomes of the other accumulators and of the best chain *)

(** The accumulator of [m] lies before that of [n] in the file. *)
Definition acc_before s (m n : Z) : Prop := exists hm hn, get_disk_header s m = Ok hm /\ get_disk_header s n = Ok hn /\
  (Z.to_nat (acc_pos hm) + Z.to_nat (acc_len hm) <= Z.to_nat (acc_pos hn))%nat.

Lemma read_prefix (l l' : list Z) (pos len k : nat) : take k l = take k l' -> (pos + len <= k)%nat -> take len (drop pos l) = take len (drop pos l').
Proof.
  intros E Hk. assert (forall x : list Z, take len (drop pos x) = take len (drop pos (take k x))) as Hx.
  { intros x. rewrite !take_drop_commute, take_take. by rewrite Nat.min_l by lia. }
  by rewrite (Hx l), (Hx l'), E.
Qed.
Lemma save_roots_keeps s v m n d r r' vi s1 :
  flat_rep s v -> 0 < n -> v_slots v !! n = Some d -> (recorded_validation_height s).1 = Ok vi ->
  flat_save_roots r n s = (Ok tt, s1) -> m <> n -> v_roots v !! m = Some r' -> vi < n \/ acc_before s m n ->
  0 <= m /\ flat_load_roots m s1 = Ok (Some r').
Proof.
  intros Hr Hn Hd Hvi Hs Hne Hm Hkeep. apply (fr_roots _ _ Hr) in Hm as [Hm0 Hm]. split; [done|].
  apply load_roots_ok in Hm as (hm & Hm31 & Hgm & Hz & Er & El); [|done].
  apply save_roots_ok in Hs as (vi' & c & header & kept & Hrec & Hg & Hn31 & Hslot & Hk & Hsz & Es); [|lia].
  rewrite Hrec in Hvi. injection Hvi as ->.
  assert (Hmain : Index.is_main_chain n = true) by (apply main_index_lt; lia).
  assert (Hgm1 : get_disk_header s1 m = Ok hm).
  { assert (h_hash header <> 0).
    { destruct (fr_wf _ _ Hr n header ltac:(lia) Hg) as (_ & _ & _ & _). unfold get_disk_header in Hg.
      destruct (slot_file s n) as [a f]. destruct (_ <=? _); [done|]. destruct (f !! Index.index n) as [x|]; [|done].
      destruct (Z.eqb_spec (h_hash x) all_zeros); [done|]. by injection Hg as <-. }
    rewrite Es. set (s0 := set_acc_file kept (set_cache c s)). set (hd' := mkHashed _ _ _ _).
    change (get_disk_header (write_slot n hd' s0) m = Ok hm). rewrite get_disk_header_write_slot by (done || lia).
    by rewrite decide_False. }
  assert (Hlen : (Z.to_nat (acc_pos hm) + Z.to_nat (acc_len hm) <= length (f_acc_file s) \/ Z.to_nat (acc_len hm) = 0)%nat).
  { rewrite <-El, Er, length_take, length_drop. lia. }
  apply load_roots_ok; [done|]. exists hm. split_and!; try done.
  assert (Ef : f_acc_file s1 = kept ++ r) by (by rewrite Es). rewrite Ef, Er. destruct Hlen as [Hlen|Hlen]; [|by rewrite Hlen].
  destruct (Z.leb_spec n vi) as [Hle|Hgt].
  - destruct Hkeep as [|(hm' & hn & Hgm' & Hgn & Hb)]; [lia|]. rewrite Hgm in Hgm'. injection Hgm' as <-. rewrite Hg in Hgn. injection Hgn as <-.
    apply (read_prefix _ _ _ _ (Z.to_nat (acc_pos hm) + Z.to_nat (acc_len hm))); [|done]. rewrite Hk. unfold set_len.
    rewrite <-app_assoc, take_app_le by (rewrite length_take; lia). rewrite take_take, Nat.min_l by lia. done.
  - apply (read_prefix _ _ _ _ (Z.to_nat (acc_pos hm) + Z.to_nat (acc_len hm))); [|done]. rewrite Hk. by rewrite take_app_le.
Qed.

(** The best chain that was saved is the one that is loaded, with the tips of
    the stored forks. *)
Lemma save_height_loads s b s1 o : do_save_height b s = (Ok tt, s1) -> (forall h, get_header_by_hash s1 h = get_header_by_hash s h) -> flat_load_height s1 = Ok o ->
  exists tips, derive_alternative_tips s = Ok tips /\
    o = if depth b =? 0 then None else Some (mkBestChain (best_block b) (depth b) (validation_index b) tips).
Proof.
  intros [= <-] Hsame. unfold flat_load_height, get_best_chain. intros (x & (tips & Ht & [= <-])%obind_ok & [= <-])%obind_ok.
  exists tips. split; [|done]. rewrite <-Ht. unfold derive_alternative_tips. cbn [f_metadata set_metadata m_fork_count set_best_chain].
  assert (Hl : forall l f g, fork_hashes_loop (set_metadata (set_best_chain b (f_metadata s)) s) l f g = fork_hashes_loop s l f g).
  { intros l. induction l as [|x l IH]; intros f g; [done|]. cbn [fork_hashes_loop]. destruct (Index.new_fork (wrap32 x)) as [i| | |]; try done.
    cbn [mbind outcome_bind]. change (get_disk_header (set_metadata _ s) i) with (get_disk_header s i).
    destruct (get_disk_header s i) as [hdr| | |]; try done. cbn [mbind outcome_bind]. by destruct (h_header hdr). }
  rewrite Hl. destruct (fork_hashes_loop s _ ∅ ∅) as [[f g]| | |]; try done. cbn [mbind outcome_bind].
  induction (elements (f ∖ g)) as [|h l IH]; [done|].
  cbn [filter_tips]. by rewrite <-IH, Hsame.
Qed.

(** Metadata that is not part of the layout can change freely. *)
Lemma flat_rep_metadata s v m :
  (forall i, get_disk_header (set_metadata m s) i = get_disk_header s i) ->
  m_fork_count m = m_fork_count (f_metadata s) ->
  m_index_capacity m = m_index_capacity (f_metadata s) ->
  m_block_index_occupancy m = m_block_index_occupancy (f_metadata s) ->
  flat_rep s v -> flat_rep (set_metadata m s) v.
Proof.
  intros Eg Ef Ec Eo [[g [I1 I2 I3]] Hwf Hhdr Hsl Hro].
  assert (Ht : table_inv (set_metadata m s) g).
  { apply (table_inv_ext s); try done; [rewrite Eg; apply I1|].
    intros p. unfold bucket_key. by rewrite Eg. }
  assert (Hl : forall h, get_header_by_hash (set_metadata m s) h = get_header_by_hash s h).
  { intros h. apply (lookup_of_stored _ _ g g); try done. intros d. unfold stored.
    by setoid_rewrite Eg. }
  split.
  - exists g. split; [done|cbn; by rewrite Ef|]. intros h d. rewrite Hl. apply I3.
  - intros n hd. rewrite Eg. apply Hwf.
  - intros h. by rewrite Hl.
  - intros n d. setoid_rewrite Eg. apply Hsl.
  - intros n r. rewrite Hro. split; intros [Hn Hr]; (split; [done|]);
      [apply (load_roots_frame s _ (-1))|apply (load_roots_frame s _ (-1)) in Hr]; done || lia.
Qed.

#[export] Instance flat_store_ok :
  ChainStoreOk FlatChainStore FlatChainstoreError flat_rep flat_room.
Proof.
  split.
  - intros s v h Hr. destruct (fr_inv _ _ Hr) as [g Hinv]. cbn.
    rewrite (flat_get_header_fst entries s g) by done. apply (fr_headers _ _ Hr).
  - intros s v n d. apply slot_reads.
  - intros s v n Hr Hn. cbn. split; [done|]. intros r. rewrite (fr_roots _ _ Hr). tauto.
  - exact save_main_flat.
  - exact save_fork_flat.
  - exact save_roots_flat.
  - intros s v b s1 Hr [= <-]. by apply flat_rep_metadata.
  - intros s v s1 Hr [= <-]. by apply flat_rep_metadata.
Qed.

(** * Totality *)

Lemma index_new_ends n : ends (Index.new n).
Proof. unfold Index.new. total. Qed.
Lemma index_new_fork_ends n : ends (Index.new_fork n).
Proof. unfold Index.new_fork. total. Qed.
Lemma get_disk_header_ends s i : ends (get_disk_header s i).
Proof. unfold get_disk_header. total. Qed.
Lemma get_disk_header_mut_ends s i : ends (get_disk_header_mut s i).
Proof. unfold get_disk_header_mut. total. Qed.
#[local] Hint Resolve index_new_ends index_new_fork_ends get_disk_header_ends
  get_disk_header_mut_ends : total.

(** The probing visits each bucket at most once. *)
Lemma hash_map_find_pos_ends s h : ends (hash_map_find_pos s h).
Proof.
  unfold hash_map_find_pos. total. generalize (index_hash_fn h).
  induction (Z.to_nat (f_index_size s)) as [|n IH]; intros k; cbn; total.
Qed.
#[local] Hint Resolve hash_map_find_pos_ends : total.

Lemma warn_if_full_ends w (m : stm FlatChainStore FlatChainstoreError unit) s :
  ends (m s).1 -> ends (warn_if_full w m s).1.
Proof. unfold warn_if_full. destruct (m s) as [[|[]| |] s']; done. Qed.
Lemma add_index_entry_ends h i s : ends (add_index_entry h i s).1.
Proof. unfold add_index_entry, set_index_for_hash. total. Qed.
#[local] Hint Resolve warn_if_full_ends add_index_entry_ends : total.

Lemma flat_get_header_ends h s : ends (flat_get_header h s).1.
Proof.
  unfold flat_get_header. destruct (lru_get h (f_cache s)) as [[d|] c]; [done|].
  assert (He : ends (get_header_by_hash (set_cache c s) h)).
  { unfold get_header_by_hash, get_index_for_hash. total. }
  by destruct (get_header_by_hash (set_cache c s) h) as [[d|]| | |].
Qed.
#[local] Hint Resolve flat_get_header_ends : total.

#[export] Instance flat_store_total : StoreTotal FlatChainStore FlatChainstoreError.
Proof.
  split; cbn.
  - intros h s. apply flat_get_header_ends.
  - intros n s. unfold flat_block_hash. total.
    assert (He := get_disk_header_ends s a). unfold not_found_none.
    by destruct (get_disk_header s a) as [|[]| |].
  - intros n s. unfold flat_header_by_height. total.
    assert (He := get_disk_header_ends s a). unfold not_found_none.
    by destruct (get_disk_header s a) as [|[]| |].
  - intros d s. unfold flat_save_header, write_header_to_storage, save_fork_block. total;
      apply warn_if_full_ends; total.
  - intros n h s. unfold flat_update_block_index. total.
  - intros n s. unfold flat_load_roots. total.
  - intros r n s. unfold flat_save_roots, recorded_validation_height. total.
  - intros b s. unfold do_save_height. total.
  - intros s. unfold do_flush. total.
Qed.

(** An empty directory with the genesis block. *)
Lemma fresh_store_rep (cfg : FlatChainStoreConfig) (gh : BlockHeader) (n : Z)
  s s1 s2 (Hn : block_index_size cfg = Some n) (Hn2 : 1 <= n <= 2 ^ 32)
  (Hf : flat_new cfg (mkDataDir None ∅ ∅ ∅ []) = Ok s) (Hg0 : block_hash gh <> 0)
  (Hs : flat_save_header (FullyValid gh 0) s = (Ok tt, s1))
  (Hu : flat_update_block_index 0 (block_hash gh) s1 = (Ok tt, s2)) :
  flat_rep s2 (mkStoreView {[block_hash gh := FullyValid gh 0]} {[0 := FullyValid gh 0]} ∅).
Proof.
  destruct (fresh_store_genesis entries cfg gh n s s1 s2) as (Hinv & Hlook & Hslot); try done.
  pose proof (ti_genesis _ _ (fi_table _ _ _ Hinv)) as Hg. split.
  - by eexists.
  - intros m hd Hm Hgd. destruct (Hslot m hd Hm Hgd) as [-> ->]. cbn. split_and!; done || lia.
  - intros h. rewrite Hlook. cbn. case_decide as E.
    + subst h. by rewrite lookup_singleton_eq.
    + by rewrite lookup_singleton_ne.
  - intros m d. cbn. rewrite lookup_singleton_Some. split.
    + intros [<- <-]. split; [lia|]. by eexists.
    + intros (Hm & hd & Hgd & <-). by destruct (Hslot m hd Hm Hgd) as [-> ->].
  - intros m r. cbn. rewrite lookup_empty. split; [done|].
    intros [Hm (hd & Hlt & Hgd & Hz & _)%load_roots_ok]; [|done].
    by destruct (Hslot m hd ltac:(lia) Hgd) as [-> ->].
Qed.

(** Opening the flat-file store on an empty directory and saving the genesis header, as
    ChainState::new does, gives a store that represents exactly the genesis chain, for
    every index size from 1 to 2^32 buckets. *)
Theorem fresh_store_represents_genesis (cfg : FlatChainStoreConfig) (gh : BlockHeader) (n : Z)
  s s1 s2 (Hn : block_index_size cfg = Some n) (Hn2 : 1 <= n <= 2 ^ 32)
  (Hf : flat_new cfg (mkDataDir None ∅ ∅ ∅ []) = Ok s) (Hg0 : block_hash gh <> 0)
  (Hs : flat_save_header (FullyValid gh 0) s = (Ok tt, s1))
  (Hu : flat_update_block_index 0 (block_hash gh) s1 = (Ok tt, s2)) :
  flat_rep s2 (mkStoreView {[block_hash gh := FullyValid gh 0]} {[0 := FullyValid gh 0]} ∅).
Proof. by eapply fresh_store_rep. Qed.

(** C27: The flat-file store refines the abstract store operation by operation, up to
    the capacity errors it returns: its memory-mapped header and fork files, its open-
    addressing hash index and its cache implement the maps from hashes and heights to
    headers. The accumulator saved at a height is read back from it, and the
    accumulators of other heights are kept when the validation index is below the saved
    height or when they lie before it in the file; nothing is promised for the others,
    which a save at or below the validation index cuts off. Saving the best chain
    changes none of this, and it is read back with the tips of the stored forks, or as
    none when its height is 0. *)
Theorem flat_store_implements_interface :
  ChainStoreOk FlatChainStore FlatChainstoreError flat_rep flat_room /\
  (forall s v n d r vi s1, flat_rep s v -> flat_room s -> 0 < n -> v_slots v !! n = Some d -> r <> [] ->
     (recorded_validation_height s).1 = Ok vi -> flat_save_roots r n s = (Ok tt, s1) ->
     exists roots, flat_rep s1 (mkStoreView (v_headers v) (v_slots v) roots) /\ roots !! n = Some r /\
       forall m r', m <> n -> v_roots v !! m = Some r' -> vi < n \/ acc_before s m n -> roots !! m = Some r') /\
  (forall s v b s1, flat_rep s v -> do_save_height b s = (Ok tt, s1) -> flat_rep s1 v /\
     forall o, flat_load_height s1 = Ok o -> exists tips, derive_alternative_tips s = Ok tips /\
       o = if depth b =? 0 then None else Some (mkBestChain (best_block b) (depth b) (validation_index b) tips)).
Proof.
  split; [exact flat_store_ok|split].
  - intros s v n d r vi s1 Hr Hroom Hn Hd Hne Hvi Hs. destruct (save_roots_flat s v n d r s1 Hr Hroom Hn Hd Hne Hs) as (roots & Hr1 & Hrn).
    exists roots. split_and!; try done. intros m r' Hm Hold Hk. apply (fr_roots _ _ Hr1). by apply (save_roots_keeps s v m n d r r' vi s1).
  - intros s v b s1 Hr Hs. pose proof (save_height_rep s v b s1 Hr Hs) as Hr1. split; [done|]. intros o. apply save_height_loads; [done|].
    intros h. by rewrite (fr_headers _ _ Hr1), (fr_headers _ _ Hr).
Qed.
End FlatOk.
