(* ===== verification/ChainShape.v ===== *)
(** The shape of a stored chain, as a property of the two maps a store
    represents, and the map-level effect of the chain state's operations on
    it: changing a header's status, adding a fork header, cutting the chain at
    a fork point and extending it. *)

From stdpp Require Import base gmap list fin_maps.
From Stdlib Require Import ZArith Lia.
From S2P Require Import Prelude Bitcoin ChainStore.

Section ChainShape.
Context `{HeaderLib}.
Implicit Types (hs : gmap BlockHash DiskBlockHeader) (sl : gmap Z DiskBlockHeader)
  (d : DiskBlockHeader) (n : Z).

(** Headers [hs] by hash and slots [sl] by height hold a chain of depth [dep]
    from the genesis block [gen] to [tip]. *)
Record chain_shape hs sl (dep : Z) (tip gen : BlockHash) : Prop := {
  sh_key : forall h d, hs !! h = Some d -> dh_hash d = h /\ h <> 0;
  sh_depth : 0 <= dep;
  (** Every height up to the tip holds a best-chain header of that height,
      linked to the one below. *)
  sh_slot : forall n, 0 <= n <= dep ->
    exists d, sl !! n = Some d /\ hs !! dh_hash d = Some d /\ is_main d = true /\
      dh_height d = Some n /\
      (0 < n -> exists p, sl !! (n - 1) = Some p /\ prev_blockhash (deref d) = dh_hash p);
  sh_tip : exists d, sl !! dep = Some d /\ dh_hash d = tip;
  sh_genesis : exists d, sl !! 0 = Some d /\ dh_hash d = gen;
  (** A best-chain header is the one indexed at its height. *)
  sh_main : forall h d n, hs !! h = Some d -> is_main d = true -> dh_height d = Some n ->
    0 <= n <= dep /\ sl !! n = Some d;
  (** The parent of a header with a height is one below it. *)
  sh_parent : forall h d n, hs !! h = Some d -> dh_height d = Some n ->
    0 <= n /\ (n = 0 -> h = gen) /\
    (0 < n -> exists p, hs !! prev_blockhash (deref d) = Some p /\ dh_height p = Some (n - 1));
  sh_assumed : forall h hd n, hs !! h <> Some (AssumedValid hd n)
}.

Section Lemmas.
Context hs sl dep tip gen (Hs : chain_shape hs sl dep tip gen).

Lemma genesis_height h d n :
  hs !! h = Some d -> dh_height d = Some n -> h = gen <-> n = 0.
Proof.
  intros Hd Hn. split; [|by apply (sh_parent _ _ _ _ _ Hs h d n)].
  intros ->. destruct (sh_genesis _ _ _ _ _ Hs) as (g & Hg & Hgh).
  destruct (sh_slot _ _ _ _ _ Hs 0) as (d0 & Hd0 & Hh0 & _ & Hz & _);
    [pose proof (sh_depth _ _ _ _ _ Hs); lia|].
  assert (d0 = g) as -> by congruence. rewrite Hgh in Hh0. congruence.
Qed.

Lemma genesis_main d : hs !! gen = Some d -> is_main d = true.
Proof.
  intros Hd. destruct (sh_genesis _ _ _ _ _ Hs) as (g & Hg & Hgh).
  destruct (sh_slot _ _ _ _ _ Hs 0) as (d0 & Hd0 & Hh0 & Hm & _);
    [pose proof (sh_depth _ _ _ _ _ Hs); lia|]. congruence.
Qed.

Lemma tip_header : exists d, hs !! tip = Some d /\ is_main d = true /\
  dh_height d = Some dep /\ sl !! dep = Some d.
Proof.
  destruct (sh_tip _ _ _ _ _ Hs) as (t & Ht & Hth). pose proof (sh_depth _ _ _ _ _ Hs).
  destruct (sh_slot _ _ _ _ _ Hs dep) as (d & Hd & Hh & Hm & Hn & _); [lia|].
  assert (d = t) as -> by congruence. exists t. by rewrite <-Hth.
Qed.

(** The header in a slot of the chain is the only best-chain header of its
    height. *)
Lemma main_unique h d n e :
  hs !! h = Some d -> is_main d = true -> dh_height d = Some n -> sl !! n = Some e -> d = e.
Proof. intros Hd Hm Hn He. destruct (sh_main _ _ _ _ _ Hs h d n) as [_ E]; congruence. Qed.

(** Changing the status of a header of the chain. *)
Lemma shape_restatus n d d' :
  0 <= n <= dep -> sl !! n = Some d -> deref d' = deref d -> dh_height d' = Some n ->
  is_main d' = true -> (forall hd m, d' <> AssumedValid hd m) ->
  chain_shape (<[dh_hash d' := d']> hs) (<[n := d']> sl) dep tip gen.
Proof.
  intros Hn Hd He Hh Hm Ha. destruct (sh_slot _ _ _ _ _ Hs n Hn) as (e & Hse & Hhe & Hme & Hne & Hpe).
  assert (e = d) as -> by congruence. assert (Ehash : dh_hash d' = dh_hash d) by (unfold dh_hash; congruence).
  rewrite Ehash.
  assert (Hback : forall h x, <[dh_hash d := d']> hs !! h = Some x ->
     exists y, hs !! h = Some y /\ deref x = deref y /\ dh_height x = dh_height y /\
       is_main x = is_main y /\ (x = y /\ h <> dh_hash d \/ x = d' /\ h = dh_hash d)).
  { intros h x. destruct (decide (h = dh_hash d)) as [->|Hne'].
    - rewrite lookup_insert_eq. intros [= <-]. exists d. split_and!; try congruence. by right.
    - rewrite lookup_insert_ne by done. intros Hx. exists x. split_and!; try done. by left. }
  assert (Hslot : forall m x, sl !! m = Some x -> exists y, <[n := d']> sl !! m = Some y /\
             dh_hash y = dh_hash x /\ (m <> n -> y = x) /\ (m = n -> y = d')).
  { intros m x Hx. destruct (decide (m = n)) as [->|Hne'].
    - exists d'. rewrite lookup_insert_eq. split_and!; try done. congruence.
    - exists x. by rewrite lookup_insert_ne. }
  split.
  - intros h x (y & Hy & Ed & _)%Hback. destruct (sh_key _ _ _ _ _ Hs h y Hy) as [Hk Hz].
    unfold dh_hash in *. by rewrite Ed.
  - apply (sh_depth _ _ _ _ _ Hs).
  - intros m Hmd. destruct (sh_slot _ _ _ _ _ Hs m Hmd) as (x & Hxs & Hxh & Hxm & Hxn & Hxp).
    destruct (Hslot m x Hxs) as (y & Hy & Eh & E1 & E2). exists y.
    assert (Hp : 0 < m -> exists p, <[n := d']> sl !! (m - 1) = Some p /\
               prev_blockhash (deref x) = dh_hash p).
    { intros Hm0. destruct (Hxp Hm0) as (p & Hps & ->). destruct (Hslot _ _ Hps) as (q & Hq & Eq & _).
      by exists q. }
    destruct (decide (m = n)) as [->|Hne'].
    + rewrite E2 in * by done. assert (x = d) as -> by congruence.
      by rewrite Ehash, !lookup_insert_eq, He.
    + rewrite E1 in * by done. split_and!; try done. rewrite lookup_insert_ne; [done|].
      intros E. rewrite E in Hhe. congruence.
  - destruct (sh_tip _ _ _ _ _ Hs) as (t & Ht & <-). destruct (Hslot _ _ Ht) as (y & Hy & Eh & _).
    by exists y.
  - destruct (sh_genesis _ _ _ _ _ Hs) as (g & Hg & <-). destruct (Hslot _ _ Hg) as (y & Hy & Eh & _).
    by exists y.
  - intros h x m (y & Hy & Ed & En & Em & Hc)%Hback Hxm Hxn.
    destruct (sh_main _ _ _ _ _ Hs h y m Hy) as [Hmd Hys]; [congruence..|]. split; [done|].
    destruct (Hslot _ _ Hys) as (z & Hz & Eh & E1 & E2). rewrite Hz. f_equal.
    destruct Hc as [[-> Hne']|[-> ->]].
    + apply E1. intros ->. destruct (sh_key _ _ _ _ _ Hs _ _ Hy) as [Hk _]. congruence.
    + apply E2. congruence.
  - intros h x m (y & Hy & Ed & En & Em & Hc)%Hback Hxn. rewrite En in Hxn.
    destruct (sh_parent _ _ _ _ _ Hs h y m Hy Hxn) as (H0m & Hg & Hp). split_and!; [done|done|].
    intros Hm0. destruct (Hp Hm0) as (p & Hps & Hpn). rewrite Ed.
    destruct (decide (prev_blockhash (deref y) = dh_hash d)) as [E|E].
    + exists d'. rewrite E, lookup_insert_eq. split; [done|]. rewrite E, Hhe in Hps. congruence.
    + exists p. by rewrite lookup_insert_ne.
  - intros h x m (y & Hy & _ & _ & _ & [[<- _]|[E _]])%Hback; [by eapply sh_assumed|by eapply Ha].
Qed.

(** A header that is not on the chain: new, or known in a fork. *)
Definition off_chain (h : BlockHash) (n : Z) : Prop :=
  hs !! h = None \/ exists e, hs !! h = Some e /\ is_main e = false /\ dh_height e = Some n.

Lemma off_chain_not_main h n d : off_chain h n -> hs !! h = Some d -> is_main d = false.
Proof. intros [Ho|(e & He & Hm & _)] Hd; congruence. Qed.

Lemma off_chain_not_genesis h n : off_chain h n -> h <> gen.
Proof.
  intros Ho ->. destruct (sh_genesis _ _ _ _ _ Hs) as (g & Hg & Hgh).
  destruct (sh_slot _ _ _ _ _ Hs 0) as (d0 & Hd0 & Hh0 & Hm & _);
    [pose proof (sh_depth _ _ _ _ _ Hs); lia|].
  assert (d0 = g) as -> by congruence. rewrite Hgh in Hh0.
  pose proof (off_chain_not_main _ _ _ Ho Hh0). congruence.
Qed.

(** Inserting an off-chain header keeps the headers of the chain. *)
Lemma off_chain_main h n d m :
  off_chain h n -> sl !! m = Some d -> 0 <= m <= dep -> dh_hash d <> h.
Proof.
  intros Ho Hd Hm E. destruct (sh_slot _ _ _ _ _ Hs m Hm) as (e & He & Hh & Hme & _).
  assert (e = d) as -> by congruence. rewrite E in Hh.
  destruct Ho as [Ho|(x & Hx & Hxm & _)]; congruence.
Qed.

(** Parents after inserting an off-chain header with its own height. *)
Lemma off_chain_parent h n d x m :
  off_chain h n -> dh_height d = Some n ->
  (exists p, hs !! prev_blockhash (deref x) = Some p /\ dh_height p = Some m) ->
  exists p, <[h := d]> hs !! prev_blockhash (deref x) = Some p /\ dh_height p = Some m.
Proof.
  intros Ho Hd (p & Hp & Hm). destruct (decide (prev_blockhash (deref x) = h)) as [E|E].
  - exists d. rewrite E, lookup_insert_eq in *. split; [done|].
    destruct Ho as [Ho|(e & He & _ & Hn)]; congruence.
  - exists p. by rewrite lookup_insert_ne.
Qed.

(** Storing a header of a fork. *)
Lemma shape_fork hdr p n :
  off_chain (block_hash hdr) (n + 1) -> block_hash hdr <> 0 ->
  hs !! prev_blockhash hdr = Some p -> dh_height p = Some n ->
  chain_shape (<[block_hash hdr := InFork hdr (n + 1)]> hs) sl dep tip gen.
Proof.
  intros Ho Hz Hp Hn. destruct (sh_parent _ _ _ _ _ Hs _ _ _ Hp Hn) as [H0 _]. split.
  - intros h x. destruct (decide (h = block_hash hdr)) as [->|Hne].
    + rewrite lookup_insert_eq. by intros [= <-].
    + rewrite lookup_insert_ne by done. apply (sh_key _ _ _ _ _ Hs).
  - apply (sh_depth _ _ _ _ _ Hs).
  - intros m Hm. destruct (sh_slot _ _ _ _ _ Hs m Hm) as (d & Hd & Hh & Hrest). exists d.
    rewrite lookup_insert_ne; [done|]. intros E. by eapply off_chain_main.
  - apply (sh_tip _ _ _ _ _ Hs).
  - apply (sh_genesis _ _ _ _ _ Hs).
  - intros h x m. destruct (decide (h = block_hash hdr)) as [->|Hne].
    + rewrite lookup_insert_eq. by intros [= <-].
    + rewrite lookup_insert_ne by done. apply (sh_main _ _ _ _ _ Hs).
  - intros h x m. destruct (decide (h = block_hash hdr)) as [->|Hne].
    + rewrite lookup_insert_eq. intros [= <-] [= <-]. split_and!; [lia|lia|]. intros _.
      apply (off_chain_parent _ (n + 1)); [done..|]. exists p. cbn. split; [done|]. rewrite Hn. f_equal. lia.
    + rewrite lookup_insert_ne by done. intros Hx Hxn.
      destruct (sh_parent _ _ _ _ _ Hs h x m Hx Hxn) as (H0m & Hg & Hpp). split_and!; [done..|].
      intros Hm0. apply (off_chain_parent _ (n + 1)); [done..|]. by apply Hpp.
  - intros h x m. destruct (decide (h = block_hash hdr)) as [->|Hne].
    + rewrite lookup_insert_eq. done.
    + rewrite lookup_insert_ne by done. apply (sh_assumed _ _ _ _ _ Hs).
Qed.

(** Extending the chain by a header on top of its tip. *)
Lemma shape_extend hdr :
  off_chain (block_hash hdr) (dep + 1) -> block_hash hdr <> 0 -> prev_blockhash hdr = tip ->
  chain_shape (<[block_hash hdr := HeadersOnly hdr (dep + 1)]> hs)
    (<[dep + 1 := HeadersOnly hdr (dep + 1)]> sl) (dep + 1) (block_hash hdr) gen.
Proof.
  intros Ho Hz Hp. destruct tip_header as (t & Ht & Htm & Htn & Hts).
  pose proof (sh_depth _ _ _ _ _ Hs) as Hdep. split.
  - intros h x. destruct (decide (h = block_hash hdr)) as [->|Hne].
    + rewrite lookup_insert_eq. by intros [= <-].
    + rewrite lookup_insert_ne by done. apply (sh_key _ _ _ _ _ Hs).
  - lia.
  - intros m Hm. destruct (decide (m = dep + 1)) as [->|Hne].
    + eexists. rewrite lookup_insert_eq. split_and!; try done.
      * cbn. by rewrite lookup_insert_eq.
      * intros _. exists t. replace (dep + 1 - 1) with dep by lia.
        rewrite lookup_insert_ne by lia. split; [done|]. cbn. rewrite Hp.
        by destruct (sh_key _ _ _ _ _ Hs _ _ Ht).
    + destruct (sh_slot _ _ _ _ _ Hs m) as (d & Hd & Hh & Hmm & Hn & Hpp); [lia|]. exists d.
      split_and!; try done; [by rewrite lookup_insert_ne by lia| |].
      { rewrite lookup_insert_ne; [done|]. intros E. by apply (off_chain_main _ _ d m Ho); [|lia|]. }
      intros Hm0. destruct (Hpp Hm0) as (q & Hq & Eq). exists q.
      by rewrite lookup_insert_ne by lia.
  - eexists. by rewrite lookup_insert_eq.
  - destruct (sh_genesis _ _ _ _ _ Hs) as (g & Hg & Hgh). exists g. by rewrite lookup_insert_ne by lia.
  - intros h x m. destruct (decide (h = block_hash hdr)) as [->|Hne].
    + rewrite lookup_insert_eq. intros [= <-] _ [= <-]. rewrite lookup_insert_eq. split; [lia|done].
    + rewrite lookup_insert_ne by done. intros Hx Hxm Hxn.
      destruct (sh_main _ _ _ _ _ Hs h x m Hx Hxm Hxn) as [Hmd Hms]. split; [lia|].
      by rewrite lookup_insert_ne by lia.
  - intros h x m. destruct (decide (h = block_hash hdr)) as [->|Hne].
    + rewrite lookup_insert_eq. intros [= <-] [= <-]. split_and!; [lia|lia|]. intros _.
      apply (off_chain_parent _ (dep + 1)); [done..|]. exists t. cbn. rewrite Hp, Htn. split; [done|].
      f_equal. lia.
    + rewrite lookup_insert_ne by done. intros Hx Hxn.
      destruct (sh_parent _ _ _ _ _ Hs h x m Hx Hxn) as (H0m & Hg & Hpp). split_and!; [done..|].
      intros Hm0. apply (off_chain_parent _ (dep + 1)); [done..|]. by apply Hpp.
  - intros h x m. destruct (decide (h = block_hash hdr)) as [->|Hne].
    + rewrite lookup_insert_eq. done.
    + rewrite lookup_insert_ne by done. apply (sh_assumed _ _ _ _ _ Hs).
Qed.

(** * Cutting the chain *)

(** Best-chain headers above [f] become fork headers. *)
Definition demote (f : Z) (d : DiskBlockHeader) : DiskBlockHeader :=
  match dh_height d with
  | Some n => if is_main d && (f <? n) then InFork (deref d) n else d
  | None => d
  end.

Lemma demote_deref f d : deref (demote f d) = deref d.
Proof. unfold demote. destruct (dh_height d); [|done]. by destruct (_ && _). Qed.

Lemma demote_height f d : dh_height (demote f d) = dh_height d.
Proof. unfold demote. destruct (dh_height d) eqn:E; [|done]. by destruct (_ && _). Qed.

Lemma demote_main f d n :
  dh_height d = Some n -> is_main (demote f d) = true -> demote f d = d /\ n <= f.
Proof.
  intros Hn. unfold demote. rewrite Hn. destruct (is_main d) eqn:Em; cbn; [|congruence].
  destruct (Z.ltb_spec f n); done.
Qed.

Lemma demote_le f d n : dh_height d = Some n -> n <= f -> demote f d = d.
Proof. intros Hn Hf. unfold demote. rewrite Hn. destruct (Z.ltb_spec f n); [lia|]. by rewrite andb_false_r. Qed.

Lemma shape_cut f fd :
  0 <= f <= dep -> sl !! f = Some fd -> chain_shape (demote f <$> hs) sl f (dh_hash fd) gen.
Proof.
  intros Hf Hfd. split.
  - intros h x. rewrite lookup_fmap_Some. intros (y & <- & Hy).
    unfold dh_hash. rewrite demote_deref. by apply (sh_key _ _ _ _ _ Hs).
  - lia.
  - intros n Hn. destruct (sh_slot _ _ _ _ _ Hs n) as (d & Hd & Hh & Hm & Hdn & Hp); [lia|].
    exists d. rewrite lookup_fmap, Hh. cbn. rewrite (demote_le f d n) by (done || lia). done.
  - by exists fd.
  - apply (sh_genesis _ _ _ _ _ Hs).
  - intros h x n. rewrite lookup_fmap_Some. intros (y & <- & Hy). rewrite demote_height.
    intros Hm Hn. destruct (demote_main f y n Hn Hm) as [E Hnf]. rewrite E in *.
    destruct (sh_main _ _ _ _ _ Hs h y n Hy Hm Hn) as [? ?]. split; [lia|done].
  - intros h x n. rewrite lookup_fmap_Some. intros (y & <- & Hy). rewrite demote_height, demote_deref.
    intros Hn. destruct (sh_parent _ _ _ _ _ Hs h y n Hy Hn) as (H0 & Hg & Hp). split_and!; [done..|].
    intros Hn0. destruct (Hp Hn0) as (p & Hps & Hpn). exists (demote f p).
    rewrite lookup_fmap, Hps. split; [done|]. by rewrite demote_height.
  - intros h hd n. rewrite lookup_fmap_Some. intros (y & Hy & Hhy).
    unfold demote in Hy. destruct (dh_height y) as [k|] eqn:Ey; [|subst y; done].
    destruct (_ && _); [done|]. subst y. by eapply sh_assumed.
Qed.

(** One step of the cut: the header at the top becomes a fork header. *)
Lemma demote_step n d :
  0 < n <= dep -> sl !! n = Some d ->
  <[dh_hash d := InFork (deref d) n]> (demote n <$> hs) = demote (n - 1) <$> hs.
Proof.
  intros Hn Hd. destruct (sh_slot _ _ _ _ _ Hs n) as (e & He & Hh & Hm & Hdn & _); [lia|].
  assert (e = d) as -> by congruence. apply map_eq. intros h. rewrite lookup_fmap.
  destruct (decide (h = dh_hash d)) as [->|Hne].
  - rewrite lookup_insert_eq, Hh. cbn. unfold demote. rewrite Hdn, Hm. cbn.
    by destruct (Z.ltb_spec (n - 1) n); [|lia].
  - rewrite lookup_insert_ne, lookup_fmap by done. destruct (hs !! h) as [x|] eqn:Hx; [|done]. cbn.
    f_equal. unfold demote. destruct (dh_height x) as [k|] eqn:Hk; [|done].
    destruct (is_main x) eqn:Hxm; [|done]. cbn.
    assert (k <> n).
    { intros ->. pose proof (main_unique _ _ _ _ Hx Hxm Hk Hd) as ->.
      by destruct (sh_key _ _ _ _ _ Hs _ _ Hx). }
    destruct (Z.ltb_spec n k), (Z.ltb_spec (n - 1) k); done || lia.
Qed.

Lemma demote_top : demote dep <$> hs = hs.
Proof.
  apply map_eq. intros h. rewrite lookup_fmap. destruct (hs !! h) as [x|] eqn:Hx; [|done]. cbn. f_equal.
  unfold demote. destruct (dh_height x) as [k|] eqn:Hk; [|done].
  destruct (is_main x) eqn:Hm; [|done]. cbn.
  destruct (sh_main _ _ _ _ _ Hs h x k Hx Hm Hk) as [? _]. destruct (Z.ltb_spec dep k); [lia|done].
Qed.
End Lemmas.

(** * Heights *)

(** The header [x], stored or about to be, is at height [n]. *)
Definition at_height hs (gen : BlockHash) (x : BlockHeader) (n : Z) : Prop :=
  (block_hash x = gen /\ n = 0) \/
  (block_hash x <> gen /\ 0 < n /\
   exists p, hs !! prev_blockhash x = Some p /\ dh_height p = Some (n - 1)).

Lemma stored_at_height hs sl dep tip gen h d n :
  chain_shape hs sl dep tip gen -> hs !! h = Some d -> dh_height d = Some n ->
  at_height hs gen (deref d) n.
Proof.
  intros Hs Hd Hn. destruct (sh_parent _ _ _ _ _ Hs h d n Hd Hn) as (H0 & _ & Hp).
  destruct (sh_key _ _ _ _ _ Hs h d Hd) as [Hk _]. unfold dh_hash in Hk. rewrite <-Hk in Hd.
  pose proof (genesis_height _ _ _ _ _ Hs _ _ _ Hd Hn) as Hg.
  destruct (Z.eq_dec n 0) as [->|Hne]; [left|right].
  - split; [|done]. by apply Hg.
  - split_and!; [by intros E%Hg|lia|]. apply Hp. lia.
Qed.

(** * Branches *)

(** [branch hs x n f fp l]: from [x] at height [n] down to height [f + 1] run
    the headers [l], all but [x] stored in forks; below them is the best-chain
    header [fp] at height [f]. *)
Inductive branch hs : BlockHeader -> Z -> Z -> DiskBlockHeader -> list BlockHeader -> Prop :=
  | branch_one x p f :
      hs !! prev_blockhash x = Some p -> is_main p = true -> dh_height p = Some f ->
      branch hs x (f + 1) f p [x]
  | branch_step x y n f p l :
      hs !! prev_blockhash x = Some (InFork y n) -> branch hs y n f p l ->
      branch hs x (n + 1) f p (x :: l).

Lemma branch_above hs x n f p l : branch hs x n f p l -> f < n.
Proof. induction 1; lia. Qed.

Lemma branch_fork_point hs x n f p l :
  branch hs x n f p l -> exists h, hs !! h = Some p /\ is_main p = true /\ dh_height p = Some f.
Proof. induction 1; [by eexists|done]. Qed.

Lemma branch_unique hs x n f p l n' f' p' l' :
  branch hs x n f p l -> branch hs x n' f' p' l' -> n = n' /\ f = f' /\ p = p' /\ l = l'.
Proof.
  intros Hb. revert n' f' p' l'. induction Hb as [x p f Hp Hm Hf|x z n f p l Hz Hb IH];
    intros n' f' p' l' Hb'; inversion Hb' as [? p2 f2 Hp2 Hm2 Hf2|? z2 n2 f2 p2 l2 Hz2 Hb2]; subst.
  - assert (p = p') as <- by congruence. by assert (f = f') as <- by congruence.
  - exfalso. assert (p = InFork z2 n2) as -> by congruence. done.
  - exfalso. assert (p' = InFork z n) as -> by congruence. done.
  - rewrite Hz in Hz2. injection Hz2 as <- <-. by destruct (IH _ _ _ _ Hb2) as (_ & -> & -> & ->).
Qed.

(** The headers of a branch below its top are stored in forks, lower. *)
Lemma branch_stored hs sl dep tip gen x n f p l y :
  chain_shape hs sl dep tip gen -> branch hs x n f p l -> y ∈ l ->
  y = x \/ exists m, m < n /\ hs !! block_hash y = Some (InFork y m).
Proof.
  intros Hs Hb. induction Hb as [x p f Hp Hm Hf|x z n f p l Hz Hb IH]; intros Hy.
  - left. by apply list_elem_of_singleton in Hy.
  - apply elem_of_cons in Hy as [->|Hy]; [by left|right].
    destruct (IH Hy) as [->|(m & Hm & Hh)]; [|exists m; split; [lia|done]].
    exists n. split; [lia|]. destruct (sh_key _ _ _ _ _ Hs _ _ Hz) as [Hk _].
    change (block_hash z) with (dh_hash (InFork z n)). by rewrite Hk.
Qed.

(** The maps after the headers of a branch were activated, top first. *)
Fixpoint activate_h (l : list BlockHeader) (n : Z) hs : gmap BlockHash DiskBlockHeader :=
  match l with
  | [] => hs
  | x :: l' => activate_h l' (n - 1) (<[block_hash x := HeadersOnly x n]> hs)
  end.
Fixpoint activate_s (l : list BlockHeader) (n : Z) sl : gmap Z DiskBlockHeader :=
  match l with
  | [] => sl
  | x :: l' => activate_s l' (n - 1) (<[n := HeadersOnly x n]> sl)
  end.

Lemma activate_h_insert l k d : forall n hs,
  (forall y, y ∈ l -> block_hash y <> k) ->
  activate_h l n (<[k := d]> hs) = <[k := d]> (activate_h l n hs).
Proof.
  induction l as [|x l IH]; intros n hs Hl; cbn; [done|].
  rewrite insert_insert_ne by (apply Hl; left). apply IH. intros y Hy. apply Hl. by right.
Qed.

Lemma activate_h_other l k : forall n hs,
  (forall y, y ∈ l -> block_hash y <> k) -> activate_h l n hs !! k = hs !! k.
Proof.
  induction l as [|x l IH]; intros n hs Hl; cbn; [done|]. rewrite IH by (intros; apply Hl; by right).
  apply lookup_insert_ne, Hl. left.
Qed.

Lemma activate_s_insert l k d : forall n sl,
  n < k -> activate_s l n (<[k := d]> sl) = <[k := d]> (activate_s l n sl).
Proof.
  induction l as [|x l IH]; intros n sl Hk; cbn; [done|].
  rewrite insert_insert_ne by lia. apply IH. lia.
Qed.

Lemma activate_s_low hs x n f p l sl m :
  branch hs x n f p l -> m <= f -> activate_s l n sl !! m = sl !! m.
Proof.
  intros Hb Hm. revert sl. induction Hb as [x p f Hp _ _|x z n f p l Hz Hb IH]; intros sl; cbn.
  - by rewrite lookup_insert_ne by lia.
  - replace (n + 1 - 1) with n by lia. rewrite IH by done. pose proof (branch_above _ _ _ _ _ _ Hb).
    by rewrite lookup_insert_ne by lia.
Qed.

Lemma activate_s_high hs x n f p l sl m :
  branch hs x n f p l -> f < m <= n -> exists y, activate_s l n sl !! m = Some (HeadersOnly y m).
Proof.
  intros Hb Hm. revert sl. induction Hb as [x p f Hp _ _|x z n f p l Hz Hb IH]; intros sl; cbn.
  - replace m with (f + 1) by lia. exists x. apply lookup_insert_eq.
  - replace (n + 1 - 1) with n by lia. destruct (decide (m = n + 1)) as [->|Hne].
    + exists x. rewrite activate_s_insert by lia. apply lookup_insert_eq.
    + apply IH. lia.
Qed.

(** Activating a branch on top of a chain that was cut at its fork
    point gives a chain that ends at the top of the branch. *)
Lemma shape_activate hs sl gen x n f p l :
  chain_shape hs sl f (dh_hash p) gen -> branch hs x n f p l ->
  off_chain hs (block_hash x) n -> block_hash x <> 0 ->
  chain_shape (activate_h l n hs) (activate_s l n sl) n (block_hash x) gen.
Proof.
  intros Hs Hb. induction Hb as [x p f Hp Hm Hf|x z n f p l Hz Hb IH]; intros Ho Hnz; cbn.
  - apply (shape_extend _ _ _ _ _ Hs); try done.
    by destruct (sh_key _ _ _ _ _ Hs _ _ Hp) as [-> _].
  - replace (n + 1 - 1) with n by lia.
    destruct (sh_key _ _ _ _ _ Hs _ _ Hz) as [Hk Hkz]. cbn in Hk.
    assert (Hl : forall y, y ∈ l -> block_hash y <> block_hash x).
    { intros y Hy E. assert (Hst : exists m, m <= n /\ hs !! block_hash y = Some (InFork y m)).
      { destruct (branch_stored _ _ _ _ _ _ _ _ _ _ y Hs Hb Hy) as [->|(m & Hm & Hh)].
        - exists n. split; [lia|]. change (block_hash z) with (dh_hash (InFork z n)). by rewrite Hk.
        - exists m. split; [lia|done]. }
      destruct Hst as (m & Hm & Hst). rewrite E in Hst.
      destruct Ho as [Ho|(e & He & _ & Hen)]; [congruence|].
      assert (e = InFork y m) as -> by congruence. cbn in Hen. injection Hen. lia. }
    rewrite activate_h_insert, activate_s_insert by (done || lia).
    apply (shape_extend _ _ _ _ _ (IH Hs ltac:(right; exists (InFork z n);
      change (block_hash z) with (dh_hash (InFork z n)); by rewrite Hk)
      ltac:(change (block_hash z) with (dh_hash (InFork z n)); by rewrite Hk))); try done.
    unfold off_chain in *. by rewrite activate_h_other.
Qed.
End ChainShape.
