(* ===== verification/ChainFacts.v ===== *)
(** The invariant of the chain state: its store holds a well-shaped chain
    ([ChainShape]), the validated blocks are a prefix of it, and the
    accumulator is the one after the last validated block.  This file proves
    the reads, the simple writes and [connect_block]. *)

From stdpp Require Import base gmap list strings.
From Stdlib Require Import ZArith Lia.
From S2P Require Import Prelude Bitcoin Errors ChainParams Codec Merkle Sigops Extensions Udata.
From S2P Require Import SwiftSync Consensus ChainStore ChainQuery PartialChain ChainState.
From S2P Require Import ChainShape.

Section ChainFacts.
Context `{HashLib, TxLib, HeaderLib, KernelLib, UtreexoLib}.
Context `{!Codec TxOut}.
Context {S DbErr : Type} `{!ChainStore S DbErr} (rep : S -> StoreView -> Prop)
  (roots_room : S -> Prop) `{!ChainStoreOk S DbErr rep roots_room}.

Abbreviation Inner := (ChainStateInner S) (only parsing).
Implicit Types (c : Inner) (v : StoreView) (d : DiskBlockHeader).

Definition genesis_hash c : BlockHash := blk_hash (genesis (parameters c)).

(** [a] is the accumulator after block [n]. *)
Definition acc_at v (n : Z) (a : Stump) : Prop :=
  (n = 0 /\ a = stump_new) \/
  (0 < n /\ exists b, v_roots v !! n = Some b /\ stump_deserialize b = inr a).

(** The best chain of [c] in the view [v]. *)
Definition shape c v : Prop :=
  chain_shape (v_headers v) (v_slots v) (depth (best_chain c)) (best_block (best_chain c))
    (genesis_hash c).

(** [n] is the height of the validation index: exactly the blocks up to it
    are validated, and the accumulator is the one after it. *)
Record validated_to c v (n : Z) : Prop := {
  vt_header : exists hd, v_headers v !! validation_index (best_chain c) = Some (FullyValid hd n);
  vt_prefix : forall m d, 0 <= m <= depth (best_chain c) -> v_slots v !! m = Some d ->
    is_fully_valid d = true <-> m <= n;
  vt_acc : acc_at v n (acc c)
}.

Record chain_inv c v : Prop := {
  ci_rep : rep (chainstore c) v;
  ci_shape : shape c v;
  ci_valid : exists n, validated_to c v n
}.

(** * Reads *)

Lemma get_disk_inv c v h :
  chain_inv c v -> get_disk_block_header c h = ok_or (v_headers v !! h) BlockNotPresent.
Proof.
  intros Hi. unfold get_disk_block_header, db. rewrite (get_header_rep _ _ _ (ci_rep _ _ Hi)). done.
Qed.

Lemma get_disk_rep c v h d :
  rep (chainstore c) v -> get_disk_block_header c h = Ok d <-> v_headers v !! h = Some d.
Proof.
  intros Hr. unfold get_disk_block_header, db. rewrite (get_header_rep _ _ _ Hr). cbn.
  apply ok_or_ok.
Qed.

Lemma get_disk_ok c v h d :
  chain_inv c v -> get_disk_block_header c h = Ok d <-> v_headers v !! h = Some d.
Proof. intros Hi. apply get_disk_rep, (ci_rep _ _ Hi). Qed.

Lemma get_block_header_ok c v h x :
  chain_inv c v -> get_block_header c h = Ok x <->
  exists d, v_headers v !! h = Some d /\ deref d = x.
Proof.
  intros Hi. unfold get_block_header, db. rewrite (get_header_rep _ _ _ (ci_rep _ _ Hi)). cbn.
  destruct (v_headers v !! h) as [d|]; split; try done.
  - intros [= <-]. by exists d.
  - intros (d' & [= <-] & ->). done.
  - by intros (d' & ? & _).
Qed.

Lemma validation_index_ok c v n :
  chain_inv c v -> validated_to c v n ->
  get_validation_index c = Ok n /\ 0 <= n <= depth (best_chain c).
Proof.
  intros Hi Hv. destruct (vt_header _ _ _ Hv) as [hd Hh]. split.
  - unfold get_validation_index. by rewrite (proj2 (get_disk_ok _ _ _ _ Hi) Hh).
  - by destruct (sh_main _ _ _ _ _ (ci_shape _ _ Hi) _ _ n Hh).
Qed.

(** * Writes *)

Lemma store_ok {A} (m : S -> outcome DbErr A * S) c a c' :
  store m c = (Ok a, c') <-> exists s', m (chainstore c) = (Ok a, s') /\ c' = set_store s' c.
Proof.
  unfold store. destruct (m (chainstore c)) as [o s]. split.
  - destruct o; cbn; intros [= -> <-]. by exists s.
  - by intros (s' & [= -> ->] & ->).
Qed.

Lemma update_header_and_index_ok d h n c c' :
  update_header_and_index d h n c = (Ok tt, c') ->
  exists s1 s2, save_header d (chainstore c) = (Ok tt, s1) /\
    update_block_index n h s1 = (Ok tt, s2) /\ c' = set_store s2 c.
Proof.
  intros Hu. apply stm_bind_ok in Hu as ([] & c1 & Hs & Hu).
  apply store_ok in Hs as (s1 & Hs & ->). apply store_ok in Hu as (s2 & Hu & ->).
  by exists s1, s2.
Qed.

(** Saving a best-chain header above the genesis block in a well-shaped
    store. *)
Lemma save_main_shape s v d n s1 s2 dep tip gen :
  rep s v -> chain_shape (v_headers v) (v_slots v) dep tip gen ->
  is_main d = true -> dh_height d = Some n -> 0 < n -> dh_hash d <> 0 -> dh_hash d <> gen ->
  (n <= dep -> exists e, v_slots v !! n = Some e /\ dh_hash e = dh_hash d) ->
  save_header d s = (Ok tt, s1) -> update_block_index n (dh_hash d) s1 = (Ok tt, s2) ->
  rep s2 (mkStoreView (<[dh_hash d := d]> (v_headers v)) (<[n := d]> (v_slots v))
            (delete n (v_roots v))) /\ (roots_room s -> roots_room s2).
Proof.
  intros Hr Hs Hm Hn Hn0 Hz Hg Hfree Hsave Hidx.
  apply (save_main_rep s v d n s1 s2); try done.
  - destruct (sh_genesis _ _ _ _ _ Hs) as (g & Hgs & Hgh). exists g. by rewrite Hgh.
  - intros h' d' Hh' Hm' Hn'. destruct (sh_main _ _ _ _ _ Hs _ _ _ Hh' Hm' Hn') as [Hle Hs'].
    destruct Hfree as (e & He & <-); [lia|]. assert (d' = e) as -> by congruence.
    by destruct (sh_key _ _ _ _ _ Hs _ _ Hh') as [<- _].
Qed.

(** * Connecting blocks *)

Lemma update_view_ok n hdr a c c' :
  update_view n hdr a c = (Ok tt, c') ->
  exists s1 s2 s3 roots, save_header (FullyValid hdr n) (chainstore c) = (Ok tt, s1) /\
    update_block_index n (block_hash hdr) s1 = (Ok tt, s2) /\
    stump_serialize a = inr roots /\ save_roots_for_block roots n s2 = (Ok tt, s3) /\
    c' = set_best (bc_valid_block (block_hash hdr) (best_chain c)) (set_acc a (set_store s3 c)).
Proof.
  intros Hu. unfold update_view in Hu. apply stm_bind_ok in Hu as ([] & c1 & Hs & Hu).
  apply store_ok in Hs as (s1 & Hs & ->). apply stm_bind_ok in Hu as ([] & c2 & Hx & Hu).
  apply store_ok in Hx as (s2 & Hx & ->). apply stm_bind_ok in Hu as (roots & c3 & Hser & Hu).
  injection Hser as Hser <-. unfold serialize in Hser.
  destruct (stump_serialize a) as [e|b] eqn:Eb; [done|]. injection Hser as ->.
  apply stm_bind_ok in Hu as ([] & c4 & Hr & Hu). apply store_ok in Hr as (s3 & Hr & ->).
  apply stm_bind_ok in Hu as ([] & c5 & [= <-] & [= <-]). by exists s1, s2, s3, roots.
Qed.

Context `{!StumpOk}.

Lemma update_view_inv c v n hdr d a c' vi :
  chain_inv c v -> validated_to c v vi -> roots_room (chainstore c) -> 0 < n ->
  v_headers v !! block_hash hdr = Some d -> deref d = hdr -> is_main d = true ->
  dh_height d = Some n -> n = vi \/ n = vi + 1 ->
  update_view n hdr a c = (Ok tt, c') ->
  exists v', chain_inv c' v' /\ validated_to c' v' n /\
    acc c' = a /\ best_chain c' = bc_valid_block (block_hash hdr) (best_chain c) /\
    v_slots v' = <[n := FullyValid hdr n]> (v_slots v).
Proof.
  intros Hi Hvt Hroom Hn Hd Hde Hm Hdn Hnvi Hu. pose proof (ci_shape _ _ Hi) as Hs.
  destruct (sh_main _ _ _ _ _ Hs _ _ _ Hd Hm Hdn) as [Hnd Hslot].
  destruct (sh_key _ _ _ _ _ Hs _ _ Hd) as [Hk Hnz].
  assert (Hng : block_hash hdr <> genesis_hash c).
  { intros E. apply (genesis_height _ _ _ _ _ Hs _ _ _ Hd Hdn) in E. lia. }
  apply update_view_ok in Hu as (s1 & s2 & s3 & roots & Hsave & Hx & Hser & Hr & ->).
  destruct (stump_roundtrip a roots Hser) as [Hrne Hrt].
  destruct (save_main_shape (chainstore c) v (FullyValid hdr n) n s1 s2 _ _ _ (ci_rep _ _ Hi) Hs)
    as [Hrep Hroom2]; try done; [intros _; by exists d|].
  destruct (save_roots_rep s2 _ n (FullyValid hdr n) roots s3 Hrep (Hroom2 Hroom) Hn)
    as (rts & Hrep3 & Hrts); [cbn; apply lookup_insert_eq|done..|].
  set (v' := mkStoreView _ _ rts) in Hrep3. set (c' := set_best _ _).
  assert (Hvt' : validated_to c' v' n).
  { split; cbn.
    - exists hdr. apply lookup_insert_eq.
    - intros m x Hmd. destruct (decide (m = n)) as [->|Hne].
      + rewrite lookup_insert_eq. intros [= <-]. cbn. split; [lia|done].
      + rewrite lookup_insert_ne by done. intros Hx'. rewrite (vt_prefix _ _ _ Hvt m x Hmd Hx'). lia.
    - right. split; [done|]. by exists roots. }
  exists v'. split_and!; try done. split; [exact Hrep3| |by exists n].
  by apply (shape_restatus _ _ _ _ _ Hs n d (FullyValid hdr n)).
Qed.

(** The invariant only looks at the store, the best chain, the accumulator
    and the parameters. *)
Lemma chain_inv_set_store s c v : rep s v -> chain_inv c v -> chain_inv (set_store s c) v.
Proof.
  intros Hr [_ Hs [n [Hh Hp Ha]]]. split; [done|exact Hs|]. exists n. split; done.
Qed.

Lemma flush_inv c v c' :
  chain_inv c v -> flush c = (Ok tt, c') ->
  exists s', c' = set_store s' c /\ rep s' v.
Proof.
  intros Hi Hf. unfold flush in Hf. apply stm_bind_ok in Hf as (b & c0 & [= <- <-] & Hf).
  apply stm_bind_ok in Hf as ([] & c1 & Hs & Hf). apply store_ok in Hs as (s1 & Hs & ->).
  apply store_ok in Hf as (s2 & Hf & ->). exists s2. split; [done|].
  eapply flush_rep; [|exact Hf]. eapply save_height_rep; [|exact Hs]. apply (ci_rep _ _ Hi).
Qed.

(** What a subscriber has received after a notification. *)
Definition notified (b : Block) (n : Z) (inputs : gmap OutPoint UtxoData) (k : BlockConsumer)
  : BlockConsumer :=
  mkBlockConsumer (wants_spent_utxos k)
    (received k ++ [(b, n, if wants_spent_utxos k then Some inputs else None)]).

Lemma notify_loop_all b n inputs l :
  notify_loop b n (if existsb wants_spent_utxos l then Some inputs else None) l
  = Ok (map (notified b n inputs) l).
Proof.
  assert (Hgen : forall o l', (forall k, k ∈ l' -> wants_spent_utxos k = true -> o = Some inputs) ->
            notify_loop b n o l' = Ok (map (notified b n inputs) l')).
  { intros o. induction l' as [|k l' IH]; intros Hw; [done|]. cbn [notify_loop map].
    unfold on_block. destruct (wants_spent_utxos k) eqn:Ek.
    - assert (o = Some inputs) as -> by (apply (Hw k); [left|done]). cbn.
      rewrite IH by (intros k' Hk'; apply Hw; by right). cbn. unfold notified at 2. by rewrite Ek.
    - cbn. rewrite IH by (intros k' Hk'; apply Hw; by right). cbn. unfold notified at 2. by rewrite Ek. }
  apply Hgen. intros k Hk Hw. destruct (existsb wants_spent_utxos l) eqn:E; [done|].
  exfalso. assert (existsb wants_spent_utxos l = true); [|congruence].
  apply existsb_exists. exists k. split; [by apply list_elem_of_In|done].
Qed.

(** The steps of a successful [connect_block]. *)
Lemma connect_block_steps b proof inputs dels c n c' :
  connect_block b proof inputs dels c = (Ok n, c') ->
  exists d a c1 c2, get_disk_block_header c (blk_hash b) = Ok d /\ connect_height c d = Ok n /\
    update_acc (acc c) b n proof dels = Ok a /\ validate_block_no_acc c b n inputs = Ok tt /\
    update_view n (blk_header b) a c = (Ok tt, c1) /\ (c2 = c1 \/ flush c1 = (Ok tt, c2)) /\
    exists l, notify_loop b n
      (if existsb wants_spent_utxos (subscribers c) then Some inputs else None) (subscribers c2)
      = Ok l /\ c' = set_subscribers l c2.
Proof.
  intros Hc. unfold connect_block in Hc. apply stm_bind_ok in Hc as ([h a] & c0 & Hk & Hc).
  injection Hk as Hk <-. unfold connect_checks in Hk.
  apply obind_ok in Hk as (d & Hd & Hk). apply obind_ok in Hk as (h' & Hh & Hk).
  apply obind_ok in Hk as (a' & Ha & Hk). apply obind_ok in Hk as ([] & Hv & [= -> ->]).
  apply stm_bind_ok in Hc as (o & c0 & [= <- <-] & Hc).
  apply stm_bind_ok in Hc as ([] & c1 & Hu & Hc).
  apply stm_bind_ok in Hc as (ib & c0 & [= <- <-] & Hc).
  apply stm_bind_ok in Hc as ([] & c2 & Hf & Hc).
  apply stm_bind_ok in Hc as ([] & c3 & Hn & [= <- <-]).
  unfold notify in Hn. apply stm_bind_ok in Hn as (l & c4 & Hl & [= <-]). injection Hl as Hl <-.
  exists d, a, c1, c2. split_and!; try done; [|by exists l].
  destruct (negb (is_in_ibd c1) || (h mod 100000 =? 0)); [by right|left; by injection Hf].
Qed.

(** A connected block keeps the invariant. *)
Lemma connect_block_inv (b : Block) (proof : Proof_) (inputs : gmap OutPoint UtxoData)
  (dels : list Z) c v n c' :
  chain_inv c v -> roots_room (chainstore c) ->
  (forall d, v_headers v !! blk_hash b = Some d -> deref d = blk_header b) ->
  blk_hash b <> genesis_hash c -> connect_block b proof inputs dels c = (Ok n, c') ->
  exists v' vi, chain_inv c' v' /\ validated_to c v vi /\ validated_to c' v' n /\
    (n = vi + 1 \/ n = vi) /\
    update_acc (acc c) b n proof dels = Ok (acc c') /\
    validate_block_no_acc c b n inputs = Ok tt /\
    best_chain c' = bc_valid_block (blk_hash b) (best_chain c) /\
    subscribers c' = map (notified b n inputs) (subscribers c).
Proof.
  intros Hinv Hroom Hhdr Hgen Hc.
  apply connect_block_steps in Hc as (d & a & c1 & c2 & Hd & Hh & Ha & Hv & Hu & Hf & l & Hl & ->).
  apply (get_disk_ok _ _ _ _ Hinv) in Hd. destruct (ci_valid _ _ Hinv) as [vi Hvt].
  destruct (validation_index_ok _ _ _ Hinv Hvt) as [Hvi _].
  assert (Hn : is_main d = true /\ dh_height d = Some n /\ (n = vi + 1 \/ n = vi)).
  { destruct d; try done; cbn in Hh; rewrite Hvi in Hh; cbn in Hh.
    - apply obind_ok in Hh as (? & He & [= ->]). apply err_if_ok in He. zbool. auto.
    - apply obind_ok in Hh as (nx & Hnx & Hh). apply u32_add_ok in Hnx as [-> _].
      apply obind_ok in Hh as (? & He & [= ->]). apply err_if_ok in He. zbool. auto. }
  destruct Hn as (Hm & Hdn & Hcase).
  destruct (sh_parent _ _ _ _ _ (ci_shape _ _ Hinv) _ _ _ Hd Hdn) as (Hn0 & Hg & _).
  assert (Hpos : 0 < n) by (destruct (Z.eq_dec n 0); [by destruct Hgen; apply Hg|lia]).
  pose proof Hu as Hu'. apply update_view_ok in Hu' as (? & ? & ? & ? & _ & _ & _ & _ & Ec1).
  destruct (update_view_inv c v n (blk_header b) d a c1 vi) as (v' & Hi1 & Hvt1 & Eacc & Eb & _);
    try done; [by apply Hhdr|lia|].
  assert (Hi2 : chain_inv c2 v' /\ validated_to c2 v' n /\ acc c2 = acc c1 /\
            best_chain c2 = best_chain c1 /\ subscribers c2 = subscribers c).
  { destruct Hf as [->|(s' & -> & Hr)%(flush_inv _ _ _ Hi1)].
    - split_and!; try done. by rewrite Ec1.
    - split_and!; [by apply chain_inv_set_store|by destruct Hvt1; split|done|done|by rewrite Ec1]. }
  destruct Hi2 as ([Hr2 Hs2 Hv2] & Hvt2 & Ea2 & Eb2 & Es2).
  rewrite Es2, notify_loop_all in Hl. injection Hl as <-.
  exists v', vi. split_and!; try done.
  - split; [done|exact Hs2|]. destruct Hv2 as [m [? ? ?]]. exists m. by split.
  - by destruct Hvt2; split.
  - cbn. by rewrite Ea2, Eacc.
  - cbn. by rewrite Eb2, Eb.
Qed.

(** C4: When connect_block returns height n, n is the validation index plus one (or the
    validation index itself, when that block is processed again), the block passed
    validation and its proof updated the accumulator, the validation index is now n with
    the blocks up to n fully valid and the accumulator the one stored for n, every
    subscriber was notified, and the chain invariant holds. *)
Theorem connect_block_correct (b : Block) (proof : Proof_) (inputs : gmap OutPoint UtxoData)
  (dels : list Z) c v n c'
  (Hinv : chain_inv c v) (Hroom : roots_room (chainstore c))
  (Hhdr : forall d, v_headers v !! blk_hash b = Some d -> deref d = blk_header b)
  (Hgen : blk_hash b <> genesis_hash c)
  (Hc : connect_block b proof inputs dels c = (Ok n, c')) :
  exists v' vi, chain_inv c' v' /\ validated_to c v vi /\ validated_to c' v' n /\
    (n = vi + 1 \/ n = vi) /\
    update_acc (acc c) b n proof dels = Ok (acc c') /\
    validate_block_no_acc c b n inputs = Ok tt /\
    best_chain c' = bc_valid_block (blk_hash b) (best_chain c) /\
    subscribers c' = map (notified b n inputs) (subscribers c).
Proof. by apply (connect_block_inv b proof inputs dels c v n c'). Qed.

(** ** Rejected blocks *)

(** Errors of the store and of the serialisation of the accumulator. *)
Definition storage_error (e : BlockchainError) : bool :=
  match e with Database | AccumulatorError _ => true | _ => false end.

Lemma store_err {A} (m : S -> outcome DbErr A * S) c e c' :
  store m c = (Err e, c') -> storage_error e = true.
Proof. unfold store. destruct (m (chainstore c)) as [[] s]; cbn; by intros [= <- _]. Qed.

Lemma update_view_err n hdr a c e c' :
  update_view n hdr a c = (Err e, c') -> storage_error e = true.
Proof.
  unfold update_view. intros Hu.
  apply stm_bind_err in Hu as [Hu|(? & ? & _ & Hu)]; [by eapply store_err|].
  apply stm_bind_err in Hu as [Hu|(? & ? & _ & Hu)]; [by eapply store_err|].
  apply stm_bind_err in Hu as [Hu|(? & ? & _ & Hu)].
  { unfold lift, serialize in Hu. destruct (stump_serialize a); [by injection Hu as <- _|done]. }
  apply stm_bind_err in Hu as [Hu|(? & ? & _ & Hu)]; [by eapply store_err|].
  apply stm_bind_err in Hu as [Hu|(? & ? & _ & Hu)]; done.
Qed.

Lemma flush_err c e c' : flush c = (Err e, c') -> storage_error e = true.
Proof.
  unfold flush. intros Hu. apply stm_bind_err in Hu as [Hu|(? & ? & _ & Hu)]; [done|].
  apply stm_bind_err in Hu as [Hu|(? & ? & _ & Hu)]; by eapply store_err.
Qed.

Lemma notify_loop_err b n o l e : notify_loop b n o l <> Err e.
Proof.
  induction l as [|k l IH]; cbn; [done|]. unfold on_block.
  destruct (wants_spent_utxos k), o, (notify_loop b n _ l); cbn; congruence.
Qed.

(** After the checks, only the writes fail. *)
Lemma connect_writes_err (b : Block) (proof : Proof_) (inputs : gmap OutPoint UtxoData) (dels : list Z) c x e c' :
  connect_checks b proof inputs dels c = Ok x -> connect_block b proof inputs dels c = (Err e, c') -> storage_error e = true.
Proof.
  intros Hx Hc. unfold connect_block in Hc. apply stm_bind_err in Hc as [Hc|([n a] & c0 & Hk & Hc)].
  { injection Hc as Hc _. congruence. }
  apply stm_bind_err in Hc as [Hc|(o & c1 & _ & Hc)]; [done|].
  apply stm_bind_err in Hc as [Hc%update_view_err|(? & c2 & _ & Hc)]; [done|].
  apply stm_bind_err in Hc as [Hc|(ib & c3 & _ & Hc)]; [done|].
  apply stm_bind_err in Hc as [Hc|(? & c4 & _ & Hc)].
  { destruct (negb ib || (n mod 100000 =? 0)); [|done]. by eapply flush_err. }
  apply stm_bind_err in Hc as [Hc|(? & c5 & _ & Hc)]; [|done].
  unfold notify in Hc. apply stm_bind_err in Hc as [Hc|(? & ? & _ & Hc)]; [|done].
  injection Hc as Hc _. by apply notify_loop_err in Hc.
Qed.

Lemma connect_block_err (b : Block) (proof : Proof_) (inputs : gmap OutPoint UtxoData)
  (dels : list Z) c e c' :
  storage_error e = false -> connect_block b proof inputs dels c = (Err e, c') -> c' = c.
Proof.
  intros He Hc. destruct (connect_checks b proof inputs dels c) as [x|e'| |] eqn:Ek.
  { pose proof (connect_writes_err _ _ _ _ _ _ _ _ Ek Hc). congruence. }
  all: unfold connect_block, mbind, stm_bind, gets in Hc; rewrite Ek in Hc; by injection Hc.
Qed.

(** A block rejected by connect_block, with an error that does not come from the store,
    leaves the whole chain state untouched: store, best chain, accumulator and
    subscribers. *)
Theorem rejected_block_no_effect (b : Block) (proof : Proof_) (inputs : gmap OutPoint UtxoData)
  (dels : list Z) c e c'
  (He : storage_error e = false) (Hc : connect_block b proof inputs dels c = (Err e, c')) :
  c' = c.
Proof. by eapply connect_block_err. Qed.
End ChainFacts.
