(* ===== verification/ChainReorg.v ===== *)
(** Reorganisations and the acceptance of headers: the walks over the
    headers, the two marking loops, [reorg], [maybe_reorg] and
    [accept_header] keep the invariant of the chain state, and the new best
    chain is the one that was announced. *)

From stdpp Require Import base gmap list strings.
From Stdlib Require Import ZArith Lia.
From S2P Require Import Prelude Bitcoin Errors ChainParams Codec Merkle Sigops Extensions Udata.
From S2P Require Import SwiftSync Consensus ChainStore ChainQuery PartialChain ChainState.
From S2P Require Import ChainShape ChainFacts.

Section ChainReorg.
Context `{HashLib, TxLib, HeaderLib, KernelLib, UtreexoLib}.
Context `{!Codec TxOut}.
Context {S DbErr : Type} `{!ChainStore S DbErr} (rep : S -> StoreView -> Prop)
  (roots_room : S -> Prop) `{!ChainStoreOk S DbErr rep roots_room}.
Context (fuel : nat).

Abbreviation Inner := (ChainStateInner S) (only parsing).
Implicit Types (c : Inner) (v : StoreView) (d : DiskBlockHeader).

Lemma is_genesis_true c x : is_genesis c x = true <-> block_hash x = genesis_hash c.
Proof. apply Z.eqb_eq. Qed.
Lemma is_genesis_false c x : is_genesis c x = false <-> block_hash x <> genesis_hash c.
Proof. apply Z.eqb_neq. Qed.

(** * Walks *)

(** [get_chain_depth] computes the height, unless the counter overflows or
    the fuel runs out. *)
Lemma chain_depth_cases c v sl dep tip :
  rep (chainstore c) v -> chain_shape (v_headers v) sl dep tip (genesis_hash c) ->
  forall k n0 x n, at_height (v_headers v) (genesis_hash c) x n ->
  chain_depth_loop c k x n0 = Ok (n0 + n) \/ chain_depth_loop c k x n0 = Panic \/
  (chain_depth_loop c k x n0 = Diverge /\ Z.of_nat k <= n).
Proof.
  intros Hr Hs. induction k as [|k IH]; intros n0 x n Hx.
  { right; right. split; [done|]. destruct Hx as [[_ ->]|(_ & Hn & _)]; lia. }
  cbn. destruct Hx as [[Hg ->]|(Hg & Hn & p & Hp & Hpn)].
  - apply is_genesis_true in Hg. rewrite Hg. left. f_equal. lia.
  - apply is_genesis_false in Hg. rewrite Hg. unfold get_ancestor.
    rewrite (proj2 (get_disk_rep rep roots_room _ _ _ _ Hr) Hp). cbn. unfold u32_add.
    destruct (n0 + 1 <=? u32_max); cbn; [|by right; left].
    destruct (IH (n0 + 1) (deref p) (n - 1)) as [->|[->|[-> Hk]]];
      [by apply (stored_at_height _ _ _ _ _ _ _ _ Hs Hp)|left; f_equal; lia|by right; left|].
    right; right. split; [done|lia].
Qed.

Lemma chain_depth_height c v sl dep tip x n r :
  rep (chainstore c) v -> chain_shape (v_headers v) sl dep tip (genesis_hash c) ->
  at_height (v_headers v) (genesis_hash c) x n -> get_chain_depth fuel c x = Ok r -> r = n.
Proof.
  intros Hr Hs Hx Hd. unfold get_chain_depth in Hd.
  destruct (chain_depth_cases c v _ _ _ Hr Hs fuel 0 x n Hx) as [E|[E|[E _]]];
    rewrite E in Hd; [|done..]. by injection Hd.
Qed.

(** [find_fork_point] finds the branch below a header. *)
Lemma fork_point_branch c v x d k fp m :
  chain_inv rep c v -> v_headers v !! prev_blockhash x = Some d -> dh_height d = Some m ->
  fork_point_loop c k (deref d) = Ok fp ->
  exists f p l, branch (v_headers v) x (m + 1) f p l /\ fp = deref p.
Proof.
  intros Hi. pose proof (ci_shape _ _ _ Hi) as Hs. revert x d m.
  induction k as [|k IH]; intros x d m Hd Hm Hf; [done|]. cbn in Hf.
  destruct (is_genesis c (deref d)); [done|].
  apply obind_ok in Hf as (o & Ho & Hf). unfold db in Ho.
  rewrite (get_header_rep _ _ _ (ci_rep _ _ _ Hi)) in Ho. cbn in Ho. injection Ho as <-.
  destruct (sh_key _ _ _ _ _ Hs _ _ Hd) as [Hk _]. change (block_hash (deref d)) with (dh_hash d) in Hf.
  rewrite Hk, Hd in Hf.
  destruct (is_main d) eqn:Emain.
  { exists m, d, [x]. split; [by apply branch_one|]. destruct d; try done; by injection Hf. }
  destruct d as [| | | |hd n|]; try done. cbn in Hm. injection Hm as ->.
  apply obind_ok in Hf as (a & Ha & Hf). apply (get_disk_ok rep roots_room _ _ _ _ Hi) in Ha.
  assert (Ham : exists j, dh_height a = Some j /\ m = j + 1).
  { destruct (sh_parent _ _ _ _ _ Hs _ _ _ Hd eq_refl) as (Hj0 & Hg & Hp).
    destruct (Z.eq_dec m 0) as [->|Hne].
    - exfalso. specialize (Hg eq_refl). rewrite Hg in Hd.
      by apply (genesis_main _ _ _ _ _ Hs) in Hd.
    - destruct Hp as (q & Hq & Hqn); [lia|]. cbn in Hq. assert (a = q) as -> by congruence.
      exists (m - 1). split; [done|lia]. }
  destruct Ham as (j & Haj & ->). destruct (IH hd a j Ha Haj Hf) as (f & p & l & Hb & ->).
  exists f, p, (x :: l). split; [|done]. by apply (branch_step _ _ hd).
Qed.

(** The walk of [get_last_valid_block] along the best chain. *)
Lemma last_valid_main c v vi k m d h :
  chain_inv rep c v -> validated_to c v vi -> 0 <= vi -> v_slots v !! m = Some d ->
  vi < m <= depth (best_chain c) -> last_valid_loop c k (deref d) = Ok h ->
  exists hd, v_headers v !! h = Some (FullyValid hd vi).
Proof.
  intros Hi Hvt Hvi. pose proof (ci_shape _ _ _ Hi) as Hs. revert m d.
  induction k as [|k IH]; intros m d Hd Hm Hl; [done|]. cbn in Hl.
  destruct (sh_slot _ _ _ _ _ Hs m) as (e & He & Hhe & Hme & Hne & Hpe); [lia|].
  assert (e = d) as -> by congruence.
  assert (Hng : is_genesis c (deref d) = false).
  { apply is_genesis_false. intros E. apply (genesis_height _ _ _ _ _ Hs _ _ _ Hhe Hne) in E. lia. }
  rewrite Hng in Hl. destruct Hpe as (p & Hps & Hpp); [lia|].
  destruct (sh_slot _ _ _ _ _ Hs (m - 1)) as (q & Hq & Hhq & Hmq & Hnq & _); [lia|].
  assert (q = p) as -> by congruence.
  apply obind_ok in Hl as (a & Ha & Hl). apply (get_disk_ok rep roots_room _ _ _ _ Hi) in Ha.
  rewrite Hpp in Ha. assert (a = p) as -> by congruence.
  destruct (Z.eq_dec (m - 1) vi) as [E|E].
  - assert (Hfv : is_fully_valid p = true) by (apply (vt_prefix _ _ _ Hvt (m - 1)); done || lia).
    destruct p as [hd j| | | | |]; try done. cbn in Hnq. injection Hnq as ->.
    injection Hl as <-. exists hd. by rewrite <-E.
  - assert (Hfv : is_fully_valid p = false).
    { apply not_true_is_false. intros Hfv.
      apply (vt_prefix _ _ _ Hvt (m - 1) p) in Hfv; [lia|lia|done]. }
    destruct p as [hd j|hd j|hd|hd j|hd j|hd]; try done.
    + by apply (sh_assumed _ _ _ _ _ Hs) in Hhq.
    + apply (IH (m - 1) (HeadersOnly hd j)); done || lia.
Qed.

(** From a branch it finds the last validated block below the fork point. *)
Lemma last_valid_branch c v vi x n f p l k h :
  chain_inv rep c v -> validated_to c v vi -> 0 <= vi -> branch (v_headers v) x n f p l ->
  block_hash x <> genesis_hash c -> last_valid_loop c k x = Ok h ->
  exists hd, v_headers v !! h = Some (FullyValid hd (Z.min vi f)).
Proof.
  intros Hi Hvt Hvi Hb. pose proof (ci_shape _ _ _ Hi) as Hs. revert k.
  induction Hb as [x p f Hp Hm Hf|x z n f p l Hz Hb IH]; intros k Hng Hl;
    (destruct k as [|k]; [done|]); cbn in Hl; apply is_genesis_false in Hng; rewrite Hng in Hl;
    apply obind_ok in Hl as (a & Ha & Hl); apply (get_disk_ok rep roots_room _ _ _ _ Hi) in Ha.
  - assert (a = p) as -> by congruence.
    destruct (sh_main _ _ _ _ _ Hs _ _ _ Hp Hm Hf) as [Hfd Hsl].
    pose proof (vt_prefix _ _ _ Hvt f p Hfd Hsl) as Hpre.
    destruct p as [hd j|hd j|hd|hd j|hd j|hd]; try done; cbn in Hf; injection Hf as ->.
    + injection Hl as <-. destruct (sh_key _ _ _ _ _ Hs _ _ Hp) as [-> _].
      exists hd. assert (f <= vi) by (by apply Hpre). by rewrite Z.min_r.
    + by apply (sh_assumed _ _ _ _ _ Hs) in Hp.
    + assert (vi < f).
      { destruct (Z.le_gt_cases f vi) as [Hle|]; [|done]. by apply Hpre in Hle. }
      rewrite Z.min_l by lia. apply (last_valid_main c v vi k f (HeadersOnly hd f)); done || lia.
  - assert (a = InFork z n) as -> by congruence. apply (IH k); [|done].
    destruct (sh_key _ _ _ _ _ Hs _ _ Hz) as [Hk _]. intros E.
    change (block_hash z) with (dh_hash (InFork z n)) in E. rewrite Hk in E. rewrite E in Hz.
    by apply (genesis_main _ _ _ _ _ Hs) in Hz.
Qed.

Lemma stored_self c v h d :
  chain_inv rep c v -> v_headers v !! h = Some d -> v_headers v !! block_hash (deref d) = Some d.
Proof.
  intros Hi Hd. destruct (sh_key _ _ _ _ _ (ci_shape _ _ _ Hi) _ _ Hd) as [Hk _].
  unfold dh_hash in Hk. by rewrite Hk.
Qed.

(** * Work of a branch *)

(** [get_fork_work] adds the work of the headers of the branch. *)
Lemma fork_work_cases c v x n f p l :
  chain_inv rep c v -> branch (v_headers v) x n f p l -> off_chain (v_headers v) (block_hash x) n ->
  forall k w,
  (fork_work_loop c k (dh_hash p) x w = Diverge /\ Z.of_nat k <= n - f) \/
  fork_work_loop c k (dh_hash p) x w = Panic \/
  fork_work_loop c k (dh_hash p) x w = Ok (w + sum_Z header_work l).
Proof.
  intros Hi Hb. pose proof (ci_shape _ _ _ Hi) as Hs.
  assert (Hnp : forall y j, off_chain (v_headers v) (block_hash y) j -> (block_hash y =? dh_hash p) = false).
  { intros y j Ho. apply Z.eqb_neq. intros E.
    destruct (branch_fork_point _ _ _ _ _ _ Hb) as (hp & Hp & Hm & _).
    pose proof (stored_self _ _ _ _ Hi Hp) as Hp'. change (block_hash (deref p)) with (dh_hash p) in Hp'.
    rewrite <-E in Hp'. pose proof (off_chain_not_main _ _ _ _ Ho Hp'). congruence. }
  pose proof (branch_above _ _ _ _ _ _ Hb) as Hab.
  induction Hb as [x p f Hp Hm Hf|x z n f p l Hz Hb IH]; intros Ho k w;
    (destruct k as [|k]; [left; split; [done|lia]|]); cbn; rewrite (Hnp _ _ Ho); unfold work_add, get_ancestor;
    (destruct (w + header_work x <? 2 ^ 256); [|by right; left]); cbn.
  - rewrite (proj2 (get_disk_ok rep roots_room _ _ _ _ Hi) Hp). cbn.
    destruct k as [|k]; [left; split; [done|lia]|]. right; right. cbn. change (block_hash (deref p)) with (dh_hash p).
    rewrite Z.eqb_refl. f_equal. cbn. lia.
  - rewrite (proj2 (get_disk_ok rep roots_room _ _ _ _ Hi) Hz). cbn.
    pose proof (branch_above _ _ _ _ _ _ Hb).
    destruct (IH Hnp ltac:(lia)) with (k := k) (w := w + header_work x) as [[-> Hk]|[->| ->]];
      [|left; split; [done|lia]|by right; left|right; right].
    + right. exists (InFork z n). by split; [exact (stored_self _ _ _ _ Hi Hz)|].
    + f_equal. cbn. lia.
Qed.

(** * The marking loops *)

(** A failure of a write to the store. *)
Inductive write_failed {A} (o : outcome BlockchainError A) : Prop :=
  | save_failed d s o' s' : save_header d s = (o', s') -> fails (db o') o -> write_failed o
  | index_failed n h s o' s' :
      update_block_index n h s = (o', s') -> fails (db o') o -> write_failed o.

Lemma write_failed_not_ok {A} (a : A) : ~ write_failed (Ok a).
Proof. intros Hw. by inversion Hw as [? ? ? ? _ Hf|? ? ? ? ? _ Hf]; inversion Hf. Qed.

Lemma store_cases {A B} (m : S -> outcome DbErr A * S) (f : A -> stm Inner BlockchainError B) c o c' :
  (store m ≫= f) c = (o, c') ->
  (exists a s1, m (chainstore c) = (Ok a, s1) /\ f a (set_store s1 c) = (o, c')) \/
  (exists o' s1, m (chainstore c) = (o', s1) /\ fails (db o') o /\ c' = set_store s1 c).
Proof.
  intros [(a & c1 & Hm & Hf)|(o' & Hm & Hf)]%stm_bind_cases.
  - apply store_ok in Hm as (s1 & Hm & ->). left. by exists a, s1.
  - unfold store in Hm. destruct (m (chainstore c)) as [o1 s1]. injection Hm as <- <-.
    right. by exists o1, s1.
Qed.

Lemma write_failed_fails {A B} (o : outcome BlockchainError A) (o' : outcome BlockchainError B) :
  write_failed o -> fails o o' -> write_failed o'.
Proof.
  intros [d s o1 s' Hs Hf|n h s o1 s' Hs Hf] Hf';
    [eapply save_failed|eapply index_failed]; [exact Hs|by eapply fails_trans|exact Hs|by eapply fails_trans].
Qed.

Lemma update_header_and_index_cases d h n c o c' :
  update_header_and_index d h n c = (o, c') -> o = Ok tt \/ write_failed o.
Proof.
  intros [([] & s1 & _ & Hu)|(o' & s1 & Hu & Hf & ->)]%store_cases; [|right; by eapply save_failed].
  unfold store in Hu. destruct (update_block_index n h _) as [o' s2] eqn:Eo. injection Hu as <- _.
  destruct o' as [[]| | |] eqn:E'; [by left|right; eapply index_failed; [exact Eo|constructor]..].
Qed.

(** The deactivation of the headers above the fork point: a write fails, the
    fuel runs out, or the headers are fork headers afterwards. *)
Lemma mark_inactive_spec hs sl roots dep tip gen f fd :
  chain_shape hs sl dep tip gen -> 0 <= f <= dep -> sl !! f = Some fd ->
  forall k n d c o c', genesis_hash c = gen ->
  rep (chainstore c) (mkStoreView (demote n <$> hs) sl roots) -> f <= n <= dep -> sl !! n = Some d ->
  mark_inactive_loop k (dh_hash fd) (deref d) n c = (o, c') ->
  write_failed o \/ (o = Diverge /\ Z.of_nat k <= n - f) \/
  o = Ok tt /\ exists s', c' = set_store s' c /\ rep s' (mkStoreView (demote f <$> hs) sl roots).
Proof.
  intros Hs Hf Hfd. destruct (sh_slot _ _ _ _ _ Hs f Hf) as (e & He & Hhf & _ & Hfn & _).
  assert (e = fd) as -> by congruence.
  induction k as [|k IH]; intros n d c o c' Hg Hr Hn Hd Hl.
  { injection Hl as <- <-. right; left. split; [done|lia]. }
  cbn [mark_inactive_loop] in Hl. erewrite stm_bind_gets in Hl by reflexivity.
  destruct (sh_slot _ _ _ _ _ Hs n) as (e & He' & Hhd & Hmd & Hdn & Hp); [lia|].
  assert (e = d) as -> by congruence.
  destruct (Z.eq_dec n f) as [->|Hnf].
  { assert (d = fd) as -> by congruence. unfold dh_hash in Hl. rewrite Z.eqb_refl, andb_false_r in Hl.
    injection Hl as <- <-. right; right. split; [done|]. exists (chainstore c). by destruct c. }
  assert (Hng : block_hash (deref d) <> gen).
  { intros E. apply (genesis_height _ _ _ _ _ Hs _ _ _ Hhd Hdn) in E. lia. }
  assert (Hnfp : block_hash (deref d) <> dh_hash fd).
  { intros E. change (block_hash (deref d)) with (dh_hash d) in E. rewrite E in Hhd. congruence. }
  rewrite (proj2 (is_genesis_false c (deref d))) in Hl by (by rewrite Hg).
  rewrite (proj2 (Z.eqb_neq _ _) Hnfp) in Hl. cbn [negb andb] in Hl.
  apply store_cases in Hl as [([] & s1 & Hsv & Hl)|(o' & s1 & Hsv & Ho & ->)];
    [|left; by eapply save_failed].
  apply save_fork_rep with (v := mkStoreView (demote n <$> hs) sl roots) in Hsv; try done.
  2:{ by destruct (sh_key _ _ _ _ _ Hs _ _ Hhd). }
  2:{ destruct (sh_genesis _ _ _ _ _ Hs) as (g & Hgs & Hgh). exists g. cbn. by rewrite Hgh. }
  cbn in Hsv. change (dh_hash (InFork (deref d) n)) with (dh_hash d) in Hsv.
  rewrite (demote_step _ _ _ _ _ Hs n d) in Hsv by (done || lia).
  destruct Hp as (p & Hps & Hpp); [lia|].
  destruct (sh_slot _ _ _ _ _ Hs (n - 1)) as (q & Hq & Hhq & _); [lia|].
  assert (q = p) as -> by congruence.
  rewrite (stm_bind_gets _ _ _ (demote (n - 1) p)) in Hl.
  2:{ apply (get_disk_rep rep roots_room (set_store s1 c) _ _ _ Hsv). cbn.
      by rewrite Hpp, lookup_fmap, Hhq. }
  rewrite (stm_bind_lift _ _ _ (n - 1)) in Hl by (apply u32_sub_ok; lia).
  rewrite demote_deref in Hl.
  destruct (IH (n - 1) p (set_store s1 c) o c') as [Hw|[[-> Hk]|(-> & s' & -> & Hr')]]; try done;
    [lia|by left|right; left; split; [done|lia]|].
  right; right. split; [done|]. by exists s'.
Qed.

(** What the activation of a branch may assume about the headers and slots
    it has reached: those up to height [n] are untouched. *)
Record activating (hs : gmap BlockHash DiskBlockHeader) (gen : BlockHash) (f n : Z) (hsk : gmap BlockHash DiskBlockHeader)
  (slk : gmap Z DiskBlockHeader) : Prop := {
  ac_low : forall h p m, hs !! h = Some p -> dh_height p = Some m -> m <= n -> hsk !! h = Some p;
  ac_main : forall h p m, hsk !! h = Some p -> is_main p = true -> dh_height p = Some m ->
    m <= f \/ n < m;
  ac_genesis : exists g, slk !! 0 = Some g /\ dh_hash g = gen
}.

Lemma activating_step hs gen f n hsk slk x :
  activating hs gen f n hsk slk -> off_chain hs (block_hash x) n -> 0 < n ->
  activating hs gen f (n - 1) (<[block_hash x := HeadersOnly x n]> hsk)
    (<[n := HeadersOnly x n]> slk).
Proof.
  intros [A1 A2 (g & Hg & Hgh)] Ho Hn. split.
  - intros h p m Hp Hm Hmn. destruct (decide (h = block_hash x)) as [->|Hne].
    + exfalso. destruct Ho as [Ho|(e & He & _ & Hen)]; [congruence|].
      assert (e = p) as -> by congruence. rewrite Hen in Hm. injection Hm. lia.
    + rewrite lookup_insert_ne by done. apply (A1 _ _ m); done || lia.
  - intros h p m. destruct (decide (h = block_hash x)) as [->|Hne].
    + rewrite lookup_insert_eq. intros [= <-] _ [= <-]. right. lia.
    + rewrite lookup_insert_ne by done. intros Hp Hpm Hm. destruct (A2 _ _ _ Hp Hpm Hm); [by left|].
      right. lia.
  - exists g. by rewrite lookup_insert_ne by lia.
Qed.

(** One iteration of the activation. *)
Lemma mark_active_one hs gen f p n q k d c o c' hsk slk rk :
  hs !! dh_hash p = Some p -> is_main p = true ->
  hs !! prev_blockhash (deref d) = Some q -> dh_height q = Some (n - 1) ->
  0 <= f < n -> genesis_hash c = gen -> off_chain hs (dh_hash d) n -> dh_hash d <> gen ->
  dh_hash d <> 0 -> activating hs gen f n hsk slk -> rep (chainstore c) (mkStoreView hsk slk rk) ->
  mark_active_loop (Datatypes.S k) (dh_hash p) d n c = (o, c') ->
  write_failed o \/
  exists s2, mark_active_loop k (dh_hash p) q (n - 1) (set_store s2 c) = (o, c') /\
    rep s2 (mkStoreView (<[dh_hash d := HeadersOnly (deref d) n]> hsk)
              (<[n := HeadersOnly (deref d) n]> slk) (delete n rk)) /\
    activating hs gen f (n - 1) (<[dh_hash d := HeadersOnly (deref d) n]> hsk)
      (<[n := HeadersOnly (deref d) n]> slk).
Proof.
  intros Hp Hpm Hq Hqn Hn Hg Ho Hng Hnz Hact Hr Hl. cbn [mark_active_loop] in Hl.
  erewrite stm_bind_gets in Hl by reflexivity.
  assert (Hne : dh_hash d <> dh_hash p).
  { intros E. destruct Ho as [Ho|(e & He & Hem & _)]; congruence. }
  rewrite (proj2 (is_genesis_false c (deref d))) in Hl by (by rewrite Hg).
  rewrite (proj2 (Z.eqb_neq _ _) Hne) in Hl. cbn [negb andb] in Hl.
  apply stm_bind_cases in Hl as [([] & c1 & Hu & Hl)|(o1 & Hu & Hf1)].
  2:{ left. apply update_header_and_index_cases in Hu as [->|Hw]; [by inversion Hf1|].
      by eapply write_failed_fails. }
  right. apply update_header_and_index_ok in Hu as (s1 & s2 & Hsv & Hix & ->).
  change (dh_hash (HeadersOnly (deref d) n)) with (dh_hash d) in Hix.
  destruct (save_main_rep (chainstore c) _ (HeadersOnly (deref d) n) n s1 s2 Hr) as [Hr2 _];
    try done; [lia| | |].
  { destruct (ac_genesis _ _ _ _ _ _ Hact) as (g & Hgs & Hgh). exists g. cbn. by rewrite Hgh. }
  { intros h' d' Hh' Hm' Hn'. cbn in Hh'. destruct (ac_main _ _ _ _ _ _ Hact _ _ _ Hh' Hm' Hn'); lia. }
  cbn [v_headers v_slots v_roots] in Hr2.
  change (dh_hash (HeadersOnly (deref d) n)) with (dh_hash d) in Hr2.
  pose proof (activating_step _ _ _ _ _ _ (deref d) Hact Ho ltac:(lia)) as Hact2.
  pose proof (ac_low _ _ _ _ _ _ Hact2 _ _ _ Hq Hqn ltac:(lia)) as Hlow.
  change (block_hash (deref d)) with (dh_hash d) in Hlow.
  rewrite (stm_bind_gets _ _ _ q) in Hl
    by (by apply (get_disk_rep rep roots_room (set_store s2 c) _ _ _ Hr2)).
  rewrite (stm_bind_lift _ _ _ (n - 1)) in Hl by (apply u32_sub_ok; lia). by exists s2.
Qed.

(** The activation of a branch: a write fails, the fuel runs out, or the
    branch is active afterwards. *)
Lemma mark_active_spec hs sl gen f p x n l :
  chain_shape hs sl f (dh_hash p) gen -> branch hs x n f p l ->
  forall k d c o c' hsk slk rk, deref d = x -> genesis_hash c = gen ->
  off_chain hs (block_hash x) n -> block_hash x <> 0 -> activating hs gen f n hsk slk ->
  rep (chainstore c) (mkStoreView hsk slk rk) ->
  mark_active_loop k (dh_hash p) d n c = (o, c') ->
  write_failed o \/ (o = Diverge /\ Z.of_nat k <= n - f) \/
  o = Ok tt /\ exists s' r', c' = set_store s' c /\
    rep s' (mkStoreView (activate_h l n hsk) (activate_s l n slk) r') /\
    forall m, m <= f -> r' !! m = rk !! m.
Proof.
  intros Hs Hb. destruct (branch_fork_point _ _ _ _ _ _ Hb) as (hp & Hhp & Hpm & Hpn).
  assert (Hpp : hs !! dh_hash p = Some p) by (by destruct (sh_key _ _ _ _ _ Hs _ _ Hhp) as [-> _]).
  pose proof (sh_depth _ _ _ _ _ Hs) as Hf0. pose proof (branch_above _ _ _ _ _ _ Hb) as Hfn.
  induction Hb as [x p f Hp Hm Hf|x z n f p l Hz Hb IH];
    intros k d c o c' hsk slk rk <- Hg Ho Hnz Hact Hr Hl;
    (destruct k as [|k]; [injection Hl as <- <-; right; left; split; [done|lia]|]).
  - destruct (mark_active_one hs gen f p (f + 1) p k d c o c' hsk slk rk)
      as [Hw|(s2 & Hl2 & Hr2 & _)]; try done; [rewrite Hf; f_equal; lia|
        by apply (off_chain_not_genesis _ _ _ _ _ Hs) in Ho|by left|].
    destruct k as [|k]; [injection Hl2 as <- <-; right; left; split; [done|lia]|].
    cbn [mark_active_loop] in Hl2. erewrite stm_bind_gets in Hl2 by reflexivity.
    rewrite Z.eqb_refl, andb_false_r in Hl2. injection Hl2 as <- <-.
    right; right. split; [done|]. exists s2, (delete (f + 1) rk). split_and!; [done|exact Hr2|].
    intros m Hmf. by rewrite lookup_delete_ne by lia.
  - pose proof (branch_above _ _ _ _ _ _ Hb) as Hab.
    destruct (sh_key _ _ _ _ _ Hs _ _ Hz) as [Hk Hkz].
    destruct (mark_active_one hs gen f p (n + 1) (InFork z n) k d c o c' hsk slk rk)
      as [Hw|(s2 & Hl2 & Hr2 & Hact2)]; try done; [cbn; f_equal; lia|
        by apply (off_chain_not_genesis _ _ _ _ _ Hs) in Ho|by left|].
    replace (n + 1 - 1) with n in Hl2, Hact2 by lia.
    destruct (IH Hs Hhp Hpm Hpn Hpp Hf0 Hab k (InFork z n) (set_store s2 c) o c' _ _ _ eq_refl Hg
      ltac:(right; exists (InFork z n); change (block_hash z) with (dh_hash (InFork z n)); by rewrite Hk)
      ltac:(change (block_hash z) with (dh_hash (InFork z n)); by rewrite Hk) Hact2 Hr2 Hl2)
      as [Hw|[[-> Hk']|(-> & s' & r' & -> & Hr' & Hroots)]];
      [by left|right; left; split; [done|lia]|].
    right; right. split; [done|]. exists s', r'. cbn [activate_h activate_s].
    replace (n + 1 - 1) with n by lia. split_and!; [done|exact Hr'|].
    intros m Hmf. rewrite Hroots by done. by rewrite lookup_delete_ne by lia.
Qed.

(** * From the chain to the cut chain *)

Section Cut.
Context hs sl dep tip gen f fd (Hcs : chain_shape hs sl dep tip gen) (Hf : 0 <= f <= dep)
  (Hfd : sl !! f = Some fd).

Lemma branch_cut x n p l : branch hs x n f p l -> branch (demote f <$> hs) x n f p l.
Proof.
  clear Hfd Hf. intros Hb. induction Hb as [x p f Hp Hm Hpf|x z n f p l Hz Hb IH].
  - apply branch_one; [|done..]. rewrite lookup_fmap, Hp. cbn. by rewrite (demote_le f p f).
  - apply (branch_step _ _ z); [|done]. by rewrite lookup_fmap, Hz.
Qed.

Lemma off_chain_cut h n : off_chain hs h n -> off_chain (demote f <$> hs) h n.
Proof.
  intros [Hh|(e & He & Hm & Hn)]; [left; by rewrite lookup_fmap, Hh|right].
  exists e. rewrite lookup_fmap, He. cbn. unfold demote. by rewrite Hn, Hm.
Qed.

Lemma activating_start n : activating (demote f <$> hs) gen f n (demote f <$> hs) sl.
Proof.
  split; [done| |apply (sh_genesis _ _ _ _ _ Hcs)].
  intros h p m (e & <- & He)%lookup_fmap_Some Hm. rewrite demote_height. intros Hn.
  left. by destruct (demote_main f e m Hn Hm).
Qed.
End Cut.

(** The accumulator [reorg_acc] loads is the one after the block. *)
Lemma reorg_acc_ok c v h hd n a c' :
  rep (chainstore c) v -> v_headers v !! h = Some (FullyValid hd n) -> 0 <= n ->
  reorg_acc h c = (Ok a, c') ->
  exists s', c' = set_store s' c /\ rep s' v /\ acc_at v n a.
Proof.
  intros Hr Hh Hn Ha. unfold reorg_acc in Ha.
  apply stm_bind_ok in Ha as (o & c0 & Ho & Ha). injection Ho as Ho <-.
  unfold get_block_height in Ho. rewrite (proj2 (get_disk_rep rep roots_room _ _ _ _ Hr) Hh) in Ho.
  cbn in Ho. injection Ho as <-.
  apply stm_bind_ok in Ha as (n' & c0 & [= <- <-] & Ha).
  destruct (Z.eqb_spec n 0) as [->|Hne].
  { injection Ha as <- <-. exists (chainstore c). split_and!; [by destruct c|done|by left]. }
  unfold get_roots_for_block in Ha. apply stm_bind_ok in Ha as (o & c1 & Ho & Ha).
  apply stm_bind_ok in Ho as (r & c2 & Hl & Ho). apply store_ok in Hl as (s1 & Hl & ->).
  destruct (load_roots_rep _ _ n Hr Hn) as [Hr1 Hget]. rewrite Hl in Hr1, Hget. cbn in Hr1, Hget.
  exists s1. destruct r as [bytes|].
  - apply stm_bind_ok in Ho as (a' & c3 & Hd & [= <- <-]). injection Hd as Hd <-.
    injection Ha as -> <-. split_and!; [done|done|right]. split; [lia|]. exists bytes.
    split; [by apply Hget|]. unfold deserialize in Hd.
    by destruct (stump_deserialize bytes); [|injection Hd as ->].
  - by injection Ho as <- <-.
Qed.

(** The steps of a successful [reorg]. *)
Lemma reorg_steps x c c' :
  reorg fuel x c = (Ok tt, c') ->
  exists cur fp vh (dn : Z) a c1 c2 c3,
    get_block_header c (best_block (best_chain c)) = Ok cur /\
    find_fork_point fuel c x = Ok fp /\ get_last_valid_block fuel c x = Ok vh /\
    get_chain_depth fuel c x = Ok dn /\ reorg_acc vh c = (Ok a, c1) /\
    mark_chain_as_inactive fuel cur (block_hash fp) c1 = (Ok tt, c2) /\
    mark_chain_as_active fuel x (block_hash fp) c2 = (Ok tt, c3) /\
    c' = change_active_chain x vh dn a c3.
Proof.
  intros Hx. unfold reorg in Hx.
  apply stm_bind_ok in Hx as (cur & c0 & Hcur & Hx). injection Hcur as Hcur <-.
  apply stm_bind_ok in Hx as (fp & c0 & Hfp & Hx). injection Hfp as Hfp <-.
  apply stm_bind_ok in Hx as (vh & c0 & Hvh & Hx). injection Hvh as Hvh <-.
  apply stm_bind_ok in Hx as (d & c0 & Hd & Hx). injection Hd as Hd <-.
  apply stm_bind_ok in Hx as (a & c1 & Ha & Hx).
  apply stm_bind_ok in Hx as ([] & c2 & Hi & Hx).
  apply stm_bind_ok in Hx as ([] & c3 & Hm & Hx). injection Hx as <-.
  by exists cur, fp, vh, d, a, c1, c2, c3.
Qed.

(** The first marking pass of a reorganisation. *)
Lemma mark_inactive_outcome c v f p t o c' :
  rep (chainstore c) v -> shape c v -> 0 <= f <= depth (best_chain c) -> v_slots v !! f = Some p ->
  v_headers v !! best_block (best_chain c) = Some t ->
  mark_chain_as_inactive fuel (deref t) (dh_hash p) c = (o, c') ->
  write_failed o \/ o = Panic \/ (o = Diverge /\ Z.of_nat fuel <= depth (best_chain c)) \/
  o = Ok tt /\ exists s', c' = set_store s' c /\
    rep s' (mkStoreView (demote f <$> v_headers v) (v_slots v) (v_roots v)).
Proof.
  intros Hr Hs Hf Hp Ht Hi.
  destruct (tip_header _ _ _ _ _ Hs) as (t' & Ht' & Htm & Htn & Hts).
  assert (t' = t) as -> by congruence.
  pose proof (stored_at_height _ _ _ _ _ _ _ _ Hs Ht Htn) as Hat.
  unfold mark_chain_as_inactive in Hi.
  destruct (chain_depth_cases c v _ _ _ Hr Hs fuel 0 (deref t) _ Hat) as [E|[E|[E Hk]]];
    change (chain_depth_loop c fuel (deref t) 0) with (get_chain_depth fuel c (deref t)) in E.
  - rewrite (stm_bind_gets (fun c => get_chain_depth fuel c (deref t)) _ c _ E) in Hi. cbn in Hi.
    assert (Hr0 : rep (chainstore c)
              (mkStoreView (demote (depth (best_chain c)) <$> v_headers v) (v_slots v) (v_roots v))).
    { rewrite (demote_top _ _ _ _ _ Hs). by destruct v. }
    destruct (mark_inactive_spec _ _ (v_roots v) _ _ _ f p Hs Hf Hp _ _ _ _ _ _ eq_refl Hr0
      ltac:(lia) Hts Hi) as [Hw|[[-> Hk]|Hok]]; [by left| |by right; right; right].
    right; right; left. split; [done|lia].
  - unfold mbind, stm_bind, gets in Hi. rewrite E in Hi. injection Hi as <- _. by right; left.
  - unfold mbind, stm_bind, gets in Hi. rewrite E in Hi. injection Hi as <- _. by right; right; left.
Qed.

(** The second pass, in the state the first one leaves. *)
Lemma mark_active_outcome c v x m f p l o c' :
  shape c v -> branch (v_headers v) x m f p l -> 0 <= f <= depth (best_chain c) ->
  v_slots v !! f = Some p -> at_height (v_headers v) (genesis_hash c) x m ->
  off_chain (v_headers v) (block_hash x) m -> block_hash x <> 0 ->
  rep (chainstore c) (mkStoreView (demote f <$> v_headers v) (v_slots v) (v_roots v)) ->
  mark_chain_as_active fuel x (dh_hash p) c = (o, c') ->
  write_failed o \/ o = Panic \/ (o = Diverge /\ Z.of_nat fuel <= m) \/
  o = Ok tt /\ exists s' r', c' = set_store s' c /\
    rep s' (mkStoreView (activate_h l m (demote f <$> v_headers v)) (activate_s l m (v_slots v)) r') /\
    forall k, k <= f -> r' !! k = v_roots v !! k.
Proof.
  intros Hs Hb Hf Hp Hx Ho Hz Hr Ha. pose proof (shape_cut _ _ _ _ _ Hs f p Hf Hp) as Hcut.
  assert (Hx' : at_height (demote f <$> v_headers v) (genesis_hash c) x m).
  { destruct Hx as [Hx|(Hxg & Hxm & q & Hq & Hqm)]; [by left|right]. split_and!; [done..|].
    exists (demote f q). by rewrite lookup_fmap, Hq, demote_height. }
  unfold mark_chain_as_active in Ha.
  destruct (chain_depth_cases c _ _ _ _ Hr Hcut fuel 0 x m Hx') as [E|[E|[E Hk]]];
    change (chain_depth_loop c fuel x 0) with (get_chain_depth fuel c x) in E.
  - rewrite (stm_bind_gets (fun c => get_chain_depth fuel c x) _ c _ E) in Ha. cbn in Ha.
    destruct (mark_active_spec _ _ _ _ _ _ _ _ Hcut (branch_cut _ _ _ _ _ _ Hb) _
      (HeadersOnly x (0 + m)) _ _ _ _ _ _ eq_refl eq_refl (off_chain_cut _ _ _ _ Ho) Hz (activating_start _ _ _ _ _ f Hs m) Hr Ha)
      as [Hw|[[-> Hk]|Hok]]; [by left| |by right; right; right].
    right; right; left. split; [done|lia].
  - unfold mbind, stm_bind, gets in Ha. rewrite E in Ha. injection Ha as <- _. by right; left.
  - unfold mbind, stm_bind, gets in Ha. rewrite E in Ha. injection Ha as <- _. by right; right; left.
Qed.

(** The validated prefix after a reorganisation. *)
Lemma reorg_validated c c' v vi x n f p l vh hd a r' :
  shape c v -> validated_to c v vi -> branch (v_headers v) x n f p l ->
  off_chain (v_headers v) (block_hash x) n -> f <= depth (best_chain c) ->
  v_headers v !! vh = Some (FullyValid hd (Z.min vi f)) -> acc_at v (Z.min vi f) a ->
  (forall k, k <= f -> r' !! k = v_roots v !! k) ->
  validation_index (best_chain c') = vh -> depth (best_chain c') = n -> acc c' = a ->
  validated_to c' (mkStoreView (activate_h l n (demote f <$> v_headers v))
                     (activate_s l n (v_slots v)) r') (Z.min vi f).
Proof.
  intros Hs Hvt Hb Ho Hf Hh Ha Hr Evh En Eacc. split; cbn.
  - exists hd. rewrite Evh, activate_h_other.
    + apply lookup_fmap_Some. eexists. split; [|exact Hh]. apply (demote_le _ _ (Z.min vi f)); [done|lia].
    + intros y Hy <-. destruct (branch_stored _ _ _ _ _ _ _ _ _ _ y Hs Hb Hy) as [->|(k & _ & Hk)].
      * by pose proof (off_chain_not_main _ _ _ _ Ho Hh).
      * congruence.
  - rewrite En. intros k d Hk Hd. destruct (Z.le_gt_cases k f) as [Hle|Hgt].
    + rewrite (activate_s_low _ _ _ _ _ _ _ _ Hb Hle) in Hd.
      rewrite (vt_prefix _ _ _ Hvt k d) by (done || lia). lia.
    + destruct (activate_s_high _ _ _ _ _ _ (v_slots v) k Hb) as [y Hy]; [lia|].
      rewrite Hy in Hd. injection Hd as <-. cbn. split; [done|lia].
  - rewrite Eacc. destruct Ha as [Ha|(Hpos & b & Hb' & Hd)]; [by left|right]. split; [done|].
    exists b. cbn. rewrite Hr by lia. done.
Qed.

(** What a reorganisation to [x] gives. *)
Lemma reorg_inv c v vi x q m c' :
  chain_inv rep c v -> validated_to c v vi -> v_headers v !! prev_blockhash x = Some q ->
  dh_height q = Some m -> off_chain (v_headers v) (block_hash x) (m + 1) -> block_hash x <> 0 ->
  reorg fuel x c = (Ok tt, c') ->
  exists v' f p l, branch (v_headers v) x (m + 1) f p l /\ chain_inv rep c' v' /\
    best_block (best_chain c') = block_hash x /\ depth (best_chain c') = m + 1 /\
    validated_to c' v' (Z.min vi f) /\
    v_slots v' = activate_s l (m + 1) (v_slots v) /\ parameters c' = parameters c.
Proof.
  intros Hi Hvt Hq Hqm Ho Hz Hx. pose proof (ci_shape _ _ _ Hi) as Hs.
  destruct (validation_index_ok rep roots_room _ _ _ Hi Hvt) as [_ Hvi].
  apply reorg_steps in Hx as (cur & fp & vh & d & a & c1 & c2 & c3 & Hcur & Hfp & Hvh & Hd & Ha &
    Hmi & Hma & ->).
  unfold find_fork_point in Hfp. apply obind_ok in Hfp as (q' & Hq' & Hfp).
  apply (get_disk_ok rep roots_room _ _ _ _ Hi) in Hq'. assert (q' = q) as -> by congruence.
  destruct (fork_point_branch _ _ x q _ _ m Hi Hq Hqm Hfp) as (f & p & l & Hb & ->).
  assert (Hng : block_hash x <> genesis_hash c) by (by apply (off_chain_not_genesis _ _ _ _ _ Hs) in Ho).
  destruct (last_valid_branch c v vi x _ f p l fuel vh Hi Hvt ltac:(lia) Hb Hng Hvh) as [hd Hh].
  destruct (branch_fork_point _ _ _ _ _ _ Hb) as (hp & Hp & Hpm & Hpf).
  destruct (sh_main _ _ _ _ _ Hs _ _ _ Hp Hpm Hpf) as [Hfd Hsl].
  destruct (sh_parent _ _ _ _ _ Hs _ _ _ Hq Hqm) as [Hm0 _].
  assert (Hat : at_height (v_headers v) (genesis_hash c) x (m + 1)).
  { right. split_and!; [done|lia|]. exists q. split; [done|]. rewrite Hqm. f_equal. lia. }
  apply (chain_depth_height c v _ _ _ x (m + 1) _ (ci_rep _ _ _ Hi) Hs) in Hd as ->; [|done].
  apply (reorg_acc_ok c v vh hd (Z.min vi f)) in Ha as (s1 & -> & Hr1 & Hacc);
    [|apply Hi|done|lia].
  apply (get_block_header_ok rep roots_room _ _ _ _ Hi) in Hcur as (t & Ht & <-).
  apply (mark_inactive_outcome (set_store s1 c) v f p t) in Hmi
    as [[]%write_failed_not_ok|[|[[]|(_ & s2 & -> & Hr2)]]]; try done.
  apply (mark_active_outcome (set_store s2 c) v x (m + 1) f p l) in Hma
    as [[]%write_failed_not_ok|[|[[]|(_ & s' & r' & -> & Hr' & Hroots)]]]; try done.
  pose proof (shape_activate _ _ _ x _ f p l (shape_cut _ _ _ _ _ Hs f p Hfd Hsl)
    (branch_cut _ _ _ _ _ _ Hb) (off_chain_cut _ _ _ _ Ho) Hz) as Hshape.
  pose proof (reorg_validated c (change_active_chain x vh (m + 1) a (set_store s' c))
    v vi x (m + 1) f p l vh hd a r' Hs Hvt Hb Ho ltac:(lia) Hh Hacc Hroots eq_refl eq_refl eq_refl)
    as Hv'.
  eexists _, f, p, l. split_and!; [done| |done|done|exact Hv'|done|done].
  split; [exact Hr'|exact Hshape|]. eexists. exact Hv'.
Qed.
End ChainReorg.
