(* ===== verification/ChainAccept.v ===== *)
(** Accepting headers: [accept_header] keeps the invariant of the chain state
    on every branch, and what becomes of the best chain is what the code
    decides by comparing the work of the two tips. *)

From stdpp Require Import base gmap list strings.
From Stdlib Require Import ZArith Lia.
From S2P Require Import Prelude Bitcoin Errors ChainParams Codec Merkle Sigops Extensions Udata.
From S2P Require Import SwiftSync Consensus ChainStore ChainQuery PartialChain ChainState.
From S2P Require Import ChainShape ChainFacts ChainReorg.

Section ChainAccept.
Context `{HashLib, TxLib, HeaderLib, KernelLib, UtreexoLib}.
Context `{!Codec TxOut} `{!HeaderLibOk}.
Context {S DbErr : Type} `{!ChainStore S DbErr} (rep : S -> StoreView -> Prop)
  (roots_room : S -> Prop) `{!ChainStoreOk S DbErr rep roots_room}.
Context (fuel : nat).

Abbreviation Inner := (ChainStateInner S) (only parsing).
Implicit Types (c : Inner) (v : StoreView) (d : DiskBlockHeader).

(** A valid header extends a stored header that has a height. *)
Lemma validate_header_parent c v x h :
  rep (chainstore c) v -> validate_header c x = Ok h ->
  h = block_hash x /\ exists q m, v_headers v !! prev_blockhash x = Some q /\ dh_height q = Some m.
Proof.
  intros Hr Hv. unfold validate_header in Hv.
  apply obind_ok in Hv as (h' & Hpow%ok_or_ok & Hv). apply validate_pow_hash in Hpow.
  apply obind_ok in Hv as (q & Hq & Hv). apply (get_disk_rep rep roots_room _ _ _ _ Hr) in Hq.
  apply obind_ok in Hv as (m & Hm%ok_or_ok & Hv). apply obind_ok in Hv as (n & _ & Hv).
  apply obind_ok in Hv as (t & _ & Hv). apply obind_ok in Hv as (? & _ & Hv).
  apply obind_ok in Hv as (? & _ & Hv). apply obind_ok in Hv as (? & _ & Hv).
  injection Hv as <-. split; [done|]. by exists q, m.
Qed.

(** A stored header is never above the best chain: the reindex of
    [maybe_reindex] does not run. *)
Lemma known_header_noop c v d h :
  chain_inv rep c v -> v_headers v !! h = Some d -> maybe_reindex fuel d c = (Ok tt, c).
Proof.
  intros Hi Hd. unfold maybe_reindex. destruct d as [| | |hd n| |]; try done.
  destruct (sh_main _ _ _ _ _ (ci_shape _ _ _ Hi) _ _ n Hd) as [Hn _]; [done..|].
  unfold mbind, stm_bind, gets, get_best_block. cbn. by rewrite (proj2 (Z.ltb_ge _ _)) by lia.
Qed.

(** ** A header on top of the best chain *)

Definition extended c (x : BlockHeader) (s : S) : Inner :=
  set_store s (set_best (bc_new_block (block_hash x) (depth (best_chain c) + 1) (best_chain c)) c).

Lemma extend_inv c v vi x c' :
  chain_inv rep c v -> validated_to c v vi -> v_headers v !! block_hash x = None ->
  block_hash x <> 0 -> prev_blockhash x = best_block (best_chain c) ->
  update_header_and_index (HeadersOnly x (depth (best_chain c) + 1)) (block_hash x)
    (depth (best_chain c) + 1)
    (set_best (bc_new_block (block_hash x) (depth (best_chain c) + 1) (best_chain c)) c) = (Ok tt, c') ->
  exists v' s', c' = extended c x s' /\ chain_inv rep c' v' /\ validated_to c' v' vi.
Proof.
  intros Hi Hvt Hnew Hz Hp Hu. pose proof (ci_shape _ _ _ Hi) as Hs.
  pose proof (sh_depth _ _ _ _ _ Hs) as Hdep.
  destruct (validation_index_ok rep roots_room _ _ _ Hi Hvt) as [_ Hvi].
  apply update_header_and_index_ok in Hu as (s1 & s2 & Hs1 & Hs2 & ->). cbn in Hs1.
  assert (Ho : off_chain (v_headers v) (block_hash x) (depth (best_chain c) + 1)) by (by left).
  pose proof (off_chain_not_genesis _ _ _ _ _ Hs _ _ Ho) as Hng.
  destruct (save_main_shape rep roots_room (chainstore c) v
    (HeadersOnly x (depth (best_chain c) + 1)) (depth (best_chain c) + 1) s1 s2 _ _ _ (ci_rep _ _ _ Hi) Hs) as [Hr _];
    try done; [lia..|].
  pose proof (shape_extend _ _ _ _ _ Hs x Ho Hz Hp) as Hs'.
  eexists _, s2. split; [done|].
  match type of Hr with rep _ ?w => cut (validated_to (extended c x s2) w vi) end.
  { intros Hv. split; [|exact Hv]. split; [exact Hr|exact Hs'|by eexists]. }
  destruct Hvt as [[hd Hh] Hpre Hacc]. split; cbn.
  - exists hd. rewrite lookup_insert_ne; [done|].
    intros E. change (block_hash x = validation_index (best_chain c)) in E. congruence.
  - intros m e Hm. destruct (decide (m = depth (best_chain c) + 1)) as [->|Hne].
    + rewrite lookup_insert_eq. intros [= <-]. cbn. split; [done|lia].
    + rewrite lookup_insert_ne by done. apply Hpre. lia.
  - destruct Hacc as [Hacc|(Hpos & b & Hb & Hd)]; [by left|right]. split; [done|]. exists b.
    cbn. by rewrite lookup_delete_ne by lia.
Qed.

(** ** A header of a fork with no more work *)

Definition forked c (x : BlockHeader) (tips : list BlockHash) (s : S) : Inner :=
  set_store s (set_best (mkBestChain (best_block (best_chain c)) (depth (best_chain c))
                           (validation_index (best_chain c)) (tips ++ [block_hash x])) c).

Lemma fork_inv c v vi x q m tips s :
  chain_inv rep c v -> validated_to c v vi -> v_headers v !! block_hash x = None ->
  block_hash x <> 0 -> v_headers v !! prev_blockhash x = Some q -> dh_height q = Some m ->
  save_header (InFork x (m + 1)) (chainstore c) = (Ok tt, s) ->
  exists v', chain_inv rep (forked c x tips s) v' /\ validated_to (forked c x tips s) v' vi /\
    v_headers v' = <[block_hash x := InFork x (m + 1)]> (v_headers v) /\ v_slots v' = v_slots v.
Proof.
  intros Hi Hvt Hnew Hz Hq Hm Hsave. pose proof (ci_shape _ _ _ Hi) as Hs.
  assert (Ho : off_chain (v_headers v) (block_hash x) (m + 1)) by (by left).
  apply save_fork_rep with (v := v) in Hsave; try done; [|apply Hi|].
  2:{ destruct (sh_genesis _ _ _ _ _ Hs) as (g & Hg & Hgh). exists g. split; [done|].
      rewrite Hgh. by apply (off_chain_not_genesis _ _ _ _ _ Hs) in Ho. }
  pose proof (shape_fork _ _ _ _ _ Hs x q m Ho Hz Hq Hm) as Hs'.
  eexists. match type of Hsave with rep _ ?w => cut (validated_to (forked c x tips s) w vi) end.
  { intros Hv. split_and!; [|exact Hv|done|done]. split; [exact Hsave|exact Hs'|by eexists]. }
  destruct Hvt as [[hd Hh] Hpre Hacc]. split; cbn; [|done|done].
  exists hd. rewrite lookup_insert_ne; [done|].
    intros E. change (block_hash x = validation_index (best_chain c)) in E. congruence.
Qed.

(** The work of the best chain, as [maybe_reorg] computes it. *)
Definition tip_work c : outcome BlockchainError Z := get_work c (best_block (best_chain c)).

Lemma fork_work_ok c v x q m fp w :
  chain_inv rep c v -> v_headers v !! prev_blockhash x = Some q -> dh_height q = Some m ->
  v_headers v !! block_hash x = None -> find_fork_point fuel c x = Ok fp ->
  get_fork_work fuel c x (block_hash fp) = Ok w ->
  exists f p l wf, branch (v_headers v) x (m + 1) f p l /\ get_work c (dh_hash p) = Ok wf /\
    w = wf + sum_Z header_work l.
Proof.
  intros Hi Hq Hm Hnew Hfp Hw. unfold find_fork_point in Hfp. apply obind_ok in Hfp as (q' & Hq' & Hfp).
  apply (get_disk_ok rep roots_room _ _ _ _ Hi) in Hq'. assert (q' = q) as -> by congruence.
  destruct (fork_point_branch rep roots_room _ _ x q _ _ m Hi Hq Hm Hfp) as (f & p & l & Hb & ->).
  unfold get_fork_work in Hw. apply obind_ok in Hw as (wf & Hwf & Hw).
  exists f, p, l, wf. split_and!; [done|done|].
  destruct (fork_work_cases rep roots_room c v x (m + 1) f p l Hi Hb ltac:(by left) fuel wf)
    as [[E _]|[E|E]]; change (dh_hash p) with (block_hash (deref p)) in E; rewrite E in Hw; [done..|].
  by injection Hw.
Qed.

(** The steps of [maybe_reorg]. *)
Lemma maybe_reorg_steps x c c' :
  maybe_reorg fuel x c = (Ok tt, c') ->
  exists tip fp w w', get_block_header c (best_block (best_chain c)) = Ok tip /\
    check_branch fuel c x = Ok tt /\ find_fork_point fuel c x = Ok fp /\
    get_branch_work c tip = Ok w /\ get_fork_work fuel c x (block_hash fp) = Ok w' /\
    (w < w' /\ reorg fuel x c = (Ok tt, c') \/
     w' <= w /\ exists tips q m s, get_disk_block_header c (prev_blockhash x) = Ok q /\
       dh_height q = Some m /\ save_header (InFork x (m + 1)) (chainstore c) = (Ok tt, s) /\
       c' = forked c x tips s).
Proof.
  intros Hx. unfold maybe_reorg in Hx.
  apply stm_bind_ok in Hx as (tip & c0 & Htip & Hx). injection Htip as Htip <-.
  apply stm_bind_ok in Hx as ([] & c0 & Hcb & Hx). injection Hcb as Hcb <-.
  apply stm_bind_ok in Hx as (fp & c0 & Hfp & Hx). injection Hfp as Hfp <-.
  apply stm_bind_ok in Hx as (w & c0 & Hw & Hx). injection Hw as Hw <-.
  apply stm_bind_ok in Hx as (w' & c0 & Hw' & Hx). injection Hw' as Hw' <-.
  exists tip, fp, w, w'. split_and!; try done. destruct (Z.ltb_spec w w'); [by left|right].
  split; [done|]. apply stm_bind_ok in Hx as ([] & c1 & Ht & Hx).
  unfold push_alt_tip in Ht. apply stm_bind_ok in Ht as (o & c0 & Ho & Ht). injection Ho as _ <-.
  injection Ht as <-. apply stm_bind_ok in Hx as (q & c0 & Hq & Hx). injection Hq as Hq <-.
  apply stm_bind_ok in Hx as (m & c0 & Hm & Hx). injection Hm as Hm <-.
  apply stm_bind_ok in Hx as (n & c0 & Hn & Hx). injection Hn as Hn <-.
  apply u32_add_ok in Hn as [-> _]. apply store_ok in Hx as (s & Hsave & ->).
  eexists _, q, m, s. split_and!; [exact Hq| |exact Hsave|done].
  unfold try_height in Hm. by apply ok_or_ok in Hm.
Qed.

(** What becomes of the chain when a header was accepted: it was known
    already, it extends the best chain, it is kept in a fork, or its branch
    replaces the best chain above the fork point. *)
Inductive accepted c v (vi : Z) (x : BlockHeader) c' : Prop :=
  | accepted_known d : v_headers v !! block_hash x = Some d -> c' = c -> accepted c v vi x c'
  | accepted_on_top v' :
      v_headers v !! block_hash x = None -> validate_header c x = Ok (block_hash x) ->
      prev_blockhash x = best_block (best_chain c) ->
      best_chain c' = bc_new_block (block_hash x) (depth (best_chain c) + 1) (best_chain c) ->
      chain_inv rep c' v' -> validated_to c' v' vi -> accepted c v vi x c'
  | accepted_fork v' m f p l w wf :
      v_headers v !! block_hash x = None -> validate_header c x = Ok (block_hash x) ->
      branch (v_headers v) x m f p l -> tip_work c = Ok w -> get_work c (dh_hash p) = Ok wf ->
      wf + sum_Z header_work l <= w ->
      best_block (best_chain c') = best_block (best_chain c) ->
      depth (best_chain c') = depth (best_chain c) ->
      last (alternative_tips (best_chain c')) = Some (block_hash x) ->
      v_headers v' = <[block_hash x := InFork x m]> (v_headers v) -> v_slots v' = v_slots v ->
      chain_inv rep c' v' -> validated_to c' v' vi -> accepted c v vi x c'
  | accepted_reorg v' m f p l w wf :
      v_headers v !! block_hash x = None -> validate_header c x = Ok (block_hash x) ->
      branch (v_headers v) x m f p l -> tip_work c = Ok w -> get_work c (dh_hash p) = Ok wf ->
      w < wf + sum_Z header_work l ->
      best_block (best_chain c') = block_hash x -> depth (best_chain c') = m ->
      v_slots v' = activate_s l m (v_slots v) ->
      chain_inv rep c' v' -> validated_to c' v' (Z.min vi f) -> accepted c v vi x c'.

Lemma accept_header_cases c v vi (x : BlockHeader) c' :
  chain_inv rep c v -> validated_to c v vi -> block_hash x <> 0 ->
  accept_header fuel x c = (Ok tt, c') -> accepted c v vi x c'.
Proof.
  intros Hinv Hvt Hz Hx.
  unfold accept_header in Hx. rewrite (get_disk_inv rep roots_room _ _ _ Hinv) in Hx.
  destruct (v_headers v !! block_hash x) as [d|] eqn:Hnew; cbn in Hx.
  { apply (accepted_known _ _ _ _ _ d); [done|].
    rewrite (known_header_noop _ _ _ _ Hinv Hnew) in Hx. congruence. }
  unfold accept_new_header in Hx.
  apply stm_bind_ok in Hx as ([bh bk] & c0 & [= <- <- <-] & Hx).
  apply stm_bind_ok in Hx as (h & c0 & Hv & Hx). injection Hv as Hv <-.
  destruct (validate_header_parent c v x h (ci_rep _ _ _ Hinv) Hv) as (-> & q & m & Hq & Hm).
  destruct (Z.eqb_spec (prev_blockhash x) (best_block (best_chain c))) as [E|E].
  { apply stm_bind_ok in Hx as (n & c0 & Hn & Hx). injection Hn as Hn <-.
    apply u32_add_ok in Hn as [-> _]. apply stm_bind_ok in Hx as ([] & c1 & [= <-] & Hx).
    apply (extend_inv c v vi) in Hx as (v' & s' & -> & Hi & Hv'); try done.
    by apply (accepted_on_top _ _ _ _ _ v'). }
  apply maybe_reorg_steps in Hx as (tip & fp & w & w' & Htip & _ & Hfp & Hw & Hw' & Hcase).
  assert (Htw : tip_work c = Ok w) by (unfold tip_work, get_work; by rewrite Htip).
  destruct (fork_work_ok c v x q m fp w' Hinv Hq Hm Hnew Hfp Hw') as (f & p & l & wf & Hb & Hwf & ->).
  destruct Hcase as [[Hlt Hr]|(Hle & tips & q' & m' & s & Hq' & Hm' & Hsave & ->)].
  - apply (reorg_inv rep roots_room fuel c v vi x q m) in Hr
      as (v' & f' & p' & l' & Hb' & Hi & Eb & Ed & Hv' & Es & _); try done; [|by left].
    destruct (branch_unique _ _ _ _ _ _ _ _ _ _ Hb Hb') as (_ & <- & <- & <-).
    by apply (accepted_reorg _ _ _ _ _ v' (m + 1) f p l w wf).
  - apply (get_disk_ok rep roots_room _ _ _ _ Hinv) in Hq'.
    assert (q' = q) as -> by congruence. assert (m' = m) as -> by congruence.
    destruct (fork_inv c v vi x q m tips s) as (v' & Hi & Hv' & Eh & Es); try done.
    apply (accepted_fork _ _ _ _ _ v' (m + 1) f p l w wf); try done. cbn. by rewrite last_snoc.
Qed.

(** C2: When accept_header returns Ok, exactly one of four things happened: the header
    was known and nothing changed; it extends the tip, which moves up by one; it is kept
    in a fork, because the work of its branch is at most the work of the best chain; or
    its branch has strictly more work and replaces the best chain above the fork point,
    with the validation index rolled back to at most the fork point. In every case the
    chain invariant holds afterwards, accumulator included. *)
Theorem accept_header_correct c v vi (x : BlockHeader) c'
  (Hinv : chain_inv rep c v) (Hvt : validated_to c v vi) (Hz : block_hash x <> 0)
  (Hx : accept_header fuel x c = (Ok tt, c')) :
  accepted c v vi x c'.
Proof. by apply accept_header_cases. Qed.
End ChainAccept.
