(* ===== verification/ChainTerm.v ===== *)
(** Termination and failure of header acceptance: with fuel above the heights
    that are stored, the walks and the marking loops end, and an error that is
    not a failed write leaves the chain state as it was. *)

From stdpp Require Import base gmap list strings.
From Stdlib Require Import ZArith Lia.
From S2P Require Import Prelude Bitcoin Errors ChainParams Codec Merkle Sigops Extensions Udata.
From S2P Require Import SwiftSync Consensus ChainStore ChainQuery PartialChain ChainState.
From S2P Require Import ChainShape ChainFacts ChainReorg ChainAccept.

Section ChainTerm.
Context `{HashLib, TxLib, HeaderLib, KernelLib, UtreexoLib}.
Context `{!Codec TxOut} `{!HeaderLibOk}.
Context {S DbErr : Type} `{!ChainStore S DbErr} (rep : S -> StoreView -> Prop)
  (roots_room : S -> Prop) `{!ChainStoreOk S DbErr rep roots_room} `{!StoreTotal S DbErr}.
Context (fuel : nat).

Abbreviation Inner := (ChainStateInner S) (only parsing).
Implicit Types (c : Inner) (v : StoreView) (d : DiskBlockHeader).

#[local] Hint Resolve get_header_total store_block_hash_total store_header_by_height_total
  save_header_total update_block_index_total load_roots_total : total.

(** * Reads *)

Lemma get_disk_total c h : ends (get_disk_block_header c h).
Proof. unfold get_disk_block_header, db. total. Qed.
#[local] Hint Resolve get_disk_total : total.

Lemma get_block_header_total c h : ends (get_block_header c h).
Proof. unfold get_block_header, db. total. Qed.
Lemma get_block_hash_total c n : ends (get_block_hash c n).
Proof. unfold get_block_hash, db. total. Qed.
Lemma get_header_by_height_total c n : ends (get_header_by_height c n).
Proof. unfold get_header_by_height, db. total. Qed.
#[local] Hint Resolve get_block_header_total get_block_hash_total get_header_by_height_total : total.

Lemma ancestor_loop_total c n x : ends (ancestor_loop c n x).
Proof. revert x. induction n as [|n IH]; intros x; cbn; total. Qed.

(** The walk of the testnet rule ends at the next multiple of 2016, so 2016
    iterations are enough. *)
Lemma min_diff_total c bits n height x :
  height mod 2016 < Z.of_nat n -> ends (min_diff_loop c n bits height x).
Proof.
  revert height x. induction n as [|n IH]; intros height x Hn;
    [pose proof (Z.mod_pos_bound height 2016); lia|].
  cbn. destruct (Z.eqb_spec (height mod 2016) 0) as [E|E]; [done|]. cbn.
  destruct (hd_bits x =? bits); [|done]. total.
  match goal with Hs : u32_sub _ _ = Ok _ |- _ => apply u32_sub_ok in Hs as [-> _] end.
  apply IH. pose proof (Z.mod_pos_bound height 2016 ltac:(lia)).
  rewrite <-Zminus_mod_idemp_l, Z.mod_small; lia.
Qed.

Lemma next_work_total c x n y : ends (get_next_required_work c x n y).
Proof.
  unfold get_next_required_work, get_ancestor_at_height.
  pose proof (ancestor_loop_total c). total.
  apply min_diff_total. eapply Z.lt_le_trans; [apply Z.mod_pos_bound|]; lia.
Qed.
#[local] Hint Resolve next_work_total : total.

Lemma validate_header_total c x : ends (validate_header c x).
Proof.
  unfold validate_header, check_bip94_block, validation, check_bip94_time. total.
Qed.

Lemma branch_work_total c n l t : ends (branch_work_loop c n l t).
Proof.
  revert t. induction l as [|h l IH]; intros t; cbn; [done|]. total.
  - unfold multiply_work_by_u32. total.
  - unfold work_add. total.
Qed.
#[local] Hint Resolve validate_header_total branch_work_total : total.

Lemma get_branch_work_total c x : ends (get_branch_work c x).
Proof. unfold get_branch_work, get_block_height. total. Qed.
#[local] Hint Resolve get_branch_work_total : total.

(** * Walks *)

(** Walking from a header at height [n] to the genesis block takes [n]
    steps. *)
Lemma walk_ind c v (P : nat -> BlockHeader -> Prop) :
  chain_inv rep c v ->
  (forall k x, is_genesis c x = true -> P (Datatypes.S k) x) ->
  (forall k x p, is_genesis c x = false -> get_ancestor c x = Ok p -> P k (deref p) ->
     P (Datatypes.S k) x) ->
  forall k x n, at_height (v_headers v) (genesis_hash c) x n -> n < Z.of_nat k -> P k x.
Proof.
  intros Hi Hgen Hstep k. induction k as [|k IH]; intros x n Hx Hn.
  { destruct Hx as [[_ ->]|(_ & Hn0 & _)]; lia. }
  destruct Hx as [[Hg ->]|(Hg & Hn0 & p & Hp & Hpn)]; [by apply Hgen, is_genesis_true|].
  apply (Hstep k x p); [by apply is_genesis_false|by apply (get_disk_ok rep roots_room _ _ _ _ Hi)|].
  apply (IH _ (n - 1)); [|lia]. by apply (stored_at_height _ _ _ _ _ _ _ _ (ci_shape _ _ _ Hi) Hp).
Qed.

Section Walks.
Context c v (Hi : chain_inv rep c v) (x : BlockHeader) (m : Z)
  (Hx : at_height (v_headers v) (genesis_hash c) x m) (Hfuel : m < Z.of_nat fuel).

Lemma check_branch_ends : ends (check_branch fuel c x).
Proof.
  apply (walk_ind c v (fun k x => ends (check_branch_loop c k x)) Hi) with (n := m); [..|done|done].
  - intros k y Hg. cbn. by rewrite Hg.
  - intros k y p Hg Hp IH. cbn. rewrite Hg, Hp. cbn. by destruct p.
Qed.

Lemma last_valid_ends : ends (get_last_valid_block fuel c x).
Proof.
  apply (walk_ind c v (fun k x => ends (last_valid_loop c k x)) Hi) with (n := m); [..|done|done].
  - intros k y Hg. cbn. by rewrite Hg.
  - intros k y p Hg Hp IH. cbn. rewrite Hg, Hp. cbn. by destruct p.
Qed.

Lemma chain_depth_ends : ends (get_chain_depth fuel c x).
Proof.
  unfold get_chain_depth.
  destruct (chain_depth_cases rep roots_room c v _ _ _ (ci_rep _ _ _ Hi) (ci_shape _ _ _ Hi) fuel 0 x m Hx)
    as [->|[->|[_ Hk]]]; [done|done|lia].
Qed.

Lemma fork_point_ends h d :
  v_headers v !! h = Some d -> at_height (v_headers v) (genesis_hash c) (deref d) m ->
  ends (fork_point_loop c fuel (deref d)).
Proof.
  intros Hd Hy. pose proof (stored_self rep _ _ _ _ Hi Hd) as Hst.
  apply (walk_ind c v (fun k x => forall d, deref d = x -> v_headers v !! block_hash x = Some d ->
    ends (fork_point_loop c k x)) Hi) with (n := m) (d := d); [..|done|done|done|done].
  - intros k z Hg e _ _. cbn. by rewrite Hg.
  - intros k z p Hg Hp IH e <- He. cbn. rewrite Hg. unfold db.
    rewrite (get_header_rep _ _ _ (ci_rep _ _ _ Hi)). cbn. rewrite He.
    destruct e as [| | | |b n|]; try done. cbn in Hp. rewrite Hp. cbn.
    apply (get_disk_ok rep roots_room _ _ _ _ Hi) in Hp. apply (IH p); [done|].
    by eapply stored_self.
Qed.
End Walks.

(** * Reorganisations *)

(** An outcome after which the chain state is what it was, but for a failed
    write of the store. *)
Definition harmless c v (o : outcome BlockchainError unit) c' : Prop :=
  o = Panic \/ write_failed (S := S) (DbErr := DbErr) o \/
  exists e s', o = Err e /\ c' = set_store s' c /\ rep s' v.

Lemma harmless_read {A} c v (f : Inner -> outcome BlockchainError A) o c' o' :
  rep (chainstore c) v -> gets f c = (o', c') -> fails o' o -> ends (f c) -> harmless c v o c'.
Proof.
  intros Hr [= <- <-] Hf He. destruct Hf as [e| |]; [right; right|by left|done].
  exists e, (chainstore c). by destruct c.
Qed.

Lemma write_failed_ends {A} (o : outcome BlockchainError A) :
  write_failed (S := S) (DbErr := DbErr) o -> ends o.
Proof.
  intros [d s o' s' Ho Hf|n h s o' s' Ho Hf].
  - pose proof (save_header_total d s) as He. rewrite Ho in He. destruct o'; by inversion Hf.
  - pose proof (update_block_index_total n h s) as He. rewrite Ho in He. destruct o'; by inversion Hf.
Qed.

Lemma reorg_acc_harmless c v h n o c' :
  rep (chainstore c) v -> 0 <= n -> get_block_height c h = Ok (Some n) -> reorg_acc h c = (o, c') ->
  ends o /\ exists s', c' = set_store s' c /\ rep s' v.
Proof.
  intros Hr Hn Hh Ha. unfold reorg_acc in Ha.
  rewrite (stm_bind_gets (fun c => get_block_height c h) _ c _ Hh) in Ha.
  rewrite (stm_bind_lift _ _ _ n) in Ha by done.
  destruct (Z.eqb_spec n 0) as [->|Hne].
  { injection Ha as <- <-. split; [done|]. exists (chainstore c). by destruct c. }
  pose proof (load_roots_total n (chainstore c)) as He.
  destruct (load_roots_rep _ _ n Hr Hn) as [Hr1 _].
  unfold get_roots_for_block, store, mbind, stm_bind, lift, mret, stm_ret, deserialize in Ha.
  destruct (load_roots_for_block n (chainstore c)) as [[[b|]|e| |] s1]; cbn in Ha, He, Hr1;
    try (destruct (stump_deserialize b)); injection Ha as <- <-; (split; [done|by exists s1]).
Qed.

(** The marking passes and the switch. *)
Lemma reorg_tail_harmless c v x m f p l t vh dn a o c' :
  rep (chainstore c) v -> shape c v -> branch (v_headers v) x m f p l ->
  at_height (v_headers v) (genesis_hash c) x m -> off_chain (v_headers v) (block_hash x) m ->
  block_hash x <> 0 -> m < Z.of_nat fuel -> depth (best_chain c) < Z.of_nat fuel ->
  v_headers v !! best_block (best_chain c) = Some t ->
  (_ ← mark_chain_as_inactive fuel (deref t) (dh_hash p);
   _ ← mark_chain_as_active fuel x (dh_hash p);
   modify (change_active_chain x vh dn a)) c = (o, c') ->
  o = Ok tt \/ o = Panic \/ write_failed (S := S) (DbErr := DbErr) o.
Proof.
  intros Hr Hs Hb Hx Ho Hz Hfm Hfd Ht Hm.
  destruct (branch_fork_point _ _ _ _ _ _ Hb) as (hp & Hp & Hpm & Hpf).
  destruct (sh_main _ _ _ _ _ Hs _ _ _ Hp Hpm Hpf) as [Hfn Hsl].
  assert (Hfail : forall o1 : outcome BlockchainError unit,
    (write_failed (S := S) (DbErr := DbErr) o1 \/ o1 = Panic) -> fails o1 o ->
    o = Panic \/ write_failed (S := S) (DbErr := DbErr) o).
  { intros o1 [Hw|Hw] Hf; [right; by eapply write_failed_fails|left; by subst; inversion Hf]. }
  apply stm_bind_cases in Hm as [([] & c1 & Hi & Hm)|(o1 & Hi & Hf)].
  2:{ apply (mark_inactive_outcome rep roots_room fuel c v f p t) in Hi
        as [Hw|[Hw|[[_ Hk]|[-> _]]]]; try done; [right; by apply (Hfail o1); [left|]
        |right; by apply (Hfail o1); [right|]|lia|by inversion Hf]. }
  apply (mark_inactive_outcome rep roots_room fuel c v f p t) in Hi
    as [[]%write_failed_not_ok|[|[[]|(_ & s1 & -> & Hr1)]]]; try done.
  apply stm_bind_cases in Hm as [([] & c2 & Ha & Hm)|(o1 & Ha & Hf)].
  - left. by injection Hm.
  - apply (mark_active_outcome rep roots_room fuel (set_store s1 c) v x m f p l) in Ha
      as [Hw|[Hw|[[_ Hk]|[-> _]]]]; try done; [right; by apply (Hfail o1); [left|]
        |right; by apply (Hfail o1); [right|]|lia|by inversion Hf].
Qed.

Lemma reorg_harmless c v vi x q m o c' :
  chain_inv rep c v -> validated_to c v vi -> v_headers v !! prev_blockhash x = Some q ->
  dh_height q = Some m -> off_chain (v_headers v) (block_hash x) (m + 1) -> block_hash x <> 0 ->
  m + 1 < Z.of_nat fuel -> depth (best_chain c) < Z.of_nat fuel ->
  reorg fuel x c = (o, c') -> o = Ok tt \/ harmless c v o c'.
Proof.
  intros Hi Hvt Hq Hqm Ho Hz Hfm Hfd Hx. pose proof (ci_shape _ _ _ Hi) as Hs.
  pose proof (ci_rep _ _ _ Hi) as Hr.
  destruct (validation_index_ok rep roots_room _ _ _ Hi Hvt) as [_ Hvi].
  assert (Hng : block_hash x <> genesis_hash c) by (by apply (off_chain_not_genesis _ _ _ _ _ Hs) in Ho).
  destruct (sh_parent _ _ _ _ _ Hs _ _ _ Hq Hqm) as [Hm0 _].
  assert (Hat : at_height (v_headers v) (genesis_hash c) x (m + 1)).
  { right. split_and!; [done|lia|]. exists q. split; [done|]. rewrite Hqm. f_equal. lia. }
  unfold reorg in Hx.
  apply stm_bind_cases in Hx as [(cur & c0 & Hcur & Hx)|(o1 & Hcur & Hf)];
    [injection Hcur as Hcur <-|right; eapply harmless_read; [exact Hr|exact Hcur|exact Hf|apply get_block_header_total]].
  apply stm_bind_cases in Hx as [(fp & c0 & Hfp & Hx)|(o1 & Hfp & Hf)];
    [injection Hfp as Hfp <-|right; eapply harmless_read; [exact Hr|exact Hfp|exact Hf|]].
  2:{ apply obind_ends; [apply get_disk_total|]. intros e He.
      apply (get_disk_ok rep roots_room _ _ _ _ Hi) in He. assert (e = q) as -> by congruence.
      apply (fork_point_ends c v Hi m ltac:(lia) _ q He).
      by apply (stored_at_height _ _ _ _ _ _ _ _ Hs He). }
  apply stm_bind_cases in Hx as [(vh & c0 & Hvh & Hx)|(o1 & Hvh & Hf)];
    [injection Hvh as Hvh <-|right; eapply harmless_read; [exact Hr|exact Hvh|exact Hf|]].
  2:{ by apply (last_valid_ends c v Hi x (m + 1)). }
  apply stm_bind_cases in Hx as [(d & c0 & Hd & Hx)|(o1 & Hd & Hf)];
    [injection Hd as Hd <-|right; eapply harmless_read; [exact Hr|exact Hd|exact Hf|]].
  2:{ by apply (chain_depth_ends c v Hi x (m + 1)). }
  unfold find_fork_point in Hfp. apply obind_ok in Hfp as (q' & Hq' & Hfp).
  apply (get_disk_ok rep roots_room _ _ _ _ Hi) in Hq'. assert (q' = q) as -> by congruence.
  destruct (fork_point_branch rep roots_room _ _ x q _ _ m Hi Hq Hqm Hfp) as (f & p & l & Hb & ->).
  destruct (last_valid_branch rep roots_room c v vi x _ f p l fuel vh Hi Hvt ltac:(lia) Hb Hng Hvh)
    as [hd Hh].
  destruct (branch_fork_point _ _ _ _ _ _ Hb) as (hp & Hp & Hpm & Hpf).
  destruct (sh_main _ _ _ _ _ Hs _ _ _ Hp Hpm Hpf) as [Hfn _].
  assert (Hgh : get_block_height c vh = Ok (Some (Z.min vi f))).
  { unfold get_block_height. by rewrite (proj2 (get_disk_ok rep roots_room _ _ _ _ Hi) Hh). }
  apply stm_bind_cases in Hx as [(a & c1 & Ha & Hx)|(o1 & Ha & Hf)];
    apply (reorg_acc_harmless c v vh (Z.min vi f)) in Ha as (He & s1 & -> & Hr1); try done; try lia.
  - apply (get_block_header_ok rep roots_room _ _ _ _ Hi) in Hcur as (t & Ht & <-).
    apply (reorg_tail_harmless (set_store s1 c) v x (m + 1) f p l t) in Hx as [Hok|[Hp'|Hw]]; try done;
      [by left|right; by left|right; right; by left].
  - right. destruct Hf as [e| |]; [right; right; by exists e, s1|by left|done].
Qed.

(** * Accepting headers *)

Lemma push_alt_tip_ok c x a :
  get_ancestor c x = Ok a -> exists b, push_alt_tip x c = (Ok tt, set_best b c).
Proof.
  intros Ha. unfold push_alt_tip. erewrite stm_bind_gets; [by eexists|]. by rewrite Ha.
Qed.

Section Accept.
Context c v vi (x : BlockHeader) q m (Hi : chain_inv rep c v) (Hvt : validated_to c v vi)
  (Hz : block_hash x <> 0) (Hnew : v_headers v !! block_hash x = None)
  (Hq : v_headers v !! prev_blockhash x = Some q) (Hqm : dh_height q = Some m)
  (Hfm : m + 1 < Z.of_nat fuel) (Hfd : depth (best_chain c) < Z.of_nat fuel).

Lemma new_header_height : at_height (v_headers v) (genesis_hash c) x (m + 1).
Proof.
  pose proof (ci_shape _ _ _ Hi) as Hs. destruct (sh_parent _ _ _ _ _ Hs _ _ _ Hq Hqm) as [Hm0 _].
  right. split_and!; [|lia|].
  - apply (off_chain_not_genesis _ _ _ _ _ Hs _ (m + 1)). by left.
  - exists q. split; [done|]. rewrite Hqm. f_equal. lia.
Qed.

Lemma find_fork_point_ends : ends (find_fork_point fuel c x).
Proof.
  apply obind_ends; [apply get_disk_total|]. intros e He.
  apply (get_disk_ok rep roots_room _ _ _ _ Hi) in He. assert (e = q) as -> by congruence.
  apply (fork_point_ends c v Hi m ltac:(lia) _ q He).
  by apply (stored_at_height _ _ _ _ _ _ _ _ (ci_shape _ _ _ Hi) He).
Qed.

Lemma get_fork_work_ends fp :
  find_fork_point fuel c x = Ok fp -> ends (get_fork_work fuel c x (block_hash fp)).
Proof.
  intros Hfp. unfold find_fork_point in Hfp. apply obind_ok in Hfp as (q' & Hq' & Hfp).
  apply (get_disk_ok rep roots_room _ _ _ _ Hi) in Hq'. assert (q' = q) as -> by congruence.
  destruct (fork_point_branch rep roots_room _ _ x q _ _ m Hi Hq Hqm Hfp) as (f & p & l & Hb & ->).
  destruct (branch_fork_point _ _ _ _ _ _ Hb) as (hp & Hp & Hpm & Hpf).
  destruct (sh_parent _ _ _ _ _ (ci_shape _ _ _ Hi) _ _ _ Hp Hpf) as [Hf0 _].
  apply obind_ends; [unfold get_work; total|]. intros w _.
  destruct (fork_work_cases rep roots_room c v x (m + 1) f p l Hi Hb ltac:(by left) fuel w)
    as [[_ Hk]|[E|E]]; [lia|..]; change (dh_hash p) with (block_hash (deref p)) in E; by rewrite E.
Qed.

Lemma maybe_reorg_harmless o c' :
  maybe_reorg fuel x c = (o, c') -> o = Ok tt \/ harmless c v o c'.
Proof.
  intros Hx. pose proof (ci_rep _ _ _ Hi) as Hr. unfold maybe_reorg in Hx.
  apply stm_bind_cases in Hx as [(tip & c0 & Htip & Hx)|(o1 & Htip & Hf)];
    [injection Htip as Htip <-|right; eapply harmless_read; [exact Hr|exact Htip|exact Hf|total]].
  apply stm_bind_cases in Hx as [([] & c0 & Hcb & Hx)|(o1 & Hcb & Hf)];
    [injection Hcb as Hcb <-|right; eapply harmless_read; [exact Hr|exact Hcb|exact Hf|]].
  2:{ by apply (check_branch_ends c v Hi x (m + 1) new_header_height). }
  apply stm_bind_cases in Hx as [(fp & c0 & Hfp & Hx)|(o1 & Hfp & Hf)];
    [injection Hfp as Hfp <-|right; eapply harmless_read; [exact Hr|exact Hfp|exact Hf|]].
  2:{ apply find_fork_point_ends. }
  apply stm_bind_cases in Hx as [(w & c0 & Hw & Hx)|(o1 & Hw & Hf)];
    [injection Hw as Hw <-|right; eapply harmless_read; [exact Hr|exact Hw|exact Hf|total]].
  apply stm_bind_cases in Hx as [(w' & c0 & Hw' & Hx)|(o1 & Hw' & Hf)];
    [injection Hw' as Hw' <-|right; eapply harmless_read; [exact Hr|exact Hw'|exact Hf|]].
  2:{ by apply get_fork_work_ends. }
  destruct (w <? w').
  { apply (reorg_harmless c v vi x q m o c'); try done. by left. }
  pose proof (proj2 (get_disk_ok rep roots_room _ _ _ _ Hi) Hq) as Hanc.
  destruct (push_alt_tip_ok c x q Hanc) as [b Hpush].
  unfold mbind at 1, stm_bind at 1 in Hx. rewrite Hpush in Hx.
  rewrite (stm_bind_gets (fun c => get_ancestor c x) _ (set_best b c) q Hanc) in Hx.
  rewrite (stm_bind_lift (try_height q) _ _ m) in Hx by (by apply ok_or_ok).
  apply stm_bind_cases in Hx as [(n & c0 & Hn & Hx)|(o1 & [= <- _] & Hf)].
  - unfold update_header, store in Hx. destruct (save_header _ _) as [o' s'] eqn:Es.
    injection Hx as <- _. destruct o' as [[]| | |]; [by left|right; right; left..];
      (eapply save_failed; [exact Es|constructor]).
  - right; left. unfold u32_add in Hf. destruct (_ <=? _); by inversion Hf.
Qed.

End Accept.

Section AcceptAny.
Context c v vi (x : BlockHeader) (Hi : chain_inv rep c v) (Hvt : validated_to c v vi)
  (Hz : block_hash x <> 0)
  (Hfuel : forall h d n, v_headers v !! h = Some d -> dh_height d = Some n -> n + 1 < Z.of_nat fuel).

Lemma accept_new_header_harmless o c' :
  v_headers v !! block_hash x = None ->
  accept_new_header fuel x c = (o, c') -> o = Ok tt \/ harmless c v o c'.
Proof.
  intros Hnew Hx. pose proof (ci_rep _ _ _ Hi) as Hr. unfold accept_new_header in Hx.
  apply stm_bind_cases in Hx as [([bh bk] & c0 & [= <- <- <-] & Hx)|(o1 & [= <- <-] & Hf)];
    [|by inversion Hf].
  apply stm_bind_cases in Hx as [(h & c0 & Hv & Hx)|(o1 & Hv & Hf)];
    [injection Hv as Hv <-|right; eapply harmless_read; [exact Hr|exact Hv|exact Hf|]].
  2:{ apply validate_header_total. }
  destruct (prev_blockhash x =? best_block (best_chain c)).
  - apply stm_bind_cases in Hx as [(n & c0 & Hn & Hx)|(o1 & [= <- _] & Hf)].
    + apply stm_bind_cases in Hx as [([] & c1 & _ & Hx)|(o1 & [= <- _] & Hf)]; [|by inversion Hf].
      apply update_header_and_index_cases in Hx as [->|Hw]; [by left|right; right; by left].
    + right; left. unfold u32_add in Hf. destruct (_ <=? _); by inversion Hf.
  - destruct (validate_header_parent rep roots_room c v x h Hr Hv) as (_ & q & m & Hq & Hm).
    destruct (tip_header _ _ _ _ _ (ci_shape _ _ _ Hi)) as (t & Ht & _ & Htn & _).
    pose proof (Hfuel _ _ _ Ht Htn). pose proof (Hfuel _ _ _ Hq Hm).
    apply (maybe_reorg_harmless c v vi x q m); done || lia.
Qed.

Lemma accept_header_harmless o c' :
  accept_header fuel x c = (o, c') -> o = Ok tt \/ harmless c v o c'.
Proof.
  unfold accept_header. rewrite (get_disk_inv rep roots_room _ _ _ Hi).
  destruct (v_headers v !! block_hash x) as [d|] eqn:Hnew; cbn.
  - rewrite (known_header_noop rep fuel _ _ _ _ Hi Hnew). intros [= <- _]. by left.
  - by apply accept_new_header_harmless.
Qed.
End AcceptAny.

(** C3: With fuel above the stored heights plus one, accept_header terminates: none of
    its walks and marking loops diverges. When it returns an error, either the chain
    state is what it was (only the cache of the store may differ) and the invariant
    still holds, or the error is a failed write of the store. *)
Theorem accept_header_total c v vi (x : BlockHeader) o c'
  (Hinv : chain_inv rep c v) (Hvt : validated_to c v vi) (Hz : block_hash x <> 0)
  (Hfuel : forall h d n, v_headers v !! h = Some d -> dh_height d = Some n -> n + 1 < Z.of_nat fuel)
  (Hx : accept_header fuel x c = (o, c')) :
  ends o /\
  forall e, o = Err e ->
    (exists s', c' = set_store s' c /\ chain_inv rep c' v /\ validated_to c' v vi) \/
    (e = Database /\ write_failed (S := S) (DbErr := DbErr) o).
Proof.
  destruct (accept_header_harmless c v vi x Hinv Hvt Hz Hfuel o c' Hx)
    as [->|[->|[Hw|(e & s' & -> & -> & Hr)]]].
  - done.
  - done.
  - split; [by apply write_failed_ends|]. intros e ->. right. split; [|done].
    by destruct Hw as [? ? [] ? _ Hf|? ? ? [] ? _ Hf]; inversion Hf.
  - split; [done|]. intros e' _. left. exists s'. split_and!; [done|by apply chain_inv_set_store|].
    by destruct Hvt; split.
Qed.
End ChainTerm.
