(* ===== verification/ChainReach.v ===== *)
(** Runs of a node: the chain state created on an empty store, and every
    sequence of headers, blocks, rejected messages and flushes.  The invariant
    holds in every state of a run, whatever the store, and in particular for
    the flat-file store opened on an empty directory. *)

From stdpp Require Import base gmap list strings.
From Stdlib Require Import ZArith Lia.
From S2P Require Import Prelude Bitcoin Errors ChainParams Codec Merkle Sigops Extensions Udata.
From S2P Require Import SwiftSync Consensus ChainStore ChainQuery PartialChain ChainState.
From S2P Require Import FlatStore FlatFacts FlatRefine FlatOk ChainShape ChainFacts ChainReorg.
From S2P Require Import ChainAccept ChainTerm.

Section ChainReach.
Context `{HashLib, TxLib, HeaderLib, KernelLib, UtreexoLib}.
Context `{!Codec TxOut} `{!HeaderLibOk} `{!StumpOk}.
Context (fuel : nat).

Section Runs.
Context {S DbErr : Type} `{!ChainStore S DbErr} (rep : S -> StoreView -> Prop)
  (roots_room : S -> Prop) `{!ChainStoreOk S DbErr rep roots_room} `{!StoreTotal S DbErr}.

Abbreviation Inner := (ChainStateInner S) (only parsing).
Implicit Types (c : Inner) (v : StoreView).

(** The fuel is above the heights that are stored. *)
Definition fuel_ok c : Prop := forall h d n,
  get_disk_block_header c h = Ok d -> dh_height d = Some n -> n + 1 < Z.of_nat fuel.

(** The steps of a node.  A block comes with the header of its own hash; a
    failed write of the store ends the run. *)
Inductive step : Inner -> Inner -> Prop :=
  | step_header x c c' :
      block_hash x <> 0 -> accept_header fuel x c = (Ok tt, c') -> step c c'
  | step_header_rejected x e c c' :
      block_hash x <> 0 -> fuel_ok c -> accept_header fuel x c = (Err e, c') -> e <> Database ->
      step c c'
  | step_block b proof inputs dels n c c' :
      roots_room (chainstore c) ->
      (forall d, get_disk_block_header c (blk_hash b) = Ok d -> deref d = blk_header b) ->
      blk_hash b <> genesis_hash c -> connect_block b proof inputs dels c = (Ok n, c') -> step c c'
  | step_block_rejected b proof inputs dels e c c' :
      connect_block b proof inputs dels c = (Err e, c') -> storage_error e = false -> step c c'
  | step_flush c c' : flush c = (Ok tt, c') -> step c c'
  | step_ibd i c c' : update_ibd i c = (Ok tt, c') -> step c c'
  | step_subscribe k c c' : subscribe k c = (Ok tt, c') -> step c c'.

Inductive run : Inner -> Inner -> Prop :=
  | run_refl c : run c c
  | run_step c1 c2 c3 : run c1 c2 -> step c2 c3 -> run c1 c3.

(** The invariant reads four fields of the state. *)
Lemma chain_inv_proper c c' v :
  chainstore c' = chainstore c -> best_chain c' = best_chain c -> acc c' = acc c ->
  parameters c' = parameters c -> chain_inv rep c v -> chain_inv rep c' v.
Proof.
  intros Es Eb Ea Ep [Hr Hs [n [Hh Hp Hacc]]]. split; [by rewrite Es| |exists n; split].
  - unfold shape, genesis_hash in *. by rewrite Eb, Ep.
  - by rewrite Eb.
  - by rewrite Eb.
  - by rewrite Ea.
Qed.

Lemma step_inv c c' v : chain_inv rep c v -> step c c' -> exists v', chain_inv rep c' v'.
Proof.
  intros Hi Hst. destruct (ci_valid _ _ _ Hi) as [vi Hvt].
  destruct Hst as [x c c' Hz Hx|x e c c' Hz Hf Hx He|b proof inputs dels n c c' Hroom Hd Hg Hc
    |b proof inputs dels e c c' Hc He|c c' Hfl|i c c' Hu|k c c' Hu].
  - destruct (accept_header_cases rep roots_room fuel c v vi x c' Hi Hvt Hz Hx); [subst c'; by exists v|by exists v'..].
  - destruct (accept_header_harmless rep roots_room fuel c v vi x Hi Hvt Hz) with (o := @Err _ unit e) (c' := c')
      as [|[|[Hw|(e' & s' & _ & -> & Hr)]]]; try done.
    + intros h d n Hh. apply (Hf h d n). by apply (get_disk_ok rep roots_room _ _ _ _ Hi).
    + destruct Hw as [? ? [] ? _ Hf'|? ? ? [] ? _ Hf']; inversion Hf'; congruence.
    + exists v. by apply chain_inv_set_store.
  - destruct (connect_block_inv rep roots_room b proof inputs dels c v n c') as (v' & vi' & Hi' & _);
      try done; [|by exists v'].
    intros d Hd'. apply Hd. by apply (get_disk_ok rep roots_room _ _ _ _ Hi).
  - apply connect_block_err in Hc; [|done]. subst c'. by exists v.
  - destruct (flush_inv rep roots_room c v c' Hi Hfl) as (s' & -> & Hr). exists v.
    by apply chain_inv_set_store.
  - injection Hu as <-. exists v. by apply (chain_inv_proper c).
  - injection Hu as <-. exists v. by apply (chain_inv_proper c).
Qed.

Lemma run_inv c c' v : chain_inv rep c v -> run c c' -> exists v', chain_inv rep c' v'.
Proof.
  intros Hi Hr. induction Hr as [c|c1 c2 c3 Hr IH Hst]; [by exists v|].
  destruct (IH Hi) as [v' Hi']. by apply (step_inv c2 c3 v').
Qed.

(** * What the invariant says through the public queries *)

(** The best chain as a client reads it: every height up to the tip has a
    block, linked to the one below, from the genesis block to the tip, and the
    blocks up to the validation index are the validated ones. *)
Record readable c : Prop := {
  rd_slot : forall n, 0 <= n <= get_height c -> exists d,
    get_header_by_height c n = Ok d /\ get_block_hash c n = Ok (dh_hash d) /\
    get_block_height c (dh_hash d) = Ok (Some n) /\
    (0 < n -> get_block_hash c (n - 1) = Ok (prev_blockhash (deref d)));
  rd_tip : get_block_hash c (get_height c) = Ok (get_best_block c).2;
  rd_genesis : get_block_hash c 0 = Ok (genesis_hash c);
  rd_valid : exists vi, get_validation_index c = Ok vi /\ 0 <= vi <= get_height c /\
    forall n d, 0 <= n <= get_height c -> get_header_by_height c n = Ok d ->
      is_fully_valid d = true <-> n <= vi
}.

Lemma slot_read c v n d :
  rep (chainstore c) v -> v_slots v !! n = Some d ->
  get_header_by_height c n = Ok d /\ get_block_hash c n = Ok (dh_hash d).
Proof.
  intros Hr Hd. destruct (slot_rep _ _ n d Hr Hd) as [E1 E2].
  unfold get_header_by_height, get_block_hash, db. by rewrite E1, E2.
Qed.

Lemma chain_inv_readable c v : chain_inv rep c v -> readable c.
Proof.
  intros Hi. pose proof (ci_shape _ _ _ Hi) as Hs. pose proof (ci_rep _ _ _ Hi) as Hr. split.
  - intros n Hn. destruct (sh_slot _ _ _ _ _ Hs n Hn) as (d & Hd & Hh & _ & Hdn & Hp). exists d.
    destruct (slot_read _ _ _ _ Hr Hd) as [E1 E2]. split_and!; [exact E1|exact E2| |].
    + unfold get_block_height. rewrite (proj2 (get_disk_ok rep roots_room _ _ _ _ Hi) Hh). cbn.
      by rewrite Hdn.
    + intros Hn0. destruct (Hp Hn0) as (p & Hps & ->). by destruct (slot_read _ _ _ _ Hr Hps).
  - destruct (sh_tip _ _ _ _ _ Hs) as (d & Hd & Hh). destruct (slot_read _ _ _ _ Hr Hd) as [_ E].
    unfold get_height. rewrite E. cbn. by rewrite Hh.
  - destruct (sh_genesis _ _ _ _ _ Hs) as (d & Hd & <-). by destruct (slot_read _ _ _ _ Hr Hd).
  - destruct (ci_valid _ _ _ Hi) as [vi Hvt]. exists vi.
    destruct (validation_index_ok rep roots_room _ _ _ Hi Hvt) as [E Hvi]. split; [done|split; [done|]].
    intros n d Hn Hd. destruct (sh_slot _ _ _ _ _ Hs n Hn) as (e & He & _).
    destruct (slot_read _ _ _ _ Hr He) as [E' _]. assert (e = d) as -> by congruence.
    by apply (vt_prefix _ _ _ Hvt).
Qed.

(** * The initial state *)

Definition genesis_view (g : BlockHeader) : StoreView :=
  mkStoreView {[block_hash g := FullyValid g 0]} {[0 := FullyValid g 0]} ∅.

Lemma genesis_params net : genesis (chain_params_from net) = genesis_block net.
Proof. by destruct net. Qed.

Lemma initial_inv s net arg :
  let g := blk_header (genesis_block net) in
  block_hash g <> 0 -> rep s (genesis_view g) ->
  chain_inv rep (initial_inner stump_new s (mkBestChain (block_hash g) 0 (block_hash g) []) net arg)
    (genesis_view g).
Proof.
  intros g Hz Hr. split; [done| |exists 0; split].
  - unfold shape, genesis_hash. cbn. rewrite genesis_params. split.
    + intros h d [<- <-]%lookup_singleton_Some. done.
    + done.
    + intros n Hn. assert (n = 0) as -> by (cbn in Hn; lia). exists (FullyValid g 0). cbn.
      rewrite !lookup_singleton_eq. split_and!; done || lia.
    + eexists. cbn. by rewrite lookup_singleton_eq.
    + eexists. cbn. by rewrite lookup_singleton_eq.
    + intros h d n [<- <-]%lookup_singleton_Some _ [= <-]. cbn. by rewrite lookup_singleton_eq.
    + intros h d n [<- <-]%lookup_singleton_Some [= <-]. split_and!; done || lia.
    + intros h hd n. cbn. rewrite lookup_singleton_Some. by intros [_ ?].
  - exists g. cbn. by rewrite lookup_singleton_eq.
  - intros m d Hm. cbn. rewrite lookup_singleton_Some. by intros [<- <-].
  - by left.
Qed.

(** On any store that implements the interface, every state reached from the genesis
    state by headers, blocks, rejections, flushes, IBD updates and subscriptions has a
    readable best chain, linked from the genesis block to the tip and fully valid
    exactly up to the validation index. *)
Theorem run_keeps_chain_readable s net arg c
  (Hz : blk_hash (genesis_block net) <> 0)
  (Hr : rep s (genesis_view (blk_header (genesis_block net))))
  (Hrun : run (initial_inner stump_new s
    (mkBestChain (blk_hash (genesis_block net)) 0 (blk_hash (genesis_block net)) []) net arg) c) :
  readable c.
Proof.
  destruct (run_inv _ _ _ (initial_inv s net arg Hz Hr) Hrun) as [v Hi].
  by apply (chain_inv_readable c v).
Qed.
End Runs.

(** ** The flat-file store *)

Context `{FlatLib} (entries : Lru -> gmap BlockHash DiskBlockHeader) `{!LruOk entries}.

Lemma flat_run_inv (cfg : FlatChainStoreConfig) (n : Z) s0 net arg c0 c
  (Hcfg : block_index_size cfg = Some n) (Hn : 1 <= n <= 2 ^ 32)
  (Hz : blk_hash (genesis_block net) <> 0)
  (Hnew : flat_new cfg (mkDataDir None ∅ ∅ ∅ []) = Ok s0)
  (Hc0 : new_chain_state s0 net arg = Ok c0)
  (Hrun : run flat_room c0 c) :
  exists v, chain_inv (flat_rep entries) c v.
Proof.
  unfold new_chain_state in Hc0.
  destruct (save_header _ s0) as [[[]| | |] s1] eqn:Es; try done.
  destruct (update_block_index _ _ s1) as [[[]| | |] s2] eqn:Eu; try done. injection Hc0 as <-.
  pose proof (fresh_store_rep entries cfg _ n s0 s1 s2 Hcfg Hn Hnew Hz Es Eu) as Hr.
  exact (run_inv (flat_rep entries) flat_room _ _ _ (initial_inv (flat_rep entries) s2 net arg Hz Hr) Hrun).
Qed.

(** C1: A node started on an empty data directory (the flat-file store opened there,
    then ChainState::new) keeps a readable best chain in every state of a run. A run is
    any sequence of accepted headers, rejected headers, connected blocks (whose header
    is the stored one), rejected blocks, flushes, IBD updates and subscriptions in which
    no write of the store fails. Readable: every height up to the tip has a header whose
    hash and height agree in both directions and whose parent is the block one below,
    height 0 is the genesis block, the top is the recorded tip, and the fully valid
    blocks of the chain are exactly those up to the validation index. *)
Theorem flat_node_stays_readable (cfg : FlatChainStoreConfig) (n : Z) s0 net arg c0 c
  (Hcfg : block_index_size cfg = Some n) (Hn : 1 <= n <= 2 ^ 32)
  (Hz : blk_hash (genesis_block net) <> 0)
  (Hnew : flat_new cfg (mkDataDir None ∅ ∅ ∅ []) = Ok s0)
  (Hc0 : new_chain_state s0 net arg = Ok c0)
  (Hrun : run flat_room c0 c) :
  readable c.
Proof.
  destruct (flat_run_inv cfg n s0 net arg c0 c Hcfg Hn Hz Hnew Hc0 Hrun) as [v Hi].
  by apply (chain_inv_readable (flat_rep entries) flat_room c v).
Qed.
End ChainReach.
