(* ===== verification/ChainWork.v ===== *)
(** The accumulated work of the best chain: [get_branch_work] multiplies the
    work of the first header of each difficulty period by the number of its
    blocks, and this is the sum of the work of all the headers when the
    headers of a period have the same work.

    Block locators: the heights are a short strictly decreasing list from the
    tip to the genesis block, the arithmetic does not overflow, and the locator
    computed from the slots agrees with the one computed by walking back from
    the best tip. *)

From stdpp Require Import base gmap list strings.
From Stdlib Require Import ZArith Lia Sorted.
From S2P Require Import Prelude Bitcoin Errors ChainParams Codec Merkle Sigops Extensions Udata SwiftSync Consensus ChainStore.
From S2P Require Import ChainQuery PartialChain ChainState ChainShape ChainFacts ChainReorg ChainAccept.

Section ChainWork.
Context `{HashLib, TxLib, HeaderLib, KernelLib, UtreexoLib}.
Context `{!Codec TxOut}.
Context {S DbErr : Type} `{!ChainStore S DbErr} (rep : S -> StoreView -> Prop)
  (roots_room : S -> Prop) `{!ChainStoreOk S DbErr rep roots_room}.
Abbreviation Inner := (ChainStateInner S) (only parsing).
Implicit Types (c : Inner) (v : StoreView).

(** The work of the header at a height, and of the chain up to a height. *)
Definition slot_work v (n : Z) : Z :=
  match v_slots v !! n with Some d => header_work (deref d) | None => 0 end.
Definition chain_work v (n : Z) : Z := sum_Z (slot_work v) (seqZ 0 (n + 1)).

(** The headers of a period have the work of its first header. *)
Definition periods_uniform v (n : Z) : Prop :=
  forall m, 0 <= m <= n -> slot_work v m = slot_work v (2016 * (m / 2016)).

Lemma sum_Z_const {A} (f : A -> Z) w l :
  (forall x, x ∈ l -> f x = w) -> sum_Z f l = w * Z.of_nat (length l).
Proof.
  induction l as [|x l IH]; intros Hl; cbn [sum_Z length]; [lia|].
  rewrite (Hl x) by left. rewrite IH by (intros; apply Hl; by right). lia.
Qed.

Section Period.
Context c v n (Hi : chain_inv rep c v) (Hn : 0 <= n <= depth (best_chain c))
  (Hmax : n + 2015 <= u32_max) (Hpos : forall m, 0 <= slot_work v m)
  (Hu : periods_uniform v n) (Hlt : chain_work v n < 2 ^ 256).

Lemma prefix_sum a b : 0 <= a -> 0 <= b ->
  sum_Z (slot_work v) (seqZ 0 (a + b)) =
  sum_Z (slot_work v) (seqZ 0 a) + sum_Z (slot_work v) (seqZ a b).
Proof. intros Ha Hb. by rewrite seqZ_app, sum_Z_app by lia. Qed.

Lemma prefix_le a b : 0 <= a <= b ->
  sum_Z (slot_work v) (seqZ 0 a) <= sum_Z (slot_work v) (seqZ 0 b).
Proof.
  intros Hab. replace b with (a + (b - a)) by lia. rewrite prefix_sum by lia.
  pose proof (sum_Z_nonneg (slot_work v) (seqZ a (b - a)) ltac:(intros; apply Hpos)). lia.
Qed.

(** The blocks of a period. *)
Lemma period_sum k b : 0 <= k -> 0 <= b <= 2016 -> 2016 * k + b <= n + 1 ->
  sum_Z (slot_work v) (seqZ (2016 * k) b) = slot_work v (2016 * k) * b.
Proof.
  intros Hk Hb Hle. rewrite (sum_Z_const _ (slot_work v (2016 * k))).
  - rewrite length_seqZ, Z2Nat.id by lia. done.
  - intros m Hm%elem_of_seqZ. rewrite Hu by lia.
    by rewrite <-(Z.div_unique m 2016 k (m - 2016 * k)) by lia.
Qed.

Lemma branch_work_value j : forall k, 0 <= k -> k + Z.of_nat j = n / 2016 + 1 ->
  branch_work_loop c n (map (Z.mul 2016) (seqZ k (Z.of_nat j)))
    (sum_Z (slot_work v) (seqZ 0 (Z.min (2016 * k) (n + 1)))) = Ok (chain_work v n).
Proof.
  pose proof (Z.div_mod n 2016 ltac:(lia)) as Hdm.
  pose proof (Z.mod_pos_bound n 2016 ltac:(lia)) as Hmod.
  induction j as [|j IH]; intros k Hk Hkj.
  { cbn. unfold chain_work. by rewrite Z.min_r by lia. }
  rewrite Nat2Z.inj_succ, seqZ_cons by lia. cbn [map branch_work_loop].
  rewrite Z.min_l by lia. replace (Z.pred (Z.succ (Z.of_nat j))) with (Z.of_nat j) by lia.
  replace (Z.succ k) with (k + 1) by lia.
  assert (u32_add (E := BlockchainError) (2016 * k) 2015 = Ok (2016 * k + 2015)) as ->
    by (apply u32_add_ok; lia).
  cbn [mbind outcome_bind].
  destruct (sh_slot _ _ _ _ _ (ci_shape _ _ _ Hi) (2016 * k)) as (d & Hd & Hh & _); [lia|].
  destruct (slot_rep _ _ _ _ (ci_rep _ _ _ Hi) Hd) as [_ Hbh].
  unfold get_block_hash, db. rewrite Hbh. cbn [map_err mbind outcome_bind ok_or].
  rewrite (proj2 (get_block_header_ok rep roots_room c v (dh_hash d) (deref d) Hi)) by (by exists d).
  cbn [mbind outcome_bind].
  set (e := Z.min (2016 * k + 2015) n). set (b := e - 2016 * k + 1).
  assert (Hw : slot_work v (2016 * k) = header_work (deref d)) by (unfold slot_work; by rewrite Hd).
  pose proof (period_sum k b Hk ltac:(lia) ltac:(lia)) as Hp.
  pose proof (prefix_sum (2016 * k) b ltac:(lia) ltac:(lia)) as Hs.
  pose proof (prefix_le (2016 * k + b) (n + 1) ltac:(lia)) as Hle. unfold chain_work in Hlt.
  pose proof (sum_Z_nonneg (slot_work v) (seqZ 0 (2016 * k)) ltac:(intros; apply Hpos)) as H0s.
  pose proof (Hpos (2016 * k)) as Hw0. rewrite Hw in *.
  assert (1 <= b <= 2016) as Hb by lia.
  pose proof (Z.mul_le_mono_nonneg_l 1 b (header_work (deref d)) Hw0 ltac:(lia)) as Hwb.
  rewrite multiply_exact by (unfold is_u32, u32_max in *; lia).
  rewrite (proj2 (Z.ltb_lt _ _)) by lia. cbn [map_err mbind outcome_bind].
  unfold work_add. rewrite (proj2 (Z.ltb_lt _ _)) by lia. cbn [mbind outcome_bind].
  rewrite <-Hp, <-Hs. replace (2016 * k + b) with (Z.min (2016 * (k + 1)) (n + 1)) by lia.
  apply IH; lia.
Qed.
End Period.

(** get_branch_work of a block of the best chain is the sum of the work of all headers
    from the genesis block to it, when the headers of each difficulty period have the
    same work and the sum fits in 256 bits: multiplying the work of the first header of
    a period by its number of blocks loses nothing. *)
Theorem get_branch_work_exact c v (x : BlockHeader) d n
  (Hinv : chain_inv rep c v)
  (Hd : v_headers v !! block_hash x = Some d) (Hm : is_main d = true) (Hn : dh_height d = Some n)
  (Hmax : n + 2015 <= u32_max) (Hpos : forall m, 0 <= slot_work v m)
  (Hu : periods_uniform v n) (Hlt : chain_work v n < 2 ^ 256) :
  get_branch_work c x = Ok (chain_work v n).
Proof.
  destruct (sh_main _ _ _ _ _ (ci_shape _ _ _ Hinv) _ _ _ Hd Hm Hn) as [Hnd _].
  unfold get_branch_work, get_block_height.
  rewrite (proj2 (get_disk_ok rep roots_room _ _ _ _ Hinv) Hd). cbn. rewrite Hn. cbn.
  unfold epoch_starts. pose proof (Z.div_pos n 2016 ltac:(lia) ltac:(lia)).
  pose proof (branch_work_value c v n Hinv Hnd Hmax Hpos Hu Hlt (Z.to_nat (n / 2016 + 1)) 0
    ltac:(lia) ltac:(lia)) as E.
  rewrite Z2Nat.id in E by lia. rewrite Z.min_l in E by lia. exact E.
Qed.
End ChainWork.

Section ChainLocator.
Context `{HashLib, TxLib, HeaderLib, KernelLib, UtreexoLib}.
Context `{!Codec TxOut}.
Context {S DbErr : Type} `{!ChainStore S DbErr} (rep : S -> StoreView -> Prop)
  (roots_room : S -> Prop) `{!ChainStoreOk S DbErr rep roots_room}.
Abbreviation Inner := (ChainStateInner S) (only parsing).
Implicit Types (c : Inner) (v : StoreView).

(** After [len] entries the index is below the top by the steps taken: one
    for each of the first ten entries, doubling after that. *)
Definition locator_inv (top index step : Z) (len : nat) : Prop :=
  ((len <= 10)%nat -> step = 1 /\ top - index = Z.of_nat len) /\
  ((10 <= len)%nat -> step = 2 ^ (Z.of_nat len - 10) /\ top - index = 8 + 2 * step).

Lemma locator_step top index step len :
  top <= u32_max -> 0 < index -> locator_inv top index step len ->
  (len <= 40)%nat /\ 0 < step /\
  exists step', next_step (E := BlockchainError) len step = Ok step' /\ 0 < step' /\
    (step' < index -> locator_inv top (index - step') step' (Datatypes.S len)).
Proof.
  unfold u32_max. intros Htop Hidx [Hlo Hhi]. unfold next_step, u32_mul, u32_max.
  destruct (Nat.leb_spec 10 len) as [Hlen|Hlen].
  - destruct (Hhi Hlen) as [-> Hd]. pose proof (Z.pow_pos_nonneg 2 (Z.of_nat len - 10)) as Hp.
    assert (Hle : Z.of_nat len - 10 < 31) by (apply (Z.pow_lt_mono_r_iff 2); lia).
    split_and!; [lia|lia|]. exists (2 ^ (Z.of_nat len - 10) * 2).
    rewrite (proj2 (Z.leb_le _ _)) by lia. split_and!; [done|lia|]. intros _. split; [lia|].
    intros _. replace (Z.of_nat (Datatypes.S len) - 10) with (Z.succ (Z.of_nat len - 10)) by lia.
    rewrite Z.pow_succ_r by lia. lia.
  - destruct Hlo as [-> Hd]; [lia|]. split_and!; [lia|lia|]. exists 1. split_and!; [done|lia|].
    intros _. split; [lia|]. intros Hl. assert (len = 9)%nat as -> by lia. cbn. lia.
Qed.

Lemma locator_loop_ok top : top <= u32_max -> forall n index step indexes,
  0 < index <= Z.of_nat n -> locator_inv top index step (length indexes) ->
  exists l, locator_loop n index step indexes = Ok (indexes ++ index :: l) /\
    (length indexes + length l <= 40)%nat /\
    StronglySorted Z.gt (index :: l) /\ Forall (fun i => 0 < i <= index) (index :: l).
Proof.
  intros Htop. induction n as [|n IH]; intros index step indexes Hidx Hinv; [lia|].
  destruct (locator_step top index step (length indexes) Htop ltac:(lia) Hinv)
    as (Hlen & _ & step' & Hstep & Hpos & Hnext).
  cbn [locator_loop]. rewrite (proj2 (Z.ltb_lt _ _)), Hstep by lia. cbn [mbind outcome_bind].
  destruct (Z.ltb_spec step' index) as [Hlt|Hge].
  - destruct (IH (index - step') step' (indexes ++ [index])) as (l & E & Hl & Hs & Hf); [lia| |].
    { rewrite length_app, Nat.add_comm. by apply Hnext. }
    exists (index - step' :: l). rewrite E, <-app_assoc. split_and!; [done| | |].
    + rewrite length_app in Hl. cbn in *. lia.
    + constructor; [done|]. eapply Forall_impl; [exact Hf|]. cbn. lia.
    + constructor; [lia|]. eapply Forall_impl; [exact Hf|]. cbn. lia.
  - exists []. split_and!; [done|cbn; lia|repeat constructor|]. constructor; [lia|done].
Qed.

Lemma locator_heights_ok top : 0 <= top <= u32_max ->
  exists l, locator_heights top = Ok l /\ (length l <= 42)%nat /\ StronglySorted Z.gt l /\
    Forall (fun i => 0 <= i <= top) l /\ head l = Some top /\ last l = Some 0.
Proof.
  intros Htop. unfold locator_heights. destruct (Z.eq_dec top 0) as [->|Hne].
  { exists [0]. cbn. split_and!; [done|lia|repeat constructor|by repeat constructor|done|done]. }
  destruct (locator_loop_ok top ltac:(lia) (Z.to_nat top) top 1 []) as (l & -> & Hl & Hs & Hf);
    [lia|split; cbn; lia|].
  exists (top :: l ++ [0]). cbn in Hl. split_and!; [done|rewrite length_cons, length_app; cbn; lia| | |done|].
  - change (top :: l ++ [0]) with ((top :: l) ++ [0]). revert Hs Hf. generalize (top :: l).
    induction l0 as [|a l0 IHl]; intros Hs Hf; cbn; [repeat constructor|].
    inversion Hs; inversion Hf; subst. constructor; [by apply IHl|].
    apply Forall_app. split; [done|]. repeat constructor. lia.
  - change (top :: l ++ [0]) with ((top :: l) ++ [0]). apply Forall_app. split.
    + eapply Forall_impl; [exact Hf|]. cbn. lia.
    + repeat constructor; lia.
  - change (top :: l ++ [0]) with ((top :: l) ++ [0]). by rewrite last_snoc.
Qed.

(** * Hashes *)

Section Hashes.
Context c v (Hi : chain_inv rep c v).

(** The hash recorded at a height. *)
Definition slot_hash (n : Z) : BlockHash :=
  match v_slots v !! n with Some d => dh_hash d | None => 0 end.

Lemma slot_hash_read n : 0 <= n <= depth (best_chain c) -> get_block_hash c n = Ok (slot_hash n).
Proof.
  intros Hn. destruct (sh_slot _ _ _ _ _ (ci_shape _ _ _ Hi) n Hn) as (d & Hd & _).
  destruct (slot_rep _ _ _ _ (ci_rep _ _ _ Hi) Hd) as [_ E].
  unfold get_block_hash, db, slot_hash. by rewrite E, Hd.
Qed.

Lemma locator_hashes l :
  Forall (fun i => 0 <= i <= depth (best_chain c)) l ->
  list_omap _ _ (fun idx => ok_opt (get_block_hash c idx)) l = map slot_hash l.
Proof. induction 1 as [|i l Hil _ IH]; [done|]. cbn. by rewrite slot_hash_read, IH. Qed.

(** Walking back along the best chain. *)
Lemma walk_back_slot k : forall m d, v_slots v !! m = Some d -> Z.of_nat k <= m <= depth (best_chain c) ->
  exists e, walk_back c k d = Ok e /\ v_slots v !! (m - Z.of_nat k) = Some e.
Proof.
  induction k as [|k IH]; intros m d Hd Hm.
  { exists d. split; [done|]. by rewrite Z.sub_0_r. }
  destruct (sh_slot _ _ _ _ _ (ci_shape _ _ _ Hi) m) as (d' & Hd' & _ & _ & _ & Hp); [lia|].
  assert (d' = d) as -> by congruence. destruct Hp as (p & Hps & Hpp); [lia|].
  destruct (sh_slot _ _ _ _ _ (ci_shape _ _ _ Hi) (m - 1)) as (p' & Hp' & Hhp & _); [lia|].
  assert (p' = p) as -> by congruence. cbn [walk_back]. unfold get_ancestor.
  rewrite (proj2 (get_disk_ok rep roots_room c v _ p Hi)) by (by rewrite Hpp). cbn [mbind outcome_bind].
  destruct (IH (m - 1) p Hps) as (e & E & He); [lia|]. exists e. split; [done|].
  by replace (m - Z.of_nat (Datatypes.S k)) with (m - 1 - Z.of_nat k) by lia.
Qed.

(** The walk visits the heights of [locator_loop]. *)
Lemma tip_locator_walk top : top <= u32_max -> forall n index height step d indexes hashes,
  0 < index <= height -> height <= depth (best_chain c) -> index <= Z.of_nat n ->
  v_slots v !! height = Some d -> length hashes = length indexes ->
  locator_inv top index step (length indexes) ->
  exists l, locator_loop n index step indexes = Ok (indexes ++ l) /\
    tip_locator_loop c n index height step d hashes = Ok (hashes ++ map slot_hash l).
Proof.
  intros Htop. induction n as [|n IH]; intros index height step d indexes hashes Hidx Hh Hn Hd Hlen Hinv;
    [lia|].
  destruct (locator_step top index step (length indexes) Htop ltac:(lia) Hinv)
    as (_ & _ & step' & Hstep & Hpos & Hnext).
  destruct (walk_back_slot (Z.to_nat (height - index)) height d Hd) as (e & Hw & He); [lia|].
  replace (height - Z.of_nat (Z.to_nat (height - index))) with index in He by lia.
  assert (Hsh : slot_hash index = dh_hash e) by (unfold slot_hash; by rewrite He).
  cbn [locator_loop tip_locator_loop]. rewrite (proj2 (Z.ltb_lt _ _)), Hw by lia.
  cbn [mbind outcome_bind]. rewrite Hlen, Hstep. cbn [mbind outcome_bind].
  rewrite Z.min_r by lia. destruct (Z.ltb_spec step' index) as [Hlt|Hge].
  - destruct (IH (index - step') index step' e (indexes ++ [index]) (hashes ++ [dh_hash e]))
      as (l & E1 & E2); try (rewrite ?length_app; cbn; lia); [done| |].
    { rewrite length_app, Nat.add_comm. by apply Hnext. }
    exists (index :: l). rewrite E1, E2, <-!app_assoc. cbn. by rewrite Hsh.
  - exists [index]. cbn. by rewrite Hsh.
Qed.

Lemma tip_locator_agrees :
  depth (best_chain c) <= u32_max ->
  get_block_locator_for_tip c (best_block (best_chain c)) = get_block_locator c.
Proof.
  intros Hmax. pose proof (ci_shape _ _ _ Hi) as Hs. pose proof (sh_depth _ _ _ _ _ Hs) as Hdep.
  destruct (tip_header _ _ _ _ _ Hs) as (t & Ht & _ & Htn & Hts).
  destruct (locator_heights_ok (depth (best_chain c)) ltac:(lia)) as (hs & Eh & _ & _ & Hf & _).
  unfold get_block_locator, get_height. rewrite Eh. cbn [mbind outcome_bind].
  rewrite (locator_hashes _ Hf). unfold get_block_locator_for_tip, try_height.
  rewrite (proj2 (get_disk_ok rep roots_room _ _ _ _ Hi) Ht). cbn [mbind outcome_bind].
  rewrite Htn. cbn [ok_or mbind outcome_bind]. rewrite (slot_hash_read 0) by lia.
  unfold locator_heights in Eh. destruct (Z.eq_dec (depth (best_chain c)) 0) as [E|E].
  { rewrite E in *. cbn in Eh |- *. injection Eh as <-. done. }
  destruct (tip_locator_walk (depth (best_chain c)) Hmax (Z.to_nat (depth (best_chain c)))
    (depth (best_chain c)) (depth (best_chain c)) 1 t [] []) as (l & E1 & E2); try done; try lia.
  { split; cbn; lia. }
  rewrite E2. rewrite E1 in Eh. cbn in Eh |- *. injection Eh as <-. by rewrite map_app.
Qed.
End Hashes.

(** get_block_locator returns the hashes of strictly decreasing heights of the best
    chain, from the tip to the genesis block, at most 42 of them, and
    get_block_locator_for_tip at the tip, which walks the parent links instead, returns
    the same hashes. *)
Theorem block_locator_correct c v
  (Hinv : chain_inv rep c v) (Hmax : depth (best_chain c) <= u32_max) :
  exists heights hashes, locator_heights (get_height c) = Ok heights /\
    get_block_locator c = Ok hashes /\
    get_block_locator_for_tip c (best_block (best_chain c)) = Ok hashes /\
    Forall2 (fun n h => get_block_hash c n = Ok h) heights hashes /\
    StronglySorted Z.gt heights /\ (length hashes <= 42)%nat /\
    head hashes = Some (best_block (best_chain c)) /\ last hashes = Some (genesis_hash c).
Proof.
  pose proof (ci_shape _ _ _ Hinv) as Hs. pose proof (sh_depth _ _ _ _ _ Hs) as Hdep.
  destruct (locator_heights_ok (depth (best_chain c)) ltac:(lia)) as (l & E & Hl & Hsort & Hf & Hh & Hlast).
  assert (Eloc : get_block_locator c = Ok (map (slot_hash v) l)).
  { unfold get_block_locator, get_height. rewrite E. cbn [mbind outcome_bind].
    by rewrite (locator_hashes _ _ Hinv _ Hf). }
  exists l, (map (slot_hash v) l). split_and!; [done|done|by rewrite tip_locator_agrees with (v := v)| |done|by rewrite length_map| |].
  - clear -Hf Hinv ChainStoreOk0. induction Hf as [|i l Hil _ IH]; [constructor|].
    constructor; [by apply slot_hash_read|done].
  - destruct l as [|i l]; [done|]. injection Hh as ->. cbn. f_equal.
    destruct (sh_tip _ _ _ _ _ Hs) as (d & Hd & <-). unfold slot_hash. by rewrite Hd.
  - change (map (slot_hash v) l) with (slot_hash v <$> l). rewrite fmap_last, Hlast. cbn. f_equal.
    destruct (sh_genesis _ _ _ _ _ Hs) as (d & Hd & <-). unfold slot_hash. by rewrite Hd.
Qed.
End ChainLocator.
