(* ===== verification/Mempool.v ===== *)
(** The mempool ([src/crates/floresta-mempool/src/mempool.rs]): the
    transactions the node has broadcast, the dependencies between them, and
    the block template built from them. *)

From stdpp Require Import base gmap list sets fin_maps.
From Stdlib Require Import ZArith Lia.
From S2P Require Import Prelude Bitcoin Errors ChainParams Codec Merkle Sigops Extensions Udata.
From S2P Require Import SwiftSync Consensus.

#[export] Instance TxIn_eq_dec : EqDecision TxIn.
Proof. solve_decision. Defined.
#[export] Instance Transaction_eq_dec : EqDecision Transaction.
Proof. solve_decision. Defined.

(** [ahash::RandomState], by its four seeds. *)
Record RandomState := mkSeeds { seed_a : Z; seed_b : Z; seed_c : Z; seed_d : Z }.

(** What the mempool uses of rust-bitcoin and ahash: sizes of transactions,
    the Merkle root of a list of transactions, and the keyed hash. *)
Class MempoolLib := {
  total_size : Transaction -> Z;
  weight : Transaction -> Z;
  compute_merkle_root : list Transaction -> option Z;
  hash_one : RandomState -> Txid -> Z
}.

(** Sizes and weights are unsigned. *)
Class MempoolLibOk `{MempoolLib} : Prop := {
  total_size_nonneg : forall tx, 0 <= total_size tx;
  weight_nonneg : forall tx, 0 <= weight tx
}.

Abbreviation ShortTxid := Z (only parsing).

Record MempoolTransaction := mkMempoolTx {
  transaction : Transaction;
  added_at : Z;
  depends : list ShortTxid;
  children : list ShortTxid
}.

(** The map of transactions, the sizes in bytes, the queue and the hasher.
    Times are nanoseconds of the monotonic clock. *)
Record Mempool := mkMempool {
  transactions : gmap ShortTxid MempoolTransaction;
  mempool_size : Z;
  max_mempool_size : Z;
  queue : list Txid;
  hasher : RandomState
}.

Definition set_transactions (txs : gmap ShortTxid MempoolTransaction) (m : Mempool) : Mempool :=
  mkMempool txs (mempool_size m) (max_mempool_size m) (queue m) (hasher m).
Definition set_mempool_size (n : Z) (m : Mempool) : Mempool :=
  mkMempool (transactions m) n (max_mempool_size m) (queue m) (hasher m).

Section Mempool.
Context `{HashLib, TxLib, HeaderLib, KernelLib, UtreexoLib, MempoolLib}.

(** [MempoolError] ([src/crates/floresta-domain/src/mempool/error.rs]). *)
Inductive MempoolError :=
  | FullMempool
  | ConflictingTransaction
  | DuplicatedInputs
  | ConsensusValidation (e : BlockchainError).

Definition short (m : Mempool) (txid : Txid) : ShortTxid := hash_one (hasher m) txid.
Definition short_of (m : Mempool) (tx : Transaction) : ShortTxid := short m (compute_txid tx).

(** [Mempool::new]; the four seeds are random. *)
Definition mempool_new (a b c d : Z) (max_size : Z) : Mempool :=
  mkMempool ∅ 0 max_size [] (mkSeeds a b c d).

Definition list_unprocessed (m : Mempool) : list Txid := queue m.

(** The iterators of a [HashMap] visit the entries in an arbitrary order: the
    operations that iterate take the values in the order of the visit. *)
Definition list_mempool (values : list MempoolTransaction) : list Txid :=
  map (fun t => compute_txid (transaction t)) values.

Definition get_from_mempool (m : Mempool) (id : Txid) : option Transaction :=
  transaction <$> transactions m !! short m id.

(** [Instant::elapsed] saturates at zero. *)
Definition get_stale (now : Z) (values : list MempoolTransaction) : list Txid :=
  map (fun t => compute_txid (transaction t))
    (filter (fun t => 3600 * 10 ^ 9 < saturating_sub now (added_at t)) values).

(** * The block template *)

Section Template.
Context {E : Type}.

Fixpoint add_transaction_to_block (n : nat) (m : Mempool) (txs : list Transaction)
  (id : ShortTxid) : outcome E (list Transaction) :=
  match n with
  | O => Diverge
  | S n' =>
      t ← expect (transactions m !! id);
      if bool_decide (transaction t ∈ txs) then Ok txs
      else
        txs ← fold_loop (add_transaction_to_block n' m) txs (depends t);
        Ok (txs ++ [transaction t])
  end.

Fixpoint template_loop (fuel : nat) (m : Mempool) (max_block_weight : Z)
  (values : list MempoolTransaction) (size : Z) (txs : list Transaction)
  : outcome E (list Transaction) :=
  match values with
  | [] => Ok txs
  | t :: rest =>
      total ← u64_add size (weight (transaction t));
      if max_block_weight <? total then Ok txs
      else if bool_decide (transaction t ∈ txs)
      then template_loop fuel m max_block_weight rest size txs
      else
        txs ← add_transaction_to_block fuel m txs (short_of m (transaction t));
        template_loop fuel m max_block_weight rest total txs
  end.

Definition get_block_template (fuel : nat) (m : Mempool) (values : list MempoolTransaction)
  (version prev_hash time bits max_block_weight : Z) : outcome E Block :=
  txs ← template_loop fuel m max_block_weight values 0 [];
  let merkle_root := default all_zeros (compute_merkle_root txs) in
  Ok (mkBlock (mkBlockHeader version prev_hash merkle_root time bits 0) txs).
End Template.

(** * Removing the transactions of a block *)

(** [child_tx.depends.retain(|depend| *depend != short_txid)]. *)
Definition forget_parent (id : ShortTxid) (t : MempoolTransaction) : MempoolTransaction :=
  mkMempoolTx (transaction t) (added_at t) (filter (fun d => d <> id) (depends t)) (children t).

Definition forget_in_children (id : ShortTxid) (cs : list ShortTxid)
  (txs : gmap ShortTxid MempoolTransaction) : gmap ShortTxid MempoolTransaction :=
  foldl (fun txs child => alter (forget_parent id) child txs) txs cs.

(** One transaction of [consume_block]. *)
Definition consume_tx {E} (tx : Transaction) : stm Mempool E Txid :=
  m ← gets Ok;
  let id := short_of m tx in
  match transactions m !! id with
  | Some removed =>
      _ ← modify (set_transactions (delete id (transactions m)));
      n ← gets (fun m => u64_sub (mempool_size m) (total_size (transaction removed)));
      _ ← modify (set_mempool_size n);
      _ ← modify (fun m =>
            set_transactions (forget_in_children id (children removed) (transactions m)) m);
      mret (compute_txid tx)
  | None => mret (compute_txid tx)
  end.

Fixpoint consume_txs {E} (txs : list Transaction) : stm Mempool E (list Txid) :=
  match txs with
  | [] => mret []
  | tx :: rest => id ← consume_tx tx; ids ← consume_txs rest; mret (id :: ids)
  end.

Definition consume_block {E} (b : Block) : stm Mempool E (list Txid) := consume_txs (txdata b).

(** * Accepting a transaction *)

Definition is_already_spent (m : Mempool) (outpoint : OutPoint) : bool :=
  match transactions m !! short m (op_txid outpoint) with
  | None => false
  | Some t =>
      existsb (fun child =>
        match transactions m !! child with
        | None => false
        | Some c => existsb (fun i => (op_txid (previous_output i) =? op_txid outpoint)
            && (op_vout (previous_output i) =? op_vout outpoint)) (tx_input (transaction c))
        end) (children t)
  end.

Definition check_for_conflicts (m : Mempool) (tx : Transaction) : outcome MempoolError unit :=
  let inputs : gset OutPoint := list_to_set (map previous_output (tx_input tx)) in
  _ ← err_if (negb (size inputs =? length (tx_input tx))%nat) DuplicatedInputs;
  err_if (existsb (fun i => is_already_spent m (previous_output i)) (tx_input tx))
    ConflictingTransaction.

Definition find_mempool_depends (m : Mempool) (tx : Transaction) : list ShortTxid :=
  filter (fun id => is_Some (transactions m !! id))
    (map (fun i => short m (op_txid (previous_output i))) (tx_input tx)).

(** [tx.children.push(short_txid)]. *)
Definition add_child (id : ShortTxid) (t : MempoolTransaction) : MempoolTransaction :=
  mkMempoolTx (transaction t) (added_at t) (depends t) (children t ++ [id]).

(** The loop over the dependencies; [get_mut(depend).unwrap()]. *)
Definition push_child {E} (id : ShortTxid) (txs : gmap ShortTxid MempoolTransaction)
  (depend : ShortTxid) : outcome E (gmap ShortTxid MempoolTransaction) :=
  t ← expect (txs !! depend);
  Ok (<[depend := add_child id t]> txs).

Definition accept_to_mempool (now : Z) (tx : Transaction) : stm Mempool MempoolError unit :=
  m ← gets Ok;
  let short_txid := short_of m tx in
  if bool_decide (is_Some (transactions m !! short_txid)) then mret tt
  else
    needed ← lift (u64_add (mempool_size m) (total_size tx));
    _ ← lift (err_if (max_mempool_size m <? needed) FullMempool);
    _ ← lift (map_err ConsensusValidation (check_transaction_context_free tx));
    _ ← lift (check_for_conflicts m tx);
    let deps := find_mempool_depends m tx in
    txs ← lift (fold_loop (push_child short_txid) (transactions m) deps);
    _ ← modify (set_transactions (<[short_txid := mkMempoolTx tx now deps []]> txs));
    n ← gets (fun m => u64_add (mempool_size m) (total_size tx));
    modify (set_mempool_size n).
End Mempool.
