(* ===== verification/MempoolFacts.v ===== *)
(** The mempool keeps exact account of its size and of the dependencies it
    records, through every sequence of accepted and mined transactions; block
    templates respect the recorded dependencies. *)

From stdpp Require Import base gmap list sets fin_maps.
From Stdlib Require Import ZArith Lia.
From S2P Require Import Prelude Bitcoin Errors ChainParams Codec Merkle Sigops Extensions Udata.
From S2P Require Import SwiftSync Consensus ConsensusFacts Mempool.

Section MempoolFacts.
Context `{HashLib, TxLib, HeaderLib, KernelLib, UtreexoLib, MempoolLib, !MempoolLibOk}.
Abbreviation prevouts l := (map previous_output l).
Implicit Types (m : Mempool) (txs : gmap Z MempoolTransaction) (t : MempoolTransaction).

(** The mempool as a client sees it: transactions by short id. *)
Definition pool m : gmap Z Transaction := transaction <$> transactions m.
Definition pool_bytes (p : gmap Z Transaction) : Z := map_sum total_size p.

(** The recorded dependencies: of stored transactions only, without cycles,
    and known to the parent as a child. *)
Record deps_ok txs (rank : Z -> nat) : Prop := {
  dk_rank : forall k t p, txs !! k = Some t -> p ∈ depends t -> (rank p < rank k)%nat;
  dk_child : forall k t p, txs !! k = Some t -> p ∈ depends t ->
    exists tp, txs !! p = Some tp /\ k ∈ children tp
}.

(** No two stored transactions that depend on the same stored parent spend
    the same output of it. *)
Definition no_conflict (h : RandomState) txs : Prop := forall k1 k2 t1 t2 o,
  txs !! k1 = Some t1 -> txs !! k2 = Some t2 ->
  o ∈ prevouts (tx_input (transaction t1)) -> o ∈ prevouts (tx_input (transaction t2)) ->
  hash_one h (op_txid o) ∈ depends t1 -> hash_one h (op_txid o) ∈ depends t2 -> k1 = k2.

Record mempool_inv m : Prop := {
  mi_key : forall k tx, pool m !! k = Some tx -> short_of m tx = k;
  mi_size : mempool_size m = pool_bytes (pool m);
  mi_max : mempool_size m <= max_mempool_size m;
  mi_deps : exists rank, deps_ok (transactions m) rank;
  mi_conflict : no_conflict (hasher m) (transactions m)
}.

Lemma pool_lookup m k tx :
  pool m !! k = Some tx <-> exists t, transactions m !! k = Some t /\ transaction t = tx.
Proof. unfold pool. rewrite lookup_fmap_Some. split; intros (t & ? & ?); by exists t. Qed.

Lemma pool_None m k : pool m !! k = None <-> transactions m !! k = None.
Proof. unfold pool. rewrite lookup_fmap. by destruct (transactions m !! k). Qed.

(** * Children *)

(** [t1] is [t] with copies of [k] added to its children. *)
Definition grown (k : Z) t t1 : Prop :=
  transaction t1 = transaction t /\ depends t1 = depends t /\ children t ⊆ children t1.

Lemma push_child_all {E} k deps : forall txs, (forall d, d ∈ deps -> is_Some (txs !! d)) ->
  exists txs1, fold_loop (E := E) (push_child k) txs deps = Ok txs1 /\
    transaction <$> txs1 = transaction <$> txs /\
    (forall j t1, txs1 !! j = Some t1 -> exists t, txs !! j = Some t /\ grown k t t1) /\
    (forall j t, txs !! j = Some t -> exists t1, txs1 !! j = Some t1 /\ grown k t t1 /\
       (j ∈ deps -> k ∈ children t1)).
Proof.
  induction deps as [|d deps IH]; intros txs Hd.
  { exists txs. split_and!; try done.
    - intros j t Hj. by exists t.
    - intros j t Hj. exists t. split_and!; try done. by intros ?%not_elem_of_nil. }
  destruct (Hd d) as [td Htd]; [by left|].
  assert (Ep : push_child (E := E) k txs d = Ok (<[d := add_child k td]> txs))
    by (unfold push_child; by rewrite Htd).
  cbn [fold_loop]. rewrite Ep. cbn [mbind outcome_bind].
  destruct (IH (<[d := add_child k td]> txs)) as (txs1 & E1 & Hf & Hback & Hfw).
  { intros e He. apply lookup_insert_is_Some'. right. apply Hd. by right. }
  exists txs1. split_and!; [done| | |].
  - rewrite Hf, fmap_insert. apply insert_id. by rewrite lookup_fmap, Htd.
  - intros j t1 Hj. destruct (Hback j t1 Hj) as (t & Ht & Hg). destruct (decide (j = d)) as [->|Hne].
    + rewrite lookup_insert_eq in Ht. injection Ht as <-. exists td. split; [done|].
      destruct Hg as (? & ? & Hc). split_and!; try done. cbn in Hc. set_solver.
    + rewrite lookup_insert_ne in Ht by done. by exists t.
  - intros j t Hj. destruct (decide (j = d)) as [->|Hne].
    + destruct (Hfw d (add_child k td)) as (t1 & Ht1 & (? & ? & Hc) & _); [apply lookup_insert_eq|].
      exists t1. assert (t = td) as -> by congruence. cbn in Hc. split_and!; try done.
      * split_and!; try done. set_solver.
      * intros _. apply Hc. set_solver.
    + destruct (Hfw j t) as (t1 & Ht1 & Hg & Hc); [by rewrite lookup_insert_ne|].
      exists t1. split_and!; try done. intros [->|?]%elem_of_cons; [done|by apply Hc].
Qed.

Lemma forget_lookup id cs : forall txs j,
  forget_in_children id cs txs !! j = (if decide (j ∈ cs) then forget_parent id else fun t => t) <$> txs !! j.
Proof.
  induction cs as [|c cs IH]; intros txs j; cbn.
  - rewrite decide_False by (by apply not_elem_of_nil). by destruct (txs !! j).
  - unfold forget_in_children in IH. rewrite IH. destruct (decide (j = c)) as [->|Hne].
    + rewrite lookup_alter_eq, (decide_True (P := c ∈ c :: cs)) by left.
      destruct (txs !! c) as [t|]; [|done]. cbn. case_decide; [|done]. unfold forget_parent. cbn.
      do 2 f_equal. induction (depends t) as [|x l IHl]; [done|]. rewrite !filter_cons.
      destruct (decide (x <> id)) as [Hx|Hx]; [|done]. rewrite filter_cons, decide_True by done.
      by rewrite IHl.
    + rewrite lookup_alter_ne by done.
      f_equal. apply decide_ext. rewrite elem_of_cons. tauto.
Qed.

(** * Accepting a transaction *)

(** Inserting a transaction whose parents have been told of it. *)
Lemma insert_deps_ok txs txs1 rank k tx now deps :
  deps_ok txs rank -> txs !! k = None ->
  (forall d, d ∈ deps -> is_Some (txs !! d)) ->
  (forall j t1, txs1 !! j = Some t1 -> exists t, txs !! j = Some t /\ grown k t t1) ->
  (forall j t, txs !! j = Some t -> exists t1, txs1 !! j = Some t1 /\ grown k t t1 /\
     (j ∈ deps -> k ∈ children t1)) ->
  exists rank', deps_ok (<[k := mkMempoolTx tx now deps []]> txs1) rank'.
Proof.
  intros [Hr Hc] Hk Hd Hback Hfw.
  assert (Hne : forall p, is_Some (txs !! p) -> p <> k) by (intros p [? Hp] ->; congruence).
  exists (fun j => if decide (j = k) then Datatypes.S (foldr Nat.max 0%nat (map rank deps)) else rank j).
  split.
  - intros j t p. destruct (decide (j = k)) as [->|Hjk].
    + rewrite lookup_insert_eq. intros [= <-] Hp. cbn in Hp. rewrite decide_False by (by apply Hne, Hd).
      clear -Hp. induction deps as [|d deps IH]; [by apply not_elem_of_nil in Hp|]. cbn.
      apply elem_of_cons in Hp as [->|Hp]; [lia|]. specialize (IH Hp). lia.
    + rewrite lookup_insert_ne by done. intros (t0 & Ht0 & _ & Hdep & _)%Hback Hp. rewrite Hdep in Hp.
      destruct (Hc j t0 p Ht0 Hp) as (tp & Htp & _).
      rewrite decide_False by (by apply Hne; rewrite Htp). by apply (Hr j t0).
  - intros j t p. destruct (decide (j = k)) as [->|Hjk].
    + rewrite lookup_insert_eq. intros [= <-] Hp. cbn in Hp. destruct (Hd p Hp) as [tp Htp].
      destruct (Hfw p tp Htp) as (t1 & Ht1 & _ & Hin). exists t1.
      rewrite lookup_insert_ne by (apply not_eq_sym, Hne; by rewrite Htp). split; [done|by apply Hin].
    + rewrite lookup_insert_ne by done. intros (t0 & Ht0 & _ & Hdep & _)%Hback Hp. rewrite Hdep in Hp.
      destruct (Hc j t0 p Ht0 Hp) as (tp & Htp & Hin).
      destruct (Hfw p tp Htp) as (t1 & Ht1 & (_ & _ & Hsub) & _). exists t1.
      rewrite lookup_insert_ne by (apply not_eq_sym, Hne; by rewrite Htp). split; [done|by apply Hsub].
Qed.

(** An output spent by a recorded child is reported as spent. *)
Lemma already_spent m rank k t o :
  deps_ok (transactions m) rank -> transactions m !! k = Some t ->
  o ∈ prevouts (tx_input (transaction t)) -> short m (op_txid o) ∈ depends t ->
  is_already_spent m o = true.
Proof.
  intros Hd Hk Ho Hp. destruct (dk_child _ _ Hd k t _ Hk Hp) as (tp & Htp & Hc).
  unfold is_already_spent. rewrite Htp. apply existsb_exists. exists k.
  split; [by apply list_elem_of_In|]. rewrite Hk. apply existsb_exists.
  apply list_elem_of_fmap in Ho as (i & -> & Hi). exists i. split; [by apply list_elem_of_In|].
  by rewrite !Z.eqb_refl.
Qed.

Lemma find_depends_elem m tx p :
  p ∈ find_mempool_depends m tx <->
  is_Some (transactions m !! p) /\ exists o, o ∈ prevouts (tx_input tx) /\ short m (op_txid o) = p.
Proof.
  unfold find_mempool_depends. rewrite list_elem_of_filter, list_elem_of_fmap. split.
  - intros [Hs (i & -> & Hi)]. split; [done|]. exists (previous_output i). split; [|done].
    apply list_elem_of_fmap. by exists i.
  - intros [Hs (o & Ho & <-)]. split; [done|]. apply list_elem_of_fmap in Ho as (i & -> & Hi).
    by exists i.
Qed.

Lemma insert_no_conflict m txs1 rank tx now :
  deps_ok (transactions m) rank -> no_conflict (hasher m) (transactions m) ->
  (forall j t1, txs1 !! j = Some t1 -> exists t, transactions m !! j = Some t /\ grown (short_of m tx) t t1) ->
  (forall o, o ∈ prevouts (tx_input tx) -> is_already_spent m o = false) ->
  no_conflict (hasher m) (<[short_of m tx := mkMempoolTx tx now (find_mempool_depends m tx) []]> txs1).
Proof.
  intros Hd Hc Hback Hfree k1 k2 t1 t2 o.
  assert (Hnew : forall j t, txs1 !! j = Some t -> o ∈ prevouts (tx_input (transaction t)) ->
            o ∈ prevouts (tx_input tx) -> hash_one (hasher m) (op_txid o) ∈ depends t -> False).
  { intros j t (t0 & Ht0 & -> & -> & _)%Hback Ho Hox Hdep.
    assert (is_already_spent m o = true) by (by apply (already_spent m rank j t0)).
    specialize (Hfree o Hox). congruence. }
  destruct (decide (k1 = short_of m tx)) as [->|Hk1], (decide (k2 = short_of m tx)) as [->|Hk2];
    rewrite ?lookup_insert_eq, ?lookup_insert_ne by done; intros E1 E2 Ho1 Ho2 Hd1 Hd2; [done| | |].
  - injection E1 as <-. destruct (Hnew k2 t2); done.
  - injection E2 as <-. destruct (Hnew k1 t1); done.
  - destruct (Hback _ _ E1) as (u1 & Hu1 & Et1 & Ed1 & _), (Hback _ _ E2) as (u2 & Hu2 & Et2 & Ed2 & _).
    rewrite Et1, Et2, Ed1, Ed2 in *. by apply (Hc k1 k2 u1 u2 o).
Qed.

(** The context-free checks return a result: they neither panic nor diverge. *)
Definition returns {E A} (o : outcome E A) : Prop :=
  match o with Ok _ | Err _ => True | _ => False end.

Lemma obind_returns {E A B} (o : outcome E A) (f : A -> outcome E B) :
  returns o -> (forall a, o = Ok a -> returns (f a)) -> returns (o ≫= f).
Proof. destruct o; cbn; auto. Qed.
Lemma err_if_returns {E} c (e : E) : returns (err_if c e).
Proof. by destruct c. Qed.

Lemma context_free_returns tx : returns (check_transaction_context_free tx).
Proof.
  assert (Hin : forall l, returns (check_inputs tx l)).
  { induction l as [|i l IH]; [done|]. cbn. apply obind_returns; [apply err_if_returns|]. intros _ _.
    apply obind_returns; [unfold validate_script_size; by destruct (is_unspendable _)|done]. }
  assert (Hout : forall l v, returns (total_out_loop v l)).
  { induction l as [|o l IH]; intros v; [done|]. cbn. destruct (checked_add64 _ _); cbn; auto. }
  unfold check_transaction_context_free.
  do 2 (apply obind_returns; [apply err_if_returns|intros _ _]).
  apply obind_returns; [done|intros _ _]. apply obind_returns; [apply err_if_returns|intros _ _].
  apply obind_returns; [apply Hout|intros v _]. apply obind_returns; [apply err_if_returns|done].
Qed.

Lemma context_free_nodup tx v :
  check_transaction_context_free tx = Ok v -> NoDup (prevouts (tx_input tx)).
Proof.
  intros Hc. unfold check_transaction_context_free in Hc.
  apply obind_ok in Hc as (? & _ & Hc). apply obind_ok in Hc as (? & _ & Hc).
  apply obind_ok in Hc as (? & _ & Hc). apply obind_ok in Hc as (? & Hd & _).
  by apply err_if_ok, has_duplicate_false in Hd.
Qed.

Lemma conflicts_cases m tx : NoDup (prevouts (tx_input tx)) ->
  check_for_conflicts m tx = Ok tt /\ (forall o, o ∈ prevouts (tx_input tx) -> is_already_spent m o = false) \/
  check_for_conflicts m tx = Err ConflictingTransaction /\
    exists o, o ∈ prevouts (tx_input tx) /\ is_already_spent m o = true.
Proof.
  intros Hnd. unfold check_for_conflicts.
  rewrite size_list_to_set, length_map, Nat.eqb_refl by done. cbn.
  destruct (existsb _ _) eqn:Hex; [right|left]; split; try done.
  - apply existsb_exists in Hex as (i & Hi & Hs). exists (previous_output i). split; [|done].
    apply list_elem_of_fmap. exists i. split; [done|by apply list_elem_of_In].
  - intros o (i & -> & Hi)%list_elem_of_fmap. apply not_true_is_false. intros Hs.
    rewrite <-not_true_iff_false in Hex. apply Hex, existsb_exists. exists i.
    split; [by apply list_elem_of_In|done].
Qed.

(** The mempool after a transaction was added. *)
Definition added m (tx : Transaction) (txs1 : gmap Z MempoolTransaction) (now : Z) : Mempool :=
  set_mempool_size (mempool_size m + total_size tx)
    (set_transactions (<[short_of m tx := mkMempoolTx tx now (find_mempool_depends m tx) []]> txs1) m).

Lemma added_inv m tx txs1 now :
  mempool_inv m -> pool m !! short_of m tx = None ->
  mempool_size m + total_size tx <= max_mempool_size m ->
  (forall o, o ∈ prevouts (tx_input tx) -> is_already_spent m o = false) ->
  fold_loop (E := MempoolError) (push_child (short_of m tx)) (transactions m)
    (find_mempool_depends m tx) = Ok txs1 ->
  mempool_inv (added m tx txs1 now) /\ pool (added m tx txs1 now) = <[short_of m tx := tx]> (pool m).
Proof.
  intros Hi Hk Hmax Hfree Hfold. destruct (mi_deps _ Hi) as [rank Hd].
  assert (Hk' : transactions m !! short_of m tx = None) by (by apply pool_None).
  assert (Hdeps : forall d, d ∈ find_mempool_depends m tx -> is_Some (transactions m !! d))
    by (by intros d [? _]%find_depends_elem).
  destruct (push_child_all (E := MempoolError) (short_of m tx) _ _ Hdeps) as (txs1' & E1 & Hf & Hback & Hfw).
  assert (txs1' = txs1) as -> by congruence.
  assert (Hpool : pool (added m tx txs1 now) = <[short_of m tx := tx]> (pool m)).
  { unfold pool, added. cbn. by rewrite fmap_insert, Hf. }
  split; [|done]. split.
  - rewrite Hpool. intros k x. unfold short_of, short. cbn. destruct (decide (k = short_of m tx)) as [->|Hne].
    + rewrite lookup_insert_eq. by intros [= <-].
    + rewrite lookup_insert_ne by done. apply (mi_key _ Hi).
  - rewrite Hpool. unfold pool_bytes. rewrite map_sum_insert_new by done.
    cbn. rewrite (mi_size _ Hi). unfold pool_bytes. lia.
  - cbn. lia.
  - by apply (insert_deps_ok (transactions m) txs1 rank).
  - by apply (insert_no_conflict m txs1 rank tx now Hd (mi_conflict _ Hi)).
Qed.

(** What becomes of a submitted transaction. *)
Definition accept_result m tx (o : outcome MempoolError unit) m' : Prop :=
  match o with
  | Ok _ => mempool_inv m' /\
      (m' = m /\ is_Some (pool m !! short_of m tx) \/
       pool m !! short_of m tx = None /\ pool m' = <[short_of m tx := tx]> (pool m) /\
       mempool_size m + total_size tx <= max_mempool_size m /\
       (exists v, check_transaction_context_free tx = Ok v) /\
       forall o, o ∈ prevouts (tx_input tx) -> is_already_spent m o = false)
  | Err e => m' = m /\ pool m !! short_of m tx = None /\
      match e with
      | FullMempool => max_mempool_size m < mempool_size m + total_size tx
      | ConsensusValidation e => check_transaction_context_free tx = Err e
      | ConflictingTransaction => exists o, o ∈ prevouts (tx_input tx) /\ is_already_spent m o = true
      | DuplicatedInputs => False
      end
  | Panic | Diverge => False
  end.

Lemma accept_to_mempool_result m now tx o m' :
  mempool_inv m -> mempool_size m + total_size tx <= u64_max ->
  accept_to_mempool now tx m = (o, m') -> accept_result m tx o m'.
Proof.
  intros Hi Hroom. unfold accept_to_mempool, mbind, stm_bind, gets, lift, modify. cbn.
  destruct (bool_decide _) eqn:Hin.
  { intros [= <- <-]. apply bool_decide_eq_true in Hin. split; [done|left]. split; [done|].
    unfold pool. rewrite lookup_fmap. by apply fmap_is_Some. }
  assert (Hk : pool m !! short_of m tx = None).
  { apply bool_decide_eq_false in Hin. by apply pool_None, eq_None_not_Some. }
  unfold u64_add at 1. rewrite (proj2 (Z.leb_le _ _) Hroom).
  destruct (Z.ltb_spec (max_mempool_size m) (mempool_size m + total_size tx)) as [Hfull|Hfits]; cbn.
  { intros [= <- <-]. done. }
  pose proof (context_free_returns tx) as Hret.
  destruct (check_transaction_context_free tx) as [v|e| |] eqn:Hcf; try done; cbn.
  2:{ intros [= <- <-]. done. }
  destruct (conflicts_cases m tx (context_free_nodup _ _ Hcf)) as [[-> Hfree]|[-> Hsp]]; cbn.
  2:{ intros [= <- <-]. done. }
  destruct (push_child_all (E := MempoolError) (short_of m tx) (find_mempool_depends m tx) (transactions m))
    as (txs1 & E1 & _); [by intros d [? _]%find_depends_elem|].
  rewrite E1. cbn. unfold u64_add. cbn. rewrite (proj2 (Z.leb_le _ _) Hroom). intros [= <- <-].
  destruct (added_inv m tx txs1 now Hi Hk Hfits Hfree E1) as [Hi' Hp].
  split; [exact Hi'|right]. split_and!; try done. by exists v.
Qed.

(** * Blocks *)

Lemma pool_bytes_nonneg (p : gmap Z Transaction) : 0 <= pool_bytes p.
Proof.
  unfold pool_bytes. induction p as [|k tx p Hk IH] using map_ind; [by rewrite map_sum_empty|].
  rewrite map_sum_insert_new by done. pose proof (total_size_nonneg tx). lia.
Qed.

Lemma forget_pool id cs txs : transaction <$> forget_in_children id cs txs = transaction <$> txs.
Proof.
  apply map_eq. intros j. rewrite !lookup_fmap, forget_lookup.
  destruct (txs !! j); [|done]. cbn. by case_decide.
Qed.

(** A transaction removed, and forgotten by its children. *)
Lemma forget_entry txs rank id removed j t :
  deps_ok txs rank -> txs !! id = Some removed ->
  forget_in_children id (children removed) (delete id txs) !! j = Some t ->
  exists t0, txs !! j = Some t0 /\ j <> id /\ transaction t = transaction t0 /\
    children t = children t0 /\ forall p, p ∈ depends t <-> p ∈ depends t0 /\ p <> id.
Proof.
  intros Hd Hr. rewrite forget_lookup. destruct (decide (j = id)) as [->|Hne].
  { by rewrite lookup_delete_eq. }
  rewrite lookup_delete_ne by done. destruct (txs !! j) as [t0|] eqn:Ej; [|done].
  cbn. intros [= <-]. exists t0. case_decide as Hc; cbn.
  - split_and!; try done. intros p. rewrite list_elem_of_filter. tauto.
  - split_and!; try done. intros p. split; [|tauto]. intros Hp. split; [done|]. intros ->. apply Hc.
    destruct (dk_child _ _ Hd j t0 id Ej Hp) as (tp & Htp & Hin). congruence.
Qed.

Lemma forget_deps_ok txs rank id removed :
  deps_ok txs rank -> txs !! id = Some removed ->
  deps_ok (forget_in_children id (children removed) (delete id txs)) rank.
Proof.
  intros Hd Hr. split; intros k t p Hk Hp;
    destruct (forget_entry _ _ _ _ _ _ Hd Hr Hk) as (t0 & Ht0 & _ & _ & _ & Hdep);
    destruct (proj1 (Hdep p) Hp) as [Hp0 Hne]; [by apply (dk_rank _ _ Hd k t0)|].
  destruct (dk_child _ _ Hd k t0 p Ht0 Hp0) as (tp & Htp & Hc). rewrite forget_lookup.
  rewrite lookup_delete_ne, Htp by done. eexists. split; [done|]. by case_decide.
Qed.

Lemma consume_tx_ok {E} m tx : mempool_inv m ->
  exists m', consume_tx (E := E) tx m = (Ok (compute_txid tx), m') /\ mempool_inv m' /\
    pool m' = delete (short_of m tx) (pool m) /\ hasher m' = hasher m.
Proof.
  intros Hi. unfold consume_tx, mbind, stm_bind, gets, modify. cbn.
  destruct (transactions m !! short_of m tx) as [removed|] eqn:Hr.
  2:{ exists m. split_and!; try done. symmetry. apply delete_id. by apply pool_None. }
  destruct (mi_deps _ Hi) as [rank Hd]. pose proof (mi_size _ Hi) as Hsz.
  assert (Hp : pool m !! short_of m tx = Some (transaction removed)) by (apply pool_lookup; by exists removed).
  unfold pool_bytes in Hsz. pose proof (map_sum_delete total_size _ _ _ Hp) as Hdel.
  pose proof (pool_bytes_nonneg (delete (short_of m tx) (pool m))) as Hnn. unfold pool_bytes in Hnn.
  unfold u64_sub. cbn. rewrite (proj2 (Z.leb_le _ _)) by lia. cbn.
  eexists. split; [done|]. unfold set_mempool_size, set_transactions. cbn.
  match goal with |- mempool_inv ?x /\ _ => assert (Hpool : pool x = delete (short_of m tx) (pool m)) end.
  { unfold pool. cbn. by rewrite forget_pool, fmap_delete. }
  split_and!; [|done|done]. split; rewrite ?Hpool; cbn.
  - intros k x. rewrite lookup_delete_Some. intros [_ Hx]. by apply (mi_key _ Hi).
  - unfold pool_bytes. lia.
  - pose proof (mi_max _ Hi). pose proof (total_size_nonneg (transaction removed)). lia.
  - exists rank. by apply forget_deps_ok.
  - intros k1 k2 t1 t2 o Hk1 Hk2.
    destruct (forget_entry _ _ _ _ _ _ Hd Hr Hk1) as (u1 & Hu1 & _ & -> & _ & Hd1).
    destruct (forget_entry _ _ _ _ _ _ Hd Hr Hk2) as (u2 & Hu2 & _ & -> & _ & Hd2).
    intros Ho1 Ho2 [Hp1 _]%Hd1 [Hp2 _]%Hd2. by apply (mi_conflict _ Hi k1 k2 u1 u2 o).
Qed.

Lemma consume_txs_ok {E} (txs : list Transaction) : forall m, mempool_inv m ->
  exists m', consume_txs (E := E) txs m = (Ok (map compute_txid txs), m') /\ mempool_inv m' /\
    pool m' = foldl (fun p tx => delete (short_of m tx) p) (pool m) txs.
Proof.
  induction txs as [|tx txs IH]; intros m Hi; [by exists m|].
  destruct (consume_tx_ok (E := E) m tx Hi) as (m1 & E1 & Hi1 & Hp1 & Hh1).
  destruct (IH m1 Hi1) as (m2 & E2 & Hi2 & Hp2). exists m2.
  cbn [consume_txs]. unfold mbind, stm_bind. rewrite E1. cbn. rewrite E2. split_and!; try done.
  rewrite Hp2, Hp1. cbn. unfold short_of, short. by rewrite Hh1.
Qed.

(** * Block templates *)

(** The parents recorded for a listed transaction are listed before it. *)
Definition parents_first m (l : list Transaction) : Prop := forall i tx t p,
  l !! i = Some tx -> transactions m !! short_of m tx = Some t -> p ∈ depends t ->
  exists j tp, (j < i)%nat /\ transactions m !! p = Some tp /\ l !! j = Some (transaction tp).

Record good_template m (l : list Transaction) : Prop := {
  gt_nodup : NoDup l;
  gt_stored : forall tx, tx ∈ l -> pool m !! short_of m tx = Some tx;
  gt_parents : parents_first m l
}.

Lemma good_snoc m l t :
  good_template m l -> transactions m !! short_of m (transaction t) = Some t -> transaction t ∉ l ->
  (forall p, p ∈ depends t -> exists tp, transactions m !! p = Some tp /\ transaction tp ∈ l) ->
  good_template m (l ++ [transaction t]).
Proof.
  intros [Hnd Hst Hpf] Ht Hnew Hpar. split.
  - apply NoDup_app. split_and!; [done| |apply NoDup_singleton]. by intros x Hx ->%list_elem_of_singleton.
  - intros tx [Hx| ->%list_elem_of_singleton]%elem_of_app; [by apply Hst|]. apply pool_lookup. by exists t.
  - intros i tx t' p [Hi|[Hi E]]%lookup_app_Some Ht' Hp.
    + destruct (Hpf i tx t' p Hi Ht' Hp) as (j & tp & Hj & Htp & Hl). exists j, tp. split_and!; try done.
      by apply lookup_app_l_Some.
    + apply list_lookup_singleton_Some in E as [E <-]. assert (t' = t) as -> by congruence.
      destruct (Hpar p Hp) as (tp & Htp & (j & Hj)%list_elem_of_lookup).
      exists j, tp. pose proof (lookup_lt_Some _ _ _ Hj). split_and!; [lia|done|].
      by apply lookup_app_l_Some.
Qed.

(** A recorded parent of an entry, and the entries a chain of parents leads to. *)
Definition parent_of m (k p : Z) : Prop := exists t, transactions m !! k = Some t /\ p ∈ depends t.
Definition needs m : Z -> Z -> Prop := rtc (parent_of m).

Section Adding.
Context {E : Type} m rank (Hinv : mempool_inv m) (Hdeps : deps_ok (transactions m) rank).

(** The transactions of a smaller rank: the recursion needs no more depth. *)
Definition below (k : Z) : nat :=
  size (filter (fun j => (rank j < rank k)%nat) (dom (transactions m) : gset Z)).

Lemma below_depends k t p :
  transactions m !! k = Some t -> p ∈ depends t -> (below p < below k)%nat.
Proof.
  intros Hk Hp. pose proof (dk_rank _ _ Hdeps k t p Hk Hp) as Hr.
  destruct (dk_child _ _ Hdeps k t p Hk Hp) as (tp & Htp & _).
  unfold below. apply (subset_size (C := gset Z)). split.
  - intros j. rewrite !elem_of_filter. intros [? ?]. split; [lia|done].
  - intros Hsub. assert (Hin : p ∈ filter (fun j => (rank j < rank k)%nat) (dom (transactions m) : gset Z)).
    { apply elem_of_filter. split; [done|]. by apply elem_of_dom_2 in Htp. }
    apply Hsub, elem_of_filter in Hin as [? _]. lia.
Qed.

Lemma below_bound k : (below k <= size (transactions m))%nat.
Proof.
  unfold below. rewrite <-(size_dom (D := gset Z) (transactions m)). apply (subseteq_size (C := gset Z)).
  intros j. rewrite elem_of_filter. tauto.
Qed.

Lemma entry_key k t : transactions m !! k = Some t -> short_of m (transaction t) = k.
Proof. intros Hk. apply (mi_key _ Hinv), pool_lookup. by exists t. Qed.

(** What adding a transaction and its parents to a template gives. *)
Definition extends_to (bound : nat) (l : list Transaction) (o : outcome E (list Transaction))
  (want : Transaction -> Prop) (start : Z -> Prop) : Prop :=
  exists new, o = Ok (l ++ new) /\ good_template m (l ++ new) /\
    (forall tx, want tx -> tx ∈ l ++ new) /\
    forall tx, tx ∈ new -> (rank (short_of m tx) <= bound)%nat /\ exists k, start k /\ needs m k (short_of m tx).

Lemma fold_extends (n : nat) bound : 
  (forall id l t, good_template m l -> transactions m !! id = Some t -> (below id < n)%nat ->
     extends_to (rank id) l (add_transaction_to_block n m l id) (eq (transaction t)) (eq id)) ->
  forall deps l, good_template m l ->
    (forall p, p ∈ deps -> is_Some (transactions m !! p) /\ (below p < n)%nat /\ (rank p <= bound)%nat) ->
    extends_to bound l (fold_loop (add_transaction_to_block n m) l deps)
      (fun tx => exists p tp, p ∈ deps /\ transactions m !! p = Some tp /\ transaction tp = tx) (fun k => k ∈ deps).
Proof.
  intros Hadd. induction deps as [|d deps IH]; intros l Hl Hd.
  { exists []. rewrite app_nil_r. split_and!; try done; [|by intros ? ?%not_elem_of_nil].
    intros tx (p & _ & Hp & _). by apply not_elem_of_nil in Hp. }
  destruct (Hd d) as ([td Htd] & Hb & Hr); [by left|].
  destruct (Hadd d l td Hl Htd Hb) as (new1 & E1 & Hg1 & Hw1 & Hr1).
  destruct (IH (l ++ new1) Hg1) as (new2 & E2 & Hg2 & Hw2 & Hr2); [intros p Hp; apply Hd; by right|].
  exists (new1 ++ new2). cbn [fold_loop]. rewrite E1. cbn. rewrite E2, app_assoc. split_and!; try done.
  - intros tx (p & tp & [->|Hp]%elem_of_cons & Htp & <-).
    + assert (tp = td) as -> by congruence. apply elem_of_app. left. by apply Hw1.
    + apply Hw2. by exists p, tp.
  - intros tx [Hx|Hx]%elem_of_app.
    + destruct (Hr1 tx Hx) as (? & k & <- & Hk). split; [lia|]. exists d. split; [by left|done].
    + destruct (Hr2 tx Hx) as (? & k & Hkd & Hk). split; [done|]. exists k. split; [by right|done].
Qed.

Lemma add_extends n : forall id l t,
  good_template m l -> transactions m !! id = Some t -> (below id < n)%nat ->
  extends_to (rank id) l (add_transaction_to_block n m l id) (eq (transaction t)) (eq id).
Proof.
  induction n as [|n IH]; intros id l t Hl Ht Hb; [lia|].
  cbn [add_transaction_to_block]. rewrite Ht. cbn.
  case_bool_decide as Hin.
  { exists []. rewrite app_nil_r. split_and!; try done; [by intros ? <-|by intros ? ?%not_elem_of_nil]. }
  destruct (fold_extends n (pred (rank id)) IH (depends t) l Hl) as (new & E1 & Hg & Hw & Hr).
  { intros p Hp. destruct (dk_child _ _ Hdeps id t p Ht Hp) as (tp & Htp & _).
    pose proof (dk_rank _ _ Hdeps id t p Ht Hp). pose proof (below_depends id t p Ht Hp).
    split_and!; [done|lia|lia]. }
  rewrite E1. cbn. exists (new ++ [transaction t]). rewrite app_assoc.
  pose proof (entry_key id t Ht) as Hk. split_and!; [done| | |].
  - apply good_snoc; [done|by rewrite Hk| |].
    + intros [?|Hx]%elem_of_app; [done|]. destruct (Hr _ Hx) as [Hr' _]. rewrite Hk in Hr'.
      destruct (depends t) as [|p ps] eqn:Ed.
      { cbn in E1. injection E1 as E1. apply (f_equal length) in E1. rewrite length_app in E1.
        destruct new; [by apply not_elem_of_nil in Hx|cbn in E1; lia]. }
      pose proof (dk_rank _ _ Hdeps id t p Ht ltac:(rewrite Ed; by left)). lia.
    + intros p Hp. destruct (dk_child _ _ Hdeps id t p Ht Hp) as (tp & Htp & _). exists tp.
      split; [done|]. apply Hw. by exists p, tp.
  - intros tx <-. apply elem_of_app. right. by left.
  - intros tx [Hx| ->%list_elem_of_singleton]%elem_of_app; [|rewrite Hk; split; [done|exists id; split; [done|apply rtc_refl]]].
    destruct (Hr tx Hx) as (? & k & Hkd & Hn). split; [lia|]. exists id. split; [done|]. apply (rtc_l _ _ k); [by exists t|done].
Qed.

(** The loop over the stored transactions. *)
Lemma template_loop_ok fuel max : (size (transactions m) < fuel)%nat -> forall values sz l,
  good_template m l -> (forall t, t ∈ values -> transactions m !! short_of m (transaction t) = Some t) ->
  0 <= sz <= max -> (forall t, t ∈ values -> max + weight (transaction t) <= u64_max) ->
  exists l', template_loop (E := E) fuel m max values sz l = Ok l' /\ good_template m l' /\ l ⊆ l' /\
    (sz + sum_Z (fun t => weight (transaction t)) values <= max ->
     forall t, t ∈ values -> transaction t ∈ l') /\
    exists chosen, sublist chosen values /\ sz + sum_Z (fun t => weight (transaction t)) chosen <= max /\
      forall tx, tx ∈ l' -> tx ∈ l \/ exists t, t ∈ chosen /\ needs m (short_of m (transaction t)) (short_of m tx).
Proof.
  intros Hfuel. induction values as [|t values IH]; intros sz l Hl Hst Hsz Hw.
  { exists l. split_and!; try done; [by intros _ ? ?%not_elem_of_nil|]. exists []. cbn. split_and!; [done|lia|by left]. }
  pose proof (weight_nonneg (transaction t)) as Hwt.
  pose proof (sum_Z_nonneg (fun t => weight (transaction t)) values
    ltac:(intros x _; apply weight_nonneg)) as Hws.
  assert (Hrest : forall x, x ∈ values -> transactions m !! short_of m (transaction x) = Some x)
    by (intros x Hx; apply Hst; by right).
  assert (Hw' : forall x, x ∈ values -> max + weight (transaction x) <= u64_max)
    by (intros x Hx; apply Hw; by right).
  cbn [template_loop sum_Z]. unfold u64_add. rewrite (proj2 (Z.leb_le _ _)).
  2:{ specialize (Hw t ltac:(by left)). lia. }
  cbn. destruct (Z.ltb_spec max (sz + weight (transaction t))) as [Hgt|Hle].
  { exists l. split_and!; try done; [intros Hs; lia|]. exists []. cbn. split_and!; [apply sublist_nil_l|lia|by left]. }
  case_bool_decide as Hin.
  - destruct (IH sz l Hl Hrest Hsz Hw') as (l' & E1 & Hg & Hsub & Hall & ch & Hc & Hcw & Hcl). exists l'. split_and!; try done.
    + intros Hs x [->|Hx]%elem_of_cons; [by apply Hsub|]. apply Hall; [lia|done].
    + exists ch. split_and!; [by apply sublist_cons|done|done].
  - destruct (add_extends fuel (short_of m (transaction t)) l t Hl) as (new & E1 & Hg1 & Hw1 & Hr1).
    { apply Hst. by left. }
    { pose proof (below_bound (short_of m (transaction t))). lia. }
    rewrite E1. cbn.
    destruct (IH (sz + weight (transaction t)) (l ++ new) Hg1 Hrest) as (l' & E2 & Hg & Hsub & Hall & ch & Hc & Hcw & Hcl); [lia|done|].
    exists l'. split_and!; try done; [intros x Hx; apply Hsub, elem_of_app; by left|..].
    + intros Hs x [->|Hx]%elem_of_cons; [by apply Hsub, Hw1|]. apply Hall; [lia|done].
    + exists (t :: ch). cbn [sum_Z]. split_and!; [by apply sublist_skip|lia|]. intros tx Hx.
      destruct (Hcl tx Hx) as [[?|Hn]%elem_of_app|(x & Hxc & Hn)]; [by left|right|right].
      * destruct (Hr1 tx Hn) as (_ & k & <- & Hk). exists t. split; [by left|done].
      * exists x. split; [by right|done].
Qed.
End Adding.

Lemma nil_template m : good_template m [].
Proof. split; [constructor|by intros ? ?%not_elem_of_nil|done]. Qed.

(** The values of the map in the order an iterator visits them. *)
Definition visit m (values : list MempoolTransaction) : Prop :=
  values ≡ₚ (map_to_list (transactions m)).*2.

Lemma visit_elem m values t : mempool_inv m -> visit m values ->
  t ∈ values <-> transactions m !! short_of m (transaction t) = Some t.
Proof.
  intros Hi ->. rewrite list_elem_of_fmap. split.
  - intros ([k t'] & -> & Hk%elem_of_map_to_list). cbn. by rewrite (entry_key m Hi k t').
  - intros Hk. exists (short_of m (transaction t), t). by rewrite elem_of_map_to_list.
Qed.

Lemma visit_nodup m values : mempool_inv m -> visit m values -> NoDup (map transaction values).
Proof.
  intros Hi ->. rewrite <-list_fmap_compose. apply NoDup_fmap_2_strong; [|apply NoDup_map_to_list].
  intros [k1 t1] [k2 t2] Hk1%elem_of_map_to_list Hk2%elem_of_map_to_list Ht. cbn in Ht.
  apply (entry_key m Hi) in Hk1 as E1. apply (entry_key m Hi) in Hk2 as E2.
  rewrite Ht, E2 in E1. subst k1. congruence.
Qed.

(** A template of stored transactions that has all of them. *)
Lemma whole_template m values l : mempool_inv m -> visit m values -> good_template m l ->
  (forall t, t ∈ values -> transaction t ∈ l) -> l ≡ₚ map transaction values.
Proof.
  intros Hinv Hvisit Hg Hall. apply NoDup_Permutation; [apply Hg|by apply (visit_nodup m)|]. intros tx. split.
  - intros Hx. destruct (proj1 (pool_lookup _ _ _) (gt_stored _ _ Hg tx Hx)) as (t & Ht & <-).
    apply list_elem_of_fmap. exists t. split; [done|]. by apply (visit_elem m values).
  - intros (t & -> & Ht)%list_elem_of_fmap. by apply Hall.
Qed.
Lemma sum_Z_submseteq {A} (f : A -> Z) (l k : list A) : (forall x, 0 <= f x) -> l ⊆+ k -> sum_Z f l <= sum_Z f k.
Proof.
  intros Hf. induction 1 as [|x l k _ IH|x y l|x l k _ IH|l k j _ IH1 _ IH2]; cbn [sum_Z] in *; try lia. specialize (Hf x). lia.
Qed.
(** Without recorded parents, a template is no heavier than the transactions
    chosen for it. *)
Lemma light_template m values ch l max : mempool_inv m -> visit m values -> sublist ch values -> good_template m l ->
  (forall t, t ∈ values -> depends t = []) -> sum_Z (fun t => weight (transaction t)) ch <= max ->
  (forall tx, tx ∈ l -> exists t, t ∈ ch /\ needs m (short_of m (transaction t)) (short_of m tx)) -> sum_Z weight l <= max.
Proof.
  intros Hinv Hvisit Hsub Hg Hno Hmax Hl. assert (Hin : l ⊆+ map transaction ch).
  { apply NoDup_submseteq; [apply Hg|]. intros tx Hx. destruct (Hl tx Hx) as (t & Ht & Hn).
    assert (Hv : t ∈ values) by (by apply (elem_of_sublist ch)). apply (visit_elem m values) in Hv as Hs; [|done..].
    apply rtc_inv in Hn as [Heq|(p & (t' & Ht' & Hp) & _)].
    - apply list_elem_of_fmap. exists t. split; [|done]. destruct (proj1 (pool_lookup _ _ _) (gt_stored _ _ Hg tx Hx)) as (t' & Ht' & <-).
      rewrite <-Heq in Ht'. congruence.
    - assert (t' = t) as -> by congruence. rewrite Hno in Hp by done. by apply not_elem_of_nil in Hp. }
  apply (sum_Z_submseteq weight) in Hin; [|apply weight_nonneg].
  assert (forall c, sum_Z weight (map transaction c) = sum_Z (fun t => weight (transaction t)) c) as E; [|rewrite E in Hin; lia].
  intros c. induction c as [|x c IH]; [done|]. cbn [map sum_Z]. by rewrite IH.
Qed.

(** ** Theorems *)

(** The operations of the mempool, with whatever outcome. *)
Inductive mempool_step m : Mempool -> Prop :=
  | step_accept now tx o m' :
      mempool_size m + total_size tx <= u64_max -> accept_to_mempool now tx m = (o, m') ->
      mempool_step m m'
  | step_consume b (o : outcome MempoolError (list Txid)) m' :
      consume_block b m = (o, m') -> mempool_step m m'.

Lemma mempool_step_inv m m' : mempool_inv m -> mempool_step m m' -> mempool_inv m'.
Proof.
  intros Hi [now tx o m1 Hroom Ha|b o m1 Hb].
  - apply accept_to_mempool_result in Ha; [|done..]. destruct o; cbn in Ha; try done; [by destruct Ha|].
    by destruct Ha as [-> _].
  - destruct (consume_txs_ok (E := MempoolError) (txdata b) m Hi) as (m2 & E2 & Hi2 & _).
    unfold consume_block in Hb. congruence.
Qed.

(** C32: In every state the mempool reaches from Mempool::new by accepting, rejecting
    and confirming transactions, each entry is stored under its short id, mempool_size
    is the sum of the stored sizes and at most the maximum, the dependencies point to
    stored transactions, are mirrored in the children lists and have no cycle, and no
    two stored transactions spend the same output of a parent they both depend on. *)
Theorem mempool_reachable_inv a b c d (max : Z) m
  (Hmax : 0 <= max) (Hrun : rtc mempool_step (mempool_new a b c d max) m) :
  mempool_inv m.
Proof.
  assert (Hi : mempool_inv (mempool_new a b c d max)).
  { split; cbn; try done.
    - exists (fun _ => 0%nat). by split. }
  induction Hrun as [|m0 m1 m2 Hs _ IH]; [done|]. by apply IH, (mempool_step_inv m0).
Qed.


(** consume_block never panics, in particular the size does not underflow; it returns
    the ids of the block's transactions, removes exactly the stored transactions of the
    block and keeps the mempool invariant, so that the dependencies on removed parents
    are gone. *)
Theorem consume_block_correct {E} m b (Hinv : mempool_inv m) :
  exists m', consume_block (E := E) b m = (Ok (map compute_txid (txdata b)), m') /\ mempool_inv m' /\
    pool m' = foldl (fun p tx => delete (short_of m tx) p) (pool m) (txdata b).
Proof. by apply consume_txs_ok. Qed.

(** C34: get_block_template terminates without a panic when the recursion may be deeper
    than the number of stored transactions, whatever the order in which the hash map is
    visited. The template holds stored transactions without repetition, each after the
    stored transactions that are recorded as the ones it depends on, under a header with
    the given fields and the Merkle root of the transactions. It consists of
    transactions chosen while their weight stays within the limit and of what those
    need, so that without recorded dependencies its weight is within the limit; when all
    transactions fit in the weight, all of them are in it. *)
Theorem block_template_correct {E} fuel m values version prev_hash time bits max
  (Hinv : mempool_inv m) (Hvisit : visit m values) (Hfuel : (size (transactions m) < fuel)%nat)
  (Hmax : 0 <= max) (Hw : forall t, t ∈ values -> max + weight (transaction t) <= u64_max) :
  exists b, get_block_template (E := E) fuel m values version prev_hash time bits max = Ok b /\
    blk_header b = mkBlockHeader version prev_hash
      (default all_zeros (compute_merkle_root (txdata b))) time bits 0 /\
    good_template m (txdata b) /\
    (sum_Z (fun t => weight (transaction t)) values <= max ->
     txdata b ≡ₚ map transaction values) /\
    (exists chosen, sublist chosen values /\ sum_Z (fun t => weight (transaction t)) chosen <= max /\
       forall tx, tx ∈ txdata b -> exists t, t ∈ chosen /\ needs m (short_of m (transaction t)) (short_of m tx)) /\
    ((forall t, t ∈ values -> depends t = []) -> sum_Z weight (txdata b) <= max).
Proof.
  destruct (mi_deps _ Hinv) as [rank Hd].
  destruct (template_loop_ok (E := E) m rank Hinv Hd fuel max Hfuel values 0 [])
    as (l & El & Hg & _ & Hall & ch & Hc & Hcw & Hcl); [apply nil_template| |lia|done|].
  { intros t Ht. by apply (visit_elem m values). }
  assert (Hcl' : forall tx, tx ∈ l -> exists t, t ∈ ch /\ needs m (short_of m (transaction t)) (short_of m tx)).
  { intros tx Hx. destruct (Hcl tx Hx) as [?%not_elem_of_nil|?]; done. }
  unfold get_block_template. rewrite El. eexists. split; [done|]. cbn. split_and!; try done.
  - intros Hs. apply (whole_template m values); [done..|]. apply Hall. lia.
  - by exists ch.
  - intros Hno. by apply (light_template m values ch).
Qed.

(** The weight of the parents that a transaction pulls into the template is not counted:
    a child whose weight fits, visited before its parent, gives a template above the
    maximum weight. *)
Theorem template_ignores_parent_weight {E} fuel m tp tc version prev_hash time bits max
  (Hp : transactions m !! short_of m (transaction tp) = Some tp) (Hpd : depends tp = [])
  (Hc : transactions m !! short_of m (transaction tc) = Some tc)
  (Hcd : depends tc = [short_of m (transaction tp)])
  (Hfit : weight (transaction tc) <= max) (Hover : max < weight (transaction tp) + weight (transaction tc))
  (Hmax : weight (transaction tp) + weight (transaction tc) <= u64_max) :
  exists b, get_block_template (E := E) (3 + fuel) m [tc; tp] version prev_hash time bits max = Ok b /\
    txdata b = [transaction tp; transaction tc] /\ max < sum_Z weight (txdata b).
Proof.
  pose proof (weight_nonneg (transaction tp)) as Hwp.
  assert (E1 : u64_add (E := E) 0 (weight (transaction tc)) = Ok (weight (transaction tc)))
    by (unfold u64_add; by rewrite (proj2 (Z.leb_le _ _)) by lia).
  assert (E2 : u64_add (E := E) (weight (transaction tc)) (weight (transaction tp)) =
    Ok (weight (transaction tc) + weight (transaction tp)))
    by (unfold u64_add; by rewrite (proj2 (Z.leb_le _ _)) by lia).
  assert (Eadd : add_transaction_to_block (E := E) (3 + fuel) m [] (short_of m (transaction tc)) =
    Ok [transaction tp; transaction tc])
    by (cbn [add_transaction_to_block Nat.add]; rewrite Hc; cbn; rewrite Hcd; cbn; rewrite Hp; cbn;
        by rewrite Hpd).
  unfold get_block_template. cbn [template_loop]. rewrite E1. cbn [mbind outcome_bind].
  rewrite (proj2 (Z.ltb_ge _ _)) by lia. rewrite bool_decide_eq_false_2 by (by apply not_elem_of_nil).
  rewrite Eadd. cbn [mbind outcome_bind]. rewrite E2. cbn [mbind outcome_bind].
  rewrite (proj2 (Z.ltb_lt _ _)) by lia. eexists. split; [done|]. cbn. split; [done|lia].
Qed.

(** Two transactions that spend the same confirmed output are both accepted: conflicts
    are looked up among the children of stored parents only, so a transaction whose
    parents are not in the mempool never conflicts. *)
Theorem confirmed_conflict_accepted m now tx tx2 k2 o m' r
  (Hinv : mempool_inv m) (Hroom : mempool_size m + total_size tx <= u64_max)
  (Hfits : mempool_size m + total_size tx <= max_mempool_size m)
  (Hcf : check_transaction_context_free tx = Ok r)
  (Hnew : pool m !! short_of m tx = None)
  (Hother : pool m !! k2 = Some tx2)
  (Ho : o ∈ prevouts (tx_input tx)) (Ho2 : o ∈ prevouts (tx_input tx2))
  (Hpar : forall o, o ∈ prevouts (tx_input tx) -> pool m !! short m (op_txid o) = None)
  (Ha : (accept_to_mempool now tx m).2 = m') :
  (accept_to_mempool now tx m).1 = Ok tt /\
  pool m' !! short_of m tx = Some tx /\ pool m' !! k2 = Some tx2 /\ short_of m tx <> k2.
Proof.
  destruct (accept_to_mempool now tx m) as [res m1] eqn:E. cbn in Ha. subst m1.
  apply accept_to_mempool_result in E; [|done..].
  assert (Hns : forall o, o ∈ prevouts (tx_input tx) -> is_already_spent m o = false).
  { intros o' Ho'. unfold is_already_spent. by rewrite (proj1 (pool_None _ _) (Hpar o' Ho')). }
  assert (Hk : short_of m tx <> k2) by congruence.
  destruct res as [[]|e| |]; cbn in E; try done.
  - destruct E as [_ [[_ [? Hs]]|(_ & Hp & _)]]; [congruence|]. rewrite Hp.
    by rewrite lookup_insert_eq, lookup_insert_ne.
  - destruct E as (_ & _ & He). destruct e; [lia| |done|congruence].
    destruct He as (o' & Ho' & Hs). rewrite Hns in Hs; done.
Qed.
End MempoolFacts.
