(* ===== verification/Filters.v ===== *)
(** Compact block filters ([src/crates/floresta-compact-filters/src]): the
    file of filter records, its index of positions every thousand blocks, the
    iteration from a height, and the search of a wallet rescan.

    The filter store is a list of filters in the order of their heights: the
    bytes of its two files represent the list through every sequence of
    writes and reopenings, and a rescan reads exactly the filters it asks
    for. *)

From stdpp Require Import base list sorting.
From Stdlib Require Import ZArith Lia.
From S2P Require Import Prelude.

Definition MAX_FILTER_SIZE : Z := 1000000.
Definition HEADER_SIZE : Z := 4.
Definition RECORD_HEADER_SIZE : Z := 8.
Definition INDEX_INTERVAL : Z := 1000.

(** [IterableFilterStoreError]; locks are never poisoned in the model. *)
Inductive IterableFilterStoreError :=
  | Io
  | Eof
  | PoisonedLock
  | OversizedBlockFilter.

(** The two files of a store, as bytes; a [BlockFilter] is its content. *)
Record FlatFiltersStore := mkFiltersStore { f_file : list Z; f_index : list Z }.

Abbreviation FS := (outcome IterableFilterStoreError) (only parsing).
Abbreviation BlockFilter := (list Z) (only parsing).

(** * Files *)

(** Writing at a position; a write past the end leaves a hole of zeros. *)
Definition write_at (pos : nat) (bytes file : list Z) : list Z :=
  take pos (file ++ replicate (pos - length file) 0) ++ bytes ++ drop (pos + length bytes) file.

(** [read_exact] of [n] bytes on a reader that has [r] left. *)
Definition read_exact (n : nat) (r : list Z) : option (list Z * list Z) :=
  if (n <=? length r)%nat then Some (take n r, drop n r) else None.

Definition read_u32 (r : list Z) : option (Z * list Z) :=
  '(b, r) ← read_exact 4 r; Some (le_int b, r).

(** * The index *)

Definition write_index_entry (height offset : Z) (index : list Z) : list Z :=
  write_at (Z.to_nat (height / INDEX_INTERVAL * 8)) (le_bytes 8 offset) index.

(** The loop of [build_index]; every turn reads a record header. *)
Fixpoint build_index_loop (n : nat) (r : list Z) (pos : Z) (index : list Z) : FS (list Z) :=
  match n with
  | O => Diverge
  | S n' =>
      match read_u32 r with
      | None => Ok index
      | Some (height, r) =>
          match read_u32 r with
          | None => Ok index
          | Some (len, r) =>
              if MAX_FILTER_SIZE <? len then Ok index
              else
                let index := if height mod INDEX_INTERVAL =? 0
                             then write_index_entry height pos index else index in
                build_index_loop n' (drop (Z.to_nat len) r) (pos + (RECORD_HEADER_SIZE + len)) index
          end
      end
  end.

Definition build_index (file index : list Z) : FS (list Z) :=
  build_index_loop (S (length file)) (drop (Z.to_nat HEADER_SIZE) file) HEADER_SIZE index.

(** [FlatFiltersStore::open] on the contents of the two files; a file that
    does not exist is created empty. *)
Definition filters_open (file index : list Z) : FS FlatFiltersStore :=
  let is_new_index := bool_decide (length index = 0%nat) in
  let index := write_at 0 (le_bytes 8 HEADER_SIZE) index in
  index ← (if is_new_index then build_index file index else Ok index);
  Ok (mkFiltersStore file index).

(** * The store *)

Definition set_height (height : Z) (s : FlatFiltersStore) : FlatFiltersStore :=
  mkFiltersStore (write_at 0 (le_bytes 4 height) (f_file s)) (f_index s).

Definition filters_height (s : FlatFiltersStore) : FS Z :=
  match read_u32 (f_file s) with Some (h, _) => Ok h | None => Err Io end.

Definition put_filter (content : BlockFilter) (height : Z) : stm FlatFiltersStore IterableFilterStoreError unit :=
  let len := wrap32 (Z.of_nat (length content)) in
  _ ← lift (err_if (MAX_FILTER_SIZE <? len) OversizedBlockFilter);
  offset ← gets (fun s => Ok (Z.of_nat (length (f_file s))));
  _ ← (if height mod INDEX_INTERVAL =? 0
       then modify (fun s => mkFiltersStore (f_file s) (write_index_entry height offset (f_index s)))
       else mret tt);
  modify (fun s => mkFiltersStore
    (f_file s ++ le_bytes 4 height ++ le_bytes 4 len ++ content) (f_index s)).

(** ** Iteration *)

(** [FiltersIterator::next] on what the reader has left.  The assertion on the
    length is checked in debug builds. *)
Definition filters_next (r : list Z) : FS (option (Z * BlockFilter * list Z)) :=
  match read_u32 r with
  | None => Ok None
  | Some (height, r) =>
      match read_u32 r with
      | None => Ok None
      | Some (len, r) =>
          if len <? 1000000 then
            match read_exact (Z.to_nat len) r with
            | None => Ok None
            | Some (content, r) => Ok (Some (height, content, r))
            end
          else Panic
      end
  end.

(** The items of an iterator; every item takes at least eight bytes. *)
Fixpoint filters_collect (n : nat) (r : list Z) : FS (list (Z * BlockFilter)) :=
  match n with
  | O => Diverge
  | S n' =>
      o ← filters_next r;
      match o with
      | None => Ok []
      | Some (height, content, r) => rest ← filters_collect n' r; Ok ((height, content) :: rest)
      end
  end.

(** [buf.chunks_exact(8)] read as little-endian integers. *)
Fixpoint index_entries (l : list Z) : list Z :=
  match l with
  | a :: b :: c :: d :: e :: f :: g :: h :: rest => le_int [a; b; c; d; e; f; g; h] :: index_entries rest
  | _ => []
  end.

(** The position the iteration starts to read from. *)
Definition start_position (start : Z) (index : list Z) : Z :=
  let entries := take (Z.to_nat (start / INDEX_INTERVAL + 1)) (index_entries index) in
  default HEADER_SIZE (head (filter (fun offset => offset <> 0) (reverse entries))).

(** The walk over the filters below the start height. *)
Fixpoint skip_loop (n : nat) (start : Z) (r : list Z) : FS (list Z) :=
  match n with
  | O => Diverge
  | S n' =>
      match read_u32 r with
      | None => Ok []
      | Some (height, r1) =>
          match read_u32 r1 with
          | None => Ok []
          | Some (len, r2) =>
              if start <=? height then Ok r
              else if MAX_FILTER_SIZE <? len then Err OversizedBlockFilter
              else skip_loop n' start (drop (Z.to_nat len) r2)
          end
      end
  end.

(** [iter]: the reader of the iterator; a height is a [usize] cut to 32 bits. *)
Definition filters_iter (start_height : option Z) (s : FlatFiltersStore) : FS (list Z) :=
  let start := default 0 start_height in
  let pos := start_position start (f_index s) in
  skip_loop (S (length (f_file s))) (wrap32 start) (drop (Z.to_nat pos) (f_file s)).

(** [into_iter]. *)
Definition filters_into_iter (s : FlatFiltersStore) : list Z := drop (Z.to_nat HEADER_SIZE) (f_file s).

(** * The rescan ([network_filters.rs]) *)

Definition network_filters_new (s : FlatFiltersStore) : FlatFiltersStore :=
  match filters_height s with Ok _ => s | _ => set_height 0 s end.

Section Rescan.
(** The chain's hash of a height, and the filter's match by rust-bitcoin. *)
Context (get_block_hash : Z -> option Z) (bip158_match : BlockFilter -> Z -> option bool).

(** The loop of [match_any] over the items; both results are unwrapped. *)
Fixpoint match_loop (n : nat) (stop_height : option Z) (r : list Z) (blocks : list Z) : FS (list Z) :=
  match n with
  | O => Diverge
  | S n' =>
      o ← filters_next r;
      match o with
      | None => Ok blocks
      | Some (height, content, r) =>
          hash ← expect (get_block_hash height);
          matched ← expect (bip158_match content hash);
          let blocks := if (matched : bool) then blocks ++ [hash] else blocks in
          match stop_height with
          | Some stop_at => if stop_at <=? height then Ok blocks else match_loop n' stop_height r blocks
          | None => match_loop n' stop_height r blocks
          end
      end
  end.

Definition match_any (start_height stop_height : option Z) (s : FlatFiltersStore) : FS (list Z) :=
  r ← filters_iter start_height s;
  match_loop (S (length r)) stop_height r [].
End Rescan.

Abbreviation Rec := (Z * list Z)%type (only parsing).

(** * Records and index entries as bytes *)

Definition enc_rec (r : Rec) : list Z := le_bytes 4 r.1 ++ le_bytes 4 (Z.of_nat (length r.2)) ++ r.2.
Fixpoint enc_recs (l : list Rec) : list Z :=
  match l with [] => [] | r :: l => enc_rec r ++ enc_recs l end.

(** A record that can be stored, and one that an iterator reads: a filter of
    exactly [MAX_FILTER_SIZE] bytes is stored, but fails its assertion. *)
Definition rec_ok (r : Rec) : Prop := is_u32 r.1 /\ Z.of_nat (length r.2) <= MAX_FILTER_SIZE.
Definition short (r : Rec) : Prop := Z.of_nat (length r.2) < MAX_FILTER_SIZE.
Definition below (r1 r2 : Rec) : Prop := r1.1 < r2.1.

Lemma enc_recs_app l1 l2 : enc_recs (l1 ++ l2) = enc_recs l1 ++ enc_recs l2.
Proof. induction l1 as [|r l1 IH]; [done|]. cbn [enc_recs app]. by rewrite IH, app_assoc. Qed.

Lemma length_enc_rec r : length (enc_rec r) = (8 + length r.2)%nat.
Proof. unfold enc_rec. rewrite !length_app, !length_le_bytes. lia. Qed.

Lemma length_enc_recs l : (8 * length l <= length (enc_recs l))%nat.
Proof. induction l as [|r l IH]; cbn [enc_recs length]; [lia|]. rewrite length_app, length_enc_rec. lia. Qed.

Fixpoint flat (es : list Z) : list Z :=
  match es with [] => [] | e :: es => le_bytes 8 e ++ flat es end.

Lemma flat_app l1 l2 : flat (l1 ++ l2) = flat l1 ++ flat l2.
Proof. induction l1 as [|e l1 IH]; [done|]. cbn [flat app]. by rewrite IH, app_assoc. Qed.
Lemma length_flat es : length (flat es) = (8 * length es)%nat.
Proof. induction es as [|e es IH]; [done|]. cbn [flat length]. rewrite length_app, length_le_bytes. lia. Qed.
Lemma flat_zeros n : flat (replicate n 0) = replicate (8 * n) 0.
Proof. induction n as [|n IH]; [done|]. replace (8 * S n)%nat with (8 + 8 * n)%nat by lia. cbn. by rewrite IH. Qed.
Lemma flat_take n es : flat (take n es) = take (8 * n) (flat es).
Proof.
  rewrite <-(take_drop n es) at 2. rewrite flat_app, take_app. rewrite length_flat, length_take.
  destruct (decide (n <= length es)%nat).
  - rewrite Nat.min_l, Nat.sub_diag, take_0, app_nil_r by lia. symmetry. apply take_ge.
    rewrite length_flat, length_take. lia.
  - rewrite (drop_ge es n) by lia. cbn [flat]. rewrite take_nil, app_nil_r. symmetry. apply take_ge.
    rewrite length_flat, length_take. lia.
Qed.
Lemma flat_drop n es : flat (drop n es) = drop (8 * n) (flat es).
Proof.
  rewrite <-(take_drop n es) at 2. rewrite flat_app, drop_app, length_flat, length_take.
  rewrite (drop_ge (flat (take n es))) by (rewrite length_flat, length_take; lia).
  destruct (decide (n <= length es)%nat).
  - rewrite Nat.min_l, Nat.sub_diag by lia. done.
  - rewrite (drop_ge es n) by lia. cbn [flat]. by rewrite drop_nil.
Qed.

Definition is_offset (e : Z) : Prop := 0 <= e < 2 ^ 64.

Lemma entries_flat es : Forall is_offset es -> index_entries (flat es) = es.
Proof.
  induction 1 as [|e es He _ IH]; [done|]. cbn [flat].
  pose proof (le_int_bytes 8 e ltac:(exact He)) as Hb. cbn [le_bytes app index_entries] in *.
  by rewrite Hb, IH.
Qed.

(** Writing an entry past the end fills the gap with zeros. *)
Definition set_entry (n : nat) (off : Z) (es : list Z) : list Z :=
  take n (es ++ replicate (n - length es) 0) ++ off :: drop (S n) es.

Lemma write_entry_flat n off es :
  write_at (8 * n) (le_bytes 8 off) (flat es) = flat (set_entry n off es).
Proof.
  unfold write_at, set_entry. rewrite flat_app, flat_take, flat_app, flat_zeros, length_flat.
  replace (8 * n - 8 * length es)%nat with (8 * (n - length es))%nat by lia.
  cbn [flat]. rewrite flat_drop, length_le_bytes. by replace (8 * n + 8)%nat with (8 * S n)%nat by lia.
Qed.

Lemma write_index_flat h off es : 0 <= h ->
  write_index_entry h off (flat es) = flat (set_entry (Z.to_nat (h / INDEX_INTERVAL)) off es).
Proof.
  intros Hh. unfold write_index_entry. rewrite <-write_entry_flat. f_equal.
  pose proof (Z.div_pos h INDEX_INTERVAL Hh ltac:(done)). rewrite Z.mul_comm, Z2Nat.inj_mul by lia. done.
Qed.

Lemma set_entry_lookup n off es k x :
  set_entry n off es !! k = Some x -> k = n /\ x = off \/ x = 0 \/ k <> n /\ es !! k = Some x.
Proof.
  unfold set_entry. intros [Hk|[Hlen Hk]]%lookup_app_Some.
  - apply lookup_take_Some in Hk as [Hk Hlt]. apply lookup_app_Some in Hk as [Hk|[_ Hk]].
    + right. right. split; [lia|done].
    + apply lookup_replicate in Hk as [-> _]. auto.
  - rewrite length_take, length_app, length_replicate in *. rewrite Nat.min_l in * by lia.
    destruct (k - n)%nat as [|j] eqn:Ej.
    + injection Hk as <-. left. split; [lia|done].
    + change (drop (S n) es !! j = Some x) in Hk. rewrite lookup_drop in Hk. right. right. split; [lia|]. by replace k with (S n + j)%nat by lia.
Qed.

(** * Reading records *)

Lemma read_u32_bytes z r : is_u32 z -> read_u32 (le_bytes 4 z ++ r) = Some (z, r).
Proof.
  intros Hz. unfold read_u32, read_exact.
  rewrite (proj2 (Nat.leb_le _ _)) by (rewrite length_app, length_le_bytes; lia). cbn [mbind option_bind].
  rewrite take_app_length', drop_app_length' by (symmetry; apply length_le_bytes).
  rewrite le_int_bytes; [done|]. unfold is_u32, u32_max in Hz. lia.
Qed.

Lemma read_header r rest : rec_ok r ->
  read_u32 (enc_rec r ++ rest) = Some (r.1, le_bytes 4 (Z.of_nat (length r.2)) ++ r.2 ++ rest) /\
  read_u32 (le_bytes 4 (Z.of_nat (length r.2)) ++ r.2 ++ rest) = Some (Z.of_nat (length r.2), r.2 ++ rest).
Proof.
  intros [Hh Hl]. unfold enc_rec, MAX_FILTER_SIZE in *. rewrite <-!app_assoc.
  split; apply read_u32_bytes; [done|]. unfold is_u32, u32_max. lia.
Qed.

Lemma next_rec r rest : rec_ok r -> short r -> filters_next (enc_rec r ++ rest) = Ok (Some (r.1, r.2, rest)).
Proof.
  intros Hr Hl. destruct (read_header r rest Hr) as [E1 E2]. unfold filters_next. rewrite E1, E2.
  unfold short, MAX_FILTER_SIZE in Hl. rewrite (proj2 (Z.ltb_lt _ _) Hl), Nat2Z.id.
  unfold read_exact.
  rewrite (proj2 (Nat.leb_le _ _)) by (rewrite length_app; lia).
  by rewrite take_app_length, drop_app_length.
Qed.

Lemma next_full r rest : rec_ok r -> ~ short r -> filters_next (enc_rec r ++ rest) = Panic.
Proof.
  intros Hr Hl. destruct (read_header r rest Hr) as [E1 E2]. unfold filters_next. rewrite E1, E2.
  unfold short, MAX_FILTER_SIZE in Hl. by rewrite (proj2 (Z.ltb_ge _ _)) by lia.
Qed.

Lemma collect_recs l : Forall rec_ok l -> Forall short l -> forall n, (length l < n)%nat ->
  filters_collect n (enc_recs l) = Ok l.
Proof.
  induction 1 as [|[h c] l Hr Hl IH]; intros Hs [|n] Hn; cbn [length] in Hn; try lia; [done|].
  apply Forall_cons in Hs as [Hc Hs]. cbn [filters_collect enc_recs]. rewrite next_rec by done. cbn. by rewrite IH by (done || lia).
Qed.

(** The records from a height on. *)
Definition from (start : Z) (l : list Rec) : list Rec := filter (fun r => start <= r.1) l.

Lemma from_below start l : Forall (fun r => r.1 < start) l -> from start l = [].
Proof.
  induction 1 as [|r l Hr _ IH]; [done|]. unfold from. rewrite filter_cons, decide_False by lia. done.
Qed.
Lemma from_above start r l : start <= r.1 -> StronglySorted below (r :: l) -> from start (r :: l) = r :: l.
Proof.
  intros Hr [_ Hl]%StronglySorted_inv. unfold from. rewrite filter_cons, decide_True by done. f_equal.
  induction Hl as [|x l Hx _ IH]; [done|]. unfold below in Hx. rewrite filter_cons, decide_True by lia.
  by rewrite IH.
Qed.

Lemma skip_recs start l : Forall rec_ok l -> StronglySorted below l -> forall n, (length l < n)%nat ->
  skip_loop n start (enc_recs l) = Ok (enc_recs (from start l)).
Proof.
  induction 1 as [|r l Hr Hl IH]; intros Hs [|n] Hn; cbn [length] in Hn; try lia; [done|].
  destruct (read_header r (enc_recs l) Hr) as [E1 E2]. cbn [skip_loop enc_recs]. rewrite E1, E2.
  destruct (Z.leb_spec start r.1) as [Hge|Hlt]; [by rewrite from_above|].
  destruct Hr as [_ Hsz]. rewrite (proj2 (Z.ltb_ge _ _)) by lia.
  rewrite Nat2Z.id, drop_app_length. unfold from. rewrite filter_cons, decide_False by lia.
  apply IH; [|lia]. by apply StronglySorted_inv in Hs as [? _].
Qed.

(** * The store as a list of records *)

Definition position (pre : list Rec) : Z := HEADER_SIZE + Z.of_nat (length (enc_recs pre)).

(** A written index entry is the position of a record whose predecessors are
    below the entry's height. *)
Definition entry_ok (recs : list Rec) (n : nat) (off : Z) : Prop :=
  off <> 0 -> exists pre post, recs = pre ++ post /\ off = position pre /\
    Forall (fun r => r.1 < INDEX_INTERVAL * Z.of_nat n) pre.

Definition index_ok (es : list Z) (recs : list Rec) : Prop :=
  Forall is_offset es /\ forall n off, es !! n = Some off -> entry_ok recs n off.

Record filters_rep (s : FlatFiltersStore) (recs : list Rec) : Prop := {
  fr_file : exists hd, length hd = 4%nat /\ f_file s = hd ++ enc_recs recs;
  fr_index : exists es, f_index s = flat es /\ index_ok es recs;
  fr_recs : Forall rec_ok recs;
  fr_sorted : StronglySorted below recs;
  fr_len : Z.of_nat (length (f_file s)) < 2 ^ 64
}.

Lemma set_entry_ok n off es recs :
  index_ok es recs -> is_offset off -> entry_ok recs n off -> index_ok (set_entry n off es) recs.
Proof.
  intros [Hr He] Ho Hn. split.
  - apply Forall_lookup. intros k x Hk. apply set_entry_lookup in Hk as [[_ ->]|[->|[_ Hk]]]; [done|unfold is_offset; lia|].
    by apply (Forall_lookup_1 _ _ _ _ Hr Hk).
  - intros k x Hk. apply set_entry_lookup in Hk as [[-> ->]|[->|[_ Hk]]]; [done|by intros []|by apply He].
Qed.

Lemma entry_ok_mono recs more n off : entry_ok recs n off -> entry_ok (recs ++ more) n off.
Proof.
  intros He Ho. destruct (He Ho) as (pre & post & -> & -> & Hp). exists pre, (post ++ more).
  by rewrite app_assoc.
Qed.

(** The entry of a record whose height is a multiple of the interval. *)
Lemma interval_entry pre h post :
  0 <= h -> h mod INDEX_INTERVAL = 0 -> Forall (fun r => r.1 < h) pre ->
  entry_ok (pre ++ post) (Z.to_nat (h / INDEX_INTERVAL)) (position pre).
Proof.
  intros Hh Hm Hp _. exists pre, post. split_and!; [done|done|].
  pose proof (Z.div_pos h INDEX_INTERVAL Hh ltac:(done)). rewrite Z2Nat.id by lia.
  pose proof (Z.div_mod h INDEX_INTERVAL ltac:(done)) as Hd. rewrite Hm, Z.add_0_r in Hd.
  by rewrite <-Hd.
Qed.

Lemma position_offset pre post (hd : list Z) :
  length hd = 4%nat -> Z.of_nat (length (hd ++ enc_recs (pre ++ post))) < 2 ^ 64 -> is_offset (position pre).
Proof.
  rewrite enc_recs_app, !length_app. unfold is_offset, position, HEADER_SIZE. lia.
Qed.

Lemma sorted_snoc recs h c :
  StronglySorted below recs -> Forall (fun r => r.1 < h) recs -> StronglySorted below (recs ++ [(h, c)]).
Proof.
  induction 1 as [|r recs Hs IH Hr]; intros Hh; cbn; [repeat constructor|].
  apply Forall_cons in Hh as [Hh1 Hh2]. constructor; [by apply IH|].
  apply Forall_app. split; [done|]. by repeat constructor.
Qed.

Lemma put_filter_rep s recs h c :
  filters_rep s recs -> rec_ok (h, c) -> Forall (fun r => r.1 < h) recs ->
  Z.of_nat (length (f_file s) + (8 + length c)) < 2 ^ 64 ->
  exists s', put_filter c h s = (Ok tt, s') /\ filters_rep s' (recs ++ [(h, c)]).
Proof.
  intros [(hd & Hhd & Hf) (es & Hes & Hi) Hr Hs Hl] [Hh Hc] Hlt Hroom. cbn in Hh, Hc.
  unfold MAX_FILTER_SIZE in Hc. unfold is_u32, u32_max in Hh.
  assert (Hw : wrap32 (Z.of_nat (length c)) = Z.of_nat (length c)) by (apply Z.mod_small; lia).
  unfold put_filter, mbind, stm_bind, lift, gets, modify. rewrite Hw.
  rewrite (proj2 (Z.ltb_ge _ _)) by (unfold MAX_FILTER_SIZE; lia). cbn [err_if].
  set (index' := if h mod INDEX_INTERVAL =? 0
    then write_index_entry h (Z.of_nat (length (f_file s))) (f_index s) else f_index s).
  exists (mkFiltersStore (f_file s ++ le_bytes 4 h ++ le_bytes 4 (Z.of_nat (length c)) ++ c) index').
  split; [subst index'; by destruct (_ =? 0)|]. split; cbn [f_file f_index].
  - exists hd. split; [done|]. rewrite enc_recs_app, Hf. cbn [enc_recs]. unfold enc_rec.
    by rewrite app_nil_r, <-app_assoc.
  - assert (Hi' : index_ok es (recs ++ [(h, c)])).
    { destruct Hi as [? He]. split; [done|]. intros n off Hn. by apply entry_ok_mono, He. }
    assert (Hpos : Z.of_nat (length (f_file s)) = position recs).
    { rewrite Hf, length_app. unfold position, HEADER_SIZE. lia. }
    subst index'. destruct (Z.eqb_spec (h mod INDEX_INTERVAL) 0) as [Hm|Hm]; [|by exists es].
    rewrite Hes, Hpos, write_index_flat by lia. eexists. split; [done|]. apply set_entry_ok; [done| |].
    + rewrite <-Hpos. unfold is_offset. lia.
    + apply interval_entry; [lia|done..].
  - apply Forall_app. split; [done|]. repeat constructor; cbn; unfold is_u32, u32_max, MAX_FILTER_SIZE; lia.
  - by apply sorted_snoc.
  - rewrite !length_app, !length_le_bytes. lia.
Qed.

Lemma set_height_rep s recs h : filters_rep s recs -> filters_rep (set_height h s) recs.
Proof.
  intros [(hd & Hhd & Hf) Hi Hr Hs Hl].
  assert (E : write_at 0 (le_bytes 4 h) (f_file s) = le_bytes 4 h ++ enc_recs recs).
  { unfold write_at. rewrite Hf, length_le_bytes. cbn [take app Nat.add].
    by rewrite drop_app_length' by done. }
  split; cbn [set_height f_file f_index]; try done; rewrite E.
  - exists (le_bytes 4 h). split; [apply length_le_bytes|done].
  - rewrite Hf, length_app in Hl. rewrite length_app, length_le_bytes. lia.
Qed.

(** ** Opening *)

Lemma build_index_recs (recs : list Rec) (hd : list Z) :
  length hd = 4%nat -> Z.of_nat (length (hd ++ enc_recs recs)) < 2 ^ 64 ->
  Forall rec_ok recs -> StronglySorted below recs ->
  forall post pre n es, recs = pre ++ post -> (length post < n)%nat -> index_ok es recs ->
  exists es', build_index_loop n (enc_recs post) (position pre) (flat es) = Ok (flat es') /\
    index_ok es' recs.
Proof.
  intros Hhd Hl Hr Hs. induction post as [|r post IH]; intros pre n es -> Hn Hi.
  { destruct n as [|n]; [lia|]. by exists es. }
  destruct n as [|n]; [lia|]. cbn [length] in Hn.
  apply Forall_app in Hr as Hr'. destruct Hr' as [_ [Hrr _]%Forall_cons].
  destruct (read_header r (enc_recs post) Hrr) as [E1 E2].
  cbn [build_index_loop enc_recs]. rewrite E1, E2. destruct Hrr as [Hh Hsz].
  rewrite (proj2 (Z.ltb_ge _ _)) by lia. rewrite Nat2Z.id, drop_app_length.
  assert (Hpos : position pre + (RECORD_HEADER_SIZE + Z.of_nat (length r.2)) = position (pre ++ [r])).
  { unfold position. rewrite enc_recs_app. cbn [enc_recs]. rewrite app_nil_r, length_app, length_enc_rec.
    unfold RECORD_HEADER_SIZE. lia. }
  rewrite Hpos.
  assert (Hpre : Forall (fun x => x.1 < r.1) pre).
  { apply Forall_forall. intros x Hx.
    apply (StronglySorted_app_1_elem_of below pre (r :: post) x r Hs Hx). by left. }
  assert (Hes : exists es', (if r.1 mod INDEX_INTERVAL =? 0 then write_index_entry r.1 (position pre) (flat es)
              else flat es) = flat es' /\ index_ok es' (pre ++ r :: post)).
  { destruct (Z.eqb_spec (r.1 mod INDEX_INTERVAL) 0) as [Hm|Hm]; [|by exists es].
    unfold is_u32 in Hh. rewrite write_index_flat by lia. eexists. split; [done|].
    apply set_entry_ok; [done|by apply (position_offset pre (r :: post) hd)|]. apply interval_entry; [lia|done..]. }
  destruct Hes as (es' & -> & Hi'). apply IH; [by rewrite <-app_assoc|lia|done].
Qed.

Lemma open_rep s recs (index : list Z) :
  filters_rep s recs -> index = [] \/ index = f_index s ->
  exists s', filters_open (f_file s) index = Ok s' /\ f_file s' = f_file s /\ filters_rep s' recs.
Proof.
  intros [(hd & Hhd & Hf) (es & Hes & Hi) Hr Hs Hl] Hidx.
  assert (He : exists es0, index = flat es0 /\ index_ok es0 recs).
  { destruct Hidx as [->| ->]; [|by exists es]. exists []. split; [done|]. split; [constructor|done]. }
  destruct He as (es0 & -> & Hi0). unfold filters_open.
  pose proof (write_entry_flat 0 HEADER_SIZE es0) as Ew. change (8 * 0)%nat with 0%nat in Ew. rewrite Ew.
  assert (Hi1 : index_ok (set_entry 0 HEADER_SIZE es0) recs).
  { apply set_entry_ok; [done|by unfold is_offset, HEADER_SIZE|]. intros _. exists [], recs. by repeat constructor. }
  case_bool_decide as Hnew.
  - destruct (build_index_recs recs hd Hhd ltac:(by rewrite <-Hf) Hr Hs recs [] (S (length (f_file s)))
      (set_entry 0 HEADER_SIZE es0)) as (es2 & E2 & Hi2); [done| |done|].
    { rewrite Hf, length_app. pose proof (length_enc_recs recs). lia. }
    assert (Eb : build_index (f_file s) (flat (set_entry 0 HEADER_SIZE es0)) = Ok (flat es2)).
    { unfold build_index. rewrite <-E2. f_equal. rewrite Hf.
      change (Z.to_nat HEADER_SIZE) with 4%nat. by rewrite drop_app_length' by done. }
    rewrite Eb. cbn [mbind outcome_bind].
    eexists. split; [done|]. split; [done|]. split; cbn [f_file f_index]; try done; [by exists hd|by exists es2].
  - eexists. split; [done|]. split; [done|]. split; cbn [f_file f_index]; try done; [by exists hd|by eexists].
Qed.

(** ** Iterating from a height *)

Lemma start_position_ok es recs start : index_ok es recs -> 0 <= start ->
  exists pre post, recs = pre ++ post /\ start_position start (flat es) = position pre /\
    Forall (fun r => r.1 < start) pre.
Proof.
  intros [Hr He] Hs. unfold start_position. rewrite entries_flat by done.
  destruct (head _) as [off|] eqn:Eh; cbn [default]; [|exists [], recs; by repeat constructor].
  assert (Hin : off ∈ filter (fun o => o <> 0) (reverse (take (Z.to_nat (start / INDEX_INTERVAL + 1)) es))).
  { apply head_Some in Eh as [l ->]. by left. }
  apply list_elem_of_filter in Hin as [Hoff Hin]. rewrite elem_of_reverse in Hin.
  apply list_elem_of_lookup in Hin as [n [Hn Hlt]%lookup_take_Some].
  destruct (He n off Hn Hoff) as (pre & post & -> & -> & Hp). exists pre, post. split_and!; [done|done|].
  eapply Forall_impl; [exact Hp|]. cbn beta. intros r Hrn.
  pose proof (Z.mul_div_le start INDEX_INTERVAL ltac:(done)).
  pose proof (Z.div_pos start INDEX_INTERVAL Hs ltac:(done)). 
  assert (Z.of_nat n <= start / INDEX_INTERVAL) by lia. unfold INDEX_INTERVAL in *. lia.
Qed.

Lemma iter_rep s recs start : filters_rep s recs -> is_u32 start ->
  filters_iter (Some start) s = Ok (enc_recs (from start recs)).
Proof.
  intros [(hd & Hhd & Hf) (es & Hes & Hi) Hr Hs Hl] [H0 H1]. unfold filters_iter. change (default 0 (Some start)) with start.
  destruct (start_position_ok es recs start Hi H0) as (pre & post & -> & Hpos & Hpre).
  unfold wrap32. rewrite Z.mod_small by (unfold u32_max in H1; lia).
  assert (Ed : drop (Z.to_nat (start_position start (f_index s))) (f_file s) = enc_recs post).
  { rewrite Hes, Hpos, Hf, enc_recs_app, app_assoc. apply drop_app_length'.
    rewrite length_app. unfold position, HEADER_SIZE. lia. }
  rewrite Ed, skip_recs.
  - pose proof (from_below start pre Hpre) as E. unfold from in *. by rewrite filter_app, E.
  - by apply Forall_app in Hr as [_ ?].
  - by apply StronglySorted_app_1_r in Hs.
  - rewrite Hf, enc_recs_app, !length_app. pose proof (length_enc_recs post). lia.
Qed.

(** ** Rescans *)

(** The records a rescan reads: it stops after the first one at or above the
    stop height. *)
Fixpoint up_to (stop : option Z) (l : list Rec) : list Rec :=
  match l with
  | [] => []
  | r :: l' =>
      match stop with
      | Some h => if h <=? r.1 then [r] else r :: up_to stop l'
      | None => r :: up_to stop l'
      end
  end.

Definition in_window (stop : option Z) (r : Rec) : Prop :=
  match stop with Some h => r.1 <= h | None => True end.
#[export] Instance in_window_dec stop r : Decision (in_window stop r).
Proof. destruct stop; unfold in_window; apply _. Defined.

Lemma up_to_window stop l : StronglySorted below l ->
  (forall h, stop = Some h -> (exists r, r ∈ l /\ r.1 = h) \/ Forall (fun r => r.1 < h) l) ->
  up_to stop l = filter (in_window stop) l.
Proof.
  intros Hs Hstop. destruct stop as [h|].
  2:{ clear. induction l as [|r l IH]; [done|]. cbn [up_to]. rewrite filter_cons, decide_True by done. by rewrite IH. }
  induction Hs as [|r l Hs IH Hr]; [done|]. cbn [up_to]. rewrite filter_cons.
  specialize (Hstop h eq_refl).
  destruct (Z.leb_spec h r.1) as [Hle|Hlt].
  - assert (Hd : filter (in_window (Some h)) l = []).
    { clear -Hr Hle. induction Hr as [|x l Hx _ IH]; [done|]. unfold below in Hx.
      rewrite filter_cons, decide_False by (cbn; lia). done. }
    destruct Hstop as [(x & [->|Hx]%elem_of_cons & Hxh)|[Hb _]%Forall_cons]; [| |lia].
    + rewrite decide_True by (cbn; lia). by rewrite Hd.
    + rewrite Forall_forall in Hr. specialize (Hr x Hx). unfold below in Hr. lia.
  - rewrite decide_True by (cbn; lia). f_equal. apply IH. intros h' [= <-].
    destruct Hstop as [(x & [->|Hx]%elem_of_cons & Hxh)|[_ Hb]%Forall_cons]; [lia|left; by exists x|by right].
Qed.

Section Rescans.
Context (get_block_hash : Z -> option Z) (bip158_match : list Z -> Z -> option bool).

(** Whether the filter of a block matches the query. *)
Definition hit (r : Rec) : bool :=
  default false (h ← get_block_hash r.1; bip158_match r.2 h).
Definition hits (l : list Rec) : list Z := omap (fun r => get_block_hash r.1) (filter (fun r => hit r = true) l).

(** The chain knows the block, and the filter can be read. *)
Definition readable_rec (r : Rec) : Prop :=
  exists h b, get_block_hash r.1 = Some h /\ bip158_match r.2 h = Some b.

Lemma hits_cons r l h b : get_block_hash r.1 = Some h -> bip158_match r.2 h = Some b ->
  hits (r :: l) = (if b then [h] else []) ++ hits l.
Proof.
  intros Hh Hb. unfold hits. rewrite filter_cons.
  assert (Hit : hit r = b) by (unfold hit; rewrite Hh; cbn; by rewrite Hb).
  rewrite Hit. destruct b; [|done]. rewrite decide_True by done. cbn. by rewrite Hh.
Qed.

Lemma match_loop_recs stop l : Forall rec_ok l -> Forall short l -> Forall readable_rec l ->
  forall n acc, (length l < n)%nat ->
  match_loop get_block_hash bip158_match n stop (enc_recs l) acc = Ok (acc ++ hits (up_to stop l)).
Proof.
  intros Hr. induction Hr as [|r l Hok Hr IH]; intros Hsh Hc [|n] acc Hn; cbn [length] in Hn; try lia.
  { cbn. by rewrite app_nil_r. }
  apply Forall_cons in Hsh as [Hs1 Hsh]. apply Forall_cons in Hc as [(h & b & Hh & Hb) Hc].
  cbn [match_loop enc_recs]. rewrite next_rec by done. cbn [mbind outcome_bind].
  rewrite Hh. cbn [expect mbind outcome_bind]. rewrite Hb. cbn [expect mbind outcome_bind].
  assert (Hacc : (if b then acc ++ [h] else acc) = acc ++ (if b then [h] else []))
    by (destruct b; [done|by rewrite app_nil_r]).
  rewrite Hacc. cbn [up_to]. destruct stop as [sh|].
  - destruct (sh <=? r.1).
    + rewrite (hits_cons r [] h b) by done. cbn. by rewrite app_nil_r.
    + rewrite IH, (hits_cons r _ h b), app_assoc by (done || lia). done.
  - rewrite IH, (hits_cons r _ h b), app_assoc by (done || lia). done.
Qed.
End Rescans.

(** * Runs of a store *)

(** The stores reached from empty files, and the filters written to them: new
    filters come with increasing heights and there is room for them, a
    rejected filter, the height record, and opening the store again, with its
    index or with the index lost. *)
Inductive filters_run : FlatFiltersStore -> list Rec -> Prop :=
  | run_new s : filters_open [] [] = Ok s -> filters_run (network_filters_new s) []
  | run_put s recs h c s' :
      filters_run s recs -> rec_ok (h, c) -> Forall (fun r => r.1 < h) recs ->
      Z.of_nat (length (f_file s) + (8 + length c)) < 2 ^ 64 ->
      put_filter c h s = (Ok tt, s') -> filters_run s' (recs ++ [(h, c)])
  | run_rejected s recs h c e s' :
      filters_run s recs -> put_filter c h s = (Err e, s') -> filters_run s' recs
  | run_height s recs h : filters_run s recs -> filters_run (set_height h s) recs
  | run_reopen s recs index s' :
      filters_run s recs -> index = [] \/ index = f_index s -> filters_open (f_file s) index = Ok s' ->
      filters_run (network_filters_new s') recs.

Lemma network_filters_rep s recs : filters_rep s recs -> filters_rep (network_filters_new s) recs.
Proof.
  intros Hr. unfold network_filters_new. destruct (filters_height s); [done|by apply set_height_rep..].
Qed.

Lemma new_rep s : filters_open [] [] = Ok s -> filters_rep (network_filters_new s) [].
Proof.
  intros [= <-]. split; cbn; [by exists [0; 0; 0; 0]| |constructor|constructor|done].
  exists [4]. split; [done|]. split; [by repeat constructor|].
  intros [|[|n]] off Hn; [|done..]. injection Hn as <-. intros _. by exists [], [].
Qed.

Lemma run_rep s recs : filters_run s recs -> filters_rep s recs.
Proof.
  induction 1 as [s Hs|s recs h c s' _ IH Hok Hlt Hroom Hp|s recs h c e s' _ IH Hp|s recs h _ IH
    |s recs index s' _ IH Hidx Ho].
  - by apply new_rep.
  - destruct (put_filter_rep s recs h c IH Hok Hlt Hroom) as (s1 & E1 & Hr). congruence.
  - apply stm_bind_err in Hp as [Hp|(? & ? & _ & Hp)]; [injection Hp as _ <-; done|].
    by destruct (_ =? 0).
  - by apply set_height_rep.
  - destruct (open_rep s recs index IH Hidx) as (s1 & E1 & _ & Hr). apply network_filters_rep. congruence.
Qed.

(** C35: After any sequence of stored filters of increasing heights, rejected filters,
    height records and reopenings, with the index kept or lost, iterating from a height
    yields exactly the stored filters from that height on, in order and with their
    contents. Every filter that put_filter accepts may be stored, but those from that
    height on must be shorter than MAX_FILTER_SIZE: on one of exactly that size the
    assertion of the iterator fails. *)
Theorem filters_iter_correct s recs start
  (Hrun : filters_run s recs) (Hstart : is_u32 start) (Hshort : Forall short (from start recs)) :
  exists r, filters_iter (Some start) s = Ok r /\
    filters_collect (S (length r)) r = Ok (from start recs).
Proof.
  apply run_rep in Hrun as Hr. eexists. split; [by apply iter_rep|]. apply collect_recs.
  - pose proof (fr_recs _ _ Hr) as Hf. unfold from. apply Forall_forall.
    intros x [_ Hx]%list_elem_of_filter. rewrite Forall_forall in Hf. by apply Hf.
  - exact Hshort.
  - pose proof (length_enc_recs (from start recs)). lia.
Qed.

(** A rescan between two heights returns, in order, the hashes of exactly the blocks in
    that range whose stored filter matches, when the chain knows the blocks and the stop
    height is the height of a stored filter or above all of them, and no filter has the
    full size that the iterator refuses. *)
Theorem rescan_correct (get_block_hash : Z -> option Z) (bip158_match : list Z -> Z -> option bool)
  s recs start stop
  (Hrun : filters_run s recs) (Hstart : is_u32 start)
  (Hread : Forall (readable_rec get_block_hash bip158_match) recs) (Hshort : Forall short recs)
  (Hstop : forall h, stop = Some h -> start <= h /\ ((exists r, r ∈ recs /\ r.1 = h) \/ Forall (fun r => r.1 < h) recs)) :
  match_any get_block_hash bip158_match (Some start) stop s =
    Ok (hits get_block_hash bip158_match (filter (in_window stop) (from start recs))).
Proof.
  apply run_rep in Hrun as Hr. unfold match_any. rewrite (iter_rep s recs) by done. cbn [mbind outcome_bind].
  assert (Hsub : forall P, Forall P recs -> Forall P (from start recs)).
  { intros P HP. rewrite Forall_forall in *. intros x [_ Hx]%list_elem_of_filter. by apply HP. }
  rewrite match_loop_recs.
  - cbn [app]. rewrite up_to_window; [done| |].
    + pose proof (fr_sorted _ _ Hr) as Hs. unfold from. clear -Hs. induction Hs as [|r l Hs IH Hr]; [constructor|].
      rewrite filter_cons. case_decide; [|done]. constructor; [done|].
      rewrite Forall_forall in *. intros x [_ Hx]%list_elem_of_filter. by apply Hr.
    + intros h ->. destruct (Hstop h eq_refl) as [Hle [(x & Hx & <-)|Hb]]; [left; exists x|right; by apply Hsub].
      split; [|done]. by apply list_elem_of_filter.
  - apply Hsub, (fr_recs _ _ Hr).
  - by apply Hsub.
  - by apply Hsub.
  - pose proof (length_enc_recs (from start recs)). lia.
Qed.

(** Opening the store without its index rebuilds an index with which every iteration
    reads what it read before, and leaves the filters file untouched. *)
Theorem index_rebuild_correct s recs s' start
  (Hrun : filters_run s recs) (Hopen : filters_open (f_file s) [] = Ok s') (Hstart : is_u32 start) :
  f_file s' = f_file s /\ filters_iter (Some start) s' = filters_iter (Some start) s.
Proof.
  apply run_rep in Hrun. destruct (open_rep s recs [] Hrun (or_introl eq_refl)) as (s1 & E1 & Hf & Hr).
  assert (s1 = s') as -> by congruence. split; [done|]. by rewrite !(iter_rep _ recs).
Qed.

(** A filter of exactly MAX_FILTER_SIZE bytes is stored by put_filter, and iterating
    over the store then fails the assertion of debug builds. *)
Theorem full_size_filter_panics s recs h c s' fuel
  (Hrun : filters_run s recs) (Hh : is_u32 h) (Hc : Z.of_nat (length c) = MAX_FILTER_SIZE)
  (Hp : (put_filter c h s).2 = s') (Hfuel : (length recs < fuel)%nat) :
  (put_filter c h s).1 = Ok tt /\ filters_collect fuel (filters_into_iter s') = Panic.
Proof.
  apply run_rep in Hrun as [(hd & Hhd & Hf) _ Hr _ _].
  assert (Hw : wrap32 (Z.of_nat (length c)) = 1000000) by (rewrite Hc; done).
  assert (E : f_file s' = hd ++ enc_recs recs ++ le_bytes 4 h ++ le_bytes 4 1000000 ++ c /\ (put_filter c h s).1 = Ok tt).
  { rewrite <-Hp. unfold put_filter, mbind, stm_bind, lift, gets, modify. rewrite Hw. cbn [err_if Z.ltb].
    change (MAX_FILTER_SIZE <? 1000000) with false. cbn [err_if].
    destruct (_ =? 0); cbn.
    all: rewrite Hf, <-app_assoc; by split. }
  destruct E as [E E']. split; [done|]. unfold filters_into_iter. rewrite E.
  change (Z.to_nat HEADER_SIZE) with 4%nat. rewrite drop_app_length' by done.
  clear -Hr Hh Hfuel. revert fuel Hfuel. induction Hr as [|r l Hok Hr IH]; intros [|n] Hn; cbn [length] in Hn; try lia.
  - cbn [filters_collect enc_recs app]. unfold filters_next. rewrite !read_u32_bytes by done. done.
  - cbn [filters_collect enc_recs]. rewrite <-app_assoc. destruct (decide (short r)) as [Hs|Hs].
    + rewrite next_rec by done. cbn [mbind outcome_bind]. by rewrite IH by lia.
    + by rewrite next_full.
Qed.
