(* ===== verification/StumpUpdater.v ===== *)
(** The accumulator updater of SwiftSync
    ([src/crates/floresta-wire/src/p2p_wire/stump_updater.rs]): blocks are
    processed in any order, their additions are cached and applied to the
    accumulator in the order of their heights.  The result is the accumulator of
    the blocks in order, whatever the order of arrival, and never a partial one;
    sparse additions lose nothing. *)

From stdpp Require Import base gmap list fin_maps.
From Stdlib Require Import ZArith Lia.
From S2P Require Import Prelude Bitcoin.

(** [Proof::default] of rustreexo. *)
Class ProofDefault `{UtreexoLib} := { proof_default : Proof_ }.

(** * Sparse additions *)

Record SparseUtreexoAdds := mkSparse { sp_len : nat; sp_entries : list (Z * NodeHash) }.

Definition utxo_count (s : SparseUtreexoAdds) : Z := Z.of_nat (length (sp_entries s)).

(** The entries of [SparseUtreexoAdds::new]; a position above [u32::MAX]
    panics. *)
Fixpoint sparse_entries {E} (i : Z) (dense : list NodeHash) : outcome E (list (Z * NodeHash)) :=
  match dense with
  | [] => Ok []
  | hash :: rest =>
      if bool_decide (hash = EmptyHash) then sparse_entries (i + 1) rest
      else
        index ← expect (if i <=? u32_max then Some i else None);
        entries ← sparse_entries (i + 1) rest;
        Ok ((index, hash) :: entries)
  end.

Definition sparse_new {E} (dense : list NodeHash) : outcome E SparseUtreexoAdds :=
  entries ← sparse_entries 0 dense;
  Ok (mkSparse (length dense) entries).

(** The writes of [into_dense]; indexing past the end panics. *)
Fixpoint dense_loop {E} (dense : list NodeHash) (entries : list (Z * NodeHash))
  : outcome E (list NodeHash) :=
  match entries with
  | [] => Ok dense
  | (index, hash) :: rest =>
      _ ← expect (dense !! Z.to_nat index);
      dense_loop (<[Z.to_nat index := hash]> dense) rest
  end.

Definition into_dense {E} (s : SparseUtreexoAdds) : outcome E (list NodeHash) :=
  dense_loop (replicate (sp_len s) EmptyHash) (sp_entries s).

(** * The updater *)

Section StumpUpdater.
Context `{UtreexoLib, !ProofDefault}.

(** The telemetry of elapsed time is left out. *)
Record StumpUpdater := mkUpdater {
  last_acc : Stump;
  last_height : Z;
  pending_updates : gmap Z SparseUtreexoAdds;
  cached_utxos : Z;
  max_cached_utxos : Z
}.

(** The smallest key of the [BTreeMap]. *)
Definition first_key {A} (m : gmap Z A) : option Z :=
  foldr (fun k o => Some (match o with Some k' => Z.min k k' | None => k end)) None
    (map_to_list m).*1.

(** [spawn]: the initial state of the task. *)
Definition updater_spawn {E} (initial_acc : Stump) (initial_height stop_height : Z)
  : outcome E StumpUpdater :=
  if initial_height <? stop_height then Ok (mkUpdater initial_acc initial_height ∅ 0 0) else Panic.

Definition queue_update {E} (height : Z) (update : SparseUtreexoAdds) (stop_height : Z)
  (u : StumpUpdater) : outcome E StumpUpdater :=
  if (height <=? last_height u) || (stop_height <? height) then Panic
  else
    match pending_updates u !! height with
    | Some _ => Panic
    | None =>
        cached ← u64_add (cached_utxos u) (utxo_count update);
        Ok (mkUpdater (last_acc u) (last_height u) (<[height := update]> (pending_updates u)) cached
              (Z.max (max_cached_utxos u) cached))
    end.

Fixpoint try_next {E} (n : nat) (u : StumpUpdater) : outcome E StumpUpdater :=
  match n with
  | O => Diverge
  | S n' =>
      next_height ← u32_add (last_height u) 1;
      match (k ← first_key (pending_updates u);
             if k =? next_height then pending_updates u !! k else None) with
      | Some adds =>
          cached ← u64_sub (cached_utxos u) (utxo_count adds);
          dense ← into_dense adds;
          match stump_modify (last_acc u) dense [] proof_default with
          | inr new_acc =>
              try_next n' (mkUpdater new_acc next_height (delete next_height (pending_updates u)) cached
                             (max_cached_utxos u))
          | inl _ => Panic
          end
      | None => Ok u
      end
  end.

(** [run] on the messages of the channel, in the order they are received; the
    end of the list is the closed channel.  Every turn of [try_next] removes a
    pending update. *)
Fixpoint updater_run {E} (stop_height : Z) (rx : list (Z * SparseUtreexoAdds)) (u : StumpUpdater)
  : outcome E (option Stump) :=
  if last_height u <? stop_height then
    match rx with
    | [] => Ok None
    | (height, update) :: rx =>
        u ← queue_update height update stop_height u;
        u ← try_next (S (size (pending_updates u))) u;
        updater_run stop_height rx u
    end
  else Ok (Some (last_acc u)).

(** The messages sent to a spawned updater and its result. *)
Definition run_updater {E} (initial_acc : Stump) (initial_height stop_height : Z)
  (rx : list (Z * SparseUtreexoAdds)) : outcome E (option Stump) :=
  u ← updater_spawn initial_acc initial_height stop_height;
  updater_run stop_height rx u.
End StumpUpdater.

(** * Sparse additions *)

Lemma dense_loop_restores {E} (dense : list NodeHash) : forall (done : list NodeHash),
  Z.of_nat (length done + length dense) <= u32_max + 1 ->
  exists entries, sparse_entries (E := E) (Z.of_nat (length done)) dense = Ok entries /\
    dense_loop (E := E) (done ++ replicate (length dense) EmptyHash) entries = Ok (done ++ dense) /\
    length entries = length (filter (fun h => h <> EmptyHash) dense).
Proof.
  induction dense as [|h dense IH]; intros done Hlen; cbn [length] in Hlen.
  { exists []. cbn. by rewrite app_nil_r. }
  destruct (IH (done ++ [h])) as (entries & E1 & E2 & E3); [rewrite length_app; cbn [length]; lia|].
  rewrite length_app in E1. cbn [length] in E1. rewrite Nat2Z.inj_add in E1. change (Z.of_nat 1) with 1 in E1.
  rewrite <-app_assoc in E2. cbn [app] in E2.
  cbn [sparse_entries length replicate]. rewrite filter_cons. case_bool_decide as Hh.
  - subst h. exists entries. rewrite E1. split_and!; [done| |]; rewrite ?decide_False by naive_solver; [|done].
    rewrite E2, <-app_assoc. done.
  - rewrite (proj2 (Z.leb_le _ _)) by lia. cbn [expect mbind outcome_bind]. rewrite E1. cbn [mbind outcome_bind].
    eexists. split; [done|]. rewrite decide_True by done. cbn [length]. rewrite E3. split; [|done].
    cbn [dense_loop]. rewrite Nat2Z.id, lookup_app_r, Nat.sub_diag by lia. cbn [lookup list_lookup expect mbind outcome_bind].
    rewrite insert_app_r_alt, Nat.sub_diag by lia. change (<[0%nat:=h]> (EmptyHash :: replicate (length dense) EmptyHash))
      with (h :: replicate (length dense) EmptyHash). rewrite E2, <-app_assoc. done.
Qed.

(** Whatever was encoded is restored. *)
Lemma dense_loop_encoded {E} (dense : list NodeHash) : forall (done : list NodeHash) entries,
  sparse_entries (E := E) (Z.of_nat (length done)) dense = Ok entries ->
  dense_loop (E := E) (done ++ replicate (length dense) EmptyHash) entries = Ok (done ++ dense).
Proof.
  induction dense as [|h dense IH]; intros done entries; cbn [sparse_entries length replicate].
  { intros [= <-]. done. }
  assert (Hnext : Z.of_nat (length done) + 1 = Z.of_nat (length (done ++ [h]))) by (rewrite length_app; cbn [length]; lia).
  rewrite Hnext. case_bool_decide as Hh.
  - subst h. intros He. specialize (IH (done ++ [EmptyHash]) entries He). by rewrite <-!app_assoc in IH.
  - destruct (_ <=? _); [|done]. cbn [expect mbind outcome_bind]. intros (rest & He & [= <-])%obind_ok.
    specialize (IH (done ++ [h]) rest He). rewrite <-!app_assoc in IH. cbn [dense_loop].
    rewrite Nat2Z.id, lookup_app_r, Nat.sub_diag by lia. cbn [lookup list_lookup expect mbind outcome_bind].
    rewrite insert_app_r_alt, Nat.sub_diag by lia. exact IH.
Qed.
Lemma sparse_dense {E} dense s : sparse_new (E := E) dense = Ok s -> into_dense (E := E) s = Ok dense.
Proof. unfold sparse_new. intros (entries & He & [= <-])%obind_ok. exact (dense_loop_encoded dense [] entries He). Qed.

(** * The updater *)

Lemma first_key_spec {A} (m : gmap Z A) :
  match first_key m with
  | Some k => is_Some (m !! k) /\ forall j, is_Some (m !! j) -> k <= j
  | None => m = ∅
  end.
Proof.
  assert (Hg : forall l : list Z,
    match foldr (fun k o => Some (match o with Some k' => Z.min k k' | None => k end)) None l with
    | Some k => k ∈ l /\ forall j, j ∈ l -> k <= j
    | None => l = []
    end).
  { induction l as [|x l IH]; [done|]. cbn [foldr]. destruct (foldr _ None l) as [k|].
    - destruct IH as [Hk Hmin]. split.
      + apply elem_of_cons. destruct (Z.min_spec x k) as [[_ ->]|[_ ->]]; auto.
      + intros j [->|Hj]%elem_of_cons; [lia|]. specialize (Hmin j Hj). lia.
    - subst l. split; [by left|]. intros j [->|Hj]%elem_of_cons; [lia|by apply not_elem_of_nil in Hj]. }
  assert (Hin : forall k, k ∈ (map_to_list m).*1 <-> is_Some (m !! k)).
  { intros k. rewrite list_elem_of_fmap. split.
    - intros ([k' v] & -> & Hk%elem_of_map_to_list). by exists v.
    - intros [v Hv]. exists (k, v). by rewrite elem_of_map_to_list. }
  specialize (Hg (map_to_list m).*1). unfold first_key. destruct (foldr _ None _) as [k|].
  - destruct Hg as [Hk Hmin]. split; [by apply Hin|]. intros j Hj. by apply Hmin, Hin.
  - apply fmap_nil_inv in Hg. by apply map_to_list_empty_iff.
Qed.

Section StumpFacts.
Context {U : UtreexoLib} {PD : ProofDefault} {E : Type}.
(** Modifications that only add cannot fail, as the code expects. *)
Context (Hadd : forall a adds, exists a', stump_modify a adds [] proof_default = inr a').

Definition add_only (a : Stump) (adds : list NodeHash) : Stump :=
  match stump_modify a adds [] proof_default with inr a' => a' | inl _ => a end.

Section Run.
Context (acc0 : Stump) (init stop : Z) (f : Z -> list NodeHash) (heights : gset Z).
Context (Hinit : 0 <= init < stop) (Hmax : stop < u32_max).

(** The accumulator after the blocks up to a height. *)
Definition acc_after (h : Z) : Stump := foldl add_only acc0 (map f (seqZ (init + 1) (h - init))).

Lemma acc_after_succ h : init <= h -> acc_after (h + 1) = add_only (acc_after h) (f (h + 1)).
Proof.
  intros Hh. unfold acc_after. replace (h + 1 - init) with ((h - init) + 1) by lia.
  rewrite seqZ_app, map_app, foldl_app by lia. replace (init + 1 + (h - init)) with (h + 1) by lia. done.
Qed.

Definition carries (h : Z) (s : SparseUtreexoAdds) : Prop :=
  init < h <= stop /\ into_dense (E := E) s = Ok (f h).

(** The state of the updater while [rest] is still to come: every height of
    [H] is applied, pending or still to come. *)
Record updater_inv (u : StumpUpdater) (rest : list (Z * SparseUtreexoAdds)) : Prop := {
  ui_height : init <= last_height u <= stop;
  ui_acc : last_acc u = acc_after (last_height u);
  ui_pending : forall h s, pending_updates u !! h = Some s -> last_height u < h /\ carries h s;
  ui_rest : forall h s, (h, s) ∈ rest -> last_height u < h /\ carries h s /\ pending_updates u !! h = None;
  ui_nodup : NoDup rest.*1;
  ui_all : forall h, h ∈ heights <-> init < h <= last_height u \/ is_Some (pending_updates u !! h) \/ h ∈ rest.*1;
  ui_cached : cached_utxos u = map_sum utxo_count (pending_updates u);
  ui_room : cached_utxos u + sum_Z (fun m => utxo_count m.2) rest <= u64_max
}.

Lemma pending_count (p : gmap Z SparseUtreexoAdds) : 0 <= map_sum utxo_count p.
Proof.
  induction p as [|k s p Hk IH] using map_ind; [by rewrite map_sum_empty|].
  rewrite map_sum_insert_new by done. unfold utxo_count at 1. lia.
Qed.

Lemma queue_update_inv u h s rest : updater_inv u ((h, s) :: rest) ->
  exists u', queue_update (E := E) h s stop u = Ok u' /\ updater_inv u' rest.
Proof.
  intros [Hh Ha Hp Hr Hn Hall Hc Hroom]. destruct (Hr h s) as (Hlt & Hcar & Hnone); [by left|].
  apply NoDup_cons in Hn as [Hni Hn]. cbn [sum_Z snd] in Hroom.
  pose proof (sum_Z_nonneg (fun m : Z * SparseUtreexoAdds => utxo_count m.2) rest
    ltac:(intros; unfold utxo_count; lia)) as Hnn.
  unfold queue_update. rewrite (proj2 (Z.leb_gt _ _)) by lia.
  destruct Hcar as [Hrange Hdense]. rewrite (proj2 (Z.ltb_ge _ _)) by lia. cbn [orb].
  rewrite Hnone. unfold u64_add. rewrite (proj2 (Z.leb_le _ _)) by lia. cbn [mbind outcome_bind].
  eexists. split; [done|]. split; cbn; try done; [| | | |lia].
  - intros k x. destruct (decide (k = h)) as [->|Hne].
    + rewrite lookup_insert_eq. by intros [= <-].
    + rewrite lookup_insert_ne by done. apply Hp.
  - intros k x Hk. destruct (Hr k x) as (? & ? & ?); [by right|]. split_and!; try done.
    rewrite lookup_insert_ne; [done|]. intros <-. apply Hni, list_elem_of_fmap. by exists (h, x).
  - intros k. rewrite Hall, lookup_insert_is_Some'. cbn. rewrite elem_of_cons. intuition congruence.
  - rewrite map_sum_insert_new by done. lia.
Qed.

Lemma try_next_inv n : forall u rest, updater_inv u rest -> (size (pending_updates u) < n)%nat ->
  exists u', try_next (E := E) n u = Ok u' /\ updater_inv u' rest /\
    pending_updates u' !! (last_height u' + 1) = None.
Proof.
  induction n as [|n IH]; intros u rest Hi Hn; [lia|].
  pose proof Hi as [Hh Ha Hp Hr Hnd Hall Hc Hroom].
  cbn [try_next]. unfold u32_add. rewrite (proj2 (Z.leb_le _ _)) by lia. cbn [mbind outcome_bind].
  pose proof (first_key_spec (pending_updates u)) as Hf.
  destruct (pending_updates u !! (last_height u + 1)) as [adds|] eqn:Hnext.
  2:{ exists u. destruct (first_key _) as [k|]; cbn [mbind option_bind]; [|done].
      destruct (Z.eqb_spec k (last_height u + 1)) as [->|]; [by rewrite Hnext|done]. }
  assert (Hfirst : first_key (pending_updates u) = Some (last_height u + 1)).
  { destruct (first_key _) as [k|]; [|by rewrite Hf, lookup_empty in Hnext].
    destruct Hf as [[s Hs] Hmin]. destruct (Hp k s Hs) as [Hk _].
    specialize (Hmin (last_height u + 1) ltac:(by rewrite Hnext)). f_equal. lia. }
  rewrite Hfirst. cbn [mbind option_bind]. rewrite Z.eqb_refl, Hnext.
  destruct (Hp _ _ Hnext) as [_ [Hrange Hdense]].
  pose proof (map_sum_delete utxo_count _ _ _ Hnext) as Hdel.
  pose proof (pending_count (delete (last_height u + 1) (pending_updates u))) as Hpos.
  unfold u64_sub. rewrite (proj2 (Z.leb_le _ _)) by lia. cbn [mbind outcome_bind].
  rewrite Hdense. cbn [mbind outcome_bind]. destruct (Hadd (last_acc u) (f (last_height u + 1))) as [a' Ea].
  rewrite Ea. apply IH.
  - split; cbn; try done; [lia| | | | | |].
    + rewrite acc_after_succ, <-Ha by lia. unfold add_only. by rewrite Ea.
    + intros k s [Hne Hk]%lookup_delete_Some. destruct (Hp k s Hk). split; [lia|done].
    + intros k s Hk. destruct (Hr k s Hk) as (? & ? & Hnone). split_and!; [|done|].
      * destruct (decide (k = last_height u + 1)) as [->|]; [congruence|lia].
      * rewrite lookup_delete_None. by right.
    + intros k. rewrite Hall. destruct (decide (k = last_height u + 1)) as [->|Hne].
      * rewrite Hnext. split; [left; lia|]. intros _. right. left. done.
      * rewrite lookup_delete_ne by done. split; intros [?|?]; auto; left; lia.
    + lia.
    + unfold utxo_count in *. lia.
  - cbn. rewrite map_size_delete, Hnext.
    assert (size (pending_updates u) <> 0%nat); [|lia].
    intros E0%map_size_empty_inv. by rewrite E0, lookup_empty in Hnext.
Qed.

Lemma updater_run_inv rest : forall u, updater_inv u rest ->
  last_height u = stop \/ pending_updates u !! (last_height u + 1) = None ->
  exists u', updater_inv u' [] /\ (last_height u' = stop \/ pending_updates u' !! (last_height u' + 1) = None) /\
    updater_run (E := E) stop rest u = Ok (if last_height u' <? stop then None else Some (last_acc u')).
Proof.
  induction rest as [|[h s] rest IH]; intros u Hi Hgap.
  { exists u. split_and!; try done. cbn. by destruct (_ <? _). }
  destruct (Z.ltb_spec (last_height u) stop) as [Hlt|Hge].
  - destruct (queue_update_inv u h s rest Hi) as (u1 & E1 & Hi1).
    destruct (try_next_inv (S (size (pending_updates u1))) u1 rest Hi1) as (u2 & E2 & Hi2 & Hgap2); [lia|].
    destruct (IH u2 Hi2 (or_intror Hgap2)) as (u3 & Hi3 & Hgap3 & E3). exists u3. split_and!; try done.
    cbn [updater_run]. rewrite (proj2 (Z.ltb_lt _ _) Hlt), E1. cbn [mbind outcome_bind]. rewrite E2.
    cbn [mbind outcome_bind]. done.
  - destruct (ui_rest _ _ Hi h s) as (Hh & [[_ ?] _] & _); [by left|].
    pose proof (ui_height _ _ Hi). lia.
Qed.
End Run.

Lemma initial_updater acc0 init stop f (msgs : list (Z * SparseUtreexoAdds)) :
  0 <= init < stop -> NoDup msgs.*1 ->
  (forall h s, (h, s) ∈ msgs -> carries init stop f h s) ->
  sum_Z (fun m => utxo_count m.2) msgs <= u64_max ->
  updater_inv acc0 init stop f (list_to_set msgs.*1) (mkUpdater acc0 init ∅ 0 0) msgs.
Proof.
  intros Hinit Hnd Hc Hroom. split; cbn; try done; [lia|unfold acc_after; by rewrite Z.sub_diag| |].
  - intros h s Hm. destruct (Hc h s Hm) as [? ?]. split_and!; [lia|by split|done].
  - intros h. rewrite elem_of_list_to_set. split; [auto|]. intros [?|[Hs|?]]; [lia| |done].
    by destruct Hs.
Qed.
End StumpFacts.

(** * What a result is made of *)

Section Sound.
Context {U : UtreexoLib} {PD : ProofDefault} {E : Type}.
Context (acc0 : Stump) (init stop : Z) (rx : list (Z * SparseUtreexoAdds)).

(** The update of a height that was sent. *)
Definition sent_for (h : Z) (dense : list NodeHash) : Prop :=
  exists s, (h, s) ∈ rx /\ into_dense (E := E) s = Ok dense.
Record updater_sound (u : StumpUpdater) : Prop := {
  us_height : init <= last_height u <= stop;
  us_pending : forall h s, pending_updates u !! h = Some s -> (h, s) ∈ rx /\ h <= stop;
  us_acc : exists l, Forall2 sent_for (seqZ (init + 1) (last_height u - init)) l /\ last_acc u = foldl add_only acc0 l
}.

Lemma try_next_sound n : forall u u', updater_sound u -> try_next (E := E) n u = Ok u' -> updater_sound u'.
Proof.
  induction n as [|n IH]; intros u u' Hu; cbn [try_next]; [done|].
  intros (next & [-> _]%u32_add_ok & Hrun)%obind_ok. revert Hrun.
  destruct (k ← _; _) as [adds|] eqn:Ek; [|by intros [= <-]].
  assert (Hp : pending_updates u !! (last_height u + 1) = Some adds).
  { apply bind_Some in Ek as (k & _ & Hk). destruct (Z.eqb_spec k (last_height u + 1)) as [Ee|]; [|done]. by rewrite <-Ee. }
  intros (c & _ & (dense & Hd & Hrun)%obind_ok)%obind_ok. destruct (stump_modify _ _ _ _) as [|acc] eqn:Es; [done|].
  apply IH in Hrun; [done|]. destruct Hu as [Hh Hpend (l & Hl & Ha)]. destruct (Hpend _ _ Hp) as [Hin Hle]. split; cbn.
  - lia.
  - intros h s [_ Hs]%lookup_delete_Some. by apply Hpend.
  - exists (l ++ [dense]). rewrite foldl_app, <-Ha. cbn. split; [|unfold add_only; by rewrite Es].
    replace (last_height u + 1 - init) with (last_height u - init + 1) by lia. rewrite seqZ_app by lia.
    apply Forall2_app; [done|]. replace (init + 1 + (last_height u - init)) with (last_height u + 1) by lia.
    cbn. constructor; [by exists adds|constructor].
Qed.
Lemma updater_run_sound l : l ⊆ rx -> forall u acc, updater_sound u -> updater_run (E := E) stop l u = Ok (Some acc) ->
  exists dense, Forall2 sent_for (seqZ (init + 1) (stop - init)) dense /\ acc = foldl add_only acc0 dense.
Proof.
  intros Hl. induction l as [|[h s] l IH]; intros u acc Hu; cbn [updater_run].
  all: destruct (Z.ltb_spec (last_height u) stop) as [Hlt|Hge];
    [|intros [= <-]; destruct Hu as [Hh _ Ha]; by replace (last_height u) with stop in Ha by lia].
  { done. }
  intros (u1 & Hq & (u2 & Hn & Hrun)%obind_ok)%obind_ok. apply (IH ltac:(set_solver) u2); [|done].
  eapply try_next_sound; [|exact Hn]. unfold queue_update in Hq. destruct (_ || _) eqn:Er; [done|].
  apply orb_false_iff in Er as [Hh1%Z.leb_gt Hh2%Z.ltb_ge].
  destruct (pending_updates u !! h); [done|]. apply obind_ok in Hq as (c & _ & [= <-]).
  destruct Hu as [Hh Hp Ha]. split; cbn; [done| |done]. intros k x Hx. apply lookup_insert_Some in Hx as [[Ek Ex]|[_ Hx]]; [|by apply Hp].
  subst k x. split; [|done]. apply Hl. by left.
Qed.
Lemma run_updater_sound acc : 0 <= init -> run_updater (E := E) acc0 init stop rx = Ok (Some acc) ->
  init < stop /\ exists dense, Forall2 sent_for (seqZ (init + 1) (stop - init)) dense /\ acc = foldl add_only acc0 dense.
Proof.
  intros Hi. unfold run_updater, updater_spawn. destruct (Z.ltb_spec init stop) as [Hlt|]; [|done]. cbn [mbind outcome_bind].
  intros Hrun. split; [done|]. eapply (updater_run_sound rx); [done| |exact Hrun]. split; cbn; [lia|done|].
  exists []. by rewrite Z.sub_diag.
Qed.
End Sound.

(** Sparse additions lose nothing: into_dense of SparseUtreexoAdds::new gives back the
    dense list, empty hashes included, for every list of up to 2^32 hashes, and
    utxo_count is the number of hashes that are not empty. *)
Theorem sparse_adds_roundtrip {E} (dense : list NodeHash)
  (Hlen : Z.of_nat (length dense) <= u32_max + 1) :
  exists s, sparse_new (E := E) dense = Ok s /\ into_dense (E := E) s = Ok dense /\
    utxo_count s = Z.of_nat (length (filter (fun h => h <> EmptyHash) dense)).
Proof.
  destruct (dense_loop_restores (E := E) dense []) as (entries & E1 & E2 & E3); [done|].
  unfold sparse_new. change (Z.of_nat (length [])) with 0 in E1. rewrite E1. eexists. split; [done|]. cbn. split; [done|].
  unfold utxo_count. cbn. by rewrite E3.
Qed.

Section Order.
Context {U : UtreexoLib} {PD : ProofDefault} {E : Type}.

(** C36: The accumulator updater never panics on one update per height: whatever the
    order in which the updates of all heights up to the stop height arrive, the result
    is the accumulator that adds them in the order of their heights, and when one is
    missing there is no result at all, never a partial accumulator. *)
Theorem updater_order_independent (acc0 : Stump) (init stop : Z) (f : Z -> list NodeHash)
  (msgs : list (Z * SparseUtreexoAdds))
  (Hadd : forall a adds, exists a', stump_modify a adds [] proof_default = inr a')
  (Hinit : 0 <= init < stop) (Hmax : stop < u32_max) (Hnd : NoDup msgs.*1)
  (Hmsgs : forall h s, (h, s) ∈ msgs -> init < h <= stop /\ into_dense (E := E) s = Ok (f h))
  (Hroom : sum_Z (fun m => utxo_count m.2) msgs <= u64_max) :
  (Forall (fun h => h ∈ msgs.*1) (seqZ (init + 1) (stop - init)) ->
   run_updater (E := E) acc0 init stop msgs =
     Ok (Some (foldl add_only acc0 (map f (seqZ (init + 1) (stop - init)))))) /\
  (forall missing, init < missing <= stop -> missing ∉ msgs.*1 ->
   run_updater (E := E) acc0 init stop msgs = Ok None).
Proof.
  pose proof (initial_updater acc0 init stop f msgs Hinit Hnd Hmsgs Hroom) as Hi.
  destruct (updater_run_inv Hadd acc0 init stop f (list_to_set msgs.*1) Hinit Hmax msgs _ Hi)
    as (u & [Hh Ha Hp _ _ Hall _ _] & Hgap & Erun); [right; apply lookup_empty|].
  unfold run_updater, updater_spawn. rewrite (proj2 (Z.ltb_lt _ _)) by lia. cbn [mbind outcome_bind].
  rewrite Erun. split.
  - intros Hcomplete. assert (last_height u = stop) as Hst.
    { destruct Hgap as [|Hgap]; [done|]. destruct (decide (last_height u = stop)) as [|Hne]; [done|].
      rewrite Forall_forall in Hcomplete. specialize (Hcomplete (last_height u + 1)).
      rewrite elem_of_seqZ in Hcomplete. specialize (Hcomplete ltac:(lia)).
      apply (elem_of_list_to_set (C := gset Z)), Hall in Hcomplete as [?|[Hs|Hs]]; [lia| |by apply not_elem_of_nil in Hs].
      rewrite Hgap in Hs. by destruct Hs. }
    rewrite Hst, Z.ltb_irrefl, Ha, Hst. done.
  - intros missing Hm Hnot. rewrite (proj2 (Z.ltb_lt _ _)); [done|].
    destruct (Z.lt_ge_cases (last_height u) stop); [done|]. destruct Hnot.
    apply (elem_of_list_to_set (C := gset Z)), Hall. left. lia.
Qed.
End Order.
