(* ===== verification/BlockProof.v ===== *)
(** Requests for Utreexo proofs and their answers
    ([src/crates/floresta-wire/src/p2p_wire/block_proof.rs]): the bitmap of
    requested inputs, the mask of requested parts, and the decoder of proofs
    with its bounds. *)

From stdpp Require Import base list gmap strings.
From Stdlib Require Import ZArith Lia.
From S2P Require Import Prelude Bitcoin Errors Codec Sigops Extensions Udata.

Definition MAX_INPUTS_PER_BLOCK : Z := 24386.
Definition MAX_TREE_DEPTH : Z := 64.
Definition MAX_PROOF_HASHES : Z := MAX_INPUTS_PER_BLOCK * MAX_TREE_DEPTH.

(** * Bitmaps *)

Record Bitmap := mkBitmap { bm_bytes : list Z; n_inputs : Z }.

Definition bitmap_new : Bitmap := mkBitmap [] 0.
Definition bitmap_is_empty (b : Bitmap) : bool := n_inputs b =? 0.

Definition push_input {E} (b : Bitmap) (request : bool) : outcome E Bitmap :=
  let bit_offset := n_inputs b mod 8 in
  n ← u32_add (n_inputs b) 1;
  if bit_offset =? 0 then Ok (mkBitmap (bm_bytes b ++ [Z.b2z request]) n)
  else if request then
    byte ← expect (last (bm_bytes b));
    Ok (mkBitmap (<[pred (length (bm_bytes b)) := Z.lor byte (Z.shiftl 1 bit_offset)]> (bm_bytes b)) n)
  else Ok (mkBitmap (bm_bytes b) n).

(** * Masks *)

Definition TARGETS : Z := Z.shiftl 1 0.
Definition PROOF_HASHES : Z := Z.shiftl 1 1.
Definition LEAF_DATA : Z := Z.shiftl 1 2.
Definition ALL : Z := Z.lor (Z.lor TARGETS PROOF_HASHES) LEAF_DATA.

Definition mask_new : Z := 0.
Definition request_all : Z := ALL.
Definition request_targets (m : Z) : Z := Z.lor m TARGETS.
Definition request_proof_hashes (m : Z) : Z := Z.lor m PROOF_HASHES.
Definition request_leaf_data (m : Z) : Z := Z.lor m LEAF_DATA.

(** * Messages *)

Record GetUtreexoProof := mkGetProof {
  gp_block_hash : BlockHash;
  request_bitmap : Z;
  proof_hashes_bitmap : Bitmap;
  leaf_index_bitmap : Bitmap
}.

Record UtreexoProof := mkUtreexoProof {
  up_block_hash : BlockHash;
  proof_hashes : list NodeHash;
  targets : list Z;
  leaf_data : list CompactLeafData
}.

(** rust-bitcoin's variable-length integer. *)
Record varint := VarInt { varint_val : Z }.

Section Messages.
(** The codecs of [Vec<u8>], which is that of [Box<[u8]>], and of [VarInt]. *)
Context `{!Codec (list Z), !Codec varint}.

Definition bitmap_enc (b : Bitmap) : list Z := enc (bm_bytes b).

Definition get_proof_enc (g : GetUtreexoProof) : list Z :=
  enc (H32 (gp_block_hash g)) ++ enc (U8 (request_bitmap g)) ++
  bitmap_enc (proof_hashes_bitmap g) ++ bitmap_enc (leaf_index_bitmap g).

(** [read_bounded_len] ([src/crates/floresta-common/src/lib.rs]). *)
Definition read_bounded_len (max : Z) (r : list Z) : outcome DecodeError (Z * list Z) :=
  '(n, r) ← dec (A := varint) r;
  if max <? varint_val n then Err (OversizedVectorAllocation (varint_val n) max)
  else Ok (varint_val n, r).

(** The leaf of a proof; the fields are written one after the other. *)
#[local] Instance leaf_codec : Codec CompactLeafData := {|
  enc l := enc (U32 (header_code l)) ++ enc (U64 (amount l)) ++ spk_enc (spk_ty l);
  dec r :=
    '(code, r) ← dec (A := u32) r;
    '(amt, r) ← dec (A := u64) r;
    '(ty, r) ← spk_dec r;
    Ok (mkCompactLeafData (u32_val code) (u64_val amt) ty, r)
|}.

(** [Decodable for UtreexoProof]. *)
Definition utreexo_proof_dec (r : list Z) : outcome DecodeError (UtreexoProof * list Z) :=
  '(block_hash, r) ← dec (A := hash32) r;
  '(n_hashes, r) ← read_bounded_len MAX_PROOF_HASHES r;
  '(hashes, r) ← dec_many (A := hash32) (Z.to_nat n_hashes) r;
  '(n_targets, r) ← read_bounded_len MAX_INPUTS_PER_BLOCK r;
  '(tgts, r) ← dec_many (A := varint) (Z.to_nat n_targets) r;
  '(n_leaf_data, r) ← read_bounded_len MAX_INPUTS_PER_BLOCK r;
  '(leaves, r) ← dec_many (A := CompactLeafData) (Z.to_nat n_leaf_data) r;
  Ok (mkUtreexoProof (h32_val block_hash) (map (fun h => SomeHash (h32_val h)) hashes)
        (map varint_val tgts) leaves, r).

(** The message as it is on the wire. *)
Definition utreexo_proof_wire (block_hash : Z) (hashes tgts : list Z) (leaves : list CompactLeafData)
  : list Z :=
  enc (H32 block_hash) ++
  enc (VarInt (Z.of_nat (length hashes))) ++ (map H32 hashes ≫= enc) ++
  enc (VarInt (Z.of_nat (length tgts))) ++ (map VarInt tgts ≫= enc) ++
  enc (VarInt (Z.of_nat (length leaves))) ++ (leaves ≫= enc).

(** ** Decoding *)

Definition is_vec (l : list Z) : Prop := Z.of_nat (length l) <= 4000000 /\ Forall is_byte l.
Definition leaf_wf (l : CompactLeafData) : Prop :=
  is_u32 (header_code l) /\ is_u64 (amount l) /\
  match spk_ty l with OtherKind script => is_vec script | _ => True end.

Context `{!CodecOk (list Z) is_vec, !CodecOk varint (fun v => is_u64 (varint_val v))}.

Lemma spk_roundtrip k rest :
  match k with OtherKind script => is_vec script | _ => True end ->
  spk_dec (spk_enc k ++ rest) = Ok (k, rest).
Proof.
  intros Hk. unfold spk_dec. destruct k; cbn [spk_enc]; rewrite <-?app_assoc;
    (rewrite dec_enc by (cbn; lia)); cbn [mbind outcome_bind u8_val]; try done.
  cbn. by rewrite dec_enc.
Qed.

#[local] Instance leaf_codec_ok : CodecOk CompactLeafData leaf_wf.
Proof.
  intros [code amt ty] rest (Hc & Ha & Ht). cbn [enc dec leaf_codec header_code amount spk_ty] in *.
  rewrite <-!app_assoc.
  rewrite (dec_enc (A := u32)) by exact Hc. cbn [mbind outcome_bind].
  rewrite (dec_enc (A := u64)) by exact Ha. cbn [mbind outcome_bind].
  by rewrite spk_roundtrip.
Qed.

Lemma bounded_len_ok n max rest : 0 <= n <= max -> max <= u64_max ->
  read_bounded_len max (enc (VarInt n) ++ rest) = Ok (n, rest).
Proof.
  intros Hn Hm. unfold read_bounded_len. rewrite dec_enc by (unfold is_u64; cbn; lia).
  cbn [mbind outcome_bind varint_val]. by rewrite (proj2 (Z.ltb_ge _ _)) by lia.
Qed.

(** A proof within the bounds is decoded to the block hash, hashes, targets and leaves
    that are on the wire, and nothing of the rest is consumed. *)
Theorem utreexo_proof_decoded (block_hash : Z) (hashes tgts : list Z) (leaves : list CompactLeafData)
  (rest : list Z)
  (Hb : 0 <= block_hash < 256 ^ 32) (Hh : Forall (fun h => 0 <= h < 256 ^ 32) hashes)
  (Ht : Forall is_u64 tgts) (Hl : Forall leaf_wf leaves)
  (Nh : Z.of_nat (length hashes) <= MAX_PROOF_HASHES)
  (Nt : Z.of_nat (length tgts) <= MAX_INPUTS_PER_BLOCK)
  (Nl : Z.of_nat (length leaves) <= MAX_INPUTS_PER_BLOCK) :
  utreexo_proof_dec (utreexo_proof_wire block_hash hashes tgts leaves ++ rest) =
    Ok (mkUtreexoProof block_hash (map SomeHash hashes) tgts leaves, rest).
Proof.
  unfold utreexo_proof_dec, utreexo_proof_wire. rewrite <-!app_assoc.
  rewrite (dec_enc (A := hash32)) by exact Hb. cbn [mbind outcome_bind].
  rewrite bounded_len_ok by (unfold MAX_PROOF_HASHES, MAX_INPUTS_PER_BLOCK, MAX_TREE_DEPTH, u64_max in *; lia).
  cbn [mbind outcome_bind]. rewrite Nat2Z.id, <-(length_map H32 hashes).
  rewrite (dec_many_ok (fun a => 0 <= h32_val a < 256 ^ 32)) by (apply Forall_map; exact Hh).
  cbn [mbind outcome_bind].
  rewrite bounded_len_ok by (unfold MAX_INPUTS_PER_BLOCK, u64_max in *; lia).
  cbn [mbind outcome_bind]. rewrite Nat2Z.id, <-(length_map VarInt tgts).
  rewrite (dec_many_ok (fun v => is_u64 (varint_val v))) by (apply Forall_map; exact Ht).
  cbn [mbind outcome_bind].
  rewrite bounded_len_ok by (unfold MAX_INPUTS_PER_BLOCK, u64_max in *; lia).
  cbn [mbind outcome_bind]. rewrite Nat2Z.id, (dec_many_ok leaf_wf) by exact Hl.
  cbn [mbind outcome_bind h32_val]. rewrite !map_map. cbn. by rewrite map_id.
Qed.
End Messages.

(** ** Bitmaps hold the requests *)

(** The bytes of a bitmap of the requests [bs]. *)
Record bitmap_of (b : Bitmap) (bs : list bool) : Prop := {
  bo_len : n_inputs b = Z.of_nat (length bs);
  bo_bytes : length (bm_bytes b) = Nat.div (length bs + 7) 8;
  bo_byte : Forall is_byte (bm_bytes b);
  bo_bit : forall i x k, bm_bytes b !! i = Some x -> 0 <= k < 8 ->
    Z.testbit x k = default false (bs !! (8 * i + Z.to_nat k)%nat)
}.

Lemma testbit_small x k : is_byte x -> 8 <= k -> Z.testbit x k = false.
Proof.
  intros [H0 H1] Hk. destruct (Z.eq_dec x 0) as [->|Hx]; [apply Z.bits_0|].
  apply Z.bits_above_log2; [lia|]. assert (Z.log2 x < 8); [|lia]. apply Z.log2_lt_pow2; lia.
Qed.

(** Setting a bit of a byte. *)
Lemma set_bit_byte x o : is_byte x -> 0 <= o < 8 -> is_byte (Z.lor x (Z.shiftl 1 o)).
Proof.
  intros [H0 H1] Ho. assert (Hs : 0 < Z.shiftl 1 o < 256).
  { rewrite Z.shiftl_1_l. split; [apply Z.pow_pos_nonneg; lia|]. change 256 with (2 ^ 8).
    apply Z.pow_lt_mono_r; lia. }
  assert (Hn : 0 <= Z.lor x (Z.shiftl 1 o)) by (apply Z.lor_nonneg; lia).
  split; [done|]. destruct (Z.eq_dec (Z.lor x (Z.shiftl 1 o)) 0) as [->|Hne]; [lia|].
  change 256 with (2 ^ 8). apply Z.log2_lt_pow2; [lia|]. rewrite Z.log2_lor by lia.
  apply Z.max_lub_lt.
  - destruct (Z.eq_dec x 0) as [->|]; [done|]. apply Z.log2_lt_pow2; lia.
  - apply Z.log2_lt_pow2; [lia|]. change (2 ^ 8) with 256. lia.
Qed.

Section Push.
Context {E : Type} (b : Bitmap) (bs : list bool) (r : bool).
Context (Hb : bitmap_of b bs) (Hlen : Z.of_nat (length bs) < u32_max).

Let q := Nat.div (length bs) 8.
Let o := Nat.modulo (length bs) 8.

Lemma length_split : length bs = (8 * q + o)%nat /\ (o < 8)%nat.
Proof. split; [apply Nat.div_mod_eq|apply Nat.mod_upper_bound; lia]. Qed.

Lemma bytes_before : length (bm_bytes b) = (q + if (o =? 0)%nat then 0 else 1)%nat.
Proof.
  destruct length_split as [Hl Ho]. rewrite (bo_bytes _ _ Hb), Hl.
  destruct (Nat.eqb_spec o 0) as [->|Hne]; symmetry.
  - apply (Nat.div_unique _ 8 _ 7); lia.
  - apply (Nat.div_unique _ 8 _ (o - 1)); lia.
Qed.

(** The bits of the new list are those of the old one and the new bit. *)
Lemma snoc_bit n :
  default false ((bs ++ [r]) !! n) = if (n =? length bs)%nat then r else default false (bs !! n).
Proof.
  destruct (Nat.eqb_spec n (length bs)) as [->|Hne].
  - by rewrite lookup_app_r, Nat.sub_diag by lia.
  - destruct (decide (n < length bs)%nat); [by rewrite lookup_app_l|].
    rewrite !lookup_ge_None_2; [done|lia|rewrite length_app; cbn; lia].
Qed.

Lemma push_first : o = 0%nat ->
  bitmap_of (mkBitmap (bm_bytes b ++ [Z.b2z r]) (Z.of_nat (length bs) + 1)) (bs ++ [r]).
Proof.
  intros Ho. destruct length_split as [Hl _]. pose proof bytes_before as Hn. rewrite Ho in Hl, Hn.
  rewrite Nat.eqb_refl in Hn. rewrite Nat.add_0_r in Hl, Hn. clearbody q o.
  split; cbn [bm_bytes n_inputs].
  - rewrite length_app. cbn. lia.
  - rewrite !length_app. cbn [length]. rewrite Hn, Hl. apply (Nat.div_unique _ 8 _ 0); lia.
  - apply Forall_app. split; [apply Hb|]. repeat constructor; destruct r; cbn; unfold is_byte; lia.
  - intros i x k [Hi|[Hi Hx]]%lookup_app_Some Hk; rewrite snoc_bit.
    + pose proof (lookup_lt_Some _ _ _ Hi). rewrite (proj2 (Nat.eqb_neq _ _)) by lia.
      by apply (bo_bit _ _ Hb).
    + apply list_lookup_singleton_Some in Hx as [Hi0 <-]. destruct (Z.eq_dec k 0) as [->|Hk0].
      * rewrite (proj2 (Nat.eqb_eq _ _)) by lia. by destruct r.
      * rewrite (proj2 (Nat.eqb_neq _ _)), lookup_ge_None_2 by lia. cbn.
        destruct r; cbn [Z.b2z]; [|apply Z.bits_0]. change 1 with (2 ^ 0).
        apply Z.pow2_bits_false. lia.
Qed.

Lemma push_later x : o <> 0%nat -> bm_bytes b !! q = Some x ->
  bitmap_of (mkBitmap (if r then <[q := Z.lor x (Z.shiftl 1 (Z.of_nat o))]> (bm_bytes b) else bm_bytes b)
    (Z.of_nat (length bs) + 1)) (bs ++ [r]).
Proof.
  intros Ho Hx. destruct length_split as [Hl Ho8]. pose proof bytes_before as Hn.
  rewrite (proj2 (Nat.eqb_neq _ _) Ho) in Hn.
  assert (Hbx : is_byte x) by (by apply (Forall_lookup_1 _ _ _ _ (bo_byte _ _ Hb) Hx)).
  split; cbn [bm_bytes n_inputs].
  - rewrite length_app. cbn. lia.
  - assert (length (bm_bytes b) = Nat.div (length (bs ++ [r]) + 7) 8).
    { rewrite Hn, length_app, Hl. cbn [length]. apply (Nat.div_unique _ 8 _ o); lia. }
    destruct r; rewrite ?length_insert; done.
  - destruct r; [|apply Hb]. apply Forall_insert; [apply Hb|]. apply set_bit_byte; [done|lia].
  - intros i y k Hy Hk. rewrite snoc_bit.
    assert (Hold : forall z, bm_bytes b !! i = Some z ->
              Z.testbit z k = default false (bs !! (8 * i + Z.to_nat k)%nat))
      by (intros z Hz; by apply (bo_bit _ _ Hb)).
    destruct (Nat.eqb_spec (8 * i + Z.to_nat k) (length bs)) as [Heq|Hne].
    + assert (i = q /\ Z.to_nat k = o) as [-> Hko] by lia.
      assert (Hxk : Z.testbit x k = false) by (rewrite (Hold x Hx), Heq; by rewrite lookup_ge_None_2).
      destruct r; [|congruence]. rewrite list_lookup_insert_eq in Hy by (by apply lookup_lt_Some in Hx).
      injection Hy as <-. assert (k = Z.of_nat o) as -> by lia.
      by rewrite Z.lor_spec, Z.shiftl_1_l, Z.pow2_bits_true, orb_true_r by lia.
    + destruct r; [|by apply Hold]. destruct (decide (i = q)) as [->|Hiq].
      * rewrite list_lookup_insert_eq in Hy by (by apply lookup_lt_Some in Hx).
        injection Hy as <-. rewrite Z.lor_spec, (Hold x Hx).
        rewrite Z.shiftl_1_l, Z.pow2_bits_false, orb_false_r by lia. done.
      * rewrite list_lookup_insert_ne in Hy by done. by apply Hold.
Qed.

Lemma push_input_ok : exists b', push_input (E := E) b r = Ok b' /\ bitmap_of b' (bs ++ [r]).
Proof.
  destruct length_split as [Hl Ho8]. pose proof bytes_before as Hn.
  assert (Hmod : n_inputs b mod 8 = Z.of_nat o).
  { rewrite (bo_len _ _ Hb). unfold o. by rewrite Nat2Z.inj_mod. }
  unfold push_input. rewrite Hmod, (bo_len _ _ Hb). unfold u32_add.
  rewrite (proj2 (Z.leb_le _ _)) by lia. cbn [mbind outcome_bind].
  destruct (Z.eqb_spec (Z.of_nat o) 0) as [Ho|Ho].
  { eexists. split; [done|]. apply push_first. lia. }
  rewrite (proj2 (Nat.eqb_neq _ _)) in Hn by lia.
  destruct (lookup_lt_is_Some_2 (bm_bytes b) q) as [x Hx]; [lia|].
  pose proof (push_later x ltac:(lia) Hx) as Hp. rewrite last_lookup.
  replace (pred (length (bm_bytes b))) with q by lia. rewrite Hx.
  destruct r; eexists; (split; [done|exact Hp]).
Qed.
End Push.

(** The bitmap built by pushing requests holds them: it has one byte per eight requests,
    rounded up, bit k of byte i is request 8 i + k, and the unused bits of the last byte
    are zero. *)
Theorem bitmap_holds_requests {E} (bs : list bool) (Hlen : Z.of_nat (length bs) <= u32_max) :
  exists b, fold_loop (E := E) push_input bitmap_new bs = Ok b /\ bitmap_of b bs.
Proof.
  assert (Hg : forall rest pre b, Z.of_nat (length (pre ++ rest)) <= u32_max -> bitmap_of b pre ->
            exists b', fold_loop (E := E) push_input b rest = Ok b' /\ bitmap_of b' (pre ++ rest)).
  { induction rest as [|r rest IH]; intros pre b Hl Hb; [rewrite app_nil_r; by exists b|].
    rewrite length_app in Hl. cbn [length] in Hl.
    destruct (push_input_ok (E := E) b pre r Hb) as (b1 & E1 & Hb1); [lia|].
    destruct (IH (pre ++ [r]) b1) as (b2 & E2 & Hb2); [rewrite !length_app; cbn [length]; lia|done|].
    exists b2. cbn [fold_loop]. rewrite E1. cbn [mbind outcome_bind]. split; [done|].
    by rewrite <-app_assoc in Hb2. }
  apply (Hg bs [] bitmap_new Hlen). split; cbn; try done.
Qed.
