(* ===== verification/Descriptors.v ===== *)
(** Extended public keys and output descriptors of the watch-only wallet
    ([src/crates/floresta-watch-only/src/descriptor/]): the SLIP-132 prefixes,
    the descriptors made from a key, and the derivation of scripts. *)

From stdpp Require Import base list strings.
From Stdlib Require Import ZArith Lia.
From S2P Require Import Prelude Bitcoin.

(** What the code uses of rust-bitcoin and miniscript.  A failure carries the
    text of the error. *)
Class DescriptorLib := {
  (** [base58::decode_check]: the data without the checksum. *)
  base58_decode_check : string -> string + list Z;
  Xpub : Type;
  xpub_decode : list Z -> string + Xpub;
  xpub_to_string : Xpub -> string;
  Descriptor : Type;
  descriptor_from_str : string -> string + Descriptor;
  descriptor_to_string : Descriptor -> string;
  sanity_check : Descriptor -> string + unit;
  into_single_descriptors : Descriptor -> string + list Descriptor;
  descriptor_has_wildcard : Descriptor -> bool;
  (** [at_derivation_index(i)?.script_pubkey()]. *)
  at_derivation_index : Descriptor -> Z -> string + Script
}.

(** * SLIP-132 *)

Definition VERSION_MAGIC_XPUB : list Z := [0x04; 0x88; 0xB2; 0x1E].
Definition VERSION_MAGIC_XPRV : list Z := [0x04; 0x88; 0xAD; 0xE4].
Definition VERSION_MAGIC_YPUB : list Z := [0x04; 0x9D; 0x7C; 0xB2].
Definition VERSION_MAGIC_YPRV : list Z := [0x04; 0x9D; 0x78; 0x78].
Definition VERSION_MAGIC_ZPUB : list Z := [0x04; 0xB2; 0x47; 0x46].
Definition VERSION_MAGIC_ZPRV : list Z := [0x04; 0xB2; 0x43; 0x0C].
Definition VERSION_MAGIC_YPUB_MULTISIG : list Z := [0x02; 0x95; 0xB4; 0x3F].
Definition VERSION_MAGIC_YPRV_MULTISIG : list Z := [0x02; 0x95; 0xB0; 0x05].
Definition VERSION_MAGIC_ZPUB_MULTISIG : list Z := [0x02; 0xAA; 0x7E; 0xD3].
Definition VERSION_MAGIC_ZPRV_MULTISIG : list Z := [0x02; 0xAA; 0x7A; 0x99].
Definition VERSION_MAGIC_TPUB : list Z := [0x04; 0x35; 0x87; 0xCF].
Definition VERSION_MAGIC_TPRV : list Z := [0x04; 0x35; 0x83; 0x94].
Definition VERSION_MAGIC_UPUB : list Z := [0x04; 0x4A; 0x52; 0x62].
Definition VERSION_MAGIC_UPRV : list Z := [0x04; 0x4A; 0x4E; 0x28].
Definition VERSION_MAGIC_VPUB : list Z := [0x04; 0x5F; 0x1C; 0xF6].
Definition VERSION_MAGIC_VPRV : list Z := [0x04; 0x5F; 0x18; 0xBC].
Definition VERSION_MAGIC_UPUB_MULTISIG : list Z := [0x02; 0x42; 0x89; 0xEF].
Definition VERSION_MAGIC_UPRV_MULTISIG : list Z := [0x02; 0x42; 0x85; 0xB5].
Definition VERSION_MAGIC_VPUB_MULTISIG : list Z := [0x02; 0x57; 0x54; 0x83].
Definition VERSION_MAGIC_VPRV_MULTISIG : list Z := [0x02; 0x57; 0x50; 0x48].

(** [slip132::Error]. *)
Inductive Slip132Error :=
  | Base58 (e : string)
  | Bip32 (e : string)
  | UnknownSlip32Prefix
  | XprivUnsupported
  | XpubMultisigUnsupported.

Inductive DescriptorError :=
  | XpubParseError (e : Slip132Error)
  | XpubNetworkMismatch (key : string)
  | MiniscriptError (e : string)
  | DeriveDescriptorError (e : string).

(** A [?] on a library call. *)
Definition of_sum {E E' A} (f : E' -> E) (s : E' + A) : outcome E A :=
  match s with inl e => Err (f e) | inr a => Ok a end.

Section Descriptors.
Context `{DescriptorLib}.

Definition one_of (prefix : list Z) (magics : list (list Z)) : bool := bool_decide (prefix ∈ magics).

Definition validate_slip132_prefix (prefix : list Z) : outcome Slip132Error unit :=
  if one_of prefix [VERSION_MAGIC_XPUB; VERSION_MAGIC_YPUB; VERSION_MAGIC_ZPUB; VERSION_MAGIC_TPUB;
                    VERSION_MAGIC_UPUB; VERSION_MAGIC_VPUB] then Ok tt
  else if one_of prefix [VERSION_MAGIC_XPRV; VERSION_MAGIC_YPRV; VERSION_MAGIC_ZPRV; VERSION_MAGIC_TPRV;
                         VERSION_MAGIC_UPRV; VERSION_MAGIC_VPRV] then Err XprivUnsupported
  else if one_of prefix [VERSION_MAGIC_YPUB_MULTISIG; VERSION_MAGIC_ZPUB_MULTISIG;
                         VERSION_MAGIC_UPUB_MULTISIG; VERSION_MAGIC_VPUB_MULTISIG;
                         VERSION_MAGIC_YPRV_MULTISIG; VERSION_MAGIC_ZPRV_MULTISIG;
                         VERSION_MAGIC_UPRV_MULTISIG; VERSION_MAGIC_VPRV_MULTISIG]
  then Err XpubMultisigUnsupported
  else Err UnknownSlip32Prefix.

(** The slice [data[0..4]] panics on shorter data. *)
Definition extract_slip132_prefix (s : string) : outcome Slip132Error (list Z) :=
  data ← of_sum Base58 (base58_decode_check s);
  prefix ← expect (if (4 <=? length data)%nat then Some (take 4 data) else None);
  _ ← validate_slip132_prefix prefix;
  Ok prefix.

Definition from_slip132_str (s : string) : outcome Slip132Error Xpub :=
  data ← of_sum Base58 (base58_decode_check s);
  prefix ← extract_slip132_prefix s;
  bip44_prefix ←
    (if one_of prefix [VERSION_MAGIC_XPUB; VERSION_MAGIC_YPUB; VERSION_MAGIC_ZPUB]
     then Ok VERSION_MAGIC_XPUB
     else if one_of prefix [VERSION_MAGIC_TPUB; VERSION_MAGIC_UPUB; VERSION_MAGIC_VPUB]
     then Ok VERSION_MAGIC_TPUB
     else Err UnknownSlip32Prefix);
  of_sum Bip32 (xpub_decode (bip44_prefix ++ drop 4 data)).

Definition generate_descriptor_from_xpub (s : string) (internal : bool) : outcome Slip132Error string :=
  let index := if internal then "1"%string else "0"%string in
  xpub ← from_slip132_str s;
  prefix ← extract_slip132_prefix s;
  let key := (xpub_to_string xpub +:+ "/" +:+ index +:+ "/*")%string in
  if one_of prefix [VERSION_MAGIC_XPUB; VERSION_MAGIC_TPUB] then Ok ("pkh(" +:+ key +:+ ")")%string
  else if one_of prefix [VERSION_MAGIC_YPUB; VERSION_MAGIC_UPUB]
  then Ok ("sh(wpkh(" +:+ key +:+ "))")%string
  else if one_of prefix [VERSION_MAGIC_ZPUB; VERSION_MAGIC_VPUB]
  then Ok ("wpkh(" +:+ key +:+ ")")%string
  else Err UnknownSlip32Prefix.

Definition is_xpub_mainnet (s : string) : outcome Slip132Error bool :=
  prefix ← extract_slip132_prefix s;
  if one_of prefix [VERSION_MAGIC_XPUB; VERSION_MAGIC_YPUB; VERSION_MAGIC_ZPUB] then Ok true
  else if one_of prefix [VERSION_MAGIC_TPUB; VERSION_MAGIC_UPUB; VERSION_MAGIC_VPUB] then Ok false
  else Err UnknownSlip32Prefix.

(** * Descriptors *)

Definition parse_xpub (xpub : string) (network : Network) : outcome DescriptorError (list string) :=
  xpub_is_mainnet ← map_err XpubParseError (is_xpub_mainnet xpub);
  let net_is_test := negb (bool_decide (network = Bitcoin)) in
  _ ← err_if ((xpub_is_mainnet && net_is_test) || (negb xpub_is_mainnet && negb net_is_test))
        (XpubNetworkMismatch xpub);
  external_desc ← map_err XpubParseError (generate_descriptor_from_xpub xpub false);
  internal_desc ← map_err XpubParseError (generate_descriptor_from_xpub xpub true);
  external_d ← of_sum MiniscriptError (descriptor_from_str external_desc);
  internal_d ← of_sum MiniscriptError (descriptor_from_str internal_desc);
  Ok [descriptor_to_string external_d; descriptor_to_string internal_d].

Definition parse_and_split_descriptor (descriptor : string) : outcome DescriptorError (list Descriptor) :=
  d ← of_sum MiniscriptError (descriptor_from_str descriptor);
  _ ← of_sum MiniscriptError (sanity_check d);
  of_sum MiniscriptError (into_single_descriptors d).

Definition has_wildcard (descriptor : string) : outcome DescriptorError bool :=
  d ← of_sum MiniscriptError (descriptor_from_str descriptor);
  Ok (descriptor_has_wildcard d).

(** The loop over [index..index + quantity]. *)
Fixpoint derive_loop (d : Descriptor) (i : Z) (n : nat) : outcome DescriptorError (list Script) :=
  match n with
  | O => Ok []
  | S n' =>
      address ← of_sum DeriveDescriptorError (at_derivation_index d i);
      rest ← derive_loop d (i + 1) n';
      Ok (address :: rest)
  end.

Definition derive_addresses_from_parsed_descriptor (d : Descriptor) (index quantity : Z)
  : outcome DescriptorError (list Script) :=
  stop ← u32_add index quantity;
  derive_loop d index (Z.to_nat (stop - index)).

Fixpoint derive_paths (ds : list Descriptor) (index quantity : Z)
  : outcome DescriptorError (list Script) :=
  match ds with
  | [] => Ok []
  | d :: rest =>
      a ← derive_addresses_from_parsed_descriptor d index quantity;
      b ← derive_paths rest index quantity;
      Ok (a ++ b)
  end.

Definition derive_addresses_from_descriptor (descriptor : string) (index quantity : Z)
  : outcome DescriptorError (list Script) :=
  descriptors ← parse_and_split_descriptor descriptor;
  derive_paths descriptors index quantity.
End Descriptors.
