(* ===== verification/Wallet.v ===== *)
(** The watch-only wallet ([src/crates/floresta-watch-only/src/lib.rs]): the
    cache of addresses, their transactions and unspent outputs, the derivation
    of addresses from descriptors, and the database behind it. *)

From stdpp Require Import base gmap list strings.
From Stdlib Require Import ZArith Lia.
From S2P Require Import Prelude Bitcoin Codec Merkle Descriptors.

Definition DERIVATION_COUNT : Z := 100.
Definition GAP_LIMIT : Z := 20.
Definition INDEX_INITIAL : Z := 0.

(** SHA-256, of bitcoin_hashes. *)
Class Sha256Lib := { sha256 : list Z -> Z }.

(** [get_spk_hash] ([src/crates/floresta-common/src/lib.rs]). *)
Definition get_spk_hash `{Sha256Lib} (spk : Script) : Z := le_int (rev (to_byte_array (sha256 spk))).
Arguments get_spk_hash : simpl never.

(** * Data *)

Record CachedTransaction := mkCachedTx {
  ct_tx : Transaction;
  ct_height : Z;
  ct_merkle_block : option MerkleProof;
  ct_hash : Txid;
  ct_position : Z
}.

Record CachedAddress := mkCachedAddress {
  ca_script_hash : Z;
  ca_balance : Z;
  ca_script : Script;
  ca_transactions : list Txid;
  ca_utxos : list OutPoint
}.

Record Stats := mkStats {
  address_count : Z;
  transaction_count : Z;
  st_utxo_count : Z;
  cache_height : Z;
  txo_count : Z;
  st_balance : Z;
  derivation_index : Z
}.
Definition stats_default : Stats := mkStats 0 0 0 0 0 0 0.
Definition set_derivation_index (i : Z) (s : Stats) : Stats :=
  mkStats (address_count s) (transaction_count s) (st_utxo_count s) (cache_height s) (txo_count s)
    (st_balance s) i.

(** [Ord for CachedTransaction]; ids are compared as byte arrays. *)
Definition txid_key (h : Txid) : Z := be_int (to_byte_array h).
Definition cached_tx_cmp (a b : CachedTransaction) : comparison :=
  match ct_height a ?= ct_height b with
  | Eq => match ct_position a ?= ct_position b with
          | Eq => txid_key (ct_hash a) ?= txid_key (ct_hash b)
          | c => c
          end
  | c => c
  end.

(** [Vec::sort], a stable sort by the order of the elements. *)
Definition cached_tx_leb (a b : CachedTransaction) : bool :=
  match cached_tx_cmp a b with Gt => false | _ => true end.
Fixpoint insert_tx (t : CachedTransaction) (l : list CachedTransaction) : list CachedTransaction :=
  match l with
  | [] => [t]
  | x :: rest => if cached_tx_leb t x then t :: l else x :: insert_tx t rest
  end.
Definition sort_txs (l : list CachedTransaction) : list CachedTransaction := foldr insert_tx [] l.

(** * The database *)

(** [trait AddressCacheDatabase]; [load] and [list_transactions] give their
    entries in an order of their own. *)
Class AddressCacheDatabase (D : Type) := {
  DbError : Type;
  db_save : CachedAddress -> stm D DbError unit;
  db_load : D -> outcome DbError (list CachedAddress);
  db_get_stats : D -> outcome DbError Stats;
  db_save_stats : Stats -> stm D DbError unit;
  db_update : CachedAddress -> stm D DbError unit;
  db_get_cache_height : D -> outcome DbError Z;
  db_set_cache_height : Z -> stm D DbError unit;
  db_save_descriptor : string -> stm D DbError unit;
  db_get_descriptors : D -> outcome DbError (list string);
  db_get_transaction : Txid -> D -> outcome DbError CachedTransaction;
  db_save_transaction : CachedTransaction -> stm D DbError unit;
  db_list_transactions : D -> outcome DbError (list Txid)
}.

(** [WatchOnlyError] ([src/crates/floresta-domain/src/wallet/error.rs]), with
    the error in place of its text; locks are never poisoned. *)
Inductive WatchOnlyError (DbE : Type) :=
  | DatabaseError (e : DbE)
  | DuplicateDescriptor (descriptor : string)
  | InvalidDescriptor (e : DescriptorError)
  | InternalError.
Arguments DatabaseError {DbE} e.
Arguments DuplicateDescriptor {DbE} descriptor.
Arguments InvalidDescriptor {DbE} e.
Arguments InternalError {DbE}.

(** * The cache *)

Record AddressCacheInner (D : Type) := mkInner {
  database : D;
  address_map : gmap Z CachedAddress;
  script_set : gset Z;
  utxo_index : gmap OutPoint Z;
  derived_index : gmap Z Z
}.
Arguments mkInner {D}.
Arguments database {D}.
Arguments address_map {D}.
Arguments script_set {D}.
Arguments utxo_index {D}.
Arguments derived_index {D}.

Section Inner.
Context `{TxLib, Sha256Lib, DescriptorLib} {D : Type} `{!AddressCacheDatabase D}.

Abbreviation Inner := (AddressCacheInner D) (only parsing).
Abbreviation Err' := (WatchOnlyError DbError) (only parsing).

Definition set_database (d : D) (w : Inner) : Inner :=
  mkInner d (address_map w) (script_set w) (utxo_index w) (derived_index w).
Definition set_address (h : Z) (a : CachedAddress) (w : Inner) : Inner :=
  mkInner (database w) (<[h := a]> (address_map w)) (script_set w) (utxo_index w) (derived_index w).
Definition watch (h : Z) (w : Inner) : Inner :=
  mkInner (database w) (address_map w) ({[h]} ∪ script_set w) (utxo_index w) (derived_index w).
Definition set_utxos (u : gmap OutPoint Z) (w : Inner) : Inner :=
  mkInner (database w) (address_map w) (script_set w) u (derived_index w).
Definition set_derived (h i : Z) (w : Inner) : Inner :=
  mkInner (database w) (address_map w) (script_set w) (utxo_index w) (<[h := i]> (derived_index w)).

(** A call of the database whose error is returned with [?], and one whose
    error is unwrapped. *)
Definition on_db {A} (m : stm D DbError A) : stm Inner Err' A := fun w =>
  let '(o, d) := m (database w) in (map_err DatabaseError o, set_database d w).
Definition expect_ok {E E' A} (o : outcome E A) : outcome E' A :=
  match o with Ok a => Ok a | Diverge => Diverge | _ => Panic end.
Definition on_db_expect {E A} (m : stm D DbError A) : stm Inner E A := fun w =>
  let '(o, d) := m (database w) in (expect_ok o, set_database d w).

Definition get_transaction (txid : Txid) (w : Inner) : option CachedTransaction :=
  ok_opt (db_get_transaction txid (database w)).

Definition new_address (h : Z) (script : Script) : CachedAddress := mkCachedAddress h 0 script [] [].

Definition cache_address {E} (script_pk : Script) : stm Inner E unit :=
  let hash := get_spk_hash script_pk in
  w ← gets Ok;
  match address_map w !! hash with
  | Some _ => mret tt
  | None =>
      let new := new_address hash script_pk in
      _ ← on_db_expect (db_save new);
      _ ← modify (set_address hash new);
      modify (watch hash)
  end.

(** ** Derivation *)

(** The scripts of a descriptor without wildcard. *)
Fixpoint cache_plain {E} (scripts : list Script) : stm Inner E (list Script) :=
  match scripts with
  | [] => mret []
  | script :: rest =>
      _ ← cache_address script;
      derived ← cache_plain rest;
      mret (script :: derived)
  end.

(** The scripts of a descriptor with wildcard; [position] is the index in the
    whole list. *)
Fixpoint cache_derived {E} (start count position : Z) (scripts : list Script) : stm Inner E (list Script) :=
  match scripts with
  | [] => mret []
  | script :: rest =>
      index ← lift (u32_add start (position mod count));
      _ ← modify (set_derived (get_spk_hash script) index);
      _ ← cache_address script;
      derived ← cache_derived start count (position + 1) rest;
      mret (script :: derived)
  end.

Fixpoint derive_range (descriptors : list string) (start count : Z) : stm Inner DescriptorError (list Script) :=
  match descriptors with
  | [] => mret []
  | descriptor :: rest =>
      wild ← lift (has_wildcard descriptor);
      derived ←
        (if (wild : bool) then
           scripts ← lift (derive_addresses_from_descriptor descriptor start count);
           cache_derived start count 0 scripts
         else
           scripts ← lift (derive_addresses_from_descriptor descriptor INDEX_INITIAL 1);
           cache_plain scripts);
      more ← derive_range rest start count;
      mret (derived ++ more)
  end.

(** [?] on an error of the descriptors. *)
Definition desc_err {A} (m : stm Inner DescriptorError A) : stm Inner Err' A := fun w =>
  let '(o, w') := m w in (map_err InvalidDescriptor o, w').

Definition derive_addresses : stm Inner Err' unit :=
  stats ← on_db (gets db_get_stats);
  descriptors ← on_db (gets db_get_descriptors);
  _ ← desc_err (derive_range descriptors (derivation_index stats) DERIVATION_COUNT);
  index ← lift (u32_add (derivation_index stats) DERIVATION_COUNT);
  on_db (db_save_stats (set_derivation_index index stats)).

(** An error is logged. *)
Definition ignore_err {E E'} (m : stm Inner E unit) : stm Inner E' unit := fun w =>
  match m w with
  | (Ok _, w') | (Err _, w') => (Ok tt, w')
  | (Panic, w') => (Panic, w')
  | (Diverge, w') => (Diverge, w')
  end.

Definition maybe_derive_addresses {E} (hash : Z) : stm Inner E unit :=
  w ← gets Ok;
  match derived_index w !! hash with
  | None => mret tt
  | Some index =>
      stats ← on_db_expect (gets db_get_stats);
      limit ← lift (u32_add index GAP_LIMIT);
      if derivation_index stats <=? limit then ignore_err derive_addresses else mret tt
  end.

(** ** Start-up *)

(** The three maps filled from the stored addresses. *)
Definition index_utxos (a : CachedAddress) (u : gmap OutPoint Z) : gmap OutPoint Z :=
  foldl (fun u o => <[o := ca_script_hash a]> u) u (ca_utxos a).
Fixpoint load_addresses (l : list CachedAddress) (w : Inner) : Inner :=
  match l with
  | [] => w
  | a :: rest =>
      load_addresses rest
        (set_address (ca_script_hash a) a
          (watch (ca_script_hash a) (set_utxos (index_utxos a (utxo_index w)) w)))
  end.

Definition inner_new {E} (d : D) : outcome E Inner :=
  scripts ← expect_ok (db_load d);
  d ← (match db_get_stats d with
       | Err _ => let '(o, d') := db_save_stats stats_default d in _ ← expect_ok o; Ok d'
       | Ok _ => Ok d
       | Panic => Panic
       | Diverge => Diverge
       end);
  let w := load_addresses scripts (mkInner d ∅ ∅ ∅ ∅) in
  descriptors ← expect_ok (db_get_descriptors (database w));
  stats ← expect_ok (db_get_stats (database w));
  match descriptors with
  | [] => Ok w
  | _ =>
      let '(o, w) :=
        (stats ← (if derivation_index stats <? DERIVATION_COUNT then
                    let stats := set_derivation_index DERIVATION_COUNT stats in
                    _ ← on_db_expect (db_save_stats stats); mret stats
                  else mret stats);
         derive_range descriptors INDEX_INITIAL (derivation_index stats)) w in
      _ ← expect_ok o; Ok w
  end.

(** ** Transactions *)

(** A transaction that is not in the history of the address is added to it,
    and only then is the address written to the database. *)
Definition push_history {E} (hash : Z) (address : CachedAddress) (txid : Txid) : stm Inner E unit :=
  if bool_decide (txid ∈ ca_transactions address) then mret tt
  else
    let address := mkCachedAddress (ca_script_hash address) (ca_balance address) (ca_script address)
                     (ca_transactions address ++ [txid]) (ca_utxos address) in
    _ ← modify (set_address hash address);
    on_db_expect (db_update address).

Definition save_mempool_tx {E} (hash : Z) (tx : CachedTransaction) : stm Inner E unit :=
  w ← gets Ok;
  match address_map w !! hash with
  | None => mret tt
  | Some address =>
      push_history hash address (ct_hash tx)
  end.

(** The change of an address by a spend; the first matching output leaves the
    list and the index. *)
Definition spend_utxo {E} (value : Z) (index : nat) (tx : Transaction) (hash : Z) (address : CachedAddress)
  : stm Inner E CachedAddress :=
  _ ← lift (if value <=? ca_balance address then Ok tt else Panic);
  input ← lift (expect (tx_input tx !! index));
  let a := mkCachedAddress (ca_script_hash address) (ca_balance address - value) (ca_script address)
             (ca_transactions address) in
  match list_find (fun utxo => utxo = previous_output input) (ca_utxos address) with
  | Some (idx, utxo) =>
      let a := a (delete idx (ca_utxos address)) in
      _ ← modify (set_address hash a);
      _ ← modify (fun w => set_utxos (delete utxo (utxo_index w)) w);
      mret a
  | None =>
      let a := a (ca_utxos address) in
      _ ← modify (set_address hash a); mret a
  end.

Definition receive_utxo {E} (value : Z) (index : nat) (tx : Transaction) (hash : Z) (address : CachedAddress)
  : stm Inner E CachedAddress :=
  let utxo := mkOutPoint (compute_txid tx) (wrap32 (Z.of_nat index)) in
  _ ← modify (set_address hash (mkCachedAddress (ca_script_hash address) (ca_balance address)
        (ca_script address) (ca_transactions address) (ca_utxos address ++ [utxo])));
  _ ← modify (fun w => set_utxos (<[utxo := hash]> (utxo_index w)) w);
  balance ← lift (u64_add (ca_balance address) value);
  let a := mkCachedAddress (ca_script_hash address) balance (ca_script address)
             (ca_transactions address) (ca_utxos address ++ [utxo]) in
  _ ← modify (set_address hash a);
  mret a.

Definition save_non_mempool_tx {E} (tx : Transaction) (is_spend : bool) (value : Z) (index : nat) (hash : Z)
  (cached : CachedTransaction) : stm Inner E unit :=
  w ← gets Ok;
  match address_map w !! hash with
  | None => mret tt
  | Some address =>
      address ← (if is_spend then spend_utxo value index tx hash address
                 else receive_utxo value index tx hash address);
      push_history hash address (ct_hash cached)
  end.

(** The address of a hash that is not followed yet. *)
Definition follow {E} (tx : Transaction) (index : nat) (hash : Z) : stm Inner E unit :=
  w ← gets Ok;
  match address_map w !! hash with
  | Some _ => mret tt
  | None =>
      output ← lift (expect (tx_output tx !! index));
      let new := new_address hash (script_pubkey output) in
      _ ← on_db_expect (db_save new);
      _ ← modify (set_address hash new);
      modify (watch hash)
  end.

Definition cache_transaction {E} (tx : Transaction) (height value : Z) (merkle_block : MerkleProof)
  (position : Z) (index : nat) (is_spend : bool) (hash : Z) : stm Inner E unit :=
  let cached := mkCachedTx tx height (Some merkle_block) (compute_txid tx) position in
  _ ← on_db_expect (db_save_transaction cached);
  _ ← follow tx index hash;
  _ ← maybe_derive_addresses hash;
  if 0 <? height then save_non_mempool_tx tx is_spend value index hash cached
  else save_mempool_tx hash cached.

(** ** Blocks *)

Section Blocks.
Context `{!HashLib, !MerkleBackend} {E : Type}.

Definition block_input (block : Block) (height : Z) (position : nat) (tx : Transaction) (vin : nat)
  (txin : TxIn) : stm Inner E unit :=
  w ← gets Ok;
  match utxo_index w !! previous_output txin with
  | None => mret tt
  | Some script =>
      address ← lift (expect (address_map w !! script));
      prev ← lift (expect (get_transaction (op_txid (previous_output txin)) w));
      utxo ← lift (expect (tx_output (ct_tx prev) !! Z.to_nat (op_vout (previous_output txin))));
      merkle_block ← lift (expect_ok (from_block block (Z.of_nat position)));
      cache_transaction tx height (txo_value utxo) merkle_block (wrap32 (Z.of_nat position)) vin true
        (ca_script_hash address)
  end.

Fixpoint block_inputs (block : Block) (height : Z) (position : nat) (tx : Transaction) (vin : nat)
  (inputs : list TxIn) : stm Inner E unit :=
  match inputs with
  | [] => mret tt
  | txin :: rest =>
      _ ← block_input block height position tx vin txin;
      block_inputs block height position tx (S vin) rest
  end.

Definition block_output (block : Block) (height : Z) (position : nat) (tx : Transaction) (vout : nat)
  (output : TxOut) : stm Inner E (list (Transaction * TxOut)) :=
  let hash := get_spk_hash (script_pubkey output) in
  w ← gets Ok;
  if bool_decide (hash ∈ script_set w) then
    merkle_block ← lift (expect_ok (from_block block (Z.of_nat position)));
    _ ← cache_transaction tx height (txo_value output) merkle_block (wrap32 (Z.of_nat position)) vout false
          hash;
    mret [(tx, output)]
  else mret [].

Fixpoint block_outputs (block : Block) (height : Z) (position : nat) (tx : Transaction) (vout : nat)
  (outputs : list TxOut) : stm Inner E (list (Transaction * TxOut)) :=
  match outputs with
  | [] => mret []
  | output :: rest =>
      mine ← block_output block height position tx vout output;
      more ← block_outputs block height position tx (S vout) rest;
      mret (mine ++ more)
  end.

Fixpoint block_transactions (block : Block) (height : Z) (position : nat) (txs : list Transaction)
  : stm Inner E (list (Transaction * TxOut)) :=
  match txs with
  | [] => mret []
  | tx :: rest =>
      _ ← block_inputs block height position tx 0 (tx_input tx);
      mine ← block_outputs block height position tx 0 (tx_output tx);
      more ← block_transactions block height (S position) rest;
      mret (mine ++ more)
  end.

Definition block_process (block : Block) (height : Z) : stm Inner E (list (Transaction * TxOut)) :=
  block_transactions block height 0 (txdata block).
End Blocks.

(** ** Unconfirmed transactions *)

(** [MerkleProof::default]. *)
Definition merkle_proof_default : MerkleProof := mkMerkleProof all_zeros 0 [].

Fixpoint find_spend {E} (idx : nat) (inputs : list TxIn) (w : Inner) : outcome E (list (nat * TxOut)) :=
  match inputs with
  | [] => Ok []
  | input :: rest =>
      match utxo_index w !! previous_output input with
      | None => find_spend (S idx) rest w
      | Some _ =>
          prev_tx ← expect (get_transaction (op_txid (previous_output input)) w);
          out ← expect (tx_output (ct_tx prev_tx) !! Z.to_nat (op_vout (previous_output input)));
          spends ← find_spend (S idx) rest w;
          Ok ((idx, out) :: spends)
      end
  end.

Fixpoint mempool_spends {E} (tx : Transaction) (coins : list (nat * TxOut)) : stm Inner E unit :=
  match coins with
  | [] => mret tt
  | (idx, spend) :: rest =>
      script ← gets (fun w => expect (address_map w !! get_spk_hash (script_pubkey spend)));
      _ ← cache_transaction tx 0 (txo_value spend) merkle_proof_default 0 idx true (ca_script_hash script);
      mempool_spends tx rest
  end.

Fixpoint mempool_outputs {E} (tx : Transaction) (idx : nat) (outputs : list TxOut) : stm Inner E (list TxOut) :=
  match outputs with
  | [] => mret []
  | out :: rest =>
      let spk_hash := get_spk_hash (script_pubkey out) in
      w ← gets Ok;
      if bool_decide (spk_hash ∈ script_set w) then
        script ← lift (expect (address_map w !! spk_hash));
        _ ← cache_transaction tx 0 (txo_value out) merkle_proof_default 0 idx true (ca_script_hash script);
        coins ← mempool_outputs tx (S idx) rest;
        mret (out :: coins)
      else mempool_outputs tx (S idx) rest
  end.

Definition cache_mempool_transaction {E} (tx : Transaction) : stm Inner E (list TxOut) :=
  coins ← gets (find_spend 0 (tx_input tx));
  _ ← mempool_spends tx coins;
  outs ← mempool_outputs tx 0 (tx_output tx);
  mret (coins.*2 ++ outs).

Fixpoint unconfirmed_loop (txids : list Txid) (d : D) : outcome DbError (list Transaction) :=
  match txids with
  | [] => Ok []
  | txid :: rest =>
      tx ← db_get_transaction txid d;
      unconfirmed ← unconfirmed_loop rest d;
      Ok (if ct_height tx =? 0 then ct_tx tx :: unconfirmed else unconfirmed)
  end.

Definition find_unconfirmed (w : Inner) : outcome Err' (list Transaction) :=
  map_err DatabaseError
    (transactions ← db_list_transactions (database w); unconfirmed_loop transactions (database w)).

(** ** Queries *)

Fixpoint utxos_loop (utxos : list OutPoint) (w : Inner) : option (list (TxOut * OutPoint)) :=
  match utxos with
  | [] => Some []
  | utxo :: rest =>
      tx ← get_transaction (op_txid utxo) w;
      txout ← tx_output (ct_tx tx) !! Z.to_nat (op_vout utxo);
      more ← utxos_loop rest w;
      Some ((txout, utxo) :: more)
  end.
Definition get_address_utxos (script_hash : Z) (w : Inner) : option (list (TxOut * OutPoint)) :=
  address ← address_map w !! script_hash;
  utxos_loop (ca_utxos address) w.

Definition get_address_history (script_hash : Z) (w : Inner) : option (list CachedTransaction) :=
  cached_script ← address_map w !! script_hash;
  let transactions := omap (fun txid => get_transaction txid w) (ca_transactions cached_script) in
  let confirmed := filter (fun tx => ct_height tx <> 0) transactions in
  let unconfirmed := filter (fun tx => ct_height tx = 0) transactions in
  Some (sort_txs confirmed ++ unconfirmed).

Definition get_merkle_proof (txid : Txid) (w : Inner) : option MerkleProof :=
  tx ← get_transaction txid w; ct_merkle_block tx.

Definition get_utxo {E} (outpoint : OutPoint) (w : Inner) : outcome E (option TxOut) :=
  match utxo_index w !! outpoint with
  | None => Ok None
  | Some _ =>
      match get_transaction (op_txid outpoint) w with
      | None => Ok None
      | Some tx =>
          out ← expect (tx_output (ct_tx tx) !! Z.to_nat (op_vout outpoint)); Ok (Some out)
      end
  end.

Definition n_cached_addresses (w : Inner) : nat := size (address_map w).
Definition get_address_balance (script_hash : Z) (w : Inner) : option Z :=
  ca_balance <$> address_map w !! script_hash.
Definition get_cached_addresses (w : Inner) : list Script :=
  map (fun p => ca_script p.2) (map_to_list (address_map w)).
Definition is_address_cached (script_hash : Z) (w : Inner) : bool :=
  bool_decide (is_Some (address_map w !! script_hash)).
Definition get_position (txid : Txid) (w : Inner) : option Z := ct_position <$> get_transaction txid w.
Definition get_tx_height (txid : Txid) (w : Inner) : option Z := ct_height <$> get_transaction txid w.

(** ** The database's records *)

Definition wallet_setup : stm Inner Err' unit :=
  w ← gets Ok;
  match db_get_descriptors (database w) with
  | Err _ => on_db (db_set_cache_height 0)
  | Panic => lift Panic
  | Diverge => lift Diverge
  | Ok _ => mret tt
  end.

Definition bump_height (height : Z) : stm Inner Err' unit := on_db (db_set_cache_height height).
Definition get_cache_height (w : Inner) : outcome Err' Z :=
  match db_get_cache_height (database w) with
  | Ok h => Ok h
  | Err _ => Ok 0
  | Panic => Panic
  | Diverge => Diverge
  end.
Definition is_cached (desc : string) (w : Inner) : outcome Err' bool :=
  known_descs ← map_err DatabaseError (db_get_descriptors (database w));
  Ok (bool_decide (desc ∈ known_descs)).
Definition get_stats (w : Inner) : outcome Err' Stats := map_err DatabaseError (db_get_stats (database w)).
Definition get_descriptors (w : Inner) : outcome Err' (list string) :=
  map_err DatabaseError (db_get_descriptors (database w)).

Definition push_descriptor (descriptor : string) : stm Inner Err' (list Script) :=
  cached ← gets (is_cached descriptor);
  _ ← lift (err_if cached (DuplicateDescriptor descriptor));
  stats ← on_db (gets db_get_stats);
  let horizon := Z.max (derivation_index stats) DERIVATION_COUNT in
  address_descriptors ← desc_err (derive_range [descriptor] INDEX_INITIAL horizon);
  _ ← on_db (db_save_descriptor descriptor);
  _ ← on_db (db_save_stats (set_derivation_index horizon stats));
  mret address_descriptors.

Fixpoint push_descriptors (descriptors : list string) : stm Inner Err' unit :=
  match descriptors with
  | [] => mret tt
  | descriptor :: rest => _ ← push_descriptor descriptor; push_descriptors rest
  end.

Definition push_xpub (xpub : string) (network : Network) : stm Inner Err' unit :=
  descriptors ← lift (map_err InvalidDescriptor (parse_xpub xpub network));
  push_descriptors descriptors.
End Inner.
