(* ===== verification/WalletDb.v ===== *)
(** The databases of the watch-only wallet: what the cache relies on, as laws
    over a view of the stored records, and the two implementations
    ([memory_database.rs] and [kv_database.rs] of
    [src/crates/floresta-watch-only/src/]) that satisfy them. *)

From stdpp Require Import base gmap list strings fin_maps.
From Stdlib Require Import ZArith Lia.
From S2P Require Import Prelude Bitcoin Codec Merkle Descriptors Wallet.

(** * The interface *)

(** The records of a database. *)
Record DbView := mkView {
  v_addresses : gmap Z CachedAddress;
  v_transactions : gmap Txid CachedTransaction;
  v_stats : option Stats;
  v_height : option Z;
  v_descriptors : list string
}.
Definition put_address (a : CachedAddress) (v : DbView) : DbView :=
  mkView (<[ca_script_hash a := a]> (v_addresses v)) (v_transactions v) (v_stats v) (v_height v)
    (v_descriptors v).
Definition put_transaction (t : CachedTransaction) (v : DbView) : DbView :=
  mkView (v_addresses v) (<[ct_hash t := t]> (v_transactions v)) (v_stats v) (v_height v)
    (v_descriptors v).
Definition put_stats (s : Stats) (v : DbView) : DbView :=
  mkView (v_addresses v) (v_transactions v) (Some s) (v_height v) (v_descriptors v).
Definition put_height (h : Z) (v : DbView) : DbView :=
  mkView (v_addresses v) (v_transactions v) (v_stats v) (Some h) (v_descriptors v).
Definition put_descriptor (d : string) (v : DbView) : DbView :=
  mkView (v_addresses v) (v_transactions v) (v_stats v) (v_height v) (v_descriptors v ++ [d]).

(** A 32-byte hash. *)
Definition is_hash (h : Z) : Prop := 0 <= h < 256 ^ 32.

(** A write succeeds and the new database represents the new view. *)
Definition writes {D E} (rep : D -> DbView -> Prop) (m : stm D E unit) (d : D) (v : DbView) : Prop :=
  exists d', m d = (Ok tt, d') /\ rep d' v.

(** [d] represents [v]; [update] is for addresses that are stored, and a
    transaction is stored under its own id. *)
Class AddressCacheDatabaseOk `{TxLib} (D : Type) `{!AddressCacheDatabase D} := {
  db_rep : D -> DbView -> Prop;
  save_ok d v a : db_rep d v -> is_hash (ca_script_hash a) ->
    writes db_rep (db_save a) d (put_address a v);
  update_ok d v a : db_rep d v -> is_Some (v_addresses v !! ca_script_hash a) ->
    writes db_rep (db_update a) d (put_address a v);
  load_ok d v : db_rep d v ->
    exists l, db_load d = Ok l /\ l ≡ₚ (map_to_list (v_addresses v)).*2;
  get_stats_ok d v s : db_rep d v -> v_stats v = Some s -> db_get_stats d = Ok s;
  get_stats_missing d v : db_rep d v -> v_stats v = None -> exists e, db_get_stats d = Err e;
  save_stats_ok d v s : db_rep d v -> writes db_rep (db_save_stats s) d (put_stats s v);
  set_cache_height_ok d v h : db_rep d v -> is_u32 h -> writes db_rep (db_set_cache_height h) d (put_height h v);
  get_cache_height_ok d v h : db_rep d v -> v_height v = Some h -> db_get_cache_height d = Ok h;
  save_descriptor_ok d v s : db_rep d v -> writes db_rep (db_save_descriptor s) d (put_descriptor s v);
  get_descriptors_ok d v : db_rep d v -> db_get_descriptors d = Ok (v_descriptors v);
  get_transaction_ok d v x t : db_rep d v -> v_transactions v !! x = Some t -> db_get_transaction x d = Ok t;
  get_transaction_missing d v x : db_rep d v -> v_transactions v !! x = None ->
    exists e, db_get_transaction x d = Err e;
  save_transaction_ok d v t : db_rep d v -> compute_txid (ct_tx t) = ct_hash t ->
    writes db_rep (db_save_transaction t) d (put_transaction t v);
  list_transactions_ok d v : db_rep d v ->
    exists l, db_list_transactions d = Ok l /\ l ≡ₚ (map_to_list (v_transactions v)).*1
}.

(** * The in-memory database *)

Inductive MemoryDatabaseError := MemPoisonedLock.

Record MemoryDatabase := mkMemoryDb {
  md_addresses : gmap Z CachedAddress;
  md_transactions : gmap Txid CachedTransaction;
  md_stats : Stats;
  md_height : Z;
  md_descriptors : list string
}.
Definition memory_new : MemoryDatabase := mkMemoryDb ∅ ∅ stats_default 0 [].

(** The methods of the trait; the [and_modify] of [update] leaves an unknown
    address alone. *)
#[export] Instance memory_database : AddressCacheDatabase MemoryDatabase := {|
  DbError := MemoryDatabaseError;
  db_save a := modify (fun d => mkMemoryDb (<[ca_script_hash a := a]> (md_addresses d))
                 (md_transactions d) (md_stats d) (md_height d) (md_descriptors d));
  db_load d := Ok (map_to_list (md_addresses d)).*2;
  db_get_stats d := Ok (md_stats d);
  db_save_stats s := modify (fun d => mkMemoryDb (md_addresses d) (md_transactions d) s (md_height d)
                       (md_descriptors d));
  db_update a := modify (fun d => mkMemoryDb (alter (fun _ => a) (ca_script_hash a) (md_addresses d))
                   (md_transactions d) (md_stats d) (md_height d) (md_descriptors d));
  db_get_cache_height d := Ok (md_height d);
  db_set_cache_height h := modify (fun d => mkMemoryDb (md_addresses d) (md_transactions d) (md_stats d) h
                             (md_descriptors d));
  db_save_descriptor s := modify (fun d => mkMemoryDb (md_addresses d) (md_transactions d) (md_stats d)
                            (md_height d) (md_descriptors d ++ [s]));
  db_get_descriptors d := Ok (md_descriptors d);
  db_get_transaction x d := match md_transactions d !! x with Some t => Ok t | None => Err MemPoisonedLock end;
  db_save_transaction t := modify (fun d => mkMemoryDb (md_addresses d) (<[ct_hash t := t]> (md_transactions d))
                             (md_stats d) (md_height d) (md_descriptors d));
  db_list_transactions d := Ok (map_to_list (md_transactions d)).*1
|}.

Definition memory_view (d : MemoryDatabase) : DbView :=
  mkView (md_addresses d) (md_transactions d) (Some (md_stats d)) (Some (md_height d)) (md_descriptors d).

Section MemoryDatabase.
Context `{TxLib}.

Lemma alter_insert {A} (m : gmap Z A) k a : is_Some (m !! k) -> alter (fun _ => a) k m = <[k := a]> m.
Proof.
  intros [x Hx]. apply map_eq. intros i. destruct (decide (i = k)) as [->|Hne].
  - by rewrite lookup_alter_eq, Hx, lookup_insert_eq.
  - by rewrite lookup_alter_ne, lookup_insert_ne.
Qed.

#[export] Instance memory_database_ok : AddressCacheDatabaseOk MemoryDatabase.
Proof.
  refine {| db_rep d v := memory_view d = v |}.
  all: try (intros; subst; eexists; by split).
  all: try (intros; subst; by simplify_eq/=).
  - intros d v a <- Ha. eexists. split; [done|]. cbn in Ha. unfold memory_view, put_address. cbn.
    by rewrite alter_insert.
  - intros d v x t <- Hx. cbn in *. by rewrite Hx.
  - intros d v x <- Hx. cbn in *. rewrite Hx. by eexists.
Defined.
End MemoryDatabase.

(** * The key-value database *)

(** The hexadecimal text of a hash. *)
Class HashText := { hash_to_string : Z -> string }.
Class HashTextOk `{HashText} : Prop := {
  hash_to_string_inj : forall h1 h2, is_hash h1 -> is_hash h2 -> hash_to_string h1 = hash_to_string h2 -> h1 = h2;
  (** The text has 64 digits. *)
  hash_to_string_length : forall h, is_hash h -> String.length (hash_to_string h) = 64%nat
}.

Inductive KvDatabaseError :=
  | KvError (e : string)
  | SerdeJsonError (e : string)
  | WalletNotInitialized
  | DeserializeError (e : DecodeError)
  | TransactionNotFound.

(** The buckets of the store, whose reads and writes succeed: the default one
    with addresses, height and descriptors, the transactions by the bytes of
    their ids, and the stats. *)
Record KvDatabase := mkKv {
  kv_addresses : gmap string (list Z);
  kv_transactions : gmap Txid (list Z);
  kv_stats : gmap string (list Z)
}.
Definition kv_new : KvDatabase := mkKv ∅ ∅ ∅.

Section KvDatabase.
Context `{TxLib, HashText} `{!Json CachedAddress, !Json CachedTransaction, !Json Stats, !Json (list string)}.

Definition kv_set (k : string) (b : list Z) (d : KvDatabase) : KvDatabase :=
  mkKv (<[k := b]> (kv_addresses d)) (kv_transactions d) (kv_stats d).

Fixpoint load_items (items : list (string * list Z)) : outcome KvDatabaseError (list CachedAddress) :=
  match items with
  | [] => Ok []
  | (key, value) :: rest =>
      if bool_decide (key = "height"%string \/ key = "desc"%string) then load_items rest
      else
        address ← of_sum SerdeJsonError (from_slice value);
        addresses ← load_items rest;
        Ok (address :: addresses)
  end.

Definition kv_save (a : CachedAddress) : stm KvDatabase KvDatabaseError unit :=
  modify (kv_set (hash_to_string (ca_script_hash a)) (to_vec a)).

(** [bitcoin::consensus::deserialize] of a [u32], which takes all bytes. *)
Definition deserialize_u32 (b : list Z) : outcome DecodeError Z :=
  '(h, rest) ← dec (A := u32) b;
  match rest with
  | [] => Ok (u32_val h)
  | _ => Err (ParseFailed "data not consumed entirely when explicitly deserializing"%string)
  end.

Definition kv_get_cache_height (d : KvDatabase) : outcome KvDatabaseError Z :=
  match kv_addresses d !! "height"%string with
  | Some b => map_err DeserializeError (deserialize_u32 b)
  | None => Err WalletNotInitialized
  end.

Definition kv_get_descriptors (d : KvDatabase) : outcome KvDatabaseError (list string) :=
  match kv_addresses d !! "desc"%string with
  | Some b => of_sum SerdeJsonError (from_slice b)
  | None => Ok []
  end.

Definition kv_save_descriptor (s : string) : stm KvDatabase KvDatabaseError unit :=
  descriptors ← gets kv_get_descriptors;
  modify (kv_set "desc"%string (to_vec (descriptors ++ [s]))).

Definition kv_get_transaction (x : Txid) (d : KvDatabase) : outcome KvDatabaseError CachedTransaction :=
  match kv_transactions d !! x with
  | Some b => of_sum SerdeJsonError (from_slice b)
  | None => Err TransactionNotFound
  end.

Definition kv_save_transaction (t : CachedTransaction) : stm KvDatabase KvDatabaseError unit :=
  modify (fun d => mkKv (kv_addresses d) (<[compute_txid (ct_tx t) := to_vec t]> (kv_transactions d))
                     (kv_stats d)).

Definition kv_get_stats (d : KvDatabase) : outcome KvDatabaseError Stats :=
  match kv_stats d !! "stats"%string with
  | Some b => of_sum SerdeJsonError (from_slice b)
  | None => Err TransactionNotFound
  end.

Definition kv_save_stats (s : Stats) : stm KvDatabase KvDatabaseError unit :=
  modify (fun d => mkKv (kv_addresses d) (kv_transactions d) (<["stats"%string := to_vec s]> (kv_stats d))).

#[export] Instance kv_database : AddressCacheDatabase KvDatabase := {|
  DbError := KvDatabaseError;
  db_save := kv_save;
  db_load d := load_items (map_to_list (kv_addresses d));
  db_get_stats := kv_get_stats;
  db_save_stats := kv_save_stats;
  db_update := kv_save;
  db_get_cache_height := kv_get_cache_height;
  db_set_cache_height h := modify (kv_set "height"%string (enc (U32 h)));
  db_save_descriptor := kv_save_descriptor;
  db_get_descriptors := kv_get_descriptors;
  db_get_transaction := kv_get_transaction;
  db_save_transaction := kv_save_transaction;
  db_list_transactions d := Ok (map_to_list (kv_transactions d)).*1
|}.

(** ** The stored bytes represent the view *)

Context `{!HashTextOk} `{!JsonOk CachedAddress, !JsonOk CachedTransaction, !JsonOk Stats, !JsonOk (list string)}.

Record kv_rep (d : KvDatabase) (v : DbView) : Prop := {
  kr_address : forall h a, v_addresses v !! h = Some a ->
    ca_script_hash a = h /\ is_hash h /\ kv_addresses d !! hash_to_string h = Some (to_vec a);
  kr_key : forall k b, kv_addresses d !! k = Some b ->
    k = "height"%string \/ k = "desc"%string \/
    exists h a, v_addresses v !! h = Some a /\ k = hash_to_string h;
  kr_height : kv_addresses d !! "height"%string = (fun h => enc (U32 h)) <$> v_height v;
  kr_height_u32 : forall h, v_height v = Some h -> is_u32 h;
  kr_desc : match kv_addresses d !! "desc"%string with
            | Some b => b = to_vec (v_descriptors v)
            | None => v_descriptors v = []
            end;
  kr_transactions : kv_transactions d = to_vec <$> v_transactions v;
  kr_stats : kv_stats d !! "stats"%string = to_vec <$> v_stats v
}.

Lemma hash_is_no_name h : is_hash h -> hash_to_string h <> "height"%string /\ hash_to_string h <> "desc"%string.
Proof. intros Hh. pose proof (hash_to_string_length h Hh) as E. split; intros E'; by rewrite E' in E. Qed.

Lemma kv_save_rep d v a : kv_rep d v -> is_hash (ca_script_hash a) ->
  kv_rep (kv_set (hash_to_string (ca_script_hash a)) (to_vec a) d) (put_address a v).
Proof.
  intros [Ha Hk Hh Hu Hd Ht Hs] Hash. pose proof (hash_is_no_name _ Hash) as [N1 N2].
  split; cbn; try done; rewrite ?lookup_insert_ne by done; try done.
  - intros h x. destruct (decide (h = ca_script_hash a)) as [->|Hne].
    + rewrite !lookup_insert_eq. intros [= <-]. done.
    + rewrite lookup_insert_ne by done. intros Hx. destruct (Ha h x Hx) as (E & Hhash & Hl).
      split_and!; try done. rewrite lookup_insert_ne; [done|]. intros E'. by apply hash_to_string_inj in E'.
  - intros k b. destruct (decide (k = hash_to_string (ca_script_hash a))) as [->|Hne].
    + intros _. right. right. exists (ca_script_hash a), a. by rewrite lookup_insert_eq.
    + rewrite lookup_insert_ne by done. intros [->|[->|(h & x & Hx & ->)]]%Hk; auto.
      right. right. destruct (decide (h = ca_script_hash a)) as [->|Hn]; [done|]. exists h, x.
      by rewrite lookup_insert_ne.
Qed.

Lemma load_items_spec items d v : kv_rep d v ->
  (forall k b, (k, b) ∈ items -> kv_addresses d !! k = Some b) -> NoDup items.*1 ->
  exists l, load_items items = Ok l /\ NoDup l /\
    (forall a, a ∈ l <-> v_addresses v !! ca_script_hash a = Some a /\ hash_to_string (ca_script_hash a) ∈ items.*1).
Proof.
  intros Hr. induction items as [|[k b] items IH]; intros Hin Hnd.
  { exists []. split_and!; [done|constructor|]. intros a. split; [by intros ?%not_elem_of_nil|].
    intros [_ ?%not_elem_of_nil]. done. }
  apply NoDup_cons in Hnd as [Hk Hnd]. cbn [fst] in Hk.
  destruct IH as (l & El & Hl & Hmem); [intros; apply Hin; by right|done|].
  specialize (Hin k b ltac:(by left)). cbn [load_items]. case_bool_decide as Hname.
  - exists l. split_and!; try done. intros a. rewrite Hmem. cbn. rewrite elem_of_cons.
    split; [tauto|]. intros [Ha [E|Ha']]; [|done]. split; [done|].
    destruct (kr_address d v Hr _ _ Ha) as (_ & Hhash & _). destruct (hash_is_no_name _ Hhash).
    destruct Hname as [->| ->]; congruence.
  - destruct (kr_key d v Hr k b Hin) as [?|[?|(h & a & Ha & ->)]]; [tauto|tauto|].
    destruct (kr_address d v Hr h a Ha) as (<- & Hhash & Hb). assert (b = to_vec a) as -> by congruence.
    rewrite from_to. cbn. rewrite El. cbn. exists (a :: l). split_and!; [done| |].
    + apply NoDup_cons. split; [|done]. rewrite Hmem. by intros [_ ?].
    + intros x. rewrite !elem_of_cons, Hmem. split.
      * intros [->|[? ?]]; [by split; [|left]|by split; [|right]].
      * intros [Hx [E|Hx']]; [left|by right]. destruct (kr_address d v Hr _ x Hx) as (_ & Hhx & _).
        apply hash_to_string_inj in E; [|done..]. congruence.
Qed.

Lemma NoDup_values d v : kv_rep d v -> NoDup (map_to_list (v_addresses v)).*2.
Proof.
  intros Hr. apply (NoDup_fmap_1 ca_script_hash). rewrite <-list_fmap_compose.
  rewrite (list_fmap_ext _ fst (map_to_list (v_addresses v))); [apply NoDup_fst_map_to_list|].
  intros i [h a] Hi%list_elem_of_lookup_2%elem_of_map_to_list. by destruct (kr_address d v Hr h a Hi) as (? & _).
Qed.

Lemma kv_load_ok d v : kv_rep d v ->
  exists l, load_items (map_to_list (kv_addresses d)) = Ok l /\ l ≡ₚ (map_to_list (v_addresses v)).*2.
Proof.
  intros Hr. destruct (load_items_spec (map_to_list (kv_addresses d)) d v Hr) as (l & El & Hnd & Hmem).
  - by intros k b ?%elem_of_map_to_list.
  - apply NoDup_fst_map_to_list.
  - exists l. split; [done|]. apply NoDup_Permutation; [done|by apply (NoDup_values d)|].
    intros a. rewrite Hmem, !list_elem_of_fmap. split.
    + intros [Ha _]. exists (ca_script_hash a, a). by rewrite elem_of_map_to_list.
    + intros ([h x] & -> & Hx%elem_of_map_to_list). destruct (kr_address d v Hr h x Hx) as (<- & _ & Hb).
      split; [done|]. exists (hash_to_string (ca_script_hash x), to_vec x).
      by rewrite elem_of_map_to_list.
Qed.

Lemma kv_descriptors_ok d v : kv_rep d v -> kv_get_descriptors d = Ok (v_descriptors v).
Proof.
  intros Hr. unfold kv_get_descriptors. pose proof (kr_desc d v Hr) as Hd.
  destruct (_ !! _) as [b|]; [subst b|by rewrite Hd]. by rewrite from_to.
Qed.

Lemma kv_height_rep d v h : kv_rep d v -> is_u32 h ->
  kv_rep (kv_set "height"%string (enc (U32 h)) d) (put_height h v).
Proof.
  intros [Ha Hk Hh Hu Hd Ht Hs] Hu32. split; cbn; try done.
  - intros k x Hx. destruct (Ha k x Hx) as (? & Hhash & Hb). split_and!; try done.
    rewrite lookup_insert_ne; [done|]. by destruct (hash_is_no_name _ Hhash).
  - intros k b [[<- _]|[_ Hb]]%lookup_insert_Some; [by left|by apply (Hk k b)].
  - by rewrite lookup_insert_eq.
  - by intros ? [= <-].
  - by rewrite lookup_insert_ne.
Qed.

Lemma kv_descriptor_rep d v s : kv_rep d v ->
  kv_rep (kv_set "desc"%string (to_vec (v_descriptors v ++ [s])) d) (put_descriptor s v).
Proof.
  intros [Ha Hk Hh Hu Hd Ht Hs]. split; cbn; try done.
  - intros k x Hx. destruct (Ha k x Hx) as (? & Hhash & Hb). split_and!; try done.
    rewrite lookup_insert_ne; [done|]. by destruct (hash_is_no_name _ Hhash).
  - intros k b [[<- _]|[_ Hb]]%lookup_insert_Some; [by right; left|by apply (Hk k b)].
  - by rewrite lookup_insert_ne.
  - by rewrite lookup_insert_eq.
Qed.

#[export] Instance kv_database_ok : AddressCacheDatabaseOk KvDatabase.
Proof.
  refine {| db_rep := kv_rep |}; unfold writes; cbn.
  - intros d v a Hr Ha. eexists. split; [done|]. by apply kv_save_rep.
  - intros d v a Hr [x Hx]. eexists. split; [done|]. apply kv_save_rep; [done|].
    by destruct (kr_address d v Hr _ x Hx) as (_ & ? & _).
  - apply kv_load_ok.
  - intros d v s Hr Hs. unfold kv_get_stats. rewrite (kr_stats d v Hr), Hs. cbn. by rewrite from_to.
  - intros d v Hr Hs. unfold kv_get_stats. rewrite (kr_stats d v Hr), Hs. by eexists.
  - intros d v s [Ha Hk Hh Hu Hd Ht Hs]. eexists. split; [done|]. split; cbn; try done.
    by rewrite lookup_insert_eq.
  - intros d v h Hr Hu. eexists. split; [done|]. by apply kv_height_rep.
  - intros d v h Hr Hh. unfold kv_get_cache_height. rewrite (kr_height d v Hr), Hh. cbn [fmap option_fmap option_map].
    unfold deserialize_u32. pose proof (dec_enc (A := u32) (U32 h) [] (kr_height_u32 d v Hr h Hh)) as E.
    rewrite app_nil_r in E. by rewrite E.
  - intros d v s Hr. unfold kv_save_descriptor. rewrite (stm_bind_gets _ _ _ _ (kv_descriptors_ok d v Hr)).
    eexists. split; [done|]. by apply kv_descriptor_rep.
  - apply kv_descriptors_ok.
  - intros d v x t Hr Hx. unfold kv_get_transaction. rewrite (kr_transactions d v Hr), lookup_fmap, Hx. cbn.
    by rewrite from_to.
  - intros d v x Hr Hx. unfold kv_get_transaction. rewrite (kr_transactions d v Hr), lookup_fmap, Hx. by eexists.
  - intros d v t [Ha Hk Hh Hu Hd Ht Hs] Etx. eexists. split; [done|]. split; cbn; try done.
    by rewrite Etx, Ht, fmap_insert.
  - intros d v Hr. eexists. split; [done|]. rewrite (kr_transactions d v Hr), map_to_list_fmap, <-list_fmap_compose.
    by rewrite (list_fmap_ext _ fst).
Defined.
End KvDatabase.
