(* ===== verification/WalletFacts.v ===== *)
(** The watch-only wallet keeps its maps and its database consistent: the
    balance of every address is the value of its unspent outputs, blocks
    change them exactly as a ledger does, and no call panics. *)

From stdpp Require Import base gmap list strings fin_maps.
From Stdlib Require Import ZArith Lia.
From S2P Require Import Prelude Bitcoin Codec Merkle Descriptors Wallet WalletDb.

Lemma get_spk_hash_range `{Sha256Lib} s : is_hash (get_spk_hash s).
Proof.
  unfold get_spk_hash, is_hash. pose proof (le_int_bound (rev (to_byte_array (sha256 s)))) as Hb.
  rewrite length_rev in Hb. unfold to_byte_array in *. rewrite length_le_bytes in Hb. apply Hb.
  apply Forall_forall. intros x Hx%list_elem_of_In%in_rev%list_elem_of_In.
  pose proof (le_bytes_byte 32 (sha256 s)) as Hf. rewrite Forall_forall in Hf. by apply Hf.
Qed.

Section WalletFacts.
Context {TL : TxLib} {SL : Sha256Lib} {DL : DescriptorLib}.
Context {D : Type} {DB : AddressCacheDatabase D} {DBok : AddressCacheDatabaseOk D}.
Implicit Types (w : AddressCacheInner D) (v : DbView) (a : CachedAddress).

(** * The invariant *)

Definition output_of v (o : OutPoint) : option TxOut :=
  t ← v_transactions v !! op_txid o; tx_output (ct_tx t) !! Z.to_nat (op_vout o).
Definition coin_value v (o : OutPoint) : Z := default 0 (txo_value <$> output_of v o).

(** A cached address: its unspent outputs are outputs of stored transactions
    that pay it, its balance is their value, and its history is stored. *)
Record address_ok v (h : Z) a : Prop := {
  ao_hash : ca_script_hash a = h;
  ao_range : is_hash h;
  ao_nodup : NoDup (ca_utxos a);
  ao_coin : forall o, o ∈ ca_utxos a ->
    exists out, output_of v o = Some out /\ get_spk_hash (script_pubkey out) = h /\ 0 <= txo_value out;
  ao_balance : ca_balance a = sum_Z (coin_value v) (ca_utxos a);
  ao_history : NoDup (ca_transactions a) /\
    forall x, x ∈ ca_transactions a -> is_Some (v_transactions v !! x)
}.

(** The records of the database, and the state of the cache over them. *)
Record view_ok v : Prop := {
  vo_address : forall h a, v_addresses v !! h = Some a -> address_ok v h a;
  vo_txid : forall x t, v_transactions v !! x = Some t -> compute_txid (ct_tx t) = x
}.

Definition index_of (m : gmap Z CachedAddress) (u : gmap OutPoint Z) : Prop :=
  forall o h, u !! o = Some h <-> exists a, m !! h = Some a /\ o ∈ ca_utxos a.

(** The next index to derive, and a bound for the recorded ones. *)
Definition horizon v : Z := default 0 (derivation_index <$> v_stats v).

(** The record of an address in the database: the history in it is the one in
    memory; its balance and its unspent outputs may be older. *)
Definition same_history a d : Prop :=
  ca_script d = ca_script a /\ ca_transactions d = ca_transactions a.

Record wallet_inv w v : Prop := {
  wi_db : db_rep (database w) v;
  wi_view : view_ok v;
  wi_address : forall h a, address_map w !! h = Some a -> address_ok v h a;
  wi_set : forall h, h ∈ script_set w <-> is_Some (address_map w !! h);
  wi_saved : forall h, option_Forall2 same_history (address_map w !! h) (v_addresses v !! h);
  wi_index : index_of (address_map w) (utxo_index w);
  wi_stats : is_Some (v_stats v) /\ 0 <= horizon v;
  wi_derived : forall h i, derived_index w !! h = Some i -> 0 <= i < horizon v + DERIVATION_COUNT
}.

Lemma stats_of w v : wallet_inv w v -> exists s, v_stats v = Some s /\ derivation_index s = horizon v.
Proof. intros Hi. destruct (wi_stats w v Hi) as [[s Hs] _]. exists s. unfold horizon. by rewrite Hs. Qed.

(** The addresses in memory are those of the database. *)
Lemma saved_iff w v h : wallet_inv w v -> is_Some (address_map w !! h) <-> is_Some (v_addresses v !! h).
Proof. intros Hi. by destruct (wi_saved w v Hi h). Qed.

Lemma coin_value_nonneg v h a o : address_ok v h a -> o ∈ ca_utxos a -> 0 <= coin_value v o.
Proof. intros Ha (out & E & _ & Hn)%(ao_coin v h a Ha). unfold coin_value. by rewrite E. Qed.

Lemma balance_nonneg v h a : address_ok v h a -> 0 <= ca_balance a.
Proof.
  intros Ha. rewrite (ao_balance v h a Ha). apply sum_Z_nonneg. intros o Ho. by apply (coin_value_nonneg v h a).
Qed.

(** ** Views that differ only in what an address does not see *)

(** [v'] knows at least the outputs of [v]. *)
Definition extends v v' : Prop :=
  (forall x, is_Some (v_transactions v !! x) -> is_Some (v_transactions v' !! x)) /\
  forall o out, output_of v o = Some out -> output_of v' o = Some out.

Lemma address_ok_extends v v' h a : extends v v' -> address_ok v h a -> address_ok v' h a.
Proof.
  intros [Htx Hout] [Hh Hr Hnd Hc Hb [Hn Hist]]. split; try done.
  - intros o (out & E & ?)%Hc. exists out. split; [by apply Hout|done].
  - rewrite Hb. apply sum_Z_ext. intros o (out & E & _)%Hc. unfold coin_value. by rewrite E, (Hout o out E).
  - split; [done|]. intros x Hx. by apply Htx, Hist.
Qed.

Lemma extends_same v v' : v_transactions v' = v_transactions v -> extends v v'.
Proof. intros E. unfold extends, output_of. by rewrite E. Qed.

(** * Writes to the database *)

Lemma on_db_expect_ok {E} w v' m : writes db_rep m (database w) v' ->
  exists d', on_db_expect (E := E) m w = (Ok tt, set_database d' w) /\ db_rep d' v'.
Proof. intros (d' & E' & Hr). exists d'. unfold on_db_expect. by rewrite E'. Qed.

Lemma on_db_ok w v' m : writes db_rep m (database w) v' ->
  exists d', on_db m w = (Ok tt, set_database d' w) /\ db_rep d' v'.
Proof. intros (d' & E' & Hr). exists d'. unfold on_db. by rewrite E'. Qed.

Lemma put_address_view v h a : view_ok v -> address_ok v h a -> view_ok (put_address a v).
Proof.
  intros [Ha Ht] Hok. split; [|done]. intros k x.
  cbn. intros [[<- <-]|[_ Hx]]%lookup_insert_Some; apply (address_ok_extends v); try by apply extends_same.
  - by rewrite (ao_hash v h a Hok).
  - by apply Ha.
Qed.

(** Replacing a cached address, its outputs and the database record. *)
Lemma set_address_inv w v h a0 a u d' v' :
  wallet_inv w v -> address_map w !! h = Some a0 -> address_ok v h a ->
  (forall o k, u !! o = Some k <-> if decide (k = h) then o ∈ ca_utxos a else utxo_index w !! o = Some k) ->
  (v' = v /\ d' = database w /\ same_history a a0 \/ v' = put_address a v /\ db_rep d' v') ->
  wallet_inv (mkInner d' (<[h := a]> (address_map w)) (script_set w) u (derived_index w)) v'.
Proof.
  intros [Hdb Hview Hadd Hset Hsav Hidx Hst Hder] H0 Hok Hu Hv.
  assert (Hv' : db_rep d' v' /\ view_ok v' /\ extends v v' /\ v_stats v' = v_stats v /\
            forall k, option_Forall2 same_history (<[h := a]> (address_map w) !! k) (v_addresses v' !! k)).
  { destruct Hv as [(-> & -> & Hh)|[-> Hr]].
    - split_and!; try done. intros k. destruct (decide (h = k)) as [<-|Hne]; [|by rewrite lookup_insert_ne].
      rewrite lookup_insert_eq. specialize (Hsav h). rewrite H0 in Hsav. inversion Hsav as [x y Hxy|]; subst.
      constructor. destruct Hxy, Hh. split; congruence.
    - split_and!; try done; [by apply (put_address_view v h)|]. intros k. cbn. rewrite (ao_hash v h a Hok).
      destruct (decide (h = k)) as [<-|Hne]; [rewrite !lookup_insert_eq; by constructor|by rewrite !lookup_insert_ne]. }
  destruct Hv' as (Hr' & Hvo' & Hext & Hs' & Hsaved).
  split; cbn; try done.
  - intros k x [[<- <-]|[_ Hx]]%lookup_insert_Some; apply (address_ok_extends v); try done. by apply Hadd.
  - intros k. rewrite Hset, lookup_insert_is_Some. split; [destruct (decide (h = k)); auto|].
    intros [<-|[_ ?]]; [by rewrite H0|done].
  - intros o k. rewrite Hu. case_decide as Hk.
    + subst k. split; [by exists a; rewrite lookup_insert_eq|]. intros (x & [= <-]%lookup_insert_rev & Ho). done.
    + rewrite (Hidx o k). by setoid_rewrite lookup_insert_ne.
  - unfold horizon in *. by rewrite Hs'.
  - unfold horizon in *. by rewrite Hs'.
Qed.

(** * New addresses *)

(** What derivation does: it only adds addresses, which have no history. *)
Record grown w v w' v' : Prop := {
  gr_map : address_map w ⊆ address_map w';
  gr_new : forall h a, address_map w' !! h = Some a -> address_map w !! h = Some a \/ ca_utxos a = [];
  gr_utxo : utxo_index w' = utxo_index w;
  gr_transactions : v_transactions v' = v_transactions v;
  gr_descriptors : v_descriptors v' = v_descriptors v;
  gr_stored : v_addresses v ⊆ v_addresses v'
}.

Lemma grown_refl w v : grown w v w v.
Proof. split; try done. auto. Qed.
Lemma grown_trans w1 v1 w2 v2 w3 v3 : grown w1 v1 w2 v2 -> grown w2 v2 w3 v3 -> grown w1 v1 w3 v3.
Proof.
  intros [A1 N1 U1 T1 D1 S1] [A2 N2 U2 T2 D2 S2]. split; try congruence; [by etransitivity| |by etransitivity].
  intros h a [?|?]%N2; [by apply N1|by right].
Qed.

Lemma new_address_ok v h s : is_hash h -> address_ok v h (new_address h s).
Proof.
  intros Hh. split; cbn; try done; [constructor|by intros o ?%not_elem_of_nil|].
  split; [constructor|by intros o ?%not_elem_of_nil].
Qed.

(** Saving and following an address that is not followed. *)
Lemma follow_new_inv {E} w v h s :
  wallet_inv w v -> address_map w !! h = None -> is_hash h ->
  exists d', on_db_expect (E := E) (db_save (new_address h s)) w = (Ok tt, set_database d' w) /\
    let w' := watch h (set_address h (new_address h s) (set_database d' w)) in
    let v' := put_address (new_address h s) v in
    wallet_inv w' v' /\ grown w v w' v' /\ v_stats v' = v_stats v.
Proof.
  intros Hi Hn Hh. pose proof Hi as [Hdb Hview Hadd Hset Hsav Hidx Hst Hder].
  destruct (on_db_expect_ok (E := E) w _ _ (save_ok (database w) v (new_address h s) Hdb Hh)) as (d' & E1 & Hr).
  exists d'. split; [done|]. cbn.
  assert (Hns : v_addresses v !! h = None).
  { specialize (Hsav h). rewrite Hn in Hsav. by inversion Hsav. }
  assert (Hext : extends v (put_address (new_address h s) v)) by by apply extends_same.
  split_and!; [|split; cbn; try done|done].
  - split; cbn; try done.
    + apply (put_address_view v h); [done|]. by apply new_address_ok.
    + intros k x [[<- <-]|[_ Hx]]%lookup_insert_Some; apply (address_ok_extends v); try done.
      * by apply new_address_ok.
      * by apply Hadd.
    + intros k. rewrite elem_of_union, elem_of_singleton, Hset, lookup_insert_is_Some'. intuition congruence.
    + intros k. destruct (decide (h = k)) as [<-|Hne]; [rewrite !lookup_insert_eq; by constructor|by rewrite !lookup_insert_ne].
    + intros o k. rewrite (Hidx o k). split.
      * intros (x & Hx & Ho). exists x. split; [|done]. rewrite lookup_insert_ne; [done|]. by intros <-; rewrite Hn in Hx.
      * intros (x & [[<- <-]|[_ Hx]]%lookup_insert_Some & Ho); [by apply not_elem_of_nil in Ho|by exists x].
  - by apply insert_subseteq.
  - intros k x [[_ <-]|[_ Hx]]%lookup_insert_Some; auto.
  - by apply insert_subseteq.
Qed.

Lemma cache_address_inv {E} w v s : wallet_inv w v ->
  exists w' v', cache_address (E := E) s w = (Ok tt, w') /\ wallet_inv w' v' /\ grown w v w' v' /\
    v_stats v' = v_stats v /\ derived_index w' = derived_index w /\ is_Some (address_map w' !! get_spk_hash s).
Proof.
  intros Hi. unfold cache_address, mbind, stm_bind, gets.
  destruct (address_map w !! get_spk_hash s) as [a|] eqn:Ha.
  { exists w, v. split_and!; try done. apply grown_refl. }
  destruct (follow_new_inv (E := E) w v (get_spk_hash s) s Hi Ha (get_spk_hash_range s)) as (d' & E1 & Hi' & Hg & Hs).
  rewrite E1. cbn. eexists _, _. split_and!; [done|exact Hi'|exact Hg|done|done|].
  cbn. by rewrite lookup_insert_eq.
Qed.

(** * Derivation *)

(** A derivation leaves the cache consistent, whatever its outcome; [Q] is what
    it returns. *)
Definition derives {A} w v (o : outcome DescriptorError A * AddressCacheInner D)
  (Q : A -> AddressCacheInner D -> Prop) : Prop :=
  exists v', wallet_inv o.2 v' /\ grown w v o.2 v' /\ v_stats v' = v_stats v /\
    (forall h, is_Some (derived_index w !! h) -> is_Some (derived_index o.2 !! h)) /\
    match o.1 with Ok x => Q x o.2 | Err _ => True | _ => False end.

Lemma derives_lift {A} w v (o : outcome DescriptorError A) (Q : A -> AddressCacheInner D -> Prop) :
  wallet_inv w v -> match o with Ok x => Q x w | Err _ => True | _ => False end -> derives w v (lift o w) Q.
Proof. intros Hi Ho. exists v. split_and!; try done. apply grown_refl. Qed.

Lemma derives_bind {A B} w v (m : stm _ DescriptorError A) (f : A -> stm _ DescriptorError B) Q R :
  derives w v (m w) Q ->
  (forall x w1 v1, wallet_inv w1 v1 -> grown w v w1 v1 -> v_stats v1 = v_stats v -> Q x w1 -> derives w1 v1 (f x w1) R) ->
  derives w v ((m ≫= f) w) R.
Proof.
  intros (v1 & Hi & Hg & Hs & Hd & Ho) Hf. unfold mbind, stm_bind.
  destruct (m w) as [[x|e| |] w1]; cbn in *; try done; [|by exists v1].
  destruct (Hf x w1 v1 Hi Hg Hs Ho) as (v2 & Hi2 & Hg2 & Hs2 & Hd2 & Ho2).
  exists v2. split_and!; try done; [by eapply grown_trans|congruence|]. auto.
Qed.

Lemma set_derived_inv w v h i :
  wallet_inv w v -> 0 <= i < horizon v + DERIVATION_COUNT -> wallet_inv (set_derived h i w) v.
Proof.
  intros [Hdb Hview Hadd Hset Hsav Hidx Hst Hder] Hi. split; cbn; try done.
  intros k j [[_ <-]|[_ Hj]]%lookup_insert_Some; [done|by apply (Hder k)].
Qed.

(** A script that is followed, and one whose index is recorded too. *)
Definition followed w (s : Script) : Prop := is_Some (address_map w !! get_spk_hash s).
Definition tracked w (s : Script) : Prop := followed w s /\ is_Some (derived_index w !! get_spk_hash s).

Definition tracks_more w w' : Prop := forall s, tracked w s -> tracked w' s.

Lemma derives_tracks {A} w v o (Q : A -> AddressCacheInner D -> Prop) : derives w v o Q -> tracks_more w o.2.
Proof.
  intros (v' & _ & Hg & _ & Hd & _) s [[a Ha] Hx]. split; [|by apply Hd].
  exists a. by apply (lookup_weaken _ _ _ _ Ha), (gr_map _ _ _ _ Hg).
Qed.

Lemma derives_keeps {A} w v o (Q : A -> AddressCacheInner D -> Prop) :
  derives w v o Q -> derives w v o (fun x w' => Q x w' /\ tracks_more w w').
Proof.
  intros Hd. pose proof (derives_tracks w v o Q Hd) as Ht. destruct Hd as (v' & Hi & Hg & Hs & Hd & Ho).
  exists v'. split_and!; try done. by destruct o as [[x|e| |] w'].
Qed.

Lemma derives_mono {A} w v o (Q R : A -> AddressCacheInner D -> Prop) :
  (forall x w', Q x w' -> R x w') -> derives w v o Q -> derives w v o R.
Proof.
  intros HQ (v' & Hi & Hg & Hs & Hd & Ho). exists v'. split_and!; try done.
  destruct o as [[x|e| |] w']; try done. by apply HQ.
Qed.

Lemma cache_address_derives w v s : wallet_inv w v ->
  derives w v (cache_address s w) (fun _ w' => followed w' s /\ derived_index w' = derived_index w).
Proof.
  intros Hi. destruct (cache_address_inv (E := DescriptorError) w v s Hi) as (w' & v' & E & Hi' & Hg & Hs & Hd & Hf).
  rewrite E. exists v'. split_and!; try done. cbn. by rewrite Hd.
Qed.

Lemma cache_plain_derives scripts : forall w v, wallet_inv w v -> derives w v (cache_plain scripts w) (fun _ _ => True).
Proof.
  induction scripts as [|s scripts IH]; intros w v Hi; cbn [cache_plain]; [by apply derives_lift|].
  eapply derives_bind; [by apply cache_address_derives|]. intros ? w1 v1 Hi1 _ _ _.
  eapply derives_bind; [by apply IH|]. intros l w2 v2 Hi2 _ _ _. by apply derives_lift.
Qed.

Lemma set_derived_derives w v s i : wallet_inv w v -> 0 <= i < horizon v + DERIVATION_COUNT ->
  derives w v (modify (set_derived (get_spk_hash s) i) w) (fun _ w' => is_Some (derived_index w' !! get_spk_hash s)).
Proof.
  intros Hi Hb. exists v. split_and!; try done; cbn.
  - by apply set_derived_inv.
  - split; try done. auto.
  - intros h Hx. apply lookup_insert_is_Some'. auto.
  - by rewrite lookup_insert_eq.
Qed.

Lemma horizon_stats v v' : v_stats v' = v_stats v -> horizon v' = horizon v.
Proof. unfold horizon. by intros ->. Qed.

Lemma cache_derived_derives start count scripts : forall pos w v,
  wallet_inv w v -> 0 <= start -> 0 < count -> start + count <= horizon v + DERIVATION_COUNT ->
  start + count <= u32_max ->
  derives w v (cache_derived start count pos scripts w) (fun _ w' => Forall (tracked w') scripts).
Proof.
  induction scripts as [|s scripts IH]; intros pos w v Hi H0 Hc Hh Hm; cbn [cache_derived]; [by apply derives_lift|].
  pose proof (Z.mod_pos_bound pos count Hc) as Hmod.
  unfold u32_add. rewrite (proj2 (Z.leb_le _ _)) by lia. rewrite (stm_bind_lift _ _ _ _ eq_refl).
  eapply derives_bind; [apply set_derived_derives; [done|lia]|]. intros ? w1 v1 Hi1 _ Hs1 Hd1.
  eapply derives_bind; [by apply cache_address_derives|]. intros ? w2 v2 Hi2 _ Hs2 [Hf2 Hd2].
  eapply derives_bind.
  - apply derives_keeps, IH; try done. by rewrite (horizon_stats v1 v2 Hs2), (horizon_stats v v1 Hs1).
  - intros l w3 v3 Hi3 _ _ [Hl Hmore]. apply derives_lift; [done|]. apply Forall_cons. split; [|done].
    apply Hmore. split; [done|]. by rewrite Hd2.
Qed.

(** ** The descriptors *)

Definition returns {E A} (o : outcome E A) : Prop := match o with Ok _ | Err _ => True | _ => False end.

Lemma of_sum_returns {E E' A} (f : E' -> E) (s : E' + A) : returns (of_sum f s).
Proof. by destruct s. Qed.
Lemma bind_returns {E A B} (o : outcome E A) (f : A -> outcome E B) :
  returns o -> (forall x, returns (f x)) -> returns (o ≫= f).
Proof. intros Ho Hf. destruct o as [x|e| |]; try done. apply Hf. Qed.

Lemma has_wildcard_returns d : returns (has_wildcard d).
Proof. apply bind_returns; [apply of_sum_returns|done]. Qed.

Lemma derive_loop_returns d n : forall i, returns (derive_loop d i n).
Proof.
  induction n as [|n IH]; intros i; [done|]. apply bind_returns; [apply of_sum_returns|].
  intros x. apply bind_returns; [apply IH|done].
Qed.

Lemma derive_paths_returns ds index count : index + count <= u32_max -> returns (derive_paths ds index count).
Proof.
  intros Hm. induction ds as [|d ds IH]; [done|]. cbn [derive_paths].
  unfold derive_addresses_from_parsed_descriptor, u32_add. rewrite (proj2 (Z.leb_le _ _)) by lia. cbn [mbind outcome_bind].
  apply bind_returns; [apply derive_loop_returns|]. intros x. by apply bind_returns.
Qed.

Lemma derive_descriptor_returns s index count :
  index + count <= u32_max -> returns (derive_addresses_from_descriptor s index count).
Proof.
  intros Hm. apply bind_returns; [|intros ds; by apply derive_paths_returns].
  apply bind_returns; [apply of_sum_returns|]. intros d. apply bind_returns; [apply of_sum_returns|].
  intros _. apply of_sum_returns.
Qed.

(** The scripts of a descriptor with a wildcard in a range of indices. *)
Definition range_tracked w (start count : Z) (s : string) : Prop :=
  forall scripts, has_wildcard s = Ok true -> derive_addresses_from_descriptor s start count = Ok scripts ->
    Forall (tracked w) scripts.

Lemma derive_range_derives start count ds : forall w v,
  wallet_inv w v -> 0 <= start -> 0 < count -> start + count <= horizon v + DERIVATION_COUNT ->
  start + count <= u32_max ->
  derives w v (derive_range ds start count w) (fun _ w' => Forall (range_tracked w' start count) ds).
Proof.
  induction ds as [|s ds IH]; intros w v Hi H0 Hc Hh Hm; cbn [derive_range]; [by apply derives_lift|].
  pose proof (has_wildcard_returns s) as Hw.
  eapply (derives_bind _ _ _ _ (fun b _ => has_wildcard s = Ok b)).
  { apply derives_lift; [done|]. by destruct (has_wildcard s). }
  intros wild w1 v1 Hi1 _ Hs1 Ew. pose proof (horizon_stats v v1 Hs1) as Hz1.
  eapply (derives_bind _ _ _ _ (fun _ w' => range_tracked w' start count s)).
  - destruct wild.
    + eapply (derives_bind _ _ _ _ (fun l _ => derive_addresses_from_descriptor s start count = Ok l)).
      { pose proof (derive_descriptor_returns s start count Hm) as Hr. apply derives_lift; [done|].
        by destruct (derive_addresses_from_descriptor s start count). }
      intros l w2 v2 Hi2 _ Hs2 El. pose proof (horizon_stats v1 v2 Hs2) as Hz2.
      eapply derives_mono; [|apply cache_derived_derives; [done..|by rewrite Hz2, Hz1|done]].
      intros x w' Hl scripts _ El'. cbn in Hl. by assert (scripts = l) as -> by congruence.
    + eapply (derives_bind _ _ _ _ (fun _ _ => True)).
      { pose proof (derive_descriptor_returns s INDEX_INITIAL 1 ltac:(done)) as Hr. apply derives_lift; [done|].
        by destruct (derive_addresses_from_descriptor s INDEX_INITIAL 1). }
      intros l w2 v2 Hi2 _ _ _. eapply derives_mono; [|by apply cache_plain_derives].
      intros x w' _ scripts Ew'. congruence.
  - intros l w2 v2 Hi2 _ Hs2 Hr. eapply derives_bind.
    + apply derives_keeps, IH; try done. by rewrite (horizon_stats v1 v2 Hs2), Hz1.
    + intros l' w3 v3 Hi3 _ _ [Hl Hmore]. apply derives_lift; [done|]. apply Forall_cons. split; [|done].
      intros scripts Ew' El. eapply Forall_impl; [by apply (Hr scripts)|exact Hmore].
Qed.

(** ** Stored descriptors *)

(** A descriptor whose scripts can be derived in a range. *)
Definition derivable (start count : Z) (s : string) : Prop :=
  match has_wildcard s with
  | Ok true => exists l, derive_addresses_from_descriptor s start count = Ok l
  | Ok false => exists l, derive_addresses_from_descriptor s INDEX_INITIAL 1 = Ok l
  | _ => False
  end.

(** Caching scripts does not fail. *)
Lemma cache_plain_ok {E} scripts : forall w v, wallet_inv w v -> (cache_plain (E := E) scripts w).1 = Ok scripts.
Proof.
  induction scripts as [|s scripts IH]; intros w v Hi; [done|]. cbn [cache_plain]. unfold mbind, stm_bind.
  destruct (cache_address_inv (E := E) w v s Hi) as (w1 & v1 & -> & Hi1 & _). specialize (IH w1 v1 Hi1).
  destruct (cache_plain scripts w1) as [o w2]. cbn in IH. by rewrite IH.
Qed.

Lemma cache_derived_ok {E} start count scripts : forall pos w v,
  wallet_inv w v -> 0 <= start -> 0 < count -> start + count <= horizon v + DERIVATION_COUNT ->
  start + count <= u32_max -> (cache_derived (E := E) start count pos scripts w).1 = Ok scripts.
Proof.
  induction scripts as [|s scripts IH]; intros pos w v Hi H0 Hc Hh Hm; [done|]. cbn [cache_derived].
  pose proof (Z.mod_pos_bound pos count Hc) as Hmod. unfold mbind, stm_bind, lift, u32_add, modify.
  rewrite (proj2 (Z.leb_le _ _)) by lia.
  destruct (cache_address_inv (E := E) (set_derived (get_spk_hash s) (start + pos mod count) w) v s)
    as (w1 & v1 & -> & Hi1 & _ & Hs1 & _); [apply set_derived_inv; [done|lia]|].
  specialize (IH (pos + 1) w1 v1 Hi1 H0 Hc). rewrite (horizon_stats v v1 Hs1) in IH. specialize (IH Hh Hm).
  destruct (cache_derived start count (pos + 1) scripts w1) as [o w2]. cbn in IH. by rewrite IH.
Qed.

Lemma derive_range_ok start count ds : forall w v, Forall (derivable start count) ds ->
  wallet_inv w v -> 0 <= start -> 0 < count -> start + count <= horizon v + DERIVATION_COUNT ->
  start + count <= u32_max -> exists l, (derive_range ds start count w).1 = Ok l.
Proof.
  induction ds as [|s ds IH]; intros w v Hd Hi H0 Hc Hh Hm; [by exists []|].
  apply Forall_cons in Hd as [Hs Hd]. cbn [derive_range]. unfold derivable in Hs.
  assert (Hstep : exists l w1 v1,
    (wild ← lift (has_wildcard s);
     if (wild : bool) then
       scripts ← lift (derive_addresses_from_descriptor s start count); cache_derived start count 0 scripts
     else scripts ← lift (derive_addresses_from_descriptor s INDEX_INITIAL 1); cache_plain scripts) w = (Ok l, w1) /\
    wallet_inv w1 v1 /\ v_stats v1 = v_stats v).
  { unfold mbind, stm_bind, lift. destruct (has_wildcard s) as [[|]| | |]; try done; destruct Hs as [scripts ->].
    - pose proof (cache_derived_ok (E := DescriptorError) start count scripts 0 w v Hi H0 Hc Hh Hm) as Eo.
      pose proof (cache_derived_derives start count scripts 0 w v Hi H0 Hc Hh Hm) as (v1 & Hi1 & _ & Hs1 & _).
      destruct (cache_derived _ _ _ _ w) as [o w1]. cbn in *. subst o. by exists scripts, w1, v1.
    - pose proof (cache_plain_ok (E := DescriptorError) scripts w v Hi) as Eo.
      pose proof (cache_plain_derives scripts w v Hi) as (v1 & Hi1 & _ & Hs1 & _).
      destruct (cache_plain _ w) as [o w1]. cbn in *. subst o. by exists scripts, w1, v1. }
  destruct Hstep as (l & w1 & v1 & E1 & Hi1 & Hs1). unfold mbind, stm_bind in *. unfold lift at 1. unfold lift at 1 in E1.
  destruct (has_wildcard s) as [wild| | |]; try done. rewrite E1.
  destruct (IH w1 v1 Hd Hi1 H0 Hc) as [l2 E2]; [by rewrite (horizon_stats v v1 Hs1)|done|].
  destruct (derive_range ds start count w1) as [o w2]. cbn in E2. subst o. by eexists.
Qed.

(** What succeeded can be derived. *)
Lemma derive_range_derivable start count ds : forall w l,
  (derive_range ds start count w).1 = Ok l -> Forall (derivable start count) ds.
Proof.
  induction ds as [|s ds IH]; intros w l; [constructor|]. cbn [derive_range]. unfold mbind, stm_bind. unfold lift at 1.
  unfold derivable at 1. destruct (has_wildcard s) as [[|]| | |] eqn:Ew; try done; unfold lift.
  - destruct (derive_addresses_from_descriptor s start count) as [l1| | |] eqn:E1; try done.
    destruct (cache_derived _ _ _ _ w) as [[l2| | |] w1]; try done.
    destruct (derive_range ds start count w1) as [[l3| | |] w2] eqn:E3; try done. intros _.
    constructor; [rewrite Ew; by exists l1|]. apply (IH w1 l3). by rewrite E3.
  - destruct (derive_addresses_from_descriptor s INDEX_INITIAL 1) as [l1| | |] eqn:E1; try done.
    destruct (cache_plain _ w) as [[l2| | |] w1]; try done.
    destruct (derive_range ds start count w1) as [[l3| | |] w2] eqn:E3; try done. intros _.
    constructor; [rewrite Ew; by exists l1|]. apply (IH w1 l3). by rewrite E3.
Qed.

(** ** Joining two ranges of indices *)

Lemma derive_loop_app d n m : forall i l1 l2,
  derive_loop d i n = Ok l1 -> derive_loop d (i + Z.of_nat n) m = Ok l2 -> derive_loop d i (n + m) = Ok (l1 ++ l2).
Proof.
  induction n as [|n IH]; intros i l1 l2 H1 H2.
  { injection H1 as <-. by rewrite Z.add_0_r in H2. }
  cbn [derive_loop Nat.add] in *. destruct (of_sum _ _) as [x| | |]; try done. cbn [mbind outcome_bind] in *.
  destruct (derive_loop d (i + 1) n) as [l| | |] eqn:El; try done. injection H1 as <-.
  rewrite (IH (i + 1) l l2 El); [done|]. by replace (i + 1 + Z.of_nat n) with (i + Z.of_nat (S n)) by lia.
Qed.

Lemma derive_paths_join n m ds : 0 <= n -> 0 <= m -> n + m <= u32_max -> forall l1 l2,
  derive_paths ds 0 n = Ok l1 -> derive_paths ds n m = Ok l2 ->
  exists l, derive_paths ds 0 (n + m) = Ok l /\ forall x, x ∈ l -> x ∈ l1 \/ x ∈ l2.
Proof.
  intros Hn Hm Hb. induction ds as [|d ds IH]; intros l1 l2 H1 H2.
  { exists []. split; [done|]. by intros x ?%not_elem_of_nil. }
  cbn [derive_paths] in *. unfold derive_addresses_from_parsed_descriptor, u32_add in *.
  rewrite (proj2 (Z.leb_le _ _)) in H1 by lia. rewrite (proj2 (Z.leb_le _ _)) in H2 by lia.
  rewrite (proj2 (Z.leb_le _ _)) by lia. cbn [mbind outcome_bind] in *.
  replace (n + m - n) with m in H2 by lia. replace (0 + n - 0) with n in H1 by lia.
  destruct (derive_loop d 0 (Z.to_nat n)) as [a1| | |] eqn:A1; try done. cbn [mbind outcome_bind] in H1.
  destruct (derive_paths ds 0 n) as [b1| | |] eqn:B1; try done. injection H1 as <-.
  destruct (derive_loop d n (Z.to_nat m)) as [a2| | |] eqn:A2; try done. cbn [mbind outcome_bind] in H2.
  destruct (derive_paths ds n m) as [b2| | |] eqn:B2; try done. injection H2 as <-.
  destruct (IH b1 b2 eq_refl eq_refl) as (l & El & Hl).
  pose proof (derive_loop_app d (Z.to_nat n) (Z.to_nat m) 0 a1 a2 A1 ltac:(rewrite Z2Nat.id by lia; done)) as Ea.
  replace (Z.to_nat (0 + (n + m) - 0)) with (Z.to_nat n + Z.to_nat m)%nat by lia. rewrite Ea. cbn [mbind outcome_bind].
  rewrite El. cbn [mbind outcome_bind]. eexists. split; [done|]. intros x. rewrite !elem_of_app.
  intros [[?|?]|[?|?]%Hl]; auto.
Qed.

Lemma range_join n m s : 0 <= n -> 0 <= m -> n + m <= u32_max -> derivable 0 n s -> derivable n m s ->
  derivable 0 (n + m) s /\
  forall w, range_tracked w 0 n s -> range_tracked w n m s -> range_tracked w 0 (n + m) s.
Proof.
  intros Hn Hm Hb D1 D2. unfold derivable, range_tracked in *.
  destruct (has_wildcard s) as [[|]| | |] eqn:Ew; try done.
  destruct D1 as [l1 E1], D2 as [l2 E2]. unfold derive_addresses_from_descriptor in *.
  destruct (parse_and_split_descriptor s) as [ds| | |]; try done. cbn [mbind outcome_bind] in *.
  destruct (derive_paths_join n m ds Hn Hm Hb l1 l2 E1 E2) as (l & El & Hl). split; [by exists l|].
  intros w T1 T2 scripts _ Es. assert (scripts = l) as -> by congruence. apply Forall_forall. intros x Hx.
  specialize (T1 l1 eq_refl E1). specialize (T2 l2 eq_refl E2). rewrite Forall_forall in T1, T2.
  destruct (Hl x Hx); [by apply T1|by apply T2].
Qed.

(** The descriptors of the database can be derived up to the horizon, as they
    have been. *)
Definition descriptors_ok v : Prop :=
  Z.max (horizon v) DERIVATION_COUNT <= u32_max /\
  Forall (derivable INDEX_INITIAL (Z.max (horizon v) DERIVATION_COUNT)) (v_descriptors v).

(** All scripts of the stored descriptors below the horizon are followed. *)
Record desc_inv w v : Prop := {
  di_ok : descriptors_ok v;
  di_tracked : Forall (range_tracked w INDEX_INITIAL (horizon v)) (v_descriptors v);
  di_batch : v_descriptors v <> [] -> DERIVATION_COUNT <= horizon v
}.

Lemma range_tracked_more w w' start count s : tracks_more w w' -> range_tracked w start count s ->
  range_tracked w' start count s.
Proof. intros Hm Ht scripts Ew Es. eapply Forall_impl; [by apply (Ht scripts)|exact Hm]. Qed.

Lemma desc_inv_more w v w' v' : tracks_more w w' -> v_descriptors v' = v_descriptors v -> horizon v' = horizon v ->
  desc_inv w v -> desc_inv w' v'.
Proof.
  intros Hm Ed Eh [[H1 H2] Ht Hb]. split; [split|..]; rewrite ?Ed, ?Eh; try done.
  eapply Forall_impl; [exact Ht|]. intros s. by apply range_tracked_more.
Qed.

(** ** Another batch *)

(** [derive_addresses] and [maybe_derive_addresses] move the horizon by at
    most one batch and change nothing else but new addresses. *)
Definition advances w v w' v' : Prop :=
  wallet_inv w' v' /\ grown w v w' v' /\ tracks_more w w' /\
  (horizon v' = horizon v \/ horizon v' = horizon v + DERIVATION_COUNT) /\
  (desc_inv w v -> desc_inv w' v').

(** A batch derived for every descriptor moves the horizon. *)
Lemma desc_inv_batch w v w' v' : 0 <= horizon v -> horizon v + DERIVATION_COUNT <= u32_max ->
  tracks_more w w' -> v_descriptors v' = v_descriptors v -> horizon v' = horizon v + DERIVATION_COUNT ->
  Forall (range_tracked w' (horizon v) DERIVATION_COUNT) (v_descriptors v) ->
  Forall (derivable (horizon v) DERIVATION_COUNT) (v_descriptors v) ->
  desc_inv w v -> desc_inv w' v'.
Proof.
  intros H0 Hm Hmore Ed Eh Ht Hd [[H1 H2] Ht0 Hb]. rewrite Forall_forall in *.
  assert (Hz : v_descriptors v <> [] -> Z.max (horizon v) DERIVATION_COUNT = horizon v) by (intros Hne%Hb; lia).
  assert (Hj : forall s, s ∈ v_descriptors v -> derivable 0 (horizon v + DERIVATION_COUNT) s /\ range_tracked w' 0 (horizon v + DERIVATION_COUNT) s).
  { intros s Hs. assert (Hne : v_descriptors v <> []) by (by intros E; rewrite E in Hs; apply not_elem_of_nil in Hs).
    specialize (H2 s Hs). rewrite (Hz Hne) in H2.
    destruct (range_join (horizon v) DERIVATION_COUNT s H0 ltac:(done) Hm H2 (Hd s Hs)) as [HJ1 HJ2].
    split; [done|]. apply HJ2; [|by apply Ht]. apply (range_tracked_more w); [done|by apply Ht0]. }
  split; [split|..]; rewrite ?Ed, ?Eh.
  - unfold DERIVATION_COUNT in *. lia.
  - apply Forall_forall. intros s Hs. rewrite Z.max_l by (unfold DERIVATION_COUNT; lia). by apply Hj.
  - apply Forall_forall. intros s Hs. by apply Hj.
  - intros _. lia.
Qed.

Lemma save_horizon_inv w v d' s i : wallet_inv w v -> v_stats v = Some s ->
  db_rep d' (put_stats (set_derivation_index i s) v) -> horizon v <= i ->
  wallet_inv (set_database d' w) (put_stats (set_derivation_index i s) v).
Proof.
  intros [Hdb Hview Hadd Hset Hsav Hidx Hst Hder] Hs Hr Hi.
  assert (Hext : forall h a, address_ok v h a -> address_ok (put_stats (set_derivation_index i s) v) h a)
    by (intros h a; by apply address_ok_extends, extends_same).
  assert (Hh : horizon (put_stats (set_derivation_index i s) v) = i) by done.
  split; cbn; rewrite ?Hh; try done.
  - destruct Hview as [Ha Ht]. split; [|done]. intros h a Hx. by apply Hext, Ha.
  - intros h a Hx. by apply Hext, Hadd.
  - destruct Hst as [_ H0]. split; [done|lia].
  - intros h j Hj. specialize (Hder h j Hj). lia.
Qed.

Lemma derive_addresses_advances w v : wallet_inv w v -> horizon v + DERIVATION_COUNT <= u32_max ->
  exists v', advances w v (derive_addresses w).2 v' /\
    match (derive_addresses w).1 with
    | Ok _ => horizon v' = horizon v + DERIVATION_COUNT /\
        Forall (range_tracked (derive_addresses w).2 (horizon v) DERIVATION_COUNT) (v_descriptors v) /\
        Forall (derivable (horizon v) DERIVATION_COUNT) (v_descriptors v)
    | Err _ => horizon v' = horizon v
    | _ => False
    end.
Proof.
  intros Hi Hm. destruct (stats_of w v Hi) as (s & Hs & Eh).
  pose proof (wi_stats w v Hi) as [_ H0].
  assert (Est : db_get_stats (database w) = Ok s) by (apply (get_stats_ok _ v); [apply Hi|done]).
  assert (Eds : db_get_descriptors (database w) = Ok (v_descriptors v)) by (apply get_descriptors_ok, Hi).
  pose proof (derive_range_derives (horizon v) DERIVATION_COUNT (v_descriptors v) w v Hi H0 ltac:(done) ltac:(done) Hm)
    as Hd.
  pose proof (derives_tracks _ _ _ _ Hd) as Ht.
  assert (Ew : forall d, d = database w -> set_database d w = w) by (intros d ->; by destruct w).
  destruct (derive_addresses w) as [r w'] eqn:Er.
  unfold derive_addresses, mbind, stm_bind, on_db, gets in Er. rewrite Est in Er. cbn [map_err] in Er.
  rewrite Ew, Eds in Er by done. cbn [map_err] in Er. rewrite Ew in Er by done. unfold desc_err in Er. rewrite Eh in Er.
  destruct (derive_range _ _ _ w) as [o w1] eqn:Edr. destruct Hd as (v1 & Hi1 & Hg & Hs1 & _ & Ho). cbn [fst snd] in *.
  pose proof (horizon_stats v v1 Hs1) as Hz. pose proof (gr_descriptors _ _ _ _ Hg) as Ed1.
  destruct o as [l|e| |]; cbn [map_err] in Er; try done.
  2:{ injection Er as <- <-. exists v1. unfold advances. split_and!; try done; [by left|by apply desc_inv_more]. }
  assert (Hder : Forall (derivable (horizon v) DERIVATION_COUNT) (v_descriptors v))
    by (apply (derive_range_derivable _ _ _ w l); by rewrite Edr).
  unfold lift, u32_add in Er. rewrite (proj2 (Z.leb_le _ _)) in Er by lia.
  destruct (save_stats_ok (database w1) v1 (set_derivation_index (horizon v + DERIVATION_COUNT) s) (wi_db _ _ Hi1))
    as (d' & Ed & Hr). rewrite Ed in Er. cbn [map_err] in Er. injection Er as <- <-.
  exists (put_stats (set_derivation_index (horizon v + DERIVATION_COUNT) s) v1).
  assert (Hi2 : wallet_inv (set_database d' w1) (put_stats (set_derivation_index (horizon v + DERIVATION_COUNT) s) v1)).
  { apply save_horizon_inv; try done; [congruence|]. rewrite Hz. unfold DERIVATION_COUNT. lia. }
  split; [|by split_and!]. unfold advances. split_and!; try done; [|by right|by apply desc_inv_batch].
  destruct Hg. by split.
Qed.

Lemma maybe_derive_advances {E} w v h : wallet_inv w v -> horizon v + 2 * DERIVATION_COUNT <= u32_max ->
  exists w' v', maybe_derive_addresses (E := E) h w = (Ok tt, w') /\ advances w v w' v'.
Proof.
  intros Hi Hm. unfold maybe_derive_addresses, mbind, stm_bind, gets.
  assert (Hsame : advances w v w v) by (split_and!; [done|apply grown_refl|by intros ?|by left|done]).
  destruct (derived_index w !! h) as [i|] eqn:Ei; [|by exists w, v].
  destruct (stats_of w v Hi) as (s & Hs & Eh). pose proof (wi_derived w v Hi h i Ei) as Hb.
  unfold on_db_expect. rewrite (get_stats_ok _ v s (wi_db w v Hi) Hs). cbn [expect_ok].
  assert (Ew : set_database (database w) w = w) by by destruct w. rewrite Ew.
  unfold lift, u32_add, DERIVATION_COUNT, GAP_LIMIT in *. rewrite (proj2 (Z.leb_le _ _)) by lia.
  destruct (_ <=? _); [|by exists w, v].
  destruct (derive_addresses_advances w v Hi) as (v' & Ha & Ho); [unfold DERIVATION_COUNT; lia|].
  unfold ignore_err. destruct (derive_addresses w) as [[x|e| |] w']; try done; by exists w', v'.
Qed.

End WalletFacts.
