(* ===== verification/WalletTx.v ===== *)
(** Transactions in the watch-only wallet: caching a transaction keeps the
    invariant, and changes the unspent outputs of its address only. *)

From stdpp Require Import base gmap list strings fin_maps.
From Stdlib Require Import ZArith Lia.
From S2P Require Import Prelude Bitcoin Codec Merkle Descriptors Wallet WalletDb WalletFacts.

Section WalletTx.
Context {TL : TxLib} {SL : Sha256Lib} {DL : DescriptorLib}.
Context {D : Type} {DB : AddressCacheDatabase D} {DBok : AddressCacheDatabaseOk D}.
Implicit Types (w : AddressCacheInner D) (v : DbView) (a : CachedAddress).

(** * Transactions *)

(** A transaction stored under an id has the outputs of the one it replaces. *)
Definition same_outputs v (tx : Transaction) : Prop :=
  forall t, v_transactions v !! compute_txid tx = Some t -> tx_output (ct_tx t) = tx_output tx.

Lemma put_transaction_extends v c :
  ct_hash c = compute_txid (ct_tx c) -> same_outputs v (ct_tx c) -> extends v (put_transaction c v).
Proof.
  intros Eh Hs. split.
  - intros x Hx. cbn. apply lookup_insert_is_Some'. auto.
  - intros o out. unfold output_of. cbn. destruct (decide (ct_hash c = op_txid o)) as [<-|Hne].
    + rewrite lookup_insert_eq. cbn. destruct (_ !! _) as [t|] eqn:Et; [|done]. cbn.
      rewrite Eh in Et. by rewrite (Hs t Et).
    + by rewrite lookup_insert_ne.
Qed.

Lemma put_transaction_inv {E} w v c :
  wallet_inv w v -> ct_hash c = compute_txid (ct_tx c) -> same_outputs v (ct_tx c) ->
  exists d', on_db_expect (E := E) (db_save_transaction c) w = (Ok tt, set_database d' w) /\
    wallet_inv (set_database d' w) (put_transaction c v).
Proof.
  intros [Hdb Hview Hadd Hset Hsav Hidx Hst Hder] Eh Hs.
  destruct (on_db_expect_ok (E := E) w _ _ (save_transaction_ok (database w) v c Hdb ltac:(done))) as (d' & E1 & Hr).
  exists d'. split; [done|]. pose proof (put_transaction_extends v c Eh Hs) as Hext.
  split; cbn; try done.
  - destruct Hview as [Ha Ht]. split.
    + intros h a Hx. by apply (address_ok_extends v), Ha.
    + cbn. intros x t [[<- <-]|[_ Hx]]%lookup_insert_Some; [done|by apply Ht].
  - intros h a Hx. by apply (address_ok_extends v), Hadd.
Qed.

(** What a change of the address [h] leaves alone. *)
Record changed (h : Z) a' w v w' v' : Prop := {
  ch_map : address_map w' = <[h := a']> (address_map w);
  ch_set : script_set w' = script_set w;
  ch_derived : derived_index w' = derived_index w;
  ch_transactions : v_transactions v' = v_transactions v;
  ch_stats : v_stats v' = v_stats v;
  ch_descriptors : v_descriptors v' = v_descriptors v
}.

Lemma changed_tracks h a' w v w' v' : changed h a' w v w' v' -> tracks_more w w'.
Proof.
  intros [Em _ Ed _ _ _] s [Hf Hi]. split; [|by rewrite Ed]. unfold followed. rewrite Em.
  apply lookup_insert_is_Some'. by right.
Qed.

Lemma push_history_inv {E} w v h a x :
  wallet_inv w v -> address_map w !! h = Some a -> is_Some (v_transactions v !! x) ->
  exists w' v' a', push_history (E := E) h a x w = (Ok tt, w') /\ wallet_inv w' v' /\ changed h a' w v w' v' /\
    utxo_index w' = utxo_index w /\ ca_utxos a' = ca_utxos a /\ ca_balance a' = ca_balance a.
Proof.
  intros Hi Ha Hx. unfold push_history. case_bool_decide as Hin.
  { exists w, v, a. split_and!; try done. split; try done. by rewrite insert_id. }
  pose proof (wi_address w v Hi h a Ha) as Hok.
  set (a' := mkCachedAddress (ca_script_hash a) (ca_balance a) (ca_script a) (ca_transactions a ++ [x]) (ca_utxos a)).
  assert (Hok' : address_ok v h a').
  { destruct Hok as [? ? ? ? ? [Hn Hist]]. split; try done. cbn. split.
    - apply NoDup_app. split_and!; [done| |apply NoDup_singleton]. by intros y Hy ->%list_elem_of_singleton.
    - intros y [Hy| ->%list_elem_of_singleton]%elem_of_app; [by apply Hist|done]. }
  assert (Hw : writes db_rep (db_update a') (database (set_address h a' w)) (put_address a' v)).
  { apply update_ok; [apply Hi|]. cbn. rewrite (ao_hash v h a Hok). apply (saved_iff w v h Hi). by rewrite Ha. }
  destruct (on_db_expect_ok (E := E) _ _ _ Hw) as (d' & E1 & Hr). unfold mbind, stm_bind, modify.
  rewrite E1. eexists _, (put_address a' v), a'. split; [done|]. split; [|by split_and!].
  apply (set_address_inv w v h a a' (utxo_index w) d' (put_address a' v)); try done; [|by right].
  intros o k. case_decide as Hk; [|done]. subst k. rewrite (wi_index w v Hi o h). split.
  - intros (y & Hy & Ho). by simplify_eq.
  - intros Ho. by exists a.
Qed.

Lemma index_unique w v o h a : wallet_inv w v -> address_map w !! h = Some a -> o ∈ ca_utxos a ->
  utxo_index w !! o = Some h.
Proof. intros Hi Ha Ho. apply (wi_index w v Hi). by exists a. Qed.

Lemma spend_utxo_inv {E} w v h a o tx vin txin :
  wallet_inv w v -> address_map w !! h = Some a -> o ∈ ca_utxos a ->
  tx_input tx !! vin = Some txin -> previous_output txin = o ->
  exists a' w', spend_utxo (E := E) (coin_value v o) vin tx h a w = (Ok a', w') /\ wallet_inv w' v /\
    changed h a' w v w' v /\ utxo_index w' = delete o (utxo_index w) /\ ca_balance a' <= ca_balance a.
Proof.
  intros Hi Ha Ho Hin Hprev. pose proof (wi_address w v Hi h a Ha) as Hok.
  pose proof (coin_value_nonneg v h a o Hok Ho) as Hc0.
  destruct (list_find_elem_of (fun utxo => utxo = o) (ca_utxos a) o Ho eq_refl) as [[i o'] Hf].
  pose proof Hf as (Hi' & -> & _)%list_find_Some.
  pose proof (take_drop_middle _ _ _ Hi') as Hsplit.
  set (l1 := take i (ca_utxos a)) in *. set (l2 := drop (S i) (ca_utxos a)) in *.
  destruct Hok as [Hh Hr Hnd Hco Hb Hhist].
  assert (Hsum : ca_balance a = coin_value v o + sum_Z (coin_value v) (l1 ++ l2)).
  { rewrite Hb, <-Hsplit, !sum_Z_app. cbn. lia. }
  assert (Hsub : forall x, x ∈ l1 ++ l2 -> x ∈ ca_utxos a).
  { intros x Hx. rewrite <-Hsplit, elem_of_app, elem_of_cons. apply elem_of_app in Hx. tauto. }
  assert (Hpos : 0 <= sum_Z (coin_value v) (l1 ++ l2)).
  { apply sum_Z_nonneg. intros x Hx. destruct (Hco x (Hsub x Hx)) as (out & Eo & _ & Hn). unfold coin_value. by rewrite Eo. }
  rewrite <-Hsplit in Hnd. apply NoDup_app in Hnd as (Hn1 & Hdis & [Hno Hn2]%NoDup_cons).
  unfold spend_utxo, mbind, stm_bind, lift, modify. rewrite (proj2 (Z.leb_le _ _)) by lia.
  rewrite Hin. cbn [expect]. rewrite Hprev, Hf, delete_take_drop.
  change (take i (ca_utxos a)) with l1. change (drop (S i) (ca_utxos a)) with l2.
  set (a' := mkCachedAddress (ca_script_hash a) (ca_balance a - coin_value v o) (ca_script a) (ca_transactions a) (l1 ++ l2)).
  exists a'. eexists. split; [done|]. split; [|split_and!; [by split|done|cbn; lia]].
  apply (set_address_inv w v h a a' (delete o (utxo_index w)) (database w) v); try done; [| |by left].
  - split; try done; cbn.
    + apply NoDup_app. split_and!; [done| |done]. intros x Hx Hx2. apply (Hdis x Hx). by right.
    + intros x Hx. by apply Hco, Hsub.
    + lia.
  - intros x k. rewrite lookup_delete_Some. case_decide as Hk; rewrite (wi_index w v Hi x k); [subst k; cbn|].
    + split.
      * intros [Hne (y & Hy & Hx)]. simplify_eq. rewrite <-Hsplit, elem_of_app, elem_of_cons in Hx.
        apply elem_of_app. destruct Hx as [?|[?|?]]; [by left|congruence|by right].
      * intros Hx. split; [|exists a; split; [done|by apply Hsub]]. intros <-.
        apply elem_of_app in Hx as [Hx|Hx]; [|done]. apply (Hdis o Hx). by left.
    + split; [tauto|]. intros Hx. split; [|done]. intros <-. destruct Hx as (y & Hy & Hx).
      pose proof (index_unique w v o h a Hi Ha Ho). pose proof (index_unique w v o k y Hi Hy Hx). congruence.
Qed.

Lemma receive_utxo_inv {E} w v h a tx vout out :
  let o := mkOutPoint (compute_txid tx) (wrap32 (Z.of_nat vout)) in
  wallet_inv w v -> address_map w !! h = Some a -> utxo_index w !! o = None ->
  output_of v o = Some out -> get_spk_hash (script_pubkey out) = h -> 0 <= txo_value out ->
  ca_balance a + txo_value out <= u64_max ->
  exists a' w', receive_utxo (E := E) (txo_value out) vout tx h a w = (Ok a', w') /\ wallet_inv w' v /\
    changed h a' w v w' v /\ utxo_index w' = <[o := h]> (utxo_index w) /\
    ca_balance a' = ca_balance a + txo_value out.
Proof.
  intros o Hi Ha Hnone Eo Hspk Hv Hroom. pose proof (wi_address w v Hi h a Ha) as Hok.
  assert (Hno : o ∉ ca_utxos a) by (intros Hx; by rewrite (index_unique w v o h a Hi Ha Hx) in Hnone).
  unfold receive_utxo, mbind, stm_bind, modify, lift, u64_add. cbn [database set_address set_utxos].
  rewrite (proj2 (Z.leb_le _ _)) by lia. fold o.
  set (a' := mkCachedAddress (ca_script_hash a) (ca_balance a + txo_value out) (ca_script a) (ca_transactions a)
    (ca_utxos a ++ [o])).
  exists a'. eexists. split; [done|]. unfold set_address, set_utxos. cbn. rewrite insert_insert_eq.
  split; [|by split_and!].
  apply (set_address_inv w v h a a' (<[o := h]> (utxo_index w)) (database w) v); try done; [| |by left].
  - destruct Hok as [Hh Hr Hnd Hco Hb Hhist]. split; try done; cbn.
    + apply NoDup_app. split_and!; [done| |apply NoDup_singleton]. by intros x Hx ->%list_elem_of_singleton.
    + intros x [Hx| ->%list_elem_of_singleton]%elem_of_app; [by apply Hco|by exists out].
    + rewrite sum_Z_app, Hb. cbn. unfold coin_value at 3. rewrite Eo. cbn. lia.
  - intros x k. rewrite lookup_insert_Some. case_decide as Hk.
    + subst k. rewrite (wi_index w v Hi x h). cbn. rewrite elem_of_app, list_elem_of_singleton. split.
      * intros [[<- _]|[_ (y & Hy & Hx)]]; [by right|]. simplify_eq. by left.
      * intros [Hx| ->]; [|by left]. right. split; [by intros <-|by exists a].
    + split; [by intros [[_ ?]|[_ ?]]|]. intros Hx. right. split; [|done]. intros <-. congruence.
Qed.

(** * Caching a transaction *)

(** A bound for all balances. *)
Definition capped w (bound : Z) : Prop := forall h a, address_map w !! h = Some a -> ca_balance a <= bound.

(** A confirmed transaction [c] was cached: the unspent outputs are now [u],
    and no balance grew by more than [gain]. *)
Record stepped w v (c : CachedTransaction) (u : gmap OutPoint Z) (gain : Z) w' v' : Prop := {
  sp_inv : wallet_inv w' v';
  sp_set : script_set w ⊆ script_set w';
  sp_utxo : utxo_index w' = u;
  sp_transactions : v_transactions v' = <[ct_hash c := c]> (v_transactions v);
  sp_horizon : horizon v <= horizon v' <= horizon v + DERIVATION_COUNT;
  sp_cap : forall bound, 0 <= bound -> capped w bound -> capped w' (bound + gain);
  sp_desc : desc_inv w v -> desc_inv w' v'
}.

Lemma grown_capped w v w' v' bound : wallet_inv w' v' -> grown w v w' v' -> 0 <= bound ->
  capped w bound -> capped w' bound.
Proof.
  intros Hi Hg Hb Hc h a Ha. destruct (gr_new _ _ _ _ Hg h a Ha) as [Ha'|Hnil]; [by apply (Hc h)|].
  rewrite (ao_balance _ _ _ (wi_address _ _ Hi h a Ha)), Hnil. done.
Qed.

Lemma grown_set w v w' v' : wallet_inv w v -> wallet_inv w' v' -> grown w v w' v' -> script_set w ⊆ script_set w'.
Proof.
  intros Hi Hi' Hg h. rewrite (wi_set w v Hi), (wi_set w' v' Hi'). intros [a Ha]. exists a.
  by apply (lookup_weaken _ _ _ _ Ha), (gr_map _ _ _ _ Hg).
Qed.

(** The part of [cache_transaction] before the address changes. *)
Lemma cache_prepare {E} w v tx height value mp pos index is_spend h a :
  let c := mkCachedTx tx height (Some mp) (compute_txid tx) pos in
  wallet_inv w v -> same_outputs v tx -> horizon v + 2 * DERIVATION_COUNT <= u32_max ->
  address_map w !! h = Some a ->
  exists w1 v1,
    cache_transaction (E := E) tx height value mp pos index is_spend h w =
      (if 0 <? height then save_non_mempool_tx tx is_spend value index h c w1 else save_mempool_tx h c w1) /\
    wallet_inv w1 v1 /\ grown w (put_transaction c v) w1 v1 /\
    v_transactions v1 = <[compute_txid tx := c]> (v_transactions v) /\
    (horizon v1 = horizon v \/ horizon v1 = horizon v + DERIVATION_COUNT) /\ extends v v1 /\
    address_map w1 !! h = Some a /\ (desc_inv w v -> desc_inv w1 v1).
Proof.
  intros c Hi Hs Hm Ha.
  destruct (put_transaction_inv (E := E) w v c Hi eq_refl Hs) as (d' & E1 & Hi1).
  destruct (maybe_derive_advances (E := E) (set_database d' w) (put_transaction c v) h Hi1) as (w1 & v1 & E2 & Hi2 & Hg & Hmore & Hh & Hdesc).
  { done. }
  exists w1, v1. pose proof (gr_transactions _ _ _ _ Hg) as Et. split_and!; try done.
  - unfold cache_transaction, mbind, stm_bind. fold c. rewrite E1. unfold follow, mbind, stm_bind, gets.
    cbn [address_map set_database]. rewrite Ha. cbn. unfold mret, stm_ret. rewrite E2. by destruct (0 <? height).
  - destruct Hg. by split.
  - pose proof (put_transaction_extends v c eq_refl Hs) as [Hx Ho]. split; unfold output_of; rewrite Et; [apply Hx|apply Ho].
  - apply (lookup_weaken _ _ _ _ Ha), (gr_map _ _ _ _ Hg).
  - intros Hd. apply Hdesc. revert Hd. apply desc_inv_more; [|done|done]. intros s Hs'. exact Hs'.
Qed.

(** The part after the address has changed. *)
Lemma cache_finish {E} w v w1 v1 w2 c h a a2 u gain :
  wallet_inv w v -> wallet_inv w1 v1 -> grown w (put_transaction c v) w1 v1 ->
  v_transactions v1 = <[ct_hash c := c]> (v_transactions v) ->
  horizon v1 = horizon v \/ horizon v1 = horizon v + DERIVATION_COUNT ->
  address_map w1 !! h = Some a -> wallet_inv w2 v1 -> changed h a2 w1 v1 w2 v1 -> utxo_index w2 = u ->
  0 <= gain -> ca_balance a2 <= ca_balance a + gain -> (desc_inv w v -> desc_inv w1 v1) ->
  exists w3 v3, push_history (E := E) h a2 (ct_hash c) w2 = (Ok tt, w3) /\ stepped w v c u gain w3 v3.
Proof.
  intros Hi Hi1 Hg Ht Hh Ha Hi2 Hc Hu Hgain Hb Hdesc.
  destruct (push_history_inv (E := E) w2 v1 h a2 (ct_hash c) Hi2) as (w3 & v3 & a3 & E3 & Hi3 & Hc3 & Hu3 & _ & Hb3).
  { by rewrite (ch_map _ _ _ _ _ _ Hc), lookup_insert_eq. }
  { by rewrite Ht, lookup_insert_eq. }
  exists w3, v3. split; [done|]. pose proof (horizon_stats _ _ (ch_stats _ _ _ _ _ _ Hc3)) as Hz.
  split; try done.
  - rewrite (ch_set _ _ _ _ _ _ Hc3), (ch_set _ _ _ _ _ _ Hc). intros k. rewrite (wi_set w v Hi), (wi_set w1 v1 Hi1).
    intros [x Hx]. exists x. by apply (lookup_weaken _ _ _ _ Hx), (gr_map _ _ _ _ Hg).
  - congruence.
  - rewrite (ch_transactions _ _ _ _ _ _ Hc3). done.
  - rewrite Hz. unfold DERIVATION_COUNT in *. lia.
  - intros bound H0 Hcap k x Hx. pose proof (grown_capped _ _ _ _ bound Hi1 Hg H0 Hcap) as Hcap1.
    rewrite (ch_map _ _ _ _ _ _ Hc3), (ch_map _ _ _ _ _ _ Hc), insert_insert_eq in Hx.
    apply lookup_insert_Some in Hx as [[_ <-]|[_ Hx]].
    + rewrite Hb3. specialize (Hcap1 h a Ha). lia.
    + specialize (Hcap1 k x Hx). lia.
  - intros Hd%Hdesc. revert Hd. apply desc_inv_more; [|by rewrite (ch_descriptors _ _ _ _ _ _ Hc3)|done].
    intros s Hs. by apply (changed_tracks _ _ _ _ _ _ Hc3), (changed_tracks _ _ _ _ _ _ Hc).
Qed.

Lemma cache_spend {E} w v tx height mp pos vin txin h :
  let o := previous_output txin in
  wallet_inv w v -> same_outputs v tx -> horizon v + 2 * DERIVATION_COUNT <= u32_max -> 0 < height ->
  utxo_index w !! o = Some h -> tx_input tx !! vin = Some txin ->
  exists w' v', cache_transaction (E := E) tx height (coin_value v o) mp pos vin true h w = (Ok tt, w') /\
    stepped w v (mkCachedTx tx height (Some mp) (compute_txid tx) pos) (delete o (utxo_index w)) 0 w' v'.
Proof.
  intros o Hi Hs Hm Hh Hidx Hin. pose proof Hidx as (a & Ha & Ho)%(wi_index w v Hi).
  destruct (cache_prepare (E := E) w v tx height (coin_value v o) mp pos vin true h a Hi Hs Hm Ha)
    as (w1 & v1 & Ec & Hi1 & Hg & Ht & Hz & Hext & Ha1 & Hdesc).
  assert (Hv : coin_value v o = coin_value v1 o).
  { destruct (ao_coin v h a (wi_address w v Hi h a Ha) o Ho) as (out & Eo & _). unfold coin_value.
    by rewrite Eo, (proj2 Hext o out Eo). }
  destruct (spend_utxo_inv (E := E) w1 v1 h a o tx vin txin Hi1 Ha1 Ho Hin eq_refl) as (a2 & w2 & E2 & Hi2 & Hc2 & Hu2 & Hb2).
  destruct (cache_finish (E := E) w v w1 v1 w2 _ h a a2 _ 0 Hi Hi1 Hg Ht Hz Ha1 Hi2 Hc2 Hu2) as (w3 & v3 & E3 & Hst); [done|lia|done|].
  exists w3, v3. rewrite (gr_utxo _ _ _ _ Hg) in Hst. split; [|done].
  rewrite Ec, (proj2 (Z.ltb_lt _ _) Hh). unfold save_non_mempool_tx, mbind, stm_bind, gets. rewrite Ha1, Hv, E2. exact E3.
Qed.

Lemma cache_receive {E} w v tx height mp pos vout out :
  let o := mkOutPoint (compute_txid tx) (wrap32 (Z.of_nat vout)) in
  let h := get_spk_hash (script_pubkey out) in
  wallet_inv w v -> same_outputs v tx -> horizon v + 2 * DERIVATION_COUNT <= u32_max -> 0 < height ->
  h ∈ script_set w -> utxo_index w !! o = None -> Z.of_nat vout <= u32_max ->
  tx_output tx !! vout = Some out -> 0 <= txo_value out ->
  (forall a, address_map w !! h = Some a -> ca_balance a + txo_value out <= u64_max) ->
  exists w' v', cache_transaction (E := E) tx height (txo_value out) mp pos vout false h w = (Ok tt, w') /\
    stepped w v (mkCachedTx tx height (Some mp) (compute_txid tx) pos) (<[o := h]> (utxo_index w)) (txo_value out) w' v'.
Proof.
  intros o h Hi Hs Hm Hh Hset Hnone Hvout Hout Hval Hroom.
  apply (wi_set w v Hi) in Hset as [a Ha].
  destruct (cache_prepare (E := E) w v tx height (txo_value out) mp pos vout false h a Hi Hs Hm Ha)
    as (w1 & v1 & Ec & Hi1 & Hg & Ht & Hz & Hext & Ha1 & Hdesc).
  destruct (receive_utxo_inv (E := E) w1 v1 h a tx vout out) as (a2 & w2 & E2 & Hi2 & Hc2 & Hu2 & Hb2); try done.
  - by rewrite (gr_utxo _ _ _ _ Hg).
  - unfold output_of. rewrite Ht. cbn. rewrite lookup_insert_eq. cbn. unfold wrap32.
    rewrite Z.mod_small by (unfold u32_max in *; lia). by rewrite Nat2Z.id.
  - by apply Hroom.
  - destruct (cache_finish (E := E) w v w1 v1 w2 _ h a a2 _ (txo_value out) Hi Hi1 Hg Ht Hz Ha1 Hi2 Hc2 Hu2)
      as (w3 & v3 & E3 & Hst); [done|lia|done|].
    exists w3, v3. rewrite (gr_utxo _ _ _ _ Hg) in Hst. split; [|done].
    rewrite Ec, (proj2 (Z.ltb_lt _ _) Hh). unfold save_non_mempool_tx, mbind, stm_bind, gets. rewrite Ha1, E2. exact E3.
Qed.
End WalletTx.
