(* ===== verification/WalletBlocks.v ===== *)
(** Blocks in the watch-only wallet: processing a block changes the unspent
    outputs of every followed address as the ledger of the block does. *)

From stdpp Require Import base gmap list strings fin_maps.
From Stdlib Require Import ZArith Lia.
From S2P Require Import Prelude Bitcoin Codec Merkle Descriptors Wallet WalletDb WalletFacts WalletTx.

(** * The ledger of an address *)

(** The outputs an address owns. *)
Definition owned (h : Z) (u : gmap OutPoint Z) : gset OutPoint := dom (filter (fun p => p.2 = h) u).

Lemma elem_of_owned h u o : o ∈ owned h u <-> u !! o = Some h.
Proof.
  unfold owned. rewrite elem_of_dom. split.
  - intros [k [Hk Hp]%map_lookup_filter_Some]. cbn in Hp. by subst.
  - intros Hk. exists h. by apply map_lookup_filter_Some.
Qed.

Section Ledger.
Context {TL : TxLib} {SL : Sha256Lib}.

(** The outputs of a transaction that pay the script hash [h]. *)
Fixpoint coins_from (h : Z) (txid : Txid) (n : nat) (outs : list TxOut) : gset OutPoint :=
  match outs with
  | [] => ∅
  | out :: rest =>
      (if decide (get_spk_hash (script_pubkey out) = h) then {[mkOutPoint txid (Z.of_nat n)]} else ∅)
      ∪ coins_from h txid (S n) rest
  end.

Definition spent_by (tx : Transaction) : gset OutPoint := list_to_set (map previous_output (tx_input tx)).

(** A transaction removes what it spends and adds what it pays. *)
Definition ledger_tx (h : Z) (coins : gset OutPoint) (tx : Transaction) : gset OutPoint :=
  (coins ∖ spent_by tx) ∪ coins_from h (compute_txid tx) 0 (tx_output tx).

Definition block_value (txs : list Transaction) : Z := sum_Z (fun tx => sum_Z txo_value (tx_output tx)) txs.
Definition block_steps (txs : list Transaction) : Z :=
  sum_Z (fun tx => Z.of_nat (length (tx_input tx) + length (tx_output tx))) txs.
End Ledger.

Section WalletBlocks.
Context {TL : TxLib} {SL : Sha256Lib} {DL : DescriptorLib} {HL : HashLib} {MB : MerkleBackend}.
Context {MBok : MerkleBackendOk}.
Context {D : Type} {DB : AddressCacheDatabase D} {DBok : AddressCacheDatabaseOk D} {E : Type}.
Implicit Types (w : AddressCacheInner D) (v : DbView).

Lemma from_block_ok (b : Block) pos tx : txdata b !! pos = Some tx -> exists p, from_block b (Z.of_nat pos) = Ok p.
Proof.
  intros Hpos. unfold from_block, from_block_hashes. rewrite Nat2Z.id.
  assert (Hl : map compute_txid (txdata b) !! pos = Some (compute_txid tx)) by (by apply list_lookup_fmap_Some; exists tx).
  rewrite Hl. cbn. destruct (branch_to_root _ _ _ Hl) as (br & root & mutated & -> & _). cbn. by eexists.
Qed.

(** * The steps of a transaction *)

(** [n] steps of the transaction [tx] that add at most [gain] to a balance. *)
Record moves (tx : Transaction) (n gain : Z) w v w' v' : Prop := {
  mv_inv : wallet_inv w' v';
  mv_set : script_set w ⊆ script_set w';
  mv_other : forall x, x <> compute_txid tx -> v_transactions v' !! x = v_transactions v !! x;
  mv_outputs : same_outputs v' tx;
  mv_horizon : horizon v <= horizon v' <= horizon v + DERIVATION_COUNT * n;
  mv_cap : forall bound, 0 <= bound -> capped w bound -> capped w' (bound + gain);
  mv_desc : desc_inv w v -> desc_inv w' v'
}.

Lemma moves_refl tx w v : wallet_inv w v -> same_outputs v tx -> moves tx 0 0 w v w v.
Proof. intros Hi Hs. split; try done; [lia|]. intros bound _. by rewrite Z.add_0_r. Qed.

Lemma moves_trans tx n1 g1 n2 g2 w v w1 v1 w2 v2 : 0 <= g1 ->
  moves tx n1 g1 w v w1 v1 -> moves tx n2 g2 w1 v1 w2 v2 -> moves tx (n1 + n2) (g1 + g2) w v w2 v2.
Proof.
  intros Hg [I1 S1 O1 P1 Z1 C1 D1] [I2 S2 O2 P2 Z2 C2 D2]. split; try done.
  - by etransitivity.
  - intros x Hx. by rewrite O2, O1.
  - lia.
  - intros bound Hb Hc. rewrite Z.add_assoc. apply C2; [lia|]. by apply C1.
  - intros Hd. by apply D2, D1.
Qed.

Lemma moves_weaken tx n g n' w v w' v' : n <= n' -> moves tx n g w v w' v' -> moves tx n' g w v w' v'.
Proof. intros Hn [I S O P Z C Dd]. split; try done. unfold DERIVATION_COUNT in *. lia. Qed.

Lemma stepped_moves tx height mp pos w v u gain w' v' :
  stepped w v (mkCachedTx tx height mp (compute_txid tx) pos) u gain w' v' -> moves tx 1 gain w v w' v'.
Proof.
  intros [Hi Hs Hu Ht Hz Hc Hd]. split; try done.
  - intros x Hx. rewrite Ht. by rewrite lookup_insert_ne.
  - intros t. rewrite Ht. cbn. rewrite lookup_insert_eq. by intros [= <-].
Qed.

Section Transaction.
Context (b : Block) (height : Z) (pos : nat) (tx : Transaction).
Context (Hpos : txdata b !! pos = Some tx) (Hheight : 0 < height).

Lemma block_input_moves w v vin txin :
  wallet_inv w v -> same_outputs v tx -> horizon v + 2 * DERIVATION_COUNT <= u32_max ->
  tx_input tx !! vin = Some txin ->
  exists w' v', block_input (E := E) b height pos tx vin txin w = (Ok tt, w') /\ moves tx 1 0 w v w' v' /\
    utxo_index w' = delete (previous_output txin) (utxo_index w).
Proof.
  intros Hi Hs Hm Hin. unfold block_input, mbind, stm_bind, gets.
  destruct (utxo_index w !! previous_output txin) as [h|] eqn:Hidx.
  2:{ exists w, v. split; [done|]. split; [|by rewrite delete_id]. apply (moves_weaken tx 0); [done|by apply moves_refl]. }
  pose proof Hidx as (a & Ha & Ho)%(wi_index w v Hi).
  destruct (ao_coin v h a (wi_address w v Hi h a Ha) _ Ho) as (out & Eo & _).
  destruct (from_block_ok b pos tx Hpos) as [mp Emp].
  destruct (cache_spend (E := E) w v tx height mp (wrap32 (Z.of_nat pos)) vin txin h Hi Hs Hm Hheight Hidx Hin)
    as (w' & v' & Ec & Hst).
  exists w', v'. split; [|split; [by eapply stepped_moves|by apply (sp_utxo _ _ _ _ _ _ _ Hst)]].
  unfold lift. rewrite Ha. cbn [expect]. unfold get_transaction.
  unfold output_of in Eo. destruct (v_transactions v !! op_txid (previous_output txin)) as [t|] eqn:Et; [|done].
  rewrite (get_transaction_ok _ v _ t (wi_db w v Hi) Et). cbn [ok_opt expect]. cbn in Eo. rewrite Eo. cbn [expect].
  rewrite Emp. cbn [expect_ok]. rewrite (ao_hash v h a (wi_address w v Hi h a Ha)).
  unfold coin_value, output_of in Ec. rewrite Et in Ec. cbn in Ec. rewrite Eo in Ec. exact Ec.
Qed.

Lemma block_inputs_moves rest : forall vin w v,
  wallet_inv w v -> same_outputs v tx -> drop vin (tx_input tx) = rest ->
  horizon v + DERIVATION_COUNT * (Z.of_nat (length rest) + 2) <= u32_max ->
  exists w' v', block_inputs (E := E) b height pos tx vin rest w = (Ok tt, w') /\
    moves tx (Z.of_nat (length rest)) 0 w v w' v' /\
    utxo_index w' = foldl (fun u i => delete (previous_output i) u) (utxo_index w) rest.
Proof.
  induction rest as [|txin rest IH]; intros vin w v Hi Hs Hd Hm; cbn [length] in Hm.
  { exists w, v. split_and!; try done. by apply moves_refl. }
  destruct (block_input_moves w v vin txin Hi Hs) as (w1 & v1 & E1 & M1 & U1).
  { unfold DERIVATION_COUNT in *. lia. }
  { rewrite <-(Nat.add_0_r vin), <-lookup_drop, Hd. done. }
  destruct (IH (S vin) w1 v1) as (w2 & v2 & E2 & M2 & U2).
  { apply M1. } { apply M1. }
  { rewrite <-(Nat.add_1_r vin), <-drop_drop, Hd. done. }
  { pose proof (mv_horizon _ _ _ _ _ _ _ M1). unfold DERIVATION_COUNT in *. lia. }
  exists w2, v2. split_and!.
  - cbn [block_inputs]. unfold mbind, stm_bind. by rewrite E1.
  - cbn [length]. replace (Z.of_nat (S (length rest))) with (1 + Z.of_nat (length rest)) by lia.
    by apply (moves_trans tx 1 0 (Z.of_nat (length rest)) 0 w v w1 v1).
  - cbn. by rewrite U2, U1.
Qed.

Abbreviation coin n := (mkOutPoint (compute_txid tx) (Z.of_nat n)) (only parsing).

Lemma block_output_moves w v n out bound :
  wallet_inv w v -> same_outputs v tx -> horizon v + 2 * DERIVATION_COUNT <= u32_max ->
  tx_output tx !! n = Some out -> 0 <= txo_value out -> Z.of_nat n <= u32_max ->
  utxo_index w !! coin n = None -> capped w bound -> bound + txo_value out <= u64_max ->
  exists w' v' l, block_output (E := E) b height pos tx n out w = (Ok l, w') /\
    moves tx 1 (txo_value out) w v w' v' /\
    utxo_index w' = if decide (get_spk_hash (script_pubkey out) ∈ script_set w)
                    then <[coin n := get_spk_hash (script_pubkey out)]> (utxo_index w) else utxo_index w.
Proof.
  intros Hi Hs Hm Hout Hv Hn Hnone Hcap Hroom.
  unfold block_output, mbind, stm_bind, gets. case_decide as Hin.
  2:{ rewrite bool_decide_eq_false_2 by done. exists w, v, []. split_and!; try done.
      pose proof (moves_refl tx w v Hi Hs) as [? ? ? ? ? Hc ?]. split; try done; [unfold DERIVATION_COUNT; lia|].
      intros bd H0 Hcp k a Ha. specialize (Hcp k a Ha). lia. }
  rewrite bool_decide_eq_true_2 by done. destruct (from_block_ok b pos tx Hpos) as [mp Emp].
  assert (Hw : wrap32 (Z.of_nat n) = Z.of_nat n) by (unfold wrap32; apply Z.mod_small; unfold u32_max in *; lia).
  destruct (cache_receive (E := E) w v tx height mp (wrap32 (Z.of_nat pos)) n out) as (w' & v' & Ec & Hst); try done.
  - by rewrite Hw.
  - intros a Ha. specialize (Hcap _ a Ha). lia.
  - exists w', v', [(tx, out)]. split_and!.
    + unfold lift. rewrite Emp. cbn [expect_ok]. by rewrite Ec.
    + by eapply stepped_moves.
    + rewrite (sp_utxo _ _ _ _ _ _ _ Hst). by rewrite Hw.
Qed.

Lemma owned_insert h k o u : u !! o = None ->
  owned h (<[o := k]> u) = owned h u ∪ (if decide (k = h) then {[o]} else ∅).
Proof.
  intros Hn. apply set_eq. intros x. rewrite elem_of_union, !elem_of_owned. destruct (decide (o = x)) as [<-|Hne].
  - rewrite lookup_insert_eq, Hn. split.
    + intros [= ->]. right. rewrite decide_True by done. by apply elem_of_singleton.
    + intros [?|Hx]; [done|]. case_decide; [by subst|by apply elem_of_empty in Hx].
  - rewrite lookup_insert_ne by done. split; [by left|]. intros [?|Hx]; [done|].
    case_decide; [by apply elem_of_singleton in Hx|by apply elem_of_empty in Hx].
Qed.

Lemma block_outputs_moves rest : forall n w v bound,
  wallet_inv w v -> same_outputs v tx -> drop n (tx_output tx) = rest ->
  Forall (fun out => 0 <= txo_value out) rest -> Z.of_nat (n + length rest) <= u32_max ->
  horizon v + DERIVATION_COUNT * (Z.of_nat (length rest) + 2) <= u32_max ->
  (forall k, (n <= k)%nat -> utxo_index w !! coin k = None) ->
  0 <= bound -> capped w bound -> bound + sum_Z txo_value rest <= u64_max ->
  exists w' v' l, block_outputs (E := E) b height pos tx n rest w = (Ok l, w') /\
    moves tx (Z.of_nat (length rest)) (sum_Z txo_value rest) w v w' v' /\
    (forall h, h ∈ script_set w ->
       owned h (utxo_index w') = owned h (utxo_index w) ∪ coins_from h (compute_txid tx) n rest) /\
    (forall o k, utxo_index w' !! o = Some k -> utxo_index w !! o = Some k \/ op_txid o = compute_txid tx).
Proof.
  induction rest as [|out rest IH]; intros n w v bound Hi Hs Hd Hval Hn Hm Hfresh H0 Hcap Hroom; cbn [length] in *.
  { exists w, v, []. split_and!; try done; [by apply moves_refl|intros h _; cbn; by rewrite union_empty_r_L|auto]. }
  apply Forall_cons in Hval as [Hv Hval]. cbn [sum_Z] in Hroom.
  assert (Hsum : 0 <= sum_Z txo_value rest).
  { apply sum_Z_nonneg. intros x Hx. rewrite Forall_forall in Hval. by apply Hval. }
  destruct (block_output_moves w v n out bound Hi Hs) as (w1 & v1 & l1 & E1 & M1 & U1); try done; try lia.
  { unfold DERIVATION_COUNT in *. lia. }
  { rewrite <-(Nat.add_0_r n), <-lookup_drop, Hd. done. }
  { by apply Hfresh. }
  destruct (IH (S n) w1 v1 (bound + txo_value out)) as (w2 & v2 & l2 & E2 & M2 & O2 & F2); try done; try lia.
  { apply M1. } { apply M1. }
  { rewrite <-(Nat.add_1_r n), <-drop_drop, Hd. done. }
  { pose proof (mv_horizon _ _ _ _ _ _ _ M1). unfold DERIVATION_COUNT in *. lia. }
  { intros k Hk. rewrite U1. case_decide; [|apply Hfresh; lia].
    rewrite lookup_insert_ne; [apply Hfresh; lia|]. intros [= ?]. lia. }
  { by apply M1. }
  exists w2, v2, (l1 ++ l2). split_and!.
  - cbn [block_outputs]. unfold mbind, stm_bind. rewrite E1, E2. done.
  - replace (Z.of_nat (S (length rest))) with (1 + Z.of_nat (length rest)) by lia.
    by apply (moves_trans tx 1 (txo_value out) (Z.of_nat (length rest)) (sum_Z txo_value rest) w v w1 v1).
  - intros h Hh. rewrite (O2 h); [|by apply (mv_set _ _ _ _ _ _ _ M1)]. rewrite U1. cbn [coins_from].
    case_decide as Hin; [by rewrite owned_insert, union_assoc_L by (by apply Hfresh)|].
    rewrite decide_False; [by rewrite union_empty_l_L|]. by intros <-.
  - intros o k [Ho|Ho]%F2; [|by right]. rewrite U1 in Ho. case_decide; [|by left].
    apply lookup_insert_Some in Ho as [[<- _]|[_ Ho]]; [by right|by left].
Qed.

Lemma foldl_delete_lookup (ins : list TxIn) : forall (u : gmap OutPoint Z) o,
  foldl (fun u i => delete (previous_output i) u) u ins !! o =
    if decide (o ∈ map previous_output ins) then None else u !! o.
Proof.
  induction ins as [|i ins IH]; intros u o; cbn; [by rewrite decide_False by apply not_elem_of_nil|].
  rewrite IH. case_decide as H1; case_decide as H2; try done.
  - destruct H2. by right.
  - apply elem_of_cons in H2 as [->|?]; [by rewrite lookup_delete_eq|done].
  - rewrite lookup_delete_ne; [done|]. intros <-. apply H2. by left.
Qed.

(** A transaction whose outputs are new: the ledger of every followed address
    moves by it. *)
Lemma block_tx_moves w v bound :
  wallet_inv w v -> same_outputs v tx ->
  Forall (fun out => 0 <= txo_value out) (tx_output tx) -> Z.of_nat (length (tx_output tx)) <= u32_max ->
  horizon v + DERIVATION_COUNT * (Z.of_nat (length (tx_input tx) + length (tx_output tx)) + 2) <= u32_max ->
  (forall o k, utxo_index w !! o = Some k -> op_txid o <> compute_txid tx) ->
  0 <= bound -> capped w bound -> bound + sum_Z txo_value (tx_output tx) <= u64_max ->
  exists w1 w' v' l, block_inputs (E := E) b height pos tx 0 (tx_input tx) w = (Ok tt, w1) /\
    block_outputs (E := E) b height pos tx 0 (tx_output tx) w1 = (Ok l, w') /\
    moves tx (Z.of_nat (length (tx_input tx) + length (tx_output tx))) (sum_Z txo_value (tx_output tx)) w v w' v' /\
    (forall h, h ∈ script_set w -> owned h (utxo_index w') = ledger_tx h (owned h (utxo_index w)) tx) /\
    (forall o k, utxo_index w' !! o = Some k -> utxo_index w !! o = Some k \/ op_txid o = compute_txid tx).
Proof.
  intros Hi Hs Hval Hn Hm Hfresh H0 Hcap Hroom.
  destruct (block_inputs_moves (tx_input tx) 0 w v Hi Hs eq_refl) as (w1 & v1 & E1 & M1 & U1).
  { unfold DERIVATION_COUNT in *. lia. }
  assert (Hsub : forall o k, utxo_index w1 !! o = Some k -> utxo_index w !! o = Some k).
  { intros o k. rewrite U1, foldl_delete_lookup. by case_decide. }
  destruct (block_outputs_moves (tx_output tx) 0 w1 v1 bound) as (w2 & v2 & l & E2 & M2 & O2 & F2); try done.
  { apply M1. } { apply M1. }
  { pose proof (mv_horizon _ _ _ _ _ _ _ M1). unfold DERIVATION_COUNT in *. lia. }
  { intros k _. destruct (utxo_index w1 !! coin k) as [x|] eqn:Ex; [|done]. apply Hsub, Hfresh in Ex. done. }
  { pose proof (mv_cap _ _ _ _ _ _ _ M1 bound H0 Hcap) as Hc. by rewrite Z.add_0_r in Hc. }
  exists w1, w2, v2, l. split_and!; try done.
  - rewrite Nat2Z.inj_add. by apply (moves_trans tx _ 0 _ _ w v w1 v1).
  - intros h Hh. rewrite (O2 h) by (by apply (mv_set _ _ _ _ _ _ _ M1)). unfold ledger_tx. f_equal.
    apply set_eq. intros o. rewrite elem_of_difference, !elem_of_owned, U1, foldl_delete_lookup. unfold spent_by.
    rewrite elem_of_list_to_set. case_decide; split; intros; destruct_and?; try split; done.
  - intros o k [Ho|Ho]%F2; [left; by apply Hsub|by right].
Qed.
End Transaction.

(** * Blocks *)

(** A block of new transactions, for which there is room: its outputs are not
    known to the wallet, no sum overflows. *)
Record block_fits w v (txs : list Transaction) (bound : Z) : Prop := {
  bf_new : forall tx o k, tx ∈ txs -> utxo_index w !! o = Some k -> op_txid o <> compute_txid tx;
  bf_nodup : NoDup (map compute_txid txs);
  bf_outputs : forall tx, tx ∈ txs -> same_outputs v tx;
  bf_values : forall tx, tx ∈ txs -> Forall (fun out => 0 <= txo_value out) (tx_output tx);
  bf_vouts : forall tx, tx ∈ txs -> Z.of_nat (length (tx_output tx)) <= u32_max;
  bf_bound : 0 <= bound /\ capped w bound /\ bound + block_value txs <= u64_max;
  bf_horizon : horizon v + DERIVATION_COUNT * (block_steps txs + 2) <= u32_max
}.

Lemma block_fits_tail w v tx txs bound w' v' :
  block_fits w v (tx :: txs) bound ->
  moves tx (Z.of_nat (length (tx_input tx) + length (tx_output tx))) (sum_Z txo_value (tx_output tx)) w v w' v' ->
  (forall o k, utxo_index w' !! o = Some k -> utxo_index w !! o = Some k \/ op_txid o = compute_txid tx) ->
  block_fits w' v' txs (bound + sum_Z txo_value (tx_output tx)).
Proof.
  intros [Hn Hnd Ho Hv Hl (H0 & Hc & Hb) Hh] [Hi Hset Hoth Hout Hz Hcap Hdsc] Hidx.
  cbn [map] in Hnd. apply NoDup_cons in Hnd as [Hnot Hnd].
  assert (Hne : forall t, t ∈ txs -> compute_txid t <> compute_txid tx).
  { intros t Ht Et. apply Hnot. rewrite <-Et. by apply list_elem_of_fmap_2. }
  assert (Hpos : 0 <= sum_Z txo_value (tx_output tx)).
  { apply sum_Z_nonneg. intros x Hx. specialize (Hv tx ltac:(by left)). rewrite Forall_forall in Hv. by apply Hv. }
  split; try done; try (intros; by (apply Hv || apply Hl); right).
  - intros t o k Ht [Hk|Hk]%Hidx; [apply (Hn t o k); [by right|done]|]. rewrite Hk. intros Et. by apply (Hne t Ht).
  - intros t Ht x. rewrite Hoth by (by apply Hne). apply Ho. by right.
  - unfold block_value in *. cbn [sum_Z] in Hb. split_and!; [lia|by apply Hcap|lia].
  - unfold block_steps in *. cbn [sum_Z] in Hh. unfold DERIVATION_COUNT in *. lia.
Qed.

Lemma block_transactions_exact (b : Block) height : 0 < height -> forall txs pos w v bound,
  drop pos (txdata b) = txs -> wallet_inv w v -> block_fits w v txs bound ->
  exists w' v' l, block_transactions (E := E) b height pos txs w = (Ok l, w') /\ wallet_inv w' v' /\
    script_set w ⊆ script_set w' /\ (desc_inv w v -> desc_inv w' v') /\
    forall h, h ∈ script_set w -> owned h (utxo_index w') = foldl (ledger_tx h) (owned h (utxo_index w)) txs.
Proof.
  intros Hh. induction txs as [|tx txs IH]; intros pos w v bound Hd Hi Hf.
  { exists w, v, []. by split_and!. }
  pose proof Hf as [Hn Hnd Ho Hv Hl (H0 & Hc & Hb) Hz].
  assert (Hpos : txdata b !! pos = Some tx) by (rewrite <-(Nat.add_0_r pos), <-lookup_drop, Hd; done).
  assert (Hin : tx ∈ tx :: txs) by (by left).
  assert (Hnn : 0 <= block_value txs /\ 0 <= block_steps txs).
  { split; apply sum_Z_nonneg; [|intros; lia]. intros t Ht. apply sum_Z_nonneg. intros x Hx.
    specialize (Hv t ltac:(by right)). rewrite Forall_forall in Hv. by apply Hv. }
  unfold block_value, block_steps in *. cbn [sum_Z] in Hb, Hz.
  destruct (block_tx_moves b height pos tx Hpos Hh w v bound) as (w1 & w2 & v2 & l & E1 & E2 & M & O & F);
    [done|by apply Ho|by apply Hv|by apply Hl|unfold DERIVATION_COUNT in *; lia| |done|done|lia|].
  { intros o k. by apply Hn. }
  destruct (IH (S pos) w2 v2 _ ltac:(rewrite <-(Nat.add_1_r pos), <-drop_drop, Hd; done) (mv_inv _ _ _ _ _ _ _ M)
    (block_fits_tail w v tx txs bound w2 v2 Hf M F)) as (w3 & v3 & l' & E3 & Hi3 & Hs3 & D3 & O3).
  exists w3, v3, (l ++ l'). split_and!; try done.
  - cbn [block_transactions]. unfold mbind, stm_bind. by rewrite E1, E2, E3.
  - etransitivity; [apply (mv_set _ _ _ _ _ _ _ M)|done].
  - intros Hd0. by apply D3, (mv_desc _ _ _ _ _ _ _ M).
  - intros h Hset. cbn [foldl]. rewrite <-(O h Hset). apply O3. by apply (mv_set _ _ _ _ _ _ _ M).
Qed.

(** C37: Processing a block of transactions the wallet has not seen in a block before
    never panics and refines a ledger: the unspent outputs of every followed script are
    afterwards those of an abstract ledger that removes, transaction by transaction, the
    outputs spent and adds the outputs paying the script; each is listed once, the
    balance is the sum of their values, and the invariant of the wallet is kept, while
    new addresses may be derived on the way. *)
Theorem block_process_exact (b : Block) height w v bound
  (Hinv : wallet_inv w v) (Hheight : 0 < height) (Hfits : block_fits w v (txdata b) bound) :
  exists w' v' l, block_process (E := E) b height w = (Ok l, w') /\ wallet_inv w' v' /\
    forall h, h ∈ script_set w -> exists a,
      address_map w' !! h = Some a /\
      list_to_set (ca_utxos a) = foldl (ledger_tx h) (owned h (utxo_index w)) (txdata b) /\
      NoDup (ca_utxos a) /\ ca_balance a = sum_Z (coin_value v') (ca_utxos a).
Proof.
  destruct (block_transactions_exact b height Hheight (txdata b) 0 w v bound eq_refl Hinv Hfits)
    as (w' & v' & l & Eb & Hi & Hs & _ & Ho).
  exists w', v', l. split_and!; [done..|]. intros h Hh. pose proof (Hs h Hh) as [a Ha]%(wi_set w' v' Hi).
  pose proof (wi_address w' v' Hi h a Ha) as Hok. exists a. split_and!; [done| |apply Hok|apply Hok].
  rewrite <-(Ho h Hh). apply set_eq. intros o. rewrite elem_of_list_to_set, elem_of_owned, (wi_index w' v' Hi o h).
  split; [by exists a|]. intros (x & Hx & Hxo). by simplify_eq.
Qed.
End WalletBlocks.
