(* ===== verification/WalletRuns.v ===== *)
(** Runs of the watch-only wallet: reopening it from its database,
    unconfirmed transactions, descriptors and the derivation horizon, and
    what the database does not remember. *)

From stdpp Require Import base gmap list strings fin_maps.
From Stdlib Require Import ZArith Lia Sorted.
From S2P Require Import Prelude Bitcoin Codec Merkle Descriptors Wallet WalletDb WalletFacts WalletTx WalletBlocks.

Section WalletRuns.
Context {TL : TxLib} {SL : Sha256Lib} {DL : DescriptorLib} {HL : HashLib} {MB : MerkleBackend}.
Context {MBok : MerkleBackendOk}.
Context {D : Type} {DB : AddressCacheDatabase D} {DBok : AddressCacheDatabaseOk D}.
Implicit Types (w : AddressCacheInner D) (v : DbView) (a : CachedAddress).

(** * Loading the addresses *)

Lemma index_utxos_lookup a u o :
  index_utxos a u !! o = if decide (o ∈ ca_utxos a) then Some (ca_script_hash a) else u !! o.
Proof.
  unfold index_utxos. generalize (ca_utxos a) as l. revert u. intros u l. revert u.
  induction l as [|x l IH]; intros u; cbn [foldl]; [by rewrite decide_False by apply not_elem_of_nil|].
  rewrite IH. case_decide as H1; case_decide as H2; try done.
  - destruct H2. by right.
  - apply elem_of_cons in H2 as [->|?]; [by rewrite lookup_insert_eq|done].
  - rewrite lookup_insert_ne; [done|]. intros <-. apply H2. by left.
Qed.

(** The maps agree: every address is consistent, and the index and the set of
    scripts are those of the addresses. *)
Record maps_ok v w : Prop := {
  mo_address : forall h a, address_map w !! h = Some a -> address_ok v h a;
  mo_set : forall h, h ∈ script_set w <-> is_Some (address_map w !! h);
  mo_index : index_of (address_map w) (utxo_index w)
}.

Lemma load_one v w a : maps_ok v w -> address_ok v (ca_script_hash a) a -> address_map w !! ca_script_hash a = None ->
  maps_ok v (set_address (ca_script_hash a) a
    (watch (ca_script_hash a) (set_utxos (index_utxos a (utxo_index w)) w))).
Proof.
  intros [Ha Hs Hi] Hok Hn. split; cbn.
  - intros h x [[<- <-]|[_ Hx]]%lookup_insert_Some; [done|by apply Ha].
  - intros h. rewrite elem_of_union, elem_of_singleton, Hs, lookup_insert_is_Some'. intuition congruence.
  - intros o h. rewrite index_utxos_lookup. case_decide as Ho.
    + split; [intros [= <-]; exists a; by rewrite lookup_insert_eq|].
      intros (x & [[<- <-]|[Hne Hx]]%lookup_insert_Some & Hxo); [done|]. destruct Hne.
      destruct (ao_coin _ _ _ Hok o Ho) as (out & E1 & <- & _).
      destruct (ao_coin _ _ _ (Ha h x Hx) o Hxo) as (out' & E2 & <- & _). congruence.
    + rewrite (Hi o h). split.
      * intros (x & Hx & Hxo). exists x. split; [|done]. rewrite lookup_insert_ne; [done|]. intros <-. by rewrite Hn in Hx.
      * intros (x & [[<- <-]|[_ Hx]]%lookup_insert_Some & Hxo); [done|by exists x].
Qed.

Lemma load_addresses_spec v l : forall w,
  maps_ok v w -> Forall (fun a => address_ok v (ca_script_hash a) a) l -> NoDup (map ca_script_hash l) ->
  Forall (fun a => address_map w !! ca_script_hash a = None) l ->
  maps_ok v (load_addresses l w) /\ database (load_addresses l w) = database w /\
  derived_index (load_addresses l w) = derived_index w /\
  forall h a, address_map (load_addresses l w) !! h = Some a <->
    address_map w !! h = Some a \/ a ∈ l /\ ca_script_hash a = h.
Proof.
  induction l as [|a l IH]; intros w Hm Hok Hnd Hnew; cbn [load_addresses].
  { split_and!; try done. intros h a. split; [auto|]. by intros [?|[?%not_elem_of_nil _]]. }
  apply Forall_cons in Hok as [Ha Hok], Hnew as [Hn Hnew]. cbn [map] in Hnd. apply NoDup_cons in Hnd as [Hni Hnd].
  destruct (IH (set_address (ca_script_hash a) a (watch (ca_script_hash a) (set_utxos (index_utxos a (utxo_index w)) w))))
    as (H1 & H2 & H3 & H4); [by apply load_one|done|done| |].
  { rewrite Forall_forall in *. intros x Hx. cbn. rewrite lookup_insert_ne; [by apply Hnew|]. intros E.
    apply Hni. rewrite E. by apply list_elem_of_fmap_2. }
  split_and!; try done. intros h x. rewrite H4. cbn. rewrite lookup_insert_Some, elem_of_cons. split.
  - intros [[[<- <-]|[_ ?]]|[? ?]]; auto.
  - intros [Hx|[[->|Hx] <-]]; [|by left; left|by right; split].
    left. right. split; [|done]. intros <-. by rewrite Hn in Hx.
Qed.

(** * Opening the wallet *)

Lemma values_hashes v : view_ok v -> NoDup (map ca_script_hash (map_to_list (v_addresses v)).*2).
Proof.
  intros Hv. rewrite <-list_fmap_compose. rewrite (list_fmap_ext _ fst (map_to_list (v_addresses v))).
  - apply NoDup_fst_map_to_list.
  - intros i [h a] Hi%list_elem_of_lookup_2%elem_of_map_to_list. by apply (ao_hash v), (vo_address v Hv).
Qed.

Lemma loaded_inv d v l : db_rep d v -> view_ok v -> is_Some (v_stats v) -> 0 <= horizon v ->
  l ≡ₚ (map_to_list (v_addresses v)).*2 ->
  wallet_inv (load_addresses l (mkInner d ∅ ∅ ∅ ∅)) v /\
  address_map (load_addresses l (mkInner d ∅ ∅ ∅ ∅)) = v_addresses v.
Proof.
  intros Hr Hv Hs H0 Hl.
  assert (Hmem : forall a, a ∈ l <-> v_addresses v !! ca_script_hash a = Some a).
  { intros a. rewrite Hl, list_elem_of_fmap. split.
    - intros ([h x] & -> & Hx%elem_of_map_to_list). cbn. by rewrite (ao_hash v h x (vo_address v Hv h x Hx)).
    - intros Ha. exists (ca_script_hash a, a). by rewrite elem_of_map_to_list. }
  destruct (load_addresses_spec v l (mkInner d ∅ ∅ ∅ ∅)) as (Hm & Hd & Hder & Hmap).
  - split; cbn; [by intros h a ?%lookup_empty_Some|intros h; split; [set_solver|by intros [? ?%lookup_empty_Some]]|].
    intros o h. split; [by intros ?%lookup_empty_Some|]. by intros (a & ?%lookup_empty_Some & _).
  - apply Forall_forall. intros a Ha%Hmem. by apply (vo_address v Hv).
  - rewrite Hl. by apply values_hashes.
  - apply Forall_forall. intros a _. apply lookup_empty.
  - assert (Emap : address_map (load_addresses l (mkInner d ∅ ∅ ∅ ∅)) = v_addresses v).
    { apply map_eq. intros h. apply option_eq. intros a. rewrite Hmap. cbn. rewrite lookup_empty, Hmem. split.
      - by intros [?|[? <-]].
      - intros Ha. right. by rewrite (ao_hash v h a (vo_address v Hv h a Ha)). }
    split; [|done]. destruct Hm as [Ha Hset Hi]. split; try done.
    + by rewrite Hd.
    + intros h. rewrite Emap. destruct (_ !! h); by constructor.
    + intros h i. rewrite Hder. cbn. by intros ?%lookup_empty_Some.
Qed.

Lemma view_ok_same v v' : v_addresses v' = v_addresses v -> v_transactions v' = v_transactions v ->
  view_ok v -> view_ok v'.
Proof.
  intros Ea Et [Ha Ht]. split; rewrite ?Ea, ?Et; [|done]. intros h a Hx. apply (address_ok_extends v); [|by apply Ha].
  by apply extends_same.
Qed.

(** The first lines of [new]: the stats are there afterwards. *)
Lemma stats_present {E} d v : db_rep d v -> exists d1 v1,
  (match db_get_stats d with
   | Err _ => let '(o, d') := db_save_stats stats_default d in _ ← expect_ok o; Ok d'
   | Ok _ => Ok d
   | Panic => Panic
   | Diverge => Diverge
   end : outcome E D) = Ok d1 /\ db_rep d1 v1 /\ is_Some (v_stats v1) /\ horizon v1 = horizon v /\
  v_addresses v1 = v_addresses v /\ v_transactions v1 = v_transactions v /\ v_descriptors v1 = v_descriptors v.
Proof.
  intros Hr. destruct (v_stats v) as [s|] eqn:Es.
  - rewrite (get_stats_ok d v s Hr Es). exists d, v. by rewrite Es.
  - destruct (get_stats_missing d v Hr Es) as [e ->].
    destruct (save_stats_ok d v stats_default Hr) as (d' & -> & Hr'). exists d', (put_stats stats_default v).
    split_and!; try done. unfold horizon. by rewrite Es.
Qed.

(** The last lines: the horizon is at least one batch, and the descriptors are
    derived up to it. *)
Lemma derive_stored w v s : wallet_inv w v -> v_stats v = Some s -> descriptors_ok v ->
  exists o w' v' l,
    (stats ← (if derivation_index s <? DERIVATION_COUNT then
                let stats := set_derivation_index DERIVATION_COUNT s in
                _ ← on_db_expect (db_save_stats stats); mret stats
              else mret s);
     derive_range (v_descriptors v) INDEX_INITIAL (derivation_index stats)) w = (o, w') /\
    o = Ok l /\ wallet_inv w' v' /\ grown w v w' v' /\ horizon v' = Z.max (horizon v) DERIVATION_COUNT /\
    Forall (range_tracked w' INDEX_INITIAL (Z.max (horizon v) DERIVATION_COUNT)) (v_descriptors v).
Proof.
  intros Hi Hs [Hmax Hdesc]. assert (Eh : derivation_index s = horizon v) by (unfold horizon; by rewrite Hs).
  pose proof (wi_stats w v Hi) as [_ H0].
  assert (Hstep : exists w1 v1 s1,
    (if derivation_index s <? DERIVATION_COUNT then
       let stats := set_derivation_index DERIVATION_COUNT s in
       _ ← on_db_expect (db_save_stats stats); mret stats
     else mret s : stm _ DescriptorError Stats) w = (Ok s1, w1) /\ wallet_inv w1 v1 /\ grown w v w1 v1 /\
    derivation_index s1 = Z.max (horizon v) DERIVATION_COUNT /\ horizon v1 = Z.max (horizon v) DERIVATION_COUNT).
  { destruct (Z.ltb_spec (derivation_index s) DERIVATION_COUNT) as [Hlt|Hge].
    - destruct (on_db_expect_ok (E := DescriptorError) w _ _ (save_stats_ok (database w) v (set_derivation_index DERIVATION_COUNT s)
        (wi_db w v Hi))) as (d' & E1 & Hr). unfold mbind, stm_bind. rewrite E1.
      exists (set_database d' w), (put_stats (set_derivation_index DERIVATION_COUNT s) v), (set_derivation_index DERIVATION_COUNT s).
      split_and!; [done|apply save_horizon_inv; try done; lia|by split; auto|cbn; lia|].
      unfold horizon at 1. cbn. lia.
    - exists w, v, s. split_and!; try done; [apply grown_refl|lia|lia]. }
  destruct Hstep as (w1 & v1 & s1 & E1 & Hi1 & Hg1 & Ed1 & Hz1). unfold mbind, stm_bind in *. rewrite E1, Ed1.
  set (hz := Z.max (horizon v) DERIVATION_COUNT) in *.
  assert (Hc : 0 < hz) by (unfold hz, DERIVATION_COUNT; lia).
  assert (Hle : INDEX_INITIAL + hz <= horizon v1 + DERIVATION_COUNT) by (rewrite Hz1; unfold INDEX_INITIAL, DERIVATION_COUNT; lia).
  destruct (derive_range_ok INDEX_INITIAL hz (v_descriptors v) w1 v1 Hdesc Hi1 ltac:(done) Hc Hle Hmax) as [l El].
  pose proof (derive_range_derives INDEX_INITIAL hz (v_descriptors v) w1 v1 Hi1 ltac:(done) Hc Hle Hmax)
    as (v2 & Hi2 & Hg2 & Hs2 & _ & Ho).
  destruct (derive_range _ _ _ w1) as [o w2]. cbn in *. subst o. exists (Ok l), w2, v2, l. split_and!; try done.
  - by eapply grown_trans.
  - by rewrite (horizon_stats v1 v2 Hs2).
Qed.

(** Opening the wallet on a consistent database does not panic; it has the
    addresses and unspent outputs of the database. *)
Lemma inner_new_inv {E} d v : db_rep d v -> view_ok v -> 0 <= horizon v -> descriptors_ok v ->
  exists w v', inner_new (E := E) d = Ok w /\ wallet_inv w v' /\
    v_addresses v ⊆ address_map w /\ v_transactions v' = v_transactions v /\ v_descriptors v' = v_descriptors v /\
    (forall h a, address_map w !! h = Some a -> v_addresses v !! h = Some a \/ ca_utxos a = []) /\
    horizon v' = (if decide (v_descriptors v = []) then horizon v else Z.max (horizon v) DERIVATION_COUNT) /\
    Forall (range_tracked w INDEX_INITIAL (horizon v')) (v_descriptors v).
Proof.
  intros Hr Hv H0 Hd. unfold inner_new.
  destruct (load_ok d v Hr) as (l & El & Hl). rewrite El. cbn [expect_ok mbind outcome_bind].
  destruct (stats_present (E := E) d v Hr) as (d1 & v1 & E1 & Hr1 & Hs1 & Hz1 & Ea1 & Et1 & Ed1).
  rewrite E1. cbn [mbind outcome_bind].
  destruct (loaded_inv d1 v1 l Hr1) as [Hi1 Emap]; [by apply (view_ok_same v)|done|by rewrite Hz1|by rewrite Ea1|].
  set (w1 := load_addresses l (mkInner d1 ∅ ∅ ∅ ∅)) in *.
  rewrite (get_descriptors_ok _ v1 (wi_db w1 v1 Hi1)). cbn [expect_ok mbind outcome_bind].
  destruct Hs1 as [s Hs]. rewrite (get_stats_ok _ v1 s (wi_db w1 v1 Hi1) Hs). cbn [expect_ok mbind outcome_bind].
  rewrite Ea1 in Emap.
  destruct (v_descriptors v1) as [|s0 ds] eqn:Eds.
  { exists w1, v1. rewrite Emap, <-Ed1. split_and!; try done.
    auto. }
  destruct (derive_stored w1 v1 s Hi1 Hs) as (o & w2 & v2 & l2 & E2 & -> & Hi2 & Hg2 & Hz2 & Ht2).
  { unfold descriptors_ok. by rewrite Hz1, Eds, Ed1. }
  rewrite Eds in E2. cbv zeta in E2. rewrite E2. cbn. exists w2, v2.
  pose proof (gr_descriptors _ _ _ _ Hg2) as Ed2. rewrite <-Ed1.
  split_and!; try done.
  - rewrite <-Emap. apply Hg2.
  - by rewrite (gr_transactions _ _ _ _ Hg2).
  - congruence.
  - intros h a Ha. rewrite <-Emap. by apply (gr_new _ _ _ _ Hg2).
  - rewrite decide_False by done. congruence.
  - rewrite Hz2. by rewrite Eds in Ht2.
Qed.

(** * Unconfirmed transactions *)

Lemma cache_unconfirmed {E} w v tx value mp pos idx is_spend h a :
  wallet_inv w v -> same_outputs v tx -> horizon v + 2 * DERIVATION_COUNT <= u32_max -> address_map w !! h = Some a ->
  exists w' v', cache_transaction (E := E) tx 0 value mp pos idx is_spend h w = (Ok tt, w') /\
    moves tx 1 0 w v w' v' /\ utxo_index w' = utxo_index w.
Proof.
  intros Hi Hs Hm Ha.
  destruct (cache_prepare (E := E) w v tx 0 value mp pos idx is_spend h a Hi Hs Hm Ha)
    as (w1 & v1 & Ec & Hi1 & Hg & Ht & Hz & Hext & Ha1 & Hdesc).
  destruct (cache_finish (E := E) w v w1 v1 w1 _ h a a (utxo_index w1) 0 Hi Hi1 Hg Ht Hz Ha1 Hi1) as (w2 & v2 & E2 & Hst);
    [split; try done; by rewrite insert_id|done|done|lia|done|].
  exists w2, v2. split_and!.
  - rewrite Ec. cbn [Z.ltb Z.compare]. unfold save_mempool_tx, mbind, stm_bind, gets. by rewrite Ha1.
  - by eapply stepped_moves.
  - rewrite (sp_utxo _ _ _ _ _ _ _ Hst). apply Hg.
Qed.

(** The outputs a transaction spends from the wallet belong to followed
    addresses. *)
Lemma find_spend_ok {E} w v ins : wallet_inv w v -> forall idx,
  exists coins, find_spend (E := E) idx ins w = Ok coins /\ (length coins <= length ins)%nat /\
    Forall (fun c => followed w (script_pubkey c.2)) coins.
Proof.
  intros Hi. induction ins as [|i ins IH]; intros idx; [by exists []|]. cbn [find_spend length].
  destruct (IH (S idx)) as (coins & Ec & Hlen & Hf).
  destruct (utxo_index w !! previous_output i) as [h|] eqn:Hidx; [|exists coins; split_and!; [done|lia|done]].
  apply (wi_index w v Hi) in Hidx as (a & Ha & Ho).
  destruct (ao_coin v h a (wi_address w v Hi h a Ha) _ Ho) as (out & Eo & Hspk & _). unfold output_of in Eo.
  destruct (v_transactions v !! op_txid (previous_output i)) as [t|] eqn:Et; [|done]. cbn in Eo.
  unfold get_transaction. rewrite (get_transaction_ok _ v _ t (wi_db w v Hi) Et). cbn [ok_opt expect mbind outcome_bind].
  rewrite Eo. cbn [expect mbind outcome_bind]. rewrite Ec. cbn [mbind outcome_bind].
  eexists. split_and!; [done|cbn; lia|]. constructor; [|done]. exists a. cbn [snd]. by rewrite Hspk.
Qed.

Lemma moves_followed tx n g w v w' v' s : wallet_inv w v -> moves tx n g w v w' v' -> followed w s -> followed w' s.
Proof.
  intros Hi Hm Hf. unfold followed in *. rewrite <-(wi_set w' v' (mv_inv _ _ _ _ _ _ _ Hm)).
  apply (mv_set _ _ _ _ _ _ _ Hm). by rewrite (wi_set w v Hi).
Qed.

Lemma mempool_spends_moves {E} tx coins : forall w v,
  wallet_inv w v -> same_outputs v tx -> Forall (fun c => followed w (script_pubkey c.2)) coins ->
  horizon v + DERIVATION_COUNT * (Z.of_nat (length coins) + 2) <= u32_max ->
  exists w' v', mempool_spends (E := E) tx coins w = (Ok tt, w') /\
    moves tx (Z.of_nat (length coins)) 0 w v w' v' /\ utxo_index w' = utxo_index w.
Proof.
  induction coins as [|[idx out] coins IH]; intros w v Hi Hs Hf Hm; cbn [length] in *.
  { exists w, v. split_and!; try done. by apply moves_refl. }
  apply Forall_cons in Hf as [[a Ha] Hf]. cbn in Ha.
  destruct (cache_unconfirmed (E := E) w v tx (txo_value out) merkle_proof_default 0 idx true _ a Hi Hs ltac:(unfold DERIVATION_COUNT in *; lia) Ha)
    as (w1 & v1 & E1 & M1 & U1).
  destruct (IH w1 v1) as (w2 & v2 & E2 & M2 & U2).
  { apply M1. } { apply M1. }
  { eapply Forall_impl; [exact Hf|]. intros c. by apply (moves_followed tx 1 0 w v w1 v1). }
  { pose proof (mv_horizon _ _ _ _ _ _ _ M1). unfold DERIVATION_COUNT in *. lia. }
  exists w2, v2. split_and!.
  - cbn [mempool_spends]. unfold mbind, stm_bind, gets. rewrite Ha. cbn [expect].
    rewrite (ao_hash v _ a (wi_address w v Hi _ a Ha)), E1. done.
  - replace (Z.of_nat (S (length coins))) with (1 + Z.of_nat (length coins)) by lia.
    by apply (moves_trans tx 1 0 _ 0 w v w1 v1).
  - congruence.
Qed.

Lemma mempool_outputs_moves {E} tx outs : forall idx w v,
  wallet_inv w v -> same_outputs v tx ->
  horizon v + DERIVATION_COUNT * (Z.of_nat (length outs) + 2) <= u32_max ->
  exists w' v' l, mempool_outputs (E := E) tx idx outs w = (Ok l, w') /\
    moves tx (Z.of_nat (length outs)) 0 w v w' v' /\ utxo_index w' = utxo_index w.
Proof.
  induction outs as [|out outs IH]; intros idx w v Hi Hs Hm; cbn [length] in *.
  { exists w, v, []. split_and!; try done. by apply moves_refl. }
  replace (Z.of_nat (S (length outs))) with (1 + Z.of_nat (length outs)) in * by lia.
  cbn [mempool_outputs]. unfold mbind, stm_bind, gets. case_bool_decide as Hin.
  - apply (wi_set w v Hi) in Hin as [a Ha]. unfold lift. rewrite Ha. cbn [expect].
    rewrite (ao_hash v _ a (wi_address w v Hi _ a Ha)).
    destruct (cache_unconfirmed (E := E) w v tx (txo_value out) merkle_proof_default 0 idx true _ a Hi Hs ltac:(unfold DERIVATION_COUNT in *; lia) Ha)
      as (w1 & v1 & E1 & M1 & U1). rewrite E1.
    destruct (IH (S idx) w1 v1) as (w2 & v2 & l & E2 & M2 & U2); [apply M1|apply M1| |].
    { pose proof (mv_horizon _ _ _ _ _ _ _ M1). unfold DERIVATION_COUNT in *. lia. }
    rewrite E2. exists w2, v2, (out :: l). split_and!; [done| |congruence].
    by apply (moves_trans tx 1 0 _ 0 w v w1 v1).
  - destruct (IH (S idx) w v Hi Hs) as (w2 & v2 & l & E2 & M2 & U2); [unfold DERIVATION_COUNT in *; lia|].
    exists w2, v2, l. split_and!; try done. apply (moves_weaken tx (Z.of_nat (length outs))); [lia|done].
Qed.

Lemma cache_mempool_moves {E} tx w v : wallet_inv w v -> same_outputs v tx ->
  horizon v + DERIVATION_COUNT * (Z.of_nat (length (tx_input tx) + length (tx_output tx)) + 2) <= u32_max ->
  exists w' v' l, cache_mempool_transaction (E := E) tx w = (Ok l, w') /\ wallet_inv w' v' /\
    utxo_index w' = utxo_index w /\ (desc_inv w v -> desc_inv w' v').
Proof.
  intros Hi Hs Hm. destruct (find_spend_ok (E := E) w v (tx_input tx) Hi 0) as (coins & Ec & Hlen & Hf).
  destruct (mempool_spends_moves (E := E) tx coins w v Hi Hs Hf) as (w1 & v1 & E1 & M1 & U1).
  { unfold DERIVATION_COUNT in *. lia. }
  destruct (mempool_outputs_moves (E := E) tx (tx_output tx) 0 w1 v1) as (w2 & v2 & l & E2 & M2 & U2); [apply M1|apply M1| |].
  { pose proof (mv_horizon _ _ _ _ _ _ _ M1). unfold DERIVATION_COUNT in *. lia. }
  exists w2, v2, (coins.*2 ++ l). split_and!; [|apply M2|congruence|].
  - unfold cache_mempool_transaction, mbind, stm_bind, gets. by rewrite Ec, E1, E2.
  - intros Hd. by apply (mv_desc _ _ _ _ _ _ _ M2), (mv_desc _ _ _ _ _ _ _ M1).
Qed.

(** * Descriptors *)

Lemma put_descriptor_inv w v d' s : wallet_inv w v -> db_rep d' (put_descriptor s v) ->
  wallet_inv (set_database d' w) (put_descriptor s v).
Proof.
  intros [Hdb Hview Hadd Hset Hsav Hidx Hst Hder] Hr. split; cbn; try done.
  - by apply (view_ok_same v).
  - intros h a Ha. apply (address_ok_extends v); [by apply extends_same|by apply Hadd].
Qed.

(** The invariant of the descriptors after a new one is derived up to the
    common horizon. *)
Lemma desc_inv_push w v w' v' s : desc_inv w v -> 0 <= horizon v -> tracks_more w w' ->
  v_descriptors v' = v_descriptors v ++ [s] -> horizon v' = Z.max (horizon v) DERIVATION_COUNT ->
  derivable INDEX_INITIAL (Z.max (horizon v) DERIVATION_COUNT) s ->
  range_tracked w' INDEX_INITIAL (Z.max (horizon v) DERIVATION_COUNT) s -> desc_inv w' v'.
Proof.
  intros [[H1 H2] Ht Hb] H0 Hm Ed Eh Hs Hst.
  assert (Hz : Z.max (Z.max (horizon v) DERIVATION_COUNT) DERIVATION_COUNT = Z.max (horizon v) DERIVATION_COUNT) by lia.
  split; [split|..]; rewrite ?Ed, ?Eh, ?Hz; [done| | |intros _; lia].
  - apply Forall_app. split; [done|by constructor].
  - apply Forall_app. split; [|by constructor]. destruct (decide (v_descriptors v = [])) as [->|Hne]; [done|].
    rewrite Z.max_l by (by apply Hb). eapply Forall_impl; [exact Ht|]. intros x. by apply range_tracked_more.
Qed.

Lemma push_descriptor_inv w v s : wallet_inv w v -> desc_inv w v ->
  exists o w' v', push_descriptor s w = (o, w') /\ wallet_inv w' v' /\ desc_inv w' v' /\
    utxo_index w' = utxo_index w /\
    match o with
    | Ok _ => (s ∉ v_descriptors v) /\ v_descriptors v' = v_descriptors v ++ [s]
    | Err _ => v_descriptors v' = v_descriptors v
    | _ => False
    end.
Proof.
  intros Hi Hd. pose proof (wi_stats w v Hi) as [_ H0]. pose proof Hd as [[Hmax _] _ _].
  assert (Ew : set_database (database w) w = w) by by destruct w.
  unfold push_descriptor, mbind, stm_bind, gets at 1, is_cached.
  rewrite (get_descriptors_ok _ v (wi_db w v Hi)). cbn [map_err mbind outcome_bind].
  case_bool_decide as Hin; [by exists (Err (DuplicateDescriptor s)), w, v|]. unfold lift. cbn [err_if].
  destruct (stats_of w v Hi) as (st & Hst & Eh). unfold on_db at 1, gets.
  rewrite (get_stats_ok _ v st (wi_db w v Hi) Hst). cbn [map_err]. rewrite Ew, Eh.
  set (hz := Z.max (horizon v) DERIVATION_COUNT) in *.
  assert (Hc : 0 < hz) by (unfold hz, DERIVATION_COUNT; lia).
  assert (Hle : INDEX_INITIAL + hz <= horizon v + DERIVATION_COUNT) by (unfold hz, INDEX_INITIAL, DERIVATION_COUNT; lia).
  pose proof (derive_range_derives INDEX_INITIAL hz [s] w v Hi ltac:(done) Hc Hle Hmax) as Hdr.
  pose proof (derives_tracks _ _ _ _ Hdr) as Hmore. destruct Hdr as (v1 & Hi1 & Hg & Hs1 & _ & Ho).
  unfold desc_err. destruct (derive_range [s] INDEX_INITIAL hz w) as [o w1] eqn:Edr. cbn [fst snd] in *.
  pose proof (gr_descriptors _ _ _ _ Hg) as Ed1. pose proof (horizon_stats v v1 Hs1) as Hz1.
  destruct o as [l|e| |]; try done; cbn [map_err].
  2:{ exists (Err (InvalidDescriptor e)), w1, v1. split_and!; try done; [by apply (desc_inv_more w v)|apply Hg]. }
  destruct (on_db_ok w1 _ _ (save_descriptor_ok (database w1) v1 s (wi_db w1 v1 Hi1))) as (d2 & E2 & Hr2). rewrite E2.
  pose proof (put_descriptor_inv w1 v1 d2 s Hi1 Hr2) as Hi2.
  destruct (on_db_ok (set_database d2 w1) _ _ (save_stats_ok d2 _ (set_derivation_index hz st) Hr2)) as (d3 & E3 & Hr3).
  rewrite E3. eexists (Ok l), _, (put_stats (set_derivation_index hz st) (put_descriptor s v1)). split; [done|].
  assert (Hder : derivable INDEX_INITIAL hz s).
  { apply (Forall_singleton (derivable INDEX_INITIAL hz)), (derive_range_derivable _ _ _ w l). by rewrite Edr. }
  split_and!.
  - apply save_horizon_inv; try done; [by rewrite <-Hst|]. change (horizon (put_descriptor s v1)) with (horizon v1). lia.
  - apply (desc_inv_push w v _ _ s); [done|done| |by cbn; rewrite <-Ed1|done|done|].
    + intros x Hx. by apply Hmore.
    + apply (range_tracked_more w1); [by intros x Hx; exact Hx|]. rewrite Forall_singleton in Ho. exact Ho.
  - apply Hg.
  - done.
  - cbn. by rewrite <-Ed1.
Qed.

(** * Runs *)

(** A block or an unconfirmed transaction fits the state, whatever view the
    database represents. *)
Definition for_view w (P : DbView -> Prop) : Prop := forall v, db_rep (database w) v -> P v.

Inductive wallet_step w : AddressCacheInner D -> Prop :=
  | step_block b height bound l w' :
      0 < height -> for_view w (fun v => block_fits w v (txdata b) bound) ->
      block_process (E := unit) b height w = (Ok l, w') -> wallet_step w w'
  | step_mempool tx l w' :
      for_view w (fun v => same_outputs v tx /\
        horizon v + DERIVATION_COUNT * (Z.of_nat (length (tx_input tx) + length (tx_output tx)) + 2) <= u32_max) ->
      cache_mempool_transaction (E := unit) tx w = (Ok l, w') -> wallet_step w w'
  | step_address s w' : cache_address (E := unit) s w = (Ok tt, w') -> wallet_step w w'
  | step_descriptor s o w' : push_descriptor s w = (o, w') -> wallet_step w w'
  | step_derive o w' :
      for_view w (fun v => horizon v + DERIVATION_COUNT <= u32_max) ->
      derive_addresses w = (o, w') -> wallet_step w w'
  | step_height h w' : is_u32 h -> bump_height h w = (Ok tt, w') -> wallet_step w w'
  | step_reopen w' : inner_new (E := unit) (database w) = Ok w' -> wallet_step w w'.

Definition wallet_ok w : Prop := exists v, wallet_inv w v /\ desc_inv w v.

Lemma reopen_ok d v : db_rep d v -> view_ok v -> 0 <= horizon v -> descriptors_ok v ->
  (v_descriptors v <> [] -> DERIVATION_COUNT <= horizon v) ->
  exists w, inner_new (E := unit) d = Ok w /\ wallet_ok w.
Proof.
  intros Hr Hv H0 Hd Hb. destruct (inner_new_inv (E := unit) d v Hr Hv H0 Hd)
    as (w & v' & E1 & Hi & _ & _ & Ed & _ & Hz & Ht). exists w. split; [done|]. exists v'. split; [done|].
  assert (Hh : horizon v' = horizon v).
  { rewrite Hz. case_decide as Hn; [done|]. specialize (Hb Hn). lia. }
  destruct Hd as [H1 H2]. split; [split|..]; rewrite ?Ed, ?Hh; try done. by rewrite Hh in Ht.
Qed.

Lemma put_height_inv w v d' h : wallet_inv w v -> db_rep d' (put_height h v) ->
  wallet_inv (set_database d' w) (put_height h v).
Proof.
  intros [Hdb Hview Hadd Hset Hsav Hidx Hst Hder] Hr. split; cbn; try done.
  - by apply (view_ok_same v).
  - intros k a Ha. apply (address_ok_extends v); [by apply extends_same|by apply Hadd].
Qed.

Lemma wallet_step_ok w w' : wallet_ok w -> wallet_step w w' -> wallet_ok w'.
Proof.
  intros (v & Hi & Hd) Hs. pose proof (wi_db w v Hi) as Hr. destruct Hs as
    [b height bound l w' Hh Hf Es|tx l w' Hf Es|s w' Es|s o w' Es|o w' Hf Es|h w' Hu Es|w' Es].
  - destruct (block_transactions_exact (E := unit) b height Hh (txdata b) 0 w v bound eq_refl Hi (Hf v Hr))
      as (w1 & v1 & l1 & E1 & Hi1 & _ & Hd1 & _). unfold block_process in Es. rewrite E1 in Es. injection Es as _ <-.
    exists v1. auto.
  - destruct (Hf v Hr) as [Hs Hm]. destruct (cache_mempool_moves (E := unit) tx w v Hi Hs Hm) as (w1 & v1 & l1 & E1 & Hi1 & _ & Hd1).
    rewrite E1 in Es. injection Es as _ <-. exists v1. auto.
  - destruct (cache_address_inv (E := unit) w v s Hi) as (w1 & v1 & E1 & Hi1 & Hg & Hs1 & Ed & _).
    rewrite E1 in Es. injection Es as <-. exists v1. split; [done|].
    apply (desc_inv_more w v); [|apply Hg|by apply horizon_stats|done].
    intros x [[a Ha] Hx]. split; [|by rewrite Ed]. exists a. by apply (lookup_weaken _ _ _ _ Ha), Hg.
  - destruct (push_descriptor_inv w v s Hi Hd) as (o1 & w1 & v1 & E1 & Hi1 & Hd1 & _). rewrite E1 in Es.
    injection Es as _ <-. by exists v1.
  - destruct (derive_addresses_advances w v Hi (Hf v Hr)) as (v1 & (Hi1 & _ & _ & _ & Hd1) & _). rewrite Es in *.
    exists v1. auto.
  - destruct (on_db_ok w _ _ (set_cache_height_ok (database w) v h Hr Hu)) as (d' & E1 & Hr1).
    unfold bump_height in Es. rewrite E1 in Es. injection Es as <-. exists (put_height h v). split; [by apply put_height_inv|].
    revert Hd. apply desc_inv_more; [|done|done]. intros x Hx. exact Hx.
  - destruct (reopen_ok (database w) v Hr (wi_view w v Hi) (proj2 (wi_stats w v Hi)) (di_ok w v Hd) (di_batch w v Hd))
      as (w1 & E1 & Hok). congruence.
Qed.


(** * The gap limit *)

(** When a script at a derivation index is used, the wallet afterwards follows the
    scripts of all its descriptors more than GAP_LIMIT indices beyond it, if these can
    be derived. *)
Theorem gap_limit_kept {E} w v h i
  (Hinv : wallet_inv w v) (Hdesc : desc_inv w v) (Hidx : derived_index w !! h = Some i) (Hlt : i < horizon v)
  (Hroom : horizon v + 2 * DERIVATION_COUNT <= u32_max)
  (Hder : Forall (derivable (horizon v) DERIVATION_COUNT) (v_descriptors v)) :
  exists w' v', maybe_derive_addresses (E := E) h w = (Ok tt, w') /\ wallet_inv w' v' /\
    i + GAP_LIMIT < horizon v' /\ v_descriptors v' = v_descriptors v /\
    Forall (range_tracked w' INDEX_INITIAL (horizon v')) (v_descriptors v').
Proof.
  destruct (stats_of w v Hinv) as (s & Hs & Eh). pose proof (wi_derived w v Hinv h i Hidx) as Hb.
  pose proof (wi_stats w v Hinv) as [_ H0].
  unfold maybe_derive_addresses, mbind, stm_bind, gets. rewrite Hidx.
  unfold on_db_expect. rewrite (get_stats_ok _ v s (wi_db w v Hinv) Hs). cbn [expect_ok].
  assert (Ew : set_database (database w) w = w) by by destruct w. rewrite Ew.
  unfold lift, u32_add. rewrite (proj2 (Z.leb_le _ _)) by (unfold GAP_LIMIT, DERIVATION_COUNT in *; lia).
  destruct (Z.leb_spec (derivation_index s) (i + GAP_LIMIT)) as [Hle|Hgt].
  2:{ exists w, v. split_and!; try done; [lia|apply Hdesc]. }
  destruct (derive_addresses_advances w v Hinv ltac:(unfold DERIVATION_COUNT in *; lia))
    as (v' & (Hi' & Hg & _ & _ & Hd') & Ho).
  destruct (derive_range_ok (horizon v) DERIVATION_COUNT (v_descriptors v) w v Hder Hinv H0 ltac:(done) ltac:(done)
    ltac:(unfold DERIVATION_COUNT in *; lia)) as [l El].
  unfold ignore_err. destruct (derive_addresses w) as [[x|e| |] w'] eqn:Ed; try done.
  - cbn in *. exists w', v'. destruct Ho as (Hz & _ & _). split_and!; try done;
      [unfold GAP_LIMIT, DERIVATION_COUNT in *; lia|apply Hg|by apply Hd'].
  - exfalso. unfold derive_addresses, mbind, stm_bind, on_db, gets in Ed.
    rewrite (get_stats_ok _ v s (wi_db w v Hinv) Hs) in Ed. cbn [map_err] in Ed. rewrite Ew in Ed.
    rewrite (get_descriptors_ok _ v (wi_db w v Hinv)) in Ed. cbn [map_err] in Ed. rewrite Ew, Eh in Ed.
    unfold desc_err in Ed. cbn in Ho.
    pose proof (derive_range_derives (horizon v) DERIVATION_COUNT (v_descriptors v) w v Hinv H0 ltac:(done) ltac:(done)
      ltac:(unfold DERIVATION_COUNT in *; lia)) as (v1 & Hi1 & _).
    destruct (derive_range _ _ _ w) as [o w1]. cbn in El, Hi1. subst o. cbn [map_err] in Ed.
    unfold lift, u32_add in Ed. rewrite (proj2 (Z.leb_le _ _)) in Ed by (unfold DERIVATION_COUNT in *; lia).
    destruct (save_stats_ok (database w1) v1 (set_derivation_index (horizon v + DERIVATION_COUNT) s) (wi_db _ _ Hi1))
      as (d' & Es & _). rewrite Es in Ed. discriminate Ed.
Qed.

(** * What the database does not remember *)

(** An output of a transaction that is already in the history of its address
    changes the cache only. *)
Lemma receive_known {E} w h a tx height mp pos vout value :
  address_map w !! h = Some a -> compute_txid tx ∈ ca_transactions a -> ca_balance a + value <= u64_max ->
  exists w', save_non_mempool_tx (E := E) tx false value vout h
               (mkCachedTx tx height (Some mp) (compute_txid tx) pos) w = (Ok tt, w') /\
    database w' = database w /\ get_address_balance h w' = Some (ca_balance a + value).
Proof.
  intros Ha Hx Hroom. unfold save_non_mempool_tx, receive_utxo, push_history, mbind, stm_bind, gets, modify, lift, u64_add.
  rewrite Ha. rewrite (proj2 (Z.leb_le _ _)) by lia. unfold mret at 1, stm_ret at 1. cbn [ca_transactions ct_hash].
  rewrite bool_decide_eq_true_2 by done. eexists. split_and!; [done|done|].
  unfold get_address_balance. cbn. by rewrite lookup_insert_eq.
Qed.

(** Confirming an output of a transaction that is already in the history of its address,
    because it was unconfirmed before or pays the address twice, changes the balance in
    memory only: after a restart the wallet shows the balance from before the
    confirmation. *)
Theorem known_transaction_not_persisted {E} w v tx height mp pos vout out a
  (Hinv : wallet_inv w v) (Hdesc : desc_inv w v)
  (Hroom : horizon v + 2 * DERIVATION_COUNT <= u32_max) (Hsame : same_outputs v tx) (Hheight : 0 < height)
  (Ha : address_map w !! get_spk_hash (script_pubkey out) = Some a)
  (Hstored : v_addresses v !! get_spk_hash (script_pubkey out) = Some a)
  (Hknown : compute_txid tx ∈ ca_transactions a)
  (Hbalance : ca_balance a + txo_value out <= u64_max) :
  exists w1 w2,
    cache_transaction (E := E) tx height (txo_value out) mp pos vout false (get_spk_hash (script_pubkey out)) w
      = (Ok tt, w1) /\
    get_address_balance (get_spk_hash (script_pubkey out)) w1 = Some (ca_balance a + txo_value out) /\
    inner_new (E := E) (database w1) = Ok w2 /\
    get_address_balance (get_spk_hash (script_pubkey out)) w2 = Some (ca_balance a).
Proof.
  set (h := get_spk_hash (script_pubkey out)) in *.
  destruct (cache_prepare (E := E) w v tx height (txo_value out) mp pos vout false h a Hinv Hsame Hroom Ha)
    as (w1 & v1 & Ec & Hi1 & Hg & _ & _ & _ & Ha1 & Hd1).
  rewrite (proj2 (Z.ltb_lt _ _) Hheight) in Ec.
  destruct (receive_known (E := E) w1 h a tx height mp pos vout (txo_value out) Ha1 Hknown Hbalance) as (w2 & E2 & Edb & Eb).
  destruct (inner_new_inv (E := E) (database w2) v1) as (w3 & v3 & E3 & _ & Hsub & _).
  - rewrite Edb. apply Hi1.
  - apply Hi1.
  - apply Hi1.
  - apply Hd1, Hdesc.
  - exists w2, w3. split_and!; try done; [by rewrite Ec|]. unfold get_address_balance.
    assert (Hs : v_addresses v1 !! h = Some a) by (by apply (lookup_weaken _ _ _ _ Hstored), Hg).
    by rewrite (lookup_weaken _ _ _ _ Hs Hsub).
Qed.

(** * Histories *)

Definition tx_le (s t : CachedTransaction) : Prop := cached_tx_leb s t = true.

(** The order as one of integers: height, position and id. *)
Lemma tx_le_lex s t : tx_le s t <->
  ct_height s < ct_height t \/ ct_height s = ct_height t /\
    (ct_position s < ct_position t \/ ct_position s = ct_position t /\ txid_key (ct_hash s) <= txid_key (ct_hash t)).
Proof.
  unfold tx_le, cached_tx_leb, cached_tx_cmp.
  destruct (Z.compare_spec (ct_height s) (ct_height t)); [|split; [lia|done]..|split; [done|lia]].
  destruct (Z.compare_spec (ct_position s) (ct_position t)); [|split; [lia|done]..|split; [done|lia]].
  destruct (Z.compare_spec (txid_key (ct_hash s)) (txid_key (ct_hash t))); (split; [lia|done]) || (split; [done|lia]).
Qed.

#[local] Instance tx_le_trans : Transitive tx_le.
Proof. intros x y z. rewrite !tx_le_lex. lia. Qed.

Lemma tx_le_total s t : cached_tx_leb s t = false -> tx_le t s.
Proof.
  intros Hf. destruct (cached_tx_leb t s) eqn:E; [done|]. exfalso.
  assert (~ tx_le s t /\ ~ tx_le t s) as [H1 H2] by (unfold tx_le; rewrite Hf, E; done).
  rewrite tx_le_lex in H1, H2. lia.
Qed.

Lemma insert_tx_perm t l : insert_tx t l ≡ₚ t :: l.
Proof.
  induction l as [|x l IH]; [done|]. cbn. destruct (cached_tx_leb t x); [done|]. rewrite IH. apply perm_swap.
Qed.

Lemma insert_tx_sorted t l : StronglySorted tx_le l -> StronglySorted tx_le (insert_tx t l).
Proof.
  induction 1 as [|x l Hl IH Hx]; cbn; [by repeat constructor|]. destruct (cached_tx_leb t x) eqn:E.
  - repeat constructor; try done. eapply Forall_impl; [exact Hx|]. intros y Hy. by transitivity x.
  - constructor; [done|]. rewrite insert_tx_perm. constructor; [by apply tx_le_total|done].
Qed.

Lemma sort_txs_spec l : sort_txs l ≡ₚ l /\ StronglySorted tx_le (sort_txs l).
Proof.
  induction l as [|t l [IH1 IH2]]; cbn; [by split; [|constructor]|]. fold (sort_txs l). split.
  - by rewrite insert_tx_perm, IH1.
  - by apply insert_tx_sorted.
Qed.

Lemma stored_history w v xs : wallet_inv w v -> (forall x, x ∈ xs -> is_Some (v_transactions v !! x)) ->
  map (fun t => compute_txid (ct_tx t)) (omap (fun x => get_transaction x w) xs) = xs.
Proof.
  intros Hi. induction xs as [|x xs IH]; intros Hx; [done|]. destruct (Hx x) as [t Ht]; [by left|]. cbn.
  unfold get_transaction at 1. rewrite (get_transaction_ok _ v x t (wi_db w v Hi) Ht). cbn.
  rewrite (vo_txid v (wi_view w v Hi) x t Ht), IH; [done|]. intros y Hy. apply Hx. by right.
Qed.

(** The history of an address is complete and without repetition: its transactions, the
    confirmed ones first in the order of height, position and id, then the unconfirmed
    ones. *)
Theorem get_address_history_ordered w v h a
  (Hinv : wallet_inv w v) (Ha : address_map w !! h = Some a) :
  exists confirmed unconfirmed, get_address_history h w = Some (confirmed ++ unconfirmed) /\
    map (fun t => compute_txid (ct_tx t)) (confirmed ++ unconfirmed) ≡ₚ ca_transactions a /\
    NoDup (map (fun t => compute_txid (ct_tx t)) (confirmed ++ unconfirmed)) /\
    StronglySorted tx_le confirmed /\
    Forall (fun t => ct_height t <> 0) confirmed /\ Forall (fun t => ct_height t = 0) unconfirmed.
Proof.
  destruct (ao_history v h a (wi_address w v Hinv h a Ha)) as [Hnd Hist].
  pose proof (stored_history w v (ca_transactions a) Hinv Hist) as Emap.
  unfold get_address_history. rewrite Ha. cbn [mbind option_bind].
  set (txs := omap _ _) in *. destruct (sort_txs_spec (filter (fun t => ct_height t <> 0) txs)) as [Hp Hs].
  eexists _, _. split; [done|].
  assert (Hperm : map (fun t => compute_txid (ct_tx t))
    (sort_txs (filter (fun t => ct_height t <> 0) txs) ++ filter (fun t => ct_height t = 0) txs) ≡ₚ ca_transactions a).
  { rewrite <-Emap. apply Permutation_map. rewrite Hp. clear. induction txs as [|t txs IH]; [done|].
    rewrite !filter_cons. destruct (decide (ct_height t = 0)) as [E|E].
    - rewrite decide_False by (intros H; by apply H). by rewrite <-Permutation_middle, IH.
    - rewrite decide_True by done. cbn. by rewrite IH. }
  split_and!; [done|by rewrite Hperm|done| |].
  - rewrite Hp. by apply Forall_forall; intros t [? _]%list_elem_of_filter.
  - by apply Forall_forall; intros t [? _]%list_elem_of_filter.
Qed.
End WalletRuns.
