(* ===== verification/Text.v ===== *)
(** Text as Rust has it, bytes, with the string operations and the numbers and
    IP addresses of the standard library that the node's sources use. *)

From stdpp Require Import base list strings.
From Stdlib Require Import ZArith Lia.
From S2P Require Import Prelude.

(** * Strings *)

(** A [str] is its bytes. *)
Abbreviation text := (list Z) (only parsing).
Definition txt (s : string) : text :=
  map (fun c => Z.of_nat (Ascii.nat_of_ascii c)) (String.list_ascii_of_string s).
Arguments txt s%_string.

Definition COLON : Z := 58.
Definition DOT : Z := 46.
Definition LBRACKET : Z := 91.
Definition RBRACKET : Z := 93.

Definition starts_with (pat s : text) : bool := bool_decide (take (length pat) s = pat).
Definition ends_with (pat s : text) : bool := bool_decide (drop (length s - length pat) s = pat).

(** [s.contains(pat)] for a pattern that is not empty. *)
Fixpoint contains (pat s : text) : bool :=
  match s with
  | [] => false
  | _ :: rest => starts_with pat s || contains pat rest
  end.

(** [s.replace(pat, "")]: the occurrences from the left, which do not overlap;
    [skip] bytes of the current one are left. *)
Fixpoint remove_from (pat : text) (skip : nat) (s : text) : text :=
  match s with
  | [] => []
  | c :: rest =>
      match skip with
      | S k => remove_from pat k rest
      | O => if starts_with pat s then remove_from pat (length pat - 1) rest
             else c :: remove_from pat O rest
      end
  end.
Definition remove_all (pat s : text) : text := remove_from pat O s.

(** [s.split(c)] gives the pieces between the separators. *)
Fixpoint split (c : Z) (s : text) : list text :=
  match s with
  | [] => [[]]
  | x :: rest =>
      if x =? c then [] :: split c rest
      else match split c rest with
           | [] => [[x]]
           | p :: ps => (x :: p) :: ps
           end
  end.

(** [s.split_inclusive(c)]: the pieces keep the separator that ends them, and
    there is no empty last piece. *)
Fixpoint split_inclusive (c : Z) (s : text) : list text :=
  match s with
  | [] => []
  | x :: rest =>
      if x =? c then [x] :: split_inclusive c rest
      else match split_inclusive c rest with
           | [] => [[x]]
           | p :: ps => (x :: p) :: ps
           end
  end.

Definition is_ascii_digit (c : Z) : bool := (48 <=? c) && (c <=? 57).
Definition is_ascii_lower (c : Z) : bool := (97 <=? c) && (c <=? 122).
Definition is_ascii_upper (c : Z) : bool := (65 <=? c) && (c <=? 90).
Definition is_ascii_alphanumeric (c : Z) : bool := is_ascii_digit c || is_ascii_lower c || is_ascii_upper c.

(** * Numbers *)

(** [char::to_digit]. *)
Definition to_digit (radix c : Z) : option Z :=
  let d := if is_ascii_digit c then Some (c - 48)
           else if is_ascii_lower c then Some (c - 87)
           else if is_ascii_upper c then Some (c - 55) else None in
  match d with Some d => if d <? radix then Some d else None | None => None end.
Definition is_ascii_hexdigit (c : Z) : bool := match to_digit 16 c with Some _ => true | None => false end.

(** [Display] and [LowerHex] of an unsigned integer below [radix ^ fuel]. *)
Definition digit_char (d : Z) : Z := if d <? 10 then 48 + d else 87 + d.
Fixpoint digits (radix : Z) (fuel : nat) (z : Z) : list Z :=
  match fuel with
  | O => []
  | S f => if z <? radix then [z] else digits radix f (z / radix) ++ [z mod radix]
  end.
Definition to_text (radix : Z) (z : Z) : text := map digit_char (digits radix 20 z).

(** The digits at the front of the input, with their number; [None] when the
    number is above [cap] or has more than [limit] digits. *)
Fixpoint digits_loop (radix cap : Z) (limit : nat) (s : text) (result : Z) (count : nat) : option (Z * nat * text) :=
  match s with
  | [] => Some (result, count, [])
  | c :: rest =>
      match to_digit radix c with
      | None => Some (result, count, s)
      | Some d =>
          let r := result * radix + d in
          if (r <=? cap) && (count <? limit)%nat then digits_loop radix cap limit rest r (S count) else None
      end
  end.

(** [Parser::read_number] of the address parsers. *)
Definition read_number (radix : Z) (limit : nat) (allow_zero_prefix : bool) (cap : Z) (s : text) : option (Z * text) :=
  match digits_loop radix cap limit s 0 0 with
  | Some (r, count, rest) =>
      if (count =? 0)%nat then None
      else if negb allow_zero_prefix && bool_decide (head s = Some 48) && (1 <? count)%nat then None
      else Some (r, rest)
  | None => None
  end.
Definition read_given_char (c : Z) (s : text) : option text :=
  match s with x :: rest => if x =? c then Some rest else None | [] => None end.

Definition u16_max : Z := 65535.

(** [u16::from_str]: digits, after a sign [+] or none. *)
Definition parse_u16 (s : text) : option Z :=
  let s := match s with c :: ((_ :: _) as rest) => if c =? 43 then rest else s | _ => s end in
  match digits_loop 10 u16_max (length s) s 0 0 with
  | Some (r, S _, []) => Some r
  | _ => None
  end.

(** * IP addresses *)

Record Ipv4Addr := mkIpv4 { oct1 : Z; oct2 : Z; oct3 : Z; oct4 : Z }.
#[export] Instance Ipv4Addr_eq_dec : EqDecision Ipv4Addr.
Proof. solve_decision. Defined.
Definition LOCALHOST : Ipv4Addr := mkIpv4 127 0 0 1.
Definition ipv4_wf (a : Ipv4Addr) : Prop := is_byte (oct1 a) /\ is_byte (oct2 a) /\ is_byte (oct3 a) /\ is_byte (oct4 a).

(** The eight 16-bit segments of an [Ipv6Addr]. *)
Abbreviation Ipv6Addr := (list Z) (only parsing).
Definition is_u16 (z : Z) : Prop := 0 <= z <= u16_max.
Definition ipv6_wf (a : Ipv6Addr) : Prop := length a = 8%nat /\ Forall is_u16 a.
Definition octets (a : Ipv6Addr) : list Z := flat_map (fun s => [s / 256; s mod 256]) a.

Definition ipv4_to_string (a : Ipv4Addr) : text :=
  to_text 10 (oct1 a) ++ DOT :: to_text 10 (oct2 a) ++ DOT :: to_text 10 (oct3 a) ++ DOT :: to_text 10 (oct4 a).

(** Three digits without leading zero at most, and a value of a byte. *)
Definition read_octet : text -> option (Z * text) := read_number 10 3 false 255.
Definition read_ipv4_addr (s : text) : option (Ipv4Addr * text) :=
  '(a, s) ← read_octet s; s ← read_given_char DOT s;
  '(b, s) ← read_octet s; s ← read_given_char DOT s;
  '(c, s) ← read_octet s; s ← read_given_char DOT s;
  '(d, s) ← read_octet s;
  Some (mkIpv4 a b c d, s).
Definition parse_ipv4 (s : text) : option Ipv4Addr :=
  match read_ipv4_addr s with Some (a, []) => Some a | _ => None end.

(** [Display for Ipv6Addr]: the longest run of zeros, the first of its length,
    is written as [::] when it has two segments or more. *)
Definition to_ipv4_mapped (a : Ipv6Addr) : option Ipv4Addr :=
  match a with
  | [a0; a1; a2; a3; a4; a5; ab; cd] =>
      if bool_decide ([a0; a1; a2; a3; a4; a5] = [0; 0; 0; 0; 0; 0xffff])
      then Some (mkIpv4 (ab / 256) (ab mod 256) (cd / 256) (cd mod 256)) else None
  | _ => None
  end.
Fixpoint zero_run (i : nat) (segments : list Z) (start len best_start best_len : nat) : nat * nat :=
  match segments with
  | [] => (best_start, best_len)
  | s :: rest =>
      if s =? 0 then
        let start := if (len =? 0)%nat then i else start in
        let len := S len in
        if (best_len <? len)%nat then zero_run (S i) rest start len start len
        else zero_run (S i) rest start len best_start best_len
      else zero_run (S i) rest 0 0 best_start best_len
  end.
Fixpoint fmt_subslice (segments : list Z) : text :=
  match segments with
  | [] => []
  | [s] => to_text 16 s
  | s :: rest => to_text 16 s ++ COLON :: fmt_subslice rest
  end.
Definition ipv6_to_string (a : Ipv6Addr) : text :=
  match to_ipv4_mapped a with
  | Some v4 => txt "::ffff:" ++ ipv4_to_string v4
  | None =>
      let '(start, len) := zero_run 0 a 0 0 0 0 in
      if (1 <? len)%nat then
        fmt_subslice (take start a) ++ [COLON; COLON] ++ fmt_subslice (drop (start + len) a)
      else fmt_subslice a
  end.

(** [Parser::read_ipv6_addr]: groups of four hexadecimal digits at most,
    possibly with an IPv4 address in the place of the last two. *)
Definition read_separator {A} (i : nat) (p : text -> option (A * text)) (s : text) : option (A * text) :=
  match i with O => p s | S _ => s ← read_given_char COLON s; p s end.
Definition read_segment : text -> option (Z * text) := read_number 16 4 true u16_max.
Fixpoint read_groups (slots i : nat) (s : text) : list Z * bool * text :=
  match slots with
  | O => ([], false, s)
  | S k =>
      match (if (1 <? slots)%nat then read_separator i read_ipv4_addr s else None) with
      | Some (a, s') => ([oct1 a * 256 + oct2 a; oct3 a * 256 + oct4 a], true, s')
      | None =>
          match read_separator i read_segment s with
          | Some (g, s') => let '(gs, v4, s'') := read_groups k (S i) s' in (g :: gs, v4, s'')
          | None => ([], false, s)
          end
      end
  end.
Definition read_ipv6_addr (s : text) : option (Ipv6Addr * text) :=
  let '(hd, hd_ipv4, s) := read_groups 8 0 s in
  if (length hd =? 8)%nat then Some (hd, s)
  else if (hd_ipv4 : bool) then None
  else
    s ← read_given_char COLON s;
    s ← read_given_char COLON s;
    let '(tl, _, s) := read_groups (8 - (length hd + 1)) 0 s in
    Some (hd ++ replicate (8 - length hd - length tl) 0 ++ tl, s).
Definition parse_ipv6 (s : text) : option Ipv6Addr :=
  match read_ipv6_addr s with Some (a, []) => Some a | _ => None end.

Example ipv6_compressed : ipv6_to_string [0x2001; 0xdb8; 0; 0; 1; 0; 0; 1] = txt "2001:db8::1:0:0:1".
Proof. reflexivity. Qed.
Example ipv6_embedded : parse_ipv6 (txt "::ffff:1.2.3.4") = Some [0; 0; 0; 0; 0; 0xffff; 0x102; 0x304].
Proof. reflexivity. Qed.
Example ipv6_ends : parse_ipv6 (txt "1::") = Some [1; 0; 0; 0; 0; 0; 0; 0] /\ parse_ipv6 (txt "::") = Some (replicate 8 0) /\
  parse_ipv6 (txt "1:2") = None /\ parse_ipv6 (txt "1:2:3:4:5:6:7:8:9") = None.
Proof. done. Qed.

(** * Reading what was written *)

(** A reader of digits stops here. *)
Definition no_digit (radix : Z) (s : text) : Prop :=
  match s with [] => True | c :: _ => to_digit radix c = None end.

Lemma to_digit_char radix d : 0 <= d < radix -> radix <= 16 -> to_digit radix (digit_char d) = Some d.
Proof.
  intros Hd Hr. unfold to_digit, digit_char, is_ascii_digit, is_ascii_lower, is_ascii_upper.
  destruct (Z.ltb_spec d 10).
  - rewrite (proj2 (Z.leb_le 48 _)), (proj2 (Z.leb_le _ 57)) by lia. cbn [andb].
    replace (48 + d - 48) with d by lia. by rewrite (proj2 (Z.ltb_lt _ _)) by lia.
  - rewrite (proj2 (Z.leb_gt _ 57)) by lia. rewrite andb_false_r.
    rewrite (proj2 (Z.leb_le 97 _)), (proj2 (Z.leb_le _ 122)) by lia. cbn [andb].
    replace (87 + d - 87) with d by lia. by rewrite (proj2 (Z.ltb_lt _ _)) by lia.
Qed.

Definition value (radix r : Z) (ds : list Z) : Z := foldl (fun a d => a * radix + d) r ds.

Lemma value_ge radix ds : 1 <= radix -> Forall (fun d => 0 <= d < radix) ds ->
  forall r, 0 <= r -> r <= value radix r ds.
Proof.
  intros Hr Hd. induction Hd as [|d ds Hd Hds IH]; intros r Hp; cbn; [lia|].
  specialize (IH (r * radix + d)). unfold value in IH. nia.
Qed.

Lemma digits_loop_digits radix cap limit rest ds : 1 <= radix <= 16 -> Forall (fun d => 0 <= d < radix) ds ->
  no_digit radix rest -> forall r n, 0 <= r -> value radix r ds <= cap -> (n + length ds <= limit)%nat ->
  digits_loop radix cap limit (map digit_char ds ++ rest) r n = Some (value radix r ds, (n + length ds)%nat, rest).
Proof.
  intros Hr Hd Hrest. induction Hd as [|d ds Hd Hds IH]; intros r n Hp Hc Hl; cbn [map app digits_loop length].
  - rewrite Nat.add_0_r. destruct rest as [|c rest]; [done|]. cbn in *. by rewrite Hrest.
  - rewrite to_digit_char by lia. pose proof (value_ge radix ds ltac:(lia) Hds (r * radix + d) ltac:(nia)) as Hv.
    cbn [value foldl] in Hc. fold (value radix (r * radix + d) ds) in Hc. cbn [length] in Hl.
    rewrite (proj2 (Z.leb_le _ _)) by lia. rewrite (proj2 (Nat.ltb_lt _ _)) by lia. cbn [andb].
    rewrite IH by (try nia; try done; lia). cbn. by rewrite Nat.add_succ_r.
Qed.

Lemma digits_spec radix fuel z : 2 <= radix -> 0 <= z < radix ^ Z.of_nat fuel ->
  Forall (fun d => 0 <= d < radix) (digits radix fuel z) /\ value radix 0 (digits radix fuel z) = z.
Proof.
  intros Hr. revert z. induction fuel as [|f IH]; intros z Hz; cbn [digits].
  { rewrite Z.pow_0_r in Hz. split; [constructor|]. cbn. lia. }
  destruct (Z.ltb_spec z radix) as [Hlt|Hge].
  { split; [constructor; [lia|constructor]|]. cbn. lia. }
  rewrite Nat2Z.inj_succ, Z.pow_succ_r in Hz by lia.
  destruct (IH (z / radix)) as [H1 H2].
  { split; [apply Z.div_pos; lia|apply Z.div_lt_upper_bound; lia]. }
  pose proof (Z.mod_pos_bound z radix ltac:(lia)). split.
  - apply Forall_app. split; [done|]. by constructor.
  - unfold value in *. rewrite foldl_app, H2. cbn. pose proof (Z.div_mod z radix ltac:(lia)). lia.
Qed.

(** Numbers below [radix ^ n] have [n] digits at most, and no leading zero. *)
Lemma digits_length radix n : 2 <= radix -> (1 <= n)%nat -> forall fuel z, (n <= fuel)%nat -> 0 <= z < radix ^ Z.of_nat n ->
  (1 <= length (digits radix fuel z) <= n)%nat.
Proof.
  intros Hr Hn. induction n as [|n IH]; intros fuel z Hf Hz; [lia|]. destruct fuel as [|f]; [lia|]. cbn [digits].
  destruct (Z.ltb_spec z radix) as [Hlt|Hge]; [cbn; lia|]. rewrite Nat2Z.inj_succ, Z.pow_succ_r in Hz by lia.
  destruct n as [|n']; [rewrite Z.pow_0_r in Hz; lia|].
  rewrite length_app. cbn [length]. specialize (IH ltac:(lia) f (z / radix) ltac:(lia)).
  assert (0 <= z / radix < radix ^ Z.of_nat (S n')) by (split; [apply Z.div_pos; lia|apply Z.div_lt_upper_bound; lia]).
  specialize (IH ltac:(done)). lia.
Qed.

Lemma digits_no_zero radix fuel z : 2 <= radix -> 0 <= z -> (1 < length (digits radix fuel z))%nat ->
  z < radix ^ Z.of_nat fuel -> head (digits radix fuel z) <> Some 0.
Proof.
  intros Hr. revert z. induction fuel as [|f IH]; intros z Hz Hl Hb; cbn [digits] in *; [cbn in Hl; lia|].
  destruct (Z.ltb_spec z radix) as [Hlt|Hge]; [cbn in Hl; lia|].
  rewrite Nat2Z.inj_succ, Z.pow_succ_r in Hb by lia.
  assert (Hq : 0 < z / radix) by (apply Z.div_str_pos; lia).
  assert (Hqb : z / radix < radix ^ Z.of_nat f) by (apply Z.div_lt_upper_bound; lia).
  destruct (digits radix f (z / radix)) as [|d ds] eqn:E.
  - exfalso. pose proof (digits_spec radix f (z / radix) Hr ltac:(lia)) as [_ Hv]. rewrite E in Hv. cbn in Hv. lia.
  - cbn. destruct ds as [|d2 ds]; [|specialize (IH (z / radix)); rewrite E in IH; cbn in IH; apply IH; lia].
    pose proof (digits_spec radix f (z / radix) Hr ltac:(lia)) as [_ Hv]. rewrite E in Hv. cbn in Hv. intros [= ->]. lia.
Qed.

Lemma read_number_text radix n zero cap z rest : 2 <= radix <= 16 -> (1 <= n <= 20)%nat -> 0 <= z <= cap ->
  z < radix ^ Z.of_nat n -> no_digit radix rest ->
  read_number radix n zero cap (to_text radix z ++ rest) = Some (z, rest).
Proof.
  intros Hr Hn Hz Hb Hrest. unfold read_number, to_text.
  assert (Hfull : 0 <= z < radix ^ Z.of_nat 20).
  { split; [lia|]. eapply Z.lt_le_trans; [exact Hb|]. apply Z.pow_le_mono_r; lia. }
  destruct (digits_spec radix 20 z ltac:(lia) Hfull) as [Hds Hv].
  pose proof (digits_length radix n ltac:(lia) ltac:(lia) 20 z ltac:(lia) ltac:(lia)) as Hl.
  rewrite (digits_loop_digits radix cap n rest _ ltac:(lia) Hds Hrest 0 0) by lia.
  rewrite Hv. cbn [Nat.add]. destruct (digits radix 20 z) as [|d ds] eqn:Ed; [cbn in Hl; lia|].
  assert (E0 : (length (d :: ds) =? 0)%nat = false) by done. rewrite E0.
  destruct (1 <? length (d :: ds))%nat eqn:E1; [|by rewrite andb_false_r].
  apply Nat.ltb_lt in E1. rewrite bool_decide_eq_false_2; [by destruct zero|].
  pose proof (digits_no_zero radix 20 z ltac:(lia) ltac:(lia)) as Hz0. rewrite Ed in Hz0.
  specialize (Hz0 E1 ltac:(lia)). cbn. intros [= Hc]. apply Hz0. cbn. f_equal.
  apply Forall_cons in Hds as [Hd _]. unfold digit_char in Hc. destruct (Z.ltb_spec d 10); lia.
Qed.

Lemma parse_u16_text z : is_u16 z -> parse_u16 (to_text 10 z) = Some z.
Proof.
  intros Hz. unfold is_u16, u16_max in Hz. unfold parse_u16, to_text.
  destruct (digits_spec 10 20 z ltac:(lia) ltac:(lia)) as [Hds Hv].
  pose proof (digits_length 10 5 ltac:(lia) ltac:(lia) 20 z ltac:(lia) ltac:(lia)) as Hl.
  pose proof (digits_loop_digits 10 u16_max (length (digits 10 20 z)) [] _ ltac:(lia) Hds I 0 0) as E.
  rewrite app_nil_r, Hv in E. specialize (E ltac:(lia) ltac:(unfold u16_max; lia) ltac:(lia)).
  rewrite <-(length_map digit_char) in E at 1.
  destruct (digits 10 20 z) as [|d ds] eqn:Ed; [cbn in Hl; lia|]. apply Forall_cons in Hds as [Hd _].
  assert (Hc : digit_char d <> 43) by (unfold digit_char; destruct (Z.ltb_spec d 10); lia).
  cbn [map] in *. rewrite (proj2 (Z.eqb_neq _ _) Hc).
  assert (Es : forall (A : text), match A with _ :: _ => digit_char d :: A | _ => digit_char d :: A end = digit_char d :: A)
    by (by intros []).
  rewrite Es. change (length (d :: ds)) with (S (length ds)) in E. by rewrite E.
Qed.

Lemma read_given_char_eq {A} c s (f : text -> option A) : (read_given_char c (c :: s) ≫= f) = f s.
Proof. cbn. by rewrite Z.eqb_refl. Qed.

Lemma read_octet_text z rest : is_byte z -> no_digit 10 rest -> read_octet (to_text 10 z ++ rest) = Some (z, rest).
Proof. intros Hz Hr. unfold is_byte in Hz. apply read_number_text; [lia|lia|lia|cbn; lia|done]. Qed.

Lemma read_ipv4_text a rest : ipv4_wf a -> no_digit 10 rest ->
  read_ipv4_addr (ipv4_to_string a ++ rest) = Some (a, rest).
Proof.
  intros (H1 & H2 & H3 & H4) Hr. unfold read_ipv4_addr, ipv4_to_string.
  do 3 (rewrite <-app_assoc; cbn [app]; rewrite read_octet_text by done; cbn [mbind option_bind];
    rewrite read_given_char_eq).
  rewrite read_octet_text by done. by destruct a.
Qed.

Lemma parse_ipv4_text a : ipv4_wf a -> parse_ipv4 (ipv4_to_string a) = Some a.
Proof.
  intros Ha. unfold parse_ipv4. rewrite <-(app_nil_r (ipv4_to_string a)). by rewrite read_ipv4_text.
Qed.

(** ** Groups of hexadecimal digits *)

Lemma read_segment_text g rest : is_u16 g -> no_digit 16 rest -> read_segment (to_text 16 g ++ rest) = Some (g, rest).
Proof. intros Hg Hr. unfold is_u16, u16_max in *. apply read_number_text; [lia|lia|unfold u16_max; lia|cbn; lia|done]. Qed.

(** An IPv4 address does not begin with a group, which no dot follows. *)
Definition no_dot (s : text) : Prop := head s <> Some DOT.

Lemma digits_loop_no_dot radix cap limit ds rest : Forall (fun d => 0 <= d < 16) ds -> no_dot rest -> no_digit 10 rest ->
  forall r n r' n' s', digits_loop radix cap limit (map digit_char ds ++ rest) r n = Some (r', n', s') ->
  to_digit radix DOT = None -> radix = 10 -> no_dot s'.
Proof.
  intros Hd Hdot Hrest r n r' n' s' E _ ->. revert r n E. induction Hd as [|d ds Hd Hds IH]; intros r n; cbn [map app digits_loop].
  - destruct rest as [|c rest]; [by intros [= <- <- <-]|]. cbn in *. rewrite Hrest. by intros [= <- <- <-].
  - destruct (to_digit 10 (digit_char d)).
    + destruct (_ && _); [apply IH|done].
    + intros [= <- <- <-]. cbn. unfold no_dot, DOT, digit_char. intros [= E]. destruct (Z.ltb_spec d 10); lia.
Qed.

Lemma no_ipv4 g rest : is_u16 g -> no_dot rest -> no_digit 10 rest -> read_ipv4_addr (to_text 16 g ++ rest) = None.
Proof.
  intros Hg Hdot Hrest. unfold read_ipv4_addr, read_octet, read_number.
  destruct (digits_loop 10 255 3 (to_text 16 g ++ rest) 0 0) as [[[r n] s']|] eqn:E; [|done].
  assert (Hs : no_dot s').
  { apply (digits_loop_no_dot 10 255 3 (digits 16 20 g) rest) in E; try done.
    unfold is_u16, u16_max in Hg. by apply digits_spec; lia. }
  destruct (n =? 0)%nat; [done|]. destruct (_ && _); [done|]. cbn [mbind option_bind].
  destruct s' as [|c s']; [done|]. cbn [read_given_char]. destruct (Z.eqb_spec c DOT) as [->|]; [|done]. by destruct Hs.
Qed.

(** The groups, with the separator in front unless they are the first. *)
Fixpoint groups_text (first : bool) (gs : list Z) : text :=
  match gs with
  | [] => []
  | g :: rest => (if first then [] else [COLON]) ++ to_text 16 g ++ groups_text false rest
  end.

Lemma fmt_subslice_groups gs : fmt_subslice gs = groups_text true gs.
Proof.
  assert (H : forall gs g, fmt_subslice (g :: gs) = to_text 16 g ++ groups_text false gs).
  { intros l. induction l as [|x l IH]; intros g; [cbn [fmt_subslice groups_text]; by rewrite app_nil_r|].
    cbn [groups_text app]. by rewrite <-IH. }
  destruct gs; [done|]. rewrite H. done.
Qed.

(** Nothing to read for another group. *)
Definition ends_groups (i : nat) (rest : text) : Prop :=
  no_digit 16 rest /\ no_digit 10 rest /\ no_dot rest /\
  forall slots, read_groups slots i rest = ([], false, rest).

Lemma ends_groups_nil i : ends_groups i [].
Proof. split_and!; try done. intros slots. destruct slots, i; try done; by destruct slots. Qed.

Lemma ends_groups_colons i s : ends_groups i (COLON :: COLON :: s).
Proof. split_and!; try done. intros slots. destruct slots as [|[|slots]], i; done. Qed.

Lemma groups_text_stop gs rest : no_digit 16 rest -> no_digit 10 rest -> no_dot rest ->
  no_digit 16 (groups_text false gs ++ rest) /\ no_digit 10 (groups_text false gs ++ rest) /\ no_dot (groups_text false gs ++ rest).
Proof. intros H1 H2 H3. by destruct gs. Qed.

Lemma read_groups_text gs rest : Forall is_u16 gs -> forall slots i, (length gs <= slots)%nat ->
  no_digit 16 rest -> no_digit 10 rest -> no_dot rest ->
  (slots = length gs \/ ends_groups (i + length gs) rest) ->
  read_groups slots i (groups_text (i =? 0)%nat gs ++ rest) = (gs, false, rest).
Proof.
  intros Hgs. induction Hgs as [|g gs Hg Hgs IH]; intros slots i Hl N1 N2 N3 Hend; cbn [groups_text length] in *.
  { rewrite Nat.add_0_r in Hend. destruct Hend as [->|(_ & _ & _ & He)]; [done|]. apply He. }
  destruct slots as [|k]; [lia|]. destruct (groups_text_stop gs rest N1 N2 N3) as (M1 & M2 & M3).
  assert (Hsep : forall A (p : text -> option (A * text)),
    read_separator i p (((if (i =? 0)%nat then [] else [COLON]) ++ to_text 16 g ++ groups_text false gs) ++ rest) =
    p (to_text 16 g ++ groups_text false gs ++ rest)).
  { intros A p. destruct i; cbn; by rewrite <-?app_assoc. }
  cbn [read_groups]. rewrite !Hsep, no_ipv4, read_segment_text by done.
  specialize (IH k (S i) ltac:(lia) N1 N2 N3). cbn [Nat.eqb] in IH. rewrite IH; [by destruct (1 <? S k)%nat|].
  destruct Hend as [?|He]; [left; lia|right]. by rewrite Nat.add_succ_comm.
Qed.

(** ** The longest run of zeros *)

Lemma zero_run_spec segs : forall i start len bs bl pre,
  length pre = i -> (start + len = i \/ len = 0)%nat -> (bs + bl <= i)%nat ->
  Forall (fun x => x = 0) (take len (drop start pre)) -> Forall (fun x => x = 0) (take bl (drop bs pre)) ->
  let '(s, l) := zero_run i segs start len bs bl in
  (s + l <= length (pre ++ segs))%nat /\ Forall (fun x => x = 0) (take l (drop s (pre ++ segs))).
Proof.
  assert (Hgrow : forall s l (pre : list Z) x, (s + l <= length pre)%nat ->
    take l (drop s (pre ++ [x])) = take l (drop s pre)).
  { intros s l pre x Hb. rewrite drop_app_le by lia. apply take_app_le. rewrite length_drop. lia. }
  induction segs as [|x segs IH]; intros i start len bs bl pre Hi Hc Hb Hz Hbz; cbn [zero_run].
  { rewrite app_nil_r. split; [lia|done]. }
  assert (Eapp : pre ++ x :: segs = (pre ++ [x]) ++ segs) by by rewrite <-app_assoc.
  assert (Hlen : length (pre ++ [x]) = S i) by (rewrite length_app; cbn; lia). rewrite Eapp.
  destruct (Z.eqb_spec x 0) as [->|Hx].
  2:{ apply IH; try done; [by right|lia|]. by rewrite Hgrow by lia. }
  set (st := if (len =? 0)%nat then i else start).
  assert (Hst : (st + S len = S i)%nat) by (unfold st; destruct (Nat.eqb_spec len 0); lia).
  assert (Hz' : Forall (fun x => x = 0) (take (S len) (drop st (pre ++ [0])))).
  { rewrite drop_app_le by lia. rewrite take_ge by (rewrite length_app, length_drop; cbn; lia).
    apply Forall_app. split; [|by constructor]. unfold st. destruct (Nat.eqb_spec len 0).
    - rewrite drop_ge by lia. constructor.
    - rewrite take_ge in Hz by (rewrite length_drop; lia). done. }
  destruct (bl <? S len)%nat; apply IH; try done; try lia. by rewrite Hgrow by lia.
Qed.

Lemma zeros_replicate l : Forall (fun x => x = 0) l -> l = replicate (length l) 0.
Proof. induction 1 as [|x l -> _ IH]; cbn; congruence. Qed.

Lemma to_ipv4_mapped_Some a v4 : ipv6_wf a -> to_ipv4_mapped a = Some v4 ->
  ipv4_wf v4 /\ a = replicate 5 0 ++ [0xffff; oct1 v4 * 256 + oct2 v4; oct3 v4 * 256 + oct4 v4].
Proof.
  intros [Hl Hu] E. destruct a as [|a0 [|a1 [|a2 [|a3 [|a4 [|a5 [|a6 [|a7 [|]]]]]]]]]; try discriminate Hl.
  cbn in E. case_bool_decide as Hz; [|done]. injection Hz as -> -> -> -> -> ->. injection E as <-.
  apply (Forall_drop _ 6) in Hu. cbn in Hu. apply Forall_cons in Hu as [H6 Hu], Hu as [H7 _].
  unfold is_u16, u16_max in *. split.
  - unfold ipv4_wf, is_byte. cbn. pose proof (Z.mod_pos_bound a6 256 ltac:(lia)). pose proof (Z.mod_pos_bound a7 256 ltac:(lia)).
    split_and!; try lia; [apply Z.div_pos|apply Z.div_lt_upper_bound|apply Z.div_pos|apply Z.div_lt_upper_bound]; lia.
  - cbn [oct1 oct2 oct3 oct4]. rewrite !(Z.mul_comm _ 256), <-!Z.div_mod by lia. done.
Qed.

Lemma read_ipv6_mapped v4 : ipv4_wf v4 ->
  parse_ipv6 (txt "::ffff:" ++ ipv4_to_string v4) =
    Some (replicate 5 0 ++ [0xffff; oct1 v4 * 256 + oct2 v4; oct3 v4 * 256 + oct4 v4]).
Proof.
  intros Hv. unfold parse_ipv6, read_ipv6_addr.
  change (txt "::ffff:" ++ ipv4_to_string v4) with (COLON :: COLON :: (to_text 16 0xffff ++ COLON :: ipv4_to_string v4)).
  destruct (ends_groups_colons 0 (to_text 16 0xffff ++ COLON :: ipv4_to_string v4)) as (_ & _ & _ & He).
  rewrite He. cbn [length Nat.eqb Nat.add Nat.sub]. rewrite !read_given_char_eq.
  cbn [read_groups read_separator]. rewrite no_ipv4, read_segment_text by done. cbn [Nat.ltb Nat.leb].
  rewrite read_given_char_eq.
  rewrite <-(app_nil_r (ipv4_to_string v4)), read_ipv4_text by done. done.
Qed.

Lemma parse_ipv6_text a : ipv6_wf a -> parse_ipv6 (ipv6_to_string a) = Some a.
Proof.
  intros Ha. pose proof Ha as [Hl Hu]. unfold ipv6_to_string. destruct (to_ipv4_mapped a) as [v4|] eqn:Em.
  { destruct (to_ipv4_mapped_Some a v4 Ha Em) as [Hv E]. rewrite E. by apply read_ipv6_mapped. }
  pose proof (zero_run_spec a 0 0 0 0 0 [] eq_refl ltac:(by right) ltac:(done) ltac:(done) ltac:(done)) as Hz.
  destruct (zero_run 0 a 0 0 0 0) as [start len]. cbn [app] in Hz. destruct Hz as [Hb Hz].
  unfold parse_ipv6, read_ipv6_addr. rewrite !fmt_subslice_groups. destruct (Nat.ltb_spec 1 len) as [Hlen|Hlen].
  - pose proof (ends_groups_colons (length (take start a)) (groups_text true (drop (start + len) a))) as Hend.
    pose proof (read_groups_text (take start a) (COLON :: COLON :: groups_text true (drop (start + len) a))
      ltac:(by apply Forall_take) 8 0 ltac:(rewrite length_take; lia) ltac:(done) ltac:(done) ltac:(done) ltac:(by right)) as E1.
    cbn [Nat.eqb] in E1. cbn [app]. rewrite E1, length_take, Nat.min_l by lia.
    rewrite (proj2 (Nat.eqb_neq _ _)) by lia. rewrite !read_given_char_eq.
    pose proof (read_groups_text (drop (start + len) a) [] ltac:(by apply Forall_drop) (8 - (start + 1)) 0
      ltac:(rewrite length_drop; lia) ltac:(done) ltac:(done) ltac:(done) ltac:(right; apply ends_groups_nil)) as E2.
    cbn [Nat.eqb] in E2. rewrite app_nil_r in E2. rewrite E2, length_drop. f_equal.
    apply zeros_replicate in Hz. rewrite length_take, length_drop in Hz.
    replace (8 - start - (length a - (start + len)))%nat with (len `min` (length a - start))%nat by lia.
    rewrite <-Hz, <-drop_drop, take_drop. apply take_drop.
  - pose proof (read_groups_text a [] Hu 8 0 ltac:(lia) ltac:(done) ltac:(done) ltac:(done) ltac:(left; lia)) as E1.
    cbn [Nat.eqb] in E1. rewrite app_nil_r in E1. by rewrite E1, Hl.
Qed.
