(* ===== verification/Onion.v ===== *)
(** Tor v3 addresses ([src/crates/floresta-wire/src/p2p_wire/onion.rs]): the
    base32 text of a public key with a checksum. *)

From stdpp Require Import base list strings.
From Stdlib Require Import ZArith Lia.
From S2P Require Import Prelude Text.

Definition BASE32_ALPHABET : text := txt "abcdefghijklmnopqrstuvwxyz234567".
Definition ONION_SUFFIX : text := txt ".onion".
Definition ONION_ENCODING_VERSION : Z := 3.
Definition PUBKEY_LENGTH : nat := 32.
Definition CHECKSUM_LENGTH : nat := 2.
Definition VERSION_LENGTH : nat := 1.
Definition CHUNK_LENGTH_BYTES : nat := 5.

(** SHA3-256, of bitcoin_hashes: 32 bytes. *)
Class Sha3Lib := {
  sha3_256 : list Z -> list Z;
  sha3_256_length : forall l, length (sha3_256 l) = 32%nat;
  sha3_256_bytes : forall l, Forall is_byte (sha3_256 l)
}.

Inductive Base32DecodeError :=
  | Base32InvalidLength
  | InvalidBase32Character (invalid_character : Z)
  | NotAsciiString.

Inductive OnionAddressDecodeError :=
  | Base32 (e : Base32DecodeError)
  | MissingDotOnion
  | InvalidChecksum
  | InvalidOnionVersion
  | InvalidLength.

Record OnionV3Addr := mkOnion { pubkey : list Z; version : Z }.

(** [From<[u8; 32]>]. *)
Definition onion_from (key : list Z) : OnionV3Addr := mkOnion key ONION_ENCODING_VERSION.

(** * Base32 *)

(** The loop takes five bits at a time from the top of the word. *)
Definition B32_MASK : Z := 31.
Fixpoint encode_loop (fuel : nat) (word offset total : Z) : outcome unit text :=
  match fuel with
  | O => Diverge
  | S f =>
      if 0 <? total then
        let remainder := Z.shiftr (Z.land word (wrap64 (Z.shiftl B32_MASK offset))) offset in
        ch ← expect (BASE32_ALPHABET !! Z.to_nat remainder);
        rest ← encode_loop f word (saturating_sub offset 5) (saturating_sub total 5);
        Ok (ch :: rest)
      else Ok []
  end.
Definition b32_encode_chunk (chunk : list Z) (total : Z) : outcome unit text :=
  if (length chunk =? CHUNK_LENGTH_BYTES)%nat then
    encode_loop 60 (be_int (chunk ++ [0; 0; 0])) (64 - 5) total
  else Panic.

(** [chunks(5)] of a list, and the loop over them. *)
Fixpoint chunks5 (fuel : nat) (l : list Z) : list (list Z) :=
  match fuel, l with
  | S f, _ :: _ => take CHUNK_LENGTH_BYTES l :: chunks5 f (drop CHUNK_LENGTH_BYTES l)
  | _, _ => []
  end.
Fixpoint encode_chunks (cs : list (list Z)) : outcome unit text :=
  match cs with
  | [] => Ok []
  | c :: rest =>
      s ← b32_encode_chunk c (Z.of_nat (length c * 8));
      more ← encode_chunks rest;
      Ok (s ++ more)
  end.

Definition b32_get_char_value (ch : Z) : option Z :=
  '(i, _) ← list_find (fun c => c = ch) BASE32_ALPHABET; Some (Z.of_nat i).

Fixpoint decode_loop (chunk : text) (acc offset : Z) : outcome Base32DecodeError Z :=
  match chunk with
  | [] => Ok acc
  | ch :: rest =>
      _ ← err_if (128 <=? ch) (InvalidBase32Character ch);
      val ← ok_or (b32_get_char_value ch) (InvalidBase32Character ch);
      let acc := Z.lor acc (wrap64 (Z.shiftl val offset)) in
      offset ← u32_sub offset 5;
      decode_loop rest acc offset
  end.
Definition b32_decode_chunk (chunk : text) : outcome Base32DecodeError (list Z) :=
  acc ← decode_loop chunk 0 (64 - 5);
  Ok (take CHUNK_LENGTH_BYTES (be_bytes 8 acc)).

Fixpoint decode_chunks (chunks : nat) (value : text) : outcome Base32DecodeError (list Z) :=
  match chunks with
  | O => Ok []
  | S n =>
      decoded ← b32_decode_chunk (take 8 value);
      rest ← decode_chunks n (drop 8 value);
      Ok (decoded ++ rest)
  end.
Definition b32_decode (value : text) : outcome Base32DecodeError (list Z) :=
  _ ← err_if (negb (forallb (fun c => c <? 128) value)) NotAsciiString;
  _ ← err_if (bool_decide (value = []) || negb (length value mod 8 =? 0)%nat) Base32InvalidLength;
  decode_chunks (length value / 8) value.

(** * Addresses *)

Section Onion.
Context `{Sha3Lib}.

Definition checksum (a : OnionV3Addr) : list Z :=
  take CHECKSUM_LENGTH (sha3_256 (txt ".onion checksum" ++ pubkey a ++ [version a])).

Definition b32_encode (a : OnionV3Addr) : outcome unit text :=
  let writer := pubkey a ++ checksum a ++ [version a] in
  encode_chunks (chunks5 (length writer) writer).

Definition as_human_readable (a : OnionV3Addr) : outcome unit text :=
  address ← b32_encode a; Ok (address ++ ONION_SUFFIX).

Definition ONION_ADDRESS_STR_LENGTH : nat := 35.
Definition onion_address_from_b32 (address : text) : outcome OnionAddressDecodeError OnionV3Addr :=
  _ ← err_if (negb (ends_with (txt ".onion") address)) MissingDotOnion;
  let address_part := remove_all (txt ".onion") address in
  decoded_bytes ← map_err Base32 (b32_decode address_part);
  _ ← err_if (negb (length decoded_bytes =? ONION_ADDRESS_STR_LENGTH)%nat) InvalidLength;
  let pubkey := take 32 decoded_bytes in
  let sum := take 2 (drop 32 decoded_bytes) in
  version ← expect (decoded_bytes !! 34%nat);
  _ ← err_if (negb (version =? ONION_ENCODING_VERSION)) InvalidOnionVersion;
  let onion_address := mkOnion pubkey version in
  _ ← err_if (negb (bool_decide (checksum onion_address = sum))) InvalidChecksum;
  Ok onion_address.
End Onion.

(** * Chunks *)

Definition alpha (d : Z) : Z := default 0 (BASE32_ALPHABET !! Z.to_nat d).

Lemma alpha_checks : forallb (fun n => bool_decide (b32_get_char_value (alpha (Z.of_nat n)) = Some (Z.of_nat n) /\
  BASE32_ALPHABET !! n = Some (alpha (Z.of_nat n)) /\ 0 <= alpha (Z.of_nat n) < 128 /\
  Forall (fun c => alpha (Z.of_nat n) <> c) [DOT; COLON; LBRACKET])) (seq 0 32) = true.
Proof. vm_compute. reflexivity. Qed.

Lemma alpha_spec d : 0 <= d < 32 ->
  b32_get_char_value (alpha d) = Some d /\ BASE32_ALPHABET !! Z.to_nat d = Some (alpha d) /\
  0 <= alpha d < 128 /\ Forall (fun c => alpha d <> c) [DOT; COLON; LBRACKET].
Proof.
  intros Hd. pose proof alpha_checks as Hc. rewrite forallb_forall in Hc.
  specialize (Hc (Z.to_nat d)). rewrite Z2Nat.id in Hc by lia. eapply bool_decide_eq_true_1, Hc. apply in_seq. lia.
Qed.

Lemma get_char_value_Some ch v : b32_get_char_value ch = Some v -> 0 <= v < 32 /\ ch = alpha v.
Proof.
  unfold b32_get_char_value. destruct (list_find _ _) as [[i c]|] eqn:E; [|done]. cbn. intros [= <-].
  apply list_find_Some in E as (Ei & -> & _). pose proof (lookup_lt_Some _ _ _ Ei) as Hl. cbn in Hl.
  split; [lia|]. unfold alpha. by rewrite Nat2Z.id, Ei.
Qed.

(** The [n] groups of five bits of a word above its last 24 bits. *)
Fixpoint groups (n : nat) (w : Z) : list Z :=
  match n with O => [] | S k => (w / 2 ^ (24 + 5 * Z.of_nat k)) mod 32 :: groups k w end.

Lemma groups_range n w : Forall (fun d => 0 <= d < 32) (groups n w).
Proof. induction n as [|n IH]; constructor; [by apply Z.mod_pos_bound|done]. Qed.

Lemma five_bits w offset : 0 <= offset <= 59 ->
  Z.shiftr (Z.land w (wrap64 (Z.shiftl B32_MASK offset))) offset = (w / 2 ^ offset) mod 32.
Proof.
  intros Ho. unfold wrap64. rewrite Z.mod_small.
  - rewrite Z.shiftr_land, Z.shiftr_shiftl_l, Z.sub_diag, Z.shiftl_0_r by lia.
    change B32_MASK with (Z.ones 5). by rewrite Z.land_ones, Z.shiftr_div_pow2 by lia.
  - rewrite Z.shiftl_mul_pow2 by lia. assert (2 ^ offset <= 2 ^ 59) by (apply Z.pow_le_mono_r; lia).
    pose proof (Z.pow_pos_nonneg 2 offset ltac:(lia) ltac:(lia)). unfold B32_MASK. lia.
Qed.

Lemma encode_loop_groups n : forall fuel w, (n < fuel)%nat -> (n <= 8)%nat ->
  encode_loop fuel w (saturating_sub (24 + 5 * Z.of_nat n) 5) (5 * Z.of_nat n) = Ok (map alpha (groups n w)).
Proof.
  induction n as [|n IH]; intros fuel w Hf Hn; destruct fuel as [|f]; [lia|done|lia|]. cbn [encode_loop map groups].
  rewrite (proj2 (Z.ltb_lt _ _)) by lia. 
  replace (saturating_sub (24 + 5 * Z.of_nat (S n)) 5) with (24 + 5 * Z.of_nat n) by (unfold saturating_sub; lia).
  rewrite five_bits by lia.
  destruct (alpha_spec ((w / 2 ^ (24 + 5 * Z.of_nat n)) mod 32)) as (_ & E & _); [by apply Z.mod_pos_bound|].
  rewrite E. cbn [expect mbind outcome_bind].
  replace (saturating_sub (5 * Z.of_nat (S n)) 5) with (5 * Z.of_nat n) by (unfold saturating_sub; lia).
  by rewrite IH by lia.
Qed.

(** Five bits below a word that ends in zeros. *)
Lemma lor_low a d k : 0 <= k <= 59 -> 0 <= d < 32 -> Z.lor (a * 2 ^ (k + 5)) (wrap64 (Z.shiftl d k)) = a * 2 ^ (k + 5) + d * 2 ^ k.
Proof.
  intros Hk Hd. pose proof (Z.pow_pos_nonneg 2 k ltac:(lia) ltac:(lia)).
  assert (2 ^ k <= 2 ^ 59) by (apply Z.pow_le_mono_r; lia).
  assert (0 <= d * 2 ^ k <= 31 * 2 ^ 59) by nia.
  unfold wrap64. rewrite Z.shiftl_mul_pow2, Z.mod_small by lia.
  assert (Hdis : Z.land (a * 2 ^ (k + 5)) (d * 2 ^ k) = 0); [|by rewrite <-Z.lxor_lor, <-Z.add_nocarry_lxor].
  rewrite <-!Z.shiftl_mul_pow2 by lia. apply Z.bits_inj'. intros i Hi.
  rewrite Z.land_spec, Z.bits_0, !Z.shiftl_spec by lia.
  destruct (Z.ltb_spec i (k + 5)); [by rewrite (Z.testbit_neg_r a) by lia|].
  rewrite (Z.bits_above_log2 d (i - k)), andb_false_r; [done|lia|].
  destruct (Z.eq_dec d 0) as [->|]; [cbn; lia|]. apply Z.log2_lt_pow2; [lia|].
  eapply Z.lt_le_trans; [exact (proj2 Hd)|]. change 32 with (2 ^ 5). apply Z.pow_le_mono_r; lia.
Qed.

Lemma decode_loop_inv n : forall s a r, length s = n -> (n <= 8)%nat ->
  decode_loop s (a * 2 ^ (24 + 5 * Z.of_nat n)) (24 + 5 * Z.of_nat n - 5) = Ok r ->
  s = map alpha (groups n r) /\ exists x, 0 <= x < 2 ^ (5 * Z.of_nat n) /\ r = 2 ^ 24 * (a * 2 ^ (5 * Z.of_nat n) + x).
Proof.
  induction n as [|n IH]; intros s a r Hl Hn; destruct s as [|ch s]; try discriminate Hl; cbn [decode_loop].
  { intros [= <-]. split; [done|]. exists 0. cbn. lia. }
  cbn in Hl. injection Hl as Hl. intros Hd.
  apply obind_ok in Hd as (u & _ & Hd). apply obind_ok in Hd as (v & [Hv ->]%ok_or_ok%get_char_value_Some & Hd).
  replace (24 + 5 * Z.of_nat (S n) - 5) with (24 + 5 * Z.of_nat n) in Hd by lia.
  replace (24 + 5 * Z.of_nat (S n)) with (24 + 5 * Z.of_nat n + 5) in Hd by lia.
  rewrite lor_low in Hd by lia. apply obind_ok in Hd as (o & [-> _]%u32_sub_ok & Hd).
  set (k := Z.of_nat n) in *.
  assert (Hp : 2 ^ (5 * Z.of_nat (S n)) = 32 * 2 ^ (5 * k)).
  { replace (5 * Z.of_nat (S n)) with (5 * k + 5) by (unfold k; lia). rewrite Z.pow_add_r by lia. lia. }
  assert (Hq : 2 ^ (24 + 5 * k) = 2 ^ 24 * 2 ^ (5 * k)) by (by rewrite Z.pow_add_r by lia).
  assert (Hacc : a * 2 ^ (24 + 5 * k + 5) + v * 2 ^ (24 + 5 * k) = (32 * a + v) * 2 ^ (24 + 5 * k)).
  { rewrite (Z.pow_add_r 2 (24 + 5 * k) 5) by lia. lia. }
  rewrite Hacc in Hd. destruct (IH s (32 * a + v) r Hl ltac:(lia) Hd) as (Es & x & Hx & Er).
  split; [|exists (v * 2 ^ (5 * k) + x); rewrite Hp; split; [nia|rewrite Er; lia]].
  cbn [groups map]. rewrite <-Es. do 2 f_equal. fold k. rewrite Hq, Er, Z.div_mul_cancel_l by lia.
  rewrite Z.div_add_l, (Z.div_small x) by lia. rewrite Z.add_0_r, Z.mul_comm, Z.add_comm, Z.mod_add by lia.
  by rewrite Z.mod_small.
Qed.

Lemma decode_loop_groups n : forall w a, (n <= 8)%nat ->
  decode_loop (map alpha (groups n w)) (a * 2 ^ (24 + 5 * Z.of_nat n)) (24 + 5 * Z.of_nat n - 5) =
    Ok (2 ^ 24 * (a * 2 ^ (5 * Z.of_nat n) + (w / 2 ^ 24) mod 2 ^ (5 * Z.of_nat n))).
Proof.
  induction n as [|n IH]; intros w a Hn; cbn [groups map decode_loop].
  { cbn [Z.of_nat Z.mul Z.add]. rewrite Z.pow_0_r, Z.mod_1_r. f_equal. lia. }
  set (k := Z.of_nat n) in *. set (v := (w / 2 ^ (24 + 5 * k)) mod 32).
  assert (Hv : 0 <= v < 32) by (by apply Z.mod_pos_bound).
  destruct (alpha_spec v Hv) as (Ev & _ & Ha & _). rewrite (proj2 (Z.leb_gt _ _)) by lia.
  cbn [err_if mbind outcome_bind]. rewrite Ev. cbn [ok_or mbind outcome_bind].
  replace (24 + 5 * Z.of_nat (S n) - 5) with (24 + 5 * k) by lia.
  replace (24 + 5 * Z.of_nat (S n)) with (24 + 5 * k + 5) by lia. rewrite lor_low by lia.
  unfold u32_sub. rewrite (proj2 (Z.leb_le _ _)) by lia. cbn [mbind outcome_bind].
  assert (Hacc : a * 2 ^ (24 + 5 * k + 5) + v * 2 ^ (24 + 5 * k) = (32 * a + v) * 2 ^ (24 + 5 * k)).
  { rewrite (Z.pow_add_r 2 (24 + 5 * k) 5) by lia. lia. }
  rewrite Hacc, IH by lia. f_equal. f_equal.
  assert (Hp : 2 ^ (5 * Z.of_nat (S n)) = 2 ^ (5 * k) * 32).
  { replace (5 * Z.of_nat (S n)) with (5 * k + 5) by (unfold k; lia). by rewrite Z.pow_add_r by lia. }
  assert (0 < 2 ^ (5 * k)) by (apply Z.pow_pos_nonneg; lia).
  rewrite Hp, Z.rem_mul_r by lia. unfold v. rewrite Z.pow_add_r, Z.div_div by lia. lia.
Qed.

(** ** A chunk of five bytes is eight characters *)

Definition is_chunk (l : list Z) : Prop := length l = 5%nat /\ Forall is_byte l.

Lemma be_bytes_int l : Forall is_byte l -> be_bytes (length l) (be_int l) = l.
Proof.
  intros Hl. unfold be_bytes, be_int. rewrite <-(length_rev l), le_bytes_int; [apply rev_involutive|].
  apply Forall_rev. done.
Qed.

(** The word of a chunk has 40 bits above 24 zeros. *)
Lemma chunk_word l : is_chunk l -> exists x, 0 <= x < 2 ^ 40 /\ be_int (l ++ [0; 0; 0]) = 2 ^ 24 * x.
Proof.
  intros [Hl Hb]. exists (le_int (rev l)). split.
  - pose proof (le_int_bound (rev l) ltac:(by apply Forall_rev)) as H. rewrite length_rev, Hl in H. exact H.
  - unfold be_int. rewrite rev_app_distr, le_int_app. cbn. lia.
Qed.

Lemma word_chunk x : 0 <= x < 2 ^ 40 ->
  is_chunk (take 5 (be_bytes 8 (2 ^ 24 * x))) /\ be_int (take 5 (be_bytes 8 (2 ^ 24 * x)) ++ [0; 0; 0]) = 2 ^ 24 * x.
Proof.
  intros Hx. assert (E : be_bytes 8 (2 ^ 24 * x) = be_bytes 5 x ++ [0; 0; 0]).
  { unfold be_bytes. replace (le_bytes 8 (2 ^ 24 * x)) with ([0; 0; 0] ++ le_bytes 5 x); [by rewrite rev_app_distr|].
    rewrite <-(le_bytes_int ([0; 0; 0] ++ le_bytes 5 x)).
    - rewrite length_app, length_le_bytes, le_int_app, le_int_bytes by (cbn; lia).
      replace (le_int [0; 0; 0] + 256 ^ Z.of_nat (length [0; 0; 0]) * x) with (2 ^ 24 * x) by (cbn; lia). done.
    - apply Forall_app. split; [by repeat constructor|apply le_bytes_byte]. }
  rewrite E. assert (Hl : length (be_bytes 5 x) = 5%nat) by (unfold be_bytes; by rewrite length_rev, length_le_bytes).
  rewrite take_app_le, take_ge by lia. split; [split; [done|unfold be_bytes; apply Forall_rev, le_bytes_byte]|].
  unfold be_int, be_bytes. rewrite rev_app_distr, rev_involutive, le_int_app, le_int_bytes by (cbn; lia). cbn. lia.
Qed.

Lemma encode_chunk_ok l : is_chunk l ->
  b32_encode_chunk l 40 = Ok (map alpha (groups 8 (be_int (l ++ [0; 0; 0])))).
Proof. intros [Hl _]. unfold b32_encode_chunk. rewrite Hl. cbn [Nat.eqb CHUNK_LENGTH_BYTES]. apply (encode_loop_groups 8); lia. Qed.

Lemma decode_encode_chunk l s : is_chunk l -> b32_encode_chunk l 40 = Ok s -> b32_decode_chunk s = Ok l.
Proof.
  intros Hl. rewrite encode_chunk_ok by done. intros Es.
  assert (s = map alpha (groups 8 (be_int (l ++ [0; 0; 0])))) as -> by congruence. destruct (chunk_word l Hl) as (x & Hx & Ew).
  set (w := be_int (l ++ [0; 0; 0])) in *. assert (E : decode_loop (map alpha (groups 8 w)) 0 (64 - 5) = Ok w).
  { pose proof (decode_loop_groups 8 w 0 ltac:(lia)) as E. change (0 * 2 ^ (24 + 5 * Z.of_nat 8)) with 0 in E.
    change (5 * Z.of_nat 8) with 40 in E. change (24 + 40 - 5) with (64 - 5) in E. rewrite E. f_equal. rewrite Ew.
    rewrite (Z.mul_comm (2 ^ 24) x), Z.div_mul, Z.mod_small by lia. lia. }
  unfold b32_decode_chunk. rewrite E. cbn [mbind outcome_bind]. f_equal. destruct Hl as [Hl Hb]. unfold w.
  replace 8%nat with (length (l ++ [0; 0; 0])) by (rewrite length_app, Hl; done).
  rewrite be_bytes_int; [|apply Forall_app; split; [done|by repeat constructor]].
  unfold CHUNK_LENGTH_BYTES. rewrite take_app_le, take_ge by lia. done.
Qed.

Lemma encode_decode_chunk s l : length s = 8%nat -> b32_decode_chunk s = Ok l ->
  is_chunk l /\ b32_encode_chunk l 40 = Ok s.
Proof.
  intros Hs Hd. unfold b32_decode_chunk in Hd. apply obind_ok in Hd as (r & Er & El).
  assert (l = take 5 (be_bytes 8 r)) as -> by (unfold CHUNK_LENGTH_BYTES in El; congruence). clear El.
  destruct (decode_loop_inv 8 s 0 r Hs ltac:(lia) Er) as (Es & x & Hx & E). rewrite Z.mul_0_l, Z.add_0_l in E. subst r.
  destruct (word_chunk x Hx) as [Hc Ew]. split; [done|].
  by rewrite encode_chunk_ok, Ew, <-Es.
Qed.

(** ** Whole texts *)

Definition b32_char (c : Z) : Prop := 0 <= c < 128 /\ Forall (fun x => c <> x) [DOT; COLON; LBRACKET].

Lemma alpha_groups_char n w : Forall b32_char (map alpha (groups n w)).
Proof.
  apply Forall_map. eapply Forall_impl; [apply groups_range|]. intros d Hd.
  by destruct (alpha_spec d Hd) as (_ & _ & Hlt & Hdot).
Qed.

Lemma take_chunk l m : length l = (5 * S m)%nat -> Forall is_byte l ->
  is_chunk (take 5 l) /\ length (drop 5 l) = (5 * m)%nat /\ Forall is_byte (drop 5 l).
Proof.
  intros Hl Hb. split_and!; [|rewrite length_drop; lia|by apply Forall_drop].
  split; [rewrite length_take; lia|by apply Forall_take].
Qed.

Lemma chunks5_cons fuel l m : length l = (5 * S m)%nat -> chunks5 (S fuel) l = take 5 l :: chunks5 fuel (drop 5 l).
Proof. by destruct l. Qed.

Lemma chunk_bits l : is_chunk l -> Z.of_nat (length l * 8) = 40.
Proof. intros [-> _]. done. Qed.

Lemma encode_chunks_ok m : forall fuel l, length l = (5 * m)%nat -> (m <= fuel)%nat -> Forall is_byte l ->
  exists s, encode_chunks (chunks5 fuel l) = Ok s /\ length s = (8 * m)%nat /\ Forall b32_char s /\ decode_chunks m s = Ok l.
Proof.
  induction m as [|m IH]; intros fuel l Hl Hf Hb.
  { destruct l; [|discriminate Hl]. exists []. split_and!; [by destruct fuel|done|constructor|done]. }
  destruct fuel as [|fuel]; [lia|]. destruct (take_chunk l m Hl Hb) as (Hc & Hl' & Hb').
  destruct (IH fuel (drop 5 l) Hl' ltac:(lia) Hb') as (s & Es & Hls & Hcs & Ed).
  rewrite (chunks5_cons fuel l m Hl). cbn [encode_chunks]. rewrite (chunk_bits _ Hc), encode_chunk_ok by done.
  set (t := map alpha _). assert (Ht : length t = 8%nat) by done. exists (t ++ s). split_and!.
  - cbn [mbind outcome_bind]. by rewrite Es.
  - rewrite length_app, Ht, Hls. lia.
  - apply Forall_app. split; [apply alpha_groups_char|done].
  - cbn [decode_chunks]. rewrite take_app_le, take_ge, drop_app_ge, Ht, Nat.sub_diag by lia.
    rewrite (decode_encode_chunk (take 5 l) t Hc (encode_chunk_ok _ Hc)). cbn [mbind outcome_bind]. rewrite drop_0.
    rewrite Ed. cbn [mbind outcome_bind]. by rewrite take_drop.
Qed.

Lemma decode_chunks_ok m : forall s l fuel, length s = (8 * m)%nat -> (m <= fuel)%nat -> decode_chunks m s = Ok l ->
  length l = (5 * m)%nat /\ Forall is_byte l /\ encode_chunks (chunks5 fuel l) = Ok s.
Proof.
  induction m as [|m IH]; intros s l fuel Hs Hf Hd.
  { destruct s; [|discriminate Hs]. injection Hd as <-. by destruct fuel. }
  cbn [decode_chunks] in Hd. apply obind_ok in Hd as (c & Ec & Hd). apply obind_ok in Hd as (r & Er & [= <-]).
  destruct (encode_decode_chunk (take 8 s) c) as [Hc Ee]; [rewrite length_take; lia|done|].
  destruct fuel as [|fuel]; [lia|].
  destruct (IH (drop 8 s) r fuel) as (Hl & Hb & Er'); [rewrite length_drop; lia|lia|done|].
  assert (Hlen : length (c ++ r) = (5 * S m)%nat) by (rewrite length_app, Hl; destruct Hc; lia).
  split_and!; [done|apply Forall_app; split; [apply Hc|done]|].
  pose proof Hc as [Hc5 _]. rewrite (chunks5_cons fuel _ m Hlen), take_app_le, take_ge, drop_app_ge, Hc5, Nat.sub_diag by lia.
  cbn [encode_chunks]. rewrite drop_0, (chunk_bits _ Hc), Ee. cbn [mbind outcome_bind]. rewrite Er'. cbn [mbind outcome_bind].
  by rewrite take_drop.
Qed.

Lemma ends_with_app pat s : ends_with pat (s ++ pat) = true.
Proof.
  unfold ends_with. apply bool_decide_eq_true_2. rewrite length_app.
  replace (length s + length pat - length pat)%nat with (length s) by lia. by rewrite drop_app_ge, Nat.sub_diag by lia.
Qed.

(** A text without dots has no occurrence of the suffix. *)
Lemma remove_suffix s : Forall b32_char s -> remove_all ONION_SUFFIX (s ++ ONION_SUFFIX) = s.
Proof.
  induction 1 as [|c s [_ [Hc _]%Forall_cons] Hs IH]; [done|]. unfold remove_all in *. cbn [app remove_from].
  assert (E : starts_with ONION_SUFFIX (c :: s ++ ONION_SUFFIX) = false).
  { apply bool_decide_eq_false_2. cbn. intros [= E _]. done. }
  by rewrite E, IH.
Qed.

(** * Reading and writing addresses *)

Section OnionText.
Context `{Sha3Lib}.

Definition onion_wf (a : OnionV3Addr) : Prop :=
  length (pubkey a) = PUBKEY_LENGTH /\ Forall is_byte (pubkey a) /\ version a = ONION_ENCODING_VERSION.

Definition payload (a : OnionV3Addr) : list Z := pubkey a ++ checksum a ++ [version a].

Lemma checksum_ok a : length (checksum a) = 2%nat /\ Forall is_byte (checksum a).
Proof.
  unfold checksum. split; [|apply Forall_take, sha3_256_bytes].
  rewrite length_take, sha3_256_length. done.
Qed.

Lemma payload_ok a : onion_wf a -> length (payload a) = 35%nat /\ Forall is_byte (payload a).
Proof.
  intros (Hl & Hb & Hv). destruct (checksum_ok a) as [Hc Hcb]. unfold payload. rewrite !length_app, Hl, Hc. split; [done|].
  rewrite !Forall_app, Hv. split_and!; try done. by repeat constructor.
Qed.

Lemma payload_split a : onion_wf a ->
  take 32 (payload a) = pubkey a /\ take 2 (drop 32 (payload a)) = checksum a /\ payload a !! 34%nat = Some (version a).
Proof.
  intros (Hl & _). destruct (checksum_ok a) as [Hc _]. unfold payload, PUBKEY_LENGTH in *. split_and!.
  - rewrite take_app_le, take_ge by lia. done.
  - rewrite drop_app_ge, Hl, Nat.sub_diag, drop_0, take_app_le, take_ge by lia. done.
  - rewrite lookup_app_r, lookup_app_r by lia. by rewrite Hl, Hc.
Qed.

(** The text of an address, which decodes to its payload. *)
Lemma b32_encode_ok a : onion_wf a ->
  exists s, b32_encode a = Ok s /\ Forall b32_char s /\ b32_decode s = Ok (payload a).
Proof.
  intros Ha. destruct (payload_ok a Ha) as [Hl Hb].
  destruct (encode_chunks_ok 7 35 (payload a) Hl ltac:(lia) Hb) as (s & Es & Hls & Hc & Ed).
  exists s. split_and!; [unfold b32_encode; fold (payload a); by rewrite Hl|done|]. unfold b32_decode.
  assert (E : forallb (fun c => c <? 128) s = true).
  { apply forallb_forall. intros c Hc'%list_elem_of_In. rewrite Forall_forall in Hc. destruct (Hc c Hc') as [? _]. lia. }
  rewrite E, Hls. cbn [negb err_if mbind outcome_bind]. rewrite bool_decide_eq_false_2 by (by intros ->). exact Ed.
Qed.

(** What the parser accepts once the payload is decoded. *)
Lemma b32_decode_payload s d : b32_decode s = Ok d -> length d = 35%nat ->
  Forall is_byte d /\ encode_chunks (chunks5 35 d) = Ok s.
Proof.
  unfold b32_decode. intros Hd Hl. apply obind_ok in Hd as (u & _ & Hd). apply obind_ok in Hd as (u2 & He & Hd).
  apply err_if_ok, orb_false_elim in He as [_ Hm]. apply negb_false_iff, Nat.eqb_eq in Hm.
  pose proof (Nat.div_mod (length s) 8 ltac:(lia)) as Hdiv. rewrite Hm, Nat.add_0_r in Hdiv.
  set (m := (length s / 8)%nat) in *.
  assert (Hm7 : m = 7%nat).
  { destruct (decode_chunks_ok m s d m Hdiv ltac:(lia) Hd) as (Hld & _). lia. }
  destruct (decode_chunks_ok m s d 35 Hdiv ltac:(lia) Hd) as (_ & Hb & Ee). done.
Qed.

Lemma payload_join d v : length d = 35%nat -> d !! 34%nat = Some v ->
  checksum (mkOnion (take 32 d) v) = take 2 (drop 32 d) -> payload (mkOnion (take 32 d) v) = d.
Proof.
  intros Hl Hv Hc. unfold payload. rewrite Hc. cbn [pubkey version].
  assert (E : [v] = drop 2 (drop 32 d)) by (rewrite drop_drop; change (32 + 2)%nat with 34%nat; rewrite (drop_S d v 34 Hv), drop_ge by lia; done).
  by rewrite E, !take_drop.
Qed.

(** The accepted texts are those of addresses, up to occurrences of the suffix
    elsewhere in the text. *)
Lemma onion_parse_iff (s : text) (a : OnionV3Addr) :
  onion_address_from_b32 s = Ok a <->
  onion_wf a /\ ends_with ONION_SUFFIX s = true /\
  as_human_readable a = Ok (remove_all ONION_SUFFIX s ++ ONION_SUFFIX).
Proof.
  unfold onion_address_from_b32, as_human_readable. fold ONION_SUFFIX. split.
  - intros Hp. apply obind_ok in Hp as (u & He%err_if_ok%negb_false_iff & Hp). split_and!; [|done|].
    all: apply obind_ok in Hp as (d & Hd & Hp); destruct (b32_decode _) as [d'| | |] eqn:Ed; try discriminate Hd; injection Hd as ->.
    all: apply obind_ok in Hp as (u2 & Hlen%err_if_ok%negb_false_iff%Nat.eqb_eq & Hp).
    all: apply obind_ok in Hp as (v & Ev & Hp); destruct (d !! 34%nat) as [v'|] eqn:Elk; try discriminate Ev; injection Ev as ->.
    all: apply obind_ok in Hp as (u3 & Hver%err_if_ok%negb_false_iff%Z.eqb_eq & Hp).
    all: apply obind_ok in Hp as (u4 & Hsum%err_if_ok%negb_false_iff%bool_decide_eq_true_1 & [= <-]).
    all: destruct (b32_decode_payload _ d Ed Hlen) as [Hb Ee].
    + split_and!; cbn [pubkey version]; [rewrite length_take, Hlen; done|by apply Forall_take|done].
    + unfold b32_encode. fold (payload (mkOnion (take 32 d) v)). rewrite payload_join by done.
      unfold ONION_ADDRESS_STR_LENGTH in Hlen. rewrite Hlen. by rewrite Ee.
  - intros (Ha & He & Ht). destruct (b32_encode_ok a Ha) as (p & Ep & Hc & Ed). rewrite Ep in Ht. cbn [mbind outcome_bind] in Ht.
    assert (remove_all ONION_SUFFIX s = p) as Er.
    { assert (E : p ++ ONION_SUFFIX = remove_all ONION_SUFFIX s ++ ONION_SUFFIX) by congruence. by apply app_inv_tail in E. }
    destruct (payload_ok a Ha) as [Hl _]. destruct (payload_split a Ha) as (E1 & E2 & E3).
    rewrite He, Er, Ed. cbn [negb err_if mbind outcome_bind map_err]. rewrite Hl, E1, E2, E3. cbn [expect mbind outcome_bind Nat.eqb negb err_if ONION_ADDRESS_STR_LENGTH].
    destruct Ha as (_ & _ & Hv). assert (Ea : mkOnion (pubkey a) (version a) = a) by by destruct a.
    rewrite Ea, Hv, Z.eqb_refl. cbn [negb err_if mbind outcome_bind]. by rewrite bool_decide_eq_true_2.
Qed.

Lemma onion_read_text (a : OnionV3Addr) : onion_wf a ->
  exists p, as_human_readable a = Ok (p ++ ONION_SUFFIX) /\ Forall b32_char p /\
    onion_address_from_b32 (p ++ ONION_SUFFIX) = Ok a.
Proof.
  intros Ha. destruct (b32_encode_ok a Ha) as (p & Ep & Hc & Ed). exists p.
  assert (Eh : as_human_readable a = Ok (p ++ ONION_SUFFIX)) by (unfold as_human_readable; by rewrite Ep).
  split_and!; [done..|]. apply onion_parse_iff. split_and!; [done|apply ends_with_app|]. by rewrite remove_suffix.
Qed.

(** Every onion address is encoded without a panic, and its text decodes to it;
    conversely any text that decodes is, apart from the suffix, the encoding of the
    address it decodes to, so its checksum and version were right. *)
Theorem onion_text_exact :
  (forall a, onion_wf a -> exists s, as_human_readable a = Ok s /\ onion_address_from_b32 s = Ok a) /\
  (forall s a, onion_address_from_b32 s = Ok a ->
     onion_wf a /\ ends_with ONION_SUFFIX s = true /\
     as_human_readable a = Ok (remove_all ONION_SUFFIX s ++ ONION_SUFFIX)).
Proof.
  split; [|by intros s a ?%onion_parse_iff]. intros a Ha.
  destruct (onion_read_text a Ha) as (p & E1 & _ & E2). by exists (p ++ ONION_SUFFIX).
Qed.
End OnionText.
