(* ===== verification/SocketAddr.v ===== *)
(** Addresses of nodes with a port
    ([src/crates/floresta-wire/src/p2p_wire/bitcoin_socket_addr.rs]): their
    text and its parser. *)

From stdpp Require Import base list strings.
From Stdlib Require Import ZArith Lia.
From S2P Require Import Prelude Bitcoin Text Onion.

(** [AddrV2], of rust-bitcoin. *)
Inductive AddrV2 :=
  | Ipv4 (a : Ipv4Addr)
  | Ipv6 (a : Ipv6Addr)
  | TorV2 (key : list Z)
  | TorV3 (key : list Z)
  | I2p (key : list Z)
  | Cjdns (a : Ipv6Addr)
  | Unknown (id : Z) (bytes : list Z).
#[export] Instance AddrV2_eq_dec : EqDecision AddrV2.
Proof. solve_decision. Defined.

Inductive IpAddr := V4 (a : Ipv4Addr) | V6 (a : Ipv6Addr).

Inductive InvalidAddressError :=
  | InvalidPort
  | InvalidAddress
  | TrailingColon
  | InvalidDNSName
  | NoAssociatedAddress
  | MissingPort.

Record BitcoinSocketAddr := mkSockAddr { sa_address : AddrV2; sa_port : Z }.
#[export] Instance BitcoinSocketAddr_eq_dec : EqDecision BitcoinSocketAddr.
Proof. solve_decision. Defined.

(** [DnsResolver::resolve]; [None] is an error. *)
Definition DnsResolver : Type := text -> option (list IpAddr).

Definition default_p2p_port (network : Network) : Z :=
  match network with
  | Signet => 38333
  | Bitcoin => 8333
  | Testnet => 18333
  | Regtest => 18444
  | Testnet4 => 48333
  end.

Definition parse_port_if_present (port_str : option text) (network : option Network) : outcome InvalidAddressError Z :=
  port ← (match port_str with
          | None => Ok None
          | Some s => match parse_u16 s with Some p => Ok (Some p) | None => Err InvalidPort end
          end);
  match port with
  | Some p => Ok p
  | None => ok_or (default_p2p_port <$> network) MissingPort
  end.

Definition ip_to_addrv2 (a : IpAddr) : AddrV2 := match a with V4 a => Ipv4 a | V6 a => Ipv6 a end.
Definition from_ip_addr (a : IpAddr) (network : Network) : BitcoinSocketAddr :=
  mkSockAddr (ip_to_addrv2 a) (default_p2p_port network).

Definition SPECIAL_CHARS : text := txt ".-_".
Definition check_dns_name (name : text) : bool :=
  forallb (fun c => is_ascii_alphanumeric c || bool_decide (c ∈ SPECIAL_CHARS)) name.

Definition is_bracket (c : Z) : bool := (c =? LBRACKET) || (c =? RBRACKET).
Definition check_ipv6_chars (ip : text) : bool :=
  let brackets_count := length (filter (fun c => is_bracket c = true) ip) in
  if negb (contains [RBRACKET] ip) || negb (brackets_count =? 2)%nat then false
  else forallb (fun c => is_ascii_hexdigit c || (c =? COLON) || is_bracket c || (c =? DOT)) ip.

Definition bracketed (piece : text) : option Ipv6Addr :=
  '(pos, _) ← list_find (fun c => c = RBRACKET) piece;
  if (pos + 1 =? length piece)%nat then
    parse_ipv6 (remove_all [RBRACKET] (remove_all [LBRACKET] piece))
  else None.

Definition parse_v6 (address : text) (network : option Network) : outcome InvalidAddressError BitcoinSocketAddr :=
  _ ← err_if (negb (check_ipv6_chars address)) InvalidAddress;
  let pieces := split_inclusive RBRACKET address in
  ip ← ok_or (piece ← head pieces; bracketed piece) InvalidAddress;
  port ← parse_port_if_present (remove_all [COLON] <$> pieces !! 1%nat) network;
  _ ← err_if (bool_decide (is_Some (pieces !! 2%nat))) TrailingColon;
  first ← expect (octets ip !! 0%nat);
  Ok (mkSockAddr (if first =? 0xFC then Cjdns ip else Ipv6 ip) port).

Definition parse_v4 (address : text) (network : option Network) : outcome InvalidAddressError BitcoinSocketAddr :=
  let pieces := split COLON address in
  host ← ok_or (head pieces) InvalidAddress;
  match parse_ipv4 host with
  | Some ip =>
      port ← parse_port_if_present (pieces !! 1%nat) network;
      _ ← err_if (bool_decide (is_Some (pieces !! 2%nat))) TrailingColon;
      Ok (mkSockAddr (Ipv4 ip) port)
  | None => Err InvalidDNSName
  end.

(** A name with several addresses gets the one at the drawn index [pick]. *)
Definition parse_and_resolve_dns (address : text) (network : option Network) (resolver : DnsResolver) (pick : nat)
  : outcome InvalidAddressError BitcoinSocketAddr :=
  let pieces := split COLON address in
  host ← ok_or (head pieces) InvalidAddress;
  _ ← err_if (bool_decide (is_Some (pieces !! 2%nat))) TrailingColon;
  port ← parse_port_if_present (pieces !! 1%nat) network;
  _ ← err_if (negb (check_dns_name host)) InvalidDNSName;
  addresses ← ok_or (resolver host) InvalidDNSName;
  selected ← ok_or (addresses !! (pick mod length addresses)%nat) NoAssociatedAddress;
  Ok (mkSockAddr (ip_to_addrv2 selected) port).

Section SocketAddr.
Context `{Sha3Lib}.

Definition parse_onion_v3 (address : text) (network : option Network) : outcome InvalidAddressError BitcoinSocketAddr :=
  let pieces := split COLON address in
  host ← ok_or (head pieces) InvalidAddress;
  _ ← err_if (bool_decide (is_Some (pieces !! 2%nat))) TrailingColon;
  port ← parse_port_if_present (pieces !! 1%nat) network;
  decoded ← map_err (fun _ => InvalidAddress) (onion_address_from_b32 host);
  Ok (mkSockAddr (TorV3 (pubkey decoded)) port).

Definition parse_address (address : text) (network : option Network) (resolver : DnsResolver) (pick : nat)
  : outcome InvalidAddressError BitcoinSocketAddr :=
  if starts_with [LBRACKET] address then parse_v6 address network
  else if contains (txt ".onion") address then parse_onion_v3 address network
  else if bool_decide (address = []) then
    port ← parse_port_if_present None network;
    Ok (mkSockAddr (Ipv4 LOCALHOST) port)
  else
    match parse_v4 address network with
    | Err _ => parse_and_resolve_dns address network resolver pick
    | o => o
    end.

(** [Display for BitcoinSocketAddr]. *)
Definition to_lower_hex_string (l : list Z) : text :=
  flat_map (fun b => [digit_char (b / 16); digit_char (b mod 16)]) l.
Definition host_to_string (a : AddrV2) : outcome unit text :=
  match a with
  | TorV3 address => as_human_readable (onion_from address)
  | I2p address => Ok (to_lower_hex_string address)
  | Ipv4 address => Ok (ipv4_to_string address)
  | Ipv6 address => Ok (LBRACKET :: ipv6_to_string address ++ [RBRACKET])
  | TorV2 address => Ok (to_lower_hex_string address)
  | Cjdns address => Ok (LBRACKET :: ipv6_to_string address ++ [RBRACKET])
  | Unknown _ _ => Ok (txt "unknown")
  end.
Definition sock_to_string (s : BitcoinSocketAddr) : outcome unit text :=
  address ← host_to_string (sa_address s);
  Ok (address ++ COLON :: to_text 10 (sa_port s)).

(** [TryFrom<AddrV2> for OnionV3Addr]. *)
Definition onion_try_from (value : AddrV2) : option OnionV3Addr :=
  match value with TorV3 key => Some (onion_from key) | _ => None end.

Example parse_examples :
  parse_address (txt "[::1]:8333") None (fun _ => None) 0 = Ok (mkSockAddr (Ipv6 [0; 0; 0; 0; 0; 0; 0; 1]) 8333) /\
  parse_address (txt "127.0.0.1:65536") None (fun _ => None) 0 = Err InvalidPort /\
  parse_address (txt "127.0.0.1") (Some Signet) (fun _ => None) 0 = Ok (mkSockAddr (Ipv4 LOCALHOST) 38333) /\
  parse_address (txt "a.b:1:2") None (fun _ => None) 0 = Err TrailingColon.
Proof. done. Qed.

(** * Reading what was written *)

(** The characters of numbers and IP addresses. *)
Definition ip_char (c : Z) : Prop := is_ascii_hexdigit c = true \/ c = COLON \/ c = DOT.

Lemma digit_char_hex d : 0 <= d < 16 -> is_ascii_hexdigit (digit_char d) = true.
Proof. intros Hd. unfold is_ascii_hexdigit. by rewrite to_digit_char by lia. Qed.

Lemma to_text_chars radix z : 2 <= radix <= 16 -> 0 <= z < radix ^ 20 ->
  Forall (fun c => is_ascii_hexdigit c = true) (to_text radix z).
Proof.
  intros Hr Hz. unfold to_text. apply Forall_map. eapply Forall_impl; [by apply (digits_spec radix 20 z); lia|].
  intros d Hd. cbn in Hd. apply digit_char_hex. lia.
Qed.

Lemma decimal_chars z : 0 <= z <= u16_max -> Forall (fun c => is_ascii_hexdigit c = true) (to_text 10 z).
Proof. intros Hz. unfold u16_max in Hz. apply to_text_chars; lia. Qed.

Lemma ipv4_chars a : ipv4_wf a -> Forall ip_char (ipv4_to_string a).
Proof.
  intros (H1 & H2 & H3 & H4). unfold is_byte, ipv4_to_string in *.
  assert (Hd : forall z, 0 <= z < 256 -> Forall ip_char (to_text 10 z)).
  { intros z Hz. eapply Forall_impl; [apply decimal_chars; unfold u16_max; lia|]. by left. }
  assert (Hdot : ip_char DOT) by (by right; right).
  repeat (apply Forall_app; split; [by apply Hd|constructor; [done|]]). by apply Hd.
Qed.

Lemma groups_chars first gs : Forall is_u16 gs -> Forall ip_char (groups_text first gs).
Proof.
  intros Hg. revert first. induction Hg as [|g gs Hg Hgs IH]; intros first; cbn [groups_text]; [constructor|].
  rewrite !Forall_app. split_and!; [|eapply Forall_impl; [apply to_text_chars; unfold is_u16, u16_max in *; lia|by left]|apply IH].
  destruct first; [constructor|]. constructor; [by right; left|constructor].
Qed.

Lemma ipv6_chars a : ipv6_wf a -> Forall ip_char (ipv6_to_string a).
Proof.
  intros Ha. unfold ipv6_to_string. destruct (to_ipv4_mapped a) as [v4|] eqn:Em.
  { destruct (to_ipv4_mapped_Some a v4 Ha Em) as [Hv _]. apply Forall_app. split; [|by apply ipv4_chars].
    repeat (constructor; [first [by left|by right; left]|]). constructor. }
  destruct Ha as [_ Hu]. destruct (zero_run 0 a 0 0 0 0) as [start len]. rewrite !fmt_subslice_groups.
  destruct (1 <? len)%nat; [|by apply groups_chars]. rewrite !Forall_app.
  split_and!; [by apply groups_chars, Forall_take| |by apply groups_chars, Forall_drop].
  repeat constructor; by right; left.
Qed.

(** Characters a text does not have. *)
Lemma hex_neq c x : is_ascii_hexdigit c = true -> is_ascii_hexdigit x = false -> c <> x.
Proof. intros H1 H2 ->. congruence. Qed.

Lemma ip_char_neq c x : ip_char c -> is_ascii_hexdigit x = false -> x <> COLON -> x <> DOT -> c <> x.
Proof. intros [Hc|[->| ->]] Hx H1 H2; [by apply hex_neq|done|done]. Qed.

Lemma forall_neq (P : Z -> Prop) s x : Forall P s -> (forall c, P c -> c <> x) -> Forall (fun c => c <> x) s.
Proof. intros Hs Hp. eapply Forall_impl; [exact Hs|exact Hp]. Qed.

(** ** Strings *)

Lemma split_no s c : Forall (fun x => x <> c) s -> split c s = [s].
Proof.
  induction 1 as [|x s Hx Hs IH]; [done|]. cbn. by rewrite (proj2 (Z.eqb_neq _ _) Hx), IH.
Qed.
Lemma split_two s t c : Forall (fun x => x <> c) s -> Forall (fun x => x <> c) t -> split c (s ++ c :: t) = [s; t].
Proof.
  intros Hs Ht. induction Hs as [|x s Hx Hs IH]; cbn; [by rewrite Z.eqb_refl, split_no|].
  by rewrite (proj2 (Z.eqb_neq _ _) Hx), IH.
Qed.

Lemma split_inclusive_two s t c : Forall (fun x => x <> c) s -> Forall (fun x => x <> c) t -> t <> [] ->
  split_inclusive c (s ++ c :: t) = [s ++ [c]; t].
Proof.
  intros Hs Ht Hne.
  assert (Et : split_inclusive c t = [t]).
  { clear Hs s. induction Ht as [|x t Hx Ht IH]; [done|]. cbn. rewrite (proj2 (Z.eqb_neq _ _) Hx).
    destruct t as [|y t]; [done|]. by rewrite IH. }
  induction Hs as [|x s Hx Hs IH]; cbn; [by rewrite Z.eqb_refl, Et|].
  by rewrite (proj2 (Z.eqb_neq _ _) Hx), IH.
Qed.

Lemma remove_char_no s c : Forall (fun x => x <> c) s -> remove_all [c] s = s.
Proof.
  unfold remove_all. induction 1 as [|x s Hx Hs IH]; [done|]. cbn [remove_from].
  assert (E : starts_with [c] (x :: s) = false) by (apply bool_decide_eq_false_2; cbn; by intros [= ?]). by rewrite E, IH.
Qed.
Lemma remove_char_here s c : remove_all [c] (c :: s) = remove_all [c] s.
Proof.
  unfold remove_all. cbn [remove_from].
  assert (E : starts_with [c] (c :: s) = true) by (apply bool_decide_eq_true_2; done). by rewrite E.
Qed.
Lemma remove_char_last s c : Forall (fun x => x <> c) s -> remove_all [c] (s ++ [c]) = s.
Proof.
  unfold remove_all. induction 1 as [|x s Hx Hs IH]; cbn [app remove_from].
  - assert (E : starts_with [c] [c] = true) by (apply bool_decide_eq_true_2; done). by rewrite E.
  - assert (E : starts_with [c] (x :: s ++ [c]) = false) by (apply bool_decide_eq_false_2; cbn; by intros [= ?]). by rewrite E, IH.
Qed.

Lemma contains_no pat s x : x ∈ pat -> Forall (fun c => c <> x) s -> contains pat s = false.
Proof.
  intros Hx Hs. induction s as [|c s IH]; [done|]. cbn [contains]. rewrite IH by (by inversion Hs).
  rewrite orb_false_r. apply bool_decide_eq_false_2. intros E. rewrite <-E in Hx.
  apply (Forall_take _ (length pat)) in Hs. rewrite Forall_forall in Hs. by apply (Hs x Hx).
Qed.
Lemma contains_app pat s t : pat <> [] -> contains pat (s ++ pat ++ t) = true.
Proof.
  intros Hp. induction s as [|c s IH]; cbn [app contains].
  - destruct pat as [|p pat]; [done|]. cbn [app contains]. apply orb_true_intro. left.
    apply bool_decide_eq_true_2. change (p :: pat ++ t) with ((p :: pat) ++ t). by rewrite take_app_le, take_ge by lia.
  - by rewrite IH, orb_true_r.
Qed.

(** ** Addresses *)

(** The addresses that are written as they are read: a CJDNS address is an
    IPv6 address in its own range. *)
Definition readable (s : BitcoinSocketAddr) : Prop :=
  is_u16 (sa_port s) /\
  match sa_address s with
  | Ipv4 a => ipv4_wf a
  | Ipv6 a => ipv6_wf a /\ octets a !! 0%nat <> Some 0xFC
  | Cjdns a => ipv6_wf a /\ octets a !! 0%nat = Some 0xFC
  | TorV3 key => length key = PUBKEY_LENGTH /\ Forall is_byte key
  | _ => False
  end.

Lemma port_chars x z : is_u16 z -> is_ascii_hexdigit x = false -> Forall (fun c => c <> x) (to_text 10 z).
Proof. intros Hz Hx. apply (forall_neq _ _ _ (decimal_chars z Hz)). intros c Hc. by apply hex_neq. Qed.

Lemma to_text_cons radix z : exists c t, to_text radix z = c :: t.
Proof.
  unfold to_text. change (digits radix 20 z) with (if z <? radix then [z] else digits radix 19 (z / radix) ++ [z mod radix]).
  destruct (z <? radix); [by eexists _, _|]. destruct (digits radix 19 (z / radix)); by eexists _, _.
Qed.

Lemma parse_port_text z network : is_u16 z -> parse_port_if_present (Some (to_text 10 z)) network = Ok z.
Proof. intros Hz. unfold parse_port_if_present. by rewrite parse_u16_text. Qed.

Lemma read_v4 a port network resolver pick : ipv4_wf a -> is_u16 port ->
  parse_address (ipv4_to_string a ++ COLON :: to_text 10 port) network resolver pick = Ok (mkSockAddr (Ipv4 a) port).
Proof.
  intros Ha Hp. unfold parse_address. pose proof (ipv4_chars a Ha) as Hc.
  assert (Hhead : exists c t, ipv4_to_string a ++ COLON :: to_text 10 port = c :: t /\ c <> LBRACKET).
  { unfold ipv4_to_string in *. destruct (to_text_cons 10 (oct1 a)) as (c & t & E). rewrite E in *. cbn [app] in *.
    eexists c, _. split; [done|]. apply Forall_cons in Hc as [Hc _]. by apply ip_char_neq. }
  destruct Hhead as (c & t & E & Hb).
  assert (E1 : starts_with [LBRACKET] (ipv4_to_string a ++ COLON :: to_text 10 port) = false).
  { rewrite E. apply bool_decide_eq_false_2. cbn. by intros [= ?]. }
  assert (E2 : contains (txt ".onion") (ipv4_to_string a ++ COLON :: to_text 10 port) = false).
  { apply (contains_no _ _ 111); [by vm_compute; do 3 constructor|]. apply Forall_app. split.
    - apply (forall_neq _ _ _ Hc). intros x Hx. by apply ip_char_neq.
    - constructor; [done|by apply port_chars]. }
  rewrite E1, E2, bool_decide_eq_false_2 by (by rewrite E). unfold parse_v4.
  assert (Hsplit : split COLON (ipv4_to_string a ++ COLON :: to_text 10 port) = [ipv4_to_string a; to_text 10 port]).
  { apply split_two; [|by apply port_chars]. clear -Ha. destruct Ha as (H1 & H2 & H3 & H4). unfold is_byte, ipv4_to_string in *.
    assert (Hd : forall z, 0 <= z < 256 -> Forall (fun x => x <> COLON) (to_text 10 z))
      by (intros z Hz; apply port_chars; [unfold is_u16, u16_max; lia|done]).
    repeat (apply Forall_app; split; [by apply Hd|constructor; [done|]]). by apply Hd. }
  rewrite Hsplit. cbn [head ok_or mbind outcome_bind lookup list_lookup]. rewrite parse_ipv4_text by done.
  by rewrite parse_port_text.
Qed.

Lemma check_ipv6_text s t : Forall ip_char s -> Forall (fun c => is_ascii_hexdigit c = true) t ->
  check_ipv6_chars (LBRACKET :: s ++ RBRACKET :: COLON :: t) = true.
Proof.
  intros Hs Ht. unfold check_ipv6_chars.
  assert (E1 : contains [RBRACKET] (LBRACKET :: s ++ RBRACKET :: COLON :: t) = true)
    by (apply (contains_app [RBRACKET] (LBRACKET :: s)); done).
  assert (Hnone : forall l, Forall ip_char l -> filter (fun c => is_bracket c = true) l = []).
  { induction 1 as [|c l Hc Hl IH]; [done|]. rewrite filter_cons, decide_False; [done|]. unfold is_bracket.
    rewrite (proj2 (Z.eqb_neq _ _) (ip_char_neq c LBRACKET Hc eq_refl ltac:(done) ltac:(done))).
    by rewrite (proj2 (Z.eqb_neq _ _) (ip_char_neq c RBRACKET Hc eq_refl ltac:(done) ltac:(done))). }
  assert (Ht' : Forall ip_char (COLON :: t)) by (constructor; [by right; left|]; eapply Forall_impl; [exact Ht|by left]).
  assert (E2 : filter (fun c => is_bracket c = true) (LBRACKET :: s ++ RBRACKET :: COLON :: t) = [LBRACKET; RBRACKET]).
  { rewrite filter_cons, decide_True by done. rewrite filter_app, (Hnone s Hs).
    rewrite filter_cons, decide_True by done. by rewrite (Hnone _ Ht'). }
  rewrite E1, E2. cbn [length negb Nat.eqb orb]. apply forallb_forall. intros c Hc%list_elem_of_In.
  assert (Hall : Forall (fun c => ip_char c \/ is_bracket c = true) (LBRACKET :: s ++ RBRACKET :: COLON :: t)).
  { constructor; [by right|]. apply Forall_app. split; [eapply Forall_impl; [exact Hs|by left]|].
    constructor; [by right|]. eapply Forall_impl; [exact Ht'|by left]. }
  rewrite Forall_forall in Hall. destruct (Hall c Hc) as [[Hx|[->| ->]]|Hx]; [by rewrite Hx|done|done|].
  rewrite Hx. by rewrite !orb_true_r.
Qed.

Lemma read_v6 a port network resolver pick : ipv6_wf a -> is_u16 port ->
  parse_address (LBRACKET :: ipv6_to_string a ++ RBRACKET :: COLON :: to_text 10 port) network resolver pick =
    (first ← expect (octets a !! 0%nat); Ok (mkSockAddr (if first =? 0xFC then Cjdns a else Ipv6 a) port)).
Proof.
  intros Ha Hp. unfold parse_address. pose proof (ipv6_chars a Ha) as Hc.
  assert (E1 : starts_with [LBRACKET] (LBRACKET :: ipv6_to_string a ++ RBRACKET :: COLON :: to_text 10 port) = true)
    by (by apply bool_decide_eq_true_2).
  rewrite E1. unfold parse_v6. rewrite check_ipv6_text by (try done; by apply decimal_chars).
  assert (Hno : forall x, x = LBRACKET \/ x = RBRACKET -> Forall (fun c => c <> x) (ipv6_to_string a)).
  { intros x [->| ->]; apply (forall_neq _ _ _ Hc); intros c Hx; by apply ip_char_neq. }
  assert (Es : split_inclusive RBRACKET (LBRACKET :: ipv6_to_string a ++ RBRACKET :: COLON :: to_text 10 port) =
    [LBRACKET :: ipv6_to_string a ++ [RBRACKET]; COLON :: to_text 10 port]).
  { apply (split_inclusive_two (LBRACKET :: ipv6_to_string a)); [|constructor; [done|by apply port_chars]|done].
    constructor; [done|]. apply Hno. by right. }
  rewrite Es. cbn [negb err_if mbind outcome_bind head option_bind].
  assert (Eb : bracketed (LBRACKET :: ipv6_to_string a ++ [RBRACKET]) = Some a).
  { unfold bracketed. rewrite (remove_char_here (ipv6_to_string a ++ [RBRACKET])).
    rewrite (remove_char_no (ipv6_to_string a ++ [RBRACKET]) LBRACKET)
      by (apply Forall_app; split; [apply Hno; by left|by repeat constructor]).
    rewrite remove_char_last by (apply Hno; by right).
    assert (Ef : list_find (fun c => c = RBRACKET) (LBRACKET :: ipv6_to_string a ++ [RBRACKET]) =
      Some (S (length (ipv6_to_string a)), RBRACKET)).
    { apply list_find_Some. split_and!; [|done|].
      - rewrite <-lookup_tail. cbn [tail]. by rewrite lookup_app_r, Nat.sub_diag by lia.
      - intros j y Hj Hlt. destruct j as [|j]; [injection Hj as <-; done|]. rewrite <-lookup_tail in Hj. cbn [tail] in Hj.
        rewrite lookup_app_l in Hj by lia. pose proof (Hno RBRACKET ltac:(by right)) as Hf. rewrite Forall_forall in Hf.
        by apply Hf, (list_elem_of_lookup_2 _ j). }
    rewrite Ef. cbn [mbind option_bind]. cbn [length]. rewrite length_app. cbn [length].
    rewrite (proj2 (Nat.eqb_eq _ _)) by lia. by apply parse_ipv6_text. }
  rewrite Eb. cbn [ok_or mbind outcome_bind lookup list_lookup fmap option_fmap option_map].
  rewrite remove_char_here, remove_char_no by (by apply port_chars). rewrite parse_port_text by done. done.
Qed.

Lemma read_onion key port network resolver pick : length key = PUBKEY_LENGTH -> Forall is_byte key -> is_u16 port ->
  exists s, as_human_readable (onion_from key) = Ok s /\
    parse_address (s ++ COLON :: to_text 10 port) network resolver pick = Ok (mkSockAddr (TorV3 key) port).
Proof.
  intros Hl Hb Hp. destruct (onion_read_text (onion_from key)) as (p & E1 & Hc & E2); [done|].
  exists (p ++ ONION_SUFFIX). split; [done|]. unfold parse_address.
  assert (Hno : forall x, x = COLON \/ x = LBRACKET -> Forall (fun c => c <> x) (p ++ ONION_SUFFIX)).
  { intros x Hx. apply Forall_app. split.
    - apply (forall_neq _ _ _ Hc). intros c [_ Hf]. rewrite Forall_forall in Hf. apply Hf. destruct Hx as [->| ->]; by repeat constructor.
    - destruct Hx as [->| ->]; by repeat constructor. }
  assert (Eb : starts_with [LBRACKET] ((p ++ ONION_SUFFIX) ++ COLON :: to_text 10 port) = false).
  { apply bool_decide_eq_false_2. pose proof (Hno LBRACKET ltac:(by right)) as Hf.
    destruct (p ++ ONION_SUFFIX) as [|c t]; [done|]. apply Forall_cons in Hf as [Hf _]. cbn. by intros [= ?]. }
  rewrite Eb, <-app_assoc, contains_app, app_assoc by done. unfold parse_onion_v3.
  rewrite split_two; [|by apply Hno; left|by apply port_chars]. cbn [head ok_or mbind outcome_bind lookup list_lookup err_if].
  rewrite bool_decide_eq_false_2 by (by intros [? ?]). cbn [err_if mbind outcome_bind].
  rewrite parse_port_text by done. cbn [mbind outcome_bind]. rewrite E2. done.
Qed.

(** The text of an IPv4, IPv6, CJDNS or Tor v3 socket address is parsed back to the same
    address and port, whatever the network and the resolver: compressed IPv6 text,
    brackets, colons and the onion encoding lose nothing. *)
Theorem socket_addr_roundtrip (s : BitcoinSocketAddr) (network : option Network) (resolver : DnsResolver) (pick : nat)
  (Hs : readable s) :
  exists t, sock_to_string s = Ok t /\ parse_address t network resolver pick = Ok s.
Proof.
  destruct s as [a port], Hs as [Hp Ha]. cbn [sa_address sa_port] in *. unfold sock_to_string. cbn [sa_address sa_port].
  destruct a as [a|a|key|key|key|a|id bytes]; try done; cbn [host_to_string mbind outcome_bind].
  - eexists. split; [done|]. by apply read_v4.
  - destruct Ha as [Ha Ho]. eexists. split; [done|]. cbn [app]. rewrite <-app_assoc. cbn [app]. rewrite read_v6 by done.
    destruct (octets a !! 0%nat) as [first|] eqn:E; [|by destruct Ha as [Hl _]; destruct a].
    cbn [expect mbind outcome_bind]. by rewrite (proj2 (Z.eqb_neq _ _)) by congruence.
  - destruct Ha as [Hl Hb]. destruct (read_onion key port network resolver pick Hl Hb Hp) as (t & E1 & E2).
    rewrite E1. cbn [mbind outcome_bind]. by eexists.
  - destruct Ha as [Ha Ho]. eexists. split; [done|]. cbn [app]. rewrite <-app_assoc. cbn [app]. rewrite read_v6 by done.
    by rewrite Ho.
Qed.
End SocketAddr.
