(* ===== verification/AddressMan.v ===== *)
(** The address manager ([src/crates/floresta-wire/src/p2p_wire/address_man.rs]):
    the addresses of peers, what is known of them, and the choice of the next
    one to connect to. *)

From stdpp Require Import base gmap list strings.
From Stdlib Require Import ZArith Lia.
From S2P Require Import Prelude Bitcoin Codec Text Onion SocketAddr.

(** * Constants *)

Definition RETRY_TIME : Z := 10 * 60.
Definition MIN_ADDRESSES : nat := 15.
Definition MIN_ADDRESSES_CBF : nat := 5.
Definition MIN_ADDRESSES_UTREEXO : nat := 2.
Definition ASSUME_STALE : Z := 24 * 60 * 60.
Definition MAX_ADDRESSES : nat := Z.to_nat 50000.

(** [ServiceFlags], of rust-bitcoin, and the ones of Utreexo. *)
Abbreviation ServiceFlags := Z (only parsing).
Definition NONE : ServiceFlags := 0.
Definition WITNESS : ServiceFlags := 8.
Definition COMPACT_FILTERS : ServiceFlags := 64.
Definition NETWORK_LIMITED : ServiceFlags := 1024.
Definition UTREEXO : ServiceFlags := Z.shiftl 1 12.
Definition UTREEXO_ARCHIVE : ServiceFlags := Z.shiftl 1 13.
Definition has (self flags : ServiceFlags) : bool := Z.lor self flags =? self.

(** * Data *)

Inductive AddressState :=
  | NeverTried
  | Tried (t : Z)
  | Banned (t : Z)
  | Connected
  | Failed (t : Z).
#[export] Instance AddressState_eq_dec : EqDecision AddressState.
Proof. solve_decision. Defined.

Inductive ReachableNetworks := RIPv4 | RIPv6 | RTorV3 | RI2P | RCjdns.
#[export] Instance ReachableNetworks_eq_dec : EqDecision ReachableNetworks.
Proof. solve_decision. Defined.
Definition SUPPORTED : list ReachableNetworks := [RIPv4; RIPv6; RTorV3].

Record NetworkStats := mkNetStats { ns_new : Z; ns_tried : Z }.
Definition ns_total (s : NetworkStats) : outcome unit Z := u64_add (ns_new s) (ns_tried s).
Record ConnectionStats := mkConnStats {
  cs_ipv4 : NetworkStats;
  cs_ipv6 : NetworkStats;
  cs_onion : NetworkStats;
  cs_i2p : NetworkStats;
  cs_cjdns : NetworkStats
}.

Record LocalAddress := mkLocal {
  la_address : BitcoinSocketAddr;
  last_connected : Z;
  la_state : AddressState;
  la_services : ServiceFlags;
  la_id : Z
}.
#[export] Instance LocalAddress_eq_dec : EqDecision LocalAddress.
Proof. solve_decision. Defined.
Definition set_state (s : AddressState) (a : LocalAddress) : LocalAddress :=
  mkLocal (la_address a) (last_connected a) s (la_services a) (la_id a).
Definition set_services (f : ServiceFlags) (a : LocalAddress) : LocalAddress :=
  mkLocal (la_address a) (last_connected a) (la_state a) f (la_id a).
Definition set_last_connected (t : Z) (a : LocalAddress) : LocalAddress :=
  mkLocal (la_address a) t (la_state a) (la_services a) (la_id a).
Definition set_port (port : Z) (a : LocalAddress) : LocalAddress :=
  mkLocal (mkSockAddr (sa_address (la_address a)) port) (last_connected a) (la_state a) (la_services a) (la_id a).

(** [From<BitcoinSocketAddr>] and [From<AddrV2Message>]: the time and the
    random id are arguments. *)
Definition local_from_socket (now rand : Z) (value : BitcoinSocketAddr) : LocalAddress :=
  mkLocal value now NeverTried NONE rand.
Record AddrV2Message := mkAddrV2Msg { am_time : Z; am_services : ServiceFlags; am_addr : AddrV2; am_port : Z }.
Definition local_from_message (rand : Z) (value : AddrV2Message) : LocalAddress :=
  mkLocal (mkSockAddr (am_addr value) (am_port value)) (am_time value) NeverTried (am_services value) rand.

Definition local_from_str `{Sha3Lib} (now rand : Z) (resolver : DnsResolver) (pick : nat) (value : text)
  : outcome InvalidAddressError LocalAddress :=
  address ← parse_address value None resolver pick;
  Ok (mkLocal address now NeverTried NONE rand).

Definition get_socket_addr (a : LocalAddress) : option (IpAddr * Z) :=
  match sa_address (la_address a) with
  | Ipv6 ip => Some (V6 ip, sa_port (la_address a))
  | Ipv4 ip => Some (V4 ip, sa_port (la_address a))
  | _ => None
  end.
Definition get_onion_addr (a : LocalAddress) : option OnionV3Addr :=
  match sa_address (la_address a) with TorV3 key => Some (onion_from key) | _ => None end.
Definition get_net_address (a : LocalAddress) : option IpAddr :=
  match sa_address (la_address a) with
  | Ipv4 ip => Some (V4 ip)
  | Ipv6 ip => Some (V6 ip)
  | Cjdns ip => Some (V6 ip)
  | _ => None
  end.

(** ** Routable addresses *)

(** The predicates of [Ipv4Addr] in the standard library. *)
Definition is_loopback (ip : Ipv4Addr) : bool := oct1 ip =? 127.
Definition is_broadcast (ip : Ipv4Addr) : bool := bool_decide (ip = mkIpv4 255 255 255 255).
Definition is_private (ip : Ipv4Addr) : bool :=
  (oct1 ip =? 10) || ((oct1 ip =? 172) && (16 <=? oct2 ip) && (oct2 ip <=? 31)) ||
  ((oct1 ip =? 192) && (oct2 ip =? 168)).
Definition is_link_local (ip : Ipv4Addr) : bool := (oct1 ip =? 169) && (oct2 ip =? 254).
Definition is_documentation (ip : Ipv4Addr) : bool :=
  ((oct1 ip =? 192) && (oct2 ip =? 0) && (oct3 ip =? 2)) ||
  ((oct1 ip =? 198) && (oct2 ip =? 51) && (oct3 ip =? 100)) ||
  ((oct1 ip =? 203) && (oct2 ip =? 0) && (oct3 ip =? 113)).

Definition is_routable_ipv4 (ip : Ipv4Addr) : bool :=
  if oct1 ip =? 0 then false
  else if is_loopback ip || is_broadcast ip || is_private ip then false
  else if (oct1 ip =? 198) && ((oct2 ip =? 18) || (oct2 ip =? 19)) then false
  else if is_link_local ip then false
  else if (oct1 ip =? 100) && ((64 <=? oct2 ip) && (oct2 ip <=? 127)) then false
  else if is_documentation ip then false
  else true.

Definition octet (ip : Ipv6Addr) (i : nat) : Z := nth i (octets ip) 0.
Definition is_routable_ipv6 (ip : Ipv6Addr) : bool :=
  if bool_decide (ip = [0; 0; 0; 0; 0; 0; 0; 0]) || bool_decide (ip = [0; 0; 0; 0; 0; 0; 0; 1]) ||
     (Z.land (nth 0 ip 0) 0xfe00 =? 0xfc00) then false
  else if (octet ip 0 =? 0x20) && (octet ip 1 =? 0x01) && (octet ip 2 =? 0x00) &&
          (Z.land (octet ip 3) 0xF0 =? 0x10) then false
  else if (octet ip 0 =? 0xFE) && (Z.land (octet ip 1) 0xC0 =? 0x80) then false
  else if (octet ip 0 =? 0x20) && (octet ip 1 =? 0x01) && (octet ip 2 =? 0x00) &&
          (Z.land (octet ip 3) 0xf0 =? 0x20) then false
  else true.

Definition is_routable (a : LocalAddress) : bool :=
  match sa_address (la_address a) with
  | Ipv4 ip => is_routable_ipv4 ip
  | Ipv6 ip => is_routable_ipv6 ip
  | Cjdns ip => octet ip 0 =? 0xFC
  | _ => true
  end.

Definition is_good_address (a : LocalAddress) : bool :=
  if negb (is_routable a) then false
  else match la_state a with Connected | Tried _ => true | _ => false end.

(** * The manager *)

Record AddressMan := mkAddressMan {
  addresses : gmap Z LocalAddress;
  good_addresses : list Z;
  good_peers_by_service : gmap Z (list Z);
  peers_by_service : gmap Z (list Z);
  max_size : nat;
  reachable_networks : list ReachableNetworks
}.

(** The order in which the hash map of addresses is visited. *)
Definition Order : Type := gmap Z LocalAddress -> list Z.

Definition addrman_new (size : option nat) (networks : list ReachableNetworks) : AddressMan :=
  mkAddressMan ∅ [] ∅ ∅ (default MAX_ADDRESSES size) networks.

Definition set_addresses (m : gmap Z LocalAddress) (am : AddressMan) : AddressMan :=
  mkAddressMan m (good_addresses am) (good_peers_by_service am) (peers_by_service am) (max_size am) (reachable_networks am).
Definition set_good (l : list Z) (am : AddressMan) : AddressMan :=
  mkAddressMan (addresses am) l (good_peers_by_service am) (peers_by_service am) (max_size am) (reachable_networks am).
Definition set_good_peers (m : gmap Z (list Z)) (am : AddressMan) : AddressMan :=
  mkAddressMan (addresses am) (good_addresses am) m (peers_by_service am) (max_size am) (reachable_networks am).
Definition set_peers (m : gmap Z (list Z)) (am : AddressMan) : AddressMan :=
  mkAddressMan (addresses am) (good_addresses am) (good_peers_by_service am) m (max_size am) (reachable_networks am).

(** [retain(|&x| x != id)] *)
Definition without (id : Z) (l : list Z) : list Z := filter (fun x => x <> id) l.

Definition is_net_reachable (am : AddressMan) (a : LocalAddress) : bool :=
  match sa_address (la_address a) with
  | Ipv4 _ => bool_decide (RIPv4 ∈ reachable_networks am)
  | Ipv6 _ => bool_decide (RIPv6 ∈ reachable_networks am)
  | TorV3 _ => bool_decide (RTorV3 ∈ reachable_networks am)
  | I2p _ => bool_decide (RI2P ∈ reachable_networks am)
  | Cjdns _ => bool_decide (RCjdns ∈ reachable_networks am)
  | _ => false
  end.

(** The entry of a service, created when it is missing. *)
Definition ids_of (service : ServiceFlags) (m : gmap Z (list Z)) : list Z := default [] (m !! service).
Definition push_id (c : bool) (service : ServiceFlags) (id : Z) (m : gmap Z (list Z)) : gmap Z (list Z) :=
  let l := ids_of service m in
  <[service := if negb (bool_decide (id ∈ l)) && c then l ++ [id] else l]> m.

Definition push_if_has_service (a : LocalAddress) (service : ServiceFlags) (am : AddressMan) : AddressMan :=
  if negb (has (la_services a) service) then am
  else
    let am := set_peers (push_id true service (la_id a) (peers_by_service am)) am in
    set_good_peers (push_id (is_good_address a) service (la_id a) (good_peers_by_service am)) am.

(** The body of the loop of [push_addresses]. *)
Definition push_address (am : AddressMan) (address : LocalAddress) : AddressMan :=
  let id := la_id address in
  if negb (has (la_services address) WITNESS) || negb (has (la_services address) NETWORK_LIMITED) then am
  else if negb (is_net_reachable am address) then am
  else if negb (is_routable address) then am
  else if bool_decide (map_Exists (fun _ x => la_address x = la_address address) (addresses am)) then am
  else
    match addresses am !! id with
    | Some _ => am
    | None =>
        let am := set_addresses (<[id := address]> (addresses am)) am in
        let am := if is_good_address address then set_good (good_addresses am ++ [id]) am else am in
        let am := push_if_has_service address UTREEXO am in
        let am := push_if_has_service address NONE am in
        push_if_has_service address COMPACT_FILTERS am
    end.

(** A stable sort by the time of the last connection. *)
Fixpoint insert_by_time (x : Z * Z) (l : list (Z * Z)) : list (Z * Z) :=
  match l with
  | [] => [x]
  | y :: rest => if x.2 <=? y.2 then x :: l else y :: insert_by_time x rest
  end.
Definition sort_by_time (l : list (Z * Z)) : list (Z * Z) := foldr insert_by_time [] l.

Definition forget (am : AddressMan) (id : Z) : AddressMan :=
  mkAddressMan (delete id (addresses am)) (without id (good_addresses am))
    (without id <$> good_peers_by_service am) (without id <$> peers_by_service am)
    (max_size am) (reachable_networks am).

Definition prune_addresses (order : Order) (am : AddressMan) : AddressMan :=
  let excess := (size (addresses am) - max_size am)%nat in
  if (excess =? 0)%nat then am
  else
    let oldest := sort_by_time (omap (fun id => a ← addresses am !! id; Some (id, last_connected a)) (order (addresses am))) in
    foldl forget am (take excess oldest).*1.

Definition push_addresses (order : Order) (l : list LocalAddress) (am : AddressMan) : AddressMan :=
  prune_addresses order (foldl push_address am l).

(** * Queries *)

Definition get_addresses_by_service (service : ServiceFlags) (am : AddressMan) : list LocalAddress :=
  omap (fun id => addresses am !! id) (ids_of service (good_peers_by_service am)).

Definition bump (tried : bool) (s : NetworkStats) : NetworkStats :=
  if tried then mkNetStats (ns_new s) (ns_tried s + 1) else mkNetStats (ns_new s + 1) (ns_tried s).
Definition count_address (stats : ConnectionStats) (a : LocalAddress) : ConnectionStats :=
  let '(mkConnStats v4 v6 onion i2p cjdns) := stats in
  match (match la_state a with
         | Banned _ => None
         | Tried _ | Connected => Some true
         | NeverTried | Failed _ => Some false
         end) with
  | None => stats
  | Some tried =>
      match sa_address (la_address a) with
      | Ipv4 _ => mkConnStats (bump tried v4) v6 onion i2p cjdns
      | Ipv6 _ => mkConnStats v4 (bump tried v6) onion i2p cjdns
      | TorV3 _ => mkConnStats v4 v6 (bump tried onion) i2p cjdns
      | I2p _ => mkConnStats v4 v6 onion (bump tried i2p) cjdns
      | Cjdns _ => mkConnStats v4 v6 onion i2p (bump tried cjdns)
      | _ => stats
      end
  end.
Definition get_connection_stats (am : AddressMan) : ConnectionStats :=
  let zero := mkNetStats 0 0 in
  foldl count_address (mkConnStats zero zero zero zero zero) (map_to_list (addresses am)).*2.

Definition enough_addresses (am : AddressMan) : bool :=
  if (length (good_addresses am) <? MIN_ADDRESSES)%nat then false
  else if (length (get_addresses_by_service COMPACT_FILTERS am) <? MIN_ADDRESSES_CBF)%nat then false
  else if (length (get_addresses_by_service UTREEXO am) <? MIN_ADDRESSES_UTREEXO)%nat then false
  else true.

Definition get_addresses_to_send (am : AddressMan) : list (AddrV2 * Z * ServiceFlags * Z) :=
  omap (fun id => a ← addresses am !! id;
                  Some (sa_address (la_address a), last_connected a, la_services a, sa_port (la_address a)))
    (good_addresses am).

(** ** Choosing a peer *)

(** A random choice: the draw [r], reduced to the number of candidates. *)
Definition choose {A} (r : nat) (l : list A) : option A := l !! (r mod length l)%nat.

Definition candidates_of (service : ServiceFlags) (am : AddressMan) : list (Z * LocalAddress) :=
  omap (fun id => a ← addresses am !! id; if bool_decide (la_state a = Connected) then None else Some (id, a))
    (ids_of service (good_peers_by_service am)).
Definition get_address_by_service (r : nat) (service : ServiceFlags) (am : AddressMan) : option (Z * LocalAddress) :=
  choose r (candidates_of service am).

(** The filter of [try_with_service], which adds up times. *)
Definition may_try (now : Z) (a : LocalAddress) : outcome unit bool :=
  match la_state a with
  | Failed when_ => t ← u64_add when_ RETRY_TIME; Ok (t <? now)
  | Tried _ | NeverTried => Ok true
  | _ => Ok false
  end.
Fixpoint usable_peers (now : Z) (ids : list Z) (am : AddressMan) : outcome unit (list Z) :=
  match ids with
  | [] => Ok []
  | x :: rest =>
      b ← (match addresses am !! x with Some a => may_try now a | None => Ok false end);
      more ← usable_peers now rest am;
      Ok (if (b : bool) then x :: more else more)
  end.
Definition try_with_service (now : Z) (r : nat) (service : ServiceFlags) (am : AddressMan)
  : outcome unit (option (Z * LocalAddress)) :=
  match peers_by_service am !! service with
  | None => Ok None
  | Some peers =>
      peers ← usable_peers now peers am;
      Ok (id ← choose r peers; a ← addresses am !! id; Some (id, a))
  end.

(** [keys().nth(idx)] of a random index. *)
Definition any_address (order : Order) (r : nat) (am : AddressMan) : option (Z * LocalAddress) :=
  id ← choose r (order (addresses am)); a ← addresses am !! id; Some (id, a).

Definition get_random_address (order : Order) (now : Z) (r : nat) (service : ServiceFlags) (am : AddressMan)
  : outcome unit (option (Z * LocalAddress)) :=
  if bool_decide (addresses am = ∅) then Ok None
  else
    found ← try_with_service now r service am;
    match found with
    | Some p => Ok (Some p)
    | None => Ok (any_address order r am)
    end.

(** The loop of [get_address_to_connect]; [draw i] is the random choice of the
    attempt [i]. *)
Fixpoint connect_loop (order : Order) (now : Z) (draw : nat -> nat) (service : ServiceFlags) (attempts i : nat)
  : stm AddressMan unit (option (Z * LocalAddress)) :=
  match attempts with
  | O => mret None
  | S n =>
      found ← gets (fun am =>
        match get_address_by_service (draw i) service am with
        | Some p => Ok (Some p)
        | None => get_random_address order now (draw i) service am
        end);
      match found with
      | None => mret None
      | Some (id, peer) =>
          match la_state peer with
          | NeverTried | Tried _ => mret (Some (id, peer))
          | Connected | Banned _ => connect_loop order now draw service n (S i)
          | Failed when_ =>
              t ← lift (u64_add when_ RETRY_TIME);
              if t <? now then mret (Some (id, peer))
              else
                _ ← modify (fun am => set_good_peers (alter (without id) service (good_peers_by_service am)) am);
                _ ← modify (fun am => set_good (without id (good_addresses am)) am);
                connect_loop order now draw service n (S i)
          end
      end
  end.

Definition get_address_to_connect (order : Order) (now : Z) (draw : nat -> nat) (required_service : ServiceFlags)
  (feeler : bool) : stm AddressMan unit (option (Z * LocalAddress)) :=
  am ← gets Ok;
  if bool_decide (addresses am = ∅) then mret None
  else if feeler then
    mret (p ← any_address order (draw 0%nat) am;
          match la_state p.2 with Banned _ | Connected => None | _ => Some p end)
  else connect_loop order now draw required_service 10 0.

(** * Updates *)

(** The new state of an address whose ban or information has expired. *)
Definition expire (now : Z) (a : LocalAddress) : outcome unit LocalAddress :=
  match la_state a with
  | Banned ban_time => Ok (if ban_time <? now then set_state NeverTried a else a)
  | Tried tried_time => t ← u64_add tried_time ASSUME_STALE; Ok (if t <? now then set_state NeverTried a else a)
  | Failed failed_time => t ← u64_add failed_time ASSUME_STALE; Ok (if t <? now then set_state NeverTried a else a)
  | Connected | NeverTried => Ok a
  end.
Fixpoint expire_all (now : Z) (ids : list Z) : stm AddressMan unit unit :=
  match ids with
  | [] => mret tt
  | id :: rest =>
      am ← gets Ok;
      _ ← (match addresses am !! id with
           | None => mret tt
           | Some a => a' ← lift (expire now a); modify (set_addresses (<[id := a']> (addresses am)))
           end);
      expire_all now rest
  end.
Definition rearrange_buckets (order : Order) (now : Z) : stm AddressMan unit unit :=
  am ← gets Ok; expire_all now (order (addresses am)).

Definition push_good (idx : Z) (am : AddressMan) : AddressMan :=
  if bool_decide (idx ∈ good_addresses am) then am else set_good (good_addresses am ++ [idx]) am.
Definition push_services (services : list ServiceFlags) (idx : Z) (am : AddressMan) : AddressMan :=
  match addresses am !! idx with
  | None => am
  | Some a => foldl (fun am s => push_if_has_service a s am) am services
  end.

Definition update_set_state (now : Z) (idx : Z) (state : AddressState) (am : AddressMan) : AddressMan :=
  let am := set_addresses (alter (set_state state) idx (addresses am)) am in
  match state with
  | Banned _ => set_good (without idx (good_addresses am)) am
  | Tried _ => push_services [UTREEXO; UTREEXO_ARCHIVE; NONE; COMPACT_FILTERS] idx (push_good idx am)
  | NeverTried => set_good (without idx (good_addresses am)) am
  | Connected =>
      let am := set_addresses (alter (set_last_connected now) idx (addresses am)) am in
      push_services [UTREEXO; NONE; COMPACT_FILTERS] idx (push_good idx am)
  | Failed _ =>
      let am := set_good (without idx (good_addresses am)) am in
      set_good_peers (without idx <$> good_peers_by_service am) am
  end.

Definition add_peer_to_service (idx : Z) (service : ServiceFlags) (am : AddressMan) : AddressMan :=
  match peers_by_service am !! service with
  | Some peers =>
      if bool_decide (idx ∈ peers) then am
      else set_peers (<[service := peers ++ [idx]]> (peers_by_service am)) am
  | None => set_peers (<[service := [idx]]> (peers_by_service am)) am
  end.
Definition remove_peer_from_service (idx : Z) (service : ServiceFlags) (am : AddressMan) : AddressMan :=
  set_peers (alter (without idx) service (peers_by_service am)) am.
Definition update_peer_for_service (id : Z) (service : ServiceFlags) (am : AddressMan) : AddressMan :=
  match addresses am !! id with
  | None => am
  | Some peer =>
      if has (la_services peer) service then add_peer_to_service id service am
      else remove_peer_from_service id service am
  end.
Definition update_peer_services_buckets (idx : Z) (am : AddressMan) : AddressMan :=
  update_peer_for_service idx COMPACT_FILTERS (update_peer_for_service idx UTREEXO am).
Definition update_set_service_flag (idx : Z) (flags : ServiceFlags) (am : AddressMan) : AddressMan :=
  if negb (has flags NETWORK_LIMITED) || negb (has flags WITNESS) then forget am idx
  else update_peer_services_buckets idx (set_addresses (alter (set_services flags) idx (addresses am)) am).

(** * Persistence and seeds *)

Inductive Address := AV4 (a : Ipv4Addr) | AV6 (a : Ipv6Addr) | AOnionV2 (key : list Z) | AOnionV3 (key : list Z)
  | ACjdns (a : Ipv6Addr) | AI2p (key : list Z).
Record DiskLocalAddress := mkDisk {
  dl_address : Address;
  dl_last_connected : Z;
  dl_state : AddressState;
  dl_services : Z;
  dl_port : Z;
  dl_id : option Z
}.

Definition disk_from_local (now : Z) (value : LocalAddress) : DiskLocalAddress :=
  mkDisk
    (match sa_address (la_address value) with
     | Ipv4 ip => AV4 ip
     | Ipv6 ip => AV6 ip
     | Cjdns ip => ACjdns ip
     | I2p ip => AI2p ip
     | TorV2 ip => AOnionV2 ip
     | TorV3 ip => AOnionV3 ip
     | Unknown _ _ => AV4 LOCALHOST
     end)
    (last_connected value)
    (if bool_decide (la_state value = Connected) then Tried now else la_state value)
    (la_services value) (sa_port (la_address value)) (Some (la_id value)).

(** [From<Address> for AddrV2]. *)
Definition addrv2_from (a : Address) : AddrV2 :=
  match a with
  | AV4 ip => Ipv4 ip
  | AV6 ip => Ipv6 ip
  | ACjdns ip => Cjdns ip
  | AI2p ip => I2p ip
  | AOnionV2 ip => TorV2 ip
  | AOnionV3 ip => TorV3 ip
  end.
(** [rand] is the id of an address that was stored without one. *)
Definition local_from_disk (rand : Z) (value : DiskLocalAddress) : LocalAddress :=
  mkLocal (mkSockAddr (addrv2_from (dl_address value)) (dl_port value)) (dl_last_connected value) (dl_state value)
    (dl_services value) (default rand (dl_id value)).

Section Persistence.
Context `{!Json (list DiskLocalAddress)}.

(** The files [peers.json] and [anchors.json] of the data directory. *)
Record PeerFiles := mkPeerFiles { peers_json : option (list Z); anchors_json : option (list Z) }.

Definition dump_peers (order : Order) (now : Z) (am : AddressMan) (d : PeerFiles) : PeerFiles :=
  let peers := omap (fun id => disk_from_local now <$> addresses am !! id) (order (addresses am)) in
  mkPeerFiles (Some (to_vec peers)) (anchors_json d).
Definition dump_utreexo_peers (now : Z) (utreexo_peers : list LocalAddress) (d : PeerFiles) : PeerFiles :=
  mkPeerFiles (peers_json d) (Some (to_vec (map (disk_from_local now) utreexo_peers))).

(** The addresses of a file, if it exists and can be read; [rand i] is for the
    address [i]. *)
Definition read_peers (rand : nat -> Z) (f : option (list Z)) : option (list LocalAddress) :=
  bytes ← f;
  match from_slice bytes with
  | inr peers => Some (imap (fun i p => local_from_disk (rand i) p) peers)
  | inl _ => None
  end.
Definition start_addr_man (order : Order) (rand : nat -> Z) (d : PeerFiles) (am : AddressMan)
  : list LocalAddress * AddressMan :=
  let am := match read_peers rand (peers_json d) with
            | Some peers => push_addresses order peers am
            | None => am
            end in
  (default [] (read_peers rand (anchors_json d)), am).

(** [add_fixed_addresses]: [seeds] are the contents of the seeds file of the
    network, which is part of the program. *)
Definition add_fixed_addresses (order : Order) (rand : nat -> Z) (seeds : Network -> list Z) (network : Network)
  (am : AddressMan) : outcome unit AddressMan :=
  peers ← expect (read_peers rand (Some (seeds network)));
  Ok (push_addresses order peers am).
End Persistence.

(** [DnsSeed]; [lookup] is [do_lookup] with its port and proxy. *)
Record DnsSeed := mkDnsSeed { dns_seed : text; dns_filters : ServiceFlags }.
Definition seeded (now : Z) (services : ServiceFlags) (l : list LocalAddress) : list LocalAddress :=
  map (fun x => set_state (Tried now) (set_services services x)) l.
Definition get_seeds_from_dns (lookup : text -> list LocalAddress) (now : Z) (seed : DnsSeed) : list LocalAddress :=
  (if has (dns_filters seed) UTREEXO then
     seeded now (Z.lor (Z.lor NETWORK_LIMITED UTREEXO) WITNESS) (lookup (txt "x1000." ++ dns_seed seed)) else []) ++
  (if has (dns_filters seed) COMPACT_FILTERS then
     seeded now (Z.lor (Z.lor COMPACT_FILTERS NETWORK_LIMITED) WITNESS) (lookup (txt "x49." ++ dns_seed seed)) else []) ++
  (if has (dns_filters seed) WITNESS then
     seeded now (Z.lor NETWORK_LIMITED WITNESS) (lookup (txt "x9." ++ dns_seed seed)) else []) ++
  (if dns_filters seed =? NONE then
     seeded now (Z.lor NETWORK_LIMITED WITNESS) (lookup (dns_seed seed)) else []).
