(* ===== verification/AddressManFacts.v ===== *)
(** The address manager keeps its indexes consistent with its addresses,
    returns only peers it may connect to, and keeps the most recent ones. *)

From stdpp Require Import base gmap list strings fin_maps.
From Stdlib Require Import ZArith Lia Sorted Btauto.
From S2P Require Import Prelude Bitcoin Codec Text Onion SocketAddr AddressMan.

(** * Routable addresses *)

(** A block of addresses: the first one, and the number of fixed bits. *)
Definition ipv4_value (ip : Ipv4Addr) : Z := ((oct1 ip * 256 + oct2 ip) * 256 + oct3 ip) * 256 + oct4 ip.
Definition ipv6_value (ip : Ipv6Addr) : Z := foldl (fun v s => v * 65536 + s) 0 ip.
Definition in_block (bits value base len : Z) : bool := value / 2 ^ (bits - len) =? base / 2 ^ (bits - len).

(** The blocks of IPv4 that are not public (RFC 791, 1122, 919, 1918, 2544,
    3927, 6598 and 5737). *)
Definition ipv4_blocks : list (Ipv4Addr * Z) :=
  [(mkIpv4 0 0 0 0, 8); (mkIpv4 127 0 0 0, 8); (mkIpv4 255 255 255 255, 32);
   (mkIpv4 10 0 0 0, 8); (mkIpv4 172 16 0 0, 12); (mkIpv4 192 168 0 0, 16);
   (mkIpv4 198 18 0 0, 15); (mkIpv4 169 254 0 0, 16); (mkIpv4 100 64 0 0, 10);
   (mkIpv4 192 0 2 0, 24); (mkIpv4 198 51 100 0, 24); (mkIpv4 203 0 113 0, 24)].
(** The ones of IPv6: unspecified, loopback, unique local, ORCHID, link-local
    and ORCHIDv2. *)
Definition ipv6_blocks : list (Ipv6Addr * Z) :=
  [([0; 0; 0; 0; 0; 0; 0; 0], 128); ([0; 0; 0; 0; 0; 0; 0; 1], 128); ([0xfc00; 0; 0; 0; 0; 0; 0; 0], 7);
   ([0x2001; 0x10; 0; 0; 0; 0; 0; 0], 28); ([0xfe80; 0; 0; 0; 0; 0; 0; 0], 10); ([0x2001; 0x20; 0; 0; 0; 0; 0; 0], 28)].

Ltac eqb_cases :=
  repeat match goal with
  | |- context [?a =? ?b] => destruct (Z.eqb_spec a b)
  | |- context [?a <=? ?b] => destruct (Z.leb_spec a b)
  end; try done; exfalso; lia.

(** A quotient of the value is made of the first octets. *)
Lemma value_div a r m : 0 <= r < m -> (a * m + r) / m = a.
Proof. intros Hr. rewrite Z.div_add_l, Z.div_small by lia. lia. Qed.

Section Ipv4Blocks.
Context (ip : Ipv4Addr) (Hip : ipv4_wf ip).

Lemma block8 a : in_block 32 (ipv4_value ip) (ipv4_value (mkIpv4 a 0 0 0)) 8 = (oct1 ip =? a).
Proof.
  destruct Hip as (H1 & H2 & H3 & H4). unfold in_block, ipv4_value, is_byte in *. cbn [oct1 oct2 oct3 oct4].
  change (2 ^ (32 - 8)) with 16777216.
  replace (((oct1 ip * 256 + oct2 ip) * 256 + oct3 ip) * 256 + oct4 ip)
    with (oct1 ip * 16777216 + ((oct2 ip * 256 + oct3 ip) * 256 + oct4 ip)) by lia.
  replace (((a * 256 + 0) * 256 + 0) * 256 + 0) with (a * 16777216 + 0) by lia. by rewrite !value_div by lia.
Qed.

Lemma block_second a b len k : 8 <= len <= 16 -> k = 2 ^ (16 - len) ->
  in_block 32 (ipv4_value ip) (ipv4_value (mkIpv4 a b 0 0)) len = ((oct1 ip * 256 + oct2 ip) / k =? (a * 256 + b) / k).
Proof.
  intros Hlen ->. destruct Hip as (H1 & H2 & H3 & H4). unfold in_block, ipv4_value, is_byte in *. cbn [oct1 oct2 oct3 oct4].
  replace (32 - len) with (16 + (16 - len)) by lia. rewrite Z.pow_add_r by lia. change (2 ^ 16) with 65536.
  assert (0 < 2 ^ (16 - len)) by (apply Z.pow_pos_nonneg; lia). rewrite <-!Z.div_div by lia.
  replace (((oct1 ip * 256 + oct2 ip) * 256 + oct3 ip) * 256 + oct4 ip)
    with ((oct1 ip * 256 + oct2 ip) * 65536 + (oct3 ip * 256 + oct4 ip)) by lia.
  replace (((a * 256 + b) * 256 + 0) * 256 + 0) with ((a * 256 + b) * 65536 + 0) by lia. by rewrite !value_div by lia.
Qed.

Lemma block24 a b c : is_byte b -> is_byte c -> in_block 32 (ipv4_value ip) (ipv4_value (mkIpv4 a b c 0)) 24 =
  (oct1 ip =? a) && (oct2 ip =? b) && (oct3 ip =? c).
Proof.
  intros Hb Hc. destruct Hip as (H1 & H2 & H3 & H4). unfold in_block, ipv4_value, is_byte in *. cbn [oct1 oct2 oct3 oct4].
  change (2 ^ (32 - 24)) with 256. rewrite !value_div by lia. eqb_cases.
Qed.

Lemma block32 : in_block 32 (ipv4_value ip) (ipv4_value (mkIpv4 255 255 255 255)) 32 = is_broadcast ip.
Proof.
  destruct Hip as (H1 & H2 & H3 & H4). unfold in_block, ipv4_value, is_byte, is_broadcast in *. cbn [oct1 oct2 oct3 oct4].
  change (2 ^ (32 - 32)) with 1. rewrite !Z.div_1_r. case_bool_decide as E.
  - by rewrite E.
  - apply Z.eqb_neq. intros Ev. apply E. destruct ip as [a b c d]. cbn in *.
    assert (a = 255 /\ b = 255 /\ c = 255 /\ d = 255) as (-> & -> & -> & ->) by lia. done.
Qed.

Lemma block_range a lo hi len k : 0 <= lo -> is_byte lo -> is_byte hi -> 8 <= len <= 16 -> k = 2 ^ (16 - len) ->
  lo mod k = 0 -> hi = lo + k - 1 ->
  in_block 32 (ipv4_value ip) (ipv4_value (mkIpv4 a lo 0 0)) len = (oct1 ip =? a) && ((lo <=? oct2 ip) && (oct2 ip <=? hi)).
Proof.
  intros H0 Hlo Hhi Hlen Hk Hm Eh. rewrite (block_second a lo len k Hlen Hk). destruct Hip as (H1 & H2 & _). unfold is_byte in *.
  assert (Hk0 : 0 < k) by (subst k; apply Z.pow_pos_nonneg; lia).
  assert (Hd : 256 mod k = 0).
  { subst k. rewrite <-(Z.mod_mul (2 ^ (len - 8)) (2 ^ (16 - len))) by lia. rewrite <-Z.pow_add_r by lia.
    by replace (len - 8 + (16 - len)) with 8 by lia. }
  apply Z.mod_divide in Hd as [q Hq]; [|lia]. apply Z.mod_divide in Hm as [r Hr]; [|lia].
  replace (oct1 ip * 256 + oct2 ip) with ((oct1 ip * q) * k + oct2 ip) by (rewrite Hq; ring).
  replace (a * 256 + lo) with ((a * q + r) * k) by (rewrite Hq, Hr; ring). rewrite Z.div_mul, Z.div_add_l by lia.
  pose proof (Z.div_mod (oct2 ip) k ltac:(lia)) as Hdiv. pose proof (Z.mod_pos_bound (oct2 ip) k ltac:(lia)) as Hmod.
  assert (Hqb : oct2 ip / k < q) by (apply Z.div_lt_upper_bound; lia).
  assert (0 <= oct2 ip / k) by (apply Z.div_pos; lia). assert (0 <= r < q) by nia.
  destruct (Z.eqb_spec (oct1 ip * q + oct2 ip / k) (a * q + r)) as [E|E];
    destruct (Z.eqb_spec (oct1 ip) a) as [Ea|Ea]; cbn [andb].
  - rewrite Ea in E. assert (oct2 ip / k = r) as Er by lia. rewrite (proj2 (Z.leb_le _ _)), (proj2 (Z.leb_le _ _)) by nia. done.
  - exfalso. assert (oct1 ip < a \/ a < oct1 ip) as [?|?] by lia; nia.
  - rewrite Ea in E. assert (oct2 ip / k <> r) as Er by lia.
    destruct (Z.leb_spec lo (oct2 ip)), (Z.leb_spec (oct2 ip) hi); try done. exfalso. apply Er. nia.
  - done.
Qed.

Lemma if_false (b c : bool) : (if b then false else c) = negb b && c.
Proof. by destruct b. Qed.

Lemma eqb_range x a : (a <=? x) && (x <=? a) = (x =? a).
Proof. eqb_cases. Qed.
Lemma eqb_pair x a : (a <=? x) && (x <=? a + 1) = (x =? a) || (x =? a + 1).
Proof. eqb_cases. Qed.

Lemma is_routable_ipv4_blocks :
  is_routable_ipv4 ip = negb (existsb (fun b => in_block 32 (ipv4_value ip) (ipv4_value b.1) b.2) ipv4_blocks).
Proof.
  unfold ipv4_blocks. cbn [existsb fst snd]. rewrite !block8, block32, !block24 by (unfold is_byte; lia).
  rewrite (block_range 172 16 31 12 16), (block_range 192 168 168 16 1), (block_range 198 18 19 15 2),
    (block_range 169 254 254 16 1), (block_range 100 64 127 10 64) by (unfold is_byte; try lia; done).
  rewrite !eqb_range. pose proof (eqb_pair (oct2 ip) 18) as E18. change (18 + 1) with 19 in E18. rewrite E18.
  unfold is_routable_ipv4, is_loopback, is_private, is_link_local, is_documentation. rewrite !if_false. btauto.
Qed.
End Ipv4Blocks.

Lemma octets_eq s0 s1 l (ip := s0 :: s1 :: l) :
  octet ip 0 = s0 / 256 /\ octet ip 1 = s0 mod 256 /\ octet ip 2 = s1 / 256 /\ octet ip 3 = s1 mod 256.
Proof. done. Qed.

(** The first bits of an IPv6 address are those of its first segments. *)
Section Ipv6Blocks.
Context (ip : Ipv6Addr) (Hip : ipv6_wf ip).

Lemma ipv6_value_split n l : Forall is_u16 l -> length l = n -> forall v,
  foldl (fun v s => v * 65536 + s) v l = v * 65536 ^ Z.of_nat n + ipv6_value l /\ 0 <= ipv6_value l < 65536 ^ Z.of_nat n.
Proof.
  unfold ipv6_value. intros Hl <-. induction Hl as [|s l Hs Hl IH]; intros v; cbn [foldl length].
  { cbn. lia. }
  rewrite Nat2Z.inj_succ, Z.pow_succ_r by lia. unfold is_u16, u16_max in Hs.
  destruct (IH (v * 65536 + s)) as [-> _]. destruct (IH (0 * 65536 + s)) as [-> Hb].
  set (p := 65536 ^ Z.of_nat (length l)) in *. nia.
Qed.

Lemma block_segments pre len : (length pre <= 8)%nat -> Forall is_u16 pre -> 0 <= len <= 16 * Z.of_nat (length pre) ->
  in_block 128 (ipv6_value ip) (ipv6_value (pre ++ replicate (8 - length pre) 0)) len =
  (ipv6_value (take (length pre) ip) / 2 ^ (16 * Z.of_nat (length pre) - len) =?
   ipv6_value pre / 2 ^ (16 * Z.of_nat (length pre) - len)).
Proof.
  intros Hl Hu Hlen. destruct Hip as [H8 Hsegs]. set (n := length pre) in *. set (m := Z.of_nat (8 - n)).
  assert (Hdiv : forall a b, Forall is_u16 b -> length b = (8 - n)%nat -> Forall is_u16 a ->
    ipv6_value (a ++ b) / 2 ^ (128 - len) = ipv6_value a / 2 ^ (16 * Z.of_nat n - len)).
  { intros a b Hb Hbl Ha. unfold ipv6_value. rewrite foldl_app.
    destruct (ipv6_value_split (8 - n) b Hb Hbl (foldl (fun v s => v * 65536 + s) 0 a)) as [-> Hb']. fold m in Hb'. fold m.
    replace (128 - len) with (16 * m + (16 * Z.of_nat n - len)) by (unfold m; lia).
    rewrite Z.pow_add_r by (unfold m; lia). rewrite (Z.pow_mul_r 2 16 m) by (unfold m; lia). change (2 ^ 16) with 65536.
    assert (0 < 2 ^ (16 * Z.of_nat n - len)) by (apply Z.pow_pos_nonneg; lia).
    rewrite <-Z.div_div by lia. by rewrite value_div by lia. }
  unfold in_block. rewrite <-(take_drop n ip) at 1.
  rewrite !Hdiv; [done|..].
  - by apply Forall_replicate.
  - by rewrite length_replicate.
  - done.
  - by apply Forall_drop.
  - rewrite length_drop. lia.
  - by apply Forall_take.
Qed.

Lemma land_mask x k j : 0 <= k -> 0 <= j -> Z.land x (Z.ones k * 2 ^ j) = (x / 2 ^ j) mod 2 ^ k * 2 ^ j.
Proof.
  intros Hk Hj. rewrite <-Z.land_ones, <-Z.shiftr_div_pow2, <-!Z.shiftl_mul_pow2 by lia.
  rewrite Z.shiftl_land. apply Z.bits_inj'. intros i Hi.
  rewrite !Z.land_spec, !Z.shiftl_spec by lia. destruct (Z.ltb_spec i j).
  - by rewrite (Z.testbit_neg_r (Z.ones k) (i - j)), !andb_false_r by lia.
  - rewrite Z.shiftr_spec by lia. by replace (i - j + j) with i by lia.
Qed.

Lemma ipv6_value_inj l1 l2 : Forall is_u16 l1 -> Forall is_u16 l2 -> length l1 = length l2 ->
  ipv6_value l1 = ipv6_value l2 -> l1 = l2.
Proof.
  intros H1. revert l2. induction H1 as [|s1 l1 Hs1 Hl1 IH]; intros l2 H2 Hlen E; destruct l2 as [|s2 l2]; try done.
  apply Forall_cons in H2 as [Hs2 Hl2]. cbn in Hlen. injection Hlen as Hlen. unfold ipv6_value in E. cbn [foldl] in E.
  destruct (ipv6_value_split (length l1) l1 Hl1 eq_refl (0 * 65536 + s1)) as [E1 Hb1].
  destruct (ipv6_value_split (length l1) l2 Hl2 ltac:(done) (0 * 65536 + s2)) as [E2 Hb2].
  rewrite E1, E2 in E. set (p := 65536 ^ Z.of_nat (length l1)) in *. assert (s1 = s2) as -> by nia.
  f_equal. apply IH; [done..|]. lia.
Qed.

Lemma block128 a : ipv6_wf a -> in_block 128 (ipv6_value ip) (ipv6_value a) 128 = bool_decide (ip = a).
Proof.
  intros [Ha Hu]. destruct Hip as [H8 Hs]. unfold in_block. change (2 ^ (128 - 128)) with 1. rewrite !Z.div_1_r.
  case_bool_decide as E; [by rewrite E, Z.eqb_refl|]. apply Z.eqb_neq. intros Ev. apply E.
  apply ipv6_value_inj; [done..|lia|done].
Qed.

(** The blocks of the first two segments, by their octets. *)
Lemma block_first a len k : is_u16 a -> 0 <= len <= 16 -> k = 2 ^ (16 - len) ->
  in_block 128 (ipv6_value ip) (ipv6_value [a; 0; 0; 0; 0; 0; 0; 0]) len = (nth 0 ip 0 / k =? a / k).
Proof.
  intros Ha Hlen ->. pose proof (block_segments [a] len ltac:(cbn; lia) ltac:(by constructor) ltac:(cbn; lia)) as E.
  cbn [length app Nat.sub replicate] in E. change (16 * Z.of_nat 1 - len) with (16 - len) in E. rewrite E.
  destruct Hip as [H8 _]. destruct ip as [|s0 l]; [done|]. cbn [take nth]. unfold ipv6_value. cbn [foldl].
  replace (0 * 65536 + s0) with s0 by lia. replace (0 * 65536 + a) with a by lia. done.
Qed.

Lemma block28 a b : is_u16 a -> is_u16 b ->
  in_block 128 (ipv6_value ip) (ipv6_value [a; b; 0; 0; 0; 0; 0; 0]) 28 =
  ((nth 0 ip 0 * 65536 + nth 1 ip 0) / 16 =? (a * 65536 + b) / 16).
Proof.
  intros Ha Hb. pose proof (block_segments [a; b] 28 ltac:(cbn; lia) (Forall_cons_2 _ _ _ Ha (Forall_cons_2 _ _ _ Hb (Forall_nil_2 _))) ltac:(cbn; lia)) as E.
  cbn [length app Nat.sub replicate] in E. change (2 ^ (16 * Z.of_nat 2 - 28)) with 16 in E. rewrite E.
  destruct Hip as [H8 _]. destruct ip as [|s0 [|s1 l]]; [done..|]. cbn [take nth]. unfold ipv6_value. cbn [foldl].
  replace (0 * 65536 + s0) with s0 by lia. replace (0 * 65536 + a) with a by lia. done.
Qed.

Ltac octet_cases := apply eq_true_iff_eq; rewrite ?andb_true_iff, !Z.eqb_eq; Z.to_euclidean_division_equations; lia.

Lemma orchid_octets s0 s1 n : 0 <= s0 <= 65535 -> 0 <= s1 <= 65535 -> 0 <= n < 16 ->
  (s0 / 256 =? 0x20) && (s0 mod 256 =? 0x01) && (s1 / 256 =? 0x00) && ((s1 mod 256 / 16) mod 16 * 16 =? n * 16) =
  ((s0 * 65536 + s1) / 16 =? (0x2001 * 65536 + n * 16) / 16).
Proof.
  intros H0 H1 Hn. set (q := s1 / 16).
  assert (Hq : 0 <= q < 4096) by (split; [apply Z.div_pos; lia|apply Z.div_lt_upper_bound; lia]).
  assert (E1 : s1 / 256 = q / 16) by (unfold q; by rewrite Z.div_div by lia).
  assert (E2 : s1 mod 256 / 16 = q mod 16).
  { change 256 with (16 * 16). rewrite Z.rem_mul_r by lia. fold q.
    rewrite (Z.mul_comm 16 (q mod 16)), Z.div_add, (Z.div_small (s1 mod 16) 16); [lia|by apply Z.mod_pos_bound|lia]. }
  assert (E3 : (s0 * 65536 + s1) / 16 = s0 * 4096 + q).
  { replace (s0 * 65536 + s1) with (s0 * 4096 * 16 + s1) by lia. by rewrite Z.div_add_l by lia. }
  assert (E4 : (0x2001 * 65536 + n * 16) / 16 = 0x2001 * 4096 + n).
  { replace (0x2001 * 65536 + n * 16) with ((0x2001 * 4096 + n) * 16) by lia. by rewrite Z.div_mul by lia. }
  rewrite E1, E2, E3, E4, Z.mod_mod by lia.
  pose proof (Z.div_mod q 16 ltac:(lia)). pose proof (Z.mod_pos_bound q 16 ltac:(lia)).
  pose proof (Z.div_mod s0 256 ltac:(lia)). pose proof (Z.mod_pos_bound s0 256 ltac:(lia)).
  apply eq_true_iff_eq. rewrite !andb_true_iff, !Z.eqb_eq. lia.
Qed.

Lemma is_routable_ipv6_blocks :
  is_routable_ipv6 ip = negb (existsb (fun b => in_block 128 (ipv6_value ip) (ipv6_value b.1) b.2) ipv6_blocks).
Proof.
  unfold ipv6_blocks. cbn [existsb fst snd].
  rewrite !block128 by (split; [done|by repeat constructor]).
  rewrite (block_first 0xfc00 7 512), (block_first 0xfe80 10 64), !block28 by (unfold is_u16, u16_max; try lia; done).
  unfold is_routable_ipv6. destruct Hip as [H8 Hs]. destruct ip as [|s0 [|s1 l]]; [done..|].
  destruct (octets_eq s0 s1 l) as (E0 & E1 & E2 & E3). rewrite E0, E1, E2, E3. cbn [nth].
  apply Forall_cons in Hs as [H0 [H1 _]%Forall_cons]. unfold is_u16, u16_max in *.
  change 0xfe00 with (Z.ones 7 * 2 ^ 9). change 0xC0 with (Z.ones 2 * 2 ^ 6). change 0xF0 with (Z.ones 4 * 2 ^ 4).
  rewrite !land_mask by lia. change (2 ^ 9) with 512. change (2 ^ 7) with 128. change (2 ^ 6) with 64. change (2 ^ 2) with 4.
  change (2 ^ 4) with 16.
  assert (Q1 : ((s0 / 512) mod 128 * 512 =? 0xfc00) = (s0 / 512 =? 0xfc00 / 512)) by octet_cases.
  assert (Q2 : (s0 / 256 =? 0xFE) && ((s0 mod 256 / 64) mod 4 * 64 =? 0x80) = (s0 / 64 =? 0xfe80 / 64)) by octet_cases.
  pose proof (orchid_octets s0 s1 1 H0 H1 ltac:(lia)) as Q3. pose proof (orchid_octets s0 s1 2 H0 H1 ltac:(lia)) as Q4.
  change (1 * 16) with 0x10 in Q3. change (2 * 16) with 0x20 in Q4.
  rewrite Q1, Q2, Q3, Q4, !if_false. btauto.
Qed.
End Ipv6Blocks.

Definition addr_wf (a : AddrV2) : Prop :=
  match a with Ipv4 ip => ipv4_wf ip | Ipv6 ip | Cjdns ip => ipv6_wf ip | _ => True end.

(** is_routable, with its comparisons of octets, masks and segments, rejects exactly the
    addresses in the listed special-purpose CIDR blocks, as prefixes of the 32-bit or
    128-bit number, and accepts CJDNS addresses exactly in fc00::/8. *)
Theorem is_routable_blocks (a : LocalAddress) (Ha : addr_wf (sa_address (la_address a))) :
  is_routable a =
  match sa_address (la_address a) with
  | Ipv4 ip => negb (existsb (fun b => in_block 32 (ipv4_value ip) (ipv4_value b.1) b.2) ipv4_blocks)
  | Ipv6 ip => negb (existsb (fun b => in_block 128 (ipv6_value ip) (ipv6_value b.1) b.2) ipv6_blocks)
  | Cjdns ip => in_block 128 (ipv6_value ip) (ipv6_value [0xfc00; 0; 0; 0; 0; 0; 0; 0]) 8
  | _ => true
  end.
Proof.
  unfold is_routable. destruct (sa_address (la_address a)) as [ip|ip| | | |ip|]; try done.
  - by apply is_routable_ipv4_blocks.
  - by apply is_routable_ipv6_blocks.
  - rewrite (block_first ip Ha 0xfc00 8 256) by (unfold is_u16, u16_max; try lia; done).
    destruct Ha as [H8 _]. by destruct ip.
Qed.

(** * The invariant *)

Lemma without_spec id l x : x ∈ without id l <-> x <> id /\ x ∈ l.
Proof. unfold without. by rewrite list_elem_of_filter. Qed.
Lemma without_nodup id l : NoDup l -> NoDup (without id l).
Proof. apply NoDup_filter. Qed.

Lemma ids_of_fmap f s m : f [] = [] -> ids_of s (f <$> m) = f (ids_of s m).
Proof. intros E. unfold ids_of. rewrite lookup_fmap. by destruct (m !! s). Qed.
Lemma ids_of_alter f s s' m : f [] = [] -> ids_of s (alter f s' m) = if decide (s = s') then f (ids_of s m) else ids_of s m.
Proof.
  intros E. unfold ids_of. case_decide as Hs; [subst|by rewrite lookup_alter_ne].
  rewrite lookup_alter_eq. by destruct (m !! s').
Qed.
Lemma ids_of_push c s id s' m :
  ids_of s' (push_id c s id m) =
    if decide (s = s') then (if bool_decide (id ∈ ids_of s m) then ids_of s m else if c then ids_of s m ++ [id] else ids_of s m)
    else ids_of s' m.
Proof.
  unfold push_id. unfold ids_of at 1. case_decide as Hs; [subst|by rewrite lookup_insert_ne].
  rewrite lookup_insert_eq. cbn. by destruct (bool_decide _), c.
Qed.

Lemma elem_of_push c s id s' m x :
  x ∈ ids_of s' (push_id c s id m) <-> x ∈ ids_of s' m \/ (s = s' /\ x = id /\ c = true).
Proof.
  rewrite ids_of_push. case_decide as Hs; [subst s'|by intuition]. case_bool_decide as Hin.
  - split; [by left|]. by intros [?|(_ & -> & _)].
  - destruct c; [|split; [by left|]; by intros [?|(_ & _ & ?)]].
    rewrite elem_of_app, list_elem_of_singleton. split; [by intros [?| ->]; [left|right]|].
    by intros [?|(_ & -> & _)]; [left|right].
Qed.

Lemma nodup_push c s id s' m : NoDup (ids_of s' m) -> NoDup (ids_of s' (push_id c s id m)).
Proof.
  intros Hn. rewrite ids_of_push. case_decide as Hs; [subst s'|done]. case_bool_decide; [done|]. destruct c; [|done].
  apply NoDup_app. split_and!; [done| |apply NoDup_singleton]. by intros x Hx ->%list_elem_of_singleton.
Qed.

(** The services whose peers are indexed. *)
Definition indexed : list ServiceFlags := [UTREEXO; NONE; COMPACT_FILTERS].

Record am_inv (am : AddressMan) : Prop := {
  ai_id : forall id a, addresses am !! id = Some a -> la_id a = id;
  ai_unique : forall i j a b, addresses am !! i = Some a -> addresses am !! j = Some b ->
    la_address a = la_address b -> i = j;
  ai_accepted : forall id a, addresses am !! id = Some a ->
    has (la_services a) WITNESS = true /\ has (la_services a) NETWORK_LIMITED = true /\
    is_net_reachable am a = true /\ is_routable a = true;
  ai_good : forall id a, addresses am !! id = Some a -> is_good_address a = true -> id ∈ good_addresses am;
  ai_peers : forall s id, s ∈ indexed ->
    id ∈ ids_of s (peers_by_service am) <->
    exists a, addresses am !! id = Some a /\ has (la_services a) s = true;
  ai_known : forall s id, id ∈ ids_of s (peers_by_service am) \/ id ∈ ids_of s (good_peers_by_service am) ->
    is_Some (addresses am !! id);
  ai_nodup : forall s, NoDup (ids_of s (peers_by_service am)) /\ NoDup (ids_of s (good_peers_by_service am))
}.

Lemma has_none f : has f NONE = true.
Proof. unfold has, NONE. rewrite Z.lor_0_r. apply Z.eqb_refl. Qed.

(** ** Changes that keep it *)

(** Adding a stored address to the lists of a service it has. *)
Lemma push_service_inv am a s : am_inv am -> addresses am !! la_id a = Some a -> am_inv (push_if_has_service a s am).
Proof.
  intros [Hid Hun Hacc Hgood Hpe Hk Hn] Ha. unfold push_if_has_service. destruct (has (la_services a) s) eqn:Es; [|done].
  cbn [negb]. split; cbn; try done.
  - intros s' id Hs'. rewrite elem_of_push, (Hpe s' id Hs'). split; [|by auto].
    intros [?|(<- & -> & _)]; [done|]. by exists a.
  - intros s' id. rewrite !elem_of_push. intros [[?|(_ & -> & _)]|[?|(_ & -> & _)]]; [by eauto|by rewrite Ha|by eauto|by rewrite Ha].
  - intros s'. destruct (Hn s'). split; by apply nodup_push.
Qed.

Lemma push_service_addresses a s am : addresses (push_if_has_service a s am) = addresses am /\
  good_addresses (push_if_has_service a s am) = good_addresses am /\
  max_size (push_if_has_service a s am) = max_size am /\
  reachable_networks (push_if_has_service a s am) = reachable_networks am.
Proof. unfold push_if_has_service. by destruct (has (la_services a) s). Qed.

Lemma push_services_inv services a am : am_inv am -> addresses am !! la_id a = Some a ->
  am_inv (foldl (fun am s => push_if_has_service a s am) am services) /\
  addresses (foldl (fun am s => push_if_has_service a s am) am services) = addresses am.
Proof.
  revert am. induction services as [|s services IH]; intros am Hi Ha; cbn [foldl]; [done|].
  destruct (push_service_addresses a s am) as (E & _).
  destruct (IH (push_if_has_service a s am)) as [H1 H2]; [by apply push_service_inv|by rewrite E|]. split; [done|]. by rewrite H2.
Qed.

Lemma forget_inv am id : am_inv am -> am_inv (forget am id).
Proof.
  intros [Hid Hun Hacc Hgood Hpe Hk Hn]. unfold forget. split; cbn.
  - intros i a [_ ?]%lookup_delete_Some. by apply Hid.
  - intros i j a b [_ ?]%lookup_delete_Some [_ ?]%lookup_delete_Some. by apply Hun.
  - intros i a [_ ?]%lookup_delete_Some. by apply (Hacc i).
  - intros i a [Hne Ha]%lookup_delete_Some Hg. apply without_spec. split; [done|by apply (Hgood i a)].
  - intros s i Hs. rewrite ids_of_fmap by done. rewrite without_spec, (Hpe s i Hs). split.
    + intros [Hne (a & Ha & Hh)]. exists a. split; [|done]. by apply lookup_delete_Some.
    + intros (a & [Hne Ha]%lookup_delete_Some & Hh). split; [done|by exists a].
  - intros s i. rewrite !ids_of_fmap by done. rewrite !without_spec.
    intros [[Hne Hi]|[Hne Hi]]; (rewrite lookup_delete_ne by done; apply (Hk s); auto).
  - intros s. rewrite !ids_of_fmap by done. destruct (Hn s). split; by apply without_nodup.
Qed.

Lemma forgets_inv ids : forall am, am_inv am -> am_inv (foldl forget am ids).
Proof. induction ids as [|id ids IH]; intros am Hi; [done|]. by apply IH, forget_inv. Qed.

(** Replacing the address [idx] by one with the same place and services. *)
Definition same_peer (a b : LocalAddress) : Prop :=
  la_id b = la_id a /\ la_address b = la_address a /\ la_services b = la_services a.

Lemma same_peer_routable a b : la_address b = la_address a -> is_routable b = is_routable a.
Proof. intros E. unfold is_routable. by rewrite E. Qed.

Lemma alter_inv am f idx l gp : am_inv am ->
  (forall a, addresses am !! idx = Some a -> same_peer a (f a)) ->
  (forall id, id <> idx -> id ∈ good_addresses am -> id ∈ l) ->
  (forall a, addresses am !! idx = Some a -> is_good_address (f a) = true -> idx ∈ l) ->
  (forall s, NoDup (ids_of s gp) /\ forall id, id ∈ ids_of s gp -> id ∈ ids_of s (good_peers_by_service am)) ->
  am_inv (mkAddressMan (alter f idx (addresses am)) l gp (peers_by_service am) (max_size am) (reachable_networks am)).
Proof.
  intros [Hid Hun Hacc Hgood Hpe Hk Hn] Hf Hkeep Hidx Hgp.
  assert (Hlk : forall id b, alter f idx (addresses am) !! id = Some b ->
    exists a, addresses am !! id = Some a /\ same_peer a b).
  { intros id b [(<- & a & Ha & ->)|[_ Hb]]%lookup_alter_Some; [exists a; auto|exists b; by split_and!]. }
  split; cbn.
  - intros id b (a & Ha & -> & _)%Hlk. by apply Hid.
  - intros i j b1 b2 (a1 & Ha1 & _ & E1 & _)%Hlk (a2 & Ha2 & _ & E2 & _)%Hlk E. apply (Hun i j a1 a2 Ha1 Ha2). congruence.
  - intros id b (a & Ha & _ & E & Es)%Hlk. destruct (Hacc id a Ha) as (H1 & H2 & H3 & H4).
    rewrite Es, (same_peer_routable a b E). split_and!; try done. unfold is_net_reachable in *. by rewrite E.
  - intros id b [(<- & a & Ha & ->)|[Hne Hb]]%lookup_alter_Some Hg; [by apply (Hidx a)|].
    apply Hkeep; [done|by apply (Hgood id b)].
  - intros s id Hs. rewrite (Hpe s id Hs). split.
    + intros (a & Ha & Hh). destruct (decide (idx = id)) as [<-|Hne].
      * exists (f a). rewrite lookup_alter_eq, Ha. split; [done|]. by destruct (Hf a Ha) as (_ & _ & ->).
      * exists a. by rewrite lookup_alter_ne.
    + intros (b & (a & Ha & _ & _ & Es)%Hlk & Hh). exists a. by rewrite <-Es.
  - intros s id Hi. apply lookup_alter_is_Some, (Hk s). destruct Hi as [?|?]; [by left|right]. by apply Hgp.
  - intros s. split; [apply Hn|apply Hgp].
Qed.

Lemma keep_lists am : am_inv am -> forall s, NoDup (ids_of s (good_peers_by_service am)) /\
  forall id, id ∈ ids_of s (good_peers_by_service am) -> id ∈ ids_of s (good_peers_by_service am).
Proof. intros Hi s. split; [apply (ai_nodup am Hi)|done]. Qed.

Lemma push_good_spec idx am :
  push_good idx am = set_good (good_addresses (push_good idx am)) am /\
  (forall id, id ∈ good_addresses (push_good idx am) <-> id ∈ good_addresses am \/ id = idx).
Proof.
  unfold push_good. case_bool_decide as Hin; cbn.
  - split_and!; [by destruct am|]. intros id. split; [by left|]. by intros [?| ->].
  - split_and!; [done|]. intros id. by rewrite elem_of_app, list_elem_of_singleton.
Qed.

(** The state of an address, with its id in the list of good ones or not. *)
Lemma lose_good_inv am f idx : am_inv am -> (forall a, same_peer a (f a)) ->
  (forall a, is_good_address (f a) = false) ->
  am_inv (set_good (without idx (good_addresses am)) (set_addresses (alter f idx (addresses am)) am)).
Proof.
  intros Hi Hf Hb. unfold set_good, set_addresses. cbn. apply alter_inv; [done|by auto| | |by apply keep_lists].
  - intros id Hne Hin. by apply without_spec.
  - intros a _ Hg. by rewrite Hb in Hg.
Qed.

Lemma gain_good_inv am f idx services : am_inv am -> (forall a, same_peer a (f a)) ->
  am_inv (push_services services idx (push_good idx (set_addresses (alter f idx (addresses am)) am))).
Proof.
  intros Hi Hf. set (am1 := set_addresses _ am).
  destruct (push_good_spec idx am1) as (E & Hin).
  assert (H1 : am_inv (push_good idx am1)).
  { rewrite E. unfold set_good, am1, set_addresses in *. cbn in *. apply alter_inv; [done|by auto| | |by apply keep_lists].
    - intros id _ Hx. apply Hin. by left.
    - intros a _ _. apply Hin. by right. }
  unfold push_services. destruct (addresses (push_good idx am1) !! idx) as [a|] eqn:Ea; [|done].
  apply push_services_inv; [done|]. by rewrite (ai_id _ H1 idx a Ea).
Qed.

Lemma update_set_state_inv now idx state am : am_inv am -> am_inv (update_set_state now idx state am).
Proof.
  intros Hi. unfold update_set_state. destruct state as [|t|t| |t].
  - apply (lose_good_inv am); [done|done|]. intros a. unfold is_good_address. by destruct (is_routable _).
  - by apply (gain_good_inv am).
  - apply (lose_good_inv am); [done|done|]. intros a. unfold is_good_address. by destruct (is_routable _).
  - cbn. change (set_addresses (alter (set_last_connected now) idx (alter (set_state Connected) idx (addresses am)))
      (set_addresses (alter (set_state Connected) idx (addresses am)) am)) with
      (set_addresses (alter (set_last_connected now) idx (alter (set_state Connected) idx (addresses am))) am).
    rewrite alter_alter_eq. by apply (gain_good_inv am).
  - cbn. unfold set_good_peers, set_good, set_addresses. cbn. apply (alter_inv am); [done|done| | |].
    + intros id Hne Hin. by apply without_spec.
    + intros a _. unfold is_good_address. by destruct (is_routable _).
    + intros s. rewrite ids_of_fmap by done. split; [apply without_nodup, (ai_nodup am Hi)|].
      by intros id [_ ?]%without_spec.
Qed.

(** ** Service flags *)

Lemma update_peer_spec idx service am a : addresses am !! idx = Some a ->
  let am' := update_peer_for_service idx service am in
  am' = set_peers (peers_by_service am') am /\
  (forall s id, id ∈ ids_of s (peers_by_service am') <->
     if decide (s = service /\ id = idx) then has (la_services a) service = true else id ∈ ids_of s (peers_by_service am)) /\
  ((forall s, NoDup (ids_of s (peers_by_service am))) -> forall s, NoDup (ids_of s (peers_by_service am'))).
Proof.
  intros Ha. cbn zeta. unfold update_peer_for_service. rewrite Ha. destruct (has (la_services a) service) eqn:Eh.
  - assert (Eadd : add_peer_to_service idx service am =
      set_peers (peers_by_service (add_peer_to_service idx service am)) am /\
      forall s, ids_of s (peers_by_service (add_peer_to_service idx service am)) =
        ids_of s (push_id true service idx (peers_by_service am))).
    { unfold add_peer_to_service. destruct (peers_by_service am !! service) as [peers|] eqn:Ep.
      - case_bool_decide as Hin; cbn; (split; [by destruct am|]); intros s; rewrite ids_of_push; unfold ids_of; rewrite Ep;
          cbn [default]; case_decide as Hs; subst; rewrite ?bool_decide_eq_true_2, ?bool_decide_eq_false_2 by done;
          rewrite ?Ep, ?lookup_insert_eq, ?lookup_insert_ne by done; done.
      - cbn. split; [by destruct am|]. intros s. rewrite ids_of_push. unfold ids_of. rewrite Ep. cbn [default].
        case_decide as Hs; [subst; by rewrite lookup_insert_eq|by rewrite lookup_insert_ne]. }
    destruct Eadd as [E1 E2]. split_and!; [done| |].
    + intros s id. rewrite E2, elem_of_push. case_decide as Hd; [by destruct Hd as [-> ->]; split; [|right]|].
      split; [|by left]. intros [?|(-> & -> & _)]; [done|]. by destruct Hd.
    + intros Hn s. rewrite E2. by apply nodup_push.
  - unfold remove_peer_from_service. cbn. split_and!; [done| |].
    + intros s id. rewrite ids_of_alter by done. case_decide as Hs.
      * subst s. rewrite without_spec. case_decide as Hd; [destruct Hd as [_ ->]; split; [by intros [? _]|done]|].
        split; [by intros [_ ?]|]. intros Hin. split; [|done]. intros ->. by destruct Hd.
      * rewrite decide_False; [done|]. by intros [? _].
    + intros Hn s. rewrite ids_of_alter by done. case_decide; [by apply without_nodup|done].
Qed.

Lemma update_set_service_flag_inv idx flags am : am_inv am -> am_inv (update_set_service_flag idx flags am).
Proof.
  intros Hi. unfold update_set_service_flag. destruct (has flags NETWORK_LIMITED) eqn:E1; [|by apply forget_inv].
  destruct (has flags WITNESS) eqn:E2; [|by apply forget_inv]. cbn [negb orb]. unfold update_peer_services_buckets.
  set (am0 := set_addresses _ am). destruct (addresses am !! idx) as [a|] eqn:Ea.
  2:{ assert (am0 = am) as ->; [|unfold update_peer_for_service; rewrite Ea; by rewrite Ea].
      unfold am0, set_addresses. rewrite alter_id; [by destruct am|]. intros x Hx. congruence. }
  set (b := set_services flags a). assert (Eb : addresses am0 !! idx = Some b) by (cbn; by rewrite lookup_alter_eq, Ea).
  destruct (update_peer_spec idx UTREEXO am0 b Eb) as (Eu & Hu & Hun). set (am1 := update_peer_for_service idx UTREEXO am0) in *.
  assert (Eb1 : addresses am1 !! idx = Some b) by (by rewrite Eu).
  destruct (update_peer_spec idx COMPACT_FILTERS am1 b Eb1) as (Ec & Hc & Hcn). rewrite Ec. rewrite Eu at 2.
  set (peers := peers_by_service (update_peer_for_service idx COMPACT_FILTERS am1)) in *.
  destruct Hi as [Hid Huq Hacc Hgood Hpe Hk Hn].
  assert (Hlk : forall id x, alter (set_services flags) idx (addresses am) !! id = Some x ->
    exists y, addresses am !! id = Some y /\ la_id x = la_id y /\ la_address x = la_address y /\ la_state x = la_state y).
  { intros id x [(<- & y & Hy & ->)|[_ Hy]]%lookup_alter_Some; by eexists. }
  unfold set_peers, am0, set_addresses. cbn. split; cbn.
  - intros id x (y & Hy & -> & _)%Hlk. by apply Hid.
  - intros i j x1 x2 (y1 & Hy1 & _ & E3 & _)%Hlk (y2 & Hy2 & _ & E4 & _)%Hlk E. apply (Huq i j y1 y2 Hy1 Hy2). congruence.
  - intros id x [(<- & y & Hy & ->)|[_ Hy]]%lookup_alter_Some; [|by apply (Hacc id)].
    destruct (Hacc idx y Hy) as (_ & _ & H3 & H4). by split_and!.
  - intros id x (y & Hy & _ & E3 & E4)%Hlk Hg. apply (Hgood id y Hy). unfold is_good_address in *.
    by rewrite <-(same_peer_routable y x E3), <-E4.
  - intros s id Hs.
    assert (Hold : s = NONE \/ id <> idx -> id ∈ ids_of s (peers_by_service am) <->
      exists x, alter (set_services flags) idx (addresses am) !! id = Some x /\ has (la_services x) s = true).
    { intros Hcase. rewrite (Hpe s id Hs). destruct (decide (id = idx)) as [->|Hne].
      - destruct Hcase as [->|?]; [|done]. rewrite lookup_alter_eq, Ea. split; intros _.
        + exists b. by rewrite has_none.
        + exists a. by rewrite has_none.
      - by rewrite lookup_alter_ne. }
    assert (Hnew : id = idx -> has (la_services b) s = true <->
      exists x, alter (set_services flags) idx (addresses am) !! id = Some x /\ has (la_services x) s = true).
    { intros ->. rewrite lookup_alter_eq, Ea. cbn. split; [by exists b|]. by intros (x & [= <-] & Hx). }
    rewrite Hc. case_decide as Hd; [destruct Hd as [-> Hd]; by apply Hnew|].
    rewrite Hu. case_decide as Hd2; [destruct Hd2 as [-> Hd2]; by apply Hnew|]. apply Hold.
    destruct (decide (id = idx)) as [->|]; [left|by right].
    apply elem_of_cons in Hs as [->|Hs]; [by destruct Hd2|]. apply elem_of_cons in Hs as [->|Hs]; [done|].
    apply list_elem_of_singleton in Hs as ->. by destruct Hd.
  - intros s id Hin. apply lookup_alter_is_Some. destruct Hin as [Hin|Hin]; [|by apply (Hk s); right].
    rewrite Hc in Hin. case_decide as Hd; [destruct Hd as [_ ->]; by rewrite Ea|].
    rewrite Hu in Hin. case_decide as Hd2; [destruct Hd2 as [_ ->]; by rewrite Ea|]. apply (Hk s). by left.
  - intros s. split; [|apply Hn]. apply Hcn, Hun. intros s'. apply (Hn s').
Qed.
