(* ===== verification/AddressManRuns.v ===== *)
(** Runs of the address manager: accepting, pruning and expiring addresses,
    choosing the next peer, and the files that survive a restart. *)

From stdpp Require Import base gmap list strings fin_maps.
From Stdlib Require Import ZArith Lia Sorted.
From S2P Require Import Prelude Bitcoin Codec Text Onion SocketAddr AddressMan AddressManFacts.

(** * Accepting addresses *)

(** What [push_if_has_service] adds for a list of services. *)
Lemma pushed_lists services a : forall am,
  let am' := foldl (fun am s => push_if_has_service a s am) am services in
  addresses am' = addresses am /\ good_addresses am' = good_addresses am /\ max_size am' = max_size am /\
  reachable_networks am' = reachable_networks am /\
  (forall s id, id ∈ ids_of s (peers_by_service am') <->
     id ∈ ids_of s (peers_by_service am) \/ (s ∈ services /\ id = la_id a /\ has (la_services a) s = true)) /\
  (forall s id, id ∈ ids_of s (good_peers_by_service am') ->
     id ∈ ids_of s (good_peers_by_service am) \/ id = la_id a) /\
  ((forall s, NoDup (ids_of s (peers_by_service am)) /\ NoDup (ids_of s (good_peers_by_service am))) ->
   forall s, NoDup (ids_of s (peers_by_service am')) /\ NoDup (ids_of s (good_peers_by_service am'))).
Proof.
  induction services as [|sv services IH]; intros am; cbn [foldl].
  { split_and!; try done; [|by left]. intros s id. split; [by left|]. by intros [?|(?%not_elem_of_nil & _)]. }
  destruct (IH (push_if_has_service a sv am)) as (E1 & E2 & E3 & E4 & Hp & Hg & Hn).
  destruct (push_service_addresses a sv am) as (F1 & F2 & F3 & F4).
  split_and!; try congruence.
  - intros s id. rewrite Hp, elem_of_cons. unfold push_if_has_service. destruct (has (la_services a) sv) eqn:Eh; cbn.
    + rewrite elem_of_push. split; [intros [[?|(<- & -> & _)]|(? & -> & ?)]; auto 6|].
      intros [?|([->|?] & -> & ?)]; auto 6.
    + split; [intros [?|(? & -> & ?)]; auto 6|]. intros [?|([->|?] & -> & ?)]; [auto| |auto 6]. congruence.
  - intros s id [Hin|Hin]%Hg; [|by right]. unfold push_if_has_service in Hin.
    destruct (has (la_services a) sv); cbn in Hin; [|by left]. apply elem_of_push in Hin as [?|(_ & ? & _)]; auto.
  - intros Hnd. apply Hn. unfold push_if_has_service. destruct (has (la_services a) sv); cbn; [|done].
    intros s. destruct (Hnd s). split; by apply nodup_push.
Qed.

(** An address that [push_addresses] keeps. *)
Definition acceptable (am : AddressMan) (a : LocalAddress) : Prop :=
  has (la_services a) WITNESS = true /\ has (la_services a) NETWORK_LIMITED = true /\
  is_net_reachable am a = true /\ is_routable a = true /\
  (forall i x, addresses am !! i = Some x -> la_address x <> la_address a) /\ addresses am !! la_id a = None.

Lemma push_address_spec am a :
  (acceptable am a /\ addresses (push_address am a) = <[la_id a := a]> (addresses am) \/
   ~ acceptable am a /\ push_address am a = am) /\
  max_size (push_address am a) = max_size am /\ reachable_networks (push_address am a) = reachable_networks am.
Proof.
  unfold push_address, acceptable. destruct (has (la_services a) WITNESS); [|split; [by right; split; [intros [? _]|]|done]].
  destruct (has (la_services a) NETWORK_LIMITED); [|split; [by right; split; [intros (_ & ? & _)|]|done]].
  destruct (is_net_reachable am a); [|split; [by right; split; [intros (_ & _ & ? & _)|]|done]].
  destruct (is_routable a); [|split; [by right; split; [intros (_ & _ & _ & ? & _)|]|done]]. cbn [negb orb].
  case_bool_decide as Hdup.
  { split; [right; split; [|done]|done]. intros (_ & _ & _ & _ & Hu & _). destruct Hdup as (i & x & Hx & E). by apply (Hu i x). }
  destruct (addresses am !! la_id a) as [y|] eqn:Ey.
  { split; [right; split; [|done]|done]. by intros (_ & _ & _ & _ & _ & ?). }
  set (am1 := if is_good_address a then _ else _).
  destruct (pushed_lists indexed a am1) as (E1 & _ & E3 & E4 & _). cbn [foldl indexed] in E1, E3, E4.
  assert (Hm : addresses am1 = <[la_id a := a]> (addresses am) /\ max_size am1 = max_size am /\
    reachable_networks am1 = reachable_networks am) by (unfold am1; by destruct (is_good_address a)).
  destruct Hm as (M1 & M2 & M3). split; [left; split|split; congruence].
  - split_and!; try done. intros i x Hx E. apply Hdup. by exists i, x.
  - congruence.
Qed.

Lemma push_address_inv am a : am_inv am -> am_inv (push_address am a).
Proof.
  intros Hi. destruct (push_address_spec am a) as [[[Hacc Em]|[_ ->]] [_ Er]]; [|done].
  pose proof Hacc as (A1 & A2 & A3 & A4 & A5 & A6). revert Em Er. unfold push_address. rewrite A1, A2, A3, A4. cbn [negb orb].
  rewrite bool_decide_eq_false_2 by (intros (i & x & Hx & E); by apply (A5 i x)). rewrite A6.
  set (am1 := if is_good_address a then _ else _). fold (foldl (fun am s => push_if_has_service a s am) am1 indexed).
  intros Em Er. destruct (pushed_lists indexed a am1) as (_ & E2 & _ & _ & Hp & Hg & Hn).
  cbn [foldl indexed] in *. set (am2 := push_if_has_service a COMPACT_FILTERS _) in *.
  assert (P1 : peers_by_service am1 = peers_by_service am /\ good_peers_by_service am1 = good_peers_by_service am)
    by (unfold am1; by destruct (is_good_address a)). destruct P1 as [P1 P2]. rewrite P1 in *. rewrite P2 in *.
  destruct Hi as [Hid Hun Hac Hgood Hpe Hk Hnd].
  assert (Hga : (forall id, id ∈ good_addresses am1 <-> id ∈ good_addresses am \/ (id = la_id a /\ is_good_address a = true))).
  { intros id. unfold am1. destruct (is_good_address a); cbn.
    - rewrite elem_of_app, list_elem_of_singleton. intuition.
    - intuition congruence. }
  assert (Hlk : forall id x, addresses am2 !! id = Some x ->
    (id = la_id a /\ x = a) \/ (id <> la_id a /\ addresses am !! id = Some x)).
  { intros id x. rewrite Em. intros [[<- <-]|[? ?]]%lookup_insert_Some; auto. }
  split.
  - intros id x [[-> ->]|[_ ?]]%Hlk; [done|by apply Hid].
  - intros i j x y [[-> ->]|[_ Hx]]%Hlk [[-> ->]|[_ Hy]]%Hlk E; [done|by destruct (A5 j y)|by destruct (A5 i x)|by apply (Hun i j x y)].
  - intros id x [[-> ->]|[_ Hx]]%Hlk; unfold is_net_reachable in *; rewrite Er; [done|by apply (Hac id)].
  - intros id x [[-> ->]|[_ Hx]]%Hlk Hgx; rewrite E2; apply Hga; [by right|left]. by apply (Hgood id x).
  - intros s id Hs. rewrite Hp, (Hpe s id Hs), Em. split.
    + intros [(x & Hx & Hh)|(_ & -> & Hh)]; [|exists a; by rewrite lookup_insert_eq].
      exists x. rewrite lookup_insert_ne; [done|]. intros <-. congruence.
    + intros (x & [[<- <-]|[Hne Hx]]%lookup_insert_Some & Hh); [by right|left; by exists x].
  - intros s id Hin. rewrite Em, lookup_insert_is_Some'. destruct Hin as [Hin|Hin].
    + apply Hp in Hin as [Hin|(_ & -> & _)]; [right; apply (Hk s); by left|by left].
    + apply Hg in Hin as [Hin| ->]; [right; apply (Hk s); by right|by left].
  - by apply Hn.
Qed.

Lemma push_all_inv l : forall am, am_inv am -> am_inv (foldl push_address am l).
Proof. induction l as [|a l IH]; intros am Hi; cbn; [done|]. by apply IH, push_address_inv. Qed.

Lemma push_all_same l : forall am, max_size (foldl push_address am l) = max_size am /\
  reachable_networks (foldl push_address am l) = reachable_networks am.
Proof.
  induction l as [|a l IH]; intros am; cbn; [done|]. destruct (push_address_spec am a) as [_ [E1 E2]].
  destruct (IH (push_address am a)) as [-> ->]. done.
Qed.

Lemma push_address_grows am a : addresses am ⊆ addresses (push_address am a).
Proof.
  destruct (push_address_spec am a) as [[[(_ & _ & _ & _ & _ & Hn) ->]|[_ ->]] _]; [by apply insert_subseteq|done].
Qed.
Lemma push_all_grows l : forall am, addresses am ⊆ addresses (foldl push_address am l).
Proof.
  induction l as [|a l IH]; intros am; cbn; [done|]. etransitivity; [apply push_address_grows|apply IH].
Qed.

(** An address with the services and in a network of the node is known
    afterwards, unless its id is taken. *)
Definition wanted (am : AddressMan) (a : LocalAddress) : Prop :=
  has (la_services a) WITNESS = true /\ has (la_services a) NETWORK_LIMITED = true /\
  is_net_reachable am a = true /\ is_routable a = true.

Lemma push_all_known l : forall am a, a ∈ l -> wanted am a ->
  exists i x, addresses (foldl push_address am l) !! i = Some x /\ (la_address x = la_address a \/ i = la_id a).
Proof.
  induction l as [|b l IH]; intros am a Hin Hw; [by apply not_elem_of_nil in Hin|]. cbn [foldl].
  destruct (push_address_spec am b) as [Hpush [_ Er]].
  apply elem_of_cons in Hin as [->|Hin].
  - assert (Hx : exists i x, addresses (push_address am b) !! i = Some x /\ (la_address x = la_address b \/ i = la_id b)).
    { destruct Hpush as [[_ ->]|[Hno ->]]; [exists (la_id b), b; rewrite lookup_insert_eq; auto|].
      destruct (addresses am !! la_id b) as [y|] eqn:Ey; [exists (la_id b), y; auto|].
      destruct (decide (map_Exists (fun _ x => la_address x = la_address b) (addresses am))) as [(i & x & Hx & E)|Hall].
      - exists i, x. auto.
      - destruct Hno. destruct Hw as (H1 & H2 & H3 & H4). split_and!; try done.
        intros i x Hx E. apply Hall. by exists i, x. }
    destruct Hx as (i & x & Hx & E). exists i, x. split; [|done]. by apply (lookup_weaken _ _ _ _ Hx), push_all_grows.
  - apply IH; [done|]. unfold wanted, is_net_reachable in *. by rewrite Er.
Qed.

(** Every address that is known afterwards was known or is one of the list. *)
Lemma push_all_known_from l : forall am i x, addresses (foldl push_address am l) !! i = Some x ->
  addresses am !! i = Some x \/ (x ∈ l /\ la_id x = i /\ wanted am x).
Proof.
  induction l as [|a l IH]; intros am i x Hx; [by left|]. cbn [foldl] in Hx.
  destruct (push_address_spec am a) as [Hpush [_ Er]]. apply IH in Hx as [Hx|(Hin & Hid & Hw)].
  - destruct Hpush as [[(A1 & A2 & A3 & A4 & _) E]|[_ E]]; rewrite E in Hx; [|by left].
    apply lookup_insert_Some in Hx as [[<- <-]|[_ Hx]]; [right; by split; [left|]|by left].
  - right. split_and!; [by right|done|]. unfold wanted, is_net_reachable in *. by rewrite Er in Hw.
Qed.

(** * Pruning *)

Definition order_ok (order : Order) : Prop := forall m, order m ≡ₚ (map_to_list m).*1.

Definition older (x y : Z * Z) : Prop := x.2 <= y.2.

Lemma insert_by_time_spec x l : insert_by_time x l ≡ₚ x :: l /\
  (StronglySorted older l -> StronglySorted older (insert_by_time x l)).
Proof.
  induction l as [|y l [IH1 IH2]]; cbn [insert_by_time]; [split; [done|intros _; by repeat constructor]|].
  destruct (Z.leb_spec x.2 y.2) as [Hle|Hgt].
  - split; [done|]. intros Hs. pose proof Hs as [Hl Hy]%StronglySorted_inv. constructor; [done|]. constructor; [done|].
    eapply Forall_impl; [exact Hy|]. unfold older. intros z. cbn. lia.
  - split; [rewrite IH1; apply perm_swap|]. intros [Hl Hy]%StronglySorted_inv. constructor; [by apply IH2|].
    rewrite IH1. constructor; [unfold older; lia|done].
Qed.

Lemma sort_by_time_spec l : sort_by_time l ≡ₚ l /\ StronglySorted older (sort_by_time l).
Proof.
  induction l as [|x l [IH1 IH2]]; cbn; [by split; [|constructor]|]. fold (sort_by_time l).
  destruct (insert_by_time_spec x (sort_by_time l)) as [H1 H2]. split; [by rewrite H1, IH1|by apply H2].
Qed.

Lemma sorted_split (l1 l2 : list (Z * Z)) : StronglySorted older (l1 ++ l2) ->
  forall x y, x ∈ l1 -> y ∈ l2 -> older x y.
Proof.
  induction l1 as [|a l1 IH]; intros Hs x y Hx Hy; [by apply not_elem_of_nil in Hx|].
  cbn in Hs. apply StronglySorted_inv in Hs as [Hs Ha]. apply elem_of_cons in Hx as [->|Hx]; [|by apply IH].
  rewrite Forall_forall in Ha. apply Ha, elem_of_app. by right.
Qed.

(** The times of the stored addresses, in the order of the map. *)
Lemma oldest_perm order m : order_ok order ->
  omap (fun id => a ← m !! id; Some (id, last_connected a)) (order m) ≡ₚ
  (fun p => (p.1, last_connected p.2)) <$> map_to_list m.
Proof.
  intros Ho. rewrite (Ho m). assert (Hin : forall p, p ∈ map_to_list m -> m !! p.1 = Some p.2).
  { by intros [i a] Hi%elem_of_map_to_list. }
  induction (map_to_list m) as [|p l IH]; [done|]. cbn. rewrite (Hin p) by (by left). cbn.
  constructor. apply IH. intros q Hq. apply Hin. by right.
Qed.

Lemma forgets_lookup ids : forall am i, addresses (foldl forget am ids) !! i =
  if decide (i ∈ ids) then None else addresses am !! i.
Proof.
  induction ids as [|x ids IH]; intros am i; cbn [foldl]; [by rewrite decide_False by apply not_elem_of_nil|].
  rewrite IH. cbn. destruct (decide (i ∈ ids)) as [Hi|Hi]; [by rewrite decide_True by (by right)|].
  destruct (decide (i = x)) as [->|Hne].
  - rewrite decide_True by (by left). apply lookup_delete_eq.
  - rewrite decide_False; [by apply lookup_delete_ne|]. by intros [?|?]%elem_of_cons.
Qed.

Lemma forgets_size ids : forall am, NoDup ids -> (forall i, i ∈ ids -> is_Some (addresses am !! i)) ->
  size (addresses (foldl forget am ids)) = (size (addresses am) - length ids)%nat.
Proof.
  induction ids as [|x ids IH]; intros am Hn Hin; cbn [foldl length]; [lia|]. apply NoDup_cons in Hn as [Hx Hn].
  rewrite IH; [|done|].
  - cbn. rewrite map_size_delete_Some by (apply Hin; by left). lia.
  - intros i Hi. cbn. rewrite lookup_delete_ne; [apply Hin; by right|]. by intros ->.
Qed.

Lemma forgets_same ids : forall am, max_size (foldl forget am ids) = max_size am /\
  reachable_networks (foldl forget am ids) = reachable_networks am.
Proof. induction ids as [|x ids IH]; intros am; cbn [foldl]; [done|]. by destruct (IH (forget am x)) as [-> ->]. Qed.

Lemma take_elem {A} n (l : list A) x : x ∈ take n l -> x ∈ l.
Proof. intros Hx. rewrite <-(take_drop n l), elem_of_app. by left. Qed.

Lemma prune_spec order am : order_ok order ->
  let am' := prune_addresses order am in
  max_size am' = max_size am /\ reachable_networks am' = reachable_networks am /\
  addresses am' ⊆ addresses am /\ size (addresses am') = (size (addresses am) `min` max_size am)%nat /\
  (forall i a, addresses am !! i = Some a -> addresses am' !! i = None ->
   forall j b, addresses am' !! j = Some b -> last_connected a <= last_connected b).
Proof.
  intros Ho. cbn zeta. unfold prune_addresses. set (excess := (size (addresses am) - max_size am)%nat).
  destruct (Nat.eqb_spec excess 0) as [E0|E0]; [split_and!; try done; [lia|congruence]|].
  set (l := omap _ _). destruct (sort_by_time_spec l) as [Hp Hs]. set (sorted := sort_by_time l) in *.
  pose proof (oldest_perm order (addresses am) Ho) as Hl. fold l in Hl. rewrite Hl in Hp.
  assert (Hmem : forall i t, (i, t) ∈ sorted <-> exists a, addresses am !! i = Some a /\ last_connected a = t).
  { intros i t. rewrite Hp, list_elem_of_fmap. split.
    - intros ([k a] & [= -> ->] & Hk%elem_of_map_to_list). by exists a.
    - intros (a & Ha & <-). exists (i, a). by rewrite elem_of_map_to_list. }
  assert (Hids : NoDup sorted.*1).
  { rewrite Hp, <-list_fmap_compose. apply NoDup_fst_map_to_list. }
  assert (Hlen : length sorted = size (addresses am)) by (by rewrite Hp, length_fmap, length_map_to_list).
  set (ids := (take excess sorted).*1). destruct (forgets_same ids am) as [S1 S2]. split_and!; [done|done|..].
  - apply map_subseteq_spec. intros i a. rewrite forgets_lookup. by case_decide.
  - rewrite forgets_size.
    + unfold ids. rewrite length_fmap, length_take, Hlen. lia.
    + unfold ids. rewrite fmap_take. rewrite <-(take_drop excess sorted.*1) in Hids. by apply NoDup_app in Hids as [? _].
    + intros i [[k t] [-> Hk]]%list_elem_of_fmap. apply take_elem in Hk.
      apply Hmem in Hk as (a & Ha & _). by exists a.
  - intros i a Ha Hnone j b Hb. rewrite forgets_lookup in Hnone, Hb.
    destruct (decide (i ∈ ids)) as [Hi|]; [|congruence]. destruct (decide (j ∈ ids)) as [|Hj]; [done|].
    apply list_elem_of_fmap in Hi as [[k t] [-> Hk]].
    assert (Ht : t = last_connected a).
    { pose proof (take_elem _ _ _ Hk) as Hn. apply Hmem in Hn as (a' & Ha' & <-). cbn in *. congruence. }
    assert (Hjs : (j, last_connected b) ∈ sorted) by (apply Hmem; by exists b).
    rewrite <-(take_drop excess sorted), elem_of_app in Hjs. destruct Hjs as [Hjs|Hjs].
    { destruct Hj. apply list_elem_of_fmap. by exists (j, last_connected b). }
    subst t. rewrite <-(take_drop excess sorted) in Hs. apply (sorted_split _ _ Hs _ _ Hk Hjs).
Qed.

Lemma prune_inv order am : am_inv am -> am_inv (prune_addresses order am).
Proof. intros Hi. unfold prune_addresses. destruct (_ =? 0)%nat; [done|]. by apply forgets_inv. Qed.

Lemma push_addresses_inv order l am : am_inv am -> am_inv (push_addresses order l am).
Proof. intros Hi. by apply prune_inv, push_all_inv. Qed.

(** push_addresses keeps what was known and adds every address of the list that has the
    minimum services, is routable and in a reachable network (unless its host or id is
    known already) and no other; then it keeps as many addresses as the maximum allows,
    and every one that is pruned was last seen no later than every one that is kept. *)
Theorem push_addresses_keeps_recent (order : Order) (l : list LocalAddress) (am : AddressMan)
  (Horder : order_ok order) :
  let known := addresses (foldl push_address am l) in
  let kept := addresses (push_addresses order l am) in
  addresses am ⊆ known /\
  (forall a, a ∈ l -> wanted am a ->
    exists i x, known !! i = Some x /\ (la_address x = la_address a \/ i = la_id a)) /\
  (forall i x, known !! i = Some x -> addresses am !! i = Some x \/ (x ∈ l /\ la_id x = i /\ wanted am x)) /\
  kept ⊆ known /\ size kept = (size known `min` max_size am)%nat /\
  (forall i a j b, known !! i = Some a -> kept !! i = None -> kept !! j = Some b ->
    last_connected a <= last_connected b).
Proof.
  cbn zeta. unfold push_addresses. destruct (prune_spec order (foldl push_address am l) Horder) as (_ & _ & Hsub & Hsize & Hold).
  destruct (push_all_same l am) as [Em _]. rewrite Em in Hsize.
  split_and!; [apply push_all_grows|intros a; apply push_all_known| |done|done|intros i a j b H1 H2 H3; by apply (Hold i a H1 H2 j b)].
  intros i x. apply push_all_known_from.
Qed.

(** * Expiring information *)

(** No time is so late that adding to it overflows. *)
Definition times_ok (am : AddressMan) : Prop := forall id a, addresses am !! id = Some a ->
  match la_state a with Tried t | Failed t => t + ASSUME_STALE <= u64_max | _ => True end.

(** The state of an address after a call at time [now]. *)
Definition expired (now : Z) (a : LocalAddress) : LocalAddress :=
  let old := match la_state a with
             | Banned t => t <? now
             | Tried t | Failed t => t + ASSUME_STALE <? now
             | _ => false
             end in
  if old then set_state NeverTried a else a.

Lemma expire_ok now a : (match la_state a with Tried t | Failed t => t + ASSUME_STALE <= u64_max | _ => True end) ->
  expire now a = Ok (expired now a).
Proof.
  unfold expire, expired, u64_add. destruct (la_state a) as [|t|t| |t] eqn:Es; intros Ht; try done.
  - rewrite (proj2 (Z.leb_le _ _)) by done. cbn. by destruct (_ <? now).
  - rewrite (proj2 (Z.leb_le _ _)) by done. cbn. by destruct (_ <? now).
Qed.

Lemma expired_peer now a : same_peer a (expired now a).
Proof. unfold expired. by destruct (la_state a); try destruct (_ <? now). Qed.

Lemma expired_twice now a : expired now (expired now a) = expired now a.
Proof.
  unfold expired at 2 3. set (old := match la_state a with Banned _ => _ | _ => _ end). destruct old eqn:E; [done|].
  unfold expired. fold old. by rewrite E.
Qed.

Lemma expired_good now a : is_good_address (expired now a) = true -> is_good_address a = true.
Proof.
  unfold is_good_address. destruct (expired_peer now a) as (_ & E & _). rewrite (same_peer_routable a _ E).
  destruct (is_routable a); [|done]. unfold expired. destruct (la_state a) as [|t|t| |t] eqn:Es; cbn; rewrite ?Es; try done.
  - by destruct (t <? now); cbn; rewrite ?Es.
  - by destruct (t + ASSUME_STALE <? now); cbn; rewrite ?Es.
Qed.

Lemma expire_expired now a a' : expire now a = Ok a' -> a' = expired now a.
Proof.
  unfold expire, expired, u64_add. destruct (la_state a) as [|t|t| |t]; cbn; try destruct (t + _ <=? _); cbn; try done;
    try destruct (_ <? now); by intros [= <-].
Qed.

Lemma expired_insert now x a (m : gmap Z LocalAddress) : m !! x = Some a -> <[x := expired now a]> m = alter (expired now) x m.
Proof.
  intros Ea. apply map_eq. intros i. destruct (decide (i = x)) as [->|]; [by rewrite lookup_insert_eq, lookup_alter_eq, Ea|].
  by rewrite lookup_insert_ne, lookup_alter_ne.
Qed.

Lemma expired_inv now x am : am_inv am -> am_inv (set_addresses (alter (expired now) x (addresses am)) am).
Proof.
  intros Hi. apply alter_inv; [done|intros b _; apply expired_peer|done| |by apply keep_lists].
  intros b Hb Hg%expired_good. by apply (ai_good am Hi x b).
Qed.

Lemma expire_all_ok now ids : forall am, am_inv am -> times_ok am ->
  exists am', expire_all now ids am = (Ok tt, am') /\ am_inv am' /\ times_ok am' /\
    max_size am' = max_size am /\ reachable_networks am' = reachable_networks am /\
    forall id, addresses am' !! id = (if decide (id ∈ ids) then expired now else fun a => a) <$> addresses am !! id.
Proof.
  induction ids as [|x ids IH]; intros am Hi Ht; cbn [expire_all].
  { exists am. split_and!; try done. intros id. rewrite decide_False by apply not_elem_of_nil. by destruct (_ !! _). }
  unfold mbind, stm_bind, gets. destruct (addresses am !! x) as [a|] eqn:Ea.
  - unfold lift, modify. rewrite expire_ok by (by apply (Ht x a)).
    rewrite (expired_insert now x a _ Ea). pose proof (expired_inv now x am Hi) as Hi1.
    unfold set_addresses in Hi1 |- *. set (am1 := mkAddressMan _ _ _ _ _ _) in Hi1 |- *.
    assert (Ht1 : times_ok am1).
    { intros id b. cbn. intros [(<- & c & Hc & ->)|[_ Hb]]%lookup_alter_Some; [|by apply (Ht id)]. specialize (Ht x c Hc).
      unfold expired. destruct (la_state c) as [|t|t| |t] eqn:Es; try destruct (_ <? now); cbn; by rewrite ?Es. }
    destruct (IH am1 Hi1 Ht1) as (am' & E & Hi' & Ht' & E1 & E2 & Hm). exists am'. split_and!; try done.
    intros id. rewrite Hm. cbn. destruct (decide (x = id)) as [<-|Hne].
    + rewrite lookup_alter_eq, Ea. cbn. rewrite (decide_True (P := x ∈ x :: ids)) by (by left).
      case_decide; [by rewrite expired_twice|done].
    + rewrite lookup_alter_ne by done. destruct (decide (id ∈ ids)).
      * by rewrite decide_True by (by right).
      * rewrite decide_False; [done|]. by intros [?|?]%elem_of_cons.
  - destruct (IH am Hi Ht) as (am' & E & Hi' & Ht' & E1 & E2 & Hm). exists am'. split_and!; try done.
    intros id. rewrite Hm. destruct (decide (x = id)) as [<-|Hne]; [by rewrite Ea|].
    destruct (decide (id ∈ ids)).
    + by rewrite decide_True by (by right).
    + rewrite decide_False; [done|]. by intros [?|?]%elem_of_cons.
Qed.

(** Every address is seen once a call is over. *)
Lemma rearrange_buckets_ok order now am : order_ok order -> am_inv am -> times_ok am ->
  exists am', rearrange_buckets order now am = (Ok tt, am') /\ am_inv am' /\ times_ok am' /\
    max_size am' = max_size am /\ reachable_networks am' = reachable_networks am /\
    addresses am' = expired now <$> addresses am.
Proof.
  intros Ho Hi Ht. destruct (expire_all_ok now (order (addresses am)) am Hi Ht) as (am' & E & Hi' & Ht' & E1 & E2 & Hm).
  exists am'. split_and!; try done. apply map_eq. intros id. rewrite Hm, lookup_fmap.
  destruct (addresses am !! id) as [a|] eqn:Ea; [|done]. rewrite decide_True; [done|].
  rewrite (Ho (addresses am)). apply list_elem_of_fmap. exists (id, a). by rewrite elem_of_map_to_list.
Qed.

(** * Choosing a peer *)

(** A peer that may be connected to at time [now]. *)
Definition connectable (now : Z) (p : LocalAddress) : Prop :=
  match la_state p with
  | NeverTried | Tried _ => True
  | Failed t => t + RETRY_TIME < now
  | Banned _ | Connected => False
  end.

Lemma choose_elem {A} r (l : list A) x : choose r l = Some x -> x ∈ l.
Proof. apply list_elem_of_lookup_2. Qed.
Lemma choose_some {A} r (l : list A) : l <> [] -> exists x, choose r l = Some x.
Proof.
  intros Hl. unfold choose. apply lookup_lt_is_Some_2. apply Nat.mod_upper_bound. by destruct l.
Qed.

Lemma may_try_ok now a : (match la_state a with Tried t | Failed t => t + ASSUME_STALE <= u64_max | _ => True end) ->
  exists b, may_try now a = Ok b /\ (b = true <-> connectable now a).
Proof.
  unfold may_try, connectable, u64_add, ASSUME_STALE, RETRY_TIME. destruct (la_state a) as [|t|t| |t]; intros Ht;
    try (eexists; split; [done|done]).
  rewrite (proj2 (Z.leb_le _ _)) by lia. cbn. eexists. split; [done|]. apply Z.ltb_lt.
Qed.

Lemma usable_peers_ok now ids am : times_ok am -> exists l, usable_peers now ids am = Ok l /\
  forall id, id ∈ l <-> id ∈ ids /\ exists a, addresses am !! id = Some a /\ connectable now a.
Proof.
  intros Ht. induction ids as [|x ids (l & E & Hl)]; cbn [usable_peers].
  { exists []. split; [done|]. intros id. split; [by intros ?%not_elem_of_nil|]. by intros [?%not_elem_of_nil _]. }
  assert (Hx : exists b : bool, (match addresses am !! x with Some a => may_try now a | None => Ok false end) = Ok b /\
    (b = true <-> exists a, addresses am !! x = Some a /\ connectable now a)).
  { destruct (addresses am !! x) as [a|] eqn:Ea.
    - destruct (may_try_ok now a (Ht x a Ea)) as (b & Eb & Hb). exists b. split; [done|]. rewrite Hb. split; [by exists a|].
      by intros (a' & [= <-] & ?).
    - exists false. split; [done|]. split; [done|]. by intros (? & ? & _). }
  destruct Hx as (b & Eb & Hb). rewrite Eb. cbn [mbind outcome_bind]. rewrite E. cbn [mbind outcome_bind].
  exists (if b then x :: l else l). split; [by destruct b|]. intros id. rewrite elem_of_cons. destruct b.
  - rewrite elem_of_cons, Hl. split; [intros [->|[? ?]]; [split; [by left|by apply Hb]|split; [by right|done]]|].
    intros [[->|?] ?]; [by left|right; by split].
  - rewrite Hl. split; [intros [? ?]; split; [by right|done]|]. intros [[->|?] Hc]; [|by split].
    by apply Hb in Hc.
Qed.

Lemma candidates_elem service am id p : (id, p) ∈ candidates_of service am ->
  addresses am !! id = Some p /\ la_state p <> Connected.
Proof.
  unfold candidates_of. intros (x & _ & Hx)%list_elem_of_omap. destruct (addresses am !! x) as [a|] eqn:Ea; [|done].
  cbn in Hx. case_bool_decide as Hs; [done|]. by injection Hx as <- <-.
Qed.

Lemma try_with_service_ok now r service am : times_ok am -> exists o, try_with_service now r service am = Ok o /\
  match o with
  | Some (id, p) => addresses am !! id = Some p /\ connectable now p /\ id ∈ ids_of service (peers_by_service am)
  | None => forall id a, id ∈ ids_of service (peers_by_service am) -> addresses am !! id = Some a -> ~ connectable now a
  end.
Proof.
  intros Ht. unfold try_with_service, ids_of. destruct (peers_by_service am !! service) as [peers|].
  2:{ exists None. split; [done|]. by intros id a ?%not_elem_of_nil. }
  destruct (usable_peers_ok now peers am Ht) as (l & E & Hl). rewrite E. cbn [mbind outcome_bind].
  destruct (choose r l) as [id|] eqn:Ec.
  - pose proof (choose_elem _ _ _ Ec) as Hin. apply Hl in Hin as (Hin & a & Ha & Hc). cbn [mbind option_bind]. rewrite Ha. cbn [mbind option_bind].
    exists (Some (id, a)). by split_and!.
  - cbn. exists None. split; [done|]. cbn. intros id a Hin Ha Hc. destruct l as [|y l].
    + assert (H : id ∈ []) by (apply Hl; split; [done|by exists a]). by apply not_elem_of_nil in H.
    + destruct (choose_some r (y :: l)) as [z Hz]; [done|]. congruence.
Qed.

Lemma any_address_ok order r am : order_ok order -> addresses am <> ∅ ->
  exists id p, any_address order r am = Some (id, p) /\ addresses am !! id = Some p.
Proof.
  intros Ho Hne. unfold any_address. destruct (choose_some r (order (addresses am))) as [id Ec].
  { intros E. apply Hne. apply map_size_empty_inv. rewrite <-length_map_to_list, <-(length_fmap fst).
    by rewrite <-(Ho (addresses am)), E. }
  pose proof (choose_elem _ _ _ Ec) as Hin. rewrite (Ho (addresses am)) in Hin.
  apply list_elem_of_fmap in Hin as ([k p] & -> & Hk%elem_of_map_to_list). rewrite Ec. cbn. rewrite Hk. cbn. by exists k, p.
Qed.

(** A peer that failed recently leaves the lists of good ones. *)
Lemma drop_failed_inv am id p t service : am_inv am -> addresses am !! id = Some p -> la_state p = Failed t ->
  am_inv (set_good (without id (good_addresses am)) (set_good_peers (alter (without id) service (good_peers_by_service am)) am)).
Proof.
  intros Hi Hp Hs.
  pose proof (alter_inv am (fun a => a) id (without id (good_addresses am)) (alter (without id) service (good_peers_by_service am)) Hi) as H.
  assert (E : alter (fun a => a) id (addresses am) = addresses am) by (apply alter_id; by intros).
  rewrite E in H. apply H.
  - intros a _. by split_and!.
  - intros x Hne Hx. by apply without_spec.
  - intros a Ha Hg. exfalso. assert (a = p) as -> by congruence. unfold is_good_address in Hg. rewrite Hs in Hg.
    by destruct (is_routable p).
  - intros s. rewrite ids_of_alter by done. pose proof (ai_nodup am Hi s) as [_ Hn].
    case_decide; [|done]. split; [by apply without_nodup|]. by intros x [_ ?]%without_spec.
Qed.

(** The choice of one attempt. *)
Definition attempt order now r service am : outcome unit (option (Z * LocalAddress)) :=
  match get_address_by_service r service am with
  | Some p => Ok (Some p)
  | None => get_random_address order now r service am
  end.

Lemma attempt_ok order now r service am : order_ok order -> times_ok am -> addresses am <> ∅ ->
  exists id p, attempt order now r service am = Ok (Some (id, p)) /\ addresses am !! id = Some p.
Proof.
  intros Ho Ht Hne. unfold attempt. destruct (get_address_by_service r service am) as [[id p]|] eqn:Eg.
  { exists id, p. split; [done|]. by apply (candidates_elem service), (choose_elem r). }
  unfold get_random_address. rewrite bool_decide_eq_false_2 by done.
  destruct (try_with_service_ok now r service am Ht) as (o & -> & Hs). cbn [mbind outcome_bind].
  destruct o as [[id p]|]; [exists id, p; by destruct Hs|].
  destruct (any_address_ok order r am Ho Hne) as (id & p & -> & Hp). by exists id, p.
Qed.

Lemma connect_loop_ok order now draw service n : order_ok order -> forall i am,
  am_inv am -> times_ok am -> addresses am <> ∅ ->
  exists o am', connect_loop order now draw service n i am = (Ok o, am') /\ am_inv am' /\
    addresses am' = addresses am /\ max_size am' = max_size am /\ reachable_networks am' = reachable_networks am /\
    (forall id p, o = Some (id, p) -> addresses am !! id = Some p /\ connectable now p).
Proof.
  intros Ho. induction n as [|n IH]; intros i am Hi Ht Hne; cbn [connect_loop].
  { exists None, am. by split_and!. }
  unfold mbind, stm_bind, gets. fold (attempt order now (draw i) service am).
  destruct (attempt_ok order now (draw i) service am Ho Ht Hne) as (id & p & -> & Hp).
  assert (Hdone : connectable now p -> exists o am', mret (M := stm AddressMan unit) (Some (id, p)) am = (Ok o, am') /\
    am_inv am' /\ addresses am' = addresses am /\ max_size am' = max_size am /\ reachable_networks am' = reachable_networks am /\
    (forall id p, o = Some (id, p) -> addresses am !! id = Some p /\ connectable now p)).
  { intros Hc. exists (Some (id, p)), am. split_and!; try done. by intros ? ? [= <- <-]. }
  unfold connectable in Hdone at 1. destruct (la_state p) as [|t|t| |t] eqn:Es; [by apply Hdone|by apply Hdone|by apply IH|by apply IH|].
  pose proof (Ht id p Hp) as Htp. rewrite Es in Htp. unfold lift, u64_add, ASSUME_STALE, RETRY_TIME in *.
  rewrite (proj2 (Z.leb_le _ _)) by lia. destruct (Z.ltb_spec (t + 10 * 60) now) as [Hlt|Hge]; [by apply Hdone|].
  unfold modify. set (am1 := set_good _ _).
  destruct (IH (S i) am1) as (o & am' & E & Hi' & E1 & E2 & E3 & Hr).
  - apply (drop_failed_inv am id p t service Hi Hp Es).
  - exact Ht.
  - exact Hne.
  - exists o, am'. by split_and!.
Qed.

(** The states in which a peer is connected to at once. *)
Definition untried (s : AddressState) : Prop := match s with NeverTried | Tried _ => True | _ => False end.

Lemma connect_loop_found order now draw service n i am id p :
  attempt order now (draw i) service am = Ok (Some (id, p)) -> untried (la_state p) ->
  connect_loop order now draw service (S n) i am = (Ok (Some (id, p)), am).
Proof.
  intros E Hs. cbn [connect_loop]. unfold mbind, stm_bind, gets. fold (attempt order now (draw i) service am).
  rewrite E. by destruct (la_state p).
Qed.

Lemma attempt_found order now r service am id a : addresses am <> ∅ -> times_ok am ->
  id ∈ ids_of service (peers_by_service am) -> addresses am !! id = Some a -> connectable now a ->
  (forall i x t, addresses am !! i = Some x -> la_state x <> Banned t /\ la_state x <> Failed t) ->
  exists i p, attempt order now r service am = Ok (Some (i, p)) /\ untried (la_state p).
Proof.
  intros He Ht Hin Ha Hc Hall. unfold attempt. destruct (get_address_by_service _ service am) as [[i p]|] eqn:Eg.
  - apply choose_elem, candidates_elem in Eg as [Hp Hs]. exists i, p. split; [done|].
    destruct (la_state p) as [|t|t| |t] eqn:Es; try done; destruct (Hall i p t Hp); congruence.
  - unfold get_random_address. rewrite bool_decide_eq_false_2 by done.
    destruct (try_with_service_ok now r service am Ht) as (f & -> & Hs). cbn [mbind outcome_bind].
    destruct f as [[i p]|]; [|by destruct (Hs id a)]. exists i, p. split; [done|].
    destruct Hs as (Hp & Hcp & _). unfold connectable in Hcp.
    destruct (la_state p) as [|t|t| |t] eqn:Es; try done. destruct (Hall i p t Hp). congruence.
Qed.

(** No call panics, and a call leaves the addresses as they are. *)
Lemma connect_ok order now draw service feeler am : order_ok order -> am_inv am -> times_ok am ->
  exists o am', get_address_to_connect order now draw service feeler am = (Ok o, am') /\ am_inv am' /\
    addresses am' = addresses am /\ max_size am' = max_size am /\ reachable_networks am' = reachable_networks am.
Proof.
  intros Ho Hi Ht. unfold get_address_to_connect, mbind at 1, stm_bind at 1, gets at 1. case_bool_decide as He; [by exists None, am|].
  destruct feeler; [by eexists _, am|].
  destruct (connect_loop_ok order now draw service 10 Ho 0 am Hi Ht He) as (o & am' & E & Hi' & E1 & E2 & E3 & _). by exists o, am'.
Qed.

(** C40: When the maps are consistent and the stored times are not near the end of u64,
    where adding to them overflows, get_address_to_connect does not panic and keeps the
    addresses; what it returns is a stored address that is neither banned nor connected
    and, except for a feeler, did not fail in the last ten minutes. For a feeler it is
    the one stored address that was drawn, unless that is banned or connected; otherwise
    it returns one when an address of the required service may be connected to and no
    stored address is banned or failed. *)
Theorem get_address_to_connect_sound (order : Order) (now : Z) (draw : nat -> nat) (service : ServiceFlags) (feeler : bool)
  (am : AddressMan) (Horder : order_ok order) (Hinv : am_inv am) (Htimes : times_ok am) :
  exists o am', get_address_to_connect order now draw service feeler am = (Ok o, am') /\ am_inv am' /\
    addresses am' = addresses am /\
    (forall id p, o = Some (id, p) -> addresses am !! id = Some p /\
       la_state p <> Connected /\ (forall t, la_state p <> Banned t) /\ (feeler = false -> connectable now p)) /\
    (forall id a, feeler = false -> id ∈ ids_of service (peers_by_service am) -> addresses am !! id = Some a ->
       connectable now a -> (forall i x t, addresses am !! i = Some x -> la_state x <> Banned t /\ la_state x <> Failed t) ->
       is_Some o) /\
    (forall id p, feeler = true -> choose (draw 0%nat) (order (addresses am)) = Some id -> addresses am !! id = Some p ->
       la_state p <> Connected -> (forall t, la_state p <> Banned t) -> o = Some (id, p)).
Proof.
  unfold get_address_to_connect, mbind at 1, stm_bind at 1, gets at 1. case_bool_decide as He.
  { exists None, am. split_and!; try done.
    - intros id a _ _ Ha. by rewrite He, lookup_empty in Ha.
    - intros id a _ _ Ha. by rewrite He, lookup_empty in Ha. }
  destruct feeler.
  - destruct (any_address_ok order (draw 0%nat) am Horder He) as (id & p & E & Hp).
    eexists _, am. split; [done|]. rewrite E. cbn. split_and!; try done.
    + intros i x. destruct (la_state p) eqn:Es; try done; intros [= <- <-]; rewrite Es; by split_and!.
    + intros i x _ Ec Hx Hnc Hnb. unfold any_address in E. rewrite Ec in E. cbn in E. rewrite Hx in E. injection E as -> ->.
      destruct (la_state p) as [|t|t| |t]; try done. by destruct (Hnb t).
  - destruct (connect_loop_ok order now draw service 10 Horder 0 am Hinv Htimes He) as (o & am' & E & Hi' & E1 & _ & _ & Hr).
    exists o, am'. split_and!; try done.
    + intros id p Ho. destruct (Hr id p Ho) as [Hp Hc]. split; [done|]. unfold connectable in Hc.
      destruct (la_state p) eqn:Es; try done; split_and!; try done; intros _; unfold connectable; by rewrite Es.
    + intros id a _ Hin Ha Hc Hall.
      destruct (attempt_found order now (draw 0%nat) service am id a He Htimes Hin Ha Hc Hall) as (i & q & Ea & Hs).
      rewrite (connect_loop_found order now draw service 9 0 am i q Ea Hs) in E. apply (f_equal fst) in E. cbn in E.
      injection E as <-. by eexists.
Qed.
