(* ===== verification/AddressManReach.v ===== *)
(** The address manager over time: every sequence of calls keeps its lists
    consistent and its size bounded without a panic, and the file of peers
    brings the addresses back after a restart. *)

From stdpp Require Import base gmap list strings fin_maps.
From Stdlib Require Import ZArith Lia.
From S2P Require Import Prelude Bitcoin Codec Text Onion SocketAddr AddressMan AddressManFacts AddressManRuns.

(** * Sequences of calls *)

(** A time that can be added to. *)
Definition state_ok (s : AddressState) : Prop :=
  match s with Tried t | Failed t => t + ASSUME_STALE <= u64_max | _ => True end.

Section Steps.
Context (order : Order).

Inductive am_step : AddressMan -> AddressMan -> Prop :=
  | StepPush l am : Forall (fun a => state_ok (la_state a)) l -> am_step am (push_addresses order l am)
  | StepState now idx state am : state_ok state -> am_step am (update_set_state now idx state am)
  | StepFlags idx flags am : am_step am (update_set_service_flag idx flags am)
  | StepExpire now am : am_step am (rearrange_buckets order now am).2
  | StepConnect now draw service feeler am : am_step am (get_address_to_connect order now draw service feeler am).2.

Inductive am_reachable (size : option nat) (networks : list ReachableNetworks) : AddressMan -> Prop :=
  | ReachNew : am_reachable size networks (addrman_new size networks)
  | ReachStep am am' : am_reachable size networks am -> am_step am am' -> am_reachable size networks am'.
End Steps.

Record am_safe (size : option nat) (networks : list ReachableNetworks) (am : AddressMan) : Prop := {
  as_inv : am_inv am;
  as_times : times_ok am;
  as_size : (base.size (addresses am) <= max_size am)%nat;
  as_config : max_size am = default MAX_ADDRESSES size /\ reachable_networks am = networks
}.

(** ** What the updates do to the addresses *)

Lemma new_inv size networks : am_inv (addrman_new size networks).
Proof.
  split; cbn; try (intros; rewrite lookup_empty in *; done).
  - intros s id _. unfold ids_of. rewrite lookup_empty. cbn. split; [by intros ?%not_elem_of_nil|]. intros (a & Ha & _).
    by rewrite lookup_empty in Ha.
  - intros s id. unfold ids_of. rewrite lookup_empty. cbn. by intros [?%not_elem_of_nil|?%not_elem_of_nil].
  - intros s. unfold ids_of. rewrite lookup_empty. cbn. by split; constructor.
Qed.

Lemma push_services_same services idx am : let am' := push_services services idx am in
  addresses am' = addresses am /\ max_size am' = max_size am /\ reachable_networks am' = reachable_networks am.
Proof.
  cbn zeta. unfold push_services. destruct (addresses am !! idx) as [a|]; [|done].
  by destruct (pushed_lists services a am) as (? & _ & ? & ? & _).
Qed.

Lemma alter_twice {A} (f g : A -> A) i (m : gmap Z A) : alter f i (alter g i m) = alter (f ∘ g) i m.
Proof.
  apply map_eq. intros j. destruct (decide (i = j)) as [<-|Hne]; [rewrite !lookup_alter_eq; by destruct (m !! i)|].
  by rewrite !lookup_alter_ne.
Qed.

Lemma update_set_state_same now idx state am : let am' := update_set_state now idx state am in
  (exists f, addresses am' = alter f idx (addresses am) /\ forall a, la_state (f a) = state) /\
  max_size am' = max_size am /\ reachable_networks am' = reachable_networks am.
Proof.
  cbn zeta. destruct state as [|t|t| |t] eqn:Es; cbn;
    try (split; [eexists (set_state _); split; [done|by intros]|done]).
  - set (am1 := push_good _ _). destruct (push_services_same [UTREEXO; UTREEXO_ARCHIVE; NONE; COMPACT_FILTERS] idx am1) as (-> & -> & ->).
    unfold am1, push_good. case_bool_decide; (split; [exists (set_state (Tried t)); split; [done|by intros]|done]).
  - set (am1 := push_good _ _). destruct (push_services_same [UTREEXO; NONE; COMPACT_FILTERS] idx am1) as (-> & -> & ->).
    unfold am1, push_good. case_bool_decide; (split; [|done]); exists (set_last_connected now ∘ set_state Connected);
      (split; [cbn; by rewrite alter_twice|done]).
Qed.

Lemma update_set_service_flag_same idx flags am : let am' := update_set_service_flag idx flags am in
  (addresses am' = delete idx (addresses am) \/ addresses am' = alter (set_services flags) idx (addresses am)) /\
  max_size am' = max_size am /\ reachable_networks am' = reachable_networks am.
Proof.
  cbn zeta. unfold update_set_service_flag. destruct (negb _ || negb _); [split; [by left|done]|].
  assert (H : forall service x, addresses (update_peer_for_service idx service x) = addresses x /\
    max_size (update_peer_for_service idx service x) = max_size x /\
    reachable_networks (update_peer_for_service idx service x) = reachable_networks x).
  { intros service x. unfold update_peer_for_service, add_peer_to_service, remove_peer_from_service.
    destruct (addresses x !! idx) as [a|]; [|done]. destruct (has _ _); [|done].
    destruct (peers_by_service x !! service); [by case_bool_decide|done]. }
  unfold update_peer_services_buckets. set (am1 := set_addresses _ am). destruct (H COMPACT_FILTERS (update_peer_for_service idx UTREEXO am1)) as (-> & -> & ->).
  destruct (H UTREEXO am1) as (-> & -> & ->). split; [by right|done].
Qed.

Lemma size_alter {A} (f : A -> A) i (m : gmap Z A) : size (alter f i m) = size m.
Proof. rewrite <-!size_dom. by rewrite dom_alter. Qed.

Lemma new_safe size networks : am_safe size networks (addrman_new size networks).
Proof. split; cbn; [apply new_inv| |rewrite map_size_empty; lia|done]. intros id a. cbn. by rewrite lookup_empty. Qed.

Lemma am_step_safe order size networks am am' : order_ok order -> am_safe size networks am -> am_step order am am' ->
  am_safe size networks am'.
Proof.
  intros Ho [Hi Ht Hs Hc] Hstep. destruct Hstep as [l am Hl|now idx state am Hst|idx flags am|now am|now draw service feeler am].
  - destruct (push_all_same l am) as [E1 E2]. destruct (prune_spec order (foldl push_address am l) Ho) as (F1 & F2 & Hsub & Hsz & _).
    fold (push_addresses order l am) in *. split.
    + by apply push_addresses_inv.
    + intros id a Ha. pose proof (lookup_weaken _ _ _ _ Ha Hsub) as Ha'.
      destruct (push_all_known_from l am id a Ha') as [?|[Hin _]]; [by apply (Ht id)|].
      rewrite Forall_forall in Hl. by apply Hl.
    + rewrite Hsz, F1. lia.
    + rewrite F1, F2, E1, E2. done.
  - destruct (update_set_state_same now idx state am) as ((f & E & Hf) & E1 & E2). split.
    + by apply update_set_state_inv.
    + intros id a. rewrite E. intros [(<- & c & Hc' & ->)|[_ Ha]]%lookup_alter_Some; [by rewrite Hf|by apply (Ht id)].
    + rewrite E, E1, size_alter. done.
    + by rewrite E1, E2.
  - destruct (update_set_service_flag_same idx flags am) as (Hm & E1 & E2). split.
    + by apply update_set_service_flag_inv.
    + intros id a. destruct Hm as [->| ->]; [intros [_ Ha]%lookup_delete_Some; by apply (Ht id)|].
      intros [(<- & c & Hc' & ->)|[_ Ha]]%lookup_alter_Some; [by apply (Ht idx c)|by apply (Ht id)].
    + rewrite E1. destruct Hm as [->| ->]; [|by rewrite size_alter]. etransitivity; [|exact Hs].
      apply map_subseteq_size, delete_subseteq.
    + by rewrite E1, E2.
  - destruct (rearrange_buckets_ok order now am Ho Hi Ht) as (am' & -> & Hi' & Ht' & E1 & E2 & E). split; cbn; try done.
    + rewrite E, E1, map_size_fmap. done.
    + by rewrite E1, E2.
  - destruct (connect_ok order now draw service feeler am Ho Hi Ht) as (o & am' & -> & Hi' & E & E1 & E2). split; cbn; try done.
    + intros id a. rewrite E. apply Ht.
    + by rewrite E, E1.
    + by rewrite E1, E2.
Qed.

(** C39: In every state the address manager reaches from AddressMan::new, by adding
    addresses, changing states and service flags, expiring information and choosing
    peers with times that are not near the end of u64, its maps are consistent: each
    address is stored once and under its id, has the minimum services, is routable and
    of a reachable network, is in good_addresses when it is a good one, and is in the
    list of all peers of Utreexo, of no service and of compact filters exactly when it
    has the service; no list of peers or good peers of a service repeats an id or names
    one that is not stored (but good peers may still be listed under a service they
    lost); the number of addresses is at most the maximum; and expiring or choosing
    again never panics. *)
Theorem addr_man_reachable_safe (order : Order) (size : option nat) (networks : list ReachableNetworks) (am : AddressMan)
  (Horder : order_ok order) (Hreach : am_reachable order size networks am) :
  am_inv am /\ (base.size (addresses am) <= default MAX_ADDRESSES size)%nat /\
  (forall now, exists am', rearrange_buckets order now am = (Ok tt, am') /\ addresses am' = expired now <$> addresses am) /\
  (forall now draw service feeler, exists o am', get_address_to_connect order now draw service feeler am = (Ok o, am')).
Proof.
  assert (H : am_safe size networks am).
  { induction Hreach as [|am am' _ IH Hstep]; [apply new_safe|by apply (am_step_safe order size networks am)]. }
  destruct H as [Hi Ht Hs [Hc _]]. split_and!; [done|by rewrite <-Hc|..].
  - intros now. destruct (rearrange_buckets_ok order now am Horder Hi Ht) as (am' & E & _ & _ & _ & _ & Em). by exists am'.
  - intros now draw service feeler. destruct (connect_ok order now draw service feeler am Horder Hi Ht) as (o & am' & E & _).
    by exists o, am'.
Qed.

(** * Restarts *)

(** What becomes of an address that was connected when the file was written. *)
Definition reconnected (now : Z) (a : LocalAddress) : LocalAddress :=
  if bool_decide (la_state a = Connected) then set_state (Tried now) a else a.

Lemma reconnected_peer now a : la_id (reconnected now a) = la_id a /\ la_address (reconnected now a) = la_address a /\
  la_services (reconnected now a) = la_services a.
Proof. unfold reconnected. by case_bool_decide. Qed.

Lemma disk_roundtrip am now rand a : is_net_reachable am a = true ->
  local_from_disk rand (disk_from_local now a) = reconnected now a.
Proof.
  destruct a as [[host port] lc st sv id]. unfold is_net_reachable, local_from_disk, disk_from_local, reconnected. cbn.
  destruct host; try done; intros _; cbn; by case_bool_decide.
Qed.

(** Addresses that are wanted, with ids and hosts of their own, are all added. *)
Lemma push_all_fresh l : forall am, Forall (wanted am) l -> NoDup (la_id <$> l) -> NoDup (la_address <$> l) ->
  (forall a i x, a ∈ l -> addresses am !! i = Some x -> la_address x <> la_address a /\ i <> la_id a) ->
  forall i x, addresses (foldl push_address am l) !! i = Some x <-> addresses am !! i = Some x \/ (x ∈ l /\ la_id x = i).
Proof.
  induction l as [|a l IH]; intros am Hw Hn1 Hn2 Hf i x; cbn [foldl].
  { split; [by left|]. by intros [?|[?%not_elem_of_nil _]]. }
  cbn in Hn1, Hn2. apply NoDup_cons in Hn1 as [Ha1 Hn1]. apply NoDup_cons in Hn2 as [Ha2 Hn2].
  apply Forall_cons in Hw as [Ha Hw]. destruct (push_address_spec am a) as [Hpush [_ Er]].
  assert (Hacc : acceptable am a).
  { destruct Ha as (H1 & H2 & H3 & H4). split_and!; try done.
    - intros j y Hy. by apply (Hf a j y); [left|].
    - apply eq_None_not_Some. intros [y Hy]. by apply (Hf a (la_id a) y); [left|..]. }
  destruct Hpush as [[_ E]|[Hno _]]; [|done]. rewrite IH; [|..|done|done|].
  - rewrite E, lookup_insert_Some, elem_of_cons. split.
    + intros [[[<- <-]|[_ ?]]|[? ?]]; auto.
    + intros [Hx|[[->|?] <-]]; auto. destruct (decide (la_id a = i)) as [<-|]; [|auto].
      exfalso. by apply (Hf a (la_id a) x); [left|..].
  - eapply Forall_impl; [exact Hw|]. intros b. unfold wanted, is_net_reachable. by rewrite Er.
  - intros b j y Hb. rewrite E. intros [[<- <-]|[_ Hy]]%lookup_insert_Some; [|apply (Hf b j y); [by right|done]].
    split; intros Eq; [apply Ha2; rewrite Eq|apply Ha1; rewrite Eq]; by apply list_elem_of_fmap_2.
Qed.

Section Restart.
Context `{!Json (list DiskLocalAddress), !JsonOk (list DiskLocalAddress)}.

(** The addresses that are read back, in the order of the file. *)
Lemma read_dumped order now rand am d : order_ok order -> am_inv am ->
  exists l, read_peers rand (peers_json (dump_peers order now am d)) = Some l /\
    l ≡ₚ reconnected now <$> (map_to_list (addresses am)).*2.
Proof.
  intros Ho Hi. unfold dump_peers, read_peers. cbn. rewrite from_to. eexists. split; [done|].
  set (f := fun id => disk_from_local now <$> addresses am !! id).
  assert (El : forall ids, (forall id, id ∈ ids -> is_Some (addresses am !! id)) -> forall r,
    imap (fun i p => local_from_disk (r i) p) (omap f ids) = omap (fun id => reconnected now <$> addresses am !! id) ids).
  { induction ids as [|id ids IH]; intros Hin r; [done|]. destruct (Hin id) as [a Ha]; [by left|].
    cbn. unfold f at 1. rewrite Ha. cbn. f_equal.
    - apply (disk_roundtrip am). by apply (ai_accepted am Hi id).
    - apply (IH (fun i Hk => Hin i (list_elem_of_further _ _ _ Hk)) (fun i => r (S i))). }
  rewrite El.
  - rewrite (Ho (addresses am)). assert (Hm : forall p, p ∈ map_to_list (addresses am) -> addresses am !! p.1 = Some p.2).
    { by intros [i a] ?%elem_of_map_to_list. }
    induction (map_to_list (addresses am)) as [|p l IH]; [done|]. cbn. rewrite (Hm p) by (by left). cbn. constructor.
    apply IH. intros q Hq. apply Hm. by right.
  - intros id. rewrite (Ho (addresses am)). intros ([k a] & -> & Hk%elem_of_map_to_list)%list_elem_of_fmap. by exists a.
Qed.

Lemma dumped_elem now am a : am_inv am ->
  a ∈ reconnected now <$> (map_to_list (addresses am)).*2 <->
  exists b, addresses am !! la_id a = Some b /\ a = reconnected now b.
Proof.
  intros Hi. rewrite list_elem_of_fmap. split.
  - intros (b & -> & Hb). apply list_elem_of_fmap in Hb as ([i b'] & -> & Hb%elem_of_map_to_list). exists b'. split; [|done].
    cbn. destruct (reconnected_peer now b') as (-> & _). by rewrite (ai_id am Hi i b' Hb).
  - intros (b & Hb & ->). exists b. split; [done|]. apply list_elem_of_fmap. eexists (_, b). split; [done|].
    by apply elem_of_map_to_list.
Qed.

(** Values of a map that a function tells apart. *)
Lemma nodup_values {A} (f : LocalAddress -> A) (m : gmap Z LocalAddress) :
  (forall i j a b, m !! i = Some a -> m !! j = Some b -> f a = f b -> i = j) -> NoDup (f <$> (map_to_list m).*2).
Proof.
  intros Hf. rewrite <-list_fmap_compose. apply NoDup_fmap_2_strong; [|apply NoDup_map_to_list].
  intros [i a] [j b] Ha%elem_of_map_to_list Hb%elem_of_map_to_list E. cbn in E.
  assert (i = j) as <- by (by apply (Hf i j a b)). congruence.
Qed.

(** Reading the file into a fresh manager of the same networks. *)
Lemma restarted_addresses now l am am0 : am_inv am -> addresses am0 = ∅ -> reachable_networks am0 = reachable_networks am ->
  l ≡ₚ reconnected now <$> (map_to_list (addresses am)).*2 ->
  addresses (foldl push_address am0 l) = reconnected now <$> addresses am.
Proof.
  intros Hinv H0 Hnet Hl.
  assert (Hsame : forall a, a ∈ l <-> exists b, addresses am !! la_id a = Some b /\ a = reconnected now b).
  { intros a. rewrite Hl. by apply dumped_elem. }
  assert (Hall : forall i x, addresses (foldl push_address am0 l) !! i = Some x <->
    addresses am0 !! i = Some x \/ (x ∈ l /\ la_id x = i)).
  { apply push_all_fresh.
    - apply Forall_forall. intros a (b & Hb & ->)%Hsame. destruct (reconnected_peer now b) as (_ & E & E').
      destruct (ai_accepted am Hinv _ b Hb) as (H1 & H2 & H3 & H4).
      unfold wanted. rewrite E', (same_peer_routable b) by done. split_and!; try done.
      unfold is_net_reachable in *. by rewrite E, Hnet.
    - rewrite Hl, <-list_fmap_compose. apply (nodup_values (la_id ∘ reconnected now)). intros i j a b Ha Hb E. cbn in E.
      destruct (reconnected_peer now a) as (Ea & _), (reconnected_peer now b) as (Eb & _).
      rewrite Ea, Eb in E. by rewrite <-(ai_id am Hinv i a Ha), <-(ai_id am Hinv j b Hb).
    - rewrite Hl, <-list_fmap_compose. apply (nodup_values (la_address ∘ reconnected now)). intros i j a b Ha Hb E. cbn in E.
      destruct (reconnected_peer now a) as (_ & Ea & _), (reconnected_peer now b) as (_ & Eb & _).
      rewrite Ea, Eb in E. by apply (ai_unique am Hinv i j a b).
    - intros a i x _. by rewrite H0, lookup_empty. }
  apply map_eq. intros i. apply option_eq. intros x. rewrite Hall, H0, lookup_empty, lookup_fmap, fmap_Some. split.
  - intros [?|[(b & Hb & ->)%Hsame <-]]; [done|]. by exists b.
  - intros (b & Hb & ->). right. destruct (reconnected_peer now b) as (E & _). rewrite Hsame, E, (ai_id am Hinv i b Hb).
    split; [|done]. by exists b.
Qed.

(** A manager written by dump_peers and read by start_addr_man into a new manager of the
    same size and networks has the same addresses afterwards, with the connected ones as
    tried at the time of the dump, and the same peers under every service, whatever the
    order of the hash maps. *)
Theorem peers_roundtrip (order order' : Order) (now : Z) (rand : nat -> Z) (am : AddressMan) (d : PeerFiles)
  (Horder : order_ok order) (Horder' : order_ok order') (Hinv : am_inv am) (Hsize : (size (addresses am) <= max_size am)%nat) :
  let am' := (start_addr_man order' rand (dump_peers order now am d)
                (addrman_new (Some (max_size am)) (reachable_networks am))).2 in
  addresses am' = reconnected now <$> addresses am /\ am_inv am' /\
  (forall s id, s ∈ indexed -> id ∈ ids_of s (peers_by_service am') <-> id ∈ ids_of s (peers_by_service am)).
Proof.
  cbn zeta. set (am0 := addrman_new _ _). unfold start_addr_man.
  destruct (read_dumped order now rand am d Horder Hinv) as (l & -> & Hl). cbn [snd].
  assert (Em : addresses (foldl push_address am0 l) = reconnected now <$> addresses am) by (by apply restarted_addresses).
  assert (Ep : push_addresses order' l am0 = foldl push_address am0 l).
  { unfold push_addresses, prune_addresses. destruct (push_all_same l am0) as [-> _]. cbn.
    rewrite Em, map_size_fmap. by rewrite (proj2 (Nat.sub_0_le _ _)). }
  rewrite Ep. assert (Hi' : am_inv (foldl push_address am0 l)) by apply push_all_inv, new_inv.
  split_and!; [done|done|]. intros s id Hs. rewrite (ai_peers _ Hi' s id Hs), (ai_peers _ Hinv s id Hs), Em, lookup_fmap.
  destruct (addresses am !! id) as [b|]; cbn; [|by split; intros (? & ? & _)]. destruct (reconnected_peer now b) as (_ & _ & E).
  split; intros (x & [= <-] & Hx); eexists; (split; [done|]); congruence.
Qed.
End Restart.
