(* ===== verification/Node.v ===== *)
(** The node task ([src/crates/floresta-wire/src/p2p_wire/node/mod.rs], with the
    messages of [peer.rs] and [node_handle.rs] and the constants of
    [node_context.rs]): its state, and the sending of requests to peers
    ([node/peer_man.rs]).

    A channel to a peer is the list of the requests sent on it.  Instants are
    seconds; every handler reads the monotonic and the system clock once.
    Random choices are taken from a list of streams in the state. *)

From stdpp Require Import base gmap list strings countable.
From Stdlib Require Import ZArith Lia.
From S2P Require Import Prelude Bitcoin Errors Codec Sigops Udata ChainQuery Filters Mempool BlockProof Text Onion.
From S2P Require Import SocketAddr AddressMan.

(** * Messages *)

Abbreviation PeerId := Z (only parsing).

(** [ServiceFlags::NETWORK]. *)
Definition NETWORK : ServiceFlags := 1.

Inductive WitnessMode := WitnessFull | Witnessless.

Inductive NodeRequest :=
  | GetBlock (hashes : list BlockHash) (witness : WitnessMode)
  | GetHeaders (locator : list BlockHash)
  | GetAddresses
  | Shutdown
  | BroadcastTransaction (txid : Txid)
  | GetMempoolTransaction (txid : Txid)
  | SendAddresses (addresses : list AddrV2Message)
  | GetUtreexoState (block : BlockHash) (height : Z)
  | GetFilter (stop_hash : BlockHash) (start_height : Z)
  | Ping
  | GetBlockProof (block : BlockHash) (proof_hashes leaf_data : Bitmap)
  | GetCFHeaders (start_height : Z) (stop_hash : BlockHash).

Definition is_broadcast_transaction (r : NodeRequest) : bool :=
  match r with BroadcastTransaction _ => true | _ => false end.

Inductive InflightRequests :=
  | InHeaders
  | InUtreexoState (peer : PeerId)
  | InBlocks (block : BlockHash)
  | InConnect (peer : PeerId)
  | InGetFilters
  | InUtreexoProof (block : BlockHash)
  | InGetAddresses.
#[export] Instance InflightRequests_eq_dec : EqDecision InflightRequests.
Proof. solve_decision. Defined.
#[export] Instance InflightRequests_countable : Countable InflightRequests.
Proof.
  refine (inj_countable'
    (fun r => match r with
              | InHeaders => (0, 0) | InUtreexoState p => (1, p) | InBlocks h => (2, h) | InConnect p => (3, p)
              | InGetFilters => (4, 0) | InUtreexoProof h => (5, h) | InGetAddresses => (6, 0)
              end)
    (fun x => match x with
              | (0, _) => InHeaders | (1, p) => InUtreexoState p | (2, h) => InBlocks h | (3, p) => InConnect p
              | (4, _) => InGetFilters | (5, h) => InUtreexoProof h | _ => InGetAddresses
              end) _).
  by intros [].
Defined.

Inductive ConnectionKind :=
  | OutboundFullRelay (services : ServiceFlags)
  | Manual
  | Feeler
  | AddrFetch
  | BlockRelayOnly (services : ServiceFlags)
  | Extra.
#[export] Instance ConnectionKind_eq_dec : EqDecision ConnectionKind.
Proof. solve_decision. Defined.

Definition get_required_services (k : ConnectionKind) : ServiceFlags :=
  match k with OutboundFullRelay s | BlockRelayOnly s => s | _ => NONE end.
Definition is_manual (k : ConnectionKind) : bool := match k with Manual => true | _ => false end.
Definition is_full_relay (k : ConnectionKind) : bool :=
  match k with OutboundFullRelay _ | Manual => true | _ => false end.
Definition is_regular (k : ConnectionKind) : bool :=
  match k with OutboundFullRelay _ | BlockRelayOnly _ => true | _ => false end.
Definition is_long_lived (k : ConnectionKind) : bool := is_manual k || is_regular k.
Definition is_short_lived (k : ConnectionKind) : bool := match k with Feeler | AddrFetch => true | _ => false end.
Definition is_block_relay_only (k : ConnectionKind) : bool := match k with BlockRelayOnly _ => true | _ => false end.

Inductive PeerStatus := Awaiting | Ready | BannedPeer.
#[export] Instance PeerStatus_eq_dec : EqDecision PeerStatus.
Proof. solve_decision. Defined.

Inductive TransportProtocol := TransportV2 | TransportV1.

(** [message_times] is the moving average of the latencies, if there is one;
    [channel] is what was sent, and [channel_open] whether the peer still
    receives. *)
Record LocalPeerView := mkPeer {
  message_times : option Z;
  p_state : PeerStatus;
  channel : list NodeRequest;
  channel_open : bool;
  p_services : ServiceFlags;
  user_agent : string;
  p_address : LocalAddress;
  kind : ConnectionKind;
  p_height : Z;
  time_offset : Z;
  banscore : Z;
  transport_protocol : TransportProtocol
}.
Definition has_any_service (p : LocalPeerView) (services : list ServiceFlags) : bool :=
  existsb (has (p_services p)) services.

Record Version := mkVersion {
  v_user_agent : string;
  v_protocol_version : Z;
  v_blocks : Z;
  v_id : PeerId;
  v_address_id : Z;
  v_services : ServiceFlags;
  v_time_offset : Z;
  v_kind : ConnectionKind;
  v_transport_protocol : TransportProtocol
}.

(** [Inventory] of rust-bitcoin. *)
Inductive Inventory :=
  | InvError
  | InvTransaction (txid : Txid)
  | InvWitnessTransaction (txid : Txid)
  | InvBlock (block : BlockHash)
  | InvWitnessBlock (block : BlockHash)
  | InvCompactBlock (block : BlockHash)
  | InvOther.
(** [CFHeaders] of rust-bitcoin. *)
Record CFHeaders := mkCFHeaders { cfh_stop_hash : BlockHash; cfh_previous : Z; cfh_hashes : list Z }.

Inductive UserRequest :=
  | UserConfig
  | UserBlock (block : BlockHash)
  | UserUtreexoProof (block : BlockHash)
  | UserMempoolTransaction (txid : Txid)
  | GetPeerInfo
  | GetConnectionCount
  | Add (a : BitcoinSocketAddr) (v2transport : bool)
  | Remove (a : BitcoinSocketAddr)
  | Onetry (a : BitcoinSocketAddr) (v2transport : bool)
  | Disconnect (a : BitcoinSocketAddr)
  | UserPing
  | SendTransaction (tx : Transaction)
  | GetAddrManInfo
  | GetCFilterHeaders (start_height : Z) (stop_hash : BlockHash).
#[export] Instance UserRequest_eq_dec : EqDecision UserRequest.
Proof. solve_decision. Defined.

(** The sender of an answer: whether somebody waits at its other end. *)
Record Responder := mkResponder { resp_id : nat; resp_open : bool }.

(** [AssumeUtreexoValue]. *)
Record AssumeUtreexoValue := mkAssumed {
  au_block_hash : BlockHash;
  au_height : Z;
  au_roots : list NodeHash;
  au_leaves : Z
}.

Definition MAX_ADDRV2_ADDRESSES : nat := 1000.

(** The fields of [UtreexoNodeConfig] that the node reads. *)
Record UtreexoNodeConfig := mkConfig {
  cfg_network : Network;
  cfg_fixed_peers : list text;
  cfg_max_banscore : Z;
  allow_v1_fallback : bool;
  disable_dns_seeds : bool;
  filter_start_height : option Z;
  pow_fraud_proofs : bool;
  assume_utreexo : option AssumeUtreexoValue
}.

Record PeerInfo := mkPeerInfo {
  pi_id : PeerId;
  pi_address : BitcoinSocketAddr;
  pi_services : ServiceFlags;
  pi_user_agent : string;
  pi_initial_height : Z;
  pi_time_offset : Z;
  pi_state : PeerStatus;
  pi_kind : ConnectionKind;
  pi_transport : TransportProtocol
}.

Section NodeResponse.
Context `{UtreexoLib}.
Inductive NodeResponse :=
  | RespConfig (c : UtreexoNodeConfig)
  | RespBlock (b : option Block)
  | RespMempoolTransaction (tx : option Transaction)
  | RespGetPeerInfo (l : list PeerInfo)
  | RespGetConnectionCount (n : nat)
  | RespAdd (b : bool)
  | RespRemove (b : bool)
  | RespDisconnect (b : bool)
  | RespOnetry (b : bool)
  | RespPing (b : bool)
  | RespBroadcast (r : MempoolError + Txid)
  | RespGetAddrManInfo (s : ConnectionStats)
  | RespCFilterHeaders (h : CFHeaders).
End NodeResponse.

Inductive PeerMessages :=
  | MsgNewBlock (block : BlockHash)
  | MsgBlock (b : Block)
  | MsgHeaders (headers : list BlockHeader)
  | MsgAddr (addresses : list AddrV2Message)
  | MsgReady (v : Version)
  | MsgDisconnected (idx : Z)
  | MsgNotFound (inv : Inventory)
  | MsgTransaction (tx : Transaction)
  | MsgUtreexoState (bytes : list Z)
  | MsgBlockFilter (block : BlockHash) (filter : BlockFilter)
  | MsgUtreexoProof (proof : UtreexoProof)
  | MsgCFHeaders (h : CFHeaders).

Record AddedPeerInfo := mkAddedPeer { added_address : BitcoinSocketAddr; v1_fallback : bool }.

(** The tasks the node starts: a connection, whose peer will report back, and
    a lookup of the DNS seeds. *)
Inductive Spawned :=
  | SpawnConnection (peer : PeerId) (kind : ConnectionKind) (address : LocalAddress) (allow_v1_fallback : bool)
  | SpawnDnsSeeds.

(** [NodeContext], the constants that differ or that the code uses. *)
Record NodeContext := mkContext {
  REQUEST_TIMEOUT : Z;
  MAX_OUTGOING_PEERS : nat;
  MAX_INFLIGHT_REQUESTS : nat;
  BAN_TIME : Z;
  CONNECTION_TIMEOUT : Z;
  BLOCKS_PER_GETDATA : nat;
  MAX_CONCURRENT_GETDATA : nat;
  NEW_CONNECTIONS_BATCH_SIZE : nat;
  TIP_ASSUME_STALE : Z;
  TRY_NEW_CONNECTION : Z;
  FEELER_INTERVAL : Z
}.
Definition default_context (timeout : Z) (max_inflight : nat) : NodeContext :=
  mkContext timeout 10 max_inflight (60 * 60 * 24) 10 5 10 4 (15 * 60) 10 30.
Definition RunningNode : NodeContext := default_context (2 * 60) 1000.
Definition SyncNode : NodeContext := default_context (60 * 2) 100.
Definition ChainSelector : NodeContext := mkContext 60 10 1000 (60 * 60 * 24) 10 5 10 12 (15 * 60) 10 30.

Record Timers := mkTimers {
  last_tip_update : Z;
  last_connection : Z;
  last_feeler : Z;
  startup_time : Z;
  last_dns_seed_call : Z;
  last_peer_db_dump : Z;
  last_get_address_request : Z;
  last_send_addresses : Z
}.
Definition set_last_tip_update (x : Z) (t : Timers) : Timers :=
  mkTimers x (last_connection t) (last_feeler t) (startup_time t)
    (last_dns_seed_call t) (last_peer_db_dump t) (last_get_address_request t) (last_send_addresses t).
Definition set_last_connection (x : Z) (t : Timers) : Timers :=
  mkTimers (last_tip_update t) x (last_feeler t) (startup_time t)
    (last_dns_seed_call t) (last_peer_db_dump t) (last_get_address_request t) (last_send_addresses t).
Definition set_last_feeler (x : Z) (t : Timers) : Timers :=
  mkTimers (last_tip_update t) (last_connection t) x (startup_time t)
    (last_dns_seed_call t) (last_peer_db_dump t) (last_get_address_request t) (last_send_addresses t).
Definition set_last_dns_seed_call (x : Z) (t : Timers) : Timers :=
  mkTimers (last_tip_update t) (last_connection t) (last_feeler t) (startup_time t)
    x (last_peer_db_dump t) (last_get_address_request t) (last_send_addresses t).
Definition set_last_peer_db_dump (x : Z) (t : Timers) : Timers :=
  mkTimers (last_tip_update t) (last_connection t) (last_feeler t) (startup_time t)
    (last_dns_seed_call t) x (last_get_address_request t) (last_send_addresses t).
Definition set_last_get_address_request (x : Z) (t : Timers) : Timers :=
  mkTimers (last_tip_update t) (last_connection t) (last_feeler t) (startup_time t)
    (last_dns_seed_call t) (last_peer_db_dump t) x (last_send_addresses t).
Definition set_last_send_addresses (x : Z) (t : Timers) : Timers :=
  mkTimers (last_tip_update t) (last_connection t) (last_feeler t) (startup_time t)
    (last_dns_seed_call t) (last_peer_db_dump t) (last_get_address_request t) x.

(** * Interfaces *)

(** The methods of [BlockchainInterface] and [UpdatableChainstate] that the
    node calls on its chain. *)
Class ChainBackend `{UtreexoLib} (C : Type) := {
  chain_best_block : C -> outcome BlockchainError (Z * BlockHash);
  chain_height : C -> outcome BlockchainError Z;
  chain_validation_index : C -> outcome BlockchainError Z;
  chain_assume_valid_height : C -> outcome BlockchainError (option Z);
  chain_block_hash : C -> Z -> outcome BlockchainError BlockHash;
  chain_mtp_by_height : C -> Z -> outcome BlockchainError Z;
  chain_block_locator : C -> outcome BlockchainError (list BlockHash);
  chain_block_header : C -> BlockHash -> outcome BlockchainError BlockHeader;
  chain_block_height : C -> BlockHash -> outcome BlockchainError (option Z);
  chain_locator_for_tip : C -> BlockHash -> outcome BlockchainError (list BlockHash);
  chain_tips : C -> outcome BlockchainError (list BlockHash);
  chain_fork_point : C -> BlockHash -> outcome BlockchainError BlockHash;
  chain_validate_block : C -> Block -> Proof_ -> gmap OutPoint UtxoData -> list Z -> Stump -> outcome BlockchainError unit;
  chain_update_acc : C -> Stump -> Block -> Z -> Proof_ -> list Z -> outcome BlockchainError Stump;
  chain_switch_chain : BlockHash -> stm C BlockchainError unit;
  chain_mark_assumed : Stump -> BlockHash -> stm C BlockchainError bool;
  chain_accept_header : BlockHeader -> stm C BlockchainError unit;
  chain_connect_block : Block -> Proof_ -> gmap OutPoint UtxoData -> list Z -> stm C BlockchainError Z;
  chain_invalidate_block : BlockHash -> stm C BlockchainError unit;
  chain_update_ibd : IBDState -> C -> C;
  chain_flush : stm C BlockchainError unit
}.

(** [MempoolBase::accept_to_mempool]. *)
Class MempoolBase `{UtreexoLib} (MP : Type) := mempool_accept : Transaction -> stm MP MempoolError unit.

(** The struct literal of rustreexo's [Proof]. *)
Class ProofBuild `{UtreexoLib} := proof_of : list NodeHash -> list Z -> Proof_.
Definition proof_default `{ProofBuild} : Proof_ := proof_of [] [].

(** The struct literal of rustreexo's [Stump], and [BitcoinNodeHash::from] on 32
    bytes. *)
Class StumpBuild `{UtreexoLib} := {
  stump_of : Z -> list NodeHash -> Stump;
  node_hash_from : list Z -> NodeHash
}.

(** The order in which the hash maps of the node are visited. *)
Class HashOrder := {
  order_addresses : Order;
  order_inflight : gmap InflightRequests (PeerId * Z) -> list InflightRequests;
  order_peers : gmap Z LocalPeerView -> list PeerId;
  order_blocks : gset Z -> list BlockHash
}.

Section WireError.
Context `{UtreexoLib}.
Inductive WireError :=
  | Blockchain (e : BlockchainError)
  | ChannelSend (request : NodeRequest)
  | NoPeersAvailable
  | PeerMisbehaving
  | PeerTimeout
  | PeerAlreadyExists (a : LocalAddress)
  | PeerNotFoundAtAddress (a : BitcoinSocketAddr)
  | CompactBlockFiltersError (e : IterableFilterStoreError)
  | ResponseSendError
  | NoAddressesAvailable
  | BlockNotFound
  | BlockProofNotFound.
End WireError.

(** * The node *)

Section NodeData.
Context `{UtreexoLib} {C MP : Type}.

(** A block that was downloaded, and what is known of it. *)
Record InflightBlock := mkInflight {
  ib_peer : PeerId;
  ib_block : Block;
  aux_data : option (list CompactLeafData * Proof_ * PeerId);
  processing_since : option Z
}.

(** The fields of [NodeCommon]; the last four stand for the outside world: the
    random draws to come, the tasks started, the answers given to users, and
    the files of peers in the data directory. *)
Record NodeCommon := mkNode {
  chain : C;
  blocks : gmap Z InflightBlock;
  mempool : MP;
  block_filters : option FlatFiltersStore;
  last_filter : BlockHash;
  peer_id_count : PeerId;
  peer_ids : list PeerId;
  peers : gmap Z LocalPeerView;
  peer_by_service : gmap Z (list PeerId);
  address_man : AddressMan;
  added_peers : list AddedPeerInfo;
  fixed_peers : list LocalAddress;
  inflight : gmap InflightRequests (PeerId * Z);
  inflight_user_requests : list (UserRequest * (PeerId * Z * Responder));
  timers : Timers;
  last_block_request : Z;
  used_fixed_addresses : bool;
  config : UtreexoNodeConfig;
  witness_mode : WitnessMode;
  kill_signal : bool;
  draws : list (nat -> nat);
  spawned : list Spawned;
  responses : list (Responder * NodeResponse);
  peer_files : PeerFiles
}.
End NodeData.
Arguments NodeCommon {_} C MP.

Section Node.
Context `{UtreexoLib} {C MP : Type}.
Abbreviation Node := (NodeCommon C MP) (only parsing).
Abbreviation M := (stm (NodeCommon C MP) WireError) (only parsing).

(** ** Field updates *)

Definition set_chain (x : C) (n : Node) : Node :=
  mkNode x (blocks n) (mempool n) (block_filters n) (last_filter n) (peer_id_count n) (peer_ids n) (peers
  n) (peer_by_service n) (address_man n) (added_peers n) (fixed_peers n) (inflight n)
  (inflight_user_requests n) (timers n) (last_block_request n) (used_fixed_addresses n) (config n)
  (witness_mode n) (kill_signal n) (draws n) (spawned n) (responses n) (peer_files n).
Definition set_blocks (x : gmap Z InflightBlock) (n : Node) : Node :=
  mkNode (chain n) x (mempool n) (block_filters n) (last_filter n) (peer_id_count n) (peer_ids n) (peers
  n) (peer_by_service n) (address_man n) (added_peers n) (fixed_peers n) (inflight n)
  (inflight_user_requests n) (timers n) (last_block_request n) (used_fixed_addresses n) (config n)
  (witness_mode n) (kill_signal n) (draws n) (spawned n) (responses n) (peer_files n).
Definition set_mempool (x : MP) (n : Node) : Node :=
  mkNode (chain n) (blocks n) x (block_filters n) (last_filter n) (peer_id_count n) (peer_ids n) (peers n)
  (peer_by_service n) (address_man n) (added_peers n) (fixed_peers n) (inflight n) (inflight_user_requests
  n) (timers n) (last_block_request n) (used_fixed_addresses n) (config n) (witness_mode n) (kill_signal
  n) (draws n) (spawned n) (responses n) (peer_files n).
Definition set_block_filters (x : option FlatFiltersStore) (n : Node) : Node :=
  mkNode (chain n) (blocks n) (mempool n) x (last_filter n) (peer_id_count n) (peer_ids n) (peers n)
  (peer_by_service n) (address_man n) (added_peers n) (fixed_peers n) (inflight n) (inflight_user_requests
  n) (timers n) (last_block_request n) (used_fixed_addresses n) (config n) (witness_mode n) (kill_signal
  n) (draws n) (spawned n) (responses n) (peer_files n).
Definition set_last_filter (x : BlockHash) (n : Node) : Node :=
  mkNode (chain n) (blocks n) (mempool n) (block_filters n) x (peer_id_count n) (peer_ids n) (peers n)
  (peer_by_service n) (address_man n) (added_peers n) (fixed_peers n) (inflight n) (inflight_user_requests
  n) (timers n) (last_block_request n) (used_fixed_addresses n) (config n) (witness_mode n) (kill_signal
  n) (draws n) (spawned n) (responses n) (peer_files n).
Definition set_peer_id_count (x : PeerId) (n : Node) : Node :=
  mkNode (chain n) (blocks n) (mempool n) (block_filters n) (last_filter n) x (peer_ids n) (peers n)
  (peer_by_service n) (address_man n) (added_peers n) (fixed_peers n) (inflight n) (inflight_user_requests
  n) (timers n) (last_block_request n) (used_fixed_addresses n) (config n) (witness_mode n) (kill_signal
  n) (draws n) (spawned n) (responses n) (peer_files n).
Definition set_peer_ids (x : list PeerId) (n : Node) : Node :=
  mkNode (chain n) (blocks n) (mempool n) (block_filters n) (last_filter n) (peer_id_count n) x (peers n)
  (peer_by_service n) (address_man n) (added_peers n) (fixed_peers n) (inflight n) (inflight_user_requests
  n) (timers n) (last_block_request n) (used_fixed_addresses n) (config n) (witness_mode n) (kill_signal
  n) (draws n) (spawned n) (responses n) (peer_files n).
Definition set_peers (x : gmap Z LocalPeerView) (n : Node) : Node :=
  mkNode (chain n) (blocks n) (mempool n) (block_filters n) (last_filter n) (peer_id_count n) (peer_ids n)
  x (peer_by_service n) (address_man n) (added_peers n) (fixed_peers n) (inflight n)
  (inflight_user_requests n) (timers n) (last_block_request n) (used_fixed_addresses n) (config n)
  (witness_mode n) (kill_signal n) (draws n) (spawned n) (responses n) (peer_files n).
Definition set_peer_by_service (x : gmap Z (list PeerId)) (n : Node) : Node :=
  mkNode (chain n) (blocks n) (mempool n) (block_filters n) (last_filter n) (peer_id_count n) (peer_ids n)
  (peers n) x (address_man n) (added_peers n) (fixed_peers n) (inflight n) (inflight_user_requests n)
  (timers n) (last_block_request n) (used_fixed_addresses n) (config n) (witness_mode n) (kill_signal n)
  (draws n) (spawned n) (responses n) (peer_files n).
Definition set_address_man (x : AddressMan) (n : Node) : Node :=
  mkNode (chain n) (blocks n) (mempool n) (block_filters n) (last_filter n) (peer_id_count n) (peer_ids n)
  (peers n) (peer_by_service n) x (added_peers n) (fixed_peers n) (inflight n) (inflight_user_requests n)
  (timers n) (last_block_request n) (used_fixed_addresses n) (config n) (witness_mode n) (kill_signal n)
  (draws n) (spawned n) (responses n) (peer_files n).
Definition set_added_peers (x : list AddedPeerInfo) (n : Node) : Node :=
  mkNode (chain n) (blocks n) (mempool n) (block_filters n) (last_filter n) (peer_id_count n) (peer_ids n)
  (peers n) (peer_by_service n) (address_man n) x (fixed_peers n) (inflight n) (inflight_user_requests n)
  (timers n) (last_block_request n) (used_fixed_addresses n) (config n) (witness_mode n) (kill_signal n)
  (draws n) (spawned n) (responses n) (peer_files n).
Definition set_inflight (x : gmap InflightRequests (PeerId * Z)) (n : Node) : Node :=
  mkNode (chain n) (blocks n) (mempool n) (block_filters n) (last_filter n) (peer_id_count n) (peer_ids n)
  (peers n) (peer_by_service n) (address_man n) (added_peers n) (fixed_peers n) x (inflight_user_requests
  n) (timers n) (last_block_request n) (used_fixed_addresses n) (config n) (witness_mode n) (kill_signal
  n) (draws n) (spawned n) (responses n) (peer_files n).
Definition set_inflight_user_requests (x : list (UserRequest * (PeerId * Z * Responder))) (n : Node) : Node :=
  mkNode (chain n) (blocks n) (mempool n) (block_filters n) (last_filter n) (peer_id_count n) (peer_ids n)
  (peers n) (peer_by_service n) (address_man n) (added_peers n) (fixed_peers n) (inflight n) x (timers n)
  (last_block_request n) (used_fixed_addresses n) (config n) (witness_mode n) (kill_signal n) (draws n)
  (spawned n) (responses n) (peer_files n).
Definition set_timers (x : Timers) (n : Node) : Node :=
  mkNode (chain n) (blocks n) (mempool n) (block_filters n) (last_filter n) (peer_id_count n) (peer_ids n)
  (peers n) (peer_by_service n) (address_man n) (added_peers n) (fixed_peers n) (inflight n)
  (inflight_user_requests n) x (last_block_request n) (used_fixed_addresses n) (config n) (witness_mode n)
  (kill_signal n) (draws n) (spawned n) (responses n) (peer_files n).
Definition set_last_block_request (x : Z) (n : Node) : Node :=
  mkNode (chain n) (blocks n) (mempool n) (block_filters n) (last_filter n) (peer_id_count n) (peer_ids n)
  (peers n) (peer_by_service n) (address_man n) (added_peers n) (fixed_peers n) (inflight n)
  (inflight_user_requests n) (timers n) x (used_fixed_addresses n) (config n) (witness_mode n)
  (kill_signal n) (draws n) (spawned n) (responses n) (peer_files n).
Definition set_used_fixed_addresses (x : bool) (n : Node) : Node :=
  mkNode (chain n) (blocks n) (mempool n) (block_filters n) (last_filter n) (peer_id_count n) (peer_ids n)
  (peers n) (peer_by_service n) (address_man n) (added_peers n) (fixed_peers n) (inflight n)
  (inflight_user_requests n) (timers n) (last_block_request n) x (config n) (witness_mode n) (kill_signal
  n) (draws n) (spawned n) (responses n) (peer_files n).
Definition set_witness_mode (x : WitnessMode) (n : Node) : Node :=
  mkNode (chain n) (blocks n) (mempool n) (block_filters n) (last_filter n) (peer_id_count n) (peer_ids n)
  (peers n) (peer_by_service n) (address_man n) (added_peers n) (fixed_peers n) (inflight n)
  (inflight_user_requests n) (timers n) (last_block_request n) (used_fixed_addresses n) (config n)
  x (kill_signal n) (draws n) (spawned n) (responses n) (peer_files n).
Definition set_draws (x : list (nat -> nat)) (n : Node) : Node :=
  mkNode (chain n) (blocks n) (mempool n) (block_filters n) (last_filter n) (peer_id_count n) (peer_ids n)
  (peers n) (peer_by_service n) (address_man n) (added_peers n) (fixed_peers n) (inflight n)
  (inflight_user_requests n) (timers n) (last_block_request n) (used_fixed_addresses n) (config n)
  (witness_mode n) (kill_signal n) x (spawned n) (responses n) (peer_files n).
Definition set_spawned (x : list Spawned) (n : Node) : Node :=
  mkNode (chain n) (blocks n) (mempool n) (block_filters n) (last_filter n) (peer_id_count n) (peer_ids n)
  (peers n) (peer_by_service n) (address_man n) (added_peers n) (fixed_peers n) (inflight n)
  (inflight_user_requests n) (timers n) (last_block_request n) (used_fixed_addresses n) (config n)
  (witness_mode n) (kill_signal n) (draws n) x (responses n) (peer_files n).
Definition set_responses (x : list (Responder * NodeResponse)) (n : Node) : Node :=
  mkNode (chain n) (blocks n) (mempool n) (block_filters n) (last_filter n) (peer_id_count n) (peer_ids n)
  (peers n) (peer_by_service n) (address_man n) (added_peers n) (fixed_peers n) (inflight n)
  (inflight_user_requests n) (timers n) (last_block_request n) (used_fixed_addresses n) (config n)
  (witness_mode n) (kill_signal n) (draws n) (spawned n) x (peer_files n).
Definition set_peer_files (x : PeerFiles) (n : Node) : Node :=
  mkNode (chain n) (blocks n) (mempool n) (block_filters n) (last_filter n) (peer_id_count n) (peer_ids n)
  (peers n) (peer_by_service n) (address_man n) (added_peers n) (fixed_peers n) (inflight n)
  (inflight_user_requests n) (timers n) (last_block_request n) (used_fixed_addresses n) (config n)
  (witness_mode n) (kill_signal n) (draws n) (spawned n) (responses n) x.

(** * Sending to peers *)

Definition set_channel (l : list NodeRequest) (p : LocalPeerView) : LocalPeerView :=
  mkPeer (message_times p) (p_state p) l (channel_open p) (p_services p) (user_agent p) (p_address p) (kind p)
    (p_height p) (time_offset p) (banscore p) (transport_protocol p).
Definition set_p_state (s : PeerStatus) (p : LocalPeerView) : LocalPeerView :=
  mkPeer (message_times p) s (channel p) (channel_open p) (p_services p) (user_agent p) (p_address p) (kind p)
    (p_height p) (time_offset p) (banscore p) (transport_protocol p).
Definition set_kind (k : ConnectionKind) (p : LocalPeerView) : LocalPeerView :=
  mkPeer (message_times p) (p_state p) (channel p) (channel_open p) (p_services p) (user_agent p) (p_address p) k
    (p_height p) (time_offset p) (banscore p) (transport_protocol p).
Definition set_banscore (b : Z) (p : LocalPeerView) : LocalPeerView :=
  mkPeer (message_times p) (p_state p) (channel p) (channel_open p) (p_services p) (user_agent p) (p_address p) (kind p)
    (p_height p) (time_offset p) b (transport_protocol p).
Definition set_message_times (t : option Z) (p : LocalPeerView) : LocalPeerView :=
  mkPeer t (p_state p) (channel p) (channel_open p) (p_services p) (user_agent p) (p_address p) (kind p)
    (p_height p) (time_offset p) (banscore p) (transport_protocol p).

Definition alter_peer (f : LocalPeerView -> LocalPeerView) (id : PeerId) (n : Node) : Node :=
  set_peers (alter f id (peers n)) n.

(** The next random draw, a stream of numbers. *)
Definition draw_stream : M (nat -> nat) := fun n =>
  (Ok (hd (fun _ => 0%nat) (draws n)), set_draws (tail (draws n)) n).
Definition draw : M nat := r ← draw_stream; mret (r 0%nat).

(** [channel.send] of a peer that is known. *)
Definition push_request (req : NodeRequest) (p : LocalPeerView) : LocalPeerView := set_channel (channel p ++ [req]) p.
Definition send_on_channel (id : PeerId) (req : NodeRequest) : M unit := fun n =>
  match peers n !! id with
  | None => (Ok tt, n)
  | Some p => if channel_open p then (Ok tt, alter_peer (push_request req) id n) else (Err (ChannelSend req), n)
  end.

(** [choose_peer_by_latency]: any ready peer with the service and a latency may
    be drawn; the weights only change the probabilities. *)
Definition latency_candidates (service : ServiceFlags) (n : Node) : list PeerId :=
  (filter (fun x => has (p_services x.2) service = true /\ p_state x.2 = Ready /\ is_Some (message_times x.2))
     (map_to_list (peers n))).*1.
Definition choose_peer_by_latency (service : ServiceFlags) : M (option PeerId) :=
  r ← draw; gets (fun n => Ok (choose r (latency_candidates service n))).

Definition has_fixed_peers (n : Node) : bool := negb (bool_decide (fixed_peers n = [])).

Definition connected_peers (n : Node) : nat :=
  length (filter (fun x => p_state x.2 = Ready /\ is_long_lived (kind x.2) = true) (map_to_list (peers n))).

Definition send_to_fast_peer (request : NodeRequest) (required_service : ServiceFlags) : M PeerId :=
  found ← choose_peer_by_latency required_service;
  id ← lift (ok_or found NoPeersAvailable);
  _ ← send_on_channel id request;
  mret id.

(** The peers a request for a service may go to. *)
Definition peers_with_service (required_service : ServiceFlags) (n : Node) : outcome WireError (list PeerId) :=
  if required_service =? NONE then Ok (peer_ids n)
  else ok_or (peer_by_service n !! required_service) NoPeersAvailable.

Definition send_to_random_peer (req : NodeRequest) (required_service : ServiceFlags) : M PeerId :=
  n ← gets Ok;
  _ ← lift (err_if (bool_decide (peers n = ∅)) NoPeersAvailable);
  ids ← gets (peers_with_service required_service);
  _ ← lift (err_if (bool_decide (ids = [])) NoPeersAvailable);
  r ← draw;
  id ← lift (expect (choose r ids));
  _ ← lift (ok_or (peers n !! id) NoPeersAvailable);
  _ ← send_on_channel id req;
  mret id.

Definition send_to_random_peer_with_predicate (req : NodeRequest) (required_service : ServiceFlags)
  (predicate : LocalPeerView -> bool) : M PeerId :=
  n ← gets Ok;
  _ ← lift (err_if (bool_decide (peers n = ∅)) NoPeersAvailable);
  ids ← gets (peers_with_service required_service);
  r ← draw;
  id ← lift (ok_or (choose r (filter (fun id => from_option predicate false (peers n !! id) = true) ids)) NoPeersAvailable);
  _ ← send_on_channel id req;
  mret id.

Definition send_to_peer (peer_id : PeerId) (req : NodeRequest) : M unit := fun n =>
  match peers n !! peer_id with
  | Some p => if bool_decide (p_state p = Awaiting) then (Ok tt, n) else send_on_channel peer_id req n
  | None => (Ok tt, n)
  end.

Definition broadcast_to (request : NodeRequest) (p : LocalPeerView) : LocalPeerView :=
  if negb (bool_decide (p_state p = Ready)) then p
  else if is_broadcast_transaction request && negb (is_full_relay (kind p)) then p
  else if channel_open p then push_request request p else p.
Definition broadcast_to_peers (request : NodeRequest) (n : Node) : Node :=
  set_peers (broadcast_to request <$> peers n) n.

Definition ask_for_addresses : M unit :=
  _ ← send_to_random_peer_with_predicate GetAddresses NONE
        (fun p => bool_decide (p_state p = Ready) && is_full_relay (kind p));
  mret tt.

(** * Misbehaving peers *)

Definition disconnect_and_ban (peer : PeerId) : M unit := fun n =>
  match peers n !! peer with
  | Some p =>
      if is_manual (kind p) then (Ok tt, n)
      else send_to_peer peer Shutdown (alter_peer (set_p_state BannedPeer) peer n)
  | None => send_to_peer peer Shutdown n
  end.

Definition increase_banscore (peer_id : PeerId) (factor : Z) : M unit :=
  n ← gets Ok;
  match peers n !! peer_id with
  | None => mret tt
  | Some p =>
      if is_manual (kind p) then mret tt
      else
        score ← lift (u32_add (banscore p) factor);
        _ ← modify (alter_peer (set_banscore score) peer_id);
        if (cfg_max_banscore (config n) <=? score) || bool_decide (kind p = Extra) then disconnect_and_ban peer_id
        else mret tt
  end.

Definition has_utreexo_peers (n : Node) : bool :=
  negb (bool_decide (default [] (peer_by_service n !! UTREEXO) = [])).
Definition has_compact_filters_peer (n : Node) : bool :=
  match peer_by_service n !! COMPACT_FILTERS with Some l => negb (bool_decide (l = [])) | None => false end.

Definition get_peer_info (peer_id : PeerId) (n : Node) : option PeerInfo :=
  p ← peers n !! peer_id;
  Some (mkPeerInfo peer_id (la_address (p_address p)) (p_services p) (user_agent p) (p_height p) (time_offset p)
          (p_state p) (kind p) (transport_protocol p)).

(** Calls of the chain, with the error converted by [?], or with their writes. *)
Definition chain_step {E A} (m : stm C E A) : stm Node E A := fun n =>
  let '(o, c) := m (chain n) in (o, set_chain c n).
Definition chain_do {A} (m : stm C BlockchainError A) : M A := fun n =>
  let '(o, c) := m (chain n) in (map_err Blockchain o, set_chain c n).
Definition on_chain `{!ChainBackend C} {A} (f : C -> outcome BlockchainError A) : M A :=
  gets (fun n => map_err Blockchain (f (chain n))).

(** [try_and_log!] and [let _ =]: an error is dropped. *)
Definition ignore_err {E A} (m : stm Node E A) : M unit := fun n =>
  match m n with
  | (Ok _, n') | (Err _, n') => (Ok tt, n')
  | (Panic, n') => (Panic, n')
  | (Diverge, n') => (Diverge, n')
  end.

(** * Requests of users *)

Definition user_request (r : UserRequest) (n : Node) : option (PeerId * Z * Responder) :=
  snd <$> find (fun x => bool_decide (x.1 = r)) (inflight_user_requests n).
Definition remove_user_request (r : UserRequest) (n : Node) : Node :=
  set_inflight_user_requests (filter (fun x => x.1 <> r) (inflight_user_requests n)) n.
(** [responder.send]. *)
Definition respond (r : Responder) (a : NodeResponse) (n : Node) : Node :=
  if resp_open r then set_responses (responses n ++ [(r, a)]) n else n.

(** A pending request is removed and answered, if there is one. *)
Definition answer_user_request (r : UserRequest) (a : NodeResponse) : M bool := fun n =>
  match user_request r n with
  | None => (Ok false, n)
  | Some (_, _, resp) =>
      let n := remove_user_request r n in
      if resp_open resp then (Ok true, respond resp a n) else (Err ResponseSendError, n)
  end.
End Node.
