(* ===== verification/NodeBlocks.v ===== *)
(** Blocks on their way to the chain
    ([src/crates/floresta-wire/src/p2p_wire/node/blocks.rs]): requesting blocks
    and proofs, processing the ones that are ready in order, and blaming the
    peer that sent invalid data. *)

From stdpp Require Import base gmap list strings.
From Stdlib Require Import ZArith Lia.
From S2P Require Import Prelude Bitcoin Errors Codec Sigops Udata ChainQuery BlockProof AddressMan Node.

Section NodeBlocks.
Context `{HashLib, TxLib, HeaderLib, UtreexoLib, ScriptBuild} `{!Codec TxOut}.
Context {C MP : Type} `{!ProofBuild, !ChainBackend C, !HashOrder}.
Context (T : NodeContext) (now : Z).

Abbreviation Node := (NodeCommon C MP) (only parsing).
Abbreviation M := (stm (NodeCommon C MP) WireError) (only parsing).

(** * Downloads *)

Definition inflight_new (block : Block) (peer : PeerId) : InflightBlock :=
  mkInflight peer block
    (match length (txdata block) with 1%nat => Some ([], proof_default, peer) | _ => None end) None.
Definition add_utreexo_data (leaf_data : list CompactLeafData) (proof : Proof_) (peer : PeerId) (b : InflightBlock)
  : InflightBlock :=
  mkInflight (ib_peer b) (ib_block b) (Some (leaf_data, proof, peer)) (processing_since b).

Definition is_block_request (r : InflightRequests) : bool := match r with InBlocks _ => true | _ => false end.
Definition unprocessed_blocks (n : Node) : nat :=
  (size (blocks n) + length (filter (fun x => is_block_request x.1 = true) (map_to_list (inflight n))))%nat.
Definition can_request_more_blocks (n : Node) : bool :=
  (unprocessed_blocks n + BLOCKS_PER_GETDATA T <=? BLOCKS_PER_GETDATA T * MAX_CONCURRENT_GETDATA T)%nat.

Definition should_request (n : Node) (block : BlockHash) : Prop :=
  inflight n !! InBlocks block = None /\ blocks n !! block = None.
#[export] Instance should_request_dec n block : Decision (should_request n block).
Proof. unfold should_request. apply _. Defined.

Definition insert_inflight (r : InflightRequests) (peer : PeerId) (n : Node) : Node :=
  set_inflight (<[r := (peer, now)]> (inflight n)) n.
Definition remove_inflight (r : InflightRequests) (n : Node) : Node := set_inflight (delete r (inflight n)) n.

Definition request_blocks (hashes : list BlockHash) : M unit :=
  n ← gets Ok;
  let hashes := filter (should_request n) hashes in
  if bool_decide (hashes = []) then mret tt
  else
    peer ← send_to_fast_peer (GetBlock hashes (witness_mode n)) NETWORK;
    modify (fun n => foldl (fun n h => insert_inflight (InBlocks h) peer n) n hashes).

(** [check_is_user_block_and_reply]: the block, unless a user asked for it. *)
Definition check_is_user_block_and_reply (block : Block) : M (option Block) :=
  answered ← answer_user_request (UserBlock (blk_hash block)) (RespBlock (Some block));
  mret (if (answered : bool) then None else Some block).

Definition request_proof (block : BlockHash) : M unit :=
  peer ← send_to_fast_peer (GetBlockProof block bitmap_new bitmap_new) UTREEXO;
  modify (insert_inflight (InUtreexoProof block) peer).

Definition request_block_proof (block : Block) (peer : PeerId) : M unit :=
  let hash := blk_hash block in
  _ ← modify (remove_inflight (InBlocks hash));
  found ← check_is_user_block_and_reply block;
  match found with
  | None => mret tt
  | Some block =>
      _ ← modify (fun n => set_blocks (<[hash := inflight_new block peer]> (blocks n)) n);
      if (length (txdata block) =? 1)%nat then mret tt else request_proof hash
  end.

Definition attach_proof (uproof : UtreexoProof) (peer : PeerId) : M unit :=
  _ ← modify (remove_inflight (InUtreexoProof (up_block_hash uproof)));
  n ← gets Ok;
  match blocks n !! up_block_hash uproof with
  | None => increase_banscore peer 5
  | Some block =>
      let proof := proof_of (proof_hashes uproof) (targets uproof) in
      modify (set_blocks (<[up_block_hash uproof := add_utreexo_data (leaf_data uproof) proof peer block]> (blocks n)))
  end.

(** The blocks without a proof and without a request for it. *)
Definition missing_proof (n : Node) (hash : BlockHash) : bool :=
  match blocks n !! hash with
  | Some b => negb (bool_decide (is_Some (aux_data b))) && negb (bool_decide (is_Some (inflight n !! InUtreexoProof hash)))
  | None => false
  end.
Fixpoint request_proofs (hashes : list BlockHash) : M unit :=
  match hashes with
  | [] => mret tt
  | h :: rest => _ ← request_proof h; request_proofs rest
  end.
Definition ask_for_missed_proofs : M unit :=
  n ← gets Ok;
  if negb (has_utreexo_peers n) then mret tt
  else request_proofs (filter (fun h => missing_proof n h = true) (order_blocks (dom (blocks n)))).

(** * Blame *)

Definition block_validation_err (e : BlockchainError) : option BlockValidationErrors :=
  match e with
  | TransactionErr tx_err => Some (te_error tx_err)
  | BlockValidation block_err => Some block_err
  | AccumulatorError _ | InvalidUtreexoProofErr | UtreexoLeaf _ => Some InvalidUtreexoProof
  | _ => None
  end.

Definition is_same_block_spend (block : Block) (outpoint : OutPoint) : bool :=
  existsb (fun tx => compute_txid tx =? op_txid outpoint) (txdata block).

Definition blame_block_peer_for_block_error (e : BlockValidationErrors) (block_peer : PeerId) (hash : BlockHash)
  : M (option PeerId) :=
  match e with
  | InvalidCoinbase _ | ScriptValidationError _ | NullPrevOut | DuplicateInput | EmptyInputs | EmptyOutputs
  | ScriptError | BlockTooBig | TooManySigops | NotEnoughPow | BadDiffBits | BadVersion | TooManyCoins
  | NotEnoughMoney | FirstTxIsNotCoinbase | BadCoinbaseOutValue | EmptyBlock | BadBip34 | BIP94TimeWarp
  | UnspendableUTXO | NonFinalTransaction | CoinbaseNotMatured | UtxoNotFound _ | BadRelativeLockTime =>
      _ ← ignore_err (chain_step (chain_invalidate_block hash));
      mret None
  | BadMerkleRoot | BadWitnessCommitment => mret (Some block_peer)
  | BlockExtendsAnOrphanChain | BlockDoesntExtendTip =>
      vi ← gets (fun n => match chain_validation_index (chain n) with Err _ => Ok 0 | o => map_err Blockchain o end);
      _ ← modify (set_last_block_request vi);
      mret None
  | InvalidUtreexoProof => mret None
  end.

Definition blame_peer_for_block_error (e : BlockValidationErrors) (block : Block) (block_peer utreexo_peer : PeerId)
  : M (option PeerId) :=
  let hash := blk_hash block in
  let keep := modify (fun n => set_blocks (<[hash := inflight_new block block_peer]> (blocks n)) n) in
  match e with
  | InvalidUtreexoProof => _ ← keep; mret (Some utreexo_peer)
  | UtxoNotFound outpoint =>
      if negb (is_same_block_spend block outpoint) then _ ← keep; mret (Some utreexo_peer)
      else blame_block_peer_for_block_error e block_peer hash
  | _ => blame_block_peer_for_block_error e block_peer hash
  end.

Definition handle_block_error (chain_err : BlockchainError) (block : Block) (block_peer : PeerId)
  (utreexo_peer : option PeerId) : M unit :=
  match block_validation_err chain_err with
  | None => mret tt
  | Some e =>
      blamed ← (match utreexo_peer with
                | Some u => blame_peer_for_block_error e block block_peer u
                | None => blame_block_peer_for_block_error e block_peer (blk_hash block)
                end);
      match blamed with
      | None => mret tt
      | Some peer => _ ← disconnect_and_ban peer; lift (Err PeerMisbehaving)
      end
  end.

(** Every error of the two steps comes from the chain. *)
Definition handle_process_block_error (err : WireError) (block : Block) (block_peer utreexo_peer : PeerId) : M unit :=
  match err with
  | Blockchain chain_err => handle_block_error chain_err block block_peer (Some utreexo_peer)
  | _ => lift (Err err)
  end.

(** * Processing *)

Definition connect_or_blame (block : Block) (proof : Proof_) (inputs : gmap OutPoint UtxoData) (del_hashes : list Z)
  (block_peer utreexo_peer : PeerId) : M unit := fun n =>
  match chain_step (chain_connect_block block proof inputs del_hashes) n with
  | (Panic, n) => (Panic, n)
  | (Diverge, n) => (Diverge, n)
  | (Err e, n) => handle_process_block_error (Blockchain e) block block_peer utreexo_peer n
  | (Ok _, n) => (Ok tt, set_timers (set_last_tip_update now (timers n)) n)
  end.

Definition process_block (block_hash : BlockHash) : M unit :=
  n ← gets Ok;
  ib ← lift (ok_or (blocks n !! block_hash) BlockNotFound);
  _ ← modify (set_blocks (delete block_hash (blocks n)));
  aux ← lift (ok_or (aux_data ib) BlockProofNotFound);
  let '(leaves, proof, utreexo_peer) := aux in
  match process_proof UtreexoLeaf (chain_block_hash (chain n)) (chain_mtp_by_height (chain n)) leaves
          (txdata (ib_block ib)) with
  | Panic => lift Panic
  | Diverge => lift Diverge
  | Err e => handle_process_block_error (Blockchain e) (ib_block ib) (ib_peer ib) utreexo_peer
  | Ok (del_hashes, inputs) => connect_or_blame (ib_block ib) proof inputs del_hashes (ib_peer ib) utreexo_peer
  end.

(** The loop of [process_pending_blocks]; every round takes a block out of the
    map. *)
Fixpoint process_loop (fuel : nat) : M unit :=
  match fuel with
  | O => lift Diverge
  | S k =>
      best ← on_chain chain_best_block;
      vi ← on_chain chain_validation_index;
      next_block ← lift (u32_add vi 1);
      if best.1 <? next_block then mret tt
      else
        next_block_hash ← on_chain (fun c => chain_block_hash c next_block);
        n ← gets Ok;
        match blocks n !! next_block_hash with
        | None => mret tt
        | Some b =>
            match aux_data b with
            | None => mret tt
            | Some _ => _ ← process_block next_block_hash; process_loop k
            end
        end
  end.
Definition process_pending_blocks : M unit := fun n => process_loop (S (size (blocks n))) n.
End NodeBlocks.
