(* ===== verification/NodePeers.v ===== *)
(** The life of peers and of the requests made to them
    ([src/crates/floresta-wire/src/p2p_wire/node/peer_man.rs]): handshakes,
    disconnections, timeouts and retries, and the messages every context
    handles alike. *)

From stdpp Require Import base gmap list strings.
From Stdlib Require Import ZArith Lia.
From S2P Require Import Prelude Bitcoin Errors Codec Sigops Udata ChainQuery Filters BlockProof Text Onion SocketAddr.
From S2P Require Import AddressMan Node NodeBlocks.

Section NodePeers.
Context `{HashLib, TxLib, HeaderLib, UtreexoLib, ScriptBuild} `{!Codec TxOut}.
Context {C MP : Type} `{!ProofBuild, !ChainBackend C, !HashOrder} `{!Json (list DiskLocalAddress)}.
Context (T : NodeContext) (now unix : Z).

Abbreviation Node := (NodeCommon C MP) (only parsing).
Abbreviation M := (stm (NodeCommon C MP) WireError) (only parsing).

Definition alter_man (f : AddressMan -> AddressMan) (n : Node) : Node := set_address_man (f (address_man n)) n.

(** [unwrap] of a result. *)
Definition unwrap {E E' A} (o : outcome E A) : outcome E' A :=
  match o with Ok a => Ok a | Err _ | Panic => Panic | Diverge => Diverge end.

(** * Handshakes *)

Definition is_peer_good (p : LocalPeerView) (needs : ServiceFlags) : bool :=
  if bool_decide (p_state p = BannedPeer) then false else has (p_services p) needs.

(** What the version message tells of a peer. *)
Definition with_version (v : Version) (p : LocalPeerView) : LocalPeerView :=
  mkPeer (message_times p) (p_state p) (channel p) (channel_open p) (v_services v) (v_user_agent v)
    (set_services (v_services v) (p_address p)) (kind p) (v_blocks v) (v_time_offset v) (banscore p)
    (v_transport_protocol v).
Definition with_extra_version (v : Version) (p : LocalPeerView) : LocalPeerView :=
  mkPeer (message_times p) (p_state p) (channel p) (channel_open p) (v_services v) (v_user_agent v) (p_address p)
    (kind p) (v_blocks v) (time_offset p) (banscore p) (v_transport_protocol v).

Definition push_peer_service (peer : PeerId) (services service : ServiceFlags) (n : Node) : Node :=
  if has services service then
    set_peer_by_service (<[service := default [] (peer_by_service n !! service) ++ [peer]]> (peer_by_service n)) n
  else n.

Definition request_headers (peer : PeerId) : M unit :=
  locator ← on_chain chain_block_locator;
  _ ← send_to_peer peer (GetHeaders locator);
  modify (insert_inflight now InHeaders peer).
Definition request_addresses (peer : PeerId) : M unit :=
  _ ← send_to_peer peer GetAddresses;
  modify (insert_inflight now InGetAddresses peer).

Definition exceeds_limit (n : Node) (k : ConnectionKind) : bool :=
  (MAX_OUTGOING_PEERS T <? connected_peers n)%nat &&
  negb (match k with
        | OutboundFullRelay services => has services UTREEXO
        | Manual | Extra => true
        | _ => false
        end).

(** The part of [handle_peer_ready] for peers that are kept. *)
Definition keep_peer (peer : PeerId) (version : Version) (k : ConnectionKind) : M unit :=
  n ← gets Ok;
  match peers n !! peer with
  | None => mret tt
  | Some p =>
      let p := with_version version p in
      _ ← modify (alter_peer (with_version version) peer);
      let bad := match k with
                 | OutboundFullRelay needs | BlockRelayOnly needs => negb (is_peer_good p needs)
                 | _ => false
                 end in
      if bad then
        _ ← send_on_channel peer Shutdown;
        _ ← modify (alter_man (update_set_state unix (v_address_id version) (Tried unix)));
        modify (alter_man (update_set_service_flag (v_address_id version) (v_services version)))
      else
        _ ← modify (fun n => foldl (fun n s => push_peer_service peer (p_services p) s n) n
                               [UTREEXO; COMPACT_FILTERS; UTREEXO_ARCHIVE; NETWORK]);
        _ ← modify (alter_man (update_set_state unix (v_address_id version) Connected));
        _ ← modify (alter_man (update_set_service_flag (v_address_id version) (v_services version)));
        _ ← modify (fun n => set_peer_ids (peer_ids n ++ [peer]) n);
        if is_block_relay_only k then request_headers peer else mret tt
  end.

Definition mark_tried (version : Version) (n : Node) : Node :=
  alter_man (update_set_state unix (v_address_id version) (Tried unix))
    (alter_man (update_set_service_flag (v_address_id version) (v_services version)) n).

Definition handle_peer_ready (peer : PeerId) (version : Version) : M unit :=
  _ ← modify (remove_inflight (InConnect peer));
  _ ← modify (alter_peer (set_p_state Ready) peer);
  n ← gets Ok;
  let over := exceeds_limit n (v_kind version) in
  _ ← modify (if over then alter_peer (set_kind AddrFetch) peer else id);
  let k := if over then AddrFetch else v_kind version in
  match k with
  | Feeler => _ ← modify (mark_tried version); send_to_peer peer Shutdown
  | AddrFetch => _ ← request_addresses peer; modify (mark_tried version)
  | Extra => _ ← modify (alter_peer (with_extra_version version) peer); request_headers peer
  | _ =>
      _ ← (if is_block_relay_only k then mret tt else request_addresses peer);
      keep_peer peer version k
  end.

(** * Retries *)

Definition redo_inflight_request (req : InflightRequests) : M unit :=
  n ← gets Ok;
  match req with
  | InUtreexoProof hash =>
      if negb (has_utreexo_peers n) then mret tt
      else if bool_decide (blocks n !! hash = None) then mret tt
      else if bool_decide (is_Some (inflight n !! req)) then mret tt
      else request_proof now hash
  | InBlocks hash => request_blocks now [hash]
  | InHeaders =>
      locator ← on_chain chain_block_locator;
      peer ← send_to_fast_peer (GetHeaders locator) NONE;
      modify (insert_inflight now InHeaders peer)
  | InUtreexoState _ =>
      genesis ← lift (unwrap (chain_block_hash (chain n) 0));
      peer ← send_to_fast_peer (GetUtreexoState genesis 0) UTREEXO;
      modify (insert_inflight now (InUtreexoState peer) peer)
  | InGetFilters =>
      if negb (has_compact_filters_peer n) then mret tt
      else match block_filters n with
      | None => mret tt
      | Some filters =>
          height ← lift (map_err CompactBlockFiltersError (filters_height filters));
          start ← lift (u32_add height 1);
          peer ← send_to_fast_peer (GetFilter (last_filter n) start) COMPACT_FILTERS;
          modify (insert_inflight now InGetFilters peer)
      end
  | InConnect _ | InGetAddresses => mret tt
  end.

(** One retry: a request that could not be made again is kept, with the peer
    and time it had. *)
Definition redo_or_keep (req : InflightRequests) (v : PeerId * Z) (err : option WireError) : M (option WireError) := fun n =>
  match redo_inflight_request req n with
  | (Ok _, n) => (Ok err, n)
  | (Err e, n) => (Ok (Some e), set_inflight (<[req := v]> (inflight n)) n)
  | (Panic, n) => (Panic, n)
  | (Diverge, n) => (Diverge, n)
  end.
Fixpoint redo_all (reqs : list (InflightRequests * (PeerId * Z))) (err : option WireError) : M (option WireError) :=
  match reqs with
  | [] => mret err
  | (req, v) :: rest =>
      _ ← modify (remove_inflight req);
      err ← redo_or_keep req v err;
      redo_all rest err
  end.
Definition retry_result (err : option WireError) : M unit :=
  match err with Some e => lift (Err e) | None => mret tt end.

(** * Disconnections *)

Definition without_peer (peer : PeerId) (l : list PeerId) : list PeerId := filter (fun id => id <> peer) l.

(** The state of the address of a peer that is gone. *)
Definition gone_state (s : PeerStatus) : AddressState :=
  match s with
  | Ready => Tried unix
  | Awaiting => Failed unix
  | BannedPeer => Banned (BAN_TIME RunningNode)
  end.
Definition drop_peer (peer : PeerId) (idx : Z) (n : Node) : Node :=
  match peers n !! peer with
  | Some p => alter_man (update_set_state unix idx (gone_state (p_state p))) (set_peers (delete peer (peers n)) n)
  | None => n
  end.
Definition forget_peer (peer : PeerId) (n : Node) : Node :=
  let n := set_peer_ids (without_peer peer (peer_ids n)) n in
  let n := set_peer_by_service (without_peer peer <$> peer_by_service n) n in
  set_inflight_user_requests (filter (fun x => x.2.1.1 <> peer) (inflight_user_requests n)) n.

(** The requests of a peer, in the order of the map. *)
Definition requests_of (peer : PeerId) (n : Node) : list (InflightRequests * (PeerId * Z)) :=
  omap (fun req => v ← inflight n !! req; if bool_decide (v.1 = peer) then Some (req, v) else None)
    (order_inflight (inflight n)).

Definition handle_disconnection (peer : PeerId) (idx : Z) : M unit :=
  _ ← modify (drop_peer peer idx);
  _ ← modify (forget_peer peer);
  n ← gets Ok;
  err ← redo_all (requests_of peer n) None;
  retry_result err.

(** * Timeouts *)

Definition timed_out (req : InflightRequests) (time : Z) : bool :=
  let elapsed := saturating_sub now time in
  match req with
  | InConnect _ => (CONNECTION_TIMEOUT T <? elapsed) || (REQUEST_TIMEOUT T <? elapsed)
  | _ => REQUEST_TIMEOUT T <? elapsed
  end.

Definition is_connect (req : InflightRequests) : bool := match req with InConnect _ => true | _ => false end.

(** An error is remembered, the last one wins. *)
Definition collect_err (m : M unit) (err : option WireError) : M (option WireError) := fun n =>
  match m n with
  | (Ok _, n) => (Ok err, n)
  | (Err e, n) => (Ok (Some e), n)
  | (Panic, n) => (Panic, n)
  | (Diverge, n) => (Diverge, n)
  end.

(** A peer that did not answer is disconnected, unless it is manual and done
    with the handshake. *)
Definition drop_slow_peer (req : InflightRequests) (peer : PeerId) (p : LocalPeerView) (err : option WireError)
  : M (option WireError) :=
  if negb (is_manual (kind p)) || is_connect req then
    _ ← ignore_err (send_to_peer peer Shutdown);
    collect_err (handle_disconnection peer (la_id (p_address p))) err
  else mret err.

(** The body of the loop of [check_for_timeout]. *)
Definition check_request (req : InflightRequests) (err : option WireError) : M (option WireError) :=
  n ← gets Ok;
  match inflight n !! req with
  | None => mret err
  | Some (peer, time) =>
      if negb (timed_out req time) then mret err
      else
        _ ← modify (remove_inflight req);
        match peers n !! peer with
        | None => redo_or_keep req (peer, time) err
        | Some p =>
            if bool_decide (req = InGetAddresses) && negb (is_short_lived (kind p)) then mret err
            else
              err ← drop_slow_peer req peer p err;
              redo_or_keep req (peer, time) err
        end
  end.
Fixpoint check_requests (reqs : list InflightRequests) (err : option WireError) : M (option WireError) :=
  match reqs with
  | [] => mret err
  | req :: rest => err ← check_request req err; check_requests rest err
  end.
Definition check_for_timeout : M unit :=
  n ← gets Ok;
  let expired := filter (fun req => from_option (fun v : PeerId * Z => timed_out req v.2) false (inflight n !! req) = true)
                   (order_inflight (inflight n)) in
  err ← check_requests expired None;
  retry_result err.

(** * Messages common to all contexts *)

Definition ADDRESS_TIME_CUTOFF : Z := 600.

(** [addr.into()], with a random id each. *)
Fixpoint from_messages (addresses : list AddrV2Message) : M (list LocalAddress) :=
  match addresses with
  | [] => mret []
  | a :: rest =>
      r ← draw;
      more ← from_messages rest;
      mret (local_from_message (Z.of_nat r) a :: more)
  end.
Definition handle_addresses_from_peer (peer : PeerId) (addresses : list AddrV2Message) : M unit :=
  _ ← modify (remove_inflight InGetAddresses);
  let cutoff := unix + ADDRESS_TIME_CUTOFF in
  good ← from_messages (filter (fun a => am_time a < cutoff) addresses);
  _ ← modify (alter_man (push_addresses order_addresses good));
  n ← gets Ok;
  match peers n !! peer with
  | Some p => if bool_decide (kind p = AddrFetch) then send_to_peer peer Shutdown else mret tt
  | None => mret tt
  end.

Definition handle_notfound_msg (inv : Inventory) : M unit :=
  match inv with
  | InvBlock h | InvWitnessBlock h | InvCompactBlock h =>
      _ ← answer_user_request (UserBlock h) (RespBlock None); mret tt
  | InvWitnessTransaction tx | InvTransaction tx =>
      _ ← answer_user_request (UserMempoolTransaction tx) (RespMempoolTransaction None); mret tt
  | InvError | InvOther => mret tt
  end.
Definition handle_tx_msg (tx : Transaction) : M unit :=
  _ ← answer_user_request (UserMempoolTransaction (compute_txid tx)) (RespMempoolTransaction (Some tx));
  mret tt.

Definition wants_cfheaders (stop : BlockHash) (r : UserRequest) : bool :=
  match r with GetCFilterHeaders _ stop_hash => stop_hash =? stop | _ => false end.
Definition handle_cfheaders (peer : PeerId) (h : CFHeaders) : M unit :=
  n ← gets Ok;
  match find (fun x => wants_cfheaders (cfh_stop_hash h) x.1) (inflight_user_requests n) with
  | Some (req, (_, _, resp)) => modify (fun n => respond resp (RespCFilterHeaders h) (remove_user_request req n))
  | None => increase_banscore peer 5
  end.

Definition is_disconnected (m : PeerMessages) : bool := match m with MsgDisconnected _ => true | _ => false end.
Definition handle_peer_msg_common (msg : PeerMessages) (peer : PeerId) : M (option PeerMessages) :=
  n ← gets Ok;
  if bool_decide (peers n !! peer = None) && negb (is_disconnected msg) then mret None
  else match msg with
  | MsgAddr addresses => _ ← handle_addresses_from_peer peer addresses; mret None
  | MsgNotFound inv => _ ← handle_notfound_msg inv; mret None
  | MsgTransaction tx => _ ← handle_tx_msg tx; mret None
  | MsgUtreexoState _ => _ ← increase_banscore peer 5; mret None
  | MsgCFHeaders h => _ ← handle_cfheaders peer h; mret None
  | _ => mret (Some msg)
  end.

(** [register_message_time]: [average] is the new moving average of a peer after
    a sample. *)
Context (average : option Z -> Z -> Z).
Definition request_of_message (msg : PeerMessages) (peer : PeerId) : option InflightRequests :=
  match msg with
  | MsgBlock b => Some (InBlocks (blk_hash b))
  | MsgReady _ => Some (InConnect peer)
  | MsgHeaders _ => Some InHeaders
  | MsgBlockFilter _ _ => Some InGetFilters
  | MsgUtreexoState _ => Some (InUtreexoState peer)
  | _ => None
  end.
Definition register_message_time (msg : PeerMessages) (peer : PeerId) (read_at : Z) (n : Node) : Node :=
  match (req ← request_of_message msg peer; inflight n !! req) with
  | None => n
  | Some (request_peer, sent_at) =>
      if negb (request_peer =? peer) then n
      else if read_at <? sent_at then n
      else alter_peer (fun p => set_message_times (Some (average (message_times p) (read_at - sent_at))) p) peer n
  end.

(** * Files *)

Definition save_peers (n : Node) : Node :=
  set_peer_files (dump_peers order_addresses unix (address_man n) (peer_files n)) n.
Definition save_utreexo_peers (n : Node) : Node :=
  let l := filter (fun p => p_state p = Ready /\ has (p_services p) UTREEXO = true)
             (omap (fun id => peers n !! id) (order_peers (peers n))) in
  if bool_decide (l = []) then n
  else set_peer_files (dump_utreexo_peers unix (map p_address l) (peer_files n)) n.
End NodePeers.
