(* ===== verification/NodeConn.v ===== *)
(** Connections and requests of users
    ([src/crates/floresta-wire/src/p2p_wire/node/conn.rs] and [user_req.rs],
    with the construction and shutdown of [mod.rs] and the [addnode] handlers of
    [peer_man.rs]).  Opening a connection starts a task, which is recorded. *)

From stdpp Require Import base gmap list strings.
From Stdlib Require Import ZArith Lia.
From S2P Require Import Prelude Bitcoin Errors Codec Sigops Udata ChainQuery Filters BlockProof Text Onion SocketAddr.
From S2P Require Import Mempool AddressMan Node NodeBlocks NodePeers.

Section NodeConn.
Context `{HashLib, TxLib, HeaderLib, UtreexoLib, ScriptBuild} `{!Codec TxOut} `{Sha3Lib}.
Context {C MP : Type} `{!ProofBuild, !ChainBackend C, !HashOrder, !MempoolBase MP} `{!Json (list DiskLocalAddress)}.
(** The contents of the seed files compiled into the program. *)
Context (seeds : Network -> list Z).
Context (T : NodeContext) (now unix : Z).

Abbreviation Node := (NodeCommon C MP) (only parsing).
Abbreviation M := (stm (NodeCommon C MP) WireError) (only parsing).

Definition HARDCODED_ADDRESSES_GRACE_PERIOD : Z := 60.
Definition DNS_SEED_REQUEST_INTERVAL : Z := 60 * 60.

Definition alter_timers (f : Timers -> Timers) (n : Node) : Node := set_timers (f (timers n)) n.

(** * Opening connections *)

Definition new_peer (k : ConnectionKind) (address : LocalAddress) : LocalPeerView :=
  mkPeer None Awaiting [] true NONE EmptyString address k 0 0 0 TransportV2.

Definition open_connection (k : ConnectionKind) (peer_address : LocalAddress) (allow_v1 : bool) : M unit :=
  n ← gets Ok;
  let peer_count := peer_id_count n in
  _ ← modify (insert_inflight now (InConnect peer_count) peer_count);
  _ ← lift (unwrap (chain_best_block (chain n)));
  _ ← modify (fun n => set_spawned (spawned n ++ [SpawnConnection peer_count k peer_address allow_v1]) n);
  _ ← modify (fun n => set_peers (<[peer_count := new_peer k peer_address]> (peers n)) n);
  _ ← modify (match k with
              | Feeler => alter_timers (set_last_feeler now)
              | OutboundFullRelay _ | BlockRelayOnly _ => alter_timers (set_last_connection now)
              | _ => id
              end);
  next ← lift (u32_add peer_count 1);
  modify (set_peer_id_count next).

(** A method of the address manager; its panics are the node's. *)
Definition on_man {A} (m : stm AddressMan unit A) : M A := fun n =>
  let '(o, am) := m (address_man n) in (unwrap o, set_address_man am n).

Definition load_fixed_addresses : M unit :=
  r ← draw_stream;
  n ← gets Ok;
  am ← lift (unwrap (add_fixed_addresses order_addresses (fun i => Z.of_nat (r i)) seeds (cfg_network (config n))
                       (address_man n)));
  modify (set_address_man am).

(** The first fixed peer that is not connected. *)
Definition next_fixed_peer (n : Node) : option (Z * LocalAddress) :=
  addr ← find (fun addr => bool_decide (map_Forall (fun _ p => la_address (p_address p) <> la_address addr) (peers n)))
           (fixed_peers n);
  Some (0, addr).

Definition candidate_peer (k : ConnectionKind) : M (option (Z * LocalAddress)) :=
  n ← gets Ok;
  if has_fixed_peers n then mret (next_fixed_peer n)
  else
    r ← draw_stream;
    on_man (get_address_to_connect order_addresses unix r (get_required_services k) (bool_decide (k = Feeler))).

Definition create_connection (conn_kind : ConnectionKind) : M unit :=
  n ← gets Ok;
  let k := if has_fixed_peers n then Manual else conn_kind in
  candidate ← candidate_peer k;
  match candidate with
  | None =>
      _ ← (if is_manual k then mret tt else load_fixed_addresses);
      lift (Err NoAddressesAvailable)
  | Some (peer_id, peer_address) =>
      _ ← modify (alter_man (update_set_state unix peer_id (Failed unix)));
      n ← gets Ok;
      if bool_decide (map_Exists (fun _ p => p_address p = peer_address) (peers n)) then
        lift (Err (PeerAlreadyExists peer_address))
      else open_connection k peer_address (is_manual k || allow_v1_fallback (config n))
  end.

Fixpoint repeat_try (k : nat) (m : M unit) : M unit :=
  match k with
  | O => mret tt
  | S k => _ ← m; repeat_try k m
  end.
Definition open_feeler_connection : M unit :=
  n ← gets Ok;
  if has_fixed_peers n then mret tt
  else repeat_try (NEW_CONNECTIONS_BATCH_SIZE T) (create_connection Feeler).

Fixpoint open_added (peers_count : PeerId) (l : list AddedPeerInfo) : M unit :=
  match l with
  | [] => mret tt
  | added :: rest =>
      n ← gets Ok;
      _ ← (if bool_decide (map_Exists (fun _ p => la_address (p_address p) = added_address added) (peers n)) then mret tt
           else open_connection Manual (mkLocal (added_address added) 0 (Tried unix) NONE peers_count) (v1_fallback added));
      open_added peers_count rest
  end.
Definition maybe_open_connection_with_added_peers : M unit :=
  n ← gets Ok; open_added (peer_id_count n) (added_peers n).

(** * Bootstrapping *)

Definition get_peers_from_dns (n : Node) : Node := set_spawned (spawned n ++ [SpawnDnsSeeds]) n.

Definition maybe_ask_dns_seed_for_addresses (n : Node) : Node :=
  if disable_dns_seeds (config n) || enough_addresses (address_man n) then n
  else if saturating_sub now (last_dns_seed_call (timers n)) <? DNS_SEED_REQUEST_INTERVAL then n
  else get_peers_from_dns (alter_timers (set_last_dns_seed_call now) n).

Definition maybe_use_hardcoded_addresses : M unit :=
  n ← gets Ok;
  if has_fixed_peers n then mret tt
  else if used_fixed_addresses n then mret tt
  else if enough_addresses (address_man n) then mret tt
  else if saturating_sub now (startup_time (timers n)) <? HARDCODED_ADDRESSES_GRACE_PERIOD then mret tt
  else _ ← modify (set_used_fixed_addresses true); load_fixed_addresses.

Fixpoint open_anchors (l : list LocalAddress) : M unit :=
  match l with
  | [] => mret tt
  | address :: rest => _ ← open_connection (OutboundFullRelay UTREEXO) address true; open_anchors rest
  end.
Definition init_peers : M unit :=
  r ← draw_stream;
  n ← gets Ok;
  let '(anchors, am) := start_addr_man order_addresses (fun i => Z.of_nat (r i)) (peer_files n) (address_man n) in
  _ ← modify (set_address_man am);
  _ ← modify (if negb (disable_dns_seeds (config n)) && negb (enough_addresses am)
              then fun n => alter_timers (set_last_dns_seed_call now) (get_peers_from_dns n) else id);
  open_anchors anchors.

(** * Maintenance *)

Fixpoint repeat_ignoring (k : nat) (m : M unit) : M unit :=
  match k with
  | O => mret tt
  | S k => _ ← ignore_err m; repeat_ignoring k m
  end.
Definition maybe_open_connection (required_service : ServiceFlags) : M unit :=
  _ ← maybe_open_connection_with_added_peers;
  n ← gets Ok;
  if (MAX_OUTGOING_PEERS T <=? connected_peers n)%nat then mret tt
  else
    let k := OutboundFullRelay required_service in
    if has_fixed_peers n then repeat_ignoring (length (fixed_peers n) - size (peers n)) (create_connection k)
    else
      _ ← modify maybe_ask_dns_seed_for_addresses;
      _ ← maybe_use_hardcoded_addresses;
      repeat_ignoring (NEW_CONNECTIONS_BATCH_SIZE T) (create_connection k).

Definition MIN_SAMPLES : nat := 5.
Definition latency_samples (protected : list ServiceFlags) (n : Node) : list (PeerId * Z) :=
  omap (fun id => p ← peers n !! id; t ← message_times p;
                  if is_regular (kind p) && negb (has_any_service p protected) then Some (id, t) else None)
    (order_peers (peers n)).
Definition maybe_disconnect_slowest_peer (protected : list ServiceFlags) (always : bool) : M unit :=
  n ← gets Ok;
  let samples := sort_by_time (latency_samples protected n) in
  if (length samples <? MIN_SAMPLES)%nat then mret tt
  else
    median ← lift (expect (samples !! (length samples / 2)%nat));
    slowest ← lift (expect (samples !! (length samples - 1)%nat));
    r ← draw;
    if always || (3 * median.2 <? 2 * slowest.2) || (r mod 20 =? 0)%nat then send_to_peer slowest.1 Shutdown
    else mret tt.

(** [disconnect_random_peers]: [r] draws which of the candidates go. *)
Fixpoint sample (r : nat -> nat) (k : nat) (l : list PeerId) : list PeerId :=
  match k with
  | O => []
  | S k => match choose (r k) l with
           | Some id => id :: sample r k (filter (fun x => x <> id) l)
           | None => []
           end
  end.
Definition disconnect_random_peers (k : nat) (protected : list ServiceFlags) : M unit :=
  r ← draw_stream;
  n ← gets Ok;
  let candidates := (filter (fun x => is_regular (kind x.2) = true /\ has_any_service x.2 protected = false)
                       (map_to_list (peers n))).*1 in
  modify (fun n => foldl (fun n id => (send_on_channel id Shutdown n).2) n (sample r k candidates)).

(** * Requests of users *)

Definition local_from (r : nat) (a : BitcoinSocketAddr) : LocalAddress := local_from_socket unix (Z.of_nat r) a.
Definition basic_services : ServiceFlags := Z.lor NETWORK_LIMITED WITNESS.

Definition handle_addnode_add_peer (a : BitcoinSocketAddr) (v2_transport : bool) : M unit :=
  r ← draw;
  n ← gets Ok;
  let local := set_services basic_services (local_from r a) in
  _ ← lift (err_if (existsb (fun i => bool_decide (a = added_address i)) (added_peers n)) (PeerAlreadyExists local));
  _ ← modify (alter_man (push_addresses order_addresses [local]));
  _ ← modify (fun n => set_added_peers (added_peers n ++ [mkAddedPeer a (negb v2_transport)]) n);
  maybe_open_connection_with_added_peers.

Fixpoint remove_added (a : BitcoinSocketAddr) (l : list AddedPeerInfo) : option (list AddedPeerInfo) :=
  match l with
  | [] => None
  | i :: rest => if bool_decide (a = added_address i) then Some rest else (i ::.) <$> remove_added a rest
  end.
Definition handle_addnode_remove_peer (a : BitcoinSocketAddr) : M unit :=
  n ← gets Ok;
  l ← lift (ok_or (remove_added a (added_peers n)) (PeerNotFoundAtAddress a));
  modify (set_added_peers l).

Definition has_address (n : Node) (a : BitcoinSocketAddr) (id : PeerId) : bool :=
  match peers n !! id with Some p => bool_decide (la_address (p_address p) = a) | None => false end.
Definition handle_disconnect_peer (a : BitcoinSocketAddr) : M unit :=
  n ← gets Ok;
  id ← lift (ok_or (find (has_address n a) (order_peers (peers n))) (PeerNotFoundAtAddress a));
  send_to_peer id Shutdown.

Definition handle_addnode_onetry_peer (a : BitcoinSocketAddr) (v2_transport : bool) : M unit :=
  r ← draw;
  n ← gets Ok;
  let local := local_from r a in
  _ ← lift (err_if (bool_decide (map_Exists (fun _ p => la_address (p_address p) = a) (peers n))) (PeerAlreadyExists local));
  let local := set_services basic_services local in
  _ ← modify (alter_man (push_addresses order_addresses [local]));
  open_connection Manual local (negb v2_transport).

(** Whether a handler succeeded, for the answer. *)
Definition succeeded (m : M unit) (answer : bool -> NodeResponse) (resp : Responder) : M unit := fun n =>
  match m n with
  | (Ok _, n) => (Ok tt, respond resp (answer true) n)
  | (Err _, n) => (Ok tt, respond resp (answer false) n)
  | (Panic, n) => (Panic, n)
  | (Diverge, n) => (Diverge, n)
  end.

(** A request to a peer, remembered with its responder when it was sent. *)
Definition forward (user_req : UserRequest) (resp : Responder) (req : NodeRequest) (service : ServiceFlags) : M unit := fun n =>
  match send_to_fast_peer req service n with
  | (Ok peer, n) =>
      let n := remove_user_request user_req n in
      (Ok tt, set_inflight_user_requests (inflight_user_requests n ++ [(user_req, (peer, now, resp))]) n)
  | (Err _, n) => (Ok tt, n)
  | (Panic, n) => (Panic, n)
  | (Diverge, n) => (Diverge, n)
  end.

Definition broadcast_transaction (tx : Transaction) (resp : Responder) : M unit := fun n =>
  let txid := compute_txid tx in
  match mempool_accept tx (mempool n) with
  | (Ok _, m) => (Ok tt, respond resp (RespBroadcast (inr txid)) (broadcast_to_peers (BroadcastTransaction txid) (set_mempool m n)))
  | (Err e, m) => (Ok tt, respond resp (RespBroadcast (inl e)) (set_mempool m n))
  | (Panic, m) => (Panic, set_mempool m n)
  | (Diverge, m) => (Diverge, set_mempool m n)
  end.

Definition perform_user_request (user_req : UserRequest) (resp : Responder) : M unit :=
  n ← gets Ok;
  if (MAX_INFLIGHT_REQUESTS RunningNode <=? size (inflight n))%nat then mret tt
  else match user_req with
  | UserConfig => modify (respond resp (RespConfig (config n)))
  | UserPing => modify (fun n => respond resp (RespPing true) (broadcast_to_peers Ping n))
  | UserBlock h => forward user_req resp (GetBlock [h] WitnessFull) NONE
  | UserUtreexoProof h => forward user_req resp (GetBlockProof h bitmap_new bitmap_new) NONE
  | UserMempoolTransaction txid => forward user_req resp (GetMempoolTransaction txid) NONE
  | GetPeerInfo => modify (respond resp (RespGetPeerInfo (omap (fun id => get_peer_info id n) (peer_ids n))))
  | GetConnectionCount => modify (respond resp (RespGetConnectionCount (connected_peers n)))
  | Add a v2 => succeeded (handle_addnode_add_peer a v2) RespAdd resp
  | Remove a => succeeded (handle_addnode_remove_peer a) RespRemove resp
  | Onetry a v2 => succeeded (handle_addnode_onetry_peer a v2) RespOnetry resp
  | Disconnect a => succeeded (handle_disconnect_peer a) RespDisconnect resp
  | GetAddrManInfo => modify (respond resp (RespGetAddrManInfo (get_connection_stats (address_man n))))
  | SendTransaction tx => broadcast_transaction tx resp
  | GetCFilterHeaders start stop => forward user_req resp (GetCFHeaders start stop) COMPACT_FILTERS
  end.

(** * Construction and shutdown *)

(** The fixed peers, each host once. *)
Fixpoint resolve_fixed_peers (network : Network) (resolver : DnsResolver) (r : nat -> nat) (i : nat) (l : list text)
  (seen : list BitcoinSocketAddr) : outcome InvalidAddressError (list LocalAddress) :=
  match l with
  | [] => Ok []
  | address :: rest =>
      resolved ← parse_address address (Some network) resolver (r i);
      if bool_decide (resolved ∈ seen) then resolve_fixed_peers network resolver r (S i) rest seen
      else
        more ← resolve_fixed_peers network resolver r (S i) rest (resolved :: seen);
        Ok (local_from (r i) resolved :: more)
  end.

(** [shutdown]: the files are written, the peers are told, the chain is
    flushed. *)
Fixpoint shutdown_peers (l : list PeerId) : M unit :=
  match l with
  | [] => mret tt
  | peer :: rest => _ ← ignore_err (send_to_peer peer Shutdown); shutdown_peers rest
  end.
Definition shutdown : M unit :=
  _ ← modify (save_utreexo_peers unix);
  n ← gets Ok;
  _ ← shutdown_peers (peer_ids n);
  _ ← modify (save_peers unix);
  ignore_err (chain_step chain_flush).
End NodeConn.
