(* ===== verification/SyncNode.v ===== *)
(** The node while it downloads and validates the chain
    ([src/crates/floresta-wire/src/p2p_wire/node/sync_ctx.rs]): the choice of
    the blocks to download, the handling of messages, and the periodic
    maintenance.  The loop of [run] is the relation [sync_step]. *)

From stdpp Require Import base gmap list strings.
From Stdlib Require Import ZArith Lia.
From S2P Require Import Prelude Bitcoin Errors Codec Sigops Udata ChainQuery Filters BlockProof Text Onion SocketAddr.
From S2P Require Import Consensus Mempool AddressMan Node NodeBlocks NodePeers NodeConn.

Inductive LoopControl := Continue | Break.

(** [NodeNotification]; only the SwiftSync context handles the notifications of
    workers, the others log them. *)
Section Notification.
Context `{UtreexoLib}.
Definition WorkerResult : Type := (BlockchainError + SwiftSyncDelta)%type.
Inductive NodeNotification :=
  | DnsSeedAddresses (addresses : list LocalAddress)
  | FromPeer (peer : PeerId) (msg : PeerMessages) (time : Z)
  | FromUser (request : UserRequest) (responder : Responder)
  | FromWorker (result : WorkerResult) (block_hash : BlockHash) (block_height : Z).
End Notification.

Section SyncNode.
Context `{HashLib, TxLib, HeaderLib, UtreexoLib, ScriptBuild} `{!Codec TxOut}.
Context {C MP : Type} `{!ProofBuild, !ChainBackend C, !HashOrder, !MempoolBase MP} `{!Json (list DiskLocalAddress)}.
Context (seeds : Network -> list Z) (average : option Z -> Z -> Z).

Abbreviation Node := (NodeCommon C MP) (only parsing).
Abbreviation M := (stm (NodeCommon C MP) WireError) (only parsing).

Section Handlers.
Context (now unix : Z).

(** * Downloads *)

(** The loop of [get_blocks_to_download]: the hashes to request. *)
Fixpoint next_blocks (k : nat) : M (list BlockHash) :=
  match k with
  | O => mret []
  | S k =>
      n ← gets Ok;
      next_height ← lift (u32_add (last_block_request n) 1);
      validation_index ← lift (unwrap (chain_validation_index (chain n)));
      _ ← modify (if next_height <=? validation_index then set_last_block_request validation_index else id);
      match chain_block_hash (chain n) next_height with
      | Panic => lift Panic
      | Diverge => lift Diverge
      | Err _ => mret []
      | Ok next_block =>
          last ← gets (fun n => u32_add (last_block_request n) 1);
          _ ← modify (set_last_block_request last);
          more ← next_blocks k;
          mret (next_block :: more)
      end
  end.
Definition get_blocks_to_download : M unit :=
  n ← gets Ok;
  if negb (can_request_more_blocks SyncNode n) then mret tt
  else
    hashes ← next_blocks (BLOCKS_PER_GETDATA SyncNode);
    ignore_err (request_blocks now hashes).

(** The hashes of consecutive heights, or the first error. *)
Fixpoint hashes_of (c : C) (heights : list Z) : outcome BlockchainError (list BlockHash) :=
  match heights with
  | [] => Ok []
  | h :: rest => x ← chain_block_hash c h; more ← hashes_of c rest; Ok (x :: more)
  end.
Definition ask_for_missed_blocks : M unit :=
  vi ← on_chain chain_validation_index;
  next_request ← lift (u32_add vi 1);
  n ← gets Ok;
  hashes ← on_chain (fun c => hashes_of c (seqZ next_request (last_block_request n - next_request + 1)));
  request_blocks now hashes.

(** * Connections *)

Definition check_connections : M unit :=
  n ← gets Ok;
  if has_fixed_peers n then maybe_open_connection seeds SyncNode now unix UTREEXO
  else
    let needs_utreexo := (length (default [] (peer_by_service n !! UTREEXO)) <? 2)%nat in
    _ ← (if (MAX_OUTGOING_PEERS SyncNode <=? connected_peers n)%nat
         then maybe_disconnect_slowest_peer [UTREEXO] needs_utreexo else mret tt);
    _ ← (if needs_utreexo then maybe_open_connection seeds SyncNode now unix UTREEXO else mret tt);
    maybe_open_connection seeds SyncNode now unix NETWORK.

(** [periodic_job!] without logging. *)
Definition periodic_job (timer : Timers -> Z) (reset : Z -> Timers -> Timers) (interval : Z) (what : M unit) : M unit :=
  n ← gets Ok;
  if interval <? saturating_sub now (timer (timers n)) then
    _ ← ignore_err what;
    modify (alter_timers (reset now))
  else mret tt.

(** * Maintenance and messages *)

Definition maintenance_tick : M LoopControl :=
  n ← gets Ok;
  if kill_signal n then mret Break
  else
    vi ← lift (unwrap (chain_validation_index (chain n)));
    best ← lift (unwrap (chain_best_block (chain n)));
    if vi =? best.1 then
      _ ← modify (fun n => set_chain (chain_update_ibd Done (chain n)) n);
      mret Break
    else
      _ ← periodic_job last_connection set_last_connection (TRY_NEW_CONNECTION SyncNode) check_connections;
      _ ← periodic_job last_feeler set_last_feeler (FEELER_INTERVAL SyncNode) (open_feeler_connection seeds SyncNode now unix);
      _ ← ignore_err (check_for_timeout SyncNode now unix);
      n ← gets Ok;
      if TIP_ASSUME_STALE SyncNode <? saturating_sub now (last_tip_update (timers n)) then
        _ ← ignore_err (create_connection seeds now unix Extra);
        _ ← modify (alter_timers (set_last_tip_update now));
        mret Continue
      else
        _ ← ignore_err (process_pending_blocks now);
        n ← gets Ok;
        if negb (has_utreexo_peers n) then mret Continue
        else
          _ ← ignore_err ask_for_missed_blocks;
          _ ← ignore_err (ask_for_missed_proofs now);
          _ ← get_blocks_to_download;
          mret Continue.

(** The messages that are left to this context. *)
Definition handle_sync_message (peer : PeerId) (msg : PeerMessages) : M unit :=
  match msg with
  | MsgBlock block =>
      n ← gets Ok;
      if bool_decide (is_Some (blocks n !! blk_hash block)) then mret tt
      else
        _ ← request_block_proof now block peer;
        _ ← process_pending_blocks now;
        get_blocks_to_download
  | MsgReady version => ignore_err (handle_peer_ready SyncNode now unix peer version)
  | MsgDisconnected idx => ignore_err (handle_disconnection now unix peer idx)
  | MsgUtreexoProof uproof =>
      _ ← attach_proof uproof peer;
      _ ← process_pending_blocks now;
      get_blocks_to_download
  | _ => mret tt
  end.

Definition handle_message (msg : NodeNotification) : M unit :=
  match msg with
  | FromUser request responder => perform_user_request now unix request responder
  | DnsSeedAddresses addresses => modify (alter_man (push_addresses order_addresses addresses))
  | FromPeer peer notification time =>
      _ ← modify (register_message_time average notification peer time);
      unhandled ← handle_peer_msg_common unix notification peer;
      match unhandled with
      | None => mret tt
      | Some msg => handle_sync_message peer msg
      end
  | FromWorker _ _ _ => mret tt
  end.
End Handlers.

(** * Runs *)

(** The start of [run]. *)
Definition sync_start : M unit :=
  _ ← modify (fun n => set_chain (chain_update_ibd ProofSync (chain n)) n);
  n ← gets Ok;
  vi ← lift (unwrap (chain_validation_index (chain n)));
  modify (set_last_block_request vi).

(** What happens to the node while [run] loops: a message, whose error is
    logged, a tick of the maintenance, and, from outside, the task of a peer
    that ends and stops receiving. *)
Definition close_channel (p : LocalPeerView) : LocalPeerView :=
  mkPeer (message_times p) (p_state p) (channel p) false (p_services p) (user_agent p) (p_address p) (kind p)
    (p_height p) (time_offset p) (banscore p) (transport_protocol p).
Inductive sync_step : Node -> Node -> Prop :=
  | SyncMessage now unix msg n n' : ignore_err (handle_message now unix msg) n = (Ok tt, n') -> sync_step n n'
  | SyncTick now unix n n' : maintenance_tick now unix n = (Ok Continue, n') -> sync_step n n'
  | SyncClosed peer n : sync_step n (alter_peer close_channel peer n).
Inductive sync_reachable (start : Node) : Node -> Prop :=
  | SyncStart n : sync_start start = (Ok tt, n) -> sync_reachable start n
  | SyncNext n n' : sync_reachable start n -> sync_step n n' -> sync_reachable start n'.
End SyncNode.
