(* ===== verification/NodeFacts.v ===== *)
(** The invariant of the node: lists of peers name known peers, blocks are
    stored under their hashes, and the address manager is consistent, whatever
    messages arrive and whatever fails. *)

From stdpp Require Import base gmap list strings fin_maps.
From Stdlib Require Import ZArith Lia.
From S2P Require Import Prelude Bitcoin Errors Codec Sigops Udata ChainQuery Filters BlockProof Text Onion SocketAddr.
From S2P Require Import Mempool AddressMan AddressManFacts AddressManRuns Node NodeBlocks NodePeers NodeConn SyncNode.

(** * Computations that keep a property of the state *)

(** A property of the state that a call leaves behind, unless it panics. *)
Definition alive {S E A} (P : S -> Prop) (r : outcome E A) (s : S) : Prop :=
  match r with Ok _ | Err _ => P s | Panic | Diverge => True end.

Record keeps {S E A} (P : S -> Prop) (m : stm S E A) : Prop := Keeps {
  keeps_run : forall s r s', P s -> m s = (r, s') -> alive P r s'
}.
Arguments Keeps {S E A P m}.
Arguments keeps_run {S E A P m}.

Lemma keeps_ret {S E A} P (a : A) : keeps P (mret a : stm S E A).
Proof. constructor. by intros s r s' Hs [= <- <-]. Qed.
Lemma keeps_lift {S E A} P (o : outcome E A) : keeps P (lift o : stm S E A).
Proof. constructor. intros s r s' Hs [= <- <-]. by try destruct o; try destruct (f s). Qed.
Lemma keeps_gets {S E A} P (f : S -> outcome E A) : keeps P (gets f).
Proof. constructor. intros s r s' Hs [= <- <-]. by try destruct o; try destruct (f s). Qed.
Lemma keeps_modify {S E} P (f : S -> S) : (forall s, P s -> P (f s)) -> keeps P (modify f : stm S E unit).
Proof. intros Hf. constructor. intros s r s' Hs [= <- <-]. by apply Hf. Qed.
Lemma keeps_bind {S E A B} P (m : stm S E A) (k : A -> stm S E B) :
  keeps P m -> (forall a, keeps P (k a)) -> keeps P (m ≫= k).
Proof.
  intros Hm Hk. constructor. intros s r s' Hs. unfold mbind, stm_bind. destruct (m s) as [o s1] eqn:Em.
  pose proof (keeps_run Hm s o s1 Hs Em) as H1. destruct o; [by apply (keeps_run (Hk a))|by intros [= <- <-]..].
Qed.
(** A step whose value is known to have a property. *)
Definition gives {S E A} (Q : A -> Prop) (m : stm S E A) : Prop := forall s a s', m s = (Ok a, s') -> Q a.
Lemma keeps_bind_gives {S E A B} P (Q : A -> Prop) (m : stm S E A) (k : A -> stm S E B) :
  keeps P m -> gives Q m -> (forall a, Q a -> keeps P (k a)) -> keeps P (m ≫= k).
Proof.
  intros Hm Hq Hk. constructor. intros s r s' Hs. unfold mbind, stm_bind. destruct (m s) as [o s1] eqn:Em.
  pose proof (keeps_run Hm s o s1 Hs Em) as H1. destruct o; [|by intros [= <- <-]..].
  apply (keeps_run (Hk a (Hq s a s1 Em))); done.
Qed.
(** A read: the value comes from a state with the property. *)
Lemma keeps_gets_bind {S E A B} P (f : S -> outcome E A) (k : A -> stm S E B) :
  (forall s a, P s -> f s = Ok a -> keeps P (k a)) -> keeps P (gets f ≫= k).
Proof.
  intros Hk. constructor. intros s r s' Hs. unfold mbind, stm_bind, gets.
  destruct (f s) eqn:Ef; [by apply (keeps_run (Hk s a Hs Ef))|by intros [= <- <-]..].
Qed.
Lemma keeps_state_bind {S E B} P (k : S -> stm S E B) : (forall s, P s -> keeps P (k s)) -> keeps P (gets Ok ≫= k).
Proof. intros Hk. apply keeps_gets_bind. intros s a Hs [= <-]. by apply Hk. Qed.
(** The state that is read is the one the rest starts from. *)
Lemma keeps_state_at {S E B} P (k : S -> stm S E B) :
  (forall s r s', P s -> k s s = (r, s') -> alive P r s') -> keeps P (gets Ok ≫= k).
Proof. intros Hk. constructor. intros s r s' Hs. apply Hk. done. Qed.
Lemma keeps_and {S E A} (P Q : S -> Prop) (m : stm S E A) : keeps P m -> keeps Q m -> keeps (fun s => P s /\ Q s) m.
Proof.
  intros [Hp] [Hq]. constructor. intros s r s' [H1 H2] E1. pose proof (Hp s r s' H1 E1). pose proof (Hq s r s' H2 E1). by destruct r.
Qed.
Create HintDb node discriminated.
#[export] Hint Constants Opaque : node.
#[export] Hint Resolve keeps_ret keeps_lift keeps_gets : node.

(** Walks through a computation; [step] closes the calls that are known. *)
Ltac keeps_walk step := repeat first
  [ step
  | match goal with
    | |- keeps _ (mret _) => apply keeps_ret
    | |- keeps _ (lift _) => apply keeps_lift
    | |- keeps _ (on_chain _) => apply keeps_gets
    | |- keeps _ (gets Ok ≫= _) => apply keeps_state_bind; intros ? ?
    | |- keeps _ (_ ≫= _) => apply keeps_bind; [|intros ?]
    | |- keeps _ (if ?b then _ else _) => destruct b
    | |- keeps _ (match ?x with _ => _ end) => destruct x
    end ].

Lemma keeps_ignore `{UtreexoLib} {C MP E A} (P : NodeCommon C MP -> Prop) (m : stm (NodeCommon C MP) E A) : keeps P m -> keeps P (ignore_err m).
Proof.
  intros Hm. constructor. intros n r n' Hn. unfold ignore_err. destruct (m n) as [o n1] eqn:Em.
  pose proof (keeps_run Hm n o n1 Hn Em).
  destruct o; by intros [= <- <-].
Qed.

(** Splits a computation into its steps, and closes the steps that are updates
    above. *)
Ltac keep1 :=
  match goal with
  | |- keeps _ (mret _) => apply keeps_ret
  | |- keeps _ (lift _) => apply keeps_lift
  | |- keeps _ (gets _) => apply keeps_gets
  | |- keeps _ (on_chain _) => apply keeps_gets
  | |- keeps _ (modify _) => apply keeps_modify; intros ? ?; try (auto with node; fail)
  | |- keeps _ (ignore_err _) => apply keeps_ignore
  | |- keeps _ (gets Ok ≫= _) => apply keeps_state_bind; intros ? ?
  | |- keeps _ (_ ≫= _) => apply keeps_bind; [|intros ?]
  | |- keeps _ (if ?b then _ else _) => destruct b eqn:?
  | |- keeps _ (match ?x with _ => _ end) => destruct x eqn:?
  end.
Ltac keep := repeat (keep1; try (solve [auto with node])).

Section NodeFacts.
Context `{HashLib, TxLib, HeaderLib, UtreexoLib, ScriptBuild} `{!Codec TxOut}.
Context {C MP : Type} `{!ProofBuild, !ChainBackend C, !HashOrder, !MempoolBase MP} `{!Json (list DiskLocalAddress)}.
Context (seeds : Network -> list Z) (average : option Z -> Z -> Z).

Abbreviation Node := (NodeCommon C MP) (only parsing).
Abbreviation M := (stm (NodeCommon C MP) WireError) (only parsing).

Lemma keeps_chain_step {E A} (P : Node -> Prop) (m : stm C E A) :
  (forall n c, P n -> P (set_chain c n)) -> keeps P (chain_step m).
Proof. intros Hp. constructor. intros n r n' Hn. unfold chain_step. destruct (m (chain n)) as [[] c]; intros [= <- <-]; cbn; auto. Qed.

Record node_inv (n : Node) : Prop := {
  ni_ids : forall id, id ∈ peer_ids n -> is_Some (peers n !! id);
  ni_services : forall s id, id ∈ ids_of s (peer_by_service n) -> is_Some (peers n !! id);
  ni_fresh : forall id, is_Some (peers n !! id) -> id < peer_id_count n;
  ni_blocks : forall h b, blocks n !! h = Some b -> blk_hash (ib_block b) = h;
  ni_man : am_inv (address_man n)
}.

(** ** Updates that keep it *)

Lemma inv_chain n c : node_inv n -> node_inv (set_chain c n).
Proof. by intros []. Qed.
Lemma inv_inflight n x : node_inv n -> node_inv (set_inflight x n).
Proof. by intros []. Qed.
Lemma inv_user n x : node_inv n -> node_inv (set_inflight_user_requests x n).
Proof. by intros []. Qed.
Lemma inv_responses n x : node_inv n -> node_inv (set_responses x n).
Proof. by intros []. Qed.
Lemma inv_timers n x : node_inv n -> node_inv (set_timers x n).
Proof. by intros []. Qed.
Lemma inv_draws n x : node_inv n -> node_inv (set_draws x n).
Proof. by intros []. Qed.
Lemma inv_spawned n x : node_inv n -> node_inv (set_spawned x n).
Proof. by intros []. Qed.
Lemma inv_last n x : node_inv n -> node_inv (set_last_block_request x n).
Proof. by intros []. Qed.
Lemma inv_used n x : node_inv n -> node_inv (set_used_fixed_addresses x n).
Proof. by intros []. Qed.
Lemma inv_added n x : node_inv n -> node_inv (set_added_peers x n).
Proof. by intros []. Qed.
Lemma inv_mempool n x : node_inv n -> node_inv (set_mempool x n).
Proof. by intros []. Qed.
Lemma inv_man n x : node_inv n -> am_inv x -> node_inv (set_address_man x n).
Proof. by intros []. Qed.
Lemma inv_blocks n x : node_inv n -> (forall h b, x !! h = Some b -> blk_hash (ib_block b) = h) -> node_inv (set_blocks x n).
Proof. by intros []. Qed.
(** The same peers, with other contents. *)
Lemma inv_peers n x : node_inv n -> dom x = dom (peers n) -> node_inv (set_peers x n).
Proof.
  intros [Hi Hs Hf Hb Hm] Hd.
  assert (He : forall id, is_Some (x !! id) <-> is_Some (peers n !! id)) by (intros id; by rewrite <-!elem_of_dom, Hd).
  split; cbn; try done; [intros id Hid|intros s id Hid|intros id Hid]; rewrite ?He in *; eauto.
Qed.

Lemma inv_alter_peer n f id : node_inv n -> node_inv (alter_peer f id n).
Proof. intros Hn. apply inv_peers; [done|]. apply dom_alter_L. Qed.
Lemma inv_respond n r a : node_inv n -> node_inv (respond r a n).
Proof. unfold respond. destruct (resp_open r); [apply inv_responses|done]. Qed.
Lemma inv_insert_inflight now r p n : node_inv n -> node_inv (insert_inflight now r p n).
Proof. apply inv_inflight. Qed.
Lemma inv_remove_inflight r n : node_inv n -> node_inv (remove_inflight r n).
Proof. apply inv_inflight. Qed.
Lemma inv_remove_user r n : node_inv n -> node_inv (remove_user_request r n).
Proof. apply inv_user. Qed.
Lemma inv_alter_man f n : node_inv n -> (forall am, am_inv am -> am_inv (f am)) -> node_inv (alter_man f n).
Proof. intros Hn Hf. apply inv_man; [done|]. apply Hf, ni_man, Hn. Qed.
Lemma inv_alter_timers f n : node_inv n -> node_inv (alter_timers f n).
Proof. apply inv_timers. Qed.
Lemma inv_insert_block n h b : node_inv n -> blk_hash (ib_block b) = h -> node_inv (set_blocks (<[h := b]> (blocks n)) n).
Proof.
  intros Hn Hb. apply inv_blocks; [done|]. intros h' b' [[<- <-]|[_ Hl]]%lookup_insert_Some; [done|]. by apply (ni_blocks n Hn).
Qed.
Hint Resolve inv_chain inv_inflight inv_user inv_responses inv_timers inv_draws inv_spawned inv_last inv_used inv_added
  inv_mempool inv_alter_peer inv_respond inv_insert_inflight inv_remove_inflight inv_remove_user inv_alter_timers : node.
Hint Extern 2 (node_inv (set_blocks (<[_ := _]> (blocks ?n)) ?n)) => apply inv_insert_block : node.

Lemma keeps_draw_stream : keeps node_inv (draw_stream : M _).
Proof. constructor. intros n r n' Hn [= <- <-]. by apply inv_draws. Qed.
Lemma keeps_draw : keeps node_inv (draw : M _).
Proof. apply keeps_bind; [apply keeps_draw_stream|intros ?; apply keeps_ret]. Qed.
Lemma keeps_send_on_channel id req : keeps node_inv (send_on_channel id req : M _).
Proof.
  constructor. intros n r n' Hn. unfold send_on_channel. destruct (peers n !! id) as [p|]; [destruct (channel_open p)|];
    intros [= <- <-]; cbn; auto with node.
Qed.
Hint Resolve keeps_draw_stream keeps_draw keeps_send_on_channel : node.

Lemma keeps_fast_peer req s : keeps node_inv (send_to_fast_peer req s : M _).
Proof. unfold send_to_fast_peer, choose_peer_by_latency. keep. Qed.
Lemma keeps_random_peer req s : keeps node_inv (send_to_random_peer req s : M _).
Proof. unfold send_to_random_peer. keep. Qed.
Lemma keeps_random_peer_with req s f : keeps node_inv (send_to_random_peer_with_predicate req s f : M _).
Proof. unfold send_to_random_peer_with_predicate. keep. Qed.
Lemma keeps_send_to_peer id req : keeps node_inv (send_to_peer id req : M _).
Proof.
  constructor. intros n r n' Hn. unfold send_to_peer. destruct (peers n !! id) as [p|]; [case_bool_decide|]; try (by intros [= <- <-]).
  by apply (keeps_run (keeps_send_on_channel id req)).
Qed.
Hint Resolve keeps_fast_peer keeps_random_peer keeps_random_peer_with keeps_send_to_peer : node.

Lemma keeps_ban peer : keeps node_inv (disconnect_and_ban peer : M _).
Proof.
  constructor. intros n r n' Hn. unfold disconnect_and_ban. destruct (peers n !! peer) as [p|].
  - destruct (is_manual (kind p)); [by intros [= <- <-]|]. apply (keeps_run (keeps_send_to_peer _ _)). auto with node.
  - by apply (keeps_run (keeps_send_to_peer _ _)).
Qed.
Hint Resolve keeps_ban : node.
Lemma keeps_banscore peer f : keeps node_inv (increase_banscore peer f : M _).
Proof. unfold increase_banscore. keep. Qed.
Lemma keeps_answer r a : keeps node_inv (answer_user_request r a : M _).
Proof.
  constructor. intros n o n' Hn. unfold answer_user_request. destruct (user_request r n) as [[[? ?] resp]|]; [destruct (resp_open resp)|];
    intros [= <- <-]; cbn; auto with node.
Qed.
Hint Resolve keeps_banscore keeps_answer : node.

(** ** Blocks *)

Lemma inv_requests_inserted now peer hashes : forall n, node_inv n ->
  node_inv (foldl (fun n h => insert_inflight now (InBlocks h) peer n) n hashes).
Proof. induction hashes as [|h l IH]; intros n Hn; cbn; [done|]. apply IH. auto with node. Qed.
Hint Resolve inv_requests_inserted : node.

Lemma keeps_request_blocks now l : keeps node_inv (request_blocks now l : M _).
Proof. unfold request_blocks. keep. Qed.
Lemma keeps_request_proof now h : keeps node_inv (request_proof now h : M _).
Proof. unfold request_proof. keep. Qed.
Hint Resolve keeps_request_blocks keeps_request_proof : node.
Lemma gives_user_block b : gives (fun o => o = None \/ o = Some b) (check_is_user_block_and_reply b : M _).
Proof.
  intros n o n'. unfold check_is_user_block_and_reply, mbind, stm_bind. destruct (answer_user_request _ _ n) as [[[]| | |] ?];
    intros [= <- <-]; auto.
Qed.
Lemma keeps_request_block_proof now b peer : keeps node_inv (request_block_proof now b peer : M _).
Proof.
  unfold request_block_proof. keep1; [keep|].
  apply (keeps_bind_gives _ (fun o => o = None \/ o = Some b)); [|apply gives_user_block|intros o [->| ->]; keep].
  unfold check_is_user_block_and_reply. keep.
Qed.
Lemma keeps_attach_proof p peer : keeps node_inv (attach_proof p peer : M _).
Proof.
  unfold attach_proof. keep. apply inv_blocks; [done|].
  intros h b [[<- <-]|[_ Hl]]%lookup_insert_Some; [cbn|]; by eapply (ni_blocks s).
Qed.
Lemma keeps_request_proofs now l : keeps node_inv (request_proofs now l : M _).
Proof. induction l as [|h l IH]; cbn [request_proofs]; keep. Qed.
Hint Resolve keeps_request_block_proof keeps_attach_proof keeps_request_proofs : node.
Lemma keeps_missed_proofs now : keeps node_inv (ask_for_missed_proofs now : M _).
Proof. unfold ask_for_missed_proofs. keep. Qed.

Lemma keeps_blame_block e p h : keeps node_inv (blame_block_peer_for_block_error e p h : M _).
Proof. unfold blame_block_peer_for_block_error. keep; apply keeps_chain_step; auto with node. Qed.
Hint Resolve keeps_missed_proofs keeps_blame_block : node.
Lemma keeps_blame e b p u : keeps node_inv (blame_peer_for_block_error e b p u : M _).
Proof. unfold blame_peer_for_block_error. keep. Qed.
Hint Resolve keeps_blame : node.
Lemma keeps_block_error e b p u : keeps node_inv (handle_block_error e b p u : M _).
Proof. unfold handle_block_error. keep. Qed.
Hint Resolve keeps_block_error : node.
Lemma keeps_process_error e b p u : keeps node_inv (handle_process_block_error e b p u : M _).
Proof. unfold handle_process_block_error. keep. Qed.
Hint Resolve keeps_process_error : node.
Lemma keeps_connect now b pr i d p u : keeps node_inv (connect_or_blame now b pr i d p u : M _).
Proof.
  constructor. intros n r n' Hn. unfold connect_or_blame, chain_step. destruct (chain_connect_block b pr i d (chain n)) as [[] c];
    try (intros [= <- <-]; cbn; auto with node; fail). apply (keeps_run (keeps_process_error _ _ _ _)). auto with node.
Qed.
Hint Resolve keeps_connect : node.
Lemma inv_delete_block n h : node_inv n -> node_inv (set_blocks (delete h (blocks n)) n).
Proof. intros Hn. apply inv_blocks; [done|]. intros h' b [_ Hl]%lookup_delete_Some. by apply (ni_blocks n Hn). Qed.
Lemma keeps_process_block now h : keeps node_inv (process_block now h : M _).
Proof.
  unfold process_block. keep. apply inv_blocks; [done|]. intros h' b [_ Hl]%lookup_delete_Some. by eapply (ni_blocks s).
Qed.
Hint Resolve keeps_process_block : node.
Lemma keeps_process_loop now k : keeps node_inv (process_loop now k : M _).
Proof. induction k as [|k IH]; cbn [process_loop]; keep. Qed.
Lemma keeps_pending now : keeps node_inv (process_pending_blocks now : M _).
Proof. constructor. intros n r n' Hn. by apply (keeps_run (keeps_process_loop _ _)). Qed.
Hint Resolve keeps_pending : node.

(** ** Peers *)

Lemma inv_known_ids n l : node_inv n -> (forall id, id ∈ l -> is_Some (peers n !! id)) -> node_inv (set_peer_ids l n).
Proof. by intros []. Qed.
Lemma inv_known_services n m : node_inv n -> (forall s id, id ∈ ids_of s m -> is_Some (peers n !! id)) ->
  node_inv (set_peer_by_service m n).
Proof. by intros []. Qed.

(** A peer that is known stays known. *)
Definition knows (peer : PeerId) (n : Node) : Prop := is_Some (peers n !! peer).
Lemma knows_alter peer n f id : knows peer n -> knows peer (alter_peer f id n).
Proof. unfold knows. cbn. by rewrite lookup_alter_is_Some. Qed.
Lemma knows_send_on peer id req : keeps (knows peer) (send_on_channel id req : M _).
Proof.
  constructor. intros n r n' Hn. unfold send_on_channel. destruct (peers n !! id) as [p|]; [destruct (channel_open p)|];
    intros [= <- <-]; try done. by apply knows_alter.
Qed.
Lemma knows_send_to peer id req : keeps (knows peer) (send_to_peer id req : M _).
Proof.
  constructor. intros n r n' Hn. unfold send_to_peer. destruct (peers n !! id) as [p|]; [case_bool_decide|]; try (by intros [= <- <-]).
  by apply (keeps_run (knows_send_on peer id req)).
Qed.

Lemma inv_push_service peer services s n : node_inv n -> knows peer n ->
  node_inv (push_peer_service peer services s n) /\ knows peer (push_peer_service peer services s n).
Proof.
  intros Hn Hk. unfold push_peer_service. destruct (has services s); [|done]. split; [|done].
  apply inv_known_services; [done|]. intros s' id. unfold ids_of. destruct (decide (s = s')) as [<-|Hne].
  - rewrite lookup_insert_eq. cbn. intros [Hid| ->%list_elem_of_singleton]%elem_of_app; [by apply (ni_services n Hn s)|done].
  - rewrite lookup_insert_ne by done. by apply (ni_services n Hn).
Qed.

Definition inv_with (peer : PeerId) (n : Node) : Prop := node_inv n /\ knows peer n.
Lemma with_push_services peer services l : forall n, inv_with peer n ->
  inv_with peer (foldl (fun n s => push_peer_service peer services s n) n l).
Proof. induction l as [|s l IH]; intros n [Hn Hk]; cbn; [done|]. by apply IH, inv_push_service. Qed.
Lemma with_push_id peer n : inv_with peer n -> inv_with peer (set_peer_ids (peer_ids n ++ [peer]) n).
Proof.
  intros [Hn Hk]. split; [|done]. apply inv_known_ids; [done|].
  intros id [Hid| ->%list_elem_of_singleton]%elem_of_app; [by apply (ni_ids n Hn)|done].
Qed.
Lemma with_alter_man peer f n : (forall am, am_inv am -> am_inv (f am)) -> inv_with peer n -> inv_with peer (alter_man f n).
Proof. intros Hf [Hn Hk]. split; [by apply inv_alter_man|done]. Qed.
Lemma with_alter_peer peer f id n : inv_with peer n -> inv_with peer (alter_peer f id n).
Proof. intros [Hn Hk]. split; [by apply inv_alter_peer|by apply knows_alter]. Qed.
Lemma keeps_with {A} peer (m : M A) : keeps node_inv m -> keeps (knows peer) m -> keeps (inv_with peer) m.
Proof. apply keeps_and. Qed.
Hint Resolve with_push_services with_push_id with_alter_man with_alter_peer update_set_state_inv update_set_service_flag_inv : node.

Lemma with_request_headers now peer p : keeps (inv_with peer) (request_headers now p : M _).
Proof.
  unfold request_headers. keep1; [keep|]. keep1; [apply keeps_with; [auto with node|apply knows_send_to]|].
  apply keeps_modify. intros n [Hn Hk]. split; [auto with node|done].
Qed.
Lemma keeps_request_headers now p : keeps node_inv (request_headers now p : M _).
Proof. unfold request_headers. keep. Qed.
Lemma keeps_request_addresses now p : keeps node_inv (request_addresses now p : M _).
Proof. unfold request_addresses. keep. Qed.
Hint Resolve with_request_headers keeps_request_headers keeps_request_addresses : node.

Lemma keeps_keep_peer now unix peer v k : keeps node_inv (keep_peer now unix peer v k : M _).
Proof.
  unfold keep_peer. apply keeps_state_at. intros s r s' Hs. destruct (peers s !! peer) as [p|] eqn:Ep; [|by intros [= <- <-]].
  match goal with |- ?m s = _ -> _ => assert (Hm : keeps (inv_with peer) m) end.
  { keep1; [apply keeps_modify; auto with node|]. keep1.
    - keep1; [apply keeps_with; [auto with node|apply knows_send_on]|]. keep1; apply keeps_modify; auto with node.
    - do 4 (keep1; [apply keeps_modify; auto with node|]). keep. }
  intros E. pose proof (keeps_run Hm s r s' (conj Hs (ex_intro _ p Ep)) E) as Ha. destruct r; try done; by destruct Ha.
Qed.
Hint Resolve keeps_keep_peer : node.

Lemma inv_mark_tried unix v n : node_inv n -> node_inv (mark_tried unix v n).
Proof. intros Hn. unfold mark_tried. apply inv_alter_man; [apply inv_alter_man; [done|]|]; auto with node. Qed.
Hint Resolve inv_mark_tried : node.
Lemma keeps_peer_ready T now unix peer v : keeps node_inv (handle_peer_ready T now unix peer v : M _).
Proof.
  unfold handle_peer_ready. keep. by destruct (exceeds_limit T s (v_kind v)); [apply inv_alter_peer|].
Qed.
Hint Resolve keeps_peer_ready : node.

Lemma keeps_redo now req : keeps node_inv (redo_inflight_request now req : M _).
Proof. unfold redo_inflight_request. keep. Qed.
Hint Resolve keeps_redo : node.
Lemma keeps_redo_or_keep now req v err : keeps node_inv (redo_or_keep now req v err : M _).
Proof.
  constructor. intros n r n' Hn. unfold redo_or_keep. destruct (redo_inflight_request now req n) as [o n1] eqn:E.
  pose proof (keeps_run (keeps_redo now req) n o n1 Hn E). destruct o; intros [= <- <-]; cbn; auto with node.
Qed.
Hint Resolve keeps_redo_or_keep : node.
Lemma keeps_redo_all now l : forall err, keeps node_inv (redo_all now l err : M _).
Proof. induction l as [|[req v] l IH]; intros err; cbn [redo_all]; keep. Qed.
Hint Resolve keeps_redo_all : node.
Lemma keeps_retry_result err : keeps node_inv (retry_result err : M _).
Proof. unfold retry_result. keep. Qed.
Hint Resolve keeps_retry_result : node.

Lemma without_peer_spec peer l id : id ∈ without_peer peer l <-> id <> peer /\ id ∈ l.
Proof. unfold without_peer. by rewrite list_elem_of_filter. Qed.

Lemma inv_disconnected unix peer idx n : node_inv n -> node_inv (forget_peer peer (drop_peer unix peer idx n)).
Proof.
  intros Hn. pose proof Hn as [Hi Hs Hf Hb Hm].
  assert (Hd : peers (drop_peer unix peer idx n) = delete peer (peers n)).
  { unfold drop_peer. destruct (peers n !! peer) as [p|] eqn:E; [done|]. by rewrite delete_id. }
  assert (Hsame : peer_ids (drop_peer unix peer idx n) = peer_ids n /\
    peer_by_service (drop_peer unix peer idx n) = peer_by_service n /\
    peer_id_count (drop_peer unix peer idx n) = peer_id_count n /\ blocks (drop_peer unix peer idx n) = blocks n /\
    am_inv (address_man (drop_peer unix peer idx n))).
  { unfold drop_peer. destruct (peers n !! peer) as [p|]; [|done]. split_and!; try done. cbn. by apply update_set_state_inv. }
  destruct Hsame as (E1 & E2 & E3 & E4 & E5).
  assert (Hk : forall id, id <> peer -> is_Some (peers n !! id) -> is_Some (delete peer (peers n) !! id)).
  { intros id Hne Hid. by rewrite lookup_delete_ne. }
  split; cbn; rewrite ?Hd, ?E1, ?E2, ?E3, ?E4.
  - intros id [Hne Hid]%without_peer_spec. by apply Hk, Hi.
  - intros s id. rewrite ids_of_fmap by done. intros [Hne Hid]%without_peer_spec. by apply Hk; [|apply (Hs s)].
  - intros id. rewrite lookup_delete_is_Some. intros [_ ?]. by apply Hf.
  - done.
  - done.
Qed.

Lemma keeps_disconnection now unix peer idx : keeps node_inv (handle_disconnection now unix peer idx : M _).
Proof.
  unfold handle_disconnection. constructor. intros n r n' Hn. unfold mbind at 1, stm_bind at 1, modify at 1.
  unfold mbind at 1, stm_bind at 1, modify at 1. intros E.
  match type of E with ?m ?s = _ => assert (Hm : keeps node_inv m) by keep end.
  refine (keeps_run Hm _ r n' _ E). by apply inv_disconnected.
Qed.
Hint Resolve keeps_disconnection : node.

Lemma keeps_collect (m : M unit) err : keeps node_inv m -> keeps node_inv (collect_err m err).
Proof.
  intros Hm. constructor. intros n r n' Hn. unfold collect_err. destruct (m n) as [o n1] eqn:E.
  pose proof (keeps_run Hm n o n1 Hn E). destruct o; by intros [= <- <-].
Qed.
Hint Resolve keeps_collect : node.
Lemma keeps_drop_slow now unix req peer p err : keeps node_inv (drop_slow_peer now unix req peer p err : M _).
Proof. unfold drop_slow_peer. keep. Qed.
Hint Resolve keeps_drop_slow : node.
Lemma keeps_check_request T now unix req err : keeps node_inv (check_request T now unix req err : M _).
Proof. unfold check_request. keep. Qed.
Hint Resolve keeps_check_request : node.
Lemma keeps_check_requests T now unix l : forall err, keeps node_inv (check_requests T now unix l err : M _).
Proof. induction l as [|req l IH]; intros err; cbn [check_requests]; keep. Qed.
Hint Resolve keeps_check_requests : node.
Lemma keeps_timeout T now unix : keeps node_inv (check_for_timeout T now unix : M _).
Proof. unfold check_for_timeout. keep. Qed.
Hint Resolve keeps_timeout : node.

Lemma keeps_from_messages l : keeps node_inv (from_messages l : M _).
Proof. induction l as [|a l IH]; cbn [from_messages]; keep. Qed.
Hint Resolve keeps_from_messages : node.
Lemma inv_push_addresses l n : node_inv n -> node_inv (alter_man (push_addresses order_addresses l) n).
Proof. intros Hn. apply inv_alter_man; [done|]. intros am. apply push_addresses_inv. Qed.
Hint Resolve inv_push_addresses : node.
Lemma keeps_addresses unix peer l : keeps node_inv (handle_addresses_from_peer unix peer l : M _).
Proof. unfold handle_addresses_from_peer. keep. Qed.
Lemma keeps_notfound inv : keeps node_inv (handle_notfound_msg inv : M _).
Proof. unfold handle_notfound_msg. keep. Qed.
Lemma keeps_tx tx : keeps node_inv (handle_tx_msg tx : M _).
Proof. unfold handle_tx_msg. keep. Qed.
Lemma keeps_cfheaders peer h : keeps node_inv (handle_cfheaders peer h : M _).
Proof. unfold handle_cfheaders. keep. Qed.
Hint Resolve keeps_addresses keeps_notfound keeps_tx keeps_cfheaders : node.
Lemma keeps_msg_common unix msg peer : keeps node_inv (handle_peer_msg_common unix msg peer : M _).
Proof. unfold handle_peer_msg_common. keep. Qed.
Hint Resolve keeps_msg_common : node.
Lemma inv_message_time msg peer t n : node_inv n -> node_inv (register_message_time average msg peer t n).
Proof.
  intros Hn. unfold register_message_time. destruct (_ ≫= _) as [[? ?]|]; [|done].
  destruct (negb _); [done|]. destruct (_ <? _); [done|]. auto with node.
Qed.
Hint Resolve inv_message_time : node.

(** ** Connections *)

(** A new peer gets the next id. *)
Lemma inv_new_peer n p next : node_inv n -> u32_add (E := WireError) (peer_id_count n) 1 = Ok next ->
  node_inv (set_peer_id_count next (set_peers (<[peer_id_count n := p]> (peers n)) n)).
Proof.
  intros [Hi Hs Hf Hb Hm] Hnext. unfold u32_add in Hnext. case_match; [|done]. injection Hnext as <-.
  assert (Hk : forall id, is_Some (peers n !! id) -> is_Some (<[peer_id_count n := p]> (peers n) !! id)).
  { intros id Hid. apply lookup_insert_is_Some'. by right. }
  split; cbn; try done; [intros id Hid; by apply Hk, Hi|intros s id Hid; by apply Hk, (Hs s)|].
  intros id [<-|Hid]%lookup_insert_is_Some'; [lia|]. pose proof (Hf id Hid). lia.
Qed.

Lemma keeps_open_connection now k a v1 : keeps node_inv (open_connection now k a v1 : M _).
Proof.
  constructor. intros n r n' Hn. unfold open_connection, mbind, stm_bind, gets, modify, lift.
  destruct (unwrap _) as [?|e| |] eqn:Eu; try (by intros [= <- <-]); [|by destruct (chain_best_block (chain n))].
  match goal with |- context [u32_add ?x 1] => destruct (u32_add x 1) as [next|?| |] eqn:En end; try (by intros [= <- <-]);
    [|unfold u32_add in En; by case_match].
  intros [= <- <-]. set (n1 := insert_inflight now _ _ n). assert (Hn1 : node_inv n1) by (by apply inv_insert_inflight).
  pose proof (inv_new_peer n1 (new_peer k a) next Hn1 En) as [Hi Hs Hf Hb Hm]. destruct k; by split.
Qed.
Hint Resolve keeps_open_connection : node.

(** A choice of the address manager, whatever the times are. *)
Lemma attempt_stored order now r service am id p : attempt order now r service am = Ok (Some (id, p)) ->
  addresses am !! id = Some p.
Proof.
  unfold attempt. destruct (get_address_by_service r service am) as [[i q]|] eqn:Eg.
  { intros [= <- <-]. by apply choose_elem, candidates_elem in Eg as [? _]. }
  unfold get_random_address. case_bool_decide; [done|].
  assert (Hl : forall l, (i ← choose r l; a ← addresses am !! i; Some (i, a)) = Some (id, p) -> addresses am !! id = Some p).
  { intros l. destruct (choose r l) as [i|]; cbn; [|done]. destruct (addresses am !! i) as [a|] eqn:Ea; cbn; [|done]. by intros [= <- <-]. }
  unfold try_with_service. destruct (peers_by_service am !! service) as [l|].
  - destruct (usable_peers now l am) as [l'|?| |]; cbn [mbind outcome_bind]; try done.
    destruct (choose r l' ≫= _) as [q|] eqn:Eq; intros [= E]; [subst q; by apply (Hl l')|by apply (Hl (order (addresses am)))].
  - cbn [mbind outcome_bind]. intros [= E]. by apply (Hl (order (addresses am))).
Qed.

Lemma keeps_connect_loop order now draw service k : forall i, keeps am_inv (connect_loop order now draw service k i).
Proof.
  induction k as [|k IH]; intros i; cbn [connect_loop]; [apply keeps_ret|]. constructor. intros am r am' Hi.
  unfold mbind at 1, stm_bind at 1, gets. fold (attempt order now (draw i) service am).
  destruct (attempt order now (draw i) service am) as [[[id p]|]|?| |] eqn:Ea; try (by intros [= <- <-]).
  apply attempt_stored in Ea. destruct (la_state p) as [|t|t| |t] eqn:Es; try (by intros [= <- <-]); try (by apply (keeps_run (IH (S i)))).
  unfold mbind at 1, stm_bind at 1, lift. unfold u64_add. destruct (_ <=? _); [|by intros [= <- <-]].
  destruct (_ <? now); [by intros [= <- <-]|]. unfold mbind, stm_bind, modify. intros E.
  refine (keeps_run (IH (S i)) _ r am' _ E). by apply (drop_failed_inv am id p t service).
Qed.
Lemma keeps_get_address order now draw service feeler : keeps am_inv (get_address_to_connect order now draw service feeler).
Proof.
  unfold get_address_to_connect. apply keeps_state_bind. intros am Hi. case_bool_decide; [apply keeps_ret|].
  destruct feeler; [apply keeps_ret|apply keeps_connect_loop].
Qed.
Lemma keeps_on_man {A} (m : stm AddressMan unit A) : keeps am_inv m -> keeps node_inv (on_man m : M A).
Proof.
  intros Hm. constructor. intros n r n' Hn. unfold on_man. destruct (m (address_man n)) as [o am] eqn:E.
  pose proof (keeps_run Hm (address_man n) o am (ni_man n Hn) E) as Ha. intros [= <- <-].
  destruct o; cbn in *; try done. by apply inv_man.
Qed.
Hint Resolve keeps_get_address keeps_on_man : node.

Lemma keeps_load_fixed : keeps node_inv (load_fixed_addresses seeds : M _).
Proof.
  unfold load_fixed_addresses. keep1; [auto with node|]. apply keeps_state_bind. intros n Hn.
  apply (keeps_bind_gives _ am_inv).
  - apply keeps_lift.
  - intros s am s'. unfold lift. destruct (add_fixed_addresses _ _ _ _ _) as [am'|?| |] eqn:E; cbn; intros [= <- <-].
    unfold add_fixed_addresses in E. destruct (expect _) as [l|?| |]; cbn in E; try done. injection E as <-.
    apply push_addresses_inv, (ni_man n Hn).
  - intros am Ham. apply keeps_modify. intros s Hs. by apply inv_man.
Qed.
Hint Resolve keeps_load_fixed : node.
Lemma keeps_candidate unix k : keeps node_inv (candidate_peer unix k : M _).
Proof. unfold candidate_peer. keep. Qed.
Hint Resolve keeps_candidate : node.
Lemma keeps_create now unix k : keeps node_inv (create_connection seeds now unix k : M _).
Proof. unfold create_connection. keep. apply inv_alter_man; auto with node. Qed.
Hint Resolve keeps_create : node.
Lemma keeps_repeat k (m : M unit) : keeps node_inv m -> keeps node_inv (repeat_try k m).
Proof. intros Hm. induction k; cbn [repeat_try]; keep. Qed.
Lemma keeps_repeat_ignoring k (m : M unit) : keeps node_inv m -> keeps node_inv (repeat_ignoring k m).
Proof. intros Hm. induction k; cbn [repeat_ignoring]; keep. Qed.
Hint Resolve keeps_repeat keeps_repeat_ignoring : node.
Lemma keeps_feeler T now unix : keeps node_inv (open_feeler_connection seeds T now unix : M _).
Proof. unfold open_feeler_connection. keep. Qed.
Lemma keeps_open_added now unix c l : keeps node_inv (open_added now unix c l : M _).
Proof. induction l as [|a l IH]; cbn [open_added]; keep. Qed.
Hint Resolve keeps_feeler keeps_open_added : node.
Lemma keeps_added_peers now unix : keeps node_inv (maybe_open_connection_with_added_peers now unix : M _).
Proof. unfold maybe_open_connection_with_added_peers. keep. Qed.
Lemma inv_ask_dns now n : node_inv n -> node_inv (maybe_ask_dns_seed_for_addresses now n).
Proof.
  intros Hn. unfold maybe_ask_dns_seed_for_addresses, get_peers_from_dns. destruct (_ || _); [done|].
  destruct (_ <? _); auto with node.
Qed.
Lemma keeps_hardcoded now : keeps node_inv (maybe_use_hardcoded_addresses seeds now : M _).
Proof. unfold maybe_use_hardcoded_addresses. keep. Qed.
Hint Resolve keeps_added_peers inv_ask_dns keeps_hardcoded : node.
Lemma keeps_maybe_open T now unix s : keeps node_inv (maybe_open_connection seeds T now unix s : M _).
Proof. unfold maybe_open_connection. keep. Qed.
Lemma keeps_slowest l b : keeps node_inv (maybe_disconnect_slowest_peer l b : M _).
Proof. unfold maybe_disconnect_slowest_peer. keep. Qed.
Hint Resolve keeps_maybe_open keeps_slowest : node.

(** ** Users *)

Lemma keeps_add_peer now unix a v2 : keeps node_inv (handle_addnode_add_peer now unix a v2 : M _).
Proof. unfold handle_addnode_add_peer. keep. Qed.
Lemma keeps_remove_peer a : keeps node_inv (handle_addnode_remove_peer a : M _).
Proof. unfold handle_addnode_remove_peer. keep. Qed.
Lemma keeps_onetry now unix a v2 : keeps node_inv (handle_addnode_onetry_peer now unix a v2 : M _).
Proof. unfold handle_addnode_onetry_peer. keep. Qed.
Lemma keeps_disconnect_peer a : keeps node_inv (handle_disconnect_peer a : M _).
Proof. unfold handle_disconnect_peer. keep. Qed.
Lemma keeps_succeeded (m : M unit) f r : keeps node_inv m -> keeps node_inv (succeeded m f r).
Proof.
  intros Hm. constructor. intros n o n' Hn. unfold succeeded. destruct (m n) as [x n1] eqn:E.
  pose proof (keeps_run Hm n x n1 Hn E). destruct x; intros [= <- <-]; cbn in *; auto with node.
Qed.
Lemma keeps_forward now u r req s : keeps node_inv (forward now u r req s : M _).
Proof.
  constructor. intros n o n' Hn. unfold forward. destruct (send_to_fast_peer req s n) as [x n1] eqn:E.
  pose proof (keeps_run (keeps_fast_peer req s) n x n1 Hn E). destruct x; intros [= <- <-]; cbn in *; auto with node.
Qed.
Lemma inv_broadcast req n : node_inv n -> node_inv (broadcast_to_peers req n).
Proof. intros Hn. apply inv_peers; [done|]. apply dom_fmap_L. Qed.
Hint Resolve keeps_add_peer keeps_remove_peer keeps_onetry keeps_disconnect_peer keeps_succeeded keeps_forward inv_broadcast : node.
Lemma keeps_broadcast tx r : keeps node_inv (broadcast_transaction tx r : M _).
Proof.
  constructor. intros n o n' Hn. unfold broadcast_transaction. destruct (mempool_accept tx (mempool n)) as [[] m];
    intros [= <- <-]; cbn; auto 6 with node.
Qed.
Hint Resolve keeps_broadcast : node.
Lemma keeps_user_request now unix req r : keeps node_inv (perform_user_request now unix req r : M _).
Proof. unfold perform_user_request. keep. Qed.
Hint Resolve keeps_user_request : node.

(** ** The synchronising node *)

Lemma keeps_next_blocks k : keeps node_inv (next_blocks k : M _).
Proof. induction k as [|k IH]; cbn [next_blocks]; keep; by destruct (_ <=? _); [apply inv_last|]. Qed.
Hint Resolve keeps_next_blocks : node.
Lemma keeps_download now : keeps node_inv (get_blocks_to_download now : M _).
Proof. unfold get_blocks_to_download. keep. Qed.
Lemma keeps_missed_blocks now : keeps node_inv (ask_for_missed_blocks now : M _).
Proof. unfold ask_for_missed_blocks. keep. Qed.
Lemma keeps_connections now unix : keeps node_inv (check_connections seeds now unix : M _).
Proof. unfold check_connections. keep. Qed.
Lemma keeps_periodic now t f i (m : M unit) : keeps node_inv m -> keeps node_inv (periodic_job now t f i m).
Proof. intros Hm. unfold periodic_job. keep. Qed.
Hint Resolve keeps_download keeps_missed_blocks keeps_connections keeps_periodic : node.
Lemma keeps_tick now unix : keeps node_inv (maintenance_tick seeds now unix : M _).
Proof. unfold maintenance_tick. keep. Qed.
Lemma keeps_sync_message now unix peer msg : keeps node_inv (handle_sync_message now unix peer msg : M _).
Proof. unfold handle_sync_message. keep. Qed.
Hint Resolve keeps_tick keeps_sync_message : node.
Lemma keeps_message now unix msg : keeps node_inv (handle_message average now unix msg : M _).
Proof. unfold handle_message. keep. Qed.
Hint Resolve keeps_message : node.
Lemma keeps_start : keeps node_inv (sync_start : M _).
Proof. unfold sync_start. keep. Qed.

Lemma keeps_chain_do {A} (m : stm C BlockchainError A) : keeps node_inv (chain_do m : M A).
Proof.
  constructor. intros n r n' Hn. unfold chain_do. destruct (m (chain n)) as [o c]. intros [= <- <-].
  destruct o; cbn; auto with node.
Qed.

(** Every state the node reaches while it syncs. *)
Lemma sync_node_inv (start n : Node) : node_inv start -> sync_reachable seeds average start n -> node_inv n.
Proof.
  intros Hstart Hreach. induction Hreach as [n E|n n' _ IH Hstep]; [exact (keeps_run keeps_start start _ n Hstart E)|].
  destruct Hstep as [now unix msg n n' E|now unix n n' E|peer n].
  - exact (keeps_run (keeps_ignore _ _ (keeps_message now unix msg)) n _ n' IH E).
  - exact (keeps_run (keeps_tick now unix) n _ n' IH E).
  - by apply inv_alter_peer.
Qed.
End NodeFacts.
#[export] Hint Resolve inv_chain inv_inflight inv_user inv_responses inv_timers inv_draws inv_spawned inv_last inv_used inv_added
  inv_mempool inv_alter_peer inv_respond inv_insert_inflight inv_remove_inflight inv_remove_user
  inv_alter_timers keeps_draw_stream keeps_draw keeps_send_on_channel keeps_fast_peer keeps_random_peer
  keeps_random_peer_with keeps_send_to_peer keeps_ban keeps_banscore keeps_answer inv_requests_inserted
  keeps_request_blocks keeps_request_proof keeps_request_block_proof keeps_attach_proof keeps_request_proofs
  keeps_missed_proofs keeps_blame_block keeps_blame keeps_block_error keeps_process_error keeps_connect
  keeps_process_block keeps_pending with_push_services with_push_id with_alter_man with_alter_peer
  update_set_state_inv update_set_service_flag_inv with_request_headers keeps_request_headers
  keeps_request_addresses keeps_keep_peer inv_mark_tried keeps_peer_ready keeps_redo keeps_redo_or_keep
  keeps_redo_all keeps_retry_result keeps_disconnection keeps_collect keeps_drop_slow keeps_check_request
  keeps_check_requests keeps_timeout keeps_from_messages inv_push_addresses keeps_addresses keeps_notfound
  keeps_tx keeps_cfheaders keeps_msg_common inv_message_time keeps_open_connection keeps_get_address
  keeps_on_man keeps_load_fixed keeps_candidate keeps_create keeps_repeat keeps_repeat_ignoring keeps_feeler
  keeps_open_added keeps_added_peers inv_ask_dns keeps_hardcoded keeps_maybe_open keeps_slowest keeps_add_peer
  keeps_remove_peer keeps_onetry keeps_disconnect_peer keeps_succeeded keeps_forward inv_broadcast
  keeps_broadcast keeps_user_request keeps_next_blocks keeps_download keeps_missed_blocks keeps_connections
  keeps_periodic keeps_tick keeps_sync_message keeps_message keeps_chain_do : node.
#[export] Hint Extern 2 (node_inv (set_blocks (<[_ := _]> (blocks ?n)) ?n)) => apply inv_insert_block : node.
