(* ===== verification/NodeRetry.v ===== *)
(** Requests are not lost: when a peer disconnects or does not answer, its
    requests are made again to other peers, or kept for a later retry. *)

From stdpp Require Import base gmap list strings fin_maps.
From Stdlib Require Import ZArith Lia.
From S2P Require Import Prelude Bitcoin Errors Codec Sigops Udata ChainQuery Filters BlockProof Text Onion SocketAddr.
From S2P Require Import Mempool AddressMan AddressManFacts AddressManRuns Node NodeBlocks NodePeers NodeConn SyncNode NodeFacts.

Section NodeRetry.
Context `{HashLib, TxLib, HeaderLib, UtreexoLib, ScriptBuild} `{!Codec TxOut}.
Context {C MP : Type} `{!ProofBuild, !ChainBackend C, !HashOrder, !MempoolBase MP} `{!Json (list DiskLocalAddress)}.

Abbreviation Node := (NodeCommon C MP) (only parsing).
Abbreviation M := (stm (NodeCommon C MP) WireError) (only parsing).

(** * Sending touches the channels and the draws only *)

(** The state but for peers' channels and draws. *)
Definition same_requests (n n' : Node) : Prop :=
  inflight n' = inflight n /\ blocks n' = blocks n /\ dom (peers n') = dom (peers n).

#[local] Instance same_requests_refl : Reflexive same_requests.
Proof. by intros n. Qed.
#[local] Instance same_requests_trans : Transitive same_requests.
Proof. intros n1 n2 n3 (A1 & A2 & A3) (B1 & B2 & B3). split_and!; congruence. Qed.

Lemma send_on_same id req n r n' : send_on_channel id req n = (r, n') -> same_requests n n'.
Proof.
  unfold send_on_channel. destruct (peers n !! id) as [p|]; [destruct (channel_open p)|]; intros [= <- <-]; try done.
  split_and!; try done. apply dom_alter_L.
Qed.
Lemma send_to_same id req n r n' : send_to_peer id req n = (r, n') -> same_requests n n'.
Proof.
  unfold send_to_peer. destruct (peers n !! id) as [p|]; [case_bool_decide|]; try (by intros [= <- <-]). apply send_on_same.
Qed.

(** A fast peer is one of the known peers. *)
Lemma fast_peer_known req s n r n' : send_to_fast_peer req s n = (r, n') -> same_requests n n' /\
  (forall id, r = Ok id -> is_Some (peers n !! id)) /\ r <> Panic /\ r <> Diverge.
Proof.
  unfold send_to_fast_peer, choose_peer_by_latency, draw, draw_stream, mbind, stm_bind, gets, lift, mret, stm_ret.
  set (n1 := set_draws _ n). destruct (choose _ (latency_candidates s n1)) as [id|] eqn:Ec; cbn [ok_or].
  2:{ intros [= <- <-]. split_and!; done. }
  assert (Hk : is_Some (peers n !! id)).
  { apply choose_elem in Ec. unfold latency_candidates in Ec. apply list_elem_of_fmap in Ec as ([k p] & -> & Hin).
    apply list_elem_of_filter in Hin as [_ Hin%elem_of_map_to_list]. by exists p. }
  destruct (send_on_channel id req n1) as [o n2] eqn:Es. pose proof (send_on_same id req n1 o n2 Es) as Hsame.
  assert (Ho : o = Ok tt \/ exists e, o = Err e).
  { unfold send_on_channel in Es. destruct (peers n1 !! id) as [p|]; [destruct (channel_open p)|]; injection Es as <- _; eauto. }
  destruct Ho as [->|[e ->]]; intros [= <- <-]; (split_and!; [by etransitivity; [|exact Hsame]|..]); try done.
  by intros ? [= <-].
Qed.

(** * Blocks that are on their way *)

(** A block is asked for, or there. *)
Definition tracked (h : BlockHash) (n : Node) : Prop := is_Some (inflight n !! InBlocks h) \/ is_Some (blocks n !! h).

Lemma tracked_same h n n' : same_requests n n' -> tracked h n -> tracked h n'.
Proof. intros (E1 & E2 & _). unfold tracked. by rewrite E1, E2. Qed.
Lemma tracked_insert h n r v : tracked h n -> tracked h (set_inflight (<[r := v]> (inflight n)) n).
Proof. intros [Hi|Hb]; [left|by right]. cbn. apply lookup_insert_is_Some'. by right. Qed.
Lemma tracked_remove h n r : r <> InBlocks h -> tracked h n -> tracked h (remove_inflight r n).
Proof. intros Hr [Hi|Hb]; [left|by right]. cbn. by rewrite lookup_delete_ne. Qed.

Lemma tracked_inserts now peer l h : forall n, tracked h n \/ h ∈ l ->
  tracked h (foldl (fun n x => insert_inflight now (InBlocks x) peer n) n l).
Proof.
  induction l as [|x l IH]; intros n Ht; cbn.
  - destruct Ht as [?|?%not_elem_of_nil]; done.
  - apply IH. destruct Ht as [Ht|[->|Ht]%elem_of_cons]; [left; by apply tracked_insert|left|by right].
    left. cbn. apply lookup_insert_is_Some'. by left.
Qed.

(** After [request_blocks], what was on its way is, and when it succeeds so are
    the blocks asked for. *)
Lemma request_blocks_tracks now l n r n' : request_blocks now l n = (r, n') ->
  r <> Panic /\ r <> Diverge /\ (forall h, tracked h n -> tracked h n') /\ (r = Ok tt -> forall h, h ∈ l -> tracked h n').
Proof.
  unfold request_blocks. unfold mbind at 1, stm_bind at 1, gets at 1. set (l' := filter _ l).
  assert (Hl : forall h, h ∈ l -> tracked h n \/ h ∈ l').
  { intros h Hh. destruct (decide (should_request n h)) as [Hs|Hs]; [right; by apply list_elem_of_filter|left].
    unfold should_request in Hs. unfold tracked. destruct (inflight n !! InBlocks h); [by left|]. destruct (blocks n !! h); [by right|].
    by destruct Hs. }
  case_bool_decide as El.
  { intros [= <- <-]. split_and!; try done. intros _ h Hh. destruct (Hl h Hh) as [?|Hin]; [done|]. rewrite El in Hin.
    by apply not_elem_of_nil in Hin. }
  unfold mbind, stm_bind. destruct (send_to_fast_peer _ _ n) as [o n1] eqn:Es.
  destruct (fast_peer_known _ _ _ _ _ Es) as (Hsame & _ & Hp & Hd).
  destruct o as [peer|e| |]; try done; intros [= <- <-]; split_and!; try done.
  - intros h Ht. apply tracked_inserts. left. by apply (tracked_same h n n1).
  - intros _ h Hh. apply tracked_inserts. destruct (Hl h Hh) as [?|?]; [left; by apply (tracked_same h n n1)|by right].
  - intros h Ht. by apply (tracked_same h n n1).
Qed.

Lemma keeps_tracked_request_blocks now l h : keeps (tracked h) (request_blocks now l : M _).
Proof.
  constructor. intros n r n' Ht E. destruct (request_blocks_tracks now l n r n' E) as (_ & _ & Hk & _).
  destruct r; cbn; auto.
Qed.
Lemma keeps_tracked_fast req s h : keeps (tracked h) (send_to_fast_peer req s : M _).
Proof.
  constructor. intros n r n' Ht E. destruct (fast_peer_known req s n r n' E) as (Hs & _).
  pose proof (tracked_same h n n' Hs Ht). by destruct r.
Qed.
Lemma keeps_tracked_insert now h r p : keeps (tracked h) (modify (insert_inflight now r p) : M _).
Proof. apply keeps_modify. intros n. apply tracked_insert. Qed.
Lemma keeps_tracked_proof now b h : keeps (tracked h) (request_proof now b : M _).
Proof. unfold request_proof. apply keeps_bind; [apply keeps_tracked_fast|intros ?; apply keeps_tracked_insert]. Qed.

Lemma keeps_tracked_redo now req h : keeps (tracked h) (redo_inflight_request now req : M _).
Proof.
  unfold redo_inflight_request. keeps_walk ltac:(first
    [apply keeps_tracked_request_blocks|apply keeps_tracked_fast|apply keeps_tracked_insert|apply keeps_tracked_proof]).
Qed.

(** A request that is made again, and kept on failure, is on its way; others
    stay. *)
Lemma tracked_retry now req v err h n r n' : (req = InBlocks h \/ tracked h n) -> redo_or_keep now req v err n = (r, n') ->
  alive (tracked h) r n'.
Proof.
  intros Ht. unfold redo_or_keep. destruct (redo_inflight_request now req n) as [o n1] eqn:E. destruct Ht as [->|Ht].
  - change (request_blocks now [h] n = (o, n1)) in E. destruct (request_blocks_tracks now [h] _ o n1 E) as (Hp & Hd & _ & Hin).
    destruct o as [[]|e| |]; try done; intros [= <- <-]; cbn.
    + apply Hin; [done|by left].
    + left. cbn. apply lookup_insert_is_Some'. by left.
  - pose proof (keeps_run (keeps_tracked_redo now req h) _ o n1 Ht E) as Ha.
    destruct o; intros [= <- <-]; cbn in *; try done. by apply tracked_insert.
Qed.
Lemma tracked_removed h n req : tracked h n -> req = InBlocks h \/ tracked h (remove_inflight req n).
Proof. intros Ht. destruct (decide (req = InBlocks h)); [by left|right; by apply tracked_remove]. Qed.

Lemma tracked_redo_all now l h : forall err n r n', tracked h n -> redo_all now l err n = (r, n') -> alive (tracked h) r n'.
Proof.
  induction l as [|[req v] l IH]; intros err n r n' Ht; cbn [redo_all]; [by intros [= <- <-]|].
  unfold mbind, stm_bind, modify. destruct (redo_or_keep now req v err (remove_inflight req n)) as [o n1] eqn:E.
  pose proof (tracked_retry now req v err h _ o n1 (tracked_removed h n req Ht) E) as Ha. destruct o; try (by intros [= <- <-]). by apply IH.
Qed.

Lemma disconnected_same unix peer idx (n : Node) : let n' := forget_peer peer (drop_peer unix peer idx n) in
  inflight n' = inflight n /\ blocks n' = blocks n /\ peers n' = delete peer (peers n).
Proof.
  cbn. unfold drop_peer. destruct (peers n !! peer) as [p|] eqn:E; cbn; [done|]. by rewrite delete_id.
Qed.

Lemma keeps_tracked_disconnection now unix peer idx h : keeps (tracked h) (handle_disconnection now unix peer idx : M _).
Proof.
  constructor. intros n r n' Ht. unfold handle_disconnection. unfold mbind, stm_bind, modify, gets.
  destruct (disconnected_same unix peer idx n) as (E1 & E2 & _). set (n1 := forget_peer peer _) in *.
  assert (Ht1 : tracked h n1) by (unfold tracked; by rewrite E1, E2).
  destruct (redo_all now (requests_of peer n1) None n1) as [o n2] eqn:E.
  pose proof (tracked_redo_all now _ h None n1 o n2 Ht1 E) as Ha.
  destruct o as [err|?| |]; try (by intros [= <- <-]). unfold retry_result. destruct err; by intros [= <- <-].
Qed.

Lemma keeps_tracked_drop_slow now unix req peer p err h : keeps (tracked h) (drop_slow_peer now unix req peer p err : M _).
Proof.
  unfold drop_slow_peer. destruct (_ || _); [|apply keeps_ret]. apply keeps_bind; [|intros ?].
  - apply keeps_ignore. constructor. intros n r n' Ht E. pose proof (tracked_same h n n' (send_to_same _ _ _ _ _ E) Ht). by destruct r.
  - constructor. intros n r n' Ht. unfold collect_err. destruct (handle_disconnection now unix peer _ n) as [o n1] eqn:E.
    pose proof (keeps_run (keeps_tracked_disconnection now unix peer _ h) n o n1 Ht E). destruct o; by intros [= <- <-].
Qed.

Lemma drop_slow_no_err now unix req peer p err (n : Node) e n' : drop_slow_peer now unix req peer p err n <> (Err e, n').
Proof.
  unfold drop_slow_peer. destruct (_ || _); [|done]. unfold mbind, stm_bind, ignore_err, collect_err.
  destruct (send_to_peer peer Shutdown n) as [[] n1]; try done; by destruct (handle_disconnection now unix peer _ n1) as [[] ?].
Qed.

Lemma tracked_slow now unix req v peer p err h n r n' : (req = InBlocks h \/ tracked h n) ->
  (drop_slow_peer now unix req peer p err ≫= redo_or_keep now req v) n = (r, n') -> alive (tracked h) r n'.
Proof.
  intros Ht. unfold mbind, stm_bind. destruct (drop_slow_peer now unix req peer p err n) as [o n1] eqn:E.
  assert (Ht1 : req = InBlocks h \/ alive (tracked h) o n1).
  { destruct Ht as [?|Ht]; [by left|right]. exact (keeps_run (keeps_tracked_drop_slow now unix req peer p err h) n o n1 Ht E). }
  destruct o as [err'|e| |]; try (by intros [= <- <-]); [|by destruct (drop_slow_no_err _ _ _ _ _ _ _ _ _ E)].
  by apply tracked_retry.
Qed.

Lemma keeps_tracked_check now unix T req err h : keeps (tracked h) (check_request T now unix req err : M _).
Proof.
  unfold check_request. apply keeps_state_at. intros n r n' Ht. destruct (inflight n !! req) as [[peer time]|]; [|by intros [= <- <-]].
  destruct (negb _); [by intros [= <- <-]|]. unfold mbind at 1, stm_bind at 1, modify at 1.
  pose proof (tracked_removed h n req Ht) as Hr. destruct (peers n !! peer) as [p|]; [|by apply tracked_retry].
  destruct (bool_decide _ && _) eqn:Ea; [|by apply tracked_slow].
  apply andb_true_iff in Ea as [->%bool_decide_eq_true _]. destruct Hr as [?|Hr]; [done|]. by intros [= <- <-].
Qed.
Lemma keeps_tracked_checks now unix T h l : forall err, keeps (tracked h) (check_requests T now unix l err : M _).
Proof.
  induction l as [|req l IH]; intros err; cbn [check_requests]; [apply keeps_ret|].
  apply keeps_bind; [apply keeps_tracked_check|apply IH].
Qed.
Lemma keeps_tracked_timeout now unix T h : keeps (tracked h) (check_for_timeout T now unix : M _).
Proof.
  unfold check_for_timeout. apply keeps_state_bind. intros n Ht. apply keeps_bind; [apply keeps_tracked_checks|].
  intros [e|]; [apply keeps_lift|apply keeps_ret].
Qed.

(** * The requests of a peer that is gone *)

(** The peer is not known, and what still names it was there in [m]. *)
Definition gone (peer : PeerId) (m : gmap InflightRequests (PeerId * Z)) (n : Node) : Prop :=
  peers n !! peer = None /\ forall req v, inflight n !! req = Some v -> v.1 = peer -> m !! req = Some v.

Lemma gone_same peer m n n' : same_requests n n' -> gone peer m n -> gone peer m n'.
Proof.
  intros (E1 & _ & E3) [Hp Hm]. split; [|by rewrite E1]. apply not_elem_of_dom. rewrite E3. by apply not_elem_of_dom.
Qed.
Lemma gone_insert now peer m req id n : id <> peer -> gone peer m n -> gone peer m (insert_inflight now req id n).
Proof.
  intros Hid [Hp Hm]. split; [done|]. cbn. intros req' v [[<- <-]|[_ Hl]]%lookup_insert_Some; [done|by apply Hm].
Qed.
Lemma gone_inserts now peer m id l : id <> peer -> forall n, gone peer m n ->
  gone peer m (foldl (fun n h => insert_inflight now (InBlocks h) id n) n l).
Proof. intros Hid. induction l as [|h l IH]; intros n Hn; cbn; [done|]. apply IH. by apply gone_insert. Qed.

(** Only known peers are asked again. *)
Lemma keeps_gone_fast {A} peer m req s (k : PeerId -> M A) :
  (forall id, id <> peer -> keeps (gone peer m) (k id)) -> keeps (gone peer m) (send_to_fast_peer req s ≫= k).
Proof.
  intros Hk. constructor. intros n r n' Hn. unfold mbind, stm_bind. destruct (send_to_fast_peer req s n) as [o n1] eqn:E.
  destruct (fast_peer_known req s n o n1 E) as (Hs & Hid & _). pose proof (gone_same peer m n n1 Hs Hn) as Hg1.
  destruct o as [id|?| |]; try (by intros [= <- <-]). apply (keeps_run (Hk id ltac:(intros ->;
    destruct (Hid peer eq_refl) as [p Hp]; by rewrite (proj1 Hn) in Hp))). done.
Qed.
Lemma keeps_gone_redo now peer m req : keeps (gone peer m) (redo_inflight_request now req : M _).
Proof.
  unfold redo_inflight_request, request_blocks, request_proof.
  keeps_walk ltac:(first
    [apply keeps_gone_fast; intros ? ?|apply keeps_modify; intros ? ?; (by apply gone_insert) || (by apply gone_inserts)]).
Qed.

(** After the retries, a request that names the peer is one that failed. *)
Lemma redo_all_gone now peer m l : (forall x, x ∈ l -> m !! x.1 = Some x.2) -> forall err n r n',
  gone peer m n -> (forall req v, inflight n !! req = Some v -> v.1 = peer -> (req, v) ∈ l \/ is_Some err) ->
  redo_all now l err n = (r, n') ->
  match r with
  | Ok err' => gone peer m n' /\ (err' = None -> forall req v, inflight n' !! req = Some v -> v.1 <> peer)
  | Err _ => False
  | _ => True
  end.
Proof.
  induction l as [|[req v] l IH]; intros Hl err n r n' Hg Hin; cbn [redo_all].
  { intros [= <- <-]. split; [done|]. intros -> req v Hv Hp. destruct (Hin req v Hv Hp) as [?%not_elem_of_nil|[? ?]]; done. }
  unfold mbind at 1, stm_bind at 1, modify at 1. unfold mbind, stm_bind, redo_or_keep.
  set (n0 := remove_inflight req n).
  assert (H0' : gone peer (inflight n0) n0) by (split; [apply Hg|done]).
  destruct (redo_inflight_request now req n0) as [o n1] eqn:E.
  pose proof (keeps_run (keeps_gone_redo now peer (inflight n0) req) n0 o n1 H0' E) as Ha.
  assert (Hsub : gone peer (inflight n0) n1 -> gone peer m n1 /\ forall q w, inflight n1 !! q = Some w -> w.1 = peer -> (q, w) ∈ l \/ is_Some err).
  { intros [Hp Hm]. split; [split; [done|]|]; intros q w Hq Hw; destruct (proj1 (lookup_delete_Some (inflight n) req q w) (Hm q w Hq Hw)) as [Hne Hl'].
    - by apply (proj2 Hg).
    - destruct (Hin q w Hl' Hw) as [[[= -> ->]|?]%elem_of_cons|?]; [done|by left|by right]. }
  assert (Hl1 : forall x, x ∈ l -> m !! x.1 = Some x.2) by (intros x Hx; apply Hl; by right).
  destruct o as [[]|e| |]; try (by intros [= <- <-]); destruct (Hsub Ha) as [Hg1 Hin1].
  - apply (IH Hl1 err n1 r n' Hg1). intros q w Hq Hw. exact (Hin1 q w Hq Hw).
  - apply (IH Hl1 (Some e)); [|by right; exists e]. split; [apply Hg1|]. cbn. intros q w [[<- <-]|[_ Hq]]%lookup_insert_Some Hw.
    + apply (Hl (req, v)). by left.
    + by apply (proj2 Hg1).
Qed.
Lemma requests_of_spec peer (n : Node) req v : (req, v) ∈ requests_of peer n -> inflight n !! req = Some v.
Proof.
  unfold requests_of. intros (q & _ & Hq)%list_elem_of_omap. destruct (inflight n !! q) as [w|] eqn:E; [|done].
  cbn in Hq. case_bool_decide; [|done]. by injection Hq as <- <-.
Qed.

(** The map is visited completely. *)
Definition visits_all : Prop := forall m req, is_Some (m !! req) -> req ∈ order_inflight m.

Lemma requests_of_all peer (n : Node) req v : visits_all -> inflight n !! req = Some v -> v.1 = peer ->
  (req, v) ∈ requests_of peer n.
Proof.
  intros Hv E Hp. apply list_elem_of_omap. exists req. split; [apply Hv; by exists v|]. rewrite E. cbn.
  by rewrite bool_decide_eq_true_2.
Qed.

(** C21: When a peer disconnects, no block that was on its way is lost: each is asked
    for again, kept as a request, or there already; the peer is forgotten, and a request
    that still names it is one it had before, kept because no other peer could take it
    over, which the returned error reports. *)
Theorem disconnection_hands_over now unix peer idx (n : Node) r n' : visits_all ->
  handle_disconnection now unix peer idx n = (r, n') -> r <> Panic -> r <> Diverge ->
  (forall h, tracked h n -> tracked h n') /\ peers n' !! peer = None /\
  (forall req v, inflight n' !! req = Some v -> v.1 = peer -> r <> Ok tt /\ inflight n !! req = Some v).
Proof.
  intros Hv Hrun Hp Hd. split.
  { intros h Ht. pose proof (keeps_run (keeps_tracked_disconnection now unix peer idx h) n r n' Ht Hrun). by destruct r. }
  revert Hrun. unfold handle_disconnection, mbind, stm_bind, modify, gets.
  destruct (disconnected_same unix peer idx n) as (E1 & _ & E3). set (n1 := forget_peer peer _) in *.
  destruct (redo_all now (requests_of peer n1) None n1) as [o n2] eqn:E.
  pose proof (redo_all_gone now peer (inflight n1) (requests_of peer n1) ltac:(intros []; apply requests_of_spec) None n1 o n2) as Hg.
  specialize (Hg ltac:(split; [by rewrite E3, lookup_delete_eq|done])
                ltac:(intros req v Hi Hw; left; by apply requests_of_all) E).
  destruct o as [err|?| |]; try done; [|intros [= <- _]; congruence..]. destruct Hg as [[Hn Hm] Hok].
  unfold retry_result. destruct err as [e|]; intros [= <- <-]; (split; [done|]); intros req v Hi Hw; rewrite <-E1.
  - split; [done|by apply Hm].
  - by destruct (Hok eq_refl req v Hi).
Qed.

(** A round of timeouts loses no block either. *)
Theorem timeout_loses_no_block T now unix (n : Node) r n' : check_for_timeout T now unix n = (r, n') ->
  r <> Panic -> r <> Diverge -> forall h, tracked h n -> tracked h n'.
Proof.
  intros E Hp Hd h Ht. pose proof (keeps_run (keeps_tracked_timeout now unix T h) n r n' Ht E). by destruct r.
Qed.
End NodeRetry.
