(* ===== verification/NodeDownload.v ===== *)
(** The processing of downloaded blocks: it ends, it leaves no block that is
    ready, and faults are blamed on the peer that sent the faulty part; the plan
    of the download, and what is left of a ban after the peer is gone. *)

From stdpp Require Import base gmap list strings fin_maps.
From Stdlib Require Import ZArith Lia.
From S2P Require Import Prelude Bitcoin Errors Codec Sigops Udata ChainQuery Mempool Filters BlockProof Text Onion.
From S2P Require Import SocketAddr AddressMan AddressManFacts AddressManRuns Node NodeBlocks NodePeers NodeConn SyncNode NodeFacts NodeRetry.

(** * What the node expects of the chain *)

(** The operations of the chain end. *)
Class ChainTotal `{UtreexoLib} (C : Type) `{!ChainBackend C} : Prop := {
  chain_best_block_total : forall c, ends (chain_best_block c);
  chain_validation_index_total : forall c, ends (chain_validation_index c);
  chain_block_hash_total : forall c h, ends (chain_block_hash c h);
  chain_mtp_total : forall c h, ends (chain_mtp_by_height c h);
  chain_connect_total : forall b p i d c, ends (chain_connect_block b p i d c).1;
  chain_invalidate_total : forall h c, ends (chain_invalidate_block h c).1
}.
#[export] Hint Resolve chain_best_block_total chain_validation_index_total chain_block_hash_total chain_mtp_total
  chain_connect_total chain_invalidate_total : total.

(** * Proofs *)

Section ProofEnds.
Context `{HashLib, TxLib, HeaderLib, ScriptBuild} `{!Codec TxOut}.
Context {E : Type} (fle : UtreexoLeafError -> E) (gbh : Z -> outcome E BlockHash) (gmtp : Z -> outcome E Z).
Context (Hbh : forall h, ends (gbh h)) (Hmtp : forall h, ends (gmtp h)).
#[local] Hint Resolve Hbh Hmtp : total.

Lemma reconstruct_ends leaf input hash : ends (reconstruct_leaf_data leaf input hash).
Proof.
  unfold reconstruct_leaf_data, reconstruct_script_pubkey, get_pk_hash, get_witness_pk_hash, get_script_hash, get_witness_script_hash,
    last_push_hash, last_witness_hash.
  total.
Qed.
#[local] Hint Resolve reconstruct_ends : total.
Lemma process_input_ends sb tx txid k input st : ends (process_input fle gbh gmtp sb tx txid k input st).
Proof. unfold process_input. total. Qed.
#[local] Hint Resolve process_input_ends : total.
Lemma process_inputs_ends sb tx txid l : forall k st, ends (process_inputs fle gbh gmtp sb tx txid k l st).
Proof. induction l as [|input l IH]; intros k st; cbn; total. Qed.
#[local] Hint Resolve process_inputs_ends : total.
Lemma process_txs_ends sb l : forall st, ends (process_txs fle gbh gmtp sb l st).
Proof. induction l as [|tx l IH]; intros st; cbn; total. Qed.
#[local] Hint Resolve process_txs_ends : total.
Lemma process_proof_ends leaves txs : ends (process_proof fle gbh gmtp leaves txs).
Proof. unfold process_proof. total. Qed.
End ProofEnds.

Section NodeDownload.
Context `{HashLib, TxLib, HeaderLib, UtreexoLib, ScriptBuild} `{!Codec TxOut}.
Context {C MP : Type} `{!ProofBuild, !ChainBackend C, !HashOrder, !MempoolBase MP} `{!Json (list DiskLocalAddress)}.

Abbreviation Node := (NodeCommon C MP) (only parsing).
Abbreviation M := (stm (NodeCommon C MP) WireError) (only parsing).

(** * Blame *)

(** The errors that speak of the block leave the stored blocks alone. *)
Lemma blame_block_blocks e p h (n : Node) r n' : blame_block_peer_for_block_error e p h n = (r, n') -> blocks n' = blocks n.
Proof.
  unfold blame_block_peer_for_block_error, mbind, stm_bind, ignore_err, chain_step, modify, gets.
  destruct e; try (by intros [= <- <-]);
    try (destruct (chain_invalidate_block h (chain n)) as [[] c]; by intros [= <- <-]);
    destruct (chain_validation_index (chain n)); cbn; by intros [= <- <-].
Qed.

(** A block is kept only together with somebody to blame. *)
Lemma blame_none_blocks e b p u (n : Node) n' : blame_peer_for_block_error e b p u n = (Ok None, n') -> blocks n' = blocks n.
Proof.
  unfold blame_peer_for_block_error. destruct e; try apply blame_block_blocks; try done.
  destruct (negb _); [done|]. apply blame_block_blocks.
Qed.
Lemma block_error_blocks e b p u (n : Node) n' : handle_block_error e b p (Some u) n = (Ok tt, n') -> blocks n' = blocks n.
Proof.
  unfold handle_block_error. destruct (block_validation_err e) as [e'|]; [|by intros [= <-]].
  unfold mbind, stm_bind. destruct (blame_peer_for_block_error e' b p u n) as [[[q|]|?| |] n1] eqn:E; try done.
  - by destruct (disconnect_and_ban q n1) as [[] ?].
  - intros [= <-]. by apply (blame_none_blocks e' b p u).
Qed.

(** A block that is processed without an error is taken out of the map. *)
Lemma process_block_removes now h (n : Node) n' : process_block now h n = (Ok tt, n') ->
  is_Some (blocks n !! h) /\ blocks n' = delete h (blocks n).
Proof.
  unfold process_block, mbind, stm_bind, gets, lift, modify. destruct (blocks n !! h) as [ib|] eqn:Eb; cbn [ok_or]; [|done].
  destruct (aux_data ib) as [[[leaves proof] u]|]; cbn [ok_or]; [|done]. intros Hrun. split; [done|]. revert Hrun.
  destruct (process_proof _ _ _ _ _) as [[d i]|e| |]; try done; [|apply block_error_blocks].
  unfold connect_or_blame, chain_step. destruct (chain_connect_block _ _ _ _ _) as [[] c]; try done; [by intros [= <-]|apply block_error_blocks].
Qed.

(** * The loop *)

(** The block after the last validated one, when it is there with its proof. *)
Definition ready (n : Node) (h : BlockHash) : Prop :=
  exists best vi b, chain_best_block (chain n) = Ok best /\ chain_validation_index (chain n) = Ok vi /\ vi + 1 <= best.1 /\
    chain_block_hash (chain n) (vi + 1) = Ok h /\ blocks n !! h = Some b /\ is_Some (aux_data b).

Lemma process_loop_done now k : forall (n : Node) n', process_loop now k n = (Ok tt, n') ->
  blocks n' ⊆ blocks n /\ forall h, ~ ready n' h.
Proof.
  induction k as [|k IH]; intros n n'; cbn [process_loop]; [done|].
  unfold mbind, stm_bind, on_chain, gets, lift. destruct (chain_best_block (chain n)) as [best|?| |] eqn:Eb; try done. cbn [map_err].
  destruct (chain_validation_index (chain n)) as [vi|?| |] eqn:Ev; try done. cbn [map_err].
  destruct (u32_add vi 1) as [next|?| |] eqn:Eu; try done. apply u32_add_ok in Eu as [-> _].
  destruct (Z.ltb_spec best.1 (vi + 1)) as [Hlt|Hle].
  { intros [= <-]. split; [done|]. intros h (best' & vi' & b & E1 & E2 & Hle & _).
    rewrite Eb in E1. rewrite Ev in E2. injection E1 as <-. injection E2 as <-. lia. }
  destruct (chain_block_hash (chain n) (vi + 1)) as [h|?| |] eqn:Eh; try done. cbn [map_err].
  destruct (blocks n !! h) as [b|] eqn:El; [destruct (aux_data b) as [a|] eqn:Ea|].
  - destruct (process_block now h n) as [[[]|?| |] n1] eqn:Ep; try done. intros Hrun.
    destruct (process_block_removes now h n n1 Ep) as [_ Hd]. destruct (IH n1 n' Hrun) as [Hs Hr]. split; [|done].
    etransitivity; [exact Hs|]. rewrite Hd. apply delete_subseteq.
  - intros [= <-]. split; [done|]. intros h' (best' & vi' & b' & _ & E2 & _ & E4 & E5 & [? ?]). rewrite Ev in E2. injection E2 as <-.
    rewrite Eh in E4. injection E4 as <-. congruence.
  - intros [= <-]. split; [done|]. intros h' (best' & vi' & b' & _ & E2 & _ & E4 & E5 & [? ?]). rewrite Ev in E2. injection E2 as <-.
    rewrite Eh in E4. injection E4 as <-. congruence.
Qed.

Section Total.
Context `{!ChainTotal C}.

Lemma send_to_peer_ends p req (n : Node) : ends (send_to_peer p req n).1.
Proof. unfold send_to_peer, send_on_channel. total. Qed.
Lemma ban_ends p (n : Node) : ends (disconnect_and_ban p n).1.
Proof. unfold disconnect_and_ban. pose proof (send_to_peer_ends p Shutdown). total. Qed.
Lemma ignore_ends {E A} (m : stm Node E A) n : ends (m n).1 -> ends (ignore_err m n).1.
Proof. unfold ignore_err. by destruct (m n) as [[] ?]. Qed.
Lemma chain_step_ends {E A} (m : stm C E A) (n : Node) : ends (m (chain n)).1 -> ends (chain_step m n).1.
Proof. unfold chain_step. by destruct (m (chain n)). Qed.
#[local] Hint Resolve ban_ends ignore_ends chain_step_ends : total.

Lemma blame_block_ends e p h (n : Node) : ends (blame_block_peer_for_block_error e p h n).1.
Proof.
  unfold blame_block_peer_for_block_error. pose proof (chain_validation_index_total (chain n)) as Hv.
  destruct e; total; by destruct (chain_validation_index (chain n)).
Qed.
#[local] Hint Resolve blame_block_ends : total.
Lemma blame_ends e b p u (n : Node) : ends (blame_peer_for_block_error e b p u n).1.
Proof. unfold blame_peer_for_block_error. total. Qed.
#[local] Hint Resolve blame_ends : total.
Lemma block_error_ends e b p u (n : Node) : ends (handle_block_error e b p u n).1.
Proof. unfold handle_block_error. total. Qed.
#[local] Hint Resolve block_error_ends : total.
Lemma connect_ends now b pr i d p u (n : Node) : ends (connect_or_blame now b pr i d p u n).1.
Proof.
  unfold connect_or_blame, chain_step. pose proof (chain_connect_total b pr i d (chain n)) as Hc.
  destruct (chain_connect_block b pr i d (chain n)) as [[] c]; cbn in *; try done. apply block_error_ends.
Qed.
#[local] Hint Resolve connect_ends : total.
Lemma process_block_ends now h (n : Node) : ends (process_block now h n).1.
Proof.
  unfold process_block. apply stm_bind_ends; [total|]. intros ? ? [= <- <-].
  apply stm_bind_ends; [total|]. intros ib ? _. apply stm_bind_ends; [total|]. intros ? n1 _.
  apply stm_bind_ends; [total|]. intros [[leaves proof] u] n2 _.
  pose proof (process_proof_ends UtreexoLeaf (chain_block_hash (chain n)) (chain_mtp_by_height (chain n))
    ltac:(auto with total) ltac:(auto with total) leaves (txdata (ib_block ib))) as Hp.
  destruct (process_proof _ _ _ _ _) as [[d i]|e| |]; try done; [total|apply block_error_ends].
Qed.
#[local] Hint Resolve process_block_ends : total.

(** Every round takes a block out of the map. *)
Lemma process_loop_ends now k : forall n : Node, (size (blocks n) < k)%nat -> ends (process_loop now k n).1.
Proof.
  induction k as [|k IH]; intros n Hk; [lia|]. cbn [process_loop]. unfold on_chain.
  apply stm_bind_ends; [total|]. intros best ? E1. assert (E1' := f_equal snd E1). cbn in E1'. subst s'.
  apply stm_bind_ends; [total|]. intros vi ? E2. assert (E2' := f_equal snd E2). cbn in E2'. subst s'.
  apply stm_bind_ends; [total|]. intros next ? [= _ <-]. destruct (_ <? _); [done|].
  apply stm_bind_ends; [total|]. intros h ? E3. assert (E3' := f_equal snd E3). cbn in E3'. subst s'.
  apply stm_bind_ends; [total|]. intros ? ? [= <- <-]. destruct (blocks n !! h) as [b|]; [|done].
  destruct (aux_data b); [|done]. apply stm_bind_ends; [total|]. intros [] n1 E4. apply IH.
  destruct (process_block_removes now h n n1 E4) as [Hs ->]. rewrite map_size_delete_Some by exact Hs.
  pose proof (map_size_ne_0_lookup_2 (blocks n) h Hs). lia.
Qed.
End Total.

(** C22: process_pending_blocks always ends when the operations of the chain do, which
    the chain state is proved to satisfy: every round takes one block out of the map;
    when it succeeds it has added no block, and the block after the validation index is
    not there or has no proof yet. *)
Theorem process_pending_blocks_total `{!ChainTotal C} now (n : Node) : exists r n',
  process_pending_blocks now n = (r, n') /\ r <> Diverge /\
  (r = Ok tt -> blocks n' ⊆ blocks n /\ forall h, ~ ready n' h).
Proof.
  destruct (process_pending_blocks now n) as [r n'] eqn:E. exists r, n'. split; [done|]. unfold process_pending_blocks in E.
  split.
  - pose proof (process_loop_ends now (S (size (blocks n))) n ltac:(lia)) as He. rewrite E in He. exact He.
  - intros ->. by eapply process_loop_done.
Qed.
(** * Who is blamed *)

(** What an error of the chain says of the block and of its proof. *)
Inductive Fault := NoFault | ProofFault | MutatedBlock | InvalidBlock | OutOfOrder.
#[export] Instance Fault_eq_dec : EqDecision Fault.
Proof. solve_decision. Defined.
Definition fault_of (e : BlockchainError) (block : Block) : Fault :=
  match block_validation_err e with
  | None => NoFault
  | Some InvalidUtreexoProof => ProofFault
  | Some (UtxoNotFound o) => if is_same_block_spend block o then InvalidBlock else ProofFault
  | Some (BadMerkleRoot | BadWitnessCommitment) => MutatedBlock
  | Some (BlockExtendsAnOrphanChain | BlockDoesntExtendTip) => OutOfOrder
  | Some _ => InvalidBlock
  end.
Definition culprit (f : Fault) (block_peer utreexo_peer : PeerId) : option PeerId :=
  match f with ProofFault => Some utreexo_peer | MutatedBlock => Some block_peer | _ => None end.

(** The peers after [culprit] is banned; manual peers are not. *)
Definition punished (who : option PeerId) (ps ps' : gmap Z LocalPeerView) : Prop :=
  dom ps' = dom ps /\ forall q p, ps !! q = Some p -> exists p', ps' !! q = Some p' /\ kind p' = kind p /\
    p_state p' = if bool_decide (who = Some q) && negb (is_manual (kind p)) then BannedPeer else p_state p.

Lemma punished_nobody ps : punished None ps ps.
Proof. split; [done|]. intros q p E. by exists p. Qed.
Lemma alter_there (f : LocalPeerView -> LocalPeerView) q p (ps : gmap Z LocalPeerView) : ps !! q = Some p -> alter f q ps = <[q := f p]> ps.
Proof.
  intros Eq. apply map_eq. intros i. destruct (decide (i = q)) as [->|Hne].
  - by rewrite lookup_alter_eq, lookup_insert_eq, Eq.
  - by rewrite lookup_alter_ne, lookup_insert_ne.
Qed.
Lemma punished_spared q (ps : gmap Z LocalPeerView) : (forall p, ps !! q = Some p -> is_manual (kind p) = true) -> punished (Some q) ps ps.
Proof.
  intros Hm. split; [done|]. intros q' p E. exists p. split_and!; try done. case_bool_decide as Hq; [|done].
  injection Hq as <-. by rewrite (Hm p E).
Qed.
Lemma punished_insert q p p' (ps : gmap Z LocalPeerView) : ps !! q = Some p -> kind p' = kind p -> is_manual (kind p) = false -> p_state p' = BannedPeer ->
  punished (Some q) ps (<[q := p']> ps).
Proof.
  intros Eq Hk Hm Hs. split.
  { apply dom_insert_lookup_L. by exists p. }
  intros q' r E. destruct (decide (q' = q)) as [->|Hne].
  - rewrite Eq in E. injection E as <-. exists p'. rewrite lookup_insert_eq, bool_decide_eq_true_2, Hm by done. done.
  - exists r. rewrite lookup_insert_ne by done. rewrite bool_decide_eq_false_2; [done|]. by intros [= ->].
Qed.

Lemma ban_punishes q (n : Node) r n' : disconnect_and_ban q n = (r, n') ->
  punished (Some q) (peers n) (peers n') /\ chain n' = chain n /\ blocks n' = blocks n.
Proof.
  unfold disconnect_and_ban. destruct (peers n !! q) as [p|] eqn:Eq.
  2:{ unfold send_to_peer. rewrite Eq. intros [= <- <-]. split; [|done]. apply punished_spared. by rewrite Eq. }
  destruct (is_manual (kind p)) eqn:Em.
  { intros [= <- <-]. split; [|done]. apply punished_spared. intros p'. rewrite Eq. by intros [= <-]. }
  unfold send_to_peer, send_on_channel. cbn. rewrite lookup_alter_eq, Eq. cbn.
  destruct (channel_open p); intros [= <- <-]; (split; [|done]); cbn; rewrite (alter_there (set_p_state BannedPeer) q p (peers n)) by done.
  - rewrite (alter_there _ q (set_p_state BannedPeer p)) by apply lookup_insert_eq. rewrite insert_insert_eq.
    by apply (punished_insert q p).
  - by apply (punished_insert q p).
Qed.

(** The choice of the culprit, and what happens to the block and to the chain. *)
Lemma blame_choice e b p u (n : Node) o n' : blame_peer_for_block_error e b p u n = (Ok o, n') ->
  let f := fault_of (BlockValidation e) b in
  o = culprit f p u /\ peers n' = peers n /\
  chain n' = (if bool_decide (f = InvalidBlock) then (chain_invalidate_block (blk_hash b) (chain n)).2 else chain n) /\
  blocks n' = (if bool_decide (f = ProofFault) then <[blk_hash b := inflight_new b p]> (blocks n) else blocks n).
Proof.
  unfold blame_peer_for_block_error, blame_block_peer_for_block_error, fault_of, block_validation_err, mbind, stm_bind,
    modify, ignore_err, chain_step, gets.
  destruct e; cbn; try (intros [= <- <-]; done);
    try (destruct (chain_invalidate_block _ _) as [[] c]; intros [= <- <-]; done);
    try (destruct (chain_validation_index (chain n)); intros [= <- <-]; done).
  destruct (is_same_block_spend b o0); cbn; [|intros [= <- <-]; done].
  destruct (chain_invalidate_block _ _) as [[] c]; intros [= <- <-]; done.
Qed.

Lemma blame_no_err e b p u (n : Node) e' n' : blame_peer_for_block_error e b p u n <> (Err e', n').
Proof.
  unfold blame_peer_for_block_error, blame_block_peer_for_block_error, mbind, stm_bind, modify, ignore_err, chain_step, gets.
  destruct e; try done; try destruct (negb _); try done; try (by destruct (chain_invalidate_block _ _) as [[] c]);
    by destruct (chain_validation_index (chain n)).
Qed.

Lemma block_error_effect (e : BlockchainError) b p u (n : Node) r n' :
  handle_block_error e b p (Some u) n = (r, n') -> r <> Panic -> r <> Diverge ->
  let f := fault_of e b in
  punished (culprit f p u) (peers n) (peers n') /\
  (r = Ok tt <-> culprit f p u = None) /\
  chain n' = (if bool_decide (f = InvalidBlock) then (chain_invalidate_block (blk_hash b) (chain n)).2 else chain n) /\
  blocks n' = (if bool_decide (f = ProofFault) then <[blk_hash b := inflight_new b p]> (blocks n) else blocks n).
Proof.
  intros Hrun Hp Hd. revert Hrun. unfold handle_block_error. destruct (block_validation_err e) as [e'|] eqn:Ee.
  2:{ intros [= <- <-]. unfold fault_of. rewrite Ee. cbn. split; [apply punished_nobody|done]. }
  assert (fault_of e b = fault_of (BlockValidation e') b) as -> by (unfold fault_of; by rewrite Ee).
  unfold mbind, stm_bind. destruct (blame_peer_for_block_error e' b p u n) as [[o|?| |] n1] eqn:Eb;
    [|by apply blame_no_err in Eb|intros [= <- _]; done..].
  destruct (blame_choice e' b p u n o n1 Eb) as (-> & E1 & <- & <-).
  destruct (culprit _ p u) as [q|].
  - destruct (disconnect_and_ban q n1) as [x n2] eqn:Ed. destruct (ban_punishes q n1 x n2 Ed) as (Hpu & E2 & E3).
    rewrite E1 in Hpu. destruct x; intros [= <- <-]; done.
  - intros [= <- <-]. rewrite E1. split; [apply punished_nobody|done].
Qed.

(** C23: An error in a block is blamed on the peer that sent the faulty part and on no
    other: an invalid proof or missing leaf data on the peer of the proof, and the block
    is kept for another proof; a mutated block on the peer of the block; for a
    consensus-invalid block, one that is out of order and local failures nobody is
    banned, and only the first changes the chain, by invalidate_block. Manual peers are
    never banned, and an error is returned exactly when somebody is blamed. *)
Theorem block_error_blames (e : BlockchainError) b p u (n : Node) r n' :
  handle_block_error e b p (Some u) n = (r, n') -> r <> Panic -> r <> Diverge ->
  let f := fault_of e b in
  punished (culprit f p u) (peers n) (peers n') /\
  (r = Ok tt <-> culprit f p u = None) /\
  chain n' = (if bool_decide (f = InvalidBlock) then (chain_invalidate_block (blk_hash b) (chain n)).2 else chain n) /\
  blocks n' = (if bool_decide (f = ProofFault) then <[blk_hash b := inflight_new b p]> (blocks n) else blocks n).
Proof. apply block_error_effect. Qed.
(** * Leaves of blocks that are not in the chain *)

(** Leaf data that claims to be created at a height the chain does not have makes
    process_block drop the block and return Ok: the error of get_block_hash is not a
    validation error, so the peer that sent the proof is not blamed and the block has to
    be downloaded again. *)
Theorem absent_height_unpunished now h ib leaf leaves proof u cb tx txs input ins e (n : Node) :
  blocks n !! h = Some ib -> aux_data ib = Some (leaf :: leaves, proof, u) ->
  txdata (ib_block ib) = cb :: tx :: txs -> tx_input tx = input :: ins ->
  is_same_block_output (same_block_transactions (txdata (ib_block ib))) (previous_output input) = false ->
  Z.shiftr (header_code leaf) 1 <> 0 -> chain_block_hash (chain n) (Z.shiftr (header_code leaf) 1) = Err e ->
  block_validation_err e = None ->
  process_block now h n = (Ok tt, set_blocks (delete h (blocks n)) n).
Proof.
  intros Hb Ha Htx Hin Hsame Hg Hh He. unfold process_block, mbind, stm_bind, gets, lift, modify.
  rewrite Hb. cbn [ok_or]. rewrite Ha. cbn [ok_or].
  assert (Hp : process_proof UtreexoLeaf (chain_block_hash (chain n)) (chain_mtp_by_height (chain n)) (leaf :: leaves)
                 (txdata (ib_block ib)) = Err e).
  { unfold process_proof. rewrite Htx in *. cbn [tail process_txs]. rewrite Hin. cbn [process_inputs].
    unfold process_input at 1. rewrite Hsame. cbn [leaves_iter]. unfold GENESIS_HEIGHT.
    destruct (Z.eqb_spec (Z.shiftr (header_code leaf) 1) 0); [done|]. by rewrite Hh. }
  rewrite Hp. unfold handle_process_block_error, handle_block_error. by rewrite He.
Qed.
End NodeDownload.

Section NodeSync.
Context `{HashLib, TxLib, HeaderLib, UtreexoLib, ScriptBuild} `{!Codec TxOut}.
Context {C MP : Type} `{!ProofBuild, !ChainBackend C, !HashOrder, !MempoolBase MP} `{!Json (list DiskLocalAddress)}.

Abbreviation Node := (NodeCommon C MP) (only parsing).
Abbreviation M := (stm (NodeCommon C MP) WireError) (only parsing).

(** * The blocks to download *)

(** The hashes of the heights after [from]. *)
Definition heights_hash (c : C) (from : Z) (l : list BlockHash) : Prop :=
  forall i h, l !! i = Some h -> chain_block_hash c (from + Z.of_nat i) = Ok h.

Lemma next_blocks_consecutive k vi : forall (n : Node) l n',
  chain_validation_index (chain n) = Ok vi -> vi <= last_block_request n -> next_blocks k n = (Ok l, n') ->
  n' = set_last_block_request (last_block_request n + Z.of_nat (length l)) n /\ (length l <= k)%nat /\
  heights_hash (chain n) (last_block_request n + 1) l /\
  ((length l < k)%nat -> exists e, chain_block_hash (chain n) (last_block_request n' + 1) = Err e).
Proof.
  induction k as [|k IH]; intros n l n' Hv Hle; cbn [next_blocks].
  { intros [= <- <-]. cbn. rewrite Z.add_0_r. split_and!; [by destruct n|lia|done|lia]. }
  unfold mbind, stm_bind, gets, lift, modify. destruct (u32_add (last_block_request n) 1) as [next|?| |] eqn:Eu; try done.
  apply u32_add_ok in Eu as [-> Hmax]. rewrite Hv. cbn [unwrap]. destruct (Z.leb_spec (last_block_request n + 1) vi); [lia|].
  cbn [id]. destruct (chain_block_hash (chain n) (last_block_request n + 1)) as [h|e| |] eqn:Eh; try done.
  2:{ intros [= <- <-]. cbn. rewrite Z.add_0_r. split_and!; [by destruct n|lia|done|]. intros _. by exists e. }
  unfold u32_add. rewrite (proj2 (Z.leb_le _ _) Hmax). set (n1 := set_last_block_request _ n).
  destruct (next_blocks k n1) as [[more|?| |] n2] eqn:En; try done. intros [= <- <-].
  destruct (IH n1 more n2) as (-> & Hlen & Hh & Hend); [done|cbn; lia|done|]. cbn. split_and!.
  - unfold set_last_block_request. cbn. f_equal; lia.
  - lia.
  - intros [|i] x; cbn [lookup list_lookup]; [intros [= <-]; by rewrite Z.add_0_r|]. intros Hx.
    rewrite <-(Hh i x Hx). cbn. f_equal; lia.
  - intros Hk. destruct (Hend ltac:(lia)) as [e He]. exists e. rewrite <-He. cbn. f_equal; lia.
Qed.

(** The height of the [i]-th block that is requested: when the node lags behind
    the validation index, the first request is for a block that is validated
    already, and the one after the validation index is left out. *)
Definition plan_height (vi last : Z) (i : nat) : Z :=
  if (i =? 0)%nat && (last <? vi) then last + 1 else Z.max vi last + 1 + Z.of_nat i.

Lemma next_blocks_plan k vi (n : Node) l n' : chain_validation_index (chain n) = Ok vi -> next_blocks (S k) n = (Ok l, n') ->
  n' = set_last_block_request (Z.max vi (last_block_request n) + Z.of_nat (length l)) n /\
  forall i h, l !! i = Some h -> chain_block_hash (chain n) (plan_height vi (last_block_request n) i) = Ok h.
Proof.
  intros Hv. destruct (Z.ltb_spec (last_block_request n) vi) as [Hlt|Hle].
  2:{ intros Hrun. destruct (next_blocks_consecutive (S k) vi n l n' Hv Hle Hrun) as (-> & _ & Hh & _).
      unfold plan_height. rewrite (proj2 (Z.ltb_ge _ _) Hle), Z.max_r by done. split; [done|]. intros i h Hi.
      rewrite andb_false_r. by apply Hh. }
  cbn [next_blocks]. unfold mbind, stm_bind, gets, lift, modify.
  destruct (u32_add (last_block_request n) 1) as [next|?| |] eqn:Eu; try done.
  apply u32_add_ok in Eu as [-> Hmax]. rewrite Hv. cbn [unwrap]. rewrite (proj2 (Z.leb_le _ _)) by lia. rewrite Z.max_l by lia.
  destruct (chain_block_hash (chain n) (last_block_request n + 1)) as [h|e| |] eqn:Eh; try done.
  2:{ intros [= <- <-]. cbn. by rewrite Z.add_0_r. }
  destruct (u32_add (last_block_request (set_last_block_request vi n)) 1) as [nx|?| |] eqn:Ex; try done.
  apply u32_add_ok in Ex as [-> _]. set (n1 := set_last_block_request _ _).
  destruct (next_blocks k n1) as [[more|?| |] n2] eqn:En; try done. intros [= <- <-].
  destruct (next_blocks_consecutive k vi n1 more n2) as (-> & _ & Hh & _); [done|cbn; lia|done|]. split.
  - unfold set_last_block_request. cbn. f_equal; lia.
  - unfold plan_height. rewrite (proj2 (Z.ltb_lt _ _) Hlt), Z.max_l by lia.
    intros [|i] x; cbn [lookup list_lookup]; [by intros [= <-]|]. intros Hx. rewrite <-(Hh i x Hx). cbn. f_equal; lia.
Qed.

(** Requests do not move the download. *)
Lemma fast_peer_last req s (n : Node) r n' : send_to_fast_peer req s n = (r, n') -> last_block_request n' = last_block_request n.
Proof.
  unfold send_to_fast_peer, choose_peer_by_latency, draw, draw_stream, mbind, stm_bind, gets, lift, mret, stm_ret.
  destruct (choose _ _) as [id|]; cbn [ok_or]; [|by intros [= <- <-]].
  unfold send_on_channel. cbn. destruct (peers n !! id) as [p|]; [destruct (channel_open p)|]; by intros [= <- <-].
Qed.
Lemma request_blocks_frame now l (n : Node) r n' : request_blocks now l n = (r, n') ->
  last_block_request n' = last_block_request n /\ (r <> Ok tt -> inflight n' = inflight n).
Proof.
  unfold request_blocks, mbind, stm_bind, gets. case_bool_decide; [by intros [= <- <-]|].
  destruct (send_to_fast_peer _ _ n) as [o n1] eqn:Es. destruct (fast_peer_known _ _ _ _ _ Es) as ((Ei & _) & _).
  pose proof (fast_peer_last _ _ _ _ _ Es) as El. destruct o as [peer|?| |]; intros [= <- <-]; try done. split; [|done].
  rewrite <-El. generalize (filter (should_request n) l). clear. intros l. revert n1. induction l as [|h l IH]; intros n1; [done|].
  cbn. by rewrite IH.
Qed.

(** get_blocks_to_download asks for consecutive blocks after the last request and moves
    the last request by their number, unless no peer takes the request; blocks on their
    way stay so. When the last request lags behind the validation index, it asks first
    for a block that is validated already and leaves out the one after the validation
    index. *)
Theorem download_plan now vi (n : Node) n' :
  chain_validation_index (chain n) = Ok vi -> can_request_more_blocks SyncNode n = true ->
  get_blocks_to_download now n = (Ok tt, n') -> exists l,
    last_block_request n' = Z.max vi (last_block_request n) + Z.of_nat (length l) /\
    (forall i h, l !! i = Some h -> chain_block_hash (chain n) (plan_height vi (last_block_request n) i) = Ok h) /\
    (forall h, tracked h n -> tracked h n') /\
    (inflight n' = inflight n \/ forall h, h ∈ l -> tracked h n').
Proof.
  intros Hv Hc. unfold get_blocks_to_download, mbind, stm_bind, gets. rewrite Hc. cbn [negb].
  destruct (next_blocks (BLOCKS_PER_GETDATA SyncNode) n) as [[l|?| |] n1] eqn:En; try done.
  destruct (next_blocks_plan _ vi n l n1 Hv En) as [-> Hl]. set (n1 := set_last_block_request _ n).
  unfold ignore_err. destruct (request_blocks now l n1) as [o n2] eqn:Er.
  destruct (request_blocks_tracks now l n1 o n2 Er) as (Hp & Hd & Hk & Hok).
  intros Hrun. assert (n2 = n') as -> by (destruct o; congruence). exists l.
  destruct (request_blocks_frame now l n1 o n' Er) as [El Ei]. split_and!; [by rewrite El|exact Hl|exact Hk|].
  destruct o as [[]|e| |]; [right; by apply Hok|left; by apply Ei..].
Qed.

(** * Missed blocks *)

Lemma hashes_of_all c : forall heights l, hashes_of c heights = Ok l -> forall h x, h ∈ heights -> chain_block_hash c h = Ok x -> x ∈ l.
Proof.
  induction heights as [|k ks IH]; intros l; [by intros _ h x ?%not_elem_of_nil|]. cbn [hashes_of].
  intros (y & Ey & (more & Em & [= <-])%obind_ok)%obind_ok h x [->|Hh]%elem_of_cons Hx.
  - assert (x = y) as -> by congruence. by left.
  - right. by apply (IH more Em h x).
Qed.

(** When [ask_for_missed_blocks] succeeds, every block between the validation index
    and the last request is on its way. *)
Theorem missed_blocks_requested now (n : Node) n' : ask_for_missed_blocks now n = (Ok tt, n') ->
  forall vi h x, chain_validation_index (chain n) = Ok vi -> vi < h <= last_block_request n ->
    chain_block_hash (chain n) h = Ok x -> tracked x n'.
Proof.
  unfold ask_for_missed_blocks, mbind, stm_bind, on_chain, gets, lift. intros Hrun vi h x Hv Hh Hx. revert Hrun. rewrite Hv. cbn [map_err].
  destruct (u32_add vi 1) as [next|?| |] eqn:Eu; try done. apply u32_add_ok in Eu as [-> _].
  destruct (hashes_of (chain n) _) as [l|?| |] eqn:El; try done. cbn [map_err]. intros Hr.
  destruct (request_blocks_tracks now l n (Ok tt) n' Hr) as (_ & _ & _ & Hin). apply Hin; [done|].
  apply (hashes_of_all _ _ _ El h x); [|done]. apply elem_of_seqZ. lia.
Qed.

(** * Bans *)

(** Making requests again does not touch the addresses. *)
Lemma keeps_man_fast req s am : keeps (fun n : Node => address_man n = am) (send_to_fast_peer req s : M _).
Proof.
  unfold send_to_fast_peer, choose_peer_by_latency, draw. keeps_walk ltac:(fail).
  - constructor. by intros n r n' Hn [= <- <-].
  - apply keeps_gets.
  - constructor. intros n r n' Hn. unfold send_on_channel. destruct (peers n !! _) as [p|]; [destruct (channel_open p)|]; by intros [= <- <-].
Qed.
Lemma foldl_inserts_man now peer l : forall n : Node,
  address_man (foldl (fun n h => insert_inflight now (InBlocks h) peer n) n l) = address_man n.
Proof. induction l as [|h l IH]; intros n; cbn; [done|by rewrite IH]. Qed.
Lemma keeps_man_redo now req am : keeps (fun n : Node => address_man n = am) (redo_inflight_request now req : M _).
Proof.
  unfold redo_inflight_request, request_blocks, request_proof. keeps_walk ltac:(first
    [apply keeps_man_fast|apply keeps_modify; intros ? ?; by rewrite ?foldl_inserts_man]).
Qed.
Lemma keeps_man_redo_all now l am : forall err, keeps (fun n : Node => address_man n = am) (redo_all now l err : M _).
Proof.
  induction l as [|[req v] l IH]; intros err; cbn [redo_all]; [apply keeps_ret|]. apply keeps_bind; [by apply keeps_modify|]. intros _.
  apply keeps_bind; [|apply IH]. constructor. intros n r n' Hn. unfold redo_or_keep.
  destruct (redo_inflight_request now req n) as [o n1] eqn:E. pose proof (keeps_run (keeps_man_redo now req am) n o n1 Hn E).
  destruct o; by intros [= <- <-].
Qed.

(** The address of a peer that is gone gets the state of the peer. *)
Lemma disconnection_man now unix peer idx p (n : Node) r n' : peers n !! peer = Some p ->
  handle_disconnection now unix peer idx n = (r, n') -> r <> Panic -> r <> Diverge ->
  address_man n' = update_set_state unix idx (gone_state unix (p_state p)) (address_man n).
Proof.
  intros Hp Hrun Hpa Hd. revert Hrun. unfold handle_disconnection, mbind, stm_bind, modify, gets.
  set (n1 := forget_peer peer _). assert (Em : address_man n1 = update_set_state unix idx (gone_state unix (p_state p)) (address_man n)).
  { unfold n1, forget_peer, drop_peer. by rewrite Hp. }
  destruct (redo_all now (requests_of peer n1) None n1) as [o n2] eqn:E.
  pose proof (keeps_run (keeps_man_redo_all now _ _ None) n1 o n2 Em E) as Ha.
  unfold retry_result. destruct o as [[e|]|e| |]; intros [= <- <-]; done.
Qed.

(** Expiry of an address whose new state does not expire again. *)
Lemma expire_all_at now ids id a' : expire now a' = Ok a' -> forall am am' a, expire now a = Ok a' ->
  addresses am !! id = Some a -> id ∈ ids \/ a = a' -> expire_all now ids am = (Ok tt, am') -> addresses am' !! id = Some a'.
Proof.
  intros Hfix. induction ids as [|i ids IH]; intros am am' a Ha Hl Hin; cbn [expire_all].
  { intros [= <-]. by destruct Hin as [?%not_elem_of_nil| ->]. }
  unfold mbind, stm_bind, gets, lift, modify. destruct (decide (i = id)) as [->|Hne].
  - rewrite Hl, Ha. apply (IH _ am' a' Hfix); [apply lookup_insert_eq|by right].
  - assert (id ∈ ids \/ a = a') by (destruct Hin as [[?|?]%elem_of_cons|?]; [congruence|by left|by right]).
    destruct (addresses am !! i) as [b|]; [|by apply IH with a]. destruct (expire now b) as [b'|?| |]; try done.
    apply (IH _ am' a Ha); [|done]. cbn. by rewrite lookup_insert_ne.
Qed.

(** When a banned peer disconnects, its address is marked as banned until the instant
    BAN_TIME after the epoch instead of BAN_TIME from now, so the next
    rearrange_buckets, at any present time, makes it available again. *)
Theorem ban_ends_with_connection now unix peer idx p a (n : Node) r n' : peers n !! peer = Some p -> p_state p = BannedPeer ->
  addresses (address_man n) !! idx = Some a -> handle_disconnection now unix peer idx n = (r, n') -> r <> Panic -> r <> Diverge ->
  exists a', addresses (address_man n') !! idx = Some a' /\ la_state a' = Banned (24 * 60 * 60) /\
    forall later am, 24 * 60 * 60 < later -> idx ∈ order_addresses (addresses (address_man n')) ->
      rearrange_buckets order_addresses later (address_man n') = (Ok tt, am) ->
      addresses am !! idx = Some (set_state NeverTried a').
Proof.
  intros Hp Hs Ha Hrun Hpa Hd. rewrite (disconnection_man now unix peer idx p n r n' Hp Hrun Hpa Hd). rewrite Hs. cbn [gone_state].
  exists (set_state (Banned (24 * 60 * 60)) a). split_and!; [by cbn; rewrite lookup_alter_eq, Ha|done|].
  intros later am Hlate Hin. unfold rearrange_buckets, mbind, stm_bind, gets.
  apply (expire_all_at later _ idx (set_state NeverTried (set_state (Banned (24 * 60 * 60)) a)) eq_refl _ am (set_state (Banned (24 * 60 * 60)) a)); [|by cbn; rewrite lookup_alter_eq, Ha|by left].
  unfold expire. cbn [la_state set_state]. by rewrite (proj2 (Z.ltb_lt _ _) Hlate).
Qed.
End NodeSync.
