(* ===== verification/NodeChain.v ===== *)
(** The node on the chain state of this library: [ChainStateInner] is a backend
    of the node, its operations end, and the blocks the node processes extend
    the validated chain one by one. *)

From stdpp Require Import base gmap list strings fin_maps.
From Stdlib Require Import ZArith Lia.
From S2P Require Import Prelude Bitcoin Errors ChainParams Codec Merkle Sigops Extensions Udata.
From S2P Require Import SwiftSync Consensus ChainStore ChainQuery PartialChain ChainState ChainShape ChainFacts ChainReorg.
From S2P Require Import ChainAccept ChainTerm ChainReach Filters BlockProof AddressMan Node NodeBlocks NodePeers NodeFacts NodeDownload.

(** * The rules end *)

Section RulesEnd.
Context `{HashLib, TxLib, HeaderLib, KernelLib, UtreexoLib} `{!Codec TxOut}.

Lemma adds_outputs_ends {E} sp txid cb h bh l : forall k, ends (@adds_outputs _ _ _ E sp txid cb h bh k l).
Proof. induction l as [|o l IH]; intros k; cbn; total. Qed.
Lemma adds_txs_ends {E} sp h bh l : ends (@adds_txs _ _ _ E sp h bh l).
Proof. pose proof (@adds_outputs_ends E). induction l as [|o l IH]; cbn; total. Qed.
Lemma update_acc_ends a b h p d : ends (update_acc a b h p d).
Proof. unfold update_acc, get_block_adds. pose proof (@adds_txs_ends BlockchainError). total. Qed.

Lemma total_out_ends l : forall v, ends (total_out_loop v l).
Proof. induction l as [|o l IH]; intros v; cbn; total. Qed.
Lemma check_inputs_ends tx l : ends (check_inputs tx l).
Proof. induction l as [|o l IH]; cbn; unfold validate_script_size; total. Qed.
#[local] Hint Resolve total_out_ends check_inputs_ends : total.
Lemma context_free_ends tx : ends (check_transaction_context_free tx).
Proof. unfold check_transaction_context_free, total_out_value. total. Qed.
Lemma spend_inputs_ends tx h cut l : forall v sp us, ends (spend_inputs tx h cut l v sp us).
Proof.
  induction l as [|o l IH]; intros v sp us; cbn; [done|]. unfold take_utxo, check_spend, validate_script_size. total.
Qed.
Lemma kernel_prevouts_ends tx l : ends (kernel_prevouts tx l).
Proof. induction l as [|o l IH]; cbn; unfold kernel_result; total. Qed.
Lemma kernel_verify_all_ends tx k d f l : forall i, ends (kernel_verify_all tx k d f i l).
Proof. induction l as [|[s a] l IH]; intros i; cbn; total. Qed.
#[local] Hint Resolve context_free_ends spend_inputs_ends kernel_prevouts_ends kernel_verify_all_ends : total.
Lemma verify_transaction_ends tx us h cut vs f : ends (verify_transaction tx us h cut vs f).
Proof. unfold verify_transaction, verify_input_scripts, kernel_result. total. Qed.
#[local] Hint Resolve verify_transaction_ends : total.
Lemma block_txs_ends h cut vs f l : forall n st, ends (block_txs h cut vs f n l st).
Proof.
  induction l as [|tx l IH]; intros n st; cbn; [done|]. unfold block_tx_step, verify_coinbase. total.
Qed.
#[local] Hint Resolve block_txs_ends : total.
Lemma verify_block_transactions_ends h cut us txs sub vs f : ends (verify_block_transactions h cut us txs sub vs f).
Proof. unfold verify_block_transactions, verify_block_transactions_state, total_out_value. total. Qed.
Lemma check_block_ends p b h : ends (check_block p b h).
Proof. unfold check_block, check_block_structure, check_bip34. total. Qed.

Lemma mtp_ends {St E} (prev : St -> BlockHeader -> outcome E (BlockHeader * St)) : (forall st x, ends (prev st x)) ->
  forall st x, ends (median_time_past_with prev st x).
Proof.
  intros Hp st x. unfold median_time_past_with. apply obind_ends; [|total]. generalize (@nil Z). revert st x.
  generalize MEDIAN_TIME_PAST_BLOCK_COUNT. intros n. induction n as [|n IH]; intros st x l; cbn [mtp_loop]; total.
Qed.
End RulesEnd.
#[export] Hint Resolve update_acc_ends verify_block_transactions_ends check_block_ends mtp_ends : total.

(** * The backend *)

Section NodeChain.
Context `{HashLib, TxLib, HeaderLib, KernelLib, UtreexoLib, ScriptBuild} `{!Codec TxOut}.
Context {S DbErr : Type} `{!ChainStore S DbErr}.
(** The fuel of the walks over stored headers. *)
Context (fuel : nat).

(** [BlockchainInterface] and [UpdatableChainstate] of the chain state, the part
    the node calls. *)
#[local] Instance chain_state_backend : ChainBackend (ChainStateInner S) := {
  chain_best_block c := Ok (get_best_block c);
  chain_height c := Ok (get_height c);
  chain_validation_index := get_validation_index;
  chain_assume_valid_height := get_assume_valid_height;
  chain_block_hash := get_block_hash;
  chain_mtp_by_height := get_mtp_by_height;
  chain_block_locator := get_block_locator;
  chain_block_header := get_block_header;
  chain_block_height := get_block_height;
  chain_locator_for_tip := get_block_locator_for_tip;
  chain_tips c := Ok (get_chain_tips c);
  chain_fork_point := get_fork_point fuel;
  chain_validate_block := validate_block;
  chain_update_acc _ := update_acc;
  chain_switch_chain := switch_chain fuel;
  chain_mark_assumed := mark_chain_as_assumed fuel;
  chain_accept_header := accept_header fuel;
  chain_connect_block := connect_block;
  chain_invalidate_block := invalidate_block;
  chain_update_ibd := set_ibd;
  chain_flush := flush
}.

Section Ends.
Context `{!StoreTotal S DbErr}.
#[local] Hint Resolve get_header_total store_block_hash_total store_header_by_height_total save_header_total
  update_block_index_total save_roots_total save_height_total store_flush_total : total.

Lemma store_ends {A} (m : S -> outcome DbErr A * S) (c : ChainStateInner S) : (forall s, ends (m s).1) -> ends (store m c).1.
Proof.
  intros Hm. unfold store. specialize (Hm (chainstore c)). destruct (m (chainstore c)) as [o s]. by destruct o.
Qed.
#[local] Hint Resolve store_ends : total.
#[local] Hint Resolve get_disk_total get_block_header_total get_block_hash_total get_header_by_height_total : total.

Lemma validation_index_ends (c : ChainStateInner S) : ends (get_validation_index c).
Proof. unfold get_validation_index. total. Qed.
Lemma median_ends (c : ChainStateInner S) x : ends (median_time_past c x).
Proof. apply mtp_ends. intros st y. total. Qed.
#[local] Hint Resolve validation_index_ends median_ends : total.
Lemma validate_block_ends (c : ChainStateInner S) b h i : ends (validate_block_no_acc c b h i).
Proof.
  unfold validate_block_no_acc, block_lock_time_cutoff, previous_median_time_past, verify_script, db. total.
Qed.
#[local] Hint Resolve validate_block_ends : total.
Lemma connect_height_ends (c : ChainStateInner S) d : ends (connect_height c d).
Proof. unfold connect_height. total. Qed.
#[local] Hint Resolve connect_height_ends : total.
Lemma connect_checks_ends b p i d (c : ChainStateInner S) : ends (connect_checks b p i d c).
Proof. unfold connect_checks. total. Qed.
Lemma flush_ends (c : ChainStateInner S) : ends (flush c).1.
Proof. unfold flush. total. Qed.
Lemma notify_loop_ends b h o l : ends (notify_loop b h o l).
Proof. induction l as [|k l IH]; cbn; unfold on_block; total. Qed.
#[local] Hint Resolve connect_checks_ends flush_ends notify_loop_ends : total.
Lemma connect_block_ends b p i d (c : ChainStateInner S) : ends (connect_block b p i d c).1.
Proof.
  unfold connect_block, update_view, notify, serialize. total.
Qed.
Lemma invalidate_loop_ends l : forall c : ChainStateInner S, ends (invalidate_loop l c).1.
Proof. induction l as [|h l IH]; intros c; cbn [invalidate_loop]; unfold update_header; total. Qed.
#[local] Hint Resolve invalidate_loop_ends : total.
Lemma invalidate_ends h (c : ChainStateInner S) : ends (invalidate_block h c).1.
Proof. unfold invalidate_block, get_ancestor, update_tip, try_height. total. Qed.

#[export] Instance chain_state_total : ChainTotal (ChainStateInner S).
Proof.
  split; cbn; intros; [done|apply validation_index_ends|total| |apply connect_block_ends|apply invalidate_ends].
  unfold get_mtp_by_height. total.
Qed.
End Ends.

(** * Blocks on the chain *)

Section Blocks.
Context {MP : Type} `{!ProofBuild, !HashOrder, !HeaderLibOk, !StumpOk}.
Context (rep : S -> StoreView -> Prop) (roots_room : S -> Prop) `{!ChainStoreOk S DbErr rep roots_room}.

Abbreviation Node := (NodeCommon (ChainStateInner S) MP) (only parsing).

Lemma connect_height_at (c : ChainStateInner S) d k : connect_height c d = Ok k -> dh_height d = Some k.
Proof.
  destruct d; cbn; try done.
  - intros (vi & _ & (_ & _ & [= <-])%obind_ok)%obind_ok. done.
  - intros (vi & _ & (nx & _ & (_ & _ & [= <-])%obind_ok)%obind_ok)%obind_ok. done.
Qed.

(** A block of the next height is connected at that height. *)
Lemma connect_next b proof i d (c : ChainStateInner S) v vi k c' : chain_inv rep c v -> roots_room (chainstore c) ->
  get_validation_index c = Ok vi -> vi + 1 <= get_height c -> get_block_hash c (vi + 1) = Ok (blk_hash b) ->
  (forall d, get_disk_block_header c (blk_hash b) = Ok d -> deref d = blk_header b) ->
  connect_block b proof i d c = (Ok k, c') ->
  get_validation_index c' = Ok (vi + 1) /\ exists v', chain_inv rep c' v'.
Proof.
  intros Hinv Hroom Hvi Hle Hh Hhdr Hc. pose proof (ci_shape _ _ _ Hinv) as Hs.
  destruct (ci_valid _ _ _ Hinv) as [vi' Hvt]. destruct (validation_index_ok rep roots_room _ _ _ Hinv Hvt) as [E Hb].
  assert (vi' = vi) as -> by congruence. unfold get_height in Hle.
  destruct (sh_slot _ _ _ _ _ Hs (vi + 1) ltac:(lia)) as (e & He & Hhe & _ & Hne & _).
  destruct (slot_read rep roots_room c v (vi + 1) e (ci_rep _ _ _ Hinv) He) as [_ E2]. rewrite Hh in E2. injection E2 as E2.
  rewrite <-E2 in Hhe. pose proof (proj2 (get_disk_ok rep roots_room _ _ _ _ Hinv) Hhe) as Hd.
  assert (k = vi + 1) as ->.
  { apply connect_block_steps in Hc as (d' & ? & ? & ? & Hd' & Hk & _). apply connect_height_at in Hk. congruence. }
  destruct (connect_block_inv rep roots_room b proof i d c v (vi + 1) c') as (v' & vi' & Hi' & _ & Hvt' & _); try done.
  - intros d' Hd'. apply Hhdr. by apply (get_disk_ok rep roots_room _ _ _ _ Hinv).
  - intros Hg. apply (genesis_height _ _ _ _ _ Hs _ _ _ Hhe Hne) in Hg. lia.
  - split; [|by exists v']. by destruct (validation_index_ok rep roots_room _ _ _ Hi' Hvt').
Qed.

(** What the processing of a block makes of the chain. *)
Definition after_fault (e : BlockchainError) (b : Block) (c : ChainStateInner S) : ChainStateInner S :=
  if bool_decide (fault_of e b = InvalidBlock) then (invalidate_block (blk_hash b) c).2 else c.

Lemma handle_error_chain e b p u (n : Node) r n' : handle_block_error e b p (Some u) n = (r, n') -> r <> Panic -> r <> Diverge ->
  chain n' = after_fault e b (chain n).
Proof. intros Hrun Hp Hd. by destruct (block_error_effect e b p u n r n' Hrun Hp Hd) as (_ & _ & -> & _). Qed.

(** An error of [connect_block] comes from its checks, which change nothing, or
    from the writes. *)
Lemma connect_checked b proof i d (c : ChainStateInner S) o c' : connect_block b proof i d c = (o, c') ->
  match connect_checks b proof i d c with
  | Ok _ => forall e, o = Err e -> storage_error e = true
  | Err e => o = Err e /\ c' = c
  | Panic => o = Panic
  | Diverge => o = Diverge
  end.
Proof.
  intros Hc. destruct (connect_checks b proof i d c) as [x|e| |] eqn:Ek; [intros e ->; by eapply connect_writes_err|..];
    unfold connect_block, mbind, stm_bind, gets in Hc; rewrite Ek in Hc; by injection Hc.
Qed.

(** C5: Over the chain state and any store that keeps its promises, processing the block
    after the validation index moves the validation index by exactly one and keeps the
    chain invariant when its proof and the checks of connect_block succeed, unless a
    write of the store fails; when they fail, the chain state is exactly the one before,
    or, for a consensus-invalid block, the one invalidate_block leaves. *)
Theorem process_block_on_chain now h ib leaves proof u vi v (n : Node) r n' :
  chain_inv rep (chain n) v -> roots_room (chainstore (chain n)) ->
  get_validation_index (chain n) = Ok vi -> vi + 1 <= get_height (chain n) -> get_block_hash (chain n) (vi + 1) = Ok h ->
  blocks n !! h = Some ib -> blk_hash (ib_block ib) = h -> aux_data ib = Some (leaves, proof, u) ->
  (forall d, get_disk_block_header (chain n) h = Ok d -> deref d = blk_header (ib_block ib)) ->
  process_block now h n = (r, n') -> r <> Panic -> r <> Diverge ->
  let checked := ('(dels, inputs) ← process_proof UtreexoLeaf (get_block_hash (chain n)) (get_mtp_by_height (chain n)) leaves
                                      (txdata (ib_block ib));
                  connect_checks (ib_block ib) proof inputs dels (chain n)) in
  match checked with
  | Ok _ => (r = Ok tt /\ get_validation_index (chain n') = Ok (vi + 1) /\ exists v', chain_inv rep (chain n') v') \/
      exists e c dels inputs, connect_block (ib_block ib) proof inputs dels (chain n) = (Err e, c) /\ storage_error e = true
  | Err e => chain n' = after_fault e (ib_block ib) (chain n)
  | Panic | Diverge => False
  end.
Proof.
  intros Hinv Hroom Hvi Hle Hh Hb Hbh Haux Hhdr Hrun Hp Hd. revert Hrun.
  unfold process_block, mbind, stm_bind, gets, lift, modify. rewrite Hb. cbn [ok_or]. rewrite Haux. cbn [ok_or].
  cbn [chain_block_hash chain_mtp_by_height chain_state_backend].
  destruct (process_proof _ _ _ _ _) as [[dels inputs]|e| |]; try (intros [= <- <-]; done);
    [|intros Hrun; by apply (handle_error_chain e _ _ _ _ r n' Hrun)].
  unfold connect_or_blame, chain_step. cbn [chain_connect_block chain_state_backend chain set_blocks].
  destruct (connect_block (ib_block ib) proof inputs dels (chain n)) as [o c] eqn:Ec.
  pose proof (connect_checked _ _ _ _ _ _ _ Ec) as Hk. unfold mbind, outcome_bind.
  destruct (connect_checks _ _ _ _ _) as [x|e| |].
  - destruct o as [k|e| |]; try (intros [= <- <-]; done).
    + intros [= <- <-]. left. split; [done|]. cbn. rewrite <-Hbh in *. by eapply connect_next.
    + intros _. right. exists e, c, dels, inputs. split; [done|by apply Hk].
  - destruct Hk as [-> ->]. intros Hrun. by apply (handle_error_chain e _ _ _ _ r n' Hrun).
  - subst o. by intros [= <- <-].
  - subst o. by intros [= <- <-].
Qed.
End Blocks.
End NodeChain.
