(* ===== verification/NetMessage.v ===== *)
(** The messages of the peer-to-peer protocol, and their encoding on a BIP324
    connection ([src/crates/floresta-wire/src/p2p_wire/network_message_ext.rs]);
    messages are read back as they were written.

    The message types are rust-bitcoin's.  The contents that the node never
    looks at are parameters ([NetTypes]), and so are the consensus encodings of
    all contents ([NetCodecs]); [NetCodecsOk] states what the protocol
    prescribes for the payload and the command of a message. *)

From stdpp Require Import base gmap list strings.
From Stdlib Require Import ZArith Lia.
From S2P Require Import Prelude Bitcoin Errors Codec Sigops Udata Filters BlockProof Text Onion SocketAddr AddressMan.
From S2P Require Import Node.

Class NetTypes := {
  NetAddress : Type;
  GetBlocksMessage : Type;
  MerkleBlock : Type;
  FilterLoad : Type;
  FilterAdd : Type;
  GetCFCheckpt : Type;
  CFCheckpt : Type;
  SendCmpct : Type;
  CmpctBlock : Type;
  GetBlockTxn : Type;
  BlockTxn : Type;
  Reject : Type
}.

(** [CommandString]: a text of at most 12 bytes. *)
Record CommandString := Command { cmd_text : text }.
#[export] Instance CommandString_eq_dec : EqDecision CommandString.
Proof. solve_decision. Defined.

Record GetHeadersMessage := mkGetHeaders { gh_version : Z; gh_locator_hashes : list BlockHash; gh_stop_hash : BlockHash }.
Record GetCFiltersMessage := mkGetCFilters { gf_filter_type : Z; gf_start_height : Z; gf_stop_hash : BlockHash }.
Record CFilter := mkCFilter { cf_filter_type : Z; cf_block_hash : BlockHash; cf_filter : list Z }.
Record GetCFHeadersMessage := mkGetCFHeaders { gc_filter_type : Z; gc_start_height : Z; gc_stop_hash : BlockHash }.
(** [CFHeaders] with the type of its filters. *)
Record CFHeadersMessage := mkCFHeadersMessage { cm_filter_type : Z; cm_headers : CFHeaders }.
(** The fee rate of a [FeeFilter], a signed integer. *)
Record i64 := I64 { i64_val : Z }.

Section Messages.
Context `{NetTypes}.

Record VersionMessage := mkVersionMessage {
  vm_version : Z;
  vm_services : ServiceFlags;
  vm_timestamp : Z;
  vm_receiver : NetAddress;
  vm_sender : NetAddress;
  vm_nonce : Z;
  vm_user_agent : string;
  vm_start_height : Z;
  vm_relay : bool
}.

(** [NetworkMessage]. *)
Inductive NetworkMessage :=
  | NetVersion (version : VersionMessage)
  | NetVerack
  | NetAddr (addresses : list (Z * NetAddress))
  | NetInv (inv : list Inventory)
  | NetGetData (inv : list Inventory)
  | NetNotFound (inv : list Inventory)
  | NetGetBlocks (m : GetBlocksMessage)
  | NetGetHeaders (m : GetHeadersMessage)
  | NetMemPool
  | NetTx (tx : Transaction)
  | NetBlock (block : Block)
  | NetHeaders (headers : list BlockHeader)
  | NetSendHeaders
  | NetGetAddr
  | NetPing (nonce : Z)
  | NetPong (nonce : Z)
  | NetMerkleBlock (m : MerkleBlock)
  | NetFilterLoad (m : FilterLoad)
  | NetFilterAdd (m : FilterAdd)
  | NetFilterClear
  | NetGetCFilters (m : GetCFiltersMessage)
  | NetCFilter (m : CFilter)
  | NetGetCFHeaders (m : GetCFHeadersMessage)
  | NetCFHeaders (m : CFHeadersMessage)
  | NetGetCFCheckpt (m : GetCFCheckpt)
  | NetCFCheckpt (m : CFCheckpt)
  | NetSendCmpct (m : SendCmpct)
  | NetCmpctBlock (m : CmpctBlock)
  | NetGetBlockTxn (m : GetBlockTxn)
  | NetBlockTxn (m : BlockTxn)
  | NetAlert (bytes : list Z)
  | NetReject (m : Reject)
  | NetFeeFilter (fee : Z)
  | NetWtxidRelay
  | NetAddrV2 (addresses : list AddrV2Message)
  | NetSendAddrV2
  | NetUnknown (command : CommandString) (payload : list Z).
End Messages.

(** rust-bitcoin's encodings, and the command of a message. *)
Class NetCodecs `{NetTypes} := {
  net_encode : NetworkMessage -> list Z;
  message_command : NetworkMessage -> CommandString;
  #[global] command_codec :: Codec CommandString;
  #[global] version_codec :: Codec VersionMessage;
  #[global] addr_codec :: Codec (list (Z * NetAddress));
  #[global] inv_codec :: Codec (list Inventory);
  #[global] get_blocks_codec :: Codec GetBlocksMessage;
  #[global] get_headers_codec :: Codec GetHeadersMessage;
  #[global] tx_codec :: Codec Transaction;
  #[global] block_codec :: Codec Block;
  #[global] net_header_codec :: Codec BlockHeader;
  #[global] net_varint_codec :: Codec varint;
  #[global] merkle_block_codec :: Codec MerkleBlock;
  #[global] filter_load_codec :: Codec FilterLoad;
  #[global] filter_add_codec :: Codec FilterAdd;
  #[global] get_cfilters_codec :: Codec GetCFiltersMessage;
  #[global] cfilter_codec :: Codec CFilter;
  #[global] get_cfheaders_codec :: Codec GetCFHeadersMessage;
  #[global] cfheaders_codec :: Codec CFHeadersMessage;
  #[global] get_cfcheckpt_codec :: Codec GetCFCheckpt;
  #[global] cfcheckpt_codec :: Codec CFCheckpt;
  #[global] send_cmpct_codec :: Codec SendCmpct;
  #[global] cmpct_block_codec :: Codec CmpctBlock;
  #[global] get_block_txn_codec :: Codec GetBlockTxn;
  #[global] block_txn_codec :: Codec BlockTxn;
  #[global] net_bytes_codec :: Codec (list Z);
  #[global] reject_codec :: Codec Reject;
  #[global] i64_codec :: Codec i64;
  #[global] addr_v2_codec :: Codec (list AddrV2Message)
}.

(** [V2MessageError]. *)
Inductive V2MessageError := V2Deserialize (e : DecodeError) | UnknownShortID (id : Z).

Section V2.
Context `{NetCodecs}.

(** * Writing *)

Definition P2PV2_GETUPROOF_MSG_TYPE : Z := 30.
Definition P2PV2_UPROOF_MSG_TYPE : Z := 29.
Definition GETUPROOF : CommandString := Command (txt "getuproof").
Definition UPROOF : CommandString := Command (txt "uproof").

(** The bytes that [serialize_v2] puts before the payload. *)
Definition short_prefix (m : NetworkMessage) : list Z :=
  match m with
  | NetAddr _ => [1]
  | NetInv _ => [14]
  | NetGetData _ => [11]
  | NetNotFound _ => [17]
  | NetGetBlocks _ => [9]
  | NetGetHeaders _ => [12]
  | NetMemPool => [15]
  | NetTx _ => [21]
  | NetBlock _ => [2]
  | NetHeaders _ => [13]
  | NetPing _ => [18]
  | NetPong _ => [19]
  | NetMerkleBlock _ => [16]
  | NetFilterLoad _ => [8]
  | NetFilterAdd _ => [6]
  | NetFilterClear => [7]
  | NetGetCFilters _ => [22]
  | NetCFilter _ => [23]
  | NetGetCFHeaders _ => [24]
  | NetCFHeaders _ => [25]
  | NetGetCFCheckpt _ => [26]
  | NetCFCheckpt _ => [27]
  | NetSendCmpct _ => [20]
  | NetCmpctBlock _ => [4]
  | NetGetBlockTxn _ => [10]
  | NetBlockTxn _ => [3]
  | NetFeeFilter _ => [5]
  | NetAddrV2 _ => [28]
  | NetVersion _ | NetVerack | NetSendHeaders | NetGetAddr | NetWtxidRelay | NetSendAddrV2 | NetAlert _ | NetReject _ =>
      0 :: enc (message_command m)
  | NetUnknown command _ => 0 :: enc command
  end.
Definition serialize_v2 (m : NetworkMessage) : list Z :=
  match m with
  | NetUnknown command payload =>
      if bool_decide (command = GETUPROOF) then P2PV2_GETUPROOF_MSG_TYPE :: payload else short_prefix m ++ payload
  | _ => short_prefix m ++ net_encode m
  end.

(** * Reading *)

(** [consensus_decode] of the content of a message; bytes after it are left. *)
Definition content {A} `{!Codec A} (f : A -> NetworkMessage) (payload : list Z) : outcome V2MessageError NetworkMessage :=
  p ← map_err V2Deserialize (dec payload); Ok (f p.1).

(** The loop over the headers, each of which is followed by a zero. *)
Fixpoint headers_decode (len : nat) (r : list Z) : outcome V2MessageError (list BlockHeader) :=
  match len with
  | O => Ok []
  | S len =>
      '(header, r) ← map_err V2Deserialize (dec r);
      '(zero, r) ← map_err V2Deserialize (dec r);
      _ ← err_if (negb (u8_val zero =? 0)) (V2Deserialize (ParseFailed "Headers message should not contain transactions"));
      rest ← headers_decode len r;
      Ok (header :: rest)
  end.

(** The text of a command: printable characters, then zeros. *)
Fixpoint command_end (buffer : list Z) : nat :=
  match buffer with
  | [] => O
  | b :: rest => if b =? 0 then O else S (command_end rest)
  end.
Definition is_printable (b : Z) : bool := (0x20 <=? b) && (b <=? 0x7e).
Definition command_is_valid (buffer : list Z) : bool :=
  forallb is_printable (take (command_end buffer) buffer) && forallb (fun b => b =? 0) (drop (command_end buffer) buffer).
Definition named_message (command : CommandString) (payload : list Z) : outcome V2MessageError NetworkMessage :=
  let named s := bool_decide (cmd_text command = txt s) in
  if named "version" then content NetVersion payload
  else if named "verack" then Ok NetVerack
  else if named "sendheaders" then Ok NetSendHeaders
  else if named "getaddr" then Ok NetGetAddr
  else if named "wtxidrelay" then Ok NetWtxidRelay
  else if named "sendaddrv2" then Ok NetSendAddrV2
  else if named "alert" then content NetAlert payload
  else if named "reject" then content NetReject payload
  else Ok (NetUnknown command payload).
Definition long_message (buffer : list Z) : outcome V2MessageError NetworkMessage :=
  if (length buffer <? 13)%nat then Err (V2Deserialize UnexpectedEof)
  else
    let command_buffer := take 12 (drop 1 buffer) in
    if negb (command_is_valid command_buffer) then Err (V2Deserialize (ParseFailed "Invalid command string"))
    else
      '(command, _) ← map_err V2Deserialize (dec command_buffer);
      named_message command (drop 13 buffer).

Definition deserialize_v2 (buffer : list Z) : outcome V2MessageError NetworkMessage :=
  match buffer with
  | [] => Err (V2Deserialize UnexpectedEof)
  | short_id :: payload =>
      if short_id =? P2PV2_UPROOF_MSG_TYPE then Ok (NetUnknown UPROOF payload)
      else match short_id with
      | 0 => long_message buffer
      | 1 => content NetAddr payload
      | 2 => content NetBlock payload
      | 3 => content NetBlockTxn payload
      | 4 => content NetCmpctBlock payload
      | 5 => content (fun fee => NetFeeFilter (i64_val fee)) payload
      | 6 => content NetFilterAdd payload
      | 7 => Ok NetFilterClear
      | 8 => content NetFilterLoad payload
      | 9 => content NetGetBlocks payload
      | 10 => content NetGetBlockTxn payload
      | 11 => content NetGetData payload
      | 12 => content NetGetHeaders payload
      | 13 =>
          '(len, r) ← map_err V2Deserialize (dec payload);
          headers ← headers_decode (Z.to_nat (varint_val len)) r;
          Ok (NetHeaders headers)
      | 14 => content NetInv payload
      | 15 => Ok NetMemPool
      | 16 => content NetMerkleBlock payload
      | 17 => content NetNotFound payload
      | 18 => content (fun nonce => NetPing (u64_val nonce)) payload
      | 19 => content (fun nonce => NetPong (u64_val nonce)) payload
      | 20 => content NetSendCmpct payload
      | 21 => content NetTx payload
      | 22 => content NetGetCFilters payload
      | 23 => content NetCFilter payload
      | 24 => content NetGetCFHeaders payload
      | 25 => content NetCFHeaders payload
      | 26 => content NetGetCFCheckpt payload
      | 27 => content NetCFCheckpt payload
      | 28 => content NetAddrV2 payload
      | unknown => Err (UnknownShortID unknown)
      end
  end.
End V2.

(** A value that its codec gives back. *)
Definition decodable {A} `{!Codec A} (a : A) : Prop := forall rest, dec (enc a ++ rest) = Ok (a, rest).

(** The payload and the name of a message, as the protocol prescribes them. *)
Section Protocol.
Context `{NetCodecs}.

Definition payload_of (m : NetworkMessage) : list Z :=
  match m with
  | NetVersion v => enc v
  | NetAddr l => enc l
  | NetInv l | NetGetData l | NetNotFound l => enc l
  | NetGetBlocks g => enc g
  | NetGetHeaders g => enc g
  | NetTx t => enc t
  | NetBlock b => enc b
  | NetHeaders l => enc (VarInt (Z.of_nat (length l))) ++ concat (map (fun h => enc h ++ [0]) l)
  | NetPing n | NetPong n => enc (U64 n)
  | NetMerkleBlock m => enc m
  | NetFilterLoad m => enc m
  | NetFilterAdd m => enc m
  | NetGetCFilters m => enc m
  | NetCFilter m => enc m
  | NetGetCFHeaders m => enc m
  | NetCFHeaders m => enc m
  | NetGetCFCheckpt m => enc m
  | NetCFCheckpt m => enc m
  | NetSendCmpct m => enc m
  | NetCmpctBlock m => enc m
  | NetGetBlockTxn m => enc m
  | NetBlockTxn m => enc m
  | NetAlert b => enc b
  | NetReject m => enc m
  | NetFeeFilter f => enc (I64 f)
  | NetAddrV2 l => enc l
  | NetVerack | NetMemPool | NetSendHeaders | NetGetAddr | NetFilterClear | NetWtxidRelay | NetSendAddrV2 => []
  | NetUnknown _ payload => payload
  end.
Definition name_of (m : NetworkMessage) : option text :=
  match m with
  | NetVersion _ => Some (txt "version")
  | NetVerack => Some (txt "verack")
  | NetSendHeaders => Some (txt "sendheaders")
  | NetGetAddr => Some (txt "getaddr")
  | NetWtxidRelay => Some (txt "wtxidrelay")
  | NetSendAddrV2 => Some (txt "sendaddrv2")
  | NetAlert _ => Some (txt "alert")
  | NetReject _ => Some (txt "reject")
  | _ => None
  end.
Definition is_unknown (m : NetworkMessage) : Prop := match m with NetUnknown _ _ => True | _ => False end.

(** At most 12 printable characters. *)
Definition is_command (c : text) : Prop := (length c <= 12)%nat /\ Forall (fun b => 0x20 <= b <= 0x7e) c.

Class NetCodecsOk : Prop := {
  net_payload : forall m, ~ is_unknown m -> net_encode m = payload_of m;
  net_command : forall m name, name_of m = Some name -> message_command m = Command name;
  command_padded : forall c, is_command c -> enc (Command c) = c ++ replicate (12 - length c) 0;
  command_read : forall c, is_command c -> decodable (Command c)
}.

(** The contents of a message are values that their codecs give back; an
    unknown message has a name of its own. *)
Definition message_ok (m : NetworkMessage) : Prop :=
  match m with
  | NetVersion v => decodable v
  | NetAddr l => decodable l
  | NetInv l | NetGetData l | NetNotFound l => decodable l
  | NetGetBlocks g => decodable g
  | NetGetHeaders g => decodable g
  | NetTx t => decodable t
  | NetBlock b => decodable b
  | NetHeaders l => decodable (VarInt (Z.of_nat (length l))) /\ Forall decodable l
  | NetPing n | NetPong n => is_u64 n
  | NetMerkleBlock m => decodable m
  | NetFilterLoad m => decodable m
  | NetFilterAdd m => decodable m
  | NetGetCFilters m => decodable m
  | NetCFilter m => decodable m
  | NetGetCFHeaders m => decodable m
  | NetCFHeaders m => decodable m
  | NetGetCFCheckpt m => decodable m
  | NetCFCheckpt m => decodable m
  | NetSendCmpct m => decodable m
  | NetCmpctBlock m => decodable m
  | NetGetBlockTxn m => decodable m
  | NetBlockTxn m => decodable m
  | NetAlert b => decodable b
  | NetReject m => decodable m
  | NetFeeFilter f => decodable (I64 f)
  | NetAddrV2 l => decodable l
  | NetUnknown command _ =>
      is_command (cmd_text command) /\ command <> GETUPROOF /\
      Forall (fun s => cmd_text command <> txt s)
        ["version"; "verack"; "sendheaders"; "getaddr"; "wtxidrelay"; "sendaddrv2"; "alert"; "reject"]%string
  | _ => True
  end.
End Protocol.

Section V2Facts.
Context `{NetCodecsOk}.

Lemma content_ok {A} `{!Codec A} (f : A -> NetworkMessage) (a : A) extra : decodable a ->
  content f (enc a ++ extra) = Ok (f a).
Proof. intros Ha. unfold content. by rewrite (Ha extra). Qed.

Lemma headers_decode_ok (l : list BlockHeader) extra : Forall decodable l ->
  headers_decode (length l) (concat (map (fun h => enc h ++ [0]) l) ++ extra) = Ok l.
Proof.
  induction 1 as [|h l Hh _ IH]; [done|]. cbn [length headers_decode map concat]. rewrite <-!app_assoc, Hh.
  cbn [map_err mbind outcome_bind]. change ([0] ++ ?r) with (enc (U8 0) ++ r).
  rewrite (dec_enc (U8 0)) by (cbn; lia). cbn [map_err mbind outcome_bind u8_val]. by rewrite IH.
Qed.

(** ** Long commands *)

Lemma command_end_padded (c : text) k : Forall (fun b => 0x20 <= b <= 0x7e) c -> command_end (c ++ replicate k 0) = length c.
Proof.
  induction 1 as [|b c Hb _ IH]; [by destruct k|]. cbn [app command_end length]. rewrite (proj2 (Z.eqb_neq b 0)) by lia.
  by rewrite IH.
Qed.
Lemma command_valid_padded (c : text) k : Forall (fun b => 0x20 <= b <= 0x7e) c -> command_is_valid (c ++ replicate k 0) = true.
Proof.
  intros Hc. unfold command_is_valid. rewrite (command_end_padded c k Hc), take_app_length, drop_app_length.
  apply andb_true_intro. split; apply forallb_forall; intros b Hb%list_elem_of_In.
  - apply (proj1 (Forall_forall _ _) Hc) in Hb. unfold is_printable. apply andb_true_intro. split; lia.
  - by apply elem_of_replicate in Hb as [-> _].
Qed.

Lemma long_message_ok (c : text) payload : is_command c -> long_message (0 :: enc (Command c) ++ payload) = named_message (Command c) payload.
Proof.
  intros Hc. pose proof (command_read c Hc) as Hr. pose proof (command_padded c Hc) as He. destruct Hc as [Hlen Hc].
  assert (Hl : length (enc (Command c)) = 12%nat) by (rewrite He, length_app, length_replicate; lia).
  unfold long_message. cbn [length drop]. rewrite length_app, Hl. cbn [Nat.add Nat.ltb Nat.leb].
  rewrite drop_0, take_app_length' by done.
  assert (Hv : command_is_valid (enc (Command c)) = true) by (rewrite He; by apply command_valid_padded). rewrite Hv. cbn [negb].
  specialize (Hr []). rewrite app_nil_r in Hr. rewrite Hr. cbn [map_err mbind outcome_bind].
  by rewrite drop_app_length' by done.
Qed.
Lemma named_commands (m : NetworkMessage) name : name_of m = Some name -> is_command name.
Proof.
  destruct m; cbn [name_of]; intros [= <-];
    (split; [vm_compute; lia|repeat (constructor; [vm_compute; split; discriminate|]); constructor]).
Qed.

(** [serialize_v2] writes a name only where [name_of] has one. *)
Lemma serialize_named (m : NetworkMessage) name : name_of m = Some name ->
  serialize_v2 m = 0 :: enc (Command name) ++ payload_of m.
Proof.
  intros Hn. unfold serialize_v2. assert (Hu : ~ is_unknown m) by (intros Hx; destruct m; done). pose proof (net_command m name Hn) as E.
  pose proof (net_payload m Hu) as Ep. destruct m; cbn [name_of] in Hn; try discriminate Hn; cbn [short_prefix app]; by rewrite E, Ep.
Qed.

(** What follows the contents of a message is ignored. *)
Lemma v2_roundtrip (m : NetworkMessage) (extra : list Z) (Hm : message_ok m) (Hextra : is_unknown m -> extra = []) :
  deserialize_v2 (serialize_v2 m ++ extra) = Ok m.
Proof.
  destruct (name_of m) as [name|] eqn:Hn.
  - rewrite (serialize_named m name Hn). cbn [app deserialize_v2]. change (0 =? P2PV2_UPROOF_MSG_TYPE) with false.
    rewrite <-app_assoc, long_message_ok by (by apply (named_commands m)).
    destruct m; cbn [name_of] in Hn; try discriminate Hn; injection Hn as <-; cbn [payload_of];
      unfold named_message; cbn [cmd_text]; rewrite ?bool_decide_eq_true_2 by done;
      repeat (rewrite bool_decide_eq_false_2 by (vm_compute; discriminate)); rewrite ?bool_decide_eq_true_2 by done;
      rewrite ?content_ok by done; done.
  - destruct m; cbn [name_of] in Hn; try discriminate Hn; cbn [message_ok] in Hm;
      try (unfold serialize_v2; rewrite net_payload by (by intros []); cbn [short_prefix app payload_of deserialize_v2];
           try rewrite (content_ok _ _ extra Hm); done).
    + unfold serialize_v2. rewrite net_payload by (by intros []). cbn [short_prefix app payload_of]. destruct Hm as [Hlen Hall].
      cbn [app deserialize_v2]. change (13 =? P2PV2_UPROOF_MSG_TYPE) with false. rewrite <-app_assoc, Hlen.
      cbn [map_err mbind outcome_bind varint_val]. rewrite Nat2Z.id, headers_decode_ok by done. done.
    + unfold serialize_v2. rewrite net_payload by (by intros []). cbn [short_prefix app payload_of deserialize_v2].
      change (18 =? P2PV2_UPROOF_MSG_TYPE) with false. rewrite (content_ok _ (U64 nonce)); [done|]. intros rest. by apply dec_enc.
    + unfold serialize_v2. rewrite net_payload by (by intros []). cbn [short_prefix app payload_of deserialize_v2].
      change (19 =? P2PV2_UPROOF_MSG_TYPE) with false. rewrite (content_ok _ (U64 nonce)); [done|]. intros rest. by apply dec_enc.
    + rewrite Hextra, app_nil_r by done. destruct Hm as (Hc & Hg & Hall). unfold serialize_v2.
      rewrite bool_decide_eq_false_2 by done. destruct command as [c]. cbn [short_prefix app deserialize_v2 cmd_text] in *.
      change (0 =? P2PV2_UPROOF_MSG_TYPE) with false. rewrite long_message_ok by done. unfold named_message. cbn [cmd_text].
      repeat (apply Forall_cons in Hall as [Hne Hall]; cbn beta in Hne; cbn [cmd_text] in Hne;
        rewrite (bool_decide_eq_false_2 _ Hne); clear Hne). done.
Qed.

(** A request for a proof is written with a type that is not read. *)
Lemma getuproof_not_read payload : deserialize_v2 (serialize_v2 (NetUnknown GETUPROOF payload)) = Err (UnknownShortID 30).
Proof. unfold serialize_v2. by rewrite bool_decide_eq_true_2. Qed.
(** The proofs of peers come with a short type or with their name. *)
Lemma uproof_read payload : deserialize_v2 (29 :: payload) = Ok (NetUnknown UPROOF payload).
Proof. done. Qed.
End V2Facts.
