(* ===== verification/Transport.v ===== *)
(** The transports of a connection: the SOCKS5 handshake with a proxy
    ([src/crates/floresta-wire/src/p2p_wire/socks.rs]), and then, from
    [transport.rs], the frames of the unencrypted protocol with their header and
    checksum, the packets of the BIP324 protocol, and the connection with its
    fall back from one to the other.  What is written is read back, frames are
    read exactly when they are well-formed and of the right network, and the
    handshake succeeds exactly when the proxy accepts.

    A socket is the bytes that are still to arrive before its end, the bytes
    that were written, and whether it can be written; a transport is what is
    still to be read, or what was written.  The BIP324 handshake and its
    encryption are those of the bip324 crate: a connection of that protocol is
    the list of the contents of its packets.  Frames other than those of the
    Utreexo messages are rust-bitcoin's ([RawLib]). *)

From stdpp Require Import base list strings gmap.
From Stdlib Require Import ZArith Lia.
From S2P Require Import Prelude Bitcoin Errors Codec Sigops Udata Filters BlockProof Text Onion SocketAddr AddressMan.
From S2P Require Import Node NetMessage.

(** [io::Error], as far as its kind matters. *)
Inductive IoError := IoUnexpectedEof | IoOther.

Record Socket := mkSocket { s_input : list Z; s_output : list Z; s_open : bool }.

(** [read_exact] and [write_all]. *)
Definition socket_read_exact (n : nat) : stm Socket IoError (list Z) := fun s =>
  if (n <=? length (s_input s))%nat then (Ok (take n (s_input s)), mkSocket (drop n (s_input s)) (s_output s) (s_open s))
  else (Err IoUnexpectedEof, mkSocket [] (s_output s) (s_open s)).
Definition write_all (bytes : list Z) : stm Socket IoError unit := fun s =>
  if s_open s then (Ok tt, mkSocket (s_input s) (s_output s ++ bytes) (s_open s)) else (Err IoOther, s).

Definition SOCKS_VERSION : Z := 5.
Definition SOCKS_AUTH_METHOD_NONE : Z := 0.
Definition SOCKS_CMD_CONNECT : Z := 1.
Definition SOCKS_ADDR_TYPE_IPV4 : Z := 1.
Definition SOCKS_ADDR_TYPE_DOMAIN : Z := 3.
Definition SOCKS_ADDR_TYPE_IPV6 : Z := 4.

Inductive Socks5Addr :=
  | SocksIpv4 (ip : Ipv4Addr)
  | SocksIpv6 (ip : Ipv6Addr)
  | SocksDomain (domain : text).
Definition to_addr_type (a : Socks5Addr) : Z :=
  match a with
  | SocksIpv4 _ => SOCKS_ADDR_TYPE_IPV4
  | SocksIpv6 _ => SOCKS_ADDR_TYPE_IPV6
  | SocksDomain _ => SOCKS_ADDR_TYPE_DOMAIN
  end.

Inductive Socks5Error := InvalidVersion | InvalidAuthMethod | ConnectionFailed | SocksInvalidAddress | ReadError.

(** Any error of the socket is a [ReadError]. *)
Definition io {A} (m : stm Socket IoError A) : stm Socket Socks5Error A := fun s =>
  let '(o, s) := m s in (map_err (fun _ => ReadError) o, s).

Definition socks_ipv4_octets (ip : Ipv4Addr) : list Z := [oct1 ip; oct2 ip; oct3 ip; oct4 ip].
Definition socks_address_bytes (a : Socks5Addr) : list Z :=
  match a with
  | SocksIpv4 ip => socks_ipv4_octets ip
  | SocksIpv6 ip => octets ip
  | SocksDomain domain => Z.of_nat (length domain) mod 256 :: domain
  end.

(** The address the proxy is bound to, which is skipped. *)
Definition skip_bound (address_type : Z) : stm Socket Socks5Error unit :=
  if address_type =? SOCKS_ADDR_TYPE_IPV4 then _ ← io (socket_read_exact 6); mret tt
  else if address_type =? SOCKS_ADDR_TYPE_IPV6 then _ ← io (socket_read_exact 18); mret tt
  else if address_type =? SOCKS_ADDR_TYPE_DOMAIN then
    buf ← io (socket_read_exact 1);
    len ← lift (expect (buf !! 0%nat));
    _ ← io (socket_read_exact (Z.to_nat len + 2));
    mret tt
  else lift (Err ConnectionFailed).

Definition socks_connect (address : Socks5Addr) (port : Z) : stm Socket Socks5Error unit :=
  _ ← io (write_all [SOCKS_VERSION; 1; SOCKS_AUTH_METHOD_NONE]);
  buf ← io (socket_read_exact 2);
  version ← lift (expect (buf !! 0%nat));
  _ ← lift (err_if (negb (version =? SOCKS_VERSION)) InvalidVersion);
  method ← lift (expect (buf !! 1%nat));
  _ ← lift (err_if (negb (method =? SOCKS_AUTH_METHOD_NONE)) InvalidAuthMethod);
  _ ← io (write_all [SOCKS_VERSION; SOCKS_CMD_CONNECT; 0; to_addr_type address]);
  _ ← io (write_all (socks_address_bytes address));
  _ ← io (write_all (be_bytes 2 port));
  buf ← io (socket_read_exact 4);
  version ← lift (expect (buf !! 0%nat));
  _ ← lift (err_if (negb (version =? SOCKS_VERSION)) InvalidVersion);
  result ← lift (expect (buf !! 1%nat));
  _ ← lift (err_if (negb (result =? 0)) ConnectionFailed);
  address_type ← lift (expect (buf !! 3%nat));
  skip_bound address_type.

(** * The handshake *)

(** The address in the reply of a proxy. *)
Inductive bound_address : list Z -> Prop :=
  | BoundIpv4 rest : length rest = 6%nat -> bound_address (SOCKS_ADDR_TYPE_IPV4 :: rest)
  | BoundIpv6 rest : length rest = 18%nat -> bound_address (SOCKS_ADDR_TYPE_IPV6 :: rest)
  | BoundDomain len rest : length rest = (Z.to_nat len + 2)%nat -> bound_address (SOCKS_ADDR_TYPE_DOMAIN :: len :: rest).

Definition socks_request (a : Socks5Addr) (port : Z) : list Z :=
  [5; 1; 0; 5; 1; 0; to_addr_type a] ++ socks_address_bytes a ++ be_bytes 2 port.

Lemma io_read n (s : Socket) : io (socket_read_exact n) s =
  (if (n <=? length (s_input s))%nat then Ok (take n (s_input s)) else Err ReadError,
   mkSocket (if (n <=? length (s_input s))%nat then drop n (s_input s) else []) (s_output s) (s_open s)).
Proof. unfold io, socket_read_exact. by destruct (n <=? length (s_input s))%nat. Qed.
Lemma io_write bytes (s : Socket) : s_open s = true -> io (write_all bytes) s = (Ok tt, mkSocket (s_input s) (s_output s ++ bytes) true).
Proof. unfold io, write_all. by intros ->. Qed.

(** Reading a prefix of known length. *)
Lemma io_read_ok n (s : Socket) l s' : io (socket_read_exact n) s = (Ok l, s') <->
  length l = n /\ s_input s = l ++ s_input s' /\ s_output s' = s_output s /\ s_open s' = s_open s.
Proof.
  rewrite io_read. split.
  - destruct (Nat.leb_spec n (length (s_input s))); [|done]. intros [= <- <-]. cbn.
    by rewrite length_take, Nat.min_l, take_drop.
  - intros (<- & Ei & Eo & Ew). rewrite Ei, length_app. rewrite (proj2 (Nat.leb_le _ _)) by lia.
    rewrite take_app_length, drop_app_length. destruct s'; cbn in *. by subst.
Qed.

Lemma skip_bound_ok t (s s' : Socket) : skip_bound t s = (Ok tt, s') <->
  exists l, bound_address (t :: l) /\ s_input s = l ++ s_input s' /\ s_output s' = s_output s /\ s_open s' = s_open s.
Proof.
  unfold skip_bound. split.
  - destruct (Z.eqb_spec t SOCKS_ADDR_TYPE_IPV4) as [->|H4]; [|destruct (Z.eqb_spec t SOCKS_ADDR_TYPE_IPV6) as [->|H6];
      [|destruct (Z.eqb_spec t SOCKS_ADDR_TYPE_DOMAIN) as [->|Hd]; [|done]]].
    + intros (l & s1 & (Hl & ?)%io_read_ok & [= <-])%stm_bind_ok. exists l. by split; [constructor|].
    + intros (l & s1 & (Hl & ?)%io_read_ok & [= <-])%stm_bind_ok. exists l. by split; [constructor|].
    + intros (b & s1 & (Hb & Ei & Eo & Ew)%io_read_ok & (len & s2 & [= El <-] & (l & s3 & (Hl & Ei' & Eo' & Ew')%io_read_ok & [= <-])%stm_bind_ok)%stm_bind_ok)%stm_bind_ok.
      destruct b as [|b [|]]; try done. injection El as ->. exists (len :: l). split; [by constructor|].
      by rewrite Ei, Ei', Eo', Ew'.
  - intros (l & Hb & Ei & Eo & Ew). inversion Hb as [rest Hl|rest Hl|len rest Hl]; subst t; try subst rest.
    + rewrite Z.eqb_refl. apply stm_bind_ok. exists l, s'. by split; [apply io_read_ok|].
    + rewrite Z.eqb_refl. apply stm_bind_ok. exists l, s'. by split; [apply io_read_ok|].
    + rewrite Z.eqb_refl. subst l. apply stm_bind_ok. exists [len], (mkSocket (rest ++ s_input s') (s_output s) (s_open s)).
      split; [by apply io_read_ok|]. apply stm_bind_ok. eexists len, _. split; [done|]. apply stm_bind_ok. exists rest, s'.
      by split; [apply io_read_ok|].
Qed.

(** One step of a conversation. *)
Lemma write_bind {A} bytes (f : unit -> stm Socket Socks5Error A) (s : Socket) : s_open s = true ->
  (io (write_all bytes) ≫= f) s = f tt (mkSocket (s_input s) (s_output s ++ bytes) true).
Proof. intros Ho. unfold mbind, stm_bind. by rewrite io_write. Qed.
Lemma read_bind_ok {A} n (f : list Z -> stm Socket Socks5Error A) (s : Socket) b s2 :
  (io (socket_read_exact n) ≫= f) s = (Ok b, s2) <->
  exists l rest, length l = n /\ s_input s = l ++ rest /\ f l (mkSocket rest (s_output s) (s_open s)) = (Ok b, s2).
Proof.
  rewrite stm_bind_ok. split.
  - intros (l & s1 & (Hl & Ei & Eo & Ew)%io_read_ok & E). exists l, (s_input s1). rewrite <-Eo, <-Ew. by destruct s1.
  - intros (l & rest & Hl & Ei & E). eexists l, _. split; [|exact E]. by apply io_read_ok.
Qed.
Lemma check_bind_ok {A} (v w : Z) e (f : unit -> stm Socket Socks5Error A) (s : Socket) b s2 :
  (lift (err_if (negb (v =? w)) e) ≫= f) s = (Ok b, s2) <-> v = w /\ f tt s = (Ok b, s2).
Proof. unfold mbind, stm_bind, lift, err_if. destruct (Z.eqb_spec v w); cbn; [tauto|]. by split; [|intros [? _]]. Qed.
Lemma nth_bind {A} (l : list Z) (i : nat) x (f : Z -> stm Socket Socks5Error A) (s : Socket) : l !! i = Some x ->
  (lift (expect (l !! i)) ≫= f) s = f x s.
Proof. unfold mbind, stm_bind, lift. by intros ->. Qed.

(** The handshake succeeds exactly when the proxy accepts, after the request was
    written; the stream is left behind the reply of the proxy. *)
Theorem socks_connect_exact (address : Socks5Addr) (port : Z) (s s' : Socket) (Hopen : s_open s = true) :
  socks_connect address port s = (Ok tt, s') <->
  exists reserved bound, bound_address bound /\ s_input s = [5; 0] ++ [5; 0; reserved] ++ bound ++ s_input s' /\
    s_output s' = s_output s ++ socks_request address port /\ s_open s' = true.
Proof.
  assert (Hout : forall out, ((((s_output s ++ [SOCKS_VERSION; 1; SOCKS_AUTH_METHOD_NONE]) ++
      [SOCKS_VERSION; SOCKS_CMD_CONNECT; 0; to_addr_type address]) ++ socks_address_bytes address) ++ be_bytes 2 port) = out <->
      out = s_output s ++ socks_request address port).
  { intros out. unfold socks_request. rewrite <-!app_assoc. cbn [app]. split; intros E; by symmetry. }
  unfold socks_connect. rewrite write_bind, read_bind_ok by done. cbn [s_input s_output s_open]. split.
  - intros (l & rest & Hl & Ei & H). destruct l as [|v [|m [|]]]; try done. rewrite (nth_bind _ _ v) in H by done.
    apply check_bind_ok in H as [-> H]. rewrite (nth_bind _ _ m) in H by done. apply check_bind_ok in H as [-> H].
    rewrite !write_bind in H by done. apply read_bind_ok in H as (l & rest' & Hl' & Ei' & H). cbn [s_input] in *.
    destruct l as [|v [|r [|x [|t [|]]]]]; try done. rewrite (nth_bind _ _ v) in H by done. apply check_bind_ok in H as [-> H].
    rewrite (nth_bind _ _ r) in H by done. apply check_bind_ok in H as [-> H]. rewrite (nth_bind _ _ t) in H by done.
    apply skip_bound_ok in H as (bound & Hb & Ei2 & Eo & Ew). cbn [s_input s_output s_open] in *.
    exists x, (t :: bound). split; [done|]. split; [by rewrite Ei, Ei', Ei2|]. by split; [apply Hout|].
  - intros (x & bound & Hb & Ei & Eo & Ew). assert (Hbt : exists t rest, bound = t :: rest) by (destruct Hb; eauto).
    destruct Hbt as (t & rest & ->). exists [5; 0], ([5; 0; x] ++ (t :: rest) ++ s_input s'). split; [done|]. split; [done|].
    rewrite (nth_bind _ _ 5) by done. apply check_bind_ok. split; [done|]. rewrite (nth_bind _ _ 0) by done.
    apply check_bind_ok. split; [done|]. rewrite !write_bind by done. apply read_bind_ok.
    exists [5; 0; x; t], (rest ++ s_input s'). split; [done|]. split; [done|].
    rewrite (nth_bind _ _ 5) by done. apply check_bind_ok. split; [done|]. rewrite (nth_bind _ _ 0) by done.
    apply check_bind_ok. split; [done|]. rewrite (nth_bind _ _ t) by done. apply skip_bound_ok. exists rest. split; [done|].
    split; [done|]. cbn [s_output s_open]. split; [|done]. symmetry. by apply Hout.
Qed.

(** [RawNetworkMessage] with the magic bytes of a network, and its [into_payload]. *)
Class RawLib `{NetCodecs} := {
  magic : Network -> list Z;
  MAX_MSG_SIZE : Z;
  raw_encode : list Z -> NetworkMessage -> list Z;
  raw_decode : list Z -> outcome DecodeError NetworkMessage
}.

(** [ProtocolError] of bip324: an I/O error with the suggestion to retry with
    the old protocol or to give up, or an error of the encryption. *)
Inductive ProtocolError := ProtocolIo (retry_v1 : bool) | ProtocolInternal.

Inductive TransportError :=
  | TransportIo (e : IoError)
  | Protocol (e : ProtocolError)
  | SerdeV2 (e : V2MessageError)
  | SerdeV1 (e : DecodeError)
  | Proxy (e : Socks5Error)
  | OversizedMessage (max_size message_size : Z)
  | BadChecksum (expected provided : list Z)
  | BadMagicBits (expected provided : list Z)
  | InvalidAddress.

Inductive ReadTransport := ReadV1 (input : list Z) (network : Network) | ReadV2 (packets : list (list Z)).
(** What was written, and whether the other side still takes it. *)
Inductive WriteTransport :=
  | WriteV1 (output : list Z) (open : bool) (network : Network)
  | WriteV2 (packets : list (list Z)) (open : bool).

Record V1MessageHeader := mkV1Header { h_magic : list Z; h_command : list Z; h_length : Z; h_checksum : list Z }.

Section Transport.
Context `{HashLib} `{RawLib}.

(** [P2PV1MessageChecksum::from_payload]. *)
Definition from_payload (payload : list Z) : list Z := take 4 (to_byte_array (sha256d payload)).

(** [Decodable] and [Encodable] for [V1MessageHeader]. *)
Definition v1_header_dec (r : list Z) : outcome DecodeError (V1MessageHeader * list Z) :=
  '(m, r) ← take_bytes 4 r;
  '(command, r) ← take_bytes 12 r;
  '(length, r) ← dec r;
  '(checksum, r) ← take_bytes 4 r;
  Ok (mkV1Header m command (u32_val length) checksum, r).
Definition v1_header_enc (h : V1MessageHeader) : list Z :=
  h_magic h ++ h_command h ++ enc (U32 (h_length h)) ++ h_checksum h.

(** * Reading *)

(** [read_exact] on the reader. *)
Definition read_bytes (n : nat) (input : list Z) : outcome TransportError (list Z * list Z) :=
  if (n <=? length input)%nat then Ok (take n input, drop n input) else Err (TransportIo IoUnexpectedEof).
Definition read_v1 (network : Network) (input : list Z) : outcome TransportError (NetworkMessage * list Z) :=
  '(data, input) ← read_bytes 24 input;
  '(header, _) ← map_err SerdeV1 (v1_header_dec data);
  _ ← err_if (MAX_MSG_SIZE <? h_length header) (OversizedMessage MAX_MSG_SIZE (h_length header));
  _ ← err_if (bool_decide (h_magic header <> magic network)) (BadMagicBits (magic network) (h_magic header));
  '(payload, input) ← read_bytes (Z.to_nat (h_length header)) input;
  let checksum := from_payload payload in
  _ ← err_if (bool_decide (h_checksum header <> checksum)) (BadChecksum checksum (h_checksum header));
  msg ← map_err SerdeV1 (raw_decode (data ++ payload));
  Ok (msg, input).
Definition read_message : stm ReadTransport TransportError NetworkMessage := fun t =>
  match t with
  | ReadV2 [] => (Err (Protocol (ProtocolIo false)), t)
  | ReadV2 (contents :: packets) => (map_err SerdeV2 (deserialize_v2 contents), ReadV2 packets)
  | ReadV1 input network =>
      match read_v1 network input with
      | Ok (msg, input) => (Ok msg, ReadV1 input network)
      | Err e => (Err e, t)
      | Panic => (Panic, t)
      | Diverge => (Diverge, t)
      end
  end.

(** * Writing *)

(** The header of a Utreexo message is put together by hand. *)
Definition utreexo_header (network : Network) (payload : list Z) : list Z :=
  magic network ++ txt "getuproof" ++ replicate 3 0 ++ le_bytes 4 (Z.of_nat (length payload)) ++ from_payload payload.
Definition v1_bytes (network : Network) (message : NetworkMessage) : outcome TransportError (list Z) :=
  match message with
  | NetUnknown command payload =>
      if bool_decide (command = GETUPROOF) then Ok (utreexo_header network payload ++ payload) else Panic
  | _ => Ok (raw_encode (magic network) message)
  end.
Definition write_message (message : NetworkMessage) : stm WriteTransport TransportError unit := fun t =>
  match t with
  | WriteV2 packets open =>
      if open then (Ok tt, WriteV2 (packets ++ [serialize_v2 message]) open) else (Err (Protocol (ProtocolIo false)), t)
  | WriteV1 output open network =>
      match v1_bytes network message with
      | Ok data => if open then (Ok tt, WriteV1 (output ++ data) open network) else (Err (TransportIo IoOther), t)
      | Err e => (Err e, t)
      | Panic => (Panic, t)
      | Diverge => (Diverge, t)
      end
  end.
Definition transport_shutdown (t : WriteTransport) : WriteTransport :=
  match t with
  | WriteV2 _ _ => t
  | WriteV1 output _ network => WriteV1 output false network
  end.

(** * Connecting *)

(** [Protocol::new], the BIP324 handshake on a stream: the packets that will
    arrive. *)
Context (protocol_new : Network -> Socket -> outcome ProtocolError (list (list Z))).

Definition negotiate (network : Network) (force_v1 : bool) (stream : Socket)
  : outcome TransportError (ReadTransport * WriteTransport * TransportProtocol) :=
  if force_v1 then Ok (ReadV1 (s_input stream) network, WriteV1 [] true network, TransportV1)
  else
    packets ← map_err Protocol (protocol_new network stream);
    Ok (ReadV2 packets, WriteV2 [] true, TransportV2).

(** A first attempt with the new protocol, and a second one with the old when
    the failure suggests it and the caller allows it. *)
Definition with_fallback {A} (attempt : bool -> outcome TransportError A) (allow_v1_fallback : bool) : outcome TransportError A :=
  match attempt false with
  | Err (Protocol (ProtocolIo retry_v1)) as o => if retry_v1 && allow_v1_fallback then attempt true else o
  | o => o
  end.

(** [TcpStream::connect] for the first and the second attempt. *)
Context {Addr : Type} (tcp_connect : bool -> Addr -> outcome IoError Socket).

Definition try_connection (address : Addr) (network : Network) (force_v1 : bool) :=
  stream ← map_err TransportIo (tcp_connect force_v1 address);
  negotiate network force_v1 stream.
Definition connect (address : Addr) (network : Network) (allow_v1_fallback : bool) :=
  with_fallback (try_connection address network) allow_v1_fallback.

(** [TryFrom<&LocalAddress> for Socks5Addr]. *)
Definition socks_addr_from `{Sha3Lib} (a : LocalAddress) : outcome TransportError Socks5Addr :=
  match get_net_address a with
  | Some (V4 ip) => Ok (SocksIpv4 ip)
  | Some (V6 ip) => Ok (SocksIpv6 ip)
  | None =>
      match get_onion_addr a with
      | Some onion => match as_human_readable onion with Ok name => Ok (SocksDomain name) | _ => Panic end
      | None => Err InvalidAddress
      end
  end.
Definition try_proxy_connection (proxy_addr : Addr) (target_addr : Socks5Addr) (port : Z) (network : Network) (force_v1 : bool) :=
  proxy ← map_err TransportIo (tcp_connect force_v1 proxy_addr);
  let '(connected, stream) := socks_connect target_addr port proxy in
  _ ← map_err Proxy connected;
  negotiate network force_v1 stream.
Definition connect_proxy `{Sha3Lib} (proxy_addr : Addr) (address : LocalAddress) (network : Network) (allow_v1_fallback : bool) :=
  addr ← socks_addr_from address;
  with_fallback (try_proxy_connection proxy_addr addr (sa_port (la_address address)) network) allow_v1_fallback.
End Transport.

Section Laws.
Context `{HashLib} `{RawLib}.

(** A frame of the old protocol. *)
Definition v1_frame (mg name payload : list Z) : list Z :=
  mg ++ name ++ le_bytes 4 (Z.of_nat (length payload)) ++ from_payload payload ++ payload.

(** What the protocol prescribes for rust-bitcoin's frames; a frame with a name
    that rust-bitcoin does not know is an unknown message. *)
Class RawLibOk : Prop := {
  magic_length : forall n, length (magic n) = 4%nat;
  max_msg_size : 0 <= MAX_MSG_SIZE <= u32_max;
  raw_frame : forall mg m, ~ is_unknown m ->
    exists name, length name = 12%nat /\ raw_encode mg m = v1_frame mg name (net_encode m);
  raw_back : forall net m, ~ is_unknown m -> message_ok m -> raw_decode (raw_encode (magic net) m) = Ok m;
  raw_utreexo : forall net payload, raw_decode (v1_frame (magic net) (txt "getuproof" ++ replicate 3 0) payload) = Ok (NetUnknown GETUPROOF payload)
}.
End Laws.

Section TransportFacts.
Context `{HashLib} `{RawLibOk} `{!NetCodecsOk}.

Lemma from_payload_length payload : length (from_payload payload) = 4%nat.
Proof. unfold from_payload, to_byte_array. rewrite length_take, length_le_bytes. lia. Qed.

Lemma take_bytes_app n (l r : list Z) : length l = n -> take_bytes n (l ++ r) = Ok (l, r).
Proof.
  intros <-. unfold take_bytes. rewrite length_app, (proj2 (Nat.leb_le _ _)) by lia. by rewrite take_app_length, drop_app_length.
Qed.
Lemma take_bytes_ok n (r a b : list Z) : take_bytes n r = Ok (a, b) <-> length a = n /\ r = a ++ b.
Proof.
  split; [|intros [? ->]; by apply take_bytes_app]. unfold take_bytes. destruct (Nat.leb_spec n (length r)); [|done].
  intros [= <- <-]. by rewrite length_take, Nat.min_l, take_drop.
Qed.
Lemma read_bytes_ok n (r a b : list Z) : read_bytes n r = Ok (a, b) <-> length a = n /\ r = a ++ b.
Proof. rewrite <-take_bytes_ok. unfold read_bytes, take_bytes. destruct (n <=? length r)%nat; by split; intros [= -> ->]. Qed.

(** * The header *)

Lemma v1_header_dec_ok (r : list Z) h rest : v1_header_dec r = Ok (h, rest) <->
  exists len, h_length h = le_int len /\ length (h_magic h) = 4%nat /\ length (h_command h) = 12%nat /\ length len = 4%nat /\
    length (h_checksum h) = 4%nat /\ r = h_magic h ++ h_command h ++ len ++ h_checksum h ++ rest.
Proof.
  unfold v1_header_dec. split.
  - intros ([mg r1] & (Hm & ->)%take_bytes_ok & HE)%obind_ok. apply obind_ok in HE as ([c r2] & (Hc & ->)%take_bytes_ok & HE).
    apply obind_ok in HE as ([[l] r3] & Hl& HE). apply obind_ok in HE as ([ck r4] & (Hk & ->)%take_bytes_ok & [= <- <-]).
    unfold dec, u32_codec, dec_le in Hl. apply obind_ok in Hl as ([x y] & Hx & [= <- Hy]). cbn in Hy. subst y.
    apply obind_ok in Hx as ([len r5] & (Hlen & ->)%take_bytes_ok & [= <- Hy]). cbn in Hy. subst r5. by exists len.
  - intros (len & El & Hm & Hc & Hl & Hk & ->). rewrite take_bytes_app by done. cbn [mbind outcome_bind].
    rewrite take_bytes_app by done. cbn [mbind outcome_bind]. unfold dec, u32_codec, dec_le.
    rewrite take_bytes_app by done. cbn [mbind outcome_bind fst snd]. rewrite take_bytes_app by done. cbn.
    rewrite <-El. by destruct h.
Qed.
(** What was encoded is decoded. *)
Lemma v1_header_roundtrip h rest : length (h_magic h) = 4%nat -> length (h_command h) = 12%nat -> length (h_checksum h) = 4%nat ->
  is_u32 (h_length h) -> v1_header_dec (v1_header_enc h ++ rest) = Ok (h, rest).
Proof.
  intros Hm Hc Hk Hl. apply v1_header_dec_ok. exists (le_bytes 4 (h_length h)). unfold v1_header_enc. rewrite <-!app_assoc.
  split_and!; try done. symmetry. apply le_int_bytes. unfold is_u32, u32_max in Hl. cbn. lia.
Qed.

(** * Reading a frame *)

Lemma read_v1_frame net name payload m rest : length name = 12%nat -> Z.of_nat (length payload) <= MAX_MSG_SIZE ->
  raw_decode (v1_frame (magic net) name payload) = Ok m -> read_v1 net (v1_frame (magic net) name payload ++ rest) = Ok (m, rest).
Proof.
  intros Hn Hs Hr. pose proof max_msg_size as Hmax. unfold u32_max in Hmax. set (len := Z.of_nat (length payload)) in *.
  set (head := magic net ++ name ++ le_bytes 4 len ++ from_payload payload).
  assert (Hhead : length head = 24%nat)
    by (unfold head; rewrite !length_app, magic_length, length_le_bytes, from_payload_length, Hn; done).
  assert (Hf : v1_frame (magic net) name payload = head ++ payload) by (unfold v1_frame, head; by rewrite <-!app_assoc).
  unfold read_v1. rewrite Hf in *. rewrite <-app_assoc, (proj2 (read_bytes_ok 24 _ head (payload ++ rest))) by done.
  cbn [mbind outcome_bind]. rewrite (proj2 (v1_header_dec_ok head (mkV1Header (magic net) name len (from_payload payload)) [])).
  2:{ exists (le_bytes 4 len). cbn [h_magic h_command h_length h_checksum].
      rewrite app_nil_r, length_le_bytes, magic_length, from_payload_length, le_int_bytes by (cbn; lia). done. }
  cbn [map_err mbind outcome_bind h_length h_magic h_checksum]. unfold err_if. rewrite (proj2 (Z.ltb_ge _ _)) by lia.
  cbn [mbind outcome_bind]. rewrite bool_decide_eq_false_2 by (intros Hx; by apply Hx). cbn [mbind outcome_bind].
  rewrite (proj2 (read_bytes_ok (Z.to_nat len) _ payload rest)) by (split; [unfold len; lia|done]). cbn [mbind outcome_bind].
  rewrite bool_decide_eq_false_2 by (intros Hx; by apply Hx). cbn [mbind outcome_bind]. by rewrite Hr.
Qed.
Lemma read_v1_inv net s m rest : Forall is_byte s -> read_v1 net s = Ok (m, rest) ->
  exists name payload, length name = 12%nat /\ Z.of_nat (length payload) <= MAX_MSG_SIZE /\
    s = v1_frame (magic net) name payload ++ rest /\ raw_decode (v1_frame (magic net) name payload) = Ok m.
Proof.
  intros Hs HE. unfold read_v1 in HE. apply obind_ok in HE as ([data s1] & (Hd & ->)%read_bytes_ok & HE).
  apply obind_ok in HE as ([h r] & Hh& HE). destruct (v1_header_dec data) as [[h' r']| | |] eqn:Eh; try done. injection Hh as -> ->.
  apply v1_header_dec_ok in Eh as (len & El & Hm & Hc & Hl & Hk & Edata).
  assert (Hr : r = []).
  { apply (f_equal length) in Edata. rewrite Hd, !length_app, Hm, Hc, Hl, Hk in Edata. destruct r; [done|cbn in Edata; lia]. }
  subst r. rewrite app_nil_r in Edata. unfold err_if in HE.
  destruct (Z.ltb_spec MAX_MSG_SIZE (h_length h)) as [|Hmax]; [done|]. cbn [mbind outcome_bind] in HE.
  case_bool_decide as Hmg; [done|]. cbn [mbind outcome_bind] in HE.
  apply obind_ok in HE as ([payload s2] & (Hp & ->)%read_bytes_ok& HE). case_bool_decide as Hck; [done|].
  cbn [mbind outcome_bind] in HE.
  assert (Hlen : Forall is_byte len).
  { apply Forall_app in Hs as [Hs _]. rewrite Edata in Hs. by repeat (apply Forall_app in Hs as [? Hs]). }
  pose proof (le_int_bound _ Hlen) as Hb. pose proof (le_bytes_int _ Hlen) as Hle. rewrite Hl in Hb, Hle. rewrite <-El in Hb, Hle.
  assert (Hpl : Z.of_nat (length payload) = h_length h) by lia.
  assert (Ef : data ++ payload = v1_frame (magic net) (h_command h) payload).
  { unfold v1_frame. rewrite Edata, Hpl, Hle, <-Hmg, <-Hck. by rewrite <-!app_assoc. }
  apply obind_ok in HE as (m' & Hdec & [= -> ->]). exists (h_command h), payload. split; [done|]. split; [lia|].
  rewrite <-Ef, <-app_assoc. split; [done|]. destruct (raw_decode (data ++ payload)); cbn in Hdec; congruence.
Qed.

(** * Theorems *)

(** A message is read exactly from a frame of the right network that is not too
    long and has the checksum of its payload; what follows is left. *)
Theorem read_message_exact (net : Network) (s rest : list Z) (m : NetworkMessage) (Hs : Forall is_byte s) :
  read_message (ReadV1 s net) = (Ok m, ReadV1 rest net) <->
  exists name payload, length name = 12%nat /\ Z.of_nat (length payload) <= MAX_MSG_SIZE /\
    s = v1_frame (magic net) name payload ++ rest /\ raw_decode (v1_frame (magic net) name payload) = Ok m.
Proof.
  unfold read_message. split.
  - destruct (read_v1 net s) as [[m' rest']| | |] eqn:E; try discriminate. intros [= -> ->]. by apply read_v1_inv.
  - intros (name & payload & Hn & Hmax & -> & Hr). by rewrite (read_v1_frame net name payload m).
Qed.

(** The messages that a connection of the old protocol takes. *)
Definition v1_message (m : NetworkMessage) : Prop := ~ is_unknown m \/ exists payload, m = NetUnknown GETUPROOF payload.
Definition v1_size (m : NetworkMessage) : Z :=
  Z.of_nat (length (match m with NetUnknown _ payload => payload | _ => net_encode m end)).

Lemma v1_bytes_frame net m : v1_message m -> (~ is_unknown m -> message_ok m) ->
  exists name payload, length name = 12%nat /\ v1_bytes net m = Ok (v1_frame (magic net) name payload) /\
    v1_size m = Z.of_nat (length payload) /\ raw_decode (v1_frame (magic net) name payload) = Ok m.
Proof.
  intros [Hu|[payload ->]] Hm.
  - destruct (raw_frame (magic net) m Hu) as (name & Hn & E). exists name, (net_encode m). rewrite <-E.
    split_and!; [done|by destruct m; try done; destruct Hu|by destruct m; try done; destruct Hu|by apply raw_back; auto].
  - exists (txt "getuproof" ++ replicate 3 0), payload. split_and!; [done| |done|apply raw_utreexo].
    cbn [v1_bytes]. rewrite bool_decide_eq_true_2 by done. unfold utreexo_header, v1_frame. by rewrite <-!app_assoc.
Qed.

(** C20: A message written to a transport is read back from it as it was, with the bytes
    after it left for the next one. Over the old protocol this holds for every message
    with a known command whose contents its codec gives back and that is not longer than
    MAX_MSG_SIZE, and for the requests for Utreexo proofs with their hand-made header;
    over the BIP324 protocol for every message with a known command whose contents its
    codec gives back, headers included, under a short or a long type, and for unknown
    commands of at most twelve printable characters that are none of the names the long
    type gives a known message. A request for Utreexo proofs over BIP324 is excluded,
    since it is written with a short type that is not read. *)
Theorem transport_roundtrip (net : Network) (m : NetworkMessage) (Hm : ~ is_unknown m -> message_ok m) :
  (v1_message m -> v1_size m <= MAX_MSG_SIZE -> exists data,
     (forall out, write_message m (WriteV1 out true net) = (Ok tt, WriteV1 (out ++ data) true net)) /\
     forall rest, read_message (ReadV1 (data ++ rest) net) = (Ok m, ReadV1 rest net)) /\
  (message_ok m -> exists packet,
     (forall out, write_message m (WriteV2 out true) = (Ok tt, WriteV2 (out ++ [packet]) true)) /\
     forall rest, read_message (ReadV2 (packet :: rest)) = (Ok m, ReadV2 rest)).
Proof.
  split.
  - intros Hv Hs. destruct (v1_bytes_frame net m Hv Hm) as (name & payload & Hn & E & El & Hr).
    eexists. split; [intros out; unfold write_message; by rewrite E|]. intros rest. unfold read_message.
    rewrite El in Hs. by rewrite (read_v1_frame net name payload m).
  - intros Hok. exists (serialize_v2 m). split; [done|]. intros rest. unfold read_message.
    pose proof (v2_roundtrip m [] Hok ltac:(done)) as E. rewrite app_nil_r in E. by rewrite E.
Qed.

(** The old protocol is used when the new one failed for a reason that suggests
    it and the caller allows it, and only then. *)
Lemma fallback_exact {A} (attempt : bool -> outcome TransportError A) allow :
  with_fallback attempt allow =
    if bool_decide (allow = true) then
      match attempt false with Err (Protocol (ProtocolIo true)) => attempt true | o => o end
    else attempt false.
Proof. unfold with_fallback. destruct (attempt false) as [|[| [[]|]| | | | | | |]| |], allow; done. Qed.
End TransportFacts.
