(* ===== verification/PeerTask.v ===== *)
(** The task of a connection ([src/crates/floresta-wire/src/p2p_wire/peer.rs]):
    the handshake, the requests of the node turned into messages, the messages
    of the peer turned into notifications of the node, and the deadlines.  The
    loop of [peer_loop_inner] is the relation [peer_reachable].

    Instants are seconds.  What the task sends to the node is the list
    [node_tx]; what it writes goes to the transport.  The mempool is shared, so
    every message sees the one of its time. *)

From stdpp Require Import base gmap list strings.
From Stdlib Require Import ZArith Lia.
From S2P Require Import Prelude Bitcoin Errors Codec Sigops Udata Filters BlockProof Text Onion SocketAddr AddressMan Node SyncNode.
From S2P Require Import NetMessage Transport.

Definition PING_TIMEOUT : Z := 30.
Definition SEND_PING_TIMEOUT : Z := 60.
Definition HANDSHAKE_TIMEOUT : Z := 10.
Definition REQUEST_POLL_INTERVAL : Z := 2.
Definition MAX_BLOCKS_PER_INV : Z := 500.
Definition ADDRV2_MESSAGE_INTERVAL : Z := 10.
Definition INV_MESSAGE_INTERVAL : Z := 30.
Definition MAX_MSGS_PER_SEC : Z := 10000.
Definition BASIC_FILTER_VERSION : Z := 0.
Definition MAX_FILTERS_PER_MESSAGE : nat := 2000.

(** [PROTOCOL_VERSION] and [advertised_services] of [floresta-common]. *)
Definition PROTOCOL_VERSION : Z := 70016.
Definition P2P_V2 : ServiceFlags := Z.shiftl 1 11.
Definition advertised_services : ServiceFlags := Z.lor (Z.lor WITNESS P2P_V2) UTREEXO.

(** [State]. *)
Inductive PeerState := StateNone | StateSentVersion (when : Z) | StateSentVerack | StateConnected.
#[export] Instance PeerState_eq_dec : EqDecision PeerState.
Proof. solve_decision. Defined.

Record PeerTimeouts := mkTimeouts {
  ping_timeout : Z;
  send_ping_timeout : Z;
  handshake_timeout : Z;
  request_poll_interval : Z
}.
Definition default_timeouts : PeerTimeouts :=
  mkTimeouts PING_TIMEOUT SEND_PING_TIMEOUT HANDSHAKE_TIMEOUT REQUEST_POLL_INTERVAL.

(** The fields of [Peer]: those that never change, those that the version
    message of the peer sets, and the rest. *)
Record PeerConf := mkConf {
  pc_id : PeerId;
  pc_address : LocalAddress;
  pc_kind : ConnectionKind;
  our_user_agent : string;
  our_best_block : Z;
  pc_transport : TransportProtocol;
  start_time : Z;
  timeouts : PeerTimeouts
}.
Record VersionInfo := mkInfo {
  vi_services : ServiceFlags;
  vi_time_offset : Z;
  vi_user_agent : string;
  blocks_only : bool;
  current_best_block : Z
}.
Section PeerData.
Context `{UtreexoLib}.
Record Peer := mkPeerTask {
  conf : PeerConf;
  info : VersionInfo;
  pt_state : PeerState;
  messages : Z;
  last_message : Z;
  last_addrv2 : Z;
  last_inv : Z;
  last_ping : option Z;
  send_headers : bool;
  wants_addrv2 : bool;
  shutdown : bool;
  node_tx : list NodeNotification;
  writer : WriteTransport;
  cancelled : bool
}.
Definition set_info (x : VersionInfo) (p : Peer) : Peer :=
  mkPeerTask (conf p) x (pt_state p) (messages p) (last_message p) (last_addrv2 p) (last_inv p) (last_ping p) (send_headers p)
    (wants_addrv2 p) (shutdown p) (node_tx p) (writer p) (cancelled p).
Definition set_pt_state (x : PeerState) (p : Peer) : Peer :=
  mkPeerTask (conf p) (info p) x (messages p) (last_message p) (last_addrv2 p) (last_inv p) (last_ping p) (send_headers p)
    (wants_addrv2 p) (shutdown p) (node_tx p) (writer p) (cancelled p).
Definition set_messages (x : Z) (p : Peer) : Peer :=
  mkPeerTask (conf p) (info p) (pt_state p) x (last_message p) (last_addrv2 p) (last_inv p) (last_ping p) (send_headers p)
    (wants_addrv2 p) (shutdown p) (node_tx p) (writer p) (cancelled p).
Definition set_last_message (x : Z) (p : Peer) : Peer :=
  mkPeerTask (conf p) (info p) (pt_state p) (messages p) x (last_addrv2 p) (last_inv p) (last_ping p) (send_headers p)
    (wants_addrv2 p) (shutdown p) (node_tx p) (writer p) (cancelled p).
Definition set_last_addrv2 (x : Z) (p : Peer) : Peer :=
  mkPeerTask (conf p) (info p) (pt_state p) (messages p) (last_message p) x (last_inv p) (last_ping p) (send_headers p)
    (wants_addrv2 p) (shutdown p) (node_tx p) (writer p) (cancelled p).
Definition set_last_inv (x : Z) (p : Peer) : Peer :=
  mkPeerTask (conf p) (info p) (pt_state p) (messages p) (last_message p) (last_addrv2 p) x (last_ping p) (send_headers p)
    (wants_addrv2 p) (shutdown p) (node_tx p) (writer p) (cancelled p).
Definition set_last_ping (x : option Z) (p : Peer) : Peer :=
  mkPeerTask (conf p) (info p) (pt_state p) (messages p) (last_message p) (last_addrv2 p) (last_inv p) x (send_headers p)
    (wants_addrv2 p) (shutdown p) (node_tx p) (writer p) (cancelled p).
Definition set_send_headers (p : Peer) : Peer :=
  mkPeerTask (conf p) (info p) (pt_state p) (messages p) (last_message p) (last_addrv2 p) (last_inv p) (last_ping p) true
    (wants_addrv2 p) (shutdown p) (node_tx p) (writer p) (cancelled p).
Definition set_wants_addrv2 (p : Peer) : Peer :=
  mkPeerTask (conf p) (info p) (pt_state p) (messages p) (last_message p) (last_addrv2 p) (last_inv p) (last_ping p) (send_headers p)
    true (shutdown p) (node_tx p) (writer p) (cancelled p).
Definition set_shutdown (p : Peer) : Peer :=
  mkPeerTask (conf p) (info p) (pt_state p) (messages p) (last_message p) (last_addrv2 p) (last_inv p) (last_ping p) (send_headers p)
    (wants_addrv2 p) true (node_tx p) (writer p) (cancelled p).
Definition set_node_tx (x : list NodeNotification) (p : Peer) : Peer :=
  mkPeerTask (conf p) (info p) (pt_state p) (messages p) (last_message p) (last_addrv2 p) (last_inv p) (last_ping p) (send_headers p)
    (wants_addrv2 p) (shutdown p) x (writer p) (cancelled p).
Definition set_writer (x : WriteTransport) (p : Peer) : Peer :=
  mkPeerTask (conf p) (info p) (pt_state p) (messages p) (last_message p) (last_addrv2 p) (last_inv p) (last_ping p) (send_headers p)
    (wants_addrv2 p) (shutdown p) (node_tx p) x (cancelled p).
Definition set_cancelled (p : Peer) : Peer :=
  mkPeerTask (conf p) (info p) (pt_state p) (messages p) (last_message p) (last_addrv2 p) (last_inv p) (last_ping p) (send_headers p)
    (wants_addrv2 p) (shutdown p) (node_tx p) (writer p) true.

Inductive PeerError :=
  | PeerSend
  | PeerRead (e : IoError)
  | PeerParse (e : DecodeError)
  | UnexpectedMessage
  | MessageTooBig
  | MagicBitsMismatch
  | TooManyMessages
  | PingTimeout
  | PeerChannel
  | PeerTransport (e : TransportError).

(** The address of rust-bitcoin's [Address::new]. *)
Class NetAddressBuild `{NetTypes} := net_address_new : IpAddr * Z -> ServiceFlags -> NetAddress.

End PeerData.

Section PeerTask.
Context `{HashLib, UtreexoLib} `{RawLib} `{!NetAddressBuild}.
Context {MP : Type} (get_from_mempool : MP -> Txid -> option Transaction).
Abbreviation M := (stm Peer PeerError) (only parsing).

(** ** Writing and telling the node *)

Definition write (msg : NetworkMessage) : M unit := fun p =>
  let '(o, w) := write_message msg (writer p) in (map_err PeerTransport o, set_writer w p).
(** A write whose error is ignored. *)
Definition try_write (msg : NetworkMessage) : M unit := fun p =>
  match write msg p with
  | (Ok _, p) | (Err _, p) => (Ok tt, p)
  | (Panic, p) => (Panic, p)
  | (Diverge, p) => (Diverge, p)
  end.
Definition send_to_node (message : PeerMessages) (time : Z) (p : Peer) : Peer :=
  set_node_tx (node_tx p ++ [FromPeer (pc_id (conf p)) message time]) p.
Definition tell (message : PeerMessages) (time : Z) : M unit := modify (send_to_node message time).

(** [u32 as i32]. *)
Definition as_i32 (z : Z) : Z := if z <? 2 ^ 31 then z else z - 2 ^ 32.
Definition fake_socket : IpAddr * Z := (V4 (mkIpv4 127 0 0 1), 38332).
Definition build_version_message (unix nonce : Z) (agent : string) (best_block : Z) (peer_address : LocalAddress) : NetworkMessage :=
  let receiver := default fake_socket (get_socket_addr peer_address) in
  NetVersion (mkVersionMessage PROTOCOL_VERSION advertised_services unix
    (net_address_new receiver (la_services peer_address)) (net_address_new fake_socket advertised_services)
    nonce agent (as_i32 best_block) false).
Definition make_pong (nonce : Z) : NetworkMessage := NetPong nonce.

(** ** Requests of the node *)

Definition inventory_of (witness : WitnessMode) (block : BlockHash) : Inventory :=
  match witness with WitnessFull => InvWitnessBlock block | Witnessless => InvBlock block end.
Definition send_ping (now nonce : Z) : M unit :=
  _ ← modify (set_last_ping (Some now)); write (NetPing nonce).
Definition handle_node_request (now nonce : Z) (request : NodeRequest) : M unit :=
  p ← gets Ok;
  _ ← lift (if bool_decide (pt_state p = StateConnected) then Ok tt else Panic);
  match request with
  | GetBlock block_hashes witness => try_write (NetGetData (map (inventory_of witness) block_hashes))
  | GetUtreexoState block_hash height => try_write (NetGetCFilters (mkGetCFilters 1 height block_hash))
  | GetHeaders locator => try_write (NetGetHeaders (mkGetHeaders 0 locator all_zeros))
  | Shutdown => _ ← modify set_shutdown; modify (fun p => set_writer (transport_shutdown (writer p)) p)
  | GetAddresses => write NetGetAddr
  | BroadcastTransaction tx => write (NetInv [InvTransaction tx])
  | GetMempoolTransaction txid => write (NetGetData [InvTransaction txid])
  | SendAddresses addresses => write (NetAddrV2 addresses)
  | GetFilter stop_hash start_height => write (NetGetCFilters (mkGetCFilters BASIC_FILTER_VERSION start_height stop_hash))
  | Ping => send_ping now nonce
  | GetBlockProof block_hash proof_hashes leaf_index =>
      write (NetUnknown GETUPROOF (get_proof_enc (mkGetProof block_hash request_all proof_hashes leaf_index)))
  | GetCFHeaders start_height stop_hash => write (NetGetCFHeaders (mkGetCFHeaders BASIC_FILTER_VERSION start_height stop_hash))
  end.

(** ** Messages of the peer *)

(** The loop over an inventory. *)
Fixpoint inv_loop (time block_inv_elements : Z) (inv : list Inventory) : M unit :=
  match inv with
  | [] => mret tt
  | (InvBlock block_hash | InvWitnessBlock block_hash | InvCompactBlock block_hash) :: rest =>
      let block_inv_elements := block_inv_elements + 1 in
      _ ← lift (err_if (MAX_BLOCKS_PER_INV <=? block_inv_elements) MessageTooBig);
      _ ← tell (MsgNewBlock block_hash) time;
      inv_loop time block_inv_elements rest
  | _ :: rest => inv_loop time block_inv_elements rest
  end.
Fixpoint not_found_loop (time : Z) (inv : list Inventory) : M unit :=
  match inv with
  | [] => mret tt
  | inv_el :: rest => _ ← tell (MsgNotFound inv_el) time; not_found_loop time rest
  end.
Definition handle_get_data (mempool : MP) (inv : Inventory) : M unit :=
  match inv with
  | InvWitnessTransaction txid | InvTransaction txid =>
      match get_from_mempool mempool txid with
      | Some tx => write (NetTx tx)
      | None => mret tt
      end
  | _ => mret tt
  end.
Fixpoint get_data_loop (mempool : MP) (inv : list Inventory) : M unit :=
  match inv with
  | [] => mret tt
  | inv_el :: rest => _ ← handle_get_data mempool inv_el; get_data_loop mempool rest
  end.

(** [deserialize]: nothing may be left. *)
Definition deserialize_proof (payload : list Z) : outcome PeerError UtreexoProof :=
  '(proof, rest) ← map_err PeerParse (utreexo_proof_dec payload);
  if bool_decide (rest = []) then Ok proof
  else Err (PeerParse (ParseFailed "data not consumed entirely when explicitly deserializing")).

Definition handle_inv_message (now time : Z) (inv : list Inventory) : M unit :=
  p ← gets Ok;
  if saturating_sub now (last_inv p) <? INV_MESSAGE_INTERVAL then mret tt
  else _ ← modify (set_last_inv now); inv_loop time 0 inv.
Definition handle_addrv2 (now time : Z) (addresses : list AddrV2Message) : M unit :=
  _ ← lift (err_if (MAX_ADDRV2_ADDRESSES <? length addresses)%nat MessageTooBig);
  p ← gets Ok;
  let elapsed := saturating_sub now (last_addrv2 p) in
  _ ← modify (set_last_addrv2 now);
  if elapsed <? ADDRV2_MESSAGE_INTERVAL then mret tt else tell (MsgAddr addresses) time.
Definition handle_unknown (time : Z) (command : CommandString) (payload : list Z) : M unit :=
  if bool_decide (command <> UPROOF) then mret tt
  else proof ← lift (deserialize_proof payload); tell (MsgUtreexoProof proof) time.
Definition handle_cfilter (time : Z) (m : CFilter) : M unit :=
  match cf_filter_type m with
  | 0 => tell (MsgBlockFilter (cf_block_hash m) (cf_filter m)) time
  | 1 => tell (MsgUtreexoState (cf_filter m)) time
  | _ => mret tt
  end.
Definition handle_cfheaders_message (time : Z) (m : CFHeadersMessage) : M unit :=
  _ ← lift (err_if (MAX_FILTERS_PER_MESSAGE <? length (cfh_hashes (cm_headers m)))%nat MessageTooBig);
  _ ← lift (err_if (negb (cm_filter_type m =? BASIC_FILTER_VERSION)) UnexpectedMessage);
  tell (MsgCFHeaders (cm_headers m)) time.

Definition handle_connected (mempool : MP) (now time : Z) (message : NetworkMessage) : M unit :=
  match message with
  | NetInv inv => handle_inv_message now time inv
  | NetGetHeaders _ => write (NetHeaders [])
  | NetHeaders headers => tell (MsgHeaders headers) time
  | NetSendHeaders => _ ← modify set_send_headers; write NetSendHeaders
  | NetPing nonce => write (make_pong nonce)
  | NetFeeFilter _ => write (NetFeeFilter 1000)
  | NetAddrV2 addresses => handle_addrv2 now time addresses
  | NetGetBlocks _ => write (NetInv [])
  | NetGetAddr => p ← gets Ok; if wants_addrv2 p then write (NetAddrV2 []) else write (NetAddr [])
  | NetGetData inv => get_data_loop mempool inv
  | NetTx tx => tell (MsgTransaction tx) time
  | NetNotFound inv => not_found_loop time inv
  | NetSendAddrV2 => lift (Err UnexpectedMessage)
  | NetPong _ => modify (set_last_ping None)
  | NetUnknown command payload => handle_unknown time command payload
  | NetBlock block => tell (MsgBlock block) time
  | NetCFilter filter_msg => handle_cfilter time filter_msg
  | NetCFHeaders cfheaders => handle_cfheaders_message time cfheaders
  | _ => mret tt
  end.

Definition i64_saturating_sub (a b : Z) : Z := Z.max (- 2 ^ 63) (Z.min (2 ^ 63 - 1) (a - b)).
Definition handle_version (unix : Z) (version : VersionMessage) : M unit :=
  _ ← modify (set_info (mkInfo (vm_services version) (i64_saturating_sub (vm_timestamp version) unix) (vm_user_agent version)
        (negb (vm_relay version)) (vm_start_height version)));
  _ ← (if PROTOCOL_VERSION <=? vm_version version then write NetSendAddrV2 else mret tt);
  _ ← modify (set_pt_state StateSentVerack);
  write NetVerack.
Definition ready_version (p : Peer) : Version :=
  mkVersion (vi_user_agent (info p)) 0 (Z.abs (current_best_block (info p))) (pc_id (conf p)) (la_id (pc_address (conf p)))
    (vi_services (info p)) (vi_time_offset (info p)) (pc_kind (conf p)) (pc_transport (conf p)).
Definition handle_verack_state (time : Z) (message : NetworkMessage) : M unit :=
  match message with
  | NetVerack => _ ← modify (set_pt_state StateConnected); modify (fun p => send_to_node (MsgReady (ready_version p)) time p)
  | NetSendAddrV2 => modify set_wants_addrv2
  | NetSendHeaders => modify set_send_headers
  | NetWtxidRelay => mret tt
  | _ => lift (Err UnexpectedMessage)
  end.
Definition handle_peer_message (mempool : MP) (now unix : Z) (message : NetworkMessage) (time : Z) : M unit :=
  _ ← modify (set_last_message time);
  p ← gets Ok;
  count ← lift (u64_add (messages p) 1);
  _ ← modify (set_messages count);
  match pt_state p with
  | StateConnected => handle_connected mempool now time message
  | StateNone | StateSentVersion _ =>
      match message with
      | NetVersion version => handle_version unix version
      | _ => lift (Err UnexpectedMessage)
      end
  | StateSentVerack => handle_verack_state time message
  end.

(** ** The loop *)

(** What [select!] may yield. *)
Inductive LoopEvent :=
  | PollTimeout
  | NodeAsks (request : NodeRequest)
  | RequestsClosed
  | ReaderMessage (message : NetworkMessage) (time : Z)
  | ReaderFailed (e : PeerError)
  | ReaderClosed.
Definition handle_event (mempool : MP) (now unix nonce : Z) (e : LoopEvent) : M unit :=
  match e with
  | PollTimeout => mret tt
  | NodeAsks request => handle_node_request now nonce request
  | RequestsClosed | ReaderClosed => lift (Err PeerChannel)
  | ReaderMessage message time => handle_peer_message mempool now unix message time
  | ReaderFailed e => lift (Err e)
  end.

Definition checked_div_or_zero (a b : Z) : Z := if b =? 0 then 0 else a / b.
Definition check_ping (now nonce : Z) : M unit :=
  p ← gets Ok;
  _ ← lift (match last_ping p with
            | Some when => err_if (ping_timeout (timeouts (conf p)) <? saturating_sub now when) PingTimeout
            | None => Ok tt
            end);
  if (send_ping_timeout (timeouts (conf p)) <? saturating_sub now (last_message p)) && bool_decide (last_ping p = None)
  then send_ping now nonce else mret tt.
Definition check_handshake (now : Z) : M unit :=
  p ← gets Ok;
  match pt_state p with
  | StateSentVersion when => lift (err_if (handshake_timeout (timeouts (conf p)) <? saturating_sub now when) UnexpectedMessage)
  | _ => mret tt
  end.
(** The body of the loop. *)
Definition loop_body (mempool : MP) (now unix nonce : Z) (e : LoopEvent) : M LoopControl :=
  _ ← handle_event mempool now unix nonce e;
  p ← gets Ok;
  if shutdown p then mret Break
  else
    _ ← check_ping now nonce;
    p ← gets Ok;
    let msg_sec := checked_div_or_zero (messages p) (saturating_sub now (start_time (conf p))) in
    _ ← lift (err_if (MAX_MSGS_PER_SEC <? msg_sec) TooManyMessages);
    _ ← check_handshake now;
    mret Continue.

(** [create_peer] and the start of the loop. *)
Definition create_peer (c : PeerConf) (w : WriteTransport) : Peer :=
  mkPeerTask c (mkInfo NONE 0 EmptyString false (-1)) StateNone 0 (start_time c) (start_time c - ADDRV2_MESSAGE_INTERVAL)
    (start_time c - INV_MESSAGE_INTERVAL) None false false false [] w false.
Definition peer_start (now unix nonce : Z) : M unit :=
  p ← gets Ok;
  _ ← write (build_version_message unix nonce (our_user_agent (conf p)) (our_best_block (conf p)) (pc_address (conf p)));
  modify (set_pt_state (StateSentVersion now)).
(** The end of [read_loop], when the loop has returned. *)
Definition close_peer (now : Z) (p : Peer) : Peer :=
  let p := send_to_node (MsgDisconnected (la_id (pc_address (conf p)))) now p in
  set_cancelled (set_writer (transport_shutdown (writer p)) p).

(** A run up to an instant: the state after the start, and after every round
    of the loop that goes on.  Between two rounds the other side may stop to
    read. *)
Inductive peer_reachable (c : PeerConf) (w : WriteTransport) : Z -> Peer -> Prop :=
  | PeerStart now unix nonce p : start_time c <= now -> peer_start now unix nonce (create_peer c w) = (Ok tt, p) ->
      peer_reachable c w now p
  | PeerNext now p now' mempool unix nonce e p' : peer_reachable c w now p -> now <= now' ->
      loop_body mempool now' unix nonce e p = (Ok Continue, p') -> peer_reachable c w now' p'
  | PeerWriter now p w' : peer_reachable c w now p -> peer_reachable c w now (set_writer w' p).
(** The end of the task, unless it panics. *)
Inductive peer_ends (c : PeerConf) (w : WriteTransport) : outcome PeerError unit -> Peer -> Prop :=
  | PeerNoStart now unix nonce e p : start_time c <= now -> peer_start now unix nonce (create_peer c w) = (Err e, p) ->
      peer_ends c w (Err e) (close_peer now p)
  | PeerStops now p now' mempool unix nonce e p' : peer_reachable c w now p -> now <= now' ->
      loop_body mempool now' unix nonce e p = (Ok Break, p') -> peer_ends c w (Ok tt) (close_peer now' p')
  | PeerFails now p now' mempool unix nonce e err p' : peer_reachable c w now p -> now <= now' ->
      loop_body mempool now' unix nonce e p = (Err err, p') -> peer_ends c w (Err err) (close_peer now' p').
End PeerTask.
