(* ===== verification/PeerFacts.v ===== *)
(** The task of a connection: nothing reaches the node before the handshake is
    done, what a peer can make the node do is bounded in time, and a silent
    peer is dropped. *)

From stdpp Require Import base gmap list strings.
From Stdlib Require Import ZArith Lia.
From S2P Require Import Prelude Bitcoin Errors Codec Sigops Udata Filters BlockProof Text Onion SocketAddr AddressMan Node SyncNode.
From S2P Require Import NetMessage Transport PeerTask.

Section PeerFacts.
Context `{HashLib, UtreexoLib} `{RawLib} `{!NetAddressBuild}.
Context {MP : Type} (get_from_mempool : MP -> Txid -> option Transaction).
Abbreviation M := (stm Peer PeerError) (only parsing).

(** * What the messages to the node may be *)

(** A notification of a peer that is done with the handshake. *)
Definition ordinary (id : PeerId) (n : NodeNotification) : Prop :=
  match n with
  | FromPeer id' (MsgReady _ | MsgDisconnected _) _ => False
  | FromPeer id' (MsgAddr addresses) _ => id' = id /\ (length addresses <= MAX_ADDRV2_ADDRESSES)%nat
  | FromPeer id' _ _ => id' = id
  | _ => False
  end.
Definition is_addr (n : NodeNotification) : bool := match n with FromPeer _ (MsgAddr _) _ => true | _ => false end.
Definition is_new_block (n : NodeNotification) : bool := match n with FromPeer _ (MsgNewBlock _) _ => true | _ => false end.
Definition count (f : NodeNotification -> bool) (l : list NodeNotification) : Z := Z.of_nat (length (List.filter f l)).

Lemma count_app f l1 l2 : count f (l1 ++ l2) = count f l1 + count f l2.
Proof. unfold count. rewrite List.filter_app, length_app. lia. Qed.
Lemma count_nonneg f l : 0 <= count f l.
Proof. unfold count. lia. Qed.

(** * Steps that tell the node nothing *)

Record silent (p p' : Peer) : Prop := {
  si_conf : conf p' = conf p;
  si_info : info p' = info p;
  si_state : pt_state p' = pt_state p;
  si_tx : node_tx p' = node_tx p;
  si_addr : last_addrv2 p' = last_addrv2 p;
  si_inv : last_inv p' = last_inv p
}.
#[local] Instance silent_refl : Reflexive silent.
Proof. by intros p; split. Qed.
#[local] Instance silent_trans : Transitive silent.
Proof. intros p q r [] []. split; congruence. Qed.

(** ** Steps of a connected peer *)

(** The limits on addresses and on announcements, as potentials that no step
    raises. *)
Definition addr_potential (p : Peer) : Z := ADDRV2_MESSAGE_INTERVAL * count is_addr (node_tx p) - last_addrv2 p.
Definition inv_potential (p : Peer) : Z := INV_MESSAGE_INTERVAL * count is_new_block (node_tx p) - (MAX_BLOCKS_PER_INV - 1) * last_inv p.

Record effect (now : Z) (p p' : Peer) : Prop := {
  ef_conf : conf p' = conf p;
  ef_info : info p' = info p;
  ef_state : pt_state p' = pt_state p;
  ef_tx : exists l, node_tx p' = node_tx p ++ l /\ Forall (ordinary (pc_id (conf p))) l;
  ef_addr : last_addrv2 p <= now -> addr_potential p' <= addr_potential p /\ last_addrv2 p' <= now;
  ef_inv : last_inv p <= now -> inv_potential p' <= inv_potential p /\ last_inv p' <= now
}.
Lemma silent_effect now p p' : silent p p' -> effect now p p'.
Proof.
  intros []. split; try done.
  - exists []. by rewrite app_nil_r.
  - unfold addr_potential. rewrite si_tx0, si_addr0. lia.
  - unfold inv_potential. rewrite si_tx0, si_inv0. lia.
Qed.
#[local] Instance effect_refl now : Reflexive (effect now).
Proof. intros p. by apply silent_effect. Qed.
#[local] Instance effect_trans now : Transitive (effect now).
Proof.
  intros p q r [] []. split; try congruence.
  - destruct ef_tx0 as (l1 & E1 & F1), ef_tx1 as (l2 & E2 & F2). exists (l1 ++ l2). rewrite E2, E1, app_assoc. split; [done|].
    apply Forall_app. rewrite ef_conf0 in F2. done.
  - intros Hn. destruct (ef_addr0 Hn) as [Ha Hb]. destruct (ef_addr1 Hb). lia.
  - intros Hn. destruct (ef_inv0 Hn) as [Ha Hb]. destruct (ef_inv1 Hb). lia.
Qed.

(** A computation that relates the states before and after it. *)
Definition does {A} (R : Peer -> Peer -> Prop) (m : M A) : Prop := forall p o p', m p = (o, p') -> R p p'.

Section Does.
Context (R : Peer -> Peer -> Prop) `{!Reflexive R, !Transitive R}.
Lemma does_ret {A} (a : A) : does R (mret a : M A).
Proof. by intros p o p' [= <- <-]. Qed.
Lemma does_lift {A} (o : outcome PeerError A) : does R (lift o : M A).
Proof. by intros p o' p' [= <- <-]. Qed.
Lemma does_gets {A} (f : Peer -> outcome PeerError A) : does R (gets f : M A).
Proof. by intros p o p' [= <- <-]. Qed.
Lemma does_bind {A B} (m : M A) (f : A -> M B) : does R m -> (forall a, does R (f a)) -> does R (m ≫= f).
Proof.
  intros Hm Hf p o p' E. apply stm_bind_cases in E as [(a & p1 & E1 & E2)|(o' & E1 & _)]; [|by eapply Hm].
  transitivity p1; [by eapply Hm|by eapply Hf].
Qed.
Lemma does_modify (f : Peer -> Peer) : (forall p, R p (f p)) -> does R (modify f : M unit).
Proof. by intros Hf p o p' [= <- <-]. Qed.
End Does.
Lemma does_effect {A} now (m : M A) : does silent m -> does (effect now) m.
Proof. intros Hm p o p' E. by eapply silent_effect, Hm. Qed.

Lemma silent_write msg : does silent (write msg).
Proof. intros p o p' E. unfold write in E. destruct (write_message msg (writer p)). by injection E as <- <-. Qed.
Lemma silent_try_write msg : does silent (try_write msg).
Proof.
  intros p o p' E. unfold try_write in E. destruct (write msg p) as [o1 p1] eqn:E1. apply silent_write in E1.
  destruct o1; by injection E as <- <-.
Qed.

(** Walks through a computation. *)
Create HintDb peer discriminated.
Hint Resolve silent_write silent_try_write : peer.
Hint Extern 5 (does (effect _) _) => apply does_effect : peer.
Ltac does1 :=
  match goal with
  | |- does _ (mret _) => apply does_ret; apply _
  | |- does _ (lift _) => apply does_lift; apply _
  | |- does _ (gets _) => apply does_gets; apply _
  | |- does _ (modify _) => apply does_modify; [intros ?; try (by (apply silent_effect + idtac); split)]
  | |- does _ (_ ≫= _) => apply does_bind; [apply _|..|intros ?]
  | |- does _ (if ?b then _ else _) => destruct b eqn:?
  | |- does _ (match ?x with _ => _ end) => destruct x eqn:?
  end.
Ltac does_all := repeat (first [does1 | solve [auto with peer]]).

Lemma silent_ping now nonce : does silent (send_ping now nonce).
Proof. unfold send_ping. does_all. Qed.
Hint Resolve silent_ping : peer.
Lemma silent_check_ping now nonce : does silent (check_ping now nonce).
Proof. unfold check_ping. does_all. Qed.
Lemma silent_check_handshake now : does silent (check_handshake now).
Proof. unfold check_handshake. does_all. Qed.
Hint Resolve silent_check_ping silent_check_handshake : peer.
Lemma silent_node_request now nonce r : does silent (handle_node_request now nonce r).
Proof. unfold handle_node_request. does_all. Qed.
Lemma silent_get_data mp inv : does silent (get_data_loop get_from_mempool mp inv).
Proof. induction inv as [|x inv IH]; cbn [get_data_loop]; unfold handle_get_data; does_all. Qed.
Hint Resolve silent_node_request silent_get_data : peer.

(** ** Notifications *)

Lemma effect_tell now msg time p : ordinary (pc_id (conf p)) (FromPeer (pc_id (conf p)) msg time) ->
  is_addr (FromPeer 0 msg 0) = false -> is_new_block (FromPeer 0 msg 0) = false -> effect now p (send_to_node msg time p).
Proof.
  intros Ho Ha Hb. split; try done.
  - exists [FromPeer (pc_id (conf p)) msg time]. split; [done|]. by constructor.
  - intros Hn. unfold addr_potential. cbn [node_tx send_to_node set_node_tx last_addrv2]. rewrite count_app.
    assert (count is_addr [FromPeer (pc_id (conf p)) msg time] = 0) as -> by (by destruct msg). lia.
  - intros Hn. unfold inv_potential. cbn [node_tx send_to_node set_node_tx last_inv]. rewrite count_app.
    assert (count is_new_block [FromPeer (pc_id (conf p)) msg time] = 0) as -> by (by destruct msg). lia.
Qed.
Lemma does_tell now msg time : (forall id, ordinary id (FromPeer id msg time)) ->
  is_addr (FromPeer 0 msg 0) = false -> is_new_block (FromPeer 0 msg 0) = false -> does (effect now) (tell msg time).
Proof. intros Ho Ha Hb p o p' [= <- <-]. by apply effect_tell. Qed.
Hint Extern 3 (does (effect _) (tell _ _)) => apply does_tell; [intros ?; reflexivity|reflexivity..] : peer.

Lemma effect_not_found now time inv : does (effect now) (not_found_loop time inv).
Proof. induction inv as [|x inv IH]; cbn [not_found_loop]; does_all. Qed.

(** The announcements of one inventory. *)
Lemma inv_loop_tells time inv : forall k p o p', 0 <= k <= MAX_BLOCKS_PER_INV - 1 -> inv_loop time k inv p = (o, p') ->
  exists l, p' = set_node_tx (node_tx p ++ l) p /\ Forall (ordinary (pc_id (conf p))) l /\ count is_addr l = 0 /\
    count is_new_block l <= MAX_BLOCKS_PER_INV - 1 - k.
Proof.
  assert (Hsame : forall p, p = set_node_tx (node_tx p ++ []) p) by (intros []; unfold set_node_tx; cbn; by rewrite app_nil_r).
  assert (Hnil : forall k, 0 <= k <= MAX_BLOCKS_PER_INV - 1 -> count is_new_block [] <= MAX_BLOCKS_PER_INV - 1 - k) by (unfold count; cbn; lia).
  induction inv as [|x inv IH]; intros k p o p' Hk E; cbn [inv_loop] in E.
  { injection E as <- <-. exists []. auto. }
  assert (Hblock : forall b,
    (_ ← lift (err_if (MAX_BLOCKS_PER_INV <=? k + 1) MessageTooBig); _ ← tell (MsgNewBlock b) time; inv_loop time (k + 1) inv) p = (o, p') ->
    exists l, p' = set_node_tx (node_tx p ++ l) p /\ Forall (ordinary (pc_id (conf p))) l /\ count is_addr l = 0 /\
      count is_new_block l <= MAX_BLOCKS_PER_INV - 1 - k).
  { intros b Eb. unfold mbind, stm_bind, lift, err_if, tell, modify in Eb. destruct (Z.leb_spec MAX_BLOCKS_PER_INV (k + 1)) as [|Hlt].
    - injection Eb as <- <-. exists []. auto.
    - apply IH in Eb as (l & -> & Hl & Ha & Hb); [|lia]. exists (FromPeer (pc_id (conf p)) (MsgNewBlock b) time :: l).
      split_and!; [unfold set_node_tx, send_to_node; cbn; by rewrite <-app_assoc|by constructor|by cbn|].
      unfold count in *. cbn [List.filter is_new_block length]. lia. }
  destruct x; eauto.
Qed.
Lemma effect_inv now time inv : does (effect now) (handle_inv_message now time inv).
Proof.
  intros p o p' E. unfold handle_inv_message, mbind, stm_bind, gets, modify in E. unfold saturating_sub in E.
  destruct (Z.ltb_spec (Z.max 0 (now - last_inv p)) INV_MESSAGE_INTERVAL) as [|Hlate]; [by injection E as <- <-|].
  apply inv_loop_tells in E as (l & -> & Hl & Ha & Hb); [|unfold MAX_BLOCKS_PER_INV; lia]. split; try done.
  - by exists l.
  - intros Hn. unfold addr_potential. cbn. rewrite count_app, Ha. lia.
  - intros Hn. unfold inv_potential. cbn -[INV_MESSAGE_INTERVAL MAX_BLOCKS_PER_INV]. rewrite count_app.
    unfold INV_MESSAGE_INTERVAL, MAX_BLOCKS_PER_INV in *. lia.
Qed.
Lemma effect_addrv2 now time l : does (effect now) (handle_addrv2 now time l).
Proof.
  intros p o p' E. unfold handle_addrv2, mbind, stm_bind, gets, modify, lift, err_if in E.
  destruct (Nat.ltb_spec MAX_ADDRV2_ADDRESSES (length l)) as [|Hlen]; [by injection E as <- <-|]. unfold saturating_sub in E.
  destruct (Z.ltb_spec (Z.max 0 (now - last_addrv2 p)) ADDRV2_MESSAGE_INTERVAL) as [|Hlate]; injection E as <- <-; split; try done.
  - exists []. by rewrite app_nil_r.
  - intros Hn. unfold addr_potential. cbn -[ADDRV2_MESSAGE_INTERVAL]. lia.
  - exists [FromPeer (pc_id (conf p)) (MsgAddr l) time]. split; [done|]. by constructor.
  - intros Hn. unfold addr_potential. cbn -[ADDRV2_MESSAGE_INTERVAL]. rewrite count_app.
    change (count is_addr [_]) with 1. unfold ADDRV2_MESSAGE_INTERVAL in *. lia.
  - intros Hn. unfold inv_potential. cbn -[INV_MESSAGE_INTERVAL MAX_BLOCKS_PER_INV]. rewrite count_app.
    change (count is_new_block [_]) with 0. lia.
Qed.
Hint Resolve effect_not_found effect_inv effect_addrv2 : peer.
Lemma effect_connected mp now time msg : does (effect now) (handle_connected get_from_mempool mp now time msg).
Proof.
  unfold handle_connected, handle_unknown, handle_cfilter, handle_cfheaders_message. does_all.
Qed.

(** * The invariant of a connection *)

Record peer_inv (c : PeerConf) (now : Z) (p : Peer) : Prop := {
  pv_conf : conf p = c;
  pv_before : pt_state p <> StateConnected -> node_tx p = [];
  pv_after : pt_state p = StateConnected -> exists t rest,
    node_tx p = FromPeer (pc_id c) (MsgReady (ready_version p)) t :: rest /\ Forall (ordinary (pc_id c)) rest;
  pv_addr : addr_potential p <= ADDRV2_MESSAGE_INTERVAL - start_time c /\ last_addrv2 p <= now;
  pv_inv : inv_potential p <= (MAX_BLOCKS_PER_INV - 1) * (INV_MESSAGE_INTERVAL - start_time c) /\ last_inv p <= now
}.
Lemma inv_later c now now' p : peer_inv c now p -> now <= now' -> peer_inv c now' p.
Proof. intros []. split; try done; lia. Qed.
Lemma inv_silent c now p p' : peer_inv c now p -> silent p p' -> peer_inv c now p'.
Proof.
  intros [] []. split; unfold addr_potential, inv_potential, ready_version in *; rewrite ?si_conf0, ?si_info0, ?si_state0, ?si_tx0, ?si_addr0, ?si_inv0; done.
Qed.
Lemma inv_effect c now p p' : peer_inv c now p -> pt_state p = StateConnected -> effect now p p' -> peer_inv c now p'.
Proof.
  intros [] Hst []. destruct (ef_addr0 (proj2 pv_addr0)), (ef_inv0 (proj2 pv_inv0)). split; try lia.
  - congruence.
  - rewrite ef_state0. by intros ?.
  - intros _. destruct (pv_after0 Hst) as (t & rest & E & F), ef_tx0 as (l & El & Fl). exists t, (rest ++ l).
    unfold ready_version in *. rewrite ef_conf0, ef_info0, El, E. split; [done|]. apply Forall_app. by rewrite pv_conf0 in Fl.
Qed.

(** A message during the handshake. *)
Lemma version_inv c now unix v p o p' : peer_inv c now p -> pt_state p <> StateConnected ->
  handle_version unix v p = (o, p') -> peer_inv c now p'.
Proof.
  intros Hp Hst E. set (p1 := set_info (mkInfo (vm_services v) (i64_saturating_sub (vm_timestamp v) unix) (vm_user_agent v)
    (negb (vm_relay v)) (vm_start_height v)) p).
  assert (Hp1 : peer_inv c now p1) by (by destruct Hp; split). unfold handle_version in E.
  apply stm_bind_cases in E as [([] & p2 & [= <-] & E)|(o' & [= <- <-] & _)]; [|done]. fold p1 in E.
  apply stm_bind_cases in E as [(x & p2 & E1 & E)|(o' & E1 & _)].
  - assert (Hs : silent p1 p2).
    { destruct (PROTOCOL_VERSION <=? vm_version v); [by eapply silent_write|by injection E1 as <- <-]. }
    apply stm_bind_cases in E as [([] & p3 & [= <-] & E)|(o' & [= <- <-] & _)].
    + apply silent_write in E. apply (inv_silent c now (set_pt_state StateSentVerack p2)); [|done].
      destruct (inv_silent _ _ _ _ Hp1 Hs). split; try done. intros _. apply pv_before0. by rewrite (si_state _ _ Hs).
    + destruct (inv_silent _ _ _ _ Hp1 Hs). split; try done. intros _. apply pv_before0. by rewrite (si_state _ _ Hs).
  - apply (inv_silent c now p1); [done|]. destruct (PROTOCOL_VERSION <=? vm_version v); [by eapply silent_write|by injection E1 as <- <-].
Qed.
Lemma verack_inv c now time msg p o p' : peer_inv c now p -> pt_state p <> StateConnected ->
  handle_verack_state time msg p = (o, p') -> peer_inv c now p'.
Proof.
  intros Hp Hst E. unfold handle_verack_state in E.
  destruct msg; try (by injection E as <- <-); try (injection E as <- <-; destruct Hp; by split).
  injection E as <- <-. destruct Hp. pose proof (pv_before0 Hst) as Htx. split; try done.
  - intros _. exists time, []. unfold send_to_node. cbn. by rewrite Htx, pv_conf0.
  - unfold addr_potential in *. cbn in *. rewrite Htx in *. exact pv_addr0.
  - unfold inv_potential in *. cbn in *. rewrite Htx in *. exact pv_inv0.
Qed.
Lemma message_inv c mp now unix msg time p o p' : peer_inv c now p ->
  handle_peer_message get_from_mempool mp now unix msg time p = (o, p') -> peer_inv c now p'.
Proof.
  intros Hp E. unfold handle_peer_message in E. unfold mbind at 1, stm_bind at 1, modify at 1 in E.
  unfold mbind at 1, stm_bind at 1, gets at 1 in E. set (p1 := set_last_message time p) in *.
  assert (Hp1 : peer_inv c now p1) by (by apply (inv_silent c now p)).
  apply stm_bind_cases in E as [(k & p2 & E1 & E)|(o' & E1 & _)]; unfold lift in E1; injection E1 as E1 <-; [|done].
  unfold mbind at 1, stm_bind at 1, modify at 1 in E. set (p2 := set_messages k p1) in *.
  assert (Hp2 : peer_inv c now p2) by (by apply (inv_silent c now p1)). change (pt_state p1) with (pt_state p2) in E.
  destruct (pt_state p2) eqn:Hst.
  - destruct msg; try (by injection E as <- <-). eapply version_inv; [exact Hp2|by rewrite Hst|exact E].
  - destruct msg; try (by injection E as <- <-). eapply version_inv; [exact Hp2|by rewrite Hst|exact E].
  - eapply verack_inv; [exact Hp2|by rewrite Hst|exact E].
  - eapply inv_effect; [exact Hp2|done|]. by eapply effect_connected.
Qed.
Lemma event_inv c mp now unix nonce e p o p' : peer_inv c now p ->
  handle_event get_from_mempool mp now unix nonce e p = (o, p') -> peer_inv c now p'.
Proof.
  intros Hp E. destruct e as [|r| |msg time|err|]; cbn [handle_event] in E; try (by injection E as <- <-).
  - eapply inv_silent; [exact Hp|]. by eapply silent_node_request.
  - by eapply message_inv.
Qed.
Lemma body_inv c mp now unix nonce e p o p' : peer_inv c now p ->
  loop_body get_from_mempool mp now unix nonce e p = (o, p') -> peer_inv c now p'.
Proof.
  intros Hp E. unfold loop_body in E. apply stm_bind_cases in E as [(x & p1 & E1 & E)|(o' & E1 & _)]; [|by eapply event_inv].
  eapply inv_silent; [by eapply event_inv|]. revert E. generalize p1, o, p'.
  match goal with |- forall p o p', ?m p = (o, p') -> _ => change (does silent m) end. does_all.
Qed.
Lemma start_inv c w now unix nonce o p : start_time c <= now -> peer_start now unix nonce (create_peer c w) = (o, p) -> peer_inv c now p.
Proof.
  intros Hn E. assert (Hp : peer_inv c now (create_peer c w)).
  { split; try done; unfold addr_potential, inv_potential, create_peer, count, MAX_BLOCKS_PER_INV, ADDRV2_MESSAGE_INTERVAL, INV_MESSAGE_INTERVAL;
      cbn -[Z.mul Z.sub]; lia. }
  unfold peer_start in E. unfold mbind at 1, stm_bind at 1, gets in E.
  apply stm_bind_cases in E as [([] & p1 & E1%silent_write & [= <- <-])|(o' & E1%silent_write & _)]; [|by eapply inv_silent].
  destruct (inv_silent _ _ _ _ Hp E1). split; try done. intros _. apply pv_before0. by rewrite (si_state _ _ E1).
Qed.
Lemma peer_reachable_inv c w now p : peer_reachable get_from_mempool c w now p -> start_time c <= now /\ peer_inv c now p.
Proof.
  induction 1 as [now unix nonce p Hn E|now p now' mp unix nonce e p' _ [Hs Hp] Hn E|now p w' _ [Hs Hp]].
  - split; [done|]. by eapply start_inv.
  - split; [lia|]. eapply body_inv; [|exact E]. by eapply inv_later.
  - split; [done|]. by eapply inv_silent.
Qed.

(** * Silence *)

Record same_clocks (p p' : Peer) : Prop := {
  sc_conf : conf p' = conf p;
  sc_message : last_message p' = last_message p;
  sc_ping : last_ping p' = last_ping p
}.
#[local] Instance same_clocks_refl : Reflexive same_clocks.
Proof. by intros p; split. Qed.
#[local] Instance same_clocks_trans : Transitive same_clocks.
Proof. intros p q r [] []. split; congruence. Qed.
Lemma clocks_write msg : does same_clocks (write msg).
Proof. intros p o p' E. unfold write in E. destruct (write_message msg (writer p)). by injection E as <- <-. Qed.
Lemma clocks_try_write msg : does same_clocks (try_write msg).
Proof.
  intros p o p' E. unfold try_write in E. destruct (write msg p) as [o1 p1] eqn:E1. apply clocks_write in E1.
  destruct o1; by injection E as <- <-.
Qed.
Hint Resolve clocks_write clocks_try_write : peer.

(** A round in which nothing comes from the peer, and the node sends no ping. *)
Definition nothing_received (e : LoopEvent) : Prop :=
  match e with PollTimeout => True | NodeAsks Ping => False | NodeAsks _ => True | _ => False end.
Lemma clocks_event mp now unix nonce e : nothing_received e -> does same_clocks (handle_event get_from_mempool mp now unix nonce e).
Proof.
  intros He. destruct e as [|r| | | |]; try done; cbn [handle_event]; [does_all|].
  unfold handle_node_request. destruct r; try done; does_all.
Qed.
Lemma clocks_handshake now : does same_clocks (check_handshake now).
Proof. unfold check_handshake. does_all. Qed.

Lemma check_ping_clocks now nonce p o p' : check_ping now nonce p = (Ok o, p') ->
  conf p' = conf p /\ last_message p' = last_message p /\
  match last_ping p with
  | Some w => now - w <= ping_timeout (timeouts (conf p)) \/ ping_timeout (timeouts (conf p)) < 0
  | None => True
  end /\
  last_ping p' = match last_ping p with
                 | Some w => Some w
                 | None => if send_ping_timeout (timeouts (conf p)) <? saturating_sub now (last_message p) then Some now else None
                 end.
Proof.
  intros E. unfold check_ping in E. unfold mbind at 1, stm_bind at 1, gets at 1 in E.
  apply stm_bind_ok in E as ([] & p1 & E1 & E). unfold lift in E1. injection E1 as E1 <-.
  destruct (last_ping p) as [w|] eqn:Hw.
  - rewrite bool_decide_eq_false_2, andb_false_r in E by done. injection E as _ <-. rewrite Hw. split_and!; try done.
    unfold err_if, saturating_sub in E1. destruct (Z.ltb_spec (ping_timeout (timeouts (conf p))) (Z.max 0 (now - w))); [done|lia].
  - rewrite bool_decide_eq_true_2, andb_true_r in E by done.
    destruct (_ <? _); [|by injection E as _ <-]. unfold send_ping in E.
    apply stm_bind_ok in E as ([] & p2 & [= <-] & E). destruct (clocks_write _ _ _ _ E). cbn in *. by rewrite sc_conf0.
Qed.

(** The clocks after a silent round that goes on. *)
Lemma quiet_round mp now unix nonce e p p' : nothing_received e ->
  loop_body get_from_mempool mp now unix nonce e p = (Ok Continue, p') ->
  conf p' = conf p /\ last_message p' = last_message p /\
  match last_ping p with
  | Some w => now - w <= ping_timeout (timeouts (conf p)) \/ ping_timeout (timeouts (conf p)) < 0
  | None => True
  end /\
  last_ping p' = match last_ping p with
                 | Some w => Some w
                 | None => if send_ping_timeout (timeouts (conf p)) <? saturating_sub now (last_message p) then Some now else None
                 end.
Proof.
  intros He E. unfold loop_body in E. apply stm_bind_ok in E as (x & p1 & E1 & E). destruct (clocks_event _ _ _ _ _ He _ _ _ E1) as [Ec Em Ep].
  unfold mbind at 1, stm_bind at 1, gets at 1 in E. destruct (shutdown p1); [done|].
  apply stm_bind_ok in E as (y & p2 & E2%check_ping_clocks & E). unfold mbind at 1, stm_bind at 1, gets at 1 in E.
  apply stm_bind_ok in E as (z & p3 & [= _ <-] & E). apply stm_bind_ok in E as (v & p4 & E4%clocks_handshake & [= <-]).
  destruct E4 as [Ec4 Em4 Ep4]. rewrite Ec4, Em4, Ep4. rewrite Ec, Em, Ep in E2. exact E2.
Qed.

(** Rounds without a message of the peer, at most [gap] apart. *)
Inductive quiet_run (gap : Z) : Z -> Peer -> Z -> Peer -> Prop :=
  | QuietNow now p : quiet_run gap now p now p
  | QuietRound now p now1 mp unix nonce e p1 now2 p2 : nothing_received e -> now <= now1 <= now + gap ->
      loop_body get_from_mempool mp now1 unix nonce e p = (Ok Continue, p1) -> quiet_run gap now1 p1 now2 p2 ->
      quiet_run gap now p now2 p2.

Lemma quiet_bound gap bound : forall now p now' p', 0 <= gap -> quiet_run gap now p now' p' ->
  0 <= ping_timeout (timeouts (conf p)) ->
  last_message p + send_ping_timeout (timeouts (conf p)) <= bound ->
  match last_ping p with
  | Some w => w <= bound + gap /\ now <= bound + gap + ping_timeout (timeouts (conf p))
  | None => now <= bound
  end ->
  now' <= bound + gap + ping_timeout (timeouts (conf p)).
Proof.
  intros now p now' p' Hg. induction 1 as [now p|now p now1 mp unix nonce e p1 now2 p2 He Hn E _ IH]; intros Ht Hb Hp.
  - destruct (last_ping p); lia.
  - destruct (quiet_round _ _ _ _ _ _ _ He E) as (Ec & Em & Hping & Ep). rewrite Ec, Em, Ep in IH. apply IH; [done|done|].
    destruct (last_ping p) as [w|]; [lia|]. unfold saturating_sub.
    destruct (Z.ltb_spec (send_ping_timeout (timeouts (conf p))) (Z.max 0 (now1 - last_message p))); lia.
Qed.

(** * Theorems *)

(** ** What the version message said *)

(** A round of the loop: nothing is learnt, the version message is heard, or
    the verack ends the handshake. *)
Definition info_of (unix : Z) (v : VersionMessage) : VersionInfo :=
  mkInfo (vm_services v) (i64_saturating_sub (vm_timestamp v) unix) (vm_user_agent v) (negb (vm_relay v)) (vm_start_height v).
Definition early (p : Peer) : Prop := pt_state p <> StateSentVerack /\ pt_state p <> StateConnected.
Inductive learns (unix : Z) (e : LoopEvent) (p p' : Peer) : Prop :=
  | LearnsNothing : pt_state p' = pt_state p -> info p' = info p -> learns unix e p p'
  | LearnsVersion v time : e = ReaderMessage (NetVersion v) time -> early p -> early p' \/ pt_state p' = StateSentVerack ->
      info p' = info_of unix v -> learns unix e p p'
  | LearnsVerack : pt_state p = StateSentVerack -> pt_state p' = StateConnected -> info p' = info p -> learns unix e p p'.
Lemma learns_silent unix e p p1 p' : learns unix e p p1 -> silent p1 p' -> learns unix e p p'.
Proof.
  intros Hl [_ Ei Es _ _ _]. destruct Hl as [L1 L2|v time L1 L2 L3 L4|L1 L2 L3].
  - apply LearnsNothing; congruence.
  - apply (LearnsVersion _ _ _ _ v time); [done|done|unfold early in *; rewrite Es; done|congruence].
  - apply LearnsVerack; congruence.
Qed.
Lemma silent_learns unix e p p' : silent p p' -> learns unix e p p'.
Proof. intros [_ Ei Es _ _ _]. by apply LearnsNothing. Qed.
Lemma version_learns unix v time p o p' : early p -> handle_version unix v p = (o, p') ->
  learns unix (ReaderMessage (NetVersion v) time) p p'.
Proof.
  intros Hst E. set (p1 := set_info (info_of unix v) p). unfold handle_version, mbind at 1, stm_bind at 1, modify at 1 in E.
  fold (info_of unix v) in E. fold p1 in E.
  assert (Hv : forall q q', pt_state q = pt_state p \/ pt_state q = StateSentVerack -> info q = info_of unix v -> silent q q' ->
    learns unix (ReaderMessage (NetVersion v) time) p q').
  { intros q q' Hq Hi Hs. apply (learns_silent _ _ _ q); [|done]. apply (LearnsVersion _ _ _ _ v time); try done.
    destruct Hq as [Hq|Hq]; [left; unfold early; by rewrite Hq|by right]. }
  apply stm_bind_cases in E as [(x & p2 & E1 & E)|(o' & E1 & _)].
  all: assert (Hw : forall x p2, (if PROTOCOL_VERSION <=? vm_version v then write NetSendAddrV2 else mret tt) p1 = (x, p2) -> silent p1 p2)
    by (intros y q Ey; destruct (PROTOCOL_VERSION <=? vm_version v); [by eapply silent_write|by injection Ey as <- <-]).
  all: apply Hw in E1.
  2: { apply (Hv p1); [by left|done|done]. }
  unfold mbind, stm_bind, modify in E. apply silent_write in E. apply (Hv (set_pt_state StateSentVerack p2)); [by right| |done]. exact (si_info _ _ E1).
Qed.
Lemma verack_learns unix time msg p o p' : pt_state p = StateSentVerack ->
  handle_verack_state time msg p = (o, p') -> learns unix (ReaderMessage msg time) p p'.
Proof.
  intros Hst E. unfold handle_verack_state in E. destruct msg; injection E as <- <-; try (by apply LearnsNothing). by apply LearnsVerack.
Qed.
Lemma message_learns mp now unix msg time p o p' :
  handle_peer_message get_from_mempool mp now unix msg time p = (o, p') -> learns unix (ReaderMessage msg time) p p'.
Proof.
  intros E. unfold handle_peer_message in E. unfold mbind at 1, stm_bind at 1, modify at 1 in E.
  unfold mbind at 1, stm_bind at 1, gets at 1 in E. set (p1 := set_last_message time p) in *.
  apply stm_bind_cases in E as [(k & p2 & E1 & E)|(o' & E1 & _)]; unfold lift in E1; injection E1 as E1 <-; [|by apply LearnsNothing].
  unfold mbind at 1, stm_bind at 1, modify at 1 in E. set (p2 := set_messages k p1) in *. change (pt_state p1) with (pt_state p2) in E.
  assert (Hback : learns unix (ReaderMessage msg time) p2 p' -> learns unix (ReaderMessage msg time) p p').
  { intros [L1 L2|v t L1 L2 L3 L4|L1 L2 L3]; [by apply LearnsNothing|by apply (LearnsVersion _ _ _ _ v t)|by apply LearnsVerack]. }
  apply Hback. destruct (pt_state p2) eqn:Hst.
  - destruct msg; try (injection E as <- <-; by apply LearnsNothing). apply (version_learns _ _ _ p2 o); [unfold early; by rewrite Hst|exact E].
  - destruct msg; try (injection E as <- <-; by apply LearnsNothing). apply (version_learns _ _ _ p2 o); [unfold early; by rewrite Hst|exact E].
  - by apply (verack_learns _ _ _ p2 o).
  - destruct (effect_connected _ _ _ _ _ _ _ E) as [_ Ei Es _ _ _]. by apply LearnsNothing.
Qed.
Lemma body_learns mp now unix nonce e p o p' : loop_body get_from_mempool mp now unix nonce e p = (o, p') -> learns unix e p p'.
Proof.
  assert (He : forall o p', handle_event get_from_mempool mp now unix nonce e p = (o, p') -> learns unix e p p').
  { intros o1 p1 E. destruct e as [|r| |msg time|err|]; cbn [handle_event] in E; try (injection E as <- <-; by apply LearnsNothing).
    - apply silent_learns. by eapply silent_node_request.
    - by eapply message_learns. }
  intros E. unfold loop_body in E. apply stm_bind_cases in E as [(x & p1 & E1 & E)|(o' & E1 & _)]; [|by eapply He].
  apply (learns_silent _ _ _ p1); [by eapply He|]. revert E. generalize p1, o, p'.
  match goal with |- forall p o p', ?m p = (o, p') -> _ => change (does silent m) end. does_all.
Qed.

(** The version message of the peer, heard in an earlier round of the run, when
    the clock of the node said [unix]. *)
Inductive heard (c : PeerConf) (w : WriteTransport) (unix : Z) (v : VersionMessage) : Z -> Peer -> Prop :=
  | HeardNow now p now' mp nonce time p' : peer_reachable get_from_mempool c w now p -> early p -> now <= now' ->
      loop_body get_from_mempool mp now' unix nonce (ReaderMessage (NetVersion v) time) p = (Ok Continue, p') -> heard c w unix v now' p'
  | HeardBefore now p now' mp unix' nonce e p' : heard c w unix v now p -> now <= now' ->
      loop_body get_from_mempool mp now' unix' nonce e p = (Ok Continue, p') -> heard c w unix v now' p'
  | HeardWriter now p w' : heard c w unix v now p -> heard c w unix v now (set_writer w' p).
(** What [Ready] says when that was the version message: the protocol version
    is always 0, and the height loses its sign. *)
Definition version_of (c : PeerConf) (unix : Z) (v : VersionMessage) : Version :=
  mkVersion (vm_user_agent v) 0 (Z.abs (vm_start_height v)) (pc_id c) (la_id (pc_address c)) (vm_services v)
    (i64_saturating_sub (vm_timestamp v) unix) (pc_kind c) (pc_transport c).

Lemma reachable_heard c w now p : peer_reachable get_from_mempool c w now p -> ~ early p ->
  exists unix v, heard c w unix v now p /\ info p = info_of unix v.
Proof.
  induction 1 as [now unix nonce p Hn E|now p now' mp unix nonce e p' Hr IH Hn E|now p w' _ IH]; intros Hl.
  - destruct Hl. unfold peer_start in E. unfold mbind at 1, stm_bind at 1, gets in E.
    apply stm_bind_ok in E as ([] & p1 & _ & [= <-]). by split.
  - destruct (body_learns _ _ _ _ _ _ _ _ E) as [L1 L2|v time -> L2 L3 L4|L1 L2 L3].
    + destruct IH as (u & v & Hh & Hi); [unfold early in *; by rewrite <-L1|]. exists u, v. split; [by eapply HeardBefore|congruence].
    + exists unix, v. split; [by eapply HeardNow|done].
    + destruct IH as (u & v & Hh & Hi); [intros [? _]; done|]. exists u, v. split; [by eapply HeardBefore|congruence].
  - destruct (IH Hl) as (u & v & Hh & Hi). exists u, v. split; [by apply HeardWriter|done].
Qed.
Lemma connected_heard c w now p : peer_reachable get_from_mempool c w now p -> pt_state p = StateConnected ->
  exists unix v t rest, heard c w unix v now p /\
    node_tx p = FromPeer (pc_id c) (MsgReady (version_of c unix v)) t :: rest /\ Forall (ordinary (pc_id c)) rest.
Proof.
  intros Hr Hc. destruct (reachable_heard c w now p Hr) as (u & v & Hh & Hi); [by intros [_ ?]|].
  destruct (peer_reachable_inv c w now p Hr) as [_ Hp]. destruct (pv_after _ _ _ Hp Hc) as (t & rest & E & F).
  exists u, v, t, rest. split; [done|]. split; [|done]. rewrite E. unfold ready_version, version_of. by rewrite Hi, (pv_conf _ _ _ Hp).
Qed.

(** The notifications of a connection: none, or [Ready] with what the version
    message said, and then those of a peer that is done with the handshake. *)
Definition well_begun (c : PeerConf) (w : WriteTransport) (l : list NodeNotification) : Prop :=
  l = [] \/ exists now p unix v t rest, heard c w unix v now p /\
    l = FromPeer (pc_id c) (MsgReady (version_of c unix v)) t :: rest /\ Forall (ordinary (pc_id c)) rest.
Lemma round_well_begun c w now p now' mp unix nonce e o p' : peer_reachable get_from_mempool c w now p -> now <= now' ->
  loop_body get_from_mempool mp now' unix nonce e p = (o, p') -> conf p' = c /\ well_begun c w (node_tx p').
Proof.
  intros Hr Hn E. destruct (peer_reachable_inv c w now p Hr) as [_ Hp]. pose proof (body_inv _ _ _ _ _ _ _ _ _ (inv_later _ _ now' _ Hp Hn) E) as Hp'.
  split; [by destruct Hp'|]. destruct (decide (pt_state p' = StateConnected)) as [Hc|Hc]; [right|left; by apply (pv_before _ _ _ Hp')].
  destruct (pv_after _ _ _ Hp' Hc) as (t & rest & Et & F).
  assert (Hi : ~ early p /\ info p' = info p).
  { destruct (body_learns _ _ _ _ _ _ _ _ E) as [L1 L2|v time _ L2 [[_ ?]|L3] L4|L1 L2 L3]; [|congruence..|].
    - split; [intros [_ ?]; congruence|done].
    - split; [by intros [? _]|done]. }
  destruct Hi as [Hl Hi]. destruct (reachable_heard c w now p Hr Hl) as (u & v & Hh & Hv). exists now, p, u, v, t, rest. split; [done|].
  split; [|done]. rewrite Et. unfold ready_version, version_of. by rewrite Hi, Hv, (pv_conf _ _ _ Hp').
Qed.

(** C17: Whatever the other side sends and whatever the node asks for, the task of a
    connection tells the node nothing before the handshake is done; then the first
    notification is Ready, with the user agent, the services, the start height (without
    its sign) and the clock offset of a version message that arrived in this or an
    earlier round of the handshake, protocol version 0, and the address, kind and
    transport of the connection; neither Ready nor Disconnected follows while the loop
    runs; and when the task ends without a panic, the last notification is Disconnected,
    after nothing or after such a sequence. *)
Theorem handshake_first (c : PeerConf) (w : WriteTransport) :
  (forall now p, peer_reachable get_from_mempool c w now p ->
     (pt_state p <> StateConnected -> node_tx p = []) /\
     (pt_state p = StateConnected -> exists unix v t rest, heard c w unix v now p /\
        node_tx p = FromPeer (pc_id c) (MsgReady (version_of c unix v)) t :: rest /\ Forall (ordinary (pc_id c)) rest)) /\
  (forall r p, peer_ends get_from_mempool c w r p -> cancelled p = true /\ exists l t,
     node_tx p = l ++ [FromPeer (pc_id c) (MsgDisconnected (la_id (pc_address c))) t] /\ well_begun c w l).
Proof.
  split.
  - intros now p Hr. split; [|by apply connected_heard]. apply peer_reachable_inv in Hr as [_ []]. done.
  - assert (Hend : forall now p, conf p = c /\ well_begun c w (node_tx p) -> cancelled (close_peer now p) = true /\ exists l t,
      node_tx (close_peer now p) = l ++ [FromPeer (pc_id c) (MsgDisconnected (la_id (pc_address c))) t] /\ well_begun c w l).
    { intros now p [Hc Hp]. split; [done|]. exists (node_tx p), now. split; [|done]. cbn. by rewrite Hc. }
    intros r p [now unix nonce e p1 Hn E|now p0 now' mp unix nonce e p1 Hr Hn E|now p0 now' mp unix nonce e err p1 Hr Hn E]; apply Hend.
    + pose proof (start_inv _ _ _ _ _ _ _ Hn E) as []. split; [done|]. left. apply pv_before0. intros Hc.
      unfold peer_start in E. unfold mbind at 1, stm_bind at 1, gets in E.
      apply stm_bind_cases in E as [([] & p2 & _ & [=])|(o' & E1%silent_write & _)]. by rewrite (si_state _ _ E1) in Hc.
    + by eapply round_well_begun.
    + by eapply round_well_begun.
Qed.

(** C18: However fast a peer sends, in every state of its connection the addresses it
    made the node look at came in at most one message per ten seconds, of at most 1000
    addresses each, and the blocks it announced are at most MAX_BLOCKS_PER_INV, 500, per
    thirty seconds, both counted from the start of the connection with one interval in
    advance. *)
Theorem peer_rates_bounded (c : PeerConf) (w : WriteTransport) (now : Z) (p : Peer)
  (Hp : peer_reachable get_from_mempool c w now p) :
  ADDRV2_MESSAGE_INTERVAL * count is_addr (node_tx p) <= now - start_time c + ADDRV2_MESSAGE_INTERVAL /\
  INV_MESSAGE_INTERVAL * count is_new_block (node_tx p) <= MAX_BLOCKS_PER_INV * (now - start_time c + INV_MESSAGE_INTERVAL) /\
  forall addresses t, FromPeer (pc_id c) (MsgAddr addresses) t ∈ node_tx p -> (length addresses <= MAX_ADDRV2_ADDRESSES)%nat.
Proof.
  apply peer_reachable_inv in Hp as [Hs []]. unfold addr_potential, inv_potential, MAX_BLOCKS_PER_INV, INV_MESSAGE_INTERVAL in *. split_and!; [lia|lia|].
  intros addresses t Hin. destruct (decide (pt_state p = StateConnected)) as [Hc|Hc]; [|rewrite pv_before0 in Hin by done; by apply not_elem_of_nil in Hin].
  destruct (pv_after0 Hc) as (t' & rest & E & F). rewrite E in Hin. apply elem_of_cons in Hin as [|Hin]; [done|].
  exact (proj2 (proj1 (Forall_forall _ _) F _ Hin)).
Qed.

(** Rounds to come: the round [k] is due at [rd_time k]; the state before it, if
    all rounds before it go on. *)
Record Round := mkRound { rd_time : Z; rd_mempool : MP; rd_unix : Z; rd_nonce : Z; rd_event : LoopEvent }.
Definition play (r : Round) : M LoopControl := loop_body get_from_mempool (rd_mempool r) (rd_time r) (rd_unix r) (rd_nonce r) (rd_event r).
Fixpoint before_round (rounds : nat -> Round) (p : Peer) (k : nat) : option Peer :=
  match k with
  | O => Some p
  | S k =>
      match before_round rounds p k with
      | Some p => match play (rounds k) p with (Ok Continue, p') => Some p' | _ => None end
      | None => None
      end
  end.
Lemma quiet_run_snoc gap now p now1 p1 now2 mp unix nonce e p2 : quiet_run gap now p now1 p1 -> nothing_received e -> now1 <= now2 <= now1 + gap ->
  loop_body get_from_mempool mp now2 unix nonce e p1 = (Ok Continue, p2) -> quiet_run gap now p now2 p2.
Proof.
  induction 1 as [now p|now p n1 mp1 u1 o1 e1 q1 n2 q2 He Hn E _ IH]; intros He2 Hn2 E2.
  - eapply QuietRound; [exact He2|done|exact E2|]. apply QuietNow.
  - eapply QuietRound; [exact He|exact Hn|exact E|]. by apply IH.
Qed.
Lemma rounds_quiet gap now (p : Peer) rounds : (forall k, nothing_received (rd_event (rounds k))) -> now <= rd_time (rounds 0%nat) <= now + gap ->
  (forall k, rd_time (rounds k) <= rd_time (rounds (S k)) <= rd_time (rounds k) + gap) ->
  forall k p', before_round rounds p (S k) = Some p' -> quiet_run gap now p (rd_time (rounds k)) p'.
Proof.
  intros He Hf Hs. induction k as [|k IH]; intros p'.
  - cbn [before_round]. unfold play. destruct (loop_body _ _ _ _ _ _ p) as [[[]|?| |] p1] eqn:E; try done. intros [= <-].
    eapply QuietRound; [apply He|exact Hf|exact E|]. apply QuietNow.
  - change (before_round rounds p (S (S k))) with (match before_round rounds p (S k) with
      | Some p => match play (rounds (S k)) p with (Ok Continue, p') => Some p' | _ => None end | None => None end).
    destruct (before_round rounds p (S k)) as [p1|] eqn:Eb; [|done]. specialize (IH p1 eq_refl). unfold play.
    destruct (loop_body _ _ _ _ _ _ p1) as [[[]|?| |] p2] eqn:E; try done. intros [= <-]. eapply quiet_run_snoc; [exact IH|apply He|apply Hs|exact E].
Qed.
(** The first round that does not go on. *)
Lemma first_stop rounds p : forall k, before_round rounds p k = None ->
  exists i q o q', (i < k)%nat /\ before_round rounds p i = Some q /\ play (rounds i) q = (o, q') /\ o <> Ok Continue.
Proof.
  induction k as [|k IH]; [done|]. cbn [before_round]. destruct (before_round rounds p k) as [q|] eqn:Eb.
  - destruct (play (rounds k) q) as [o q'] eqn:E. intros Hn. exists k, q, o, q'. split_and!; [lia|done|done|]. intros ->. done.
  - intros _. destruct (IH eq_refl) as (i & q & o & q' & Hi & ?). exists i, q, o, q'. split; [lia|done].
Qed.
(** The first round after an instant. *)
Lemma first_after (f : nat -> Z) (bound : Z) : forall k, bound < f k -> exists i, bound < f i /\ (i <= k)%nat /\ match i with O => True | S j => f j <= bound end.
Proof.
  induction k as [|k IH]; intros Hk; [by exists 0%nat|]. destruct (Z.le_gt_cases (f k) bound) as [Hle|Hgt].
  - by exists (S k).
  - destruct (IH Hgt) as (i & ? & ? & ?). exists i. split_and!; [done|lia|done].
Qed.

(** C19: A connection on which nothing arrives is dropped, whatever the node asks the
    peer for: when the rounds of the loop, which never cease, are at most a given
    interval apart and the node sends no ping of its own, one of them ends the loop, at
    the latest two such intervals and the ping timeout after the moment at which the
    ping was due. *)
Theorem silent_peer_dropped (gap now : Z) (p : Peer) (rounds : nat -> Round) (deadline : Z)
  (Hdeadline : deadline = Z.max now (last_message p + send_ping_timeout (timeouts (conf p))) + gap + ping_timeout (timeouts (conf p)))
  (Hgap : 0 <= gap) (Htimeout : 0 <= ping_timeout (timeouts (conf p))) (Hping : forall w, last_ping p = Some w -> w <= now)
  (Hsilent : forall k, nothing_received (rd_event (rounds k))) (Hfirst : now <= rd_time (rounds 0%nat) <= now + gap)
  (Hnext : forall k, rd_time (rounds k) <= rd_time (rounds (S k)) <= rd_time (rounds k) + gap)
  (Hgo : exists k, deadline < rd_time (rounds k)) :
  exists k q r q', before_round rounds p k = Some q /\ play (rounds k) q = (r, q') /\ r <> Ok Continue /\
    rd_time (rounds k) <= deadline + gap.
Proof.
  destruct Hgo as [k0 Hk0]. destruct (first_after (fun k => rd_time (rounds k)) deadline k0 Hk0) as (k & Hk & _ & Hmin). cbn in *.
  assert (Hle : rd_time (rounds k) <= deadline + gap) by (destruct k as [|j]; [lia|]; specialize (Hnext j); lia).
  assert (Hend : before_round rounds p (S k) = None).
  { destruct (before_round rounds p (S k)) as [q|] eqn:E; [|done]. exfalso.
    apply (rounds_quiet gap now p rounds Hsilent Hfirst Hnext) in E.
    apply (quiet_bound gap (Z.max now (last_message p + send_ping_timeout (timeouts (conf p))))) in E; [lia|done|done|lia|].
    destruct (last_ping p) as [w|]; [|lia]. specialize (Hping w eq_refl). lia. }
  destruct (first_stop rounds p (S k) Hend) as (i & q & o & q' & Hi & Hb & Hplay & Ho). exists i, q, o, q'. split_and!; try done.
  assert (Hmono : forall a b, (a <= b)%nat -> rd_time (rounds a) <= rd_time (rounds b)).
  { intros a b Hab. induction Hab as [|b _ IH]; [lia|]. specialize (Hnext b). lia. }
  specialize (Hmono i k ltac:(lia)). lia.
Qed.

(** ** What goes wrong *)

(** A request that comes before the end of the handshake makes the task panic:
    the node is not told that the peer is gone. *)
Lemma early_request_panics mp now unix nonce request p : pt_state p <> StateConnected ->
  loop_body get_from_mempool mp now unix nonce (NodeAsks request) p = (Panic, p).
Proof.
  intros Hs. unfold loop_body, mbind, stm_bind. cbn [handle_event]. unfold handle_node_request, mbind, stm_bind, gets, lift.
  by rewrite bool_decide_eq_false_2.
Qed.

(** A peer that never sends its verack, but announces its support of addrv2
    again and again, is never dropped for it: the deadline of the handshake
    ends with its version message. *)
Lemma unfinished_handshake_goes_on mp now unix nonce p : pt_state p = StateSentVerack -> shutdown p = false -> last_ping p = None ->
  0 <= send_ping_timeout (timeouts (conf p)) -> messages p < u64_max ->
  checked_div_or_zero (messages p + 1) (saturating_sub now (start_time (conf p))) <= MAX_MSGS_PER_SEC ->
  exists p', loop_body get_from_mempool mp now unix nonce (ReaderMessage NetSendAddrV2 now) p = (Ok Continue, p') /\
    pt_state p' = StateSentVerack /\ shutdown p' = false /\ last_ping p' = None /\ messages p' = messages p + 1 /\ conf p' = conf p.
Proof.
  intros Hs Hsd Hp Ht Hm Hr. set (p1 := set_wants_addrv2 (set_messages (messages p + 1) (set_last_message now p))). exists p1.
  split; [|by cbn]. unfold loop_body. cbn [handle_event].
  assert (E : handle_peer_message get_from_mempool mp now unix NetSendAddrV2 now p = (Ok tt, p1)).
  { unfold handle_peer_message, mbind, stm_bind, modify, gets, lift. cbn [messages set_last_message]. unfold u64_add.
    rewrite (proj2 (Z.leb_le _ _)) by lia. cbn [pt_state set_last_message set_messages]. by rewrite Hs. }
  unfold mbind at 1, stm_bind at 1. rewrite E. unfold mbind at 1, stm_bind at 1, gets at 1. change (shutdown p1) with (shutdown p). rewrite Hsd.
  assert (Ec : check_ping now nonce p1 = (Ok tt, p1)).
  { unfold check_ping, mbind, stm_bind, gets, lift. change (last_ping p1) with (last_ping p). rewrite Hp.
    change (last_message p1) with now. unfold saturating_sub. rewrite (proj2 (Z.ltb_ge _ _)); [done|]. cbn. lia. }
  unfold mbind at 1, stm_bind at 1. rewrite Ec. unfold mbind, stm_bind, gets, lift, err_if.
  change (messages p1) with (messages p + 1). change (conf p1) with (conf p). rewrite (proj2 (Z.ltb_ge _ _)) by done.
  unfold check_handshake, mbind, stm_bind, gets. change (pt_state p1) with (pt_state p). by rewrite Hs.
Qed.
End PeerFacts.
