(* ===== verification/SelectNode.v ===== *)
(** The node while it selects the best chain of headers
    ([src/crates/floresta-wire/src/p2p_wire/node/chain_selector_ctx.rs]): the
    download of headers, the comparison of the tips of all peers, and the
    cut-and-choose protocol that finds the accumulator of a block when peers
    disagree.  The loop of [run] is the relation [select_step]. *)

From stdpp Require Import base gmap list strings.
From Stdlib Require Import ZArith Lia.
From S2P Require Import Prelude Bitcoin Errors Codec Merkle Sigops Udata ChainQuery Filters BlockProof Text Onion SocketAddr.
From S2P Require Import Mempool AddressMan Node NodeBlocks NodePeers NodeConn SyncNode.

(** [ChainSelectorState]. *)
Inductive ChainSelectorState :=
  | CreatingConnections
  | DownloadingHeaders
  | LookingForForks (start : Z)
  | SelectDone.
#[export] Instance ChainSelectorState_eq_dec : EqDecision ChainSelectorState.
Proof. solve_decision. Defined.

(** [FindAccResult] and [PeerCheck]. *)
Inductive FindAccResult := Found (acc : list Z) | KeepLooking (accs : list (PeerId * list Z)).
Inductive PeerCheck :=
  | OneLying (peer : PeerId)
  | BothLying
  | UnresponsivePeer (peer : PeerId)
  | BothUnresponsivePeers.

(** The outside, as the handlers that wait for answers see it: the next
    notification and the time at which it is read, or [None] when the wait
    ended without one.  It may depend on what the node has sent. *)
Class World `{UtreexoLib} (W N : Type) := world_recv : N -> W -> Z * option NodeNotification * W.

(** * Accumulators as bytes *)

Fixpoint pos_ones (p : positive) : nat :=
  match p with
  | xH => 1
  | xO p => pos_ones p
  | xI p => S (pos_ones p)
  end.
(** [u64::count_ones]. *)
Definition count_ones (z : Z) : nat := match z with Zpos p => pos_ones p | _ => O end.

(** [chunks_exact] of [k] chunks. *)
Fixpoint chunks (size k : nat) (l : list Z) : list (list Z) :=
  match k with
  | O => []
  | S k => take size l :: chunks size k (drop size l)
  end.

Definition parse_acc `{UtreexoLib} `{!StumpBuild} (acc : list Z) : outcome WireError Stump :=
  if bool_decide (acc = []) then Ok stump_new
  else if (length acc <? 8)%nat then Err PeerMisbehaving
  else
    let leaves := le_int (take 8 acc) in
    let roots_bytes := drop 8 acc in
    let expected_roots := count_ones leaves in
    if negb (length roots_bytes =? expected_roots * 32)%nat then Err PeerMisbehaving
    else Ok (stump_of leaves (map node_hash_from (chunks 32 expected_roots roots_bytes))).

(** * Lists of candidates *)

(** The order of pairs of a peer and its answer. *)
Fixpoint bytes_leb (a b : list Z) : bool :=
  match a, b with
  | [], _ => true
  | _ :: _, [] => false
  | x :: a, y :: b => if x <? y then true else if y <? x then false else bytes_leb a b
  end.
Definition acc_leb (x y : PeerId * list Z) : bool :=
  if x.1 <? y.1 then true else if y.1 <? x.1 then false else bytes_leb x.2 y.2.
Fixpoint insert_acc (x : PeerId * list Z) (l : list (PeerId * list Z)) : list (PeerId * list Z) :=
  match l with
  | [] => [x]
  | y :: rest => if acc_leb x y then x :: l else y :: insert_acc x rest
  end.
Definition sort_accs (l : list (PeerId * list Z)) : list (PeerId * list Z) := foldr insert_acc [] l.
(** [Vec::dedup]. *)
Fixpoint dedup_accs (l : list (PeerId * list Z)) : list (PeerId * list Z) :=
  match l with
  | [] => []
  | x :: rest =>
      match dedup_accs rest with
      | [] => [x]
      | y :: rest' => if bool_decide (x = y) then y :: rest' else x :: y :: rest'
      end
  end.
(** [windows(2)]. *)
Fixpoint windows {A} (l : list A) : list (A * A) :=
  match l with
  | x :: (y :: _) as rest => (x, y) :: windows rest
  | _ => []
  end.
(** The answers of all peers. *)
Definition find_result (accs : list (PeerId * list Z)) : FindAccResult :=
  match last accs with
  | None => KeepLooking []
  | Some (_, acc) => if forallb (fun x => bool_decide (x.2 = acc)) accs then Found acc else KeepLooking accs
  end.

Section SelectNode.
Context `{HashLib, TxLib, HeaderLib, UtreexoLib, ScriptBuild} `{!Codec TxOut}.
Context {C MP W : Type} `{!ProofBuild, !StumpBuild, !ChainBackend C, !HashOrder, !MempoolBase MP} `{!Json (list DiskLocalAddress)}.
Context `{!EqDecision Stump} `{!World W (NodeCommon C MP)}.
Context (seeds : Network -> list Z) (average : option Z -> Z -> Z).
(** The fuel of the loops that wait for peers. *)
Context (fuel : nat).

Abbreviation Node := (NodeCommon C MP) (only parsing).
Abbreviation M := (stm (NodeCommon C MP) WireError) (only parsing).

(** [ChainSelector], with the part of the node all contexts share, the outside
    and the time. *)
Record Selecting := mkSelecting {
  sel_node : Node;
  sel_state : ChainSelectorState;
  done_peers : gset PeerId;
  tip_cache : gmap PeerId BlockHash;
  world : W;
  clock : Z
}.
Abbreviation Sel := (stm Selecting WireError) (only parsing).

Definition set_sel_node (n : Node) (s : Selecting) : Selecting :=
  mkSelecting n (sel_state s) (done_peers s) (tip_cache s) (world s) (clock s).
Definition set_sel_state (x : ChainSelectorState) (s : Selecting) : Selecting :=
  mkSelecting (sel_node s) x (done_peers s) (tip_cache s) (world s) (clock s).
Definition add_done_peer (peer : PeerId) (s : Selecting) : Selecting :=
  mkSelecting (sel_node s) (sel_state s) ({[peer]} ∪ done_peers s) (tip_cache s) (world s) (clock s).
Definition cache_tip (peer : PeerId) (tip : BlockHash) (s : Selecting) : Selecting :=
  mkSelecting (sel_node s) (sel_state s) (done_peers s) (<[peer := tip]> (tip_cache s)) (world s) (clock s).
Definition set_clock (now : Z) (s : Selecting) : Selecting :=
  mkSelecting (sel_node s) (sel_state s) (done_peers s) (tip_cache s) (world s) now.

Definition on_node {A} (m : M A) : Sel A := fun s =>
  let '(o, n) := m (sel_node s) in (o, set_sel_node n s).
Definition ignore_sel {A} (m : Sel A) : Sel unit := fun s =>
  match m s with
  | (Ok _, s') | (Err _, s') => (Ok tt, s')
  | (Panic, s') => (Panic, s')
  | (Diverge, s') => (Diverge, s')
  end.
Definition ask_chain {A} (f : C -> outcome BlockchainError A) : Sel A := on_node (on_chain f).

(** [node_rx.recv()], with or without a timeout. *)
Definition recv : Sel (option NodeNotification) := fun s =>
  let '(now, e, w) := world_recv (sel_node s) (world s) in
  (Ok e, mkSelecting (sel_node s) (sel_state s) (done_peers s) (tip_cache s) w now).

(** * Comparing two peers *)

Definition note_version (peer1 peer2 : PeerId) (v : option (list Z) * option (list Z)) (e : option NodeNotification)
  : option (list Z) * option (list Z) :=
  match e with
  | Some (FromPeer peer (MsgUtreexoState state) _) =>
      if peer =? peer1 then (Some state, v.2) else if peer =? peer2 then (v.1, Some state) else v
  | _ => v
  end.
Definition grab_both_peers_version (peer1 peer2 : PeerId) (hash : BlockHash) (height : Z)
  : Sel (option (list Z) * option (list Z)) :=
  _ ← on_node (send_to_peer peer1 (GetUtreexoState hash height));
  _ ← on_node (send_to_peer peer2 (GetUtreexoState hash height));
  e1 ← recv;
  e2 ← recv;
  mret (note_version peer1 peer2 (note_version peer1 peer2 (None, None) e1) e2).

(** Both answers, or the peers that did not answer. *)
Definition both_versions (peer1 peer2 : PeerId) (v : option (list Z) * option (list Z)) : PeerCheck + list Z * list Z :=
  match v with
  | (Some a1, Some a2) => inr (a1, a2)
  | (None, Some _) => inl (UnresponsivePeer peer1)
  | (Some _, None) => inl (UnresponsivePeer peer2)
  | (None, None) => inl BothUnresponsivePeers
  end.

(** The first loop of [find_who_is_lying] narrows the fork point down; the
    distance between two heights it asks for is halved in every round. *)
Fixpoint narrow_loop (k : nat) (peer1 peer2 : PeerId) (height : Z) (hash : BlockHash) (prev_height : Z)
  : Sel (PeerCheck + Z * BlockHash) :=
  match k with
  | O => lift Diverge
  | S k =>
      v ← grab_both_peers_version peer1 peer2 hash height;
      match both_versions peer1 peer2 v with
      | inl check => mret (inl check)
      | inr (acc1, acc2) =>
          let interval := Z.abs (height - prev_height) in
          if interval <? 5 then mret (inr (height, hash))
          else
            height' ← lift (if bool_decide (acc1 = acc2) then u32_add height (interval / 2) else u32_sub height (interval / 2));
            s ← gets Ok;
            hash' ← lift (unwrap (chain_block_hash (chain (sel_node s)) height'));
            narrow_loop k peer1 peer2 height' hash' height
      end
  end.
(** An interval of 32 bits is below 5 after 31 halvings. *)
Definition narrow_fuel : nat := 33.

(** The second loop walks to the last block both agree on; height 0 stands for
    a fork point that is not known yet. *)
Definition fork_at (agree same : bool) (height : Z) : outcome WireError Z :=
  if agree then (if same then Ok 0 else u32_sub height 1) else (if same then Ok height else Ok 0).
Definition next_height (agree : bool) (height : Z) : outcome WireError Z :=
  if agree then u32_add height 1 else u32_sub height 1.
Fixpoint fork_loop (k : nat) (peer1 peer2 : PeerId) (agree : bool) (height : Z) (hash : BlockHash) : Sel Z :=
  match k with
  | O => lift Diverge
  | S k =>
      v ← grab_both_peers_version peer1 peer2 hash height;
      fork ← lift (fork_at agree (bool_decide (v.1 = v.2)) height);
      if negb (fork =? 0) then mret fork
      else
        height' ← lift (next_height agree height);
        hash' ← ask_chain (fun c => chain_block_hash c height');
        fork_loop k peer1 peer2 agree height' hash'
  end.
(** The search of [find_who_is_lying]: the last block on which both agree. *)
Definition find_fork (peer1 peer2 : PeerId) : Sel (PeerCheck + Z) :=
  best ← ask_chain chain_best_block;
  landed ← narrow_loop narrow_fuel peer1 peer2 best.1 best.2 0;
  match landed with
  | inl check => mret (inl check)
  | inr (height, hash) =>
      v ← grab_both_peers_version peer1 peer2 hash height;
      let agree := bool_decide (v.1 = v.2) in
      height' ← lift (next_height agree height);
      fork ← fork_loop fuel peer1 peer2 agree height' hash;
      mret (inr fork)
  end.

(** * Blocks of a peer *)

Definition is_mutated (b : Block) : bool :=
  bool_decide (check_merkle_root b = None) || negb (check_witness_commitment b).
Definition misbehaves {A} (peer : PeerId) : Sel A :=
  _ ← on_node (disconnect_and_ban peer); lift (Err PeerMisbehaving).

(** The loop of [get_block_and_proof]. *)
Fixpoint wait_block (k : nat) (deadline : Z) (peer : PeerId) (hash : BlockHash) (block : option Block) : Sel InflightBlock :=
  match k with
  | O => lift Diverge
  | S k =>
      s ← gets Ok;
      if deadline <? clock s then lift (Err PeerTimeout)
      else
        e ← recv;
        match e with
        | Some (FromPeer id message _) =>
            if negb (id =? peer) then wait_block k deadline peer hash block
            else match message with
            | MsgBlock b =>
                if negb (blk_hash b =? hash) then misbehaves peer
                else if is_mutated b then misbehaves peer
                else
                  _ ← on_node (send_to_peer peer (GetBlockProof hash bitmap_new bitmap_new));
                  wait_block k deadline peer hash (Some b)
            | MsgUtreexoProof uproof =>
                match block with
                | None => misbehaves peer
                | Some b => mret (mkInflight peer b
                    (Some (leaf_data uproof, proof_of (proof_hashes uproof) (targets uproof), peer)) None)
                end
            | _ => wait_block k deadline peer hash block
            end
        | _ => wait_block k deadline peer hash block
        end
  end.
Definition get_block_and_proof (peer : PeerId) (hash : BlockHash) : Sel InflightBlock :=
  _ ← on_node (send_to_peer peer (GetBlock [hash] WitnessFull));
  s ← gets Ok;
  wait_block fuel (clock s + 60) peer hash None.
(** A block that does not arrive in time. *)
Definition block_or_timeout (peer : PeerId) (hash : BlockHash) : Sel (option InflightBlock) := fun s =>
  match get_block_and_proof peer hash s with
  | (Err PeerTimeout, s') => (Ok None, s')
  | (o, s') => (o ≫= (fun b => Ok (Some b)), s')
  end.

(** [update_acc]. *)
Definition proof_data (leaves : list CompactLeafData) (b : Block) : Sel (list Z * gmap OutPoint UtxoData) :=
  ask_chain (fun c => process_proof UtreexoLeaf (chain_block_hash c) (chain_mtp_by_height c) leaves (txdata b)).
Definition select_update_acc (acc : Stump) (b : Block) (proof : Proof_) (leaves : list CompactLeafData) (height : Z) : Sel Stump :=
  '(del_hashes, _) ← proof_data leaves b;
  ask_chain (fun c => chain_update_acc c acc b height proof del_hashes).

(** Who has another accumulator than the one computed. *)
Definition verdict (peer1 peer2 : PeerId) (peer1_acc peer2_acc acc : Stump) : PeerCheck :=
  if bool_decide (peer1_acc <> acc) && bool_decide (peer2_acc <> acc) then BothLying
  else if bool_decide (peer1_acc <> acc) then OneLying peer1
  else OneLying peer2.
(** The rest of [find_who_is_lying], when the last agreed block is known. *)
Definition check_fork (peer1 peer2 : PeerId) (fork : Z) : Sel PeerCheck :=
  hash ← ask_chain (fun c => chain_block_hash c fork);
  v ← grab_both_peers_version peer1 peer2 hash fork;
  match v with
  | (None, None) => mret BothUnresponsivePeers
  | (Some acc, _) | (None, Some acc) =>
      agreed ← lift (parse_acc acc);
      next ← lift (u32_add fork 1);
      hash ← ask_chain (fun c => chain_block_hash c next);
      v ← grab_both_peers_version peer1 peer2 hash next;
      match both_versions peer1 peer2 v with
      | inl check => mret check
      | inr (acc1, acc2) =>
          ib ← block_or_timeout peer1 hash;
          match ib with
          | None => mret (UnresponsivePeer peer1)
          | Some ib =>
              '(leaves, proof, _) ← lift (expect (aux_data ib));
              acc ← select_update_acc agreed (ib_block ib) proof leaves next;
              peer1_acc ← lift (parse_acc acc1);
              peer2_acc ← lift (parse_acc acc2);
              mret (verdict peer1 peer2 peer1_acc peer2_acc acc)
          end
      end
  end.
Definition find_who_is_lying (peer1 peer2 : PeerId) : Sel PeerCheck :=
  found ← find_fork peer1 peer2;
  match found with
  | inl check => mret check
  | inr fork => check_fork peer1 peer2 fork
  end.

(** * The accumulator of a block *)

Section Step.
Context (unix : Z).

(** The requests of [find_accumulator_for_block_step]. *)
Fixpoint ask_states (hash : BlockHash) (height : Z) (ids : list PeerId) : Sel unit :=
  match ids with
  | [] => mret tt
  | id :: rest =>
      s ← gets Ok;
      p ← lift (expect (peers (sel_node s) !! id));
      _ ← (if has (p_services p) UTREEXO_ARCHIVE then
             _ ← on_node (send_to_peer id (GetUtreexoState hash height));
             on_node (modify (insert_inflight (clock s) (InUtreexoState id) id))
           else mret tt);
      ask_states hash height rest
  end.
Definition collect_state (e : option NodeNotification) (accs : list (PeerId * list Z)) : Sel (list (PeerId * list Z)) :=
  match e with
  | Some (DnsSeedAddresses addresses) =>
      _ ← on_node (modify (alter_man (push_addresses order_addresses addresses))); mret accs
  | Some (FromPeer peer (MsgUtreexoState state) _) =>
      _ ← on_node (modify (remove_inflight (InUtreexoState peer))); mret (accs ++ [(peer, state)])
  | Some (FromUser request responder) =>
      s ← gets Ok;
      _ ← on_node (perform_user_request (clock s) unix request responder); mret accs
  | _ => mret accs
  end.
(** The requests that are not older than a minute. *)
Definition drop_old (now : Z) (n : Node) : Node :=
  set_inflight (filter (fun x : InflightRequests * (PeerId * Z) => saturating_sub now x.2.2 <= 60) (inflight n)) n.
Fixpoint collect_states (k : nat) (accs : list (PeerId * list Z)) : Sel (list (PeerId * list Z)) :=
  match k with
  | O => lift Diverge
  | S k =>
      s ← gets Ok;
      if bool_decide (inflight (sel_node s) = ∅) then mret accs
      else
        e ← recv;
        accs ← collect_state e accs;
        s ← gets Ok;
        _ ← on_node (modify (drop_old (clock s)));
        collect_states k accs
  end.
Definition find_accumulator_for_block_step (hash : BlockHash) (height : Z) : Sel FindAccResult :=
  s ← gets Ok;
  _ ← ask_states hash height (peer_ids (sel_node s));
  s ← gets Ok;
  _ ← lift (err_if (bool_decide (inflight (sel_node s) = ∅)) NoPeersAvailable);
  accs ← collect_states fuel [];
  mret (find_result accs).

(** The loop over pairs of candidates: the accumulators found to be invalid. *)
Fixpoint judge_loop (pairs : list ((PeerId * list Z) * (PeerId * list Z))) (invalid : list (list Z)) : Sel (list (list Z)) :=
  match pairs with
  | [] => mret invalid
  | (x, y) :: rest =>
      if bool_decide (x.2 ∈ invalid) || bool_decide (y.2 ∈ invalid) then judge_loop rest invalid
      else
        check ← find_who_is_lying x.1 y.1;
        match check with
        | OneLying liar =>
            _ ← on_node (disconnect_and_ban liar);
            judge_loop rest ((if liar =? x.1 then x.2 else y.2) :: invalid)
        | UnresponsivePeer dead => _ ← on_node (disconnect_and_ban dead); judge_loop rest invalid
        | BothUnresponsivePeers =>
            _ ← on_node (disconnect_and_ban x.1);
            _ ← on_node (disconnect_and_ban y.1);
            judge_loop rest invalid
        | BothLying =>
            _ ← on_node (disconnect_and_ban x.1);
            _ ← on_node (disconnect_and_ban y.1);
            judge_loop rest (y.2 :: x.2 :: invalid)
        end
  end.
(** The candidates are compared in pairs, and exactly one has to be left. *)
Definition judge (candidates : list (PeerId * list Z)) : Sel Stump :=
  invalid ← judge_loop (windows candidates) [];
  match filter (fun x : PeerId * list Z => x.2 ∉ invalid) candidates with
  | [x] => lift (parse_acc x.2)
  | _ => lift Panic
  end.
Definition find_accumulator_for_block (height : Z) (hash : BlockHash) : Sel Stump := fun s =>
  match find_accumulator_for_block_step hash height s with
  | (Ok (Found acc), s') => (parse_acc acc, s')
  | (Ok (KeepLooking accs), s') => judge (dedup_accs (sort_accs accs)) s'
  | (Err _, s') => judge [] s'
  | (Panic, s') => (Panic, s')
  | (Diverge, s') => (Diverge, s')
  end.

(** * Tips *)

(** The loop of [ban_peers_on_tip], over a copy of the peers. *)
Fixpoint ban_on_tip (copy : gmap PeerId LocalPeerView) (tip : BlockHash) (ids : list PeerId) : Sel unit :=
  match ids with
  | [] => mret tt
  | id :: rest =>
      s ← gets Ok;
      _ ← (match copy !! id with
           | Some p =>
               if bool_decide (tip_cache s !! id = Some tip) then
                 _ ← on_node (modify (alter_man (update_set_state unix (la_id (p_address p)) (Banned (BAN_TIME ChainSelector)))));
                 on_node (disconnect_and_ban id)
               else mret tt
           | None => mret tt
           end);
      ban_on_tip copy tip rest
  end.
Definition ban_peers_on_tip (tip : BlockHash) : Sel unit :=
  s ← gets Ok; ban_on_tip (peers (sel_node s)) tip (order_peers (peers (sel_node s))).

(** The verdict on the block at the fork point. *)
Definition settle_fork (valid : outcome BlockchainError unit) (other_tip fork : BlockHash) : Sel unit :=
  match valid with
  | Panic => lift Panic
  | Diverge => lift Diverge
  | Err _ =>
      best ← ask_chain chain_best_block;
      _ ← ban_peers_on_tip best.2;
      _ ← on_node (chain_do (chain_switch_chain other_tip));
      on_node (chain_do (chain_invalidate_block fork))
  | Ok _ => ban_peers_on_tip other_tip
  end.
Definition is_our_chain_invalid (other_tip : BlockHash) : Sel unit :=
  fork ← ask_chain (fun c => chain_fork_point c other_tip);
  height ← ask_chain (fun c => chain_block_height c fork);
  let fork_height := default 0 height in
  s ← gets Ok;
  ids ← lift (ok_or (peer_by_service (sel_node s) !! UTREEXO) NoPeersAvailable);
  r ← on_node draw;
  peer ← lift (ok_or (choose r ids) NoPeersAvailable);
  ib ← get_block_and_proof peer fork;
  '(leaves, proof, _) ← lift (expect (aux_data ib));
  '(del_hashes, inputs) ← proof_data leaves (ib_block ib);
  acc ← find_accumulator_for_block fork_height fork;
  s ← gets Ok;
  settle_fork (chain_validate_block (chain (sel_node s)) (ib_block ib) proof inputs del_hashes acc) other_tip fork.
Fixpoint check_other_tips (tips : list BlockHash) : Sel unit :=
  match tips with
  | [] => mret tt
  | tip :: rest => _ ← is_our_chain_invalid tip; check_other_tips rest
  end.
Definition set_ibd_of (i : IBDState) (n : Node) : Node := set_chain (chain_update_ibd i (chain n)) n.
Definition check_tips : Sel unit :=
  best ← ask_chain chain_best_block;
  validation_index ← ask_chain chain_validation_index;
  far ← lift (u32_add validation_index 100);
  if far <? best.1 then
    tips ← ask_chain chain_tips;
    best ← ask_chain chain_best_block;
    acc ← find_accumulator_for_block best.1 best.2;
    _ ← (match tips with
         | [tip] =>
             _ ← modify (set_sel_state SelectDone);
             _ ← on_node (fun n => let '(o, c) := chain_mark_assumed acc tip (chain n) in (unwrap o, set_chain c n));
             on_node (modify (set_ibd_of ProofSync))
         | _ => mret tt
         end);
    match tips with
    | [] => lift Panic
    | _ :: others => check_other_tips others
    end
  else modify (set_sel_state SelectDone).

(** * Headers *)

Definition select_request_headers (tip : BlockHash) : Sel unit :=
  s ← gets Ok;
  locator ← lift (match chain_locator_for_tip (chain (sel_node s)) tip with Err _ => Ok [] | o => map_err Blockchain o end);
  peer ← on_node (send_to_fast_peer (GetHeaders locator) NONE);
  on_node (modify (insert_inflight (clock s) InHeaders peer)).

Fixpoint poke_all (locator : list BlockHash) (ids : list PeerId) : Sel unit :=
  match ids with
  | [] => mret tt
  | id :: rest => _ ← on_node (send_to_peer id (GetHeaders locator)); poke_all locator rest
  end.
Definition poke_peers : Sel unit :=
  s ← gets Ok;
  locator ← lift (unwrap (chain_block_locator (chain (sel_node s))));
  poke_all locator (peer_ids (sel_node s)).

Definition assume_chain (assumed : AssumeUtreexoValue) : Sel unit :=
  _ ← modify (set_sel_state SelectDone);
  s ← gets Ok;
  vi ← lift (unwrap (chain_validation_index (chain (sel_node s))));
  if au_height assumed <=? vi then mret tt
  else
    _ ← on_node (chain_do (chain_mark_assumed (stump_of (au_leaves assumed) (au_roots assumed)) (au_block_hash assumed)));
    mret tt.
Definition empty_headers_message (peer : PeerId) : Sel unit :=
  s ← gets Ok;
  match sel_state s with
  | DownloadingHeaders =>
      _ ← poke_peers;
      _ ← modify (set_sel_state (LookingForForks (clock s)));
      modify (add_done_peer peer)
  | LookingForForks _ =>
      _ ← modify (add_done_peer peer);
      s ← gets Ok;
      if negb (forallb (fun id => bool_decide (id ∈ done_peers s)) (peer_ids (sel_node s))) then mret tt
      else match assume_utreexo (config (sel_node s)) with
      | Some assumed => assume_chain assumed
      | None =>
          let has_peers := bool_decide (is_Some (peer_by_service (sel_node s) !! UTREEXO_ARCHIVE)) in
          _ ← (if pow_fraud_proofs (config (sel_node s)) && has_peers then check_tips else mret tt);
          modify (set_sel_state SelectDone)
      end
  | _ => mret tt
  end.

(** The loop of [handle_headers]: an error bans the peer and does not stop it. *)
Fixpoint accept_all (peer : PeerId) (headers : list BlockHeader) : Sel unit :=
  match headers with
  | [] => mret tt
  | header :: rest =>
      accepted ← (fun s : Selecting => match on_node (chain_do (chain_accept_header header)) s with
                           | (Err _, s') => (Ok false, s')
                           | (o, s') => (o ≫= (fun _ => Ok true), s')
                           end);
      _ ← (if accepted : bool then mret tt
           else
             _ ← on_node (disconnect_and_ban peer);
             s ← gets Ok;
             p ← lift (expect (peers (sel_node s) !! peer));
             on_node (modify (alter_man (update_set_state unix (la_id (p_address p)) (Banned (BAN_TIME ChainSelector))))));
      accept_all peer rest
  end.
Definition select_headers (peer : PeerId) (headers : list BlockHeader) : Sel unit :=
  match last headers with
  | None => empty_headers_message peer
  | Some header =>
      _ ← accept_all peer headers;
      let tip := block_hash header in
      _ ← modify (cache_tip peer tip);
      s ← gets Ok;
      _ ← on_node (modify (alter_timers (set_last_tip_update (clock s))));
      select_request_headers tip
  end.

(** * Messages and maintenance *)

Definition can_start_headers_sync (n : Node) : bool :=
  if bool_decide (cfg_network (config n) = Regtest) && (1 <=? connected_peers n)%nat then true
  else if has_fixed_peers n then (1 <=? connected_peers n)%nat
  else (MAX_OUTGOING_PEERS ChainSelector <=? connected_peers n)%nat.

Definition select_peer_message (peer : PeerId) (msg : PeerMessages) : Sel unit :=
  s ← gets Ok;
  match msg with
  | MsgHeaders headers => _ ← on_node (modify (remove_inflight InHeaders)); select_headers peer headers
  | MsgReady version =>
      _ ← on_node (handle_peer_ready ChainSelector (clock s) unix peer version);
      s ← gets Ok;
      match sel_state s with
      | LookingForForks _ =>
          locator ← lift (unwrap (chain_block_locator (chain (sel_node s))));
          on_node (send_to_peer peer (GetHeaders locator))
      | _ => mret tt
      end
  | MsgDisconnected idx =>
      _ ← (if bool_decide (peers (sel_node s) = ∅) then modify (set_sel_state CreatingConnections) else mret tt);
      on_node (handle_disconnection (clock s) unix peer idx)
  | MsgBlock block =>
      unasked ← on_node (check_is_user_block_and_reply block);
      match unasked with
      | Some _ => on_node (increase_banscore peer 5)
      | None => mret tt
      end
  | _ => mret tt
  end.
Definition select_message (msg : NodeNotification) : Sel unit :=
  match msg with
  | FromUser request responder => s ← gets Ok; on_node (perform_user_request (clock s) unix request responder)
  | FromPeer peer message time =>
      _ ← on_node (modify (register_message_time average message peer time));
      unhandled ← on_node (handle_peer_msg_common unix message peer);
      match unhandled with
      | None => mret tt
      | Some msg => select_peer_message peer msg
      end
  | DnsSeedAddresses addresses => on_node (modify (alter_man (push_addresses order_addresses addresses)))
  | FromWorker _ _ _ => mret tt
  end.

(** What the maintenance does in each state. *)
Definition state_jobs : Sel unit :=
  s ← gets Ok;
  _ ← (match sel_state s with
       | LookingForForks start =>
           if REQUEST_TIMEOUT ChainSelector <? saturating_sub (clock s) start then
             _ ← modify (set_sel_state (LookingForForks (clock s))); poke_peers
           else mret tt
       | DownloadingHeaders =>
           let elapsed := saturating_sub (clock s) (last_tip_update (timers (sel_node s))) in
           if (REQUEST_TIMEOUT ChainSelector <? elapsed) && bool_decide (inflight (sel_node s) !! InHeaders = None) then
             best ← ask_chain chain_best_block; select_request_headers best.2
           else mret tt
       | CreatingConnections =>
           if can_start_headers_sync (sel_node s) then
             _ ← ignore_sel (best ← ask_chain chain_best_block; select_request_headers best.2);
             modify (set_sel_state DownloadingHeaders)
           else mret tt
       | SelectDone => mret tt
       end);
  mret tt.
Definition select_maintenance_tick : Sel LoopControl :=
  s ← gets Ok;
  let now := clock s in
  if kill_signal (sel_node s) then mret Break
  else
    _ ← on_node (periodic_job now last_connection set_last_connection (TRY_NEW_CONNECTION ChainSelector)
                   (maybe_open_connection seeds ChainSelector now unix NONE));
    _ ← on_node (periodic_job now last_feeler set_last_feeler (FEELER_INTERVAL ChainSelector)
                   (open_feeler_connection seeds ChainSelector now unix));
    _ ← state_jobs;
    s ← gets Ok;
    if bool_decide (sel_state s = SelectDone) then
      _ ← on_node (modify (set_ibd_of ProofSync));
      _ ← on_node (ignore_err (chain_step chain_flush));
      mret Break
    else
      _ ← on_node (ignore_err (check_for_timeout ChainSelector now unix));
      mret Continue.
End Step.

(** * Runs *)

Inductive select_step : Selecting -> Selecting -> Prop :=
  | SelectMessage now unix msg s s' : ignore_sel (select_message unix msg) (set_clock now s) = (Ok tt, s') -> select_step s s'
  | SelectTick now unix s s' : select_maintenance_tick unix (set_clock now s) = (Ok Continue, s') -> select_step s s'
  | SelectWorld w s : select_step s (mkSelecting (sel_node s) (sel_state s) (done_peers s) (tip_cache s) w (clock s))
  | SelectClosed peer s : select_step s (set_sel_node (alter_peer close_channel peer (sel_node s)) s).
Inductive select_reachable (start : Node) : Selecting -> Prop :=
  | SelectStart w now : select_reachable start (mkSelecting start CreatingConnections ∅ ∅ w now)
  | SelectNext s s' : select_reachable start s -> select_step s s' -> select_reachable start s'.
(** The last tick of [run]. *)
Definition select_ends (now unix : Z) (s : Selecting) (r : outcome WireError LoopControl) (s' : Selecting) : Prop :=
  select_maintenance_tick unix (set_clock now s) = (r, s') /\ r <> Ok Continue.
End SelectNode.
