(* ===== verification/SelectFacts.v ===== *)
(** Chain selection: the invariant of the node, how accumulators are read, and
    the cut-and-choose protocol: two peers that disagree about the accumulator,
    the last block they agree on, and which of them is blamed; and the cases in
    which the search panics. *)

From stdpp Require Import base gmap list strings fin_maps.
From Stdlib Require Import ZArith Lia.
From S2P Require Import Prelude Bitcoin Errors Codec Merkle Sigops Udata ChainQuery Mempool Filters BlockProof Text.
From S2P Require Import Onion SocketAddr AddressMan AddressManFacts Node NodeBlocks NodePeers NodeConn SyncNode NodeFacts SelectNode.

Section SelectFacts.
Context `{HashLib, TxLib, HeaderLib, UtreexoLib, ScriptBuild} `{!Codec TxOut}.
Context {C MP W : Type} `{!ProofBuild, !StumpBuild, !ChainBackend C, !HashOrder, !MempoolBase MP} `{!Json (list DiskLocalAddress)}.
Context `{!EqDecision Stump} `{!World W (NodeCommon C MP)}.
Context (seeds : Network -> list Z) (average : option Z -> Z -> Z) (fuel : nat).

Abbreviation Node := (NodeCommon C MP) (only parsing).
Abbreviation M := (stm (NodeCommon C MP) WireError) (only parsing).
Abbreviation State := (@Selecting _ C MP W) (only parsing).
Abbreviation Sel := (stm (@Selecting _ C MP W) WireError) (only parsing).

(** * The invariant *)

Definition sel_inv (s : State) : Prop := node_inv (sel_node s).

Lemma keeps_on_node {A} (m : M A) : keeps node_inv m -> keeps sel_inv (on_node m : Sel A).
Proof.
  intros Hm. constructor. intros s r s' Hs. unfold on_node. destruct (m (sel_node s)) as [o n] eqn:E.
  intros [= <- <-]. pose proof (keeps_run Hm (sel_node s) o n Hs E). by destruct o.
Qed.
Lemma keeps_ignore_sel {A} (m : Sel A) : keeps sel_inv m -> keeps sel_inv (ignore_sel m).
Proof.
  intros Hm. constructor. intros s r s' Hs. unfold ignore_sel. destruct (m s) as [o s1] eqn:E.
  pose proof (keeps_run Hm s o s1 Hs E). destruct o; by intros [= <- <-].
Qed.
Lemma keeps_recv : keeps sel_inv (recv : Sel _).
Proof. constructor. intros s r s' Hs. unfold recv. destruct (world_recv _ _) as [[now e] w]. by intros [= <- <-]. Qed.
Lemma keeps_ask_chain {A} (f : C -> outcome BlockchainError A) : keeps sel_inv (ask_chain f : Sel A).
Proof. apply keeps_on_node. unfold on_chain. apply keeps_gets. Qed.
Lemma inv_ibd i (n : Node) : node_inv n -> node_inv (set_ibd_of i n).
Proof. intros ?. by apply inv_chain. Qed.
Lemma inv_drop_old now (n : Node) : node_inv n -> node_inv (drop_old now n).
Proof. intros ?. by apply inv_inflight. Qed.
Lemma inv_set_state now idx st (n : Node) : node_inv n -> node_inv (alter_man (update_set_state now idx st) n).
Proof. intros Hn. apply inv_man; [done|]. apply update_set_state_inv, Hn. Qed.
Hint Resolve keeps_recv keeps_ask_chain inv_ibd inv_drop_old inv_set_state : node.

(** Walks through a computation of the selecting node. *)
Ltac sel1 :=
  match goal with
  | |- keeps sel_inv (mret _) => apply keeps_ret
  | |- keeps sel_inv (lift _) => apply keeps_lift
  | |- keeps sel_inv (gets _) => apply keeps_gets
  | |- keeps sel_inv (on_node _) => apply keeps_on_node
  | |- keeps sel_inv (ask_chain _) => apply keeps_ask_chain
  | |- keeps sel_inv recv => apply keeps_recv
  | |- keeps sel_inv (ignore_sel _) => apply keeps_ignore_sel
  | |- keeps sel_inv (modify _) => apply keeps_modify; intros ? ?; try done
  | |- keeps sel_inv (gets Ok ≫= _) => apply keeps_state_bind; intros ? ?
  | |- keeps sel_inv (_ ≫= _) => apply keeps_bind; [|intros ?]
  | |- keeps sel_inv (if ?b then _ else _) => destruct b eqn:?
  | |- keeps sel_inv (match ?x with _ => _ end) => destruct x eqn:?
  | |- keeps sel_inv (let '(_, _) := ?x in _) => destruct x
  end.
Ltac sel_keep := repeat (first [sel1 | progress keep]; try (solve [auto with node])).

Lemma keeps_grab p1 p2 hash h : keeps sel_inv (grab_both_peers_version p1 p2 hash h : Sel _).
Proof. unfold grab_both_peers_version. sel_keep. Qed.
Hint Resolve keeps_grab : node.
Lemma keeps_narrow k p1 p2 : forall h hash prev, keeps sel_inv (narrow_loop k p1 p2 h hash prev : Sel _).
Proof. induction k as [|k IH]; intros h hash prev; cbn [narrow_loop]; sel_keep. Qed.
Lemma keeps_fork_loop k p1 p2 agree : forall h hash, keeps sel_inv (fork_loop k p1 p2 agree h hash : Sel _).
Proof. induction k as [|k IH]; intros h hash; cbn [fork_loop]; sel_keep. Qed.
Hint Resolve keeps_narrow keeps_fork_loop : node.
Lemma keeps_find_fork p1 p2 : keeps sel_inv (find_fork fuel p1 p2 : Sel _).
Proof. unfold find_fork. sel_keep. Qed.
Lemma keeps_misbehaves {A} p : keeps sel_inv (misbehaves p : Sel A).
Proof. unfold misbehaves. sel_keep. Qed.
Hint Resolve keeps_find_fork keeps_misbehaves : node.
Lemma keeps_wait_block k d p hash : forall b, keeps sel_inv (wait_block k d p hash b : Sel _).
Proof. induction k as [|k IH]; intros b; cbn [wait_block]; sel_keep. Qed.
Hint Resolve keeps_wait_block : node.
Lemma keeps_get_block p hash : keeps sel_inv (get_block_and_proof fuel p hash : Sel _).
Proof. unfold get_block_and_proof. sel_keep. Qed.
Lemma keeps_block_or_timeout p hash : keeps sel_inv (block_or_timeout fuel p hash : Sel _).
Proof.
  constructor. intros s r s' Hs. unfold block_or_timeout. destruct (get_block_and_proof fuel p hash s) as [o s1] eqn:E.
  pose proof (keeps_run (keeps_get_block p hash) s o s1 Hs E) as Hk. destruct o as [b|e| |]; [|destruct e|..]; by intros [= <- <-].
Qed.
Hint Resolve keeps_get_block keeps_block_or_timeout : node.
Lemma keeps_proof_data l b : keeps sel_inv (proof_data l b : Sel _).
Proof. apply keeps_ask_chain. Qed.
Hint Resolve keeps_proof_data : node.
Lemma keeps_select_update a b p l h : keeps sel_inv (select_update_acc a b p l h : Sel _).
Proof. unfold select_update_acc. sel_keep. Qed.
Hint Resolve keeps_select_update : node.
Lemma keeps_lying p1 p2 : keeps sel_inv (find_who_is_lying fuel p1 p2 : Sel _).
Proof. unfold find_who_is_lying, check_fork. sel_keep. Qed.
Hint Resolve keeps_lying : node.

Section Handlers.
Context (unix : Z).

Lemma keeps_ask_states hash h ids : keeps sel_inv (ask_states hash h ids : Sel _).
Proof. induction ids as [|id ids IH]; cbn [ask_states]; sel_keep. Qed.
Lemma keeps_collect_state e accs : keeps sel_inv (collect_state unix e accs : Sel _).
Proof. unfold collect_state. sel_keep. Qed.
Hint Resolve keeps_ask_states keeps_collect_state : node.
Lemma keeps_collect_states k : forall accs, keeps sel_inv (collect_states unix k accs : Sel _).
Proof. induction k as [|k IH]; intros accs; cbn [collect_states]; sel_keep. Qed.
Hint Resolve keeps_collect_states : node.
Lemma keeps_acc_step hash h : keeps sel_inv (find_accumulator_for_block_step fuel unix hash h : Sel _).
Proof. unfold find_accumulator_for_block_step. sel_keep. Qed.
Lemma keeps_judge_loop pairs : forall invalid, keeps sel_inv (judge_loop fuel pairs invalid : Sel _).
Proof. induction pairs as [|[x y] pairs IH]; intros invalid; cbn [judge_loop]; sel_keep. Qed.
Hint Resolve keeps_judge_loop : node.
Lemma keeps_judge l : keeps sel_inv (judge fuel l : Sel _).
Proof. unfold judge. sel_keep. Qed.
Lemma keeps_find_acc h hash : keeps sel_inv (find_accumulator_for_block fuel unix h hash : Sel _).
Proof.
  constructor. intros s r s' Hs. unfold find_accumulator_for_block.
  destruct (find_accumulator_for_block_step fuel unix hash h s) as [o s1] eqn:E.
  pose proof (keeps_run (keeps_acc_step hash h) s o s1 Hs E) as Hk.
  destruct o as [[acc|accs]| | |]; try (by apply (keeps_run (keeps_judge _))); intros [= <- <-]; [|done..].
  by destruct (parse_acc acc).
Qed.
Hint Resolve keeps_find_acc : node.

Lemma keeps_ban_on_tip copy tip ids : keeps sel_inv (ban_on_tip unix copy tip ids : Sel _).
Proof. induction ids as [|id ids IH]; cbn [ban_on_tip]; sel_keep. Qed.
Hint Resolve keeps_ban_on_tip : node.
Lemma keeps_settle v t f : keeps sel_inv (settle_fork unix v t f : Sel _).
Proof. unfold settle_fork, ban_peers_on_tip. sel_keep. Qed.
Hint Resolve keeps_settle : node.
Lemma keeps_our_chain t : keeps sel_inv (is_our_chain_invalid fuel unix t : Sel _).
Proof. unfold is_our_chain_invalid. sel_keep. Qed.
Hint Resolve keeps_our_chain : node.
Lemma keeps_other_tips l : keeps sel_inv (check_other_tips fuel unix l : Sel _).
Proof. induction l as [|t l IH]; cbn [check_other_tips]; sel_keep. Qed.
Hint Resolve keeps_other_tips : node.
Lemma keeps_mark_assumed acc tip :
  keeps node_inv (fun n : Node => let '(o, c) := chain_mark_assumed acc tip (chain n) in (unwrap o : outcome WireError bool, set_chain c n)).
Proof.
  constructor. intros n r n' Hn. destruct (chain_mark_assumed acc tip (chain n)) as [o c]. intros [= <- <-].
  destruct o; cbn; auto with node.
Qed.
Hint Resolve keeps_mark_assumed : node.
Lemma keeps_check_tips : keeps sel_inv (check_tips fuel unix : Sel _).
Proof. unfold check_tips. sel_keep. Qed.
Lemma keeps_select_request tip : keeps sel_inv (select_request_headers tip : Sel _).
Proof. unfold select_request_headers. sel_keep. Qed.
Lemma keeps_poke_all loc ids : keeps sel_inv (poke_all loc ids : Sel _).
Proof. induction ids as [|id ids IH]; cbn [poke_all]; sel_keep. Qed.
Hint Resolve keeps_check_tips keeps_select_request keeps_poke_all : node.
Lemma keeps_poke_peers : keeps sel_inv (poke_peers : Sel _).
Proof. unfold poke_peers. sel_keep. Qed.
Hint Resolve keeps_poke_peers : node.
Lemma keeps_empty_headers p : keeps sel_inv (empty_headers_message fuel unix p : Sel _).
Proof. unfold empty_headers_message, assume_chain. sel_keep. Qed.
Hint Resolve keeps_empty_headers : node.
Lemma keeps_accept_all p l : keeps sel_inv (accept_all unix p l : Sel _).
Proof.
  induction l as [|x l IH]; cbn [accept_all]; [sel_keep|]. apply keeps_bind; [|intros accepted; sel_keep]. constructor. intros s r s' Hs.
  destruct (on_node _ s) as [o s1] eqn:E. pose proof (keeps_run (keeps_on_node _ (keeps_chain_do _)) s o s1 Hs E) as Hk.
  destruct o; by intros [= <- <-].
Qed.
Hint Resolve keeps_accept_all : node.
Lemma keeps_select_headers p l : keeps sel_inv (select_headers fuel unix p l : Sel _).
Proof. unfold select_headers. sel_keep. Qed.
Hint Resolve keeps_select_headers : node.
Lemma keeps_user_block b : keeps node_inv (check_is_user_block_and_reply b : M _).
Proof. unfold check_is_user_block_and_reply. keep. Qed.
Hint Resolve keeps_user_block : node.
Lemma keeps_select_message msg : keeps sel_inv (select_message average fuel unix msg : Sel _).
Proof. unfold select_message, select_peer_message. sel_keep. Qed.
Lemma keeps_state_jobs : keeps sel_inv (state_jobs : Sel _).
Proof. unfold state_jobs. sel_keep. Qed.
Hint Resolve keeps_state_jobs : node.
Lemma keeps_select_tick : keeps sel_inv (select_maintenance_tick seeds unix : Sel _).
Proof. unfold select_maintenance_tick. sel_keep. apply keeps_chain_step. auto with node. Qed.
End Handlers.

Lemma select_step_inv s s' : sel_inv s -> select_step seeds average fuel s s' -> sel_inv s'.
Proof.
  intros Hs Hstep. destruct Hstep as [now unix msg s1 s1' E|now unix s1 s1' E|w s1|peer s1]; [| |done|by apply inv_alter_peer].
  - exact (keeps_run (keeps_ignore_sel _ (keeps_select_message unix msg)) (set_clock now s1) _ s1' Hs E).
  - exact (keeps_run (keeps_select_tick unix) (set_clock now s1) _ s1' Hs E).
Qed.
Lemma select_reachable_inv start s : node_inv start -> select_reachable seeds average fuel start s -> sel_inv s.
Proof. intros Hstart. induction 1 as [w now|s s' _ IH Hstep]; [done|by eapply select_step_inv]. Qed.
Lemma select_ends_inv now unix s r s' : sel_inv s -> select_ends seeds now unix s r s' -> r <> Panic -> r <> Diverge -> sel_inv s'.
Proof. intros Hs [E _] Hp Hd. pose proof (keeps_run (keeps_select_tick unix) (set_clock now s) r s' Hs E). by destruct r. Qed.
End SelectFacts.

(** * Accumulators *)

Section ParseAcc.
Context `{UtreexoLib} `{!StumpBuild}.

Lemma chunks_concat size l : forall k, length l = (k * size)%nat -> (0 < size)%nat -> concat (chunks size k l) = l /\
  Forall (fun c => length c = size) (chunks size k l).
Proof.
  intros k. revert l. induction k as [|k IH]; intros l Hl Hs; [by destruct l|].
  cbn [chunks concat]. destruct (IH (drop size l)) as [E Hf]; [rewrite length_drop; lia|done|].
  rewrite E, take_drop. split; [done|]. constructor; [|done]. rewrite length_take. lia.
Qed.
Lemma chunks_of size (cs : list (list Z)) : Forall (fun c => length c = size) cs -> chunks size (length cs) (concat cs) = cs.
Proof.
  induction 1 as [|c cs Hc _ IH]; [done|]. cbn [chunks concat length].
  by rewrite take_app_length', drop_app_length', IH by done.
Qed.

Lemma acc_parts leaves (roots : list (list Z)) bytes : is_u64 leaves -> Forall (fun r => length r = 32%nat) roots ->
  bytes = le_bytes 8 leaves ++ concat roots ->
  bytes <> [] /\ (8 <= length bytes)%nat /\ le_int (take 8 bytes) = leaves /\ drop 8 bytes = concat roots /\
  length (concat roots) = (length roots * 32)%nat.
Proof.
  intros Hu Hr ->. assert (Hc : length (concat roots) = (length roots * 32)%nat).
  { clear -Hr. induction Hr as [|r roots Hr _ IH]; cbn; [done|]. rewrite length_app. lia. }
  rewrite length_app, length_le_bytes, take_app_length', drop_app_length' by (by rewrite length_le_bytes).
  split_and!; [|lia|apply le_int_bytes; unfold is_u64, u64_max in Hu; cbn; lia|done|done].
  intros E. apply (f_equal length) in E. rewrite length_app, length_le_bytes in E. cbn in E. lia.
Qed.
Lemma chunks_length size l : forall k, length (chunks size k l) = k.
Proof. intros k. revert l. induction k as [|k IH]; intros l; cbn; [done|by rewrite IH]. Qed.

(** C16: parse_acc accepts exactly the well-formed accumulators: the empty text, read as
    the empty accumulator, and the encodings of a 64-bit number of leaves followed by as
    many roots of 32 bytes as the number has one bits, and it returns what was encoded. *)
Theorem parse_acc_exact (bytes : list Z) (a : Stump) (Hb : Forall is_byte bytes) :
  parse_acc bytes = Ok a <->
    (bytes = [] /\ a = stump_new) \/
    exists leaves roots, is_u64 leaves /\ length roots = count_ones leaves /\ Forall (fun r => length r = 32%nat) roots /\
      bytes = le_bytes 8 leaves ++ concat roots /\ a = stump_of leaves (map node_hash_from roots).
Proof.
  split.
  - unfold parse_acc. case_bool_decide as He; [intros [= <-]; by left|]. destruct (Nat.ltb_spec (length bytes) 8) as [|Hs]; [done|].
    assert (Ht : length (take 8 bytes) = 8%nat) by (rewrite length_take; lia).
    assert (Hbt : Forall is_byte (take 8 bytes)) by (by apply Forall_take).
    pose proof (le_int_bound _ Hbt) as Hl. pose proof (le_bytes_int _ Hbt) as Hle. rewrite Ht in Hl, Hle.
    set (leaves := le_int (take 8 bytes)) in *.
    destruct (Nat.eqb_spec (length (drop 8 bytes)) (count_ones leaves * 32)) as [Hr|Hr]; cbn [negb]; [|done].
    destruct (chunks_concat 32 (drop 8 bytes) (count_ones leaves) Hr ltac:(lia)) as [Hc Hf]. intros [= <-].
    right. exists leaves, (chunks 32 (count_ones leaves) (drop 8 bytes)).
    split_and!; [unfold is_u64, u64_max; cbn in Hl; lia..|apply chunks_length|done|by rewrite Hle, Hc, take_drop|done].
  - intros [[-> ->]|(leaves & roots & Hu & Hlen & Hroots & E & ->)]; [done|].
    destruct (acc_parts leaves roots bytes Hu Hroots E) as (Hne & Hlong & El & Ed & Hc).
    unfold parse_acc. rewrite bool_decide_eq_false_2 by done. rewrite (proj2 (Nat.ltb_ge _ _)) by done.
    rewrite El, Ed, Hc, Hlen, Nat.eqb_refl. cbn [negb]. rewrite <-Hlen, chunks_of by done. done.
Qed.
End ParseAcc.

Section SelectFork.
Context `{HashLib, TxLib, HeaderLib, UtreexoLib, ScriptBuild} `{!Codec TxOut}.
Context {C MP W : Type} `{!ProofBuild, !StumpBuild, !ChainBackend C, !HashOrder, !MempoolBase MP} `{!Json (list DiskLocalAddress)}.
Context `{!EqDecision Stump} `{!World W (NodeCommon C MP)}.

Abbreviation Node := (NodeCommon C MP) (only parsing).
Abbreviation State := (@Selecting _ C MP W) (only parsing).
Abbreviation Sel := (stm (@Selecting _ C MP W) WireError) (only parsing).

(** * Peers that answer *)

(** A request that is the last one sent to a peer. *)
Definition asked (peer : PeerId) (req : NodeRequest) (n : Node) : Prop :=
  exists p, peers n !! peer = Some p /\ last (channel p) = Some req.
Definition can_ask (peer : PeerId) (n : Node) : Prop :=
  exists p, peers n !! peer = Some p /\ p_state p <> Awaiting /\ channel_open p = true.

(** [peer1] and [peer2] answer requests for the state at a height with [acc1]
    and [acc2], whatever the hash of the request, and nothing else arrives; times
    are not before [start]. *)
Definition answers (start : Z) (peer1 peer2 : PeerId) (acc1 acc2 : Z -> list Z) (idle : W -> Prop) : Prop :=
  forall (n : Node) hash h w, idle w -> asked peer1 (GetUtreexoState hash h) n -> asked peer2 (GetUtreexoState hash h) n ->
  exists e1 e2 t1 w1 t2 w2, world_recv n w = (t1, Some e1, w1) /\ world_recv n w1 = (t2, Some e2, w2) /\ start <= t2 /\ idle w2 /\
    exists t t', (e1 = FromPeer peer1 (MsgUtreexoState (acc1 h)) t /\ e2 = FromPeer peer2 (MsgUtreexoState (acc2 h)) t') \/
      (e1 = FromPeer peer2 (MsgUtreexoState (acc2 h)) t /\ e2 = FromPeer peer1 (MsgUtreexoState (acc1 h)) t').

(** Both peers can be asked, and nothing is on its way. *)
Record quiet (start : Z) (peer1 peer2 : PeerId) (idle : W -> Prop) (c : C) (s : State) : Prop := {
  q_chain : chain (sel_node s) = c;
  q_peer1 : can_ask peer1 (sel_node s);
  q_peer2 : can_ask peer2 (sel_node s);
  q_idle : idle (world s);
  q_clock : start <= clock s
}.

Lemma send_asked peer req (n : Node) : can_ask peer n -> exists n', send_to_peer peer req n = (Ok tt, n') /\
  asked peer req n' /\ chain n' = chain n /\ (forall id, can_ask id n -> can_ask id n') /\
  (forall id r, id <> peer -> asked id r n -> asked id r n').
Proof.
  intros (p & Hp & Hs & Ho). unfold send_to_peer, send_on_channel. rewrite Hp, bool_decide_eq_false_2, Ho by done.
  eexists. split_and!; [done|..|done| |].
  - exists (push_request req p). split; [cbn; by rewrite lookup_alter_eq, Hp|]. apply last_snoc.
  - intros id (q & Hq & Hqs & Hqo). destruct (decide (id = peer)) as [->|Hne].
    + exists (push_request req p). split_and!; [cbn; by rewrite lookup_alter_eq, Hp|done|done].
    + exists q. split_and!; [cbn; by rewrite lookup_alter_ne|done|done].
  - intros id r Hne (q & Hq & Hl). exists q. split; [cbn; by rewrite lookup_alter_ne|done].
Qed.

Lemma on_node_ok {A} (m : stm (NodeCommon C MP) WireError A) a n' (s : State) : m (sel_node s) = (Ok a, n') ->
  (on_node m : Sel A) s = (Ok a, set_sel_node n' s).
Proof. intros E. unfold on_node. by rewrite E. Qed.

Section Two.
Context (start : Z) (peer1 peer2 : PeerId) (acc1 acc2 : Z -> list Z) (idle : W -> Prop).
Hypothesis Hne : peer1 <> peer2.
Hypothesis Hans : answers start peer1 peer2 acc1 acc2 idle.

Lemma grab_answers c hash h (s : State) : quiet start peer1 peer2 idle c s ->
  exists s', grab_both_peers_version peer1 peer2 hash h s = (Ok (Some (acc1 h), Some (acc2 h)), s') /\ quiet start peer1 peer2 idle c s'.
Proof.
  intros [Hc Hp1 Hp2 Hi _]. unfold grab_both_peers_version.
  destruct (send_asked peer1 (GetUtreexoState hash h) (sel_node s) Hp1) as (n1 & E1 & A1 & C1 & K1 & _).
  destruct (send_asked peer2 (GetUtreexoState hash h) n1 (K1 _ Hp2)) as (n2 & E2 & A2 & C2 & K2 & A3).
  destruct (Hans n2 hash h (world s) Hi (A3 peer1 _ Hne A1) A2) as (e1 & e2 & t1 & w1 & t2 & w2 & R1 & R2 & Ht2 & Hi2 & t & t' & He).
  unfold mbind at 1, stm_bind at 1. rewrite (on_node_ok _ tt n1) by done.
  unfold mbind at 1, stm_bind at 1. rewrite (on_node_ok _ tt n2) by done.
  unfold mbind, stm_bind, recv. cbn [sel_node world set_sel_node]. rewrite R1. cbn [sel_node world]. rewrite R2.
  assert (Ev : note_version peer1 peer2 (note_version peer1 peer2 (None, None) (Some e1)) (Some e2) = (Some (acc1 h), Some (acc2 h))).
  { destruct He as [[-> ->]|[-> ->]]; cbn; rewrite ?Z.eqb_refl, ?(proj2 (Z.eqb_neq peer2 peer1)) by done; cbn; by rewrite ?Z.eqb_refl. }
  rewrite Ev. eexists. split; [reflexivity|]. split; cbn; [congruence|auto|auto|done|done].
Qed.

(** * The search *)

(** A chain of headers up to [top]. *)
Definition chain_to (c : C) (top : Z) : Prop :=
  (exists tip, chain_best_block c = Ok (top, tip)) /\ 0 <= top <= u32_max /\
  forall h, 0 <= h <= top -> exists b, chain_block_hash c h = Ok b.

(** The peers agree on exactly the blocks up to [fork]. *)
Definition agree_to (fork top : Z) : Prop := forall h, 0 <= h <= top -> acc1 h = acc2 h <-> h <= fork.

Section Search.
Context (c : C) (top fork : Z).
Hypothesis Hc : chain_to c top.
Hypothesis Hf : agree_to fork top.

Lemma narrow_step height d : 0 <= height <= top -> 0 <= d ->
  (height <= fork -> height + 2 * (d / 2) <= top) -> (fork < height -> 2 * (d / 2) <= height) ->
  exists h', (if bool_decide (acc1 height = acc2 height) then u32_add height (d / 2) else u32_sub height (d / 2) : outcome WireError Z) = Ok h' /\
    Z.abs (h' - height) = d / 2 /\ 0 <= h' - d / 2 /\ h' + d / 2 <= top.
Proof.
  intros Hh Hd Hup Hdown. destruct Hc as (_ & Ht & _). pose proof (Z.div_pos d 2 ltac:(lia) ltac:(lia)). pose proof (Hf height Hh) as Ha.
  case_bool_decide as He.
  - apply Ha in He. exists (height + d / 2). unfold u32_add. rewrite (proj2 (Z.leb_le _ _)) by lia. split; [done|lia].
  - assert (fork < height) by (destruct (Z.le_gt_cases height fork) as [Hle|]; [apply Ha in Hle; by destruct He|lia]).
    exists (height - d / 2). unfold u32_sub. rewrite (proj2 (Z.leb_le _ _)) by lia. split; [done|lia].
Qed.
(** The heights asked for stay in the chain, since every step is at most half of
    the room that is left. *)
Lemma narrow_lands k : forall height hash prev (s : State), quiet start peer1 peer2 idle c s -> 0 <= height <= top ->
  let d := Z.abs (height - prev) in
  (height <= fork -> height + 2 * (d / 2) <= top) -> (fork < height -> 2 * (d / 2) <= height) -> d < 5 * 2 ^ Z.of_nat k ->
  exists h b s', narrow_loop (S k) peer1 peer2 height hash prev s = (Ok (inr (h, b)), s') /\ quiet start peer1 peer2 idle c s' /\ 0 <= h <= top.
Proof.
  induction k as [|k IH]; intros height hash prev s Hq Hh d Hup Hdown Hd; cbn [narrow_loop];
    destruct (grab_answers c hash height s Hq) as (s1 & Eg & Hq1);
    unfold mbind at 1, stm_bind at 1; rewrite Eg; cbn [both_versions]; fold d.
  { rewrite (proj2 (Z.ltb_lt d 5)) by (cbn in Hd; lia). by exists height, hash, s1. }
  destruct (Z.ltb_spec d 5); [by exists height, hash, s1|].
  assert (Hstep := narrow_step height d Hh ltac:(lia) Hup Hdown).
  destruct Hstep as (h' & Eh & Ed & Hlo & Hhi). unfold mbind at 1, stm_bind at 1. rewrite Eh. cbn [lift].
  unfold mbind at 1, stm_bind at 1. cbn [gets]. rewrite (q_chain _ _ _ _ _ _ Hq1).
  pose proof (Z.div_pos d 2 ltac:(lia) ltac:(lia)).
  destruct (proj2 (proj2 Hc) h' ltac:(lia)) as [b Hb]. unfold mbind at 1, stm_bind at 1. rewrite Hb. cbn [lift unwrap].
  pose proof (Z.mul_div_le (d / 2) 2 ltac:(lia)).
  apply IH; [done|lia|rewrite Ed; lia..|]. rewrite Ed. apply Z.div_lt_upper_bound; [lia|].
  rewrite Nat2Z.inj_succ, Z.pow_succ_r in Hd by lia. lia.
Qed.

(** Upwards, while they agree. *)
Lemma fork_above k : forall height hash (s : State), quiet start peer1 peer2 idle c s -> 0 < height <= fork + 1 -> 0 < fork < top ->
  fork + 1 - height < Z.of_nat k ->
  exists s', fork_loop k peer1 peer2 true height hash s = (Ok fork, s') /\ quiet start peer1 peer2 idle c s'.
Proof.
  induction k as [|k IH]; intros height hash s Hq Hh Hfk Hk; [lia|]. cbn [fork_loop].
  destruct (grab_answers c hash height s Hq) as (s1 & Eg & Hq1). unfold mbind at 1, stm_bind at 1. rewrite Eg. cbn [fst snd].
  pose proof (Hf height ltac:(lia)) as Ha. pose proof (proj1 (proj2 Hc)) as Hu. unfold fork_at, next_height.
  destruct (Z.eq_dec height (fork + 1)) as [->|Hlt].
  - rewrite bool_decide_eq_false_2 by (intros [= E]; apply Ha in E; lia). unfold u32_sub. rewrite (proj2 (Z.leb_le _ _)) by lia.
    unfold mbind, stm_bind. cbn [lift]. replace (fork + 1 - 1) with fork by lia. rewrite (proj2 (Z.eqb_neq fork 0)) by lia. by exists s1.
  - rewrite bool_decide_eq_true_2 by (f_equal; apply Ha; lia). unfold mbind at 1, stm_bind at 1. cbn [lift]. rewrite Z.eqb_refl. cbn [negb].
    unfold u32_add. rewrite (proj2 (Z.leb_le _ _)) by lia. unfold mbind at 1, stm_bind at 1. cbn [lift].
    destruct (proj2 (proj2 Hc) (height + 1) ltac:(lia)) as [b Hb].
    unfold mbind at 1, stm_bind at 1, ask_chain, on_node, on_chain, gets. rewrite (q_chain _ _ _ _ _ _ Hq1), Hb. cbn [map_err].
    apply IH; [by destruct s1, Hq1|lia..].
Qed.
(** Downwards, while they disagree. *)
Lemma fork_below k : forall height hash (s : State), quiet start peer1 peer2 idle c s -> fork <= height <= top -> 0 < fork ->
  height - fork < Z.of_nat k ->
  exists s', fork_loop k peer1 peer2 false height hash s = (Ok fork, s') /\ quiet start peer1 peer2 idle c s'.
Proof.
  induction k as [|k IH]; intros height hash s Hq Hh Hfk Hk; [lia|]. cbn [fork_loop].
  destruct (grab_answers c hash height s Hq) as (s1 & Eg & Hq1). unfold mbind at 1, stm_bind at 1. rewrite Eg. cbn [fst snd].
  pose proof (Hf height ltac:(lia)) as Ha. unfold fork_at, next_height. destruct (Z.eq_dec height fork) as [->|Hlt].
  - rewrite bool_decide_eq_true_2 by (f_equal; apply Ha; lia). unfold mbind, stm_bind. cbn [lift].
    rewrite (proj2 (Z.eqb_neq fork 0)) by lia. by exists s1.
  - rewrite bool_decide_eq_false_2 by (intros [= E]; apply Ha in E; lia). unfold mbind at 1, stm_bind at 1. cbn [lift].
    rewrite Z.eqb_refl. cbn [negb].
    unfold u32_sub. rewrite (proj2 (Z.leb_le _ _)) by lia. unfold mbind at 1, stm_bind at 1. cbn [lift].
    destruct (proj2 (proj2 Hc) (height - 1) ltac:(lia)) as [b Hb].
    unfold mbind at 1, stm_bind at 1, ask_chain, on_node, on_chain, gets. rewrite (q_chain _ _ _ _ _ _ Hq1), Hb. cbn [map_err].
    apply IH; [by destruct s1, Hq1|lia..].
Qed.

Lemma find_fork_exact fuel (s : State) : quiet start peer1 peer2 idle c s -> 0 < fork < top -> top < Z.of_nat fuel ->
  exists s', find_fork fuel peer1 peer2 s = (Ok (inr fork), s') /\ quiet start peer1 peer2 idle c s'.
Proof.
  intros Hq Hfk Hfuel. unfold find_fork. destruct Hc as ((tip & Hbest) & Hu & _).
  unfold mbind at 1, stm_bind at 1, ask_chain at 1, on_node at 1, on_chain, gets. rewrite (q_chain _ _ _ _ _ _ Hq), Hbest. cbn [map_err].
  set (s0 := set_sel_node (sel_node s) s). assert (Hq0 : quiet start peer1 peer2 idle c s0) by (by destruct s, Hq).
  cbn [fst snd]. destruct (narrow_lands 32 top tip 0 s0 Hq0) as (h & b & s1 & En & Hq1 & Hh).
  { lia. } { intros ?. lia. } { intros _. rewrite Z.sub_0_r, Z.abs_eq by lia. apply Z.mul_div_le. lia. }
  { unfold u32_max in Hu. cbn. lia. }
  unfold mbind at 1, stm_bind at 1. unfold narrow_fuel. rewrite En.
  destruct (grab_answers c b h s1 Hq1) as (s2 & Eg & Hq2). unfold mbind at 1, stm_bind at 1. rewrite Eg. cbn [fst snd].
  pose proof (Hf h Hh) as Ha. unfold next_height. destruct (Z.le_gt_cases h fork) as [Hle|Hgt].
  - rewrite bool_decide_eq_true_2 by (f_equal; by apply Ha). unfold u32_add. rewrite (proj2 (Z.leb_le _ _)) by lia.
    unfold mbind, stm_bind. cbn [lift]. destruct (fork_above fuel (h + 1) b s2 Hq2) as (s3 & -> & Hq3); [lia..|]. by exists s3.
  - rewrite bool_decide_eq_false_2 by (intros [= E]; apply Ha in E; lia). unfold u32_sub. rewrite (proj2 (Z.leb_le _ _)) by lia.
    unfold mbind, stm_bind. cbn [lift]. destruct (fork_below fuel (h - 1) b s2 Hq2) as (s3 & -> & Hq3); [lia..|]. by exists s3.
Qed.

(** ** The block after the fork *)

(** [peer1] sends a block and then its proof when it is asked for them. *)
Definition sends_block (hash : BlockHash) (b : Block) (u : UtreexoProof) : Prop :=
  blk_hash b = hash /\ is_mutated b = false /\
  forall (n : Node) w, idle w -> asked peer1 (GetBlock [hash] WitnessFull) n ->
  exists t1 t w1, world_recv n w = (t1, Some (FromPeer peer1 (MsgBlock b) t), w1) /\ t1 <= start + 60 /\
    forall n' : Node, asked peer1 (GetBlockProof hash bitmap_new bitmap_new) n' ->
      exists t2 t' w2, world_recv n' w1 = (t2, Some (FromPeer peer1 (MsgUtreexoProof u) t'), w2).

Lemma block_arrives fuel hash b u (s : State) : quiet start peer1 peer2 idle c s -> sends_block hash b u ->
  exists s', get_block_and_proof (S (S fuel)) peer1 hash s =
    (Ok (mkInflight peer1 b (Some (leaf_data u, proof_of (proof_hashes u) (targets u), peer1)) None), s') /\ chain (sel_node s') = c.
Proof.
  intros [Hch Hp1 _ Hi Hcl] (Hb & Hm & Hs). unfold get_block_and_proof.
  destruct (send_asked peer1 (GetBlock [hash] WitnessFull) (sel_node s) Hp1) as (n1 & E1 & A1 & C1 & K1 & _).
  unfold mbind at 1, stm_bind at 1. rewrite (on_node_ok _ tt n1) by done. unfold mbind at 1, stm_bind at 1. cbn [gets].
  destruct (Hs n1 (world s) Hi A1) as (t1 & t & w1 & R1 & Ht & Hp).
  cbn [wait_block]. unfold mbind at 1, stm_bind at 1. cbn [gets]. change (clock (set_sel_node n1 s)) with (clock s).
  rewrite (proj2 (Z.ltb_ge _ _)) by lia. unfold mbind at 1, stm_bind at 1, recv at 1. cbn [sel_node set_sel_node world]. rewrite R1.
  rewrite Z.eqb_refl. cbn [negb]. rewrite Hb, Z.eqb_refl, Hm. cbn [negb].
  destruct (send_asked peer1 (GetBlockProof hash bitmap_new bitmap_new) n1 (K1 _ Hp1)) as (n2 & E2 & A2 & C2 & _ & _).
  unfold mbind at 1, stm_bind at 1. rewrite (on_node_ok _ tt n2) by done. destruct (Hp n2 A2) as (t2 & t' & w2 & R2).
  unfold mbind at 1, stm_bind at 1. cbn [gets clock set_sel_node]. rewrite (proj2 (Z.ltb_ge _ _)) by lia.
  unfold mbind at 1, stm_bind at 1, recv at 1. cbn [sel_node set_sel_node world]. rewrite R2. rewrite Z.eqb_refl. cbn [negb].
  eexists. split; [reflexivity|]. cbn. congruence.
Qed.

Lemma check_fork_verdict fuel (s : State) hash b u dels ins agreed acc st1 st2 :
  quiet start peer1 peer2 idle c s -> 0 < fork < top -> chain_block_hash c (fork + 1) = Ok hash -> sends_block hash b u ->
  process_proof UtreexoLeaf (chain_block_hash c) (chain_mtp_by_height c) (leaf_data u) (txdata b) = Ok (dels, ins) ->
  parse_acc (acc1 fork) = Ok agreed -> chain_update_acc c agreed b (fork + 1) (proof_of (proof_hashes u) (targets u)) dels = Ok acc ->
  parse_acc (acc1 (fork + 1)) = Ok st1 -> parse_acc (acc2 (fork + 1)) = Ok st2 ->
  exists s', check_fork (S (S fuel)) peer1 peer2 fork s = (Ok (verdict peer1 peer2 st1 st2 acc), s') /\ chain (sel_node s') = c.
Proof.
  intros Hq Hfk Hh Hs Hpp Hag Hup Hs1 Hs2. unfold check_fork. destruct (proj2 (proj2 Hc) fork ltac:(lia)) as [hf Hhf].
  assert (Hset : forall s1, quiet start peer1 peer2 idle c s1 -> set_sel_node (sel_node s1) s1 = s1) by (by intros []).
  unfold mbind at 1, stm_bind at 1, ask_chain at 1, on_node at 1, on_chain, gets. rewrite (q_chain _ _ _ _ _ _ Hq), Hhf. cbn [map_err].
  rewrite Hset by done. destruct (grab_answers c hf fork s Hq) as (s1 & E1 & Hq1). unfold mbind at 1, stm_bind at 1. rewrite E1.
  unfold mbind at 1, stm_bind at 1. rewrite Hag. cbn [lift]. unfold mbind at 1, stm_bind at 1, u32_add. pose proof (proj1 (proj2 Hc)).
  rewrite (proj2 (Z.leb_le _ _)) by lia. cbn [lift]. unfold mbind at 1, stm_bind at 1, ask_chain at 1, on_node at 1, on_chain, gets.
  rewrite (q_chain _ _ _ _ _ _ Hq1), Hh. cbn [map_err]. rewrite Hset by done.
  destruct (grab_answers c hash (fork + 1) s1 Hq1) as (s2 & E2 & Hq2). unfold mbind at 1, stm_bind at 1. rewrite E2. cbn [both_versions].
  destruct (block_arrives fuel hash b u s2 Hq2 Hs) as (s3 & E3 & Hc3). unfold mbind at 1, stm_bind at 1, block_or_timeout. rewrite E3.
  cbn [mbind outcome_bind aux_data expect]. unfold stm_bind at 1. cbn [lift].
  unfold mbind at 1, stm_bind at 1, select_update_acc, proof_data, ask_chain, on_node, on_chain, gets, mbind, stm_bind.
  unfold lift. cbv beta iota zeta. cbn [ib_block]. rewrite Hc3, Hpp. cbn [map_err set_sel_node sel_node chain]. rewrite Hc3, Hup.
  cbn [map_err]. rewrite Hs1, Hs2. eexists. split; [reflexivity|]. done.
Qed.
End Search.

(** ** When the search panics *)

(** Peers that agree on the tip send the search above it. *)
Lemma agreeing_panics c top fuel (s : State) : quiet start peer1 peer2 idle c s -> chain_to c top -> 5 <= top ->
  acc1 top = acc2 top -> (forall b, chain_block_hash c (top + top / 2) <> Ok b) -> ends (chain_block_hash c (top + top / 2)) ->
  exists s', find_who_is_lying fuel peer1 peer2 s = (Panic, s').
Proof.
  intros Hq Hch Htop Hacc Hno Hends. destruct Hch as ((tip & Hbest) & Hu & _).
  unfold find_who_is_lying, find_fork, mbind at 1 2, stm_bind at 1 2, ask_chain at 1, on_node at 1, on_chain, gets.
  rewrite (q_chain _ _ _ _ _ _ Hq), Hbest. cbn [map_err]. set (s0 := set_sel_node (sel_node s) s).
  assert (Hq0 : quiet start peer1 peer2 idle c s0) by (by destruct s, Hq).
  unfold mbind at 1, stm_bind at 1. unfold narrow_fuel. cbn [narrow_loop fst snd].
  destruct (grab_answers c tip top s0 Hq0) as (s1 & Eg & Hq1). unfold mbind at 1, stm_bind at 1. rewrite Eg. cbn [both_versions].
  rewrite Z.sub_0_r, Z.abs_eq by lia. rewrite (proj2 (Z.ltb_ge top 5)) by lia. rewrite (bool_decide_eq_true_2 _ Hacc).
  unfold mbind at 1, stm_bind at 1, u32_add, lift. destruct (_ <=? u32_max); [|by eexists].
  unfold mbind at 1, stm_bind at 1, mbind at 1, stm_bind at 1. cbn [gets]. rewrite (q_chain _ _ _ _ _ _ Hq1).
  destruct (chain_block_hash c (top + top / 2)) as [b| | |]; cbn [unwrap]; [by destruct (Hno b)|by eexists..|done].
Qed.

End Two.

(** C14: The cut-and-choose protocol finds the liar: when two peers that answer agree on
    the accumulators of exactly the blocks up to a height after the genesis block and
    below the tip, and the first of them delivers the block after it with its proof,
    find_who_is_lying ends, changes nothing in the chain, and blames the peer whose
    accumulator for that block is not the one computed from the agreed accumulator and
    the block, or both. *)
Theorem liar_is_found (start : Z) (peer1 peer2 : PeerId) (acc1 acc2 : Z -> list Z) (idle : W -> Prop) (c : C) (top fork : Z) (fuel : nat)
  (s : State) (hash : BlockHash) (b : Block) (u : UtreexoProof) dels ins (agreed acc st1 st2 : Stump)
  (Hne : peer1 <> peer2) (Hans : answers start peer1 peer2 acc1 acc2 idle) (Hq : quiet start peer1 peer2 idle c s)
  (Hc : chain_to c top) (Hf : agree_to acc1 acc2 fork top) (Hfork : 0 < fork < top) (Hfuel : top < Z.of_nat fuel)
  (Hh : chain_block_hash c (fork + 1) = Ok hash) (Hs : sends_block start peer1 idle hash b u)
  (Hpp : process_proof UtreexoLeaf (chain_block_hash c) (chain_mtp_by_height c) (leaf_data u) (txdata b) = Ok (dels, ins))
  (Hag : parse_acc (acc1 fork) = Ok agreed)
  (Hup : chain_update_acc c agreed b (fork + 1) (proof_of (proof_hashes u) (targets u)) dels = Ok acc)
  (Hs1 : parse_acc (acc1 (fork + 1)) = Ok st1) (Hs2 : parse_acc (acc2 (fork + 1)) = Ok st2) :
  exists check s', find_who_is_lying fuel peer1 peer2 s = (Ok check, s') /\ chain (sel_node s') = c /\
    (st1 = acc -> check = OneLying peer2) /\ (st1 <> acc -> st2 = acc -> check = OneLying peer1) /\
    (st1 <> acc -> st2 <> acc -> check = BothLying).
Proof.
  destruct (find_fork_exact start peer1 peer2 acc1 acc2 idle Hne Hans c top fork Hc Hf fuel s Hq Hfork Hfuel) as (s1 & E1 & Hq1).
  destruct fuel as [|[|fuel]]; [lia..|].
  destruct (check_fork_verdict start peer1 peer2 acc1 acc2 idle Hne Hans c top fork Hc fuel s1 hash b u dels ins agreed acc st1 st2)
    as (s2 & E2 & Hc2); try done.
  exists (verdict peer1 peer2 st1 st2 acc), s2. unfold find_who_is_lying, mbind, stm_bind. rewrite E1, E2. unfold verdict.
  split_and!; [done|done|..].
  - intros ->. by rewrite (bool_decide_eq_false_2 (acc <> acc)) by (intros Hx; by apply Hx).
  - intros ? ->. by rewrite bool_decide_eq_true_2, (bool_decide_eq_false_2 (acc <> acc)) by (done || (intros Hx; by apply Hx)).
  - intros ? ?. by rewrite !bool_decide_eq_true_2.
Qed.

(** C15: find_accumulator_for_block panics when the first two of the sorted candidates
    agree and a third differs: equal answers of different peers are not merged, so two
    peers that agree up to the tip are compared, and the binary search goes above the
    tip, where the hash of the block is unwrapped. *)
Theorem agreeing_peers_panic (start : Z) (peer1 peer2 : PeerId) (acc1 acc2 : Z -> list Z) (idle : W -> Prop) (c : C) (top : Z)
  (fuel : nat) (unix : Z) (s s1 : State) (hash : BlockHash) (height : Z) (accs rest : list (PeerId * list Z)) (acc : list Z)
  (Hstep : find_accumulator_for_block_step fuel unix hash height s = (Ok (KeepLooking accs), s1))
  (Haccs : dedup_accs (sort_accs accs) = (peer1, acc) :: (peer2, acc) :: rest)
  (Hne : peer1 <> peer2) (Hans : answers start peer1 peer2 acc1 acc2 idle) (Hq : quiet start peer1 peer2 idle c s1)
  (Hc : chain_to c top) (Htop : 5 <= top) (Hagree : acc1 top = acc2 top)
  (Habove : exists e, chain_block_hash c (top + top / 2) = Err e) :
  exists s', find_accumulator_for_block fuel unix height hash s = (Panic, s').
Proof.
  unfold find_accumulator_for_block. rewrite Hstep, Haccs. unfold judge, mbind at 1, stm_bind at 1. cbn [windows judge_loop snd].
  rewrite (bool_decide_eq_false_2 (acc ∈ [])) by apply not_elem_of_nil. cbn [orb fst]. unfold mbind, stm_bind.
  destruct Habove as [e He].
  destruct (agreeing_panics start peer1 peer2 acc1 acc2 idle Hne Hans c top fuel s1 Hq Hc Htop Hagree) as [s2 ->];
    [by rewrite He|by rewrite He|]. by exists s2.
Qed.
End SelectFork.
