(* ===== verification/SwiftNode.v ===== *)
(** The node while it synchronises with SwiftSync
    ([src/crates/floresta-wire/src/p2p_wire/node/swift_sync_ctx.rs]): blocks
    are downloaded and processed by workers in any order, the aggregator and the
    supply are updated when a worker reports, and the additions go to the
    accumulator updater.  The loop of [run] is the relation [swift_step].

    The workers are the reports they will send, in no order; the updater task is
    the messages sent to it and the number of those it has processed.  The hints
    file is read by a library, which is a parameter. *)

From stdpp Require Import base gmap list strings.
From Stdlib Require Import ZArith Lia.
From S2P Require Import Prelude Bitcoin Errors ChainParams Codec Merkle Sigops Extensions Udata SwiftSync Consensus ChainQuery.
From S2P Require Import Filters StumpUpdater BlockProof Text Onion SocketAddr.
From S2P Require Import Mempool AddressMan Node NodeBlocks NodePeers NodeConn SyncNode.

Definition DEFAULT_WORKERS : nat := 4.

(** [impl NodeContext for SwiftSync]; its [ASSUME_STALE] is the field
    [TIP_ASSUME_STALE]. *)
Definition SwiftContext : NodeContext := mkContext (2 * 60) 30 100 (60 * 60 * 24) 10 5 40 4 (2 * 60) 15 30.

(** [Hintsfile]: its reader, the stop height, and the indices at a height,
    looked up or taken out. *)
Class HintsLib (H : Type) := {
  hints_from_reader : list Z -> option H;
  hints_stop_height : H -> Z;
  indices_at_height : H -> Z -> option (list Z);
  take_indices : Z -> H -> H
}.

(** What the hints promise: taking the indices of a height takes no others. *)
Class HintsOk (H : Type) `{!HintsLib H} : Prop :=
  indices_taken : forall k (hs : H) h, indices_at_height (take_indices k hs) h = if h =? k then None else indices_at_height hs h.

(** The progress shown does not change the chain. *)
Class IbdNeutral `{UtreexoLib} (C : Type) `{!ChainBackend C} : Prop := {
  ibd_block_height : forall i (c : C) x, chain_block_height (chain_update_ibd i c) x = chain_block_height c x;
  ibd_block_hash : forall i (c : C) h, chain_block_hash (chain_update_ibd i c) h = chain_block_hash c h
}.

(** ** The accumulator updater, as the node sees it *)

Section Handle.
Context `{UtreexoLib, !ProofBuild}.

#[export] Instance updater_proof : ProofDefault := {| StumpUpdater.proof_default := proof_of [] [] |}.

(** [StumpUpdaterHandle]: what the task was started with, the messages sent to
    it, and how many of them it has processed. *)
Record StumpUpdaterHandle := mkHandle {
  h_acc : Stump;
  h_height : Z;
  h_stop : Z;
  h_tx : list (Z * SparseUtreexoAdds);
  h_received : nat
}.
Definition handle_spawn {E} (acc : Stump) (height stop : Z) : outcome E StumpUpdaterHandle :=
  _ ← updater_spawn acc height stop;
  Ok (mkHandle acc height stop [] 0).
(** What the task has come to: its result, nothing yet, or a panic. *)
Definition handle_result {E} (h : StumpUpdaterHandle) : outcome E (option Stump) :=
  run_updater (h_acc h) (h_height h) (h_stop h) (take (h_received h) (h_tx h)).
(** [tx.send(..).expect(..)]: the task has to be alive. *)
Definition handle_send {E} (m : Z * SparseUtreexoAdds) (h : StumpUpdaterHandle) : outcome E StumpUpdaterHandle :=
  r ← handle_result h;
  match r with
  | None => Ok (mkHandle (h_acc h) (h_height h) (h_stop h) (h_tx h ++ [m]) (h_received h))
  | Some _ => Panic
  end.
(** The task takes the next message. *)
Definition handle_receive (h : StumpUpdaterHandle) : StumpUpdaterHandle :=
  mkHandle (h_acc h) (h_height h) (h_stop h) (h_tx h) (S (h_received h)).
End Handle.

Section SwiftNode.
Context `{HashLib, TxLib, HeaderLib, UtreexoLib, ScriptBuild} `{!Codec TxOut}.
Context {C MP Hints : Type} `{!ProofBuild, !ChainBackend C, !HashOrder, !MempoolBase MP} `{!Json (list DiskLocalAddress)}.
Context `{!HintsLib Hints}.
Context (seeds : Network -> list Z) (average : option Z -> Z -> Z).

Abbreviation Node := (NodeCommon C MP) (only parsing).
Abbreviation M := (stm (NodeCommon C MP) WireError) (only parsing).

(** * State *)

Record SwiftSync := mkSwiftSync {
  stump_updater : option StumpUpdaterHandle;
  max_workers : nat;
  agg : SwiftSyncAgg;
  salt : SipHashKeys;
  supply : Z;
  stop_height : Z;
  processed_blocks : Z;
  abort_height : option Z
}.
Definition swift_default : SwiftSync := mkSwiftSync None 0 agg_zero (mkSipHashKeys 0 0 0 0) 0 0 0 None.

(** What a worker sends to the node when it is done. *)
Record WorkerReport := mkReport { wr_result : WorkerResult; wr_hash : BlockHash; wr_height : Z }.

(** The node with its context, the hints, a local of [run], and the workers. *)
Record Swift := mkSwift {
  sw_node : Node;
  context : SwiftSync;
  sw_hints : Hints;
  workers : list WorkerReport
}.
Abbreviation Sw := (stm Swift WireError) (only parsing).

Definition set_sw_node (n : Node) (s : Swift) : Swift := mkSwift n (context s) (sw_hints s) (workers s).
Definition alter_context (f : SwiftSync -> SwiftSync) (s : Swift) : Swift :=
  mkSwift (sw_node s) (f (context s)) (sw_hints s) (workers s).
Definition set_sw_hints (x : Hints) (s : Swift) : Swift := mkSwift (sw_node s) (context s) x (workers s).
Definition set_workers (x : list WorkerReport) (s : Swift) : Swift := mkSwift (sw_node s) (context s) (sw_hints s) x.

Definition set_updater (x : option StumpUpdaterHandle) (c : SwiftSync) : SwiftSync :=
  mkSwiftSync x (max_workers c) (agg c) (salt c) (supply c) (stop_height c) (processed_blocks c) (abort_height c).
Definition set_sums (a : SwiftSyncAgg) (total : Z) (c : SwiftSync) : SwiftSync :=
  mkSwiftSync (stump_updater c) (max_workers c) a (salt c) total (stop_height c) (processed_blocks c) (abort_height c).
Definition set_processed_blocks (x : Z) (c : SwiftSync) : SwiftSync :=
  mkSwiftSync (stump_updater c) (max_workers c) (agg c) (salt c) (supply c) (stop_height c) x (abort_height c).
Definition set_abort_height (h : Z) (c : SwiftSync) : SwiftSync :=
  mkSwiftSync (stump_updater c) (max_workers c) (agg c) (salt c) (supply c) (stop_height c) (processed_blocks c) (Some h).

Definition was_aborted (s : Swift) : bool := bool_decide (is_Some (abort_height (context s))).

Definition on_swift {A} (m : M A) : Sw A := fun s => let '(o, n) := m (sw_node s) in (o, set_sw_node n s).
Definition ignore_swift {A} (m : Sw A) : Sw unit := fun s =>
  match m s with
  | (Ok _, s') | (Err _, s') => (Ok tt, s')
  | (Panic, s') => (Panic, s')
  | (Diverge, s') => (Diverge, s')
  end.

(** [Consensus::from(self.network)]. *)
Definition swift_consensus (n : Node) : ChainParams := chain_params_from (cfg_network (config n)).

Definition show_progress (s : Swift) : Swift :=
  let i := SwiftSyncing (processed_blocks (context s)) (stop_height (context s)) in
  set_sw_node (set_chain (chain_update_ibd i (chain (sw_node s))) (sw_node s)) s.

Section Handlers.
Context (now unix : Z).

(** * Downloads *)

(** The loop of [refill_block_requests]: the hashes to request. *)
Fixpoint refill_loop (k : nat) (stop : Z) : M (list BlockHash) :=
  match k with
  | O => mret []
  | S k =>
      next_height ← gets (fun n => u32_add (last_block_request n) 1);
      if stop <? next_height then mret []
      else
        n ← gets Ok;
        match chain_block_hash (chain n) next_height with
        | Panic => lift Panic
        | Diverge => lift Diverge
        | Err _ => mret []
        | Ok next_block =>
            _ ← modify (set_last_block_request next_height);
            more ← refill_loop k stop;
            mret (next_block :: more)
        end
  end.
(** An error of the request rolls the last requested height back. *)
Definition request_or_rollback (prev : Z) (hashes : list BlockHash) : M unit := fun n =>
  match request_blocks now hashes n with
  | (Err _, n) => (Ok tt, set_last_block_request prev n)
  | r => r
  end.
Definition refill_block_requests : Sw unit :=
  s ← gets Ok;
  if negb (can_request_more_blocks SwiftContext (sw_node s)) || was_aborted s then mret tt
  else on_swift (
    n ← gets Ok;
    hashes ← refill_loop (BLOCKS_PER_GETDATA SwiftContext) (stop_height (context s));
    request_or_rollback (last_block_request n) hashes).

Definition check_swift_connections : M unit :=
  n ← gets Ok;
  if has_fixed_peers n then maybe_open_connection seeds SwiftContext now unix NETWORK
  else
    _ ← (if (MAX_OUTGOING_PEERS SwiftContext <=? connected_peers n)%nat
         then maybe_disconnect_slowest_peer [] false else mret tt);
    maybe_open_connection seeds SwiftContext now unix NETWORK.

(** * Workers *)

Definition is_processing (b : InflightBlock) : bool := bool_decide (is_Some (processing_since b)).
Definition set_processing (b : InflightBlock) : InflightBlock := mkInflight (ib_peer b) (ib_block b) (aux_data b) (Some now).

(** The task of [spawn_blocking]: a panic in it is never reported. *)
Definition spawn_worker (result : outcome BlockchainError SwiftSyncDelta) (hash : BlockHash) (height : Z) (s : Swift) : Swift :=
  match result with
  | Ok delta => set_workers (workers s ++ [mkReport (inr delta) hash height]) s
  | Err e => set_workers (workers s ++ [mkReport (inl e) hash height]) s
  | Panic | Diverge => s
  end.
Definition start_processing_swiftsync (hash : BlockHash) (height : Z) : Sw unit :=
  s ← gets Ok;
  entry ← lift (ok_or (blocks (sw_node s) !! hash) BlockNotFound);
  if is_processing entry then mret tt
  else
    hints ← lift (expect (indices_at_height (sw_hints s) height));
    _ ← on_swift (modify (fun n => set_blocks (<[hash := set_processing entry]> (blocks n)) n));
    let result := process_block_swiftsync (swift_consensus (sw_node s)) (ib_block entry) height (list_to_set hints)
                    (salt (context s)) in
    modify (spawn_worker result hash height).

Definition waiting (n : Node) (hash : BlockHash) : bool :=
  match blocks n !! hash with Some b => negb (is_processing b) | None => false end.
Definition processing_count (n : Node) : nat :=
  length (filter (fun x => is_processing x.2 = true) (map_to_list (blocks n))).
Fixpoint start_all (hashes : list BlockHash) : Sw unit :=
  match hashes with
  | [] => mret tt
  | hash :: rest =>
      found ← on_swift (on_chain (fun c => chain_block_height c hash));
      height ← lift (ok_or found (Blockchain OrphanOrInvalidBlock));
      _ ← start_processing_swiftsync hash height;
      start_all rest
  end.
Definition pump_swiftsync : Sw unit :=
  s ← gets Ok;
  if was_aborted s then mret tt
  else
    let free := (max_workers (context s) - processing_count (sw_node s))%nat in
    if (free =? 0)%nat then mret tt
    else start_all (take free (filter (fun h => waiting (sw_node s) h = true) (order_blocks (dom (blocks (sw_node s)))))).

(** * Reports of workers *)

Definition pump_utreexo_adds (height : Z) (adds : list NodeHash) : Sw unit :=
  s ← gets Ok;
  updater ← lift (expect (stump_updater (context s)));
  sparse ← lift (sparse_new adds);
  updater ← lift (handle_send (height, sparse) updater);
  modify (alter_context (set_updater (Some updater))).

(** The moving average of the processing times is left out. *)
Definition handle_valid_worker_block (block : InflightBlock) : Sw unit :=
  _ ← on_swift (modify (alter_timers (set_last_tip_update now)));
  _ ← lift (expect (processing_since block));
  mret tt.

(** What an error says of a block: it is invalid, it may be a mutation of a
    valid one, it concerns a proof, or it cannot happen. *)
Inductive SwiftFault := SwiftInvalid | SwiftMutated | SwiftProof | SwiftBug.
#[export] Instance SwiftFault_eq_dec : EqDecision SwiftFault.
Proof. solve_decision. Defined.
Definition swift_fault (e : BlockValidationErrors) : SwiftFault :=
  match e with
  | InvalidCoinbase _ | UtxoNotFound _ | ScriptValidationError _ | NullPrevOut | EmptyInputs | EmptyOutputs | ScriptError
  | BlockTooBig | TooManySigops | NotEnoughPow | BadDiffBits | BadVersion | TooManyCoins | NotEnoughMoney
  | FirstTxIsNotCoinbase | BadCoinbaseOutValue | EmptyBlock | BadBip34 | BIP94TimeWarp | UnspendableUTXO
  | NonFinalTransaction | CoinbaseNotMatured | BadRelativeLockTime | DuplicateInput => SwiftInvalid
  | BadMerkleRoot | BadWitnessCommitment => SwiftMutated
  | InvalidUtreexoProof => SwiftProof
  | BlockExtendsAnOrphanChain | BlockDoesntExtendTip => SwiftBug
  end.
Definition handle_invalid_swift_block (chain_err : BlockchainError) (hash : BlockHash) (height : Z) (peer : PeerId) : Sw unit :=
  match block_validation_err chain_err with
  | None => mret tt
  | Some e =>
      match swift_fault e with
      | SwiftBug => mret tt
      | fault =>
          _ ← (match fault with
               | SwiftInvalid =>
                   _ ← modify (alter_context (set_abort_height height));
                   on_swift (ignore_err (chain_step (chain_invalidate_block hash)))
               | SwiftMutated => on_swift (modify (insert_inflight now (InBlocks hash) peer))
               | _ => mret tt
               end);
          _ ← on_swift (disconnect_and_ban peer);
          lift (Err PeerMisbehaving)
      end
  end.

(** The sums after a block: the supply saturates. *)
Definition add_delta (delta : SwiftSyncDelta) (c : SwiftSync) : SwiftSync :=
  set_sums (agg_plus (agg c) (aggregator_delta delta)) (default AMOUNT_MAX (checked_add64 (supply c) (unspent_amount delta))) c.
Definition handle_valid_report (delta : SwiftSyncDelta) (height : Z) (block : InflightBlock) : Sw unit :=
  _ ← modify (alter_context (add_delta delta));
  _ ← pump_utreexo_adds height (utreexo_adds delta);
  _ ← modify (fun s => set_sw_hints (take_indices height (sw_hints s)) s);
  _ ← handle_valid_worker_block block;
  s ← gets Ok;
  _ ← lift (if processed_blocks (context s) <? stop_height (context s) then Ok tt else Panic);
  processed ← lift (u32_add (processed_blocks (context s)) 1);
  _ ← modify (alter_context (set_processed_blocks processed));
  _ ← modify show_progress;
  refill_block_requests.
Definition handle_worker_notification (result : WorkerResult) (hash : BlockHash) (height : Z) : Sw unit :=
  s ← gets Ok;
  if was_aborted s then mret tt
  else
    block ← lift (ok_or (blocks (sw_node s) !! hash) BlockNotFound);
    _ ← on_swift (modify (fun n => set_blocks (delete hash (blocks n)) n));
    match result with
    | inr delta => handle_valid_report delta height block
    | inl e => handle_invalid_swift_block e (block_hash (blk_header (ib_block block))) height (ib_peer block)
    end.

(** * Messages *)

Definition handle_swift_block (block : Block) (peer : PeerId) : Sw unit :=
  let hash := blk_hash block in
  s ← gets Ok;
  if bool_decide (is_Some (blocks (sw_node s) !! hash)) then mret tt
  else match inflight (sw_node s) !! InBlocks hash with
  | None => on_swift (increase_banscore peer 5)
  | Some _ =>
      _ ← on_swift (modify (remove_inflight (InBlocks hash)));
      _ ← on_swift (modify (fun n => set_blocks (<[hash := mkInflight peer block None None]> (blocks n)) n));
      _ ← pump_swiftsync;
      refill_block_requests
  end.
Definition handle_swift_message (peer : PeerId) (msg : PeerMessages) : Sw unit :=
  match msg with
  | MsgBlock block => handle_swift_block block peer
  | MsgReady version => on_swift (ignore_err (handle_peer_ready SwiftContext now unix peer version))
  | MsgDisconnected idx => on_swift (ignore_err (handle_disconnection now unix peer idx))
  | MsgUtreexoProof _ => on_swift (increase_banscore peer 5)
  | _ => mret tt
  end.
Definition swift_message (msg : NodeNotification) : Sw unit :=
  match msg with
  | FromUser (UserBlock _) _ => mret tt
  | FromUser request responder => on_swift (perform_user_request now unix request responder)
  | DnsSeedAddresses addresses => on_swift (modify (alter_man (push_addresses order_addresses addresses)))
  | FromPeer peer notification time =>
      _ ← on_swift (modify (register_message_time average notification peer time));
      unhandled ← on_swift (handle_peer_msg_common unix notification peer);
      match unhandled with
      | None => mret tt
      | Some msg => handle_swift_message peer msg
      end
  | FromWorker result hash height =>
      _ ← handle_worker_notification result hash height;
      pump_swiftsync
  end.

(** * Maintenance *)

(** [done.try_recv()]: a closed channel panics. *)
Definition swift_sync_finished (s : Swift) : outcome WireError (option Stump) :=
  if negb (last_block_request (sw_node s) =? stop_height (context s)) || negb (unprocessed_blocks (sw_node s) =? 0)%nat then Ok None
  else
    updater ← expect (stump_updater (context s));
    handle_result updater.

Definition handle_stop_height_reached (final_acc : Stump) : Sw unit :=
  s ← gets Ok;
  let stop := stop_height (context s) in
  if negb (agg_is_zero (agg (context s))) then modify (alter_context (set_abort_height stop))
  else
    limit ← lift (unwrap (max_supply_at_height (swift_consensus (sw_node s)) stop));
    if limit <? supply (context s) then modify (alter_context (set_abort_height stop))
    else
      tip_hash ← on_swift (on_chain (fun c => chain_block_hash c stop));
      _ ← on_swift (chain_do (chain_mark_assumed final_acc tip_hash));
      mret tt.

Definition swift_jobs : Sw LoopControl :=
  _ ← on_swift (periodic_job now last_connection set_last_connection (TRY_NEW_CONNECTION SwiftContext) check_swift_connections);
  _ ← on_swift (periodic_job now last_feeler set_last_feeler (FEELER_INTERVAL SwiftContext)
                  (open_feeler_connection seeds SwiftContext now unix));
  _ ← on_swift (ignore_err (check_for_timeout SwiftContext now unix));
  s ← gets Ok;
  if TIP_ASSUME_STALE SwiftContext <? saturating_sub now (last_tip_update (timers (sw_node s))) then
    _ ← on_swift (ignore_err (create_connection seeds now unix Extra));
    _ ← on_swift (modify (alter_timers (set_last_tip_update now)));
    mret Continue
  else
    _ ← ignore_swift pump_swiftsync;
    _ ← refill_block_requests;
    mret Continue.
Definition swift_maintenance_tick : Sw LoopControl :=
  s ← gets Ok;
  if kill_signal (sw_node s) then mret Break
  else match abort_height (context s) with
  | Some _ => mret Break
  | None =>
      finished ← lift (swift_sync_finished s);
      match finished with
      | Some final_acc => _ ← handle_stop_height_reached final_acc; mret Break
      | None => swift_jobs
      end
  end.
End Handlers.

(** * Runs *)

(** [parse_hints_file]: [file] is what the file holds, if it can be read. *)
Definition parse_hints_file (file : option (list Z)) : option Hints := bytes ← file; hints_from_reader bytes.

Definition generate_salt (r : nat -> nat) : SipHashKeys :=
  mkSipHashKeys (wrap64 (Z.of_nat (r 0%nat))) (wrap64 (Z.of_nat (r 1%nat))) (wrap64 (Z.of_nat (r 2%nat))) (wrap64 (Z.of_nat (r 3%nat))).

Definition is_user_block (r : UserRequest) : bool := match r with UserBlock _ => true | _ => false end.

(** Whether [run] syncs at all. *)
Definition swift_applies (hints : Hints) (c : C) : outcome BlockchainError bool :=
  validation_idx ← chain_validation_index c;
  if (hints_stop_height hints <=? validation_idx) || negb (validation_idx =? 0) then Ok false
  else
    assume_valid ← chain_assume_valid_height c;
    match assume_valid with
    | None => Ok false
    | Some height => Ok (hints_stop_height hints <=? height)
    end.

(** The node as the loop starts. *)
Definition enter_swift (stop : Z) (n : Node) : Node :=
  let n := set_inflight_user_requests (filter (fun x => is_user_block x.1 = false) (inflight_user_requests n)) n in
  let n := set_last_block_request 0 (set_witness_mode Witnessless n) in
  let n := set_chain (chain_update_ibd (SwiftSyncing 0 stop) (chain n)) n in
  set_draws (tail (draws n)) n.
(** The start of [run]: the state of the loop, or [None] when SwiftSync is
    skipped; [parallelism] is the number of threads of the machine. *)
Definition swift_start (file : option (list Z)) (parallelism : option nat) (ctx : SwiftSync) (n : Node)
  : outcome WireError (option Swift) :=
  match parse_hints_file file with
  | None => Ok None
  | Some hints =>
      applies ← map_err Blockchain (swift_applies hints (chain n));
      if negb applies then Ok None
      else
        let stop := hints_stop_height hints in
        updater ← handle_spawn stump_new 0 stop;
        Ok (Some (mkSwift (enter_swift stop n)
          (mkSwiftSync (Some updater) (default DEFAULT_WORKERS parallelism) (agg ctx)
             (generate_salt (hd (fun _ => 0%nat) (draws n))) (supply ctx) stop 0 (abort_height ctx))
          hints []))
  end.

(** The end of [run]. *)
Definition swift_leave (s : Swift) : Swift :=
  alter_context (set_updater None) (set_sw_node (set_witness_mode WitnessFull (sw_node s)) s).

(** What [catch_up] makes of the node before the proof sync; the node that was
    told to stop goes no further. *)
Definition into_proof_sync (s : Swift) : Node :=
  let n := sw_node (swift_leave s) in
  if was_aborted s then set_blocks ∅ (set_inflight ∅ n) else n.

Definition is_report (m : NodeNotification) : bool := match m with FromWorker _ _ _ => true | _ => false end.

(** What happens while [run] loops: a message, a worker that reports, a tick,
    and, from outside, the updater takes a message and a peer stops receiving. *)
Inductive swift_step : Swift -> Swift -> Prop :=
  | SwiftMessage now unix msg s s' : is_report msg = false ->
      ignore_swift (swift_message now unix msg) s = (Ok tt, s') -> swift_step s s'
  | SwiftReport now unix before r after s s' : workers s = before ++ r :: after ->
      ignore_swift (swift_message now unix (FromWorker (wr_result r) (wr_hash r) (wr_height r)))
        (set_workers (before ++ after) s) = (Ok tt, s') -> swift_step s s'
  | SwiftTick now unix s s' : swift_maintenance_tick now unix s = (Ok Continue, s') -> swift_step s s'
  | SwiftReceive h s : stump_updater (context s) = Some h -> (h_received h < length (h_tx h))%nat ->
      swift_step s (alter_context (set_updater (Some (handle_receive h))) s)
  | SwiftClosed peer s : swift_step s (set_sw_node (alter_peer close_channel peer (sw_node s)) s).
Inductive swift_reachable (file : option (list Z)) (parallelism : option nat) (start : Node) : Swift -> Prop :=
  | SwiftStart s : swift_start file parallelism swift_default start = Ok (Some s) -> swift_reachable file parallelism start s
  | SwiftNext s s' : swift_reachable file parallelism start s -> swift_step s s' -> swift_reachable file parallelism start s'.
End SwiftNode.
