(* ===== verification/SwiftFrame.v ===== *)
(** What SwiftSync leaves alone: the handlers common to all contexts neither
    touch the chain nor the blocks nor lose a request for a block, the errors of
    a block are of two kinds, and the node stays consistent. *)

From stdpp Require Import base gmap list strings fin_maps.
From Stdlib Require Import ZArith Lia.
From S2P Require Import Prelude Bitcoin Errors ChainParams Codec Merkle Sigops Extensions Udata SwiftSync Consensus ChainQuery.
From S2P Require Import Filters StumpUpdater BlockProof Text Onion SocketAddr.
From S2P Require Import Mempool AddressMan Node NodeBlocks NodePeers NodeConn SyncNode NodeFacts NodeRetry SwiftNode.

(** * What the handlers common to all contexts leave alone *)

Create HintDb swift discriminated.
#[export] Hint Constants Opaque : swift.

Section Frame.
Context `{HashLib, TxLib, HeaderLib, UtreexoLib, ScriptBuild} `{!Codec TxOut}.
Context {C MP : Type} `{!ProofBuild, !ChainBackend C, !HashOrder, !MempoolBase MP} `{!Json (list DiskLocalAddress)}.
Context (seeds : Network -> list Z) (average : option Z -> Z -> Z).

Abbreviation Node := (NodeCommon C MP) (only parsing).
Abbreviation M := (stm (NodeCommon C MP) WireError) (only parsing).

Definition requested (n : Node) (x : BlockHash) : Prop := is_Some (inflight n !! InBlocks x).

(** The chain, the blocks and the set of blocks on their way are those of [n0]. *)
Record framed (n0 n : Node) : Prop := {
  fr_chain : chain n = chain n0;
  fr_blocks : blocks n = blocks n0;
  fr_last : last_block_request n = last_block_request n0;
  fr_config : config n = config n0;
  fr_requested : forall x, requested n x <-> requested n0 x;
  fr_apart : forall x, requested n0 x -> blocks n0 !! x = None
}.

(** Only the blocks on their way matter of the requests. *)
Lemma framed_from n0 n n' : framed n0 n -> chain n' = chain n -> blocks n' = blocks n -> last_block_request n' = last_block_request n ->
  config n' = config n -> (forall x, inflight n' !! InBlocks x = inflight n !! InBlocks x) -> framed n0 n'.
Proof.
  intros [E1 E2 E3 E4 E5 E6] F1 F2 F3 F4 F5. split; try congruence; [|done]. intros x. unfold requested. rewrite F5. apply E5.
Qed.
Lemma framed_insert n0 n now r p : framed n0 n -> is_block_request r = false -> framed n0 (insert_inflight now r p n).
Proof. intros Hf Hr. apply (framed_from n0 n _ Hf); try done. intros x. cbn. rewrite lookup_insert_ne; [done|]. by intros ->. Qed.
Lemma framed_remove n0 n r : framed n0 n -> is_block_request r = false -> framed n0 (remove_inflight r n).
Proof. intros Hf Hr. apply (framed_from n0 n _ Hf); try done. intros x. cbn. rewrite lookup_delete_ne; [done|]. by intros ->. Qed.
Lemma framed_respond n0 n r a : framed n0 n -> framed n0 (respond r a n).
Proof. intros Hf. unfold respond. destruct (resp_open r); [|done]. by apply (framed_from n0 n). Qed.

(** An update of another field. *)
Ltac framed_same := match goal with Hf : framed ?n0 ?n |- framed ?n0 _ => by apply (framed_from n0 n _ Hf) end.
Ltac fkeep1 :=
  match goal with
  | |- keeps _ (mret _) => apply keeps_ret
  | |- keeps _ (lift _) => apply keeps_lift
  | |- keeps _ (gets _) => apply keeps_gets
  | |- keeps _ (on_chain _) => apply keeps_gets
  | |- keeps _ (modify _) => apply keeps_modify; intros ? ?; try first [framed_same|by apply framed_insert|by apply framed_remove|by apply framed_respond]
  | |- keeps _ (ignore_err _) => apply keeps_ignore
  | |- keeps _ (gets Ok ≫= _) => apply keeps_state_bind; intros ? ?
  | |- keeps _ (_ ≫= _) => apply keeps_bind; [|intros ?]
  | |- keeps _ (if ?b then _ else _) => destruct b eqn:?
  | |- keeps _ (match ?x with _ => _ end) => destruct x eqn:?
  end.
Ltac fkeep := repeat (fkeep1; try (solve [auto with swift])).
Hint Resolve framed_respond : swift.

Section Lemmas.
Context (n0 : Node).
Abbreviation P := (framed n0).

Lemma fr_draw_stream : keeps P (draw_stream : M _).
Proof. constructor. intros n r n' Hn [= <- <-]. cbn. framed_same. Qed.
Lemma fr_draw : keeps P (draw : M _).
Proof. apply keeps_bind; [apply fr_draw_stream|intros ?; apply keeps_ret]. Qed.
Lemma fr_send_on id req : keeps P (send_on_channel id req : M _).
Proof.
  constructor. intros n r n' Hn. unfold send_on_channel. destruct (peers n !! id) as [p|]; [destruct (channel_open p)|];
    intros [= <- <-]; cbn; try done; framed_same.
Qed.
Hint Resolve fr_draw_stream fr_draw fr_send_on : swift.
Lemma fr_fast req s : keeps P (send_to_fast_peer req s : M _).
Proof. unfold send_to_fast_peer, choose_peer_by_latency. fkeep. Qed.
Lemma fr_send_to id req : keeps P (send_to_peer id req : M _).
Proof.
  constructor. intros n r n' Hn. unfold send_to_peer. destruct (peers n !! id) as [p|]; [case_bool_decide|]; try (by intros [= <- <-]).
  by apply (keeps_run (fr_send_on id req)).
Qed.
Hint Resolve fr_fast fr_send_to : swift.
Lemma fr_ban peer : keeps P (disconnect_and_ban peer : M _).
Proof.
  constructor. intros n r n' Hn. unfold disconnect_and_ban. destruct (peers n !! peer) as [p|].
  - destruct (is_manual (kind p)); [by intros [= <- <-]|]. apply (keeps_run (fr_send_to _ _)). framed_same.
  - by apply (keeps_run (fr_send_to _ _)).
Qed.
Hint Resolve fr_ban : swift.
Lemma fr_banscore peer f : keeps P (increase_banscore peer f : M _).
Proof. unfold increase_banscore. fkeep. Qed.
Lemma fr_answer r a : keeps P (answer_user_request r a : M _).
Proof.
  constructor. intros n o n' Hn. unfold answer_user_request. destruct (user_request r n) as [[[? ?] resp]|]; [destruct (resp_open resp)|];
    intros [= <- <-]; cbn; try done; [apply framed_respond|]; framed_same.
Qed.
Lemma fr_request_proof now h : keeps P (request_proof now h : M _).
Proof. unfold request_proof. fkeep. Qed.
Hint Resolve fr_banscore fr_answer fr_request_proof : swift.

Lemma fr_request_headers now p : keeps P (request_headers now p : M _).
Proof. unfold request_headers. fkeep. Qed.
Lemma fr_request_addresses now p : keeps P (request_addresses now p : M _).
Proof. unfold request_addresses. fkeep. Qed.
Lemma fr_retry_result err : keeps P (retry_result err : M _).
Proof. unfold retry_result. fkeep. Qed.
Lemma framed_push_services peer services l : forall n, P n ->
  P (foldl (fun n s => push_peer_service peer services s n) n l).
Proof.
  induction l as [|s l IH]; intros n Hn; cbn; [done|]. apply IH. unfold push_peer_service. destruct (has services s); [framed_same|done].
Qed.
Hint Resolve fr_request_headers fr_request_addresses fr_retry_result framed_push_services : swift.
Lemma fr_keep_peer now unix peer v k : keeps P (keep_peer now unix peer v k : M _).
Proof. unfold keep_peer. fkeep. Qed.
Hint Resolve fr_keep_peer : swift.
Lemma fr_peer_ready T now unix peer v : keeps P (handle_peer_ready T now unix peer v : M _).
Proof. unfold handle_peer_ready. fkeep. destruct (exceeds_limit T s (v_kind v)); [framed_same|done]. Qed.
End Lemmas.
Hint Resolve fr_draw_stream fr_draw fr_send_on fr_fast fr_send_to fr_ban fr_banscore fr_answer fr_request_proof fr_request_headers
  fr_request_addresses fr_retry_result fr_peer_ready : swift.

(** ** Retries: the request of a block is taken out and put back *)

Lemma framed_take n0 n req : framed n0 n -> framed (remove_inflight req n0) (remove_inflight req n).
Proof.
  intros [E1 E2 E3 E4 E5 E6]. split; try done; unfold requested in *; intros x; cbn; rewrite !lookup_delete_is_Some.
  - by rewrite E5.
  - intros [_ Hx]. by apply E6.
Qed.
Lemma framed_back n0 n req : is_block_request req = false -> framed (remove_inflight req n0) n -> framed n0 n.
Proof.
  intros Hr [E1 E2 E3 E4 E5 E6]. assert (Hd : forall x, requested (remove_inflight req n0) x <-> requested n0 x).
  { intros x. unfold requested. cbn. rewrite lookup_delete_ne; [done|]. by intros ->. }
  split; try done; intros x; rewrite <-Hd; auto.
Qed.
Definition apart (n : Node) : Prop := forall x, requested n x -> blocks n !! x = None.
Lemma framed_put n0 n x v : apart n0 -> requested n0 x -> framed (remove_inflight (InBlocks x) n0) n ->
  framed n0 (set_inflight (<[InBlocks x := v]> (inflight n)) n).
Proof.
  intros Ha Hx [E1 E2 E3 E4 E5 E6]. split; try done. intros y. unfold requested in *. cbn in *.
  rewrite lookup_insert_is_Some', E5, lookup_delete_is_Some. destruct (decide (y = x)) as [->|Hne]; intuition congruence.
Qed.

Lemma fr_request_again now x n0 n r n' : apart n0 -> requested n0 x -> framed (remove_inflight (InBlocks x) n0) n ->
  request_blocks now [x] n = (r, n') ->
  match r with Ok _ => framed n0 n' | Err _ => framed (remove_inflight (InBlocks x) n0) n' | _ => True end.
Proof.
  intros Ha Hx Hn. pose proof Hn as [_ Eb _ _ Er _]. unfold request_blocks, mbind, stm_bind, gets, modify.
  assert (Hs : should_request n x).
  { split; [|rewrite Eb; by apply Ha]. apply eq_None_not_Some. intros Hy. apply Er in Hy. unfold requested in Hy. cbn in Hy.
    rewrite lookup_delete_eq in Hy. by destruct Hy. }
  cbn [filter list_filter]. rewrite decide_True by done. rewrite bool_decide_eq_false_2 by done.
  destruct (send_to_fast_peer _ _ n) as [o n1] eqn:E. pose proof (keeps_run (fr_fast _ _ _) n o n1 Hn E) as Hk.
  destruct o; intros [= <- <-]; cbn in *; try done. by apply framed_put.
Qed.
Lemma fr_redo now n0 req : is_block_request req = false -> keeps (framed n0) (redo_inflight_request now req : M _).
Proof. intros Hr. unfold redo_inflight_request. destruct req; try done; fkeep. Qed.
Lemma fr_redo_or_keep now n0 req v err n r n' : apart n0 -> (is_block_request req = true -> is_Some (inflight n0 !! req)) ->
  framed (remove_inflight req n0) n -> redo_or_keep now req v err n = (r, n') -> alive (framed n0) r n'.
Proof.
  intros Ha Hr Hn. unfold redo_or_keep. destruct (is_block_request req) eqn:Eb.
  - destruct req as [| |x| | | |]; try done. specialize (Hr eq_refl). cbn [redo_inflight_request].
    destruct (redo_inflight_request now (InBlocks x) n) as [o n1] eqn:E. unfold redo_inflight_request, mbind, stm_bind, gets in E.
    pose proof (fr_request_again now x n0 n o n1 Ha Hr Hn E) as Hk. destruct o; intros [= <- <-]; cbn; try done. by apply framed_put.
  - apply framed_back in Hn; [|done]. destruct (redo_inflight_request now req n) as [o n1] eqn:E.
    pose proof (keeps_run (fr_redo now n0 req Eb) n o n1 Hn E) as Hk. destruct o; intros [= <- <-]; cbn in *; try done.
    apply (framed_from n0 n1 _ Hk); try done. intros x. cbn. rewrite lookup_insert_ne; [done|]. by intros ->.
Qed.

Lemma fr_redo_all now n0 l : (forall req v, (req, v) ∈ l -> is_block_request req = true -> is_Some (inflight n0 !! req)) ->
  forall err, keeps (framed n0) (redo_all now l err : M _).
Proof.
  induction l as [|[req v] l IH]; intros Hl err; cbn [redo_all]; [apply keeps_ret|]. constructor. intros n r n' Hn.
  unfold mbind at 1, stm_bind at 1, modify. unfold mbind, stm_bind.
  destruct (redo_or_keep now req v err (remove_inflight req n)) as [o n1] eqn:E.
  apply (fr_redo_or_keep now n0) in E; [|exact (fr_apart _ _ Hn)|apply (Hl req v); by left|by apply framed_take].
  destruct o; try (intros [= <- <-]; done). apply (keeps_run (IH ltac:(intros; eapply Hl; [by right|done]) _)). done.
Qed.

Section Peers.
Context (n0 : Node).
Abbreviation P := (framed n0).

Lemma fr_disconnection now unix peer idx : keeps P (handle_disconnection now unix peer idx : M _).
Proof.
  unfold handle_disconnection. fkeep1.
  { apply keeps_modify. intros n Hn. unfold drop_peer. destruct (peers n !! peer); [framed_same|done]. }
  fkeep1; [fkeep|]. apply keeps_state_bind. intros n Hn. fkeep1; [|auto with swift]. apply fr_redo_all.
  intros req v (req' & _ & (v' & Ev & Hv)%bind_Some)%list_elem_of_omap Hb. case_bool_decide; [|done]. injection Hv as -> ->.
  destruct req as [| |x| | | |]; try done. apply (fr_requested _ _ Hn). by exists v.
Qed.
Lemma fr_collect (m : M unit) err : keeps P m -> keeps P (collect_err m err).
Proof.
  intros Hm. constructor. intros n r n' Hn. unfold collect_err. destruct (m n) as [o n1] eqn:E.
  pose proof (keeps_run Hm n o n1 Hn E). destruct o; by intros [= <- <-].
Qed.
End Peers.
Hint Resolve fr_disconnection fr_collect : swift.
Lemma fr_drop_slow n0 now unix req peer p err : keeps (framed n0) (drop_slow_peer now unix req peer p err : M _).
Proof. unfold drop_slow_peer. fkeep. Qed.
Lemma fr_check_request T n0 now unix req err : keeps (framed n0) (check_request T now unix req err : M _).
Proof.
  unfold check_request. apply keeps_state_at. intros n r n' Hn. destruct (inflight n !! req) as [[peer time]|] eqn:Ev; [|by intros [= <- <-]].
  destruct (negb _); [by intros [= <- <-]|]. unfold mbind at 1, stm_bind at 1, modify.
  assert (Hreq : is_block_request req = true -> is_Some (inflight n0 !! req)).
  { intros Hb. destruct req as [| |x| | | |]; try done. apply (fr_requested _ _ Hn). by eexists. }
  pose proof (framed_take n0 n req Hn) as Ht. pose proof (fr_apart _ _ Hn) as Ha. destruct (peers n !! peer) as [p|].
  2:{ by apply fr_redo_or_keep. }
  destruct (bool_decide (req = InGetAddresses) && negb (is_short_lived (kind p))) eqn:Eg.
  { intros [= <- <-]. apply andb_true_iff in Eg as [->%bool_decide_eq_true _]. by apply (framed_back n0 _ InGetAddresses). }
  unfold mbind, stm_bind. destruct (drop_slow_peer _ _ _ _ _ _ _) as [o n1] eqn:E.
  pose proof (keeps_run (fr_drop_slow _ now unix req peer p err) _ o n1 Ht E) as Hk.
  destruct o; [by apply fr_redo_or_keep|by apply drop_slow_no_err in E|by intros [= <- <-]..].
Qed.

Section Rest.
Context (n0 : Node).
Abbreviation P := (framed n0).
Hint Resolve fr_check_request : swift.

Lemma fr_check_requests T now unix l : forall err, keeps P (check_requests T now unix l err : M _).
Proof. induction l as [|req l IH]; intros err; cbn [check_requests]; fkeep. Qed.
Hint Resolve fr_check_requests : swift.
Lemma fr_timeout T now unix : keeps P (check_for_timeout T now unix : M _).
Proof. unfold check_for_timeout. fkeep. Qed.

Lemma fr_from_messages l : keeps P (from_messages l : M _).
Proof. induction l as [|a l IH]; cbn [from_messages]; fkeep. Qed.
Hint Resolve fr_from_messages : swift.
Lemma fr_addresses unix peer l : keeps P (handle_addresses_from_peer unix peer l : M _).
Proof. unfold handle_addresses_from_peer. fkeep. Qed.
Lemma fr_notfound inv : keeps P (handle_notfound_msg inv : M _).
Proof. unfold handle_notfound_msg. fkeep. Qed.
Lemma fr_tx tx : keeps P (handle_tx_msg tx : M _).
Proof. unfold handle_tx_msg. fkeep. Qed.
Lemma fr_cfheaders peer h : keeps P (handle_cfheaders peer h : M _).
Proof. unfold handle_cfheaders. fkeep. apply framed_respond. framed_same. Qed.
Hint Resolve fr_addresses fr_notfound fr_tx fr_cfheaders : swift.
Lemma fr_msg_common unix msg peer : keeps P (handle_peer_msg_common unix msg peer : M _).
Proof. unfold handle_peer_msg_common. fkeep. Qed.
Lemma framed_message_time msg peer t n : P n -> P (register_message_time average msg peer t n).
Proof.
  intros Hn. unfold register_message_time. destruct (_ ≫= _) as [[? ?]|]; [|done].
  destruct (negb _); [done|]. destruct (_ <? _); [done|]. framed_same.
Qed.

(** ** Connections and users *)

Lemma fr_open_connection now k a v1 : keeps P (open_connection now k a v1 : M _).
Proof. unfold open_connection. fkeep; destruct k; try done; framed_same. Qed.
Lemma fr_on_man {A} (m : stm AddressMan unit A) : keeps P (on_man m : M A).
Proof.
  constructor. intros n r n' Hn. unfold on_man. destruct (m (address_man n)) as [o am]. intros [= <- <-].
  destruct o; cbn; try done; framed_same.
Qed.
Hint Resolve fr_open_connection fr_on_man : swift.
Lemma fr_load_fixed : keeps P (load_fixed_addresses seeds : M _).
Proof. unfold load_fixed_addresses. fkeep. Qed.
Lemma fr_candidate unix k : keeps P (candidate_peer unix k : M _).
Proof. unfold candidate_peer. fkeep. Qed.
Hint Resolve fr_load_fixed fr_candidate : swift.
Lemma fr_create now unix k : keeps P (create_connection seeds now unix k : M _).
Proof. unfold create_connection. fkeep. Qed.
Hint Resolve fr_create : swift.
Lemma fr_repeat k (m : M unit) : keeps P m -> keeps P (repeat_try k m).
Proof. intros Hm. induction k; cbn [repeat_try]; fkeep. Qed.
Lemma fr_repeat_ignoring k (m : M unit) : keeps P m -> keeps P (repeat_ignoring k m).
Proof. intros Hm. induction k; cbn [repeat_ignoring]; fkeep. Qed.
Hint Resolve fr_repeat fr_repeat_ignoring : swift.
Lemma fr_feeler T now unix : keeps P (open_feeler_connection seeds T now unix : M _).
Proof. unfold open_feeler_connection. fkeep. Qed.
Lemma fr_open_added now unix c l : keeps P (open_added now unix c l : M _).
Proof. induction l as [|a l IH]; cbn [open_added]; fkeep. Qed.
Hint Resolve fr_open_added : swift.
Lemma fr_added_peers now unix : keeps P (maybe_open_connection_with_added_peers now unix : M _).
Proof. unfold maybe_open_connection_with_added_peers. fkeep. Qed.
Lemma framed_ask_dns now n : P n -> P (maybe_ask_dns_seed_for_addresses now n).
Proof.
  intros Hn. unfold maybe_ask_dns_seed_for_addresses, get_peers_from_dns. destruct (_ || _); [done|].
  destruct (_ <? _); [done|framed_same].
Qed.
Lemma fr_hardcoded now : keeps P (maybe_use_hardcoded_addresses seeds now : M _).
Proof. unfold maybe_use_hardcoded_addresses. fkeep. Qed.
Hint Resolve fr_added_peers framed_ask_dns fr_hardcoded : swift.
Lemma fr_maybe_open T now unix s : keeps P (maybe_open_connection seeds T now unix s : M _).
Proof. unfold maybe_open_connection. fkeep. Qed.
Lemma fr_slowest l b : keeps P (maybe_disconnect_slowest_peer l b : M _).
Proof. unfold maybe_disconnect_slowest_peer. fkeep. Qed.
Hint Resolve fr_maybe_open fr_slowest : swift.
Lemma fr_connections now unix : keeps P (check_swift_connections seeds now unix : M _).
Proof. unfold check_swift_connections. fkeep. Qed.
Lemma fr_periodic now t f i (m : M unit) : keeps P m -> keeps P (periodic_job now t f i m).
Proof. intros Hm. unfold periodic_job. fkeep. Qed.

Lemma fr_add_peer now unix a v2 : keeps P (handle_addnode_add_peer now unix a v2 : M _).
Proof. unfold handle_addnode_add_peer. fkeep. Qed.
Lemma fr_remove_peer a : keeps P (handle_addnode_remove_peer a : M _).
Proof. unfold handle_addnode_remove_peer. fkeep. Qed.
Lemma fr_onetry now unix a v2 : keeps P (handle_addnode_onetry_peer now unix a v2 : M _).
Proof. unfold handle_addnode_onetry_peer. fkeep. Qed.
Lemma fr_disconnect_peer a : keeps P (handle_disconnect_peer a : M _).
Proof. unfold handle_disconnect_peer. fkeep. Qed.
Lemma fr_succeeded (m : M unit) f r : keeps P m -> keeps P (succeeded m f r).
Proof.
  intros Hm. constructor. intros n o n' Hn. unfold succeeded. destruct (m n) as [x n1] eqn:E.
  pose proof (keeps_run Hm n x n1 Hn E). destruct x; intros [= <- <-]; cbn in *; auto with swift.
Qed.
Lemma fr_forward now u r req s : keeps P (forward now u r req s : M _).
Proof.
  constructor. intros n o n' Hn. unfold forward. destruct (send_to_fast_peer req s n) as [x n1] eqn:E.
  pose proof (keeps_run (fr_fast n0 req s) n x n1 Hn E) as Hk. destruct x; intros [= <- <-]; cbn in *; try done; framed_same.
Qed.
Lemma fr_broadcast tx r : keeps P (broadcast_transaction tx r : M _).
Proof.
  constructor. intros n o n' Hn. unfold broadcast_transaction. destruct (mempool_accept tx (mempool n)) as [[] m];
    intros [= <- <-]; cbn; try done; apply framed_respond; framed_same.
Qed.
Hint Resolve fr_add_peer fr_remove_peer fr_onetry fr_disconnect_peer fr_succeeded fr_forward fr_broadcast : swift.
Lemma fr_user_request now unix req r : keeps P (perform_user_request now unix req r : M _).
Proof. unfold perform_user_request. fkeep. apply framed_respond. framed_same. Qed.
End Rest.
Hint Resolve fr_timeout fr_msg_common framed_message_time fr_create fr_feeler fr_connections fr_periodic fr_user_request : swift.
End Frame.
#[export] Hint Resolve fr_ban fr_banscore fr_peer_ready fr_disconnection fr_timeout fr_msg_common framed_message_time fr_create fr_feeler
  fr_connections fr_periodic fr_user_request : swift.

(** * The errors of a block *)

Section Errors.
Context `{HashLib, TxLib, HeaderLib, UtreexoLib} `{!Codec TxOut}.

Definition errs {E A} (Q : E -> Prop) (o : outcome E A) : Prop := forall e, o = Err e -> Q e.
Lemma errs_bind {E A B} (Q : E -> Prop) (o : outcome E A) (f : A -> outcome E B) :
  errs Q o -> (forall a, errs Q (f a)) -> errs Q (o ≫= f).
Proof. intros Ho Hf e. destruct o; cbn; [apply Hf|intros [= ->]; by apply Ho|done..]. Qed.

(** An error that aborts, or one that asks for the block again. *)
Definition retried_or_invalid (e : BlockchainError) : Prop :=
  exists e', block_validation_err e = Some e' /\ (swift_fault e' = SwiftInvalid \/ swift_fault e' = SwiftMutated).
Abbreviation Q := retried_or_invalid.

Lemma errs_if b e : Q e -> errs Q (err_if b e).
Proof. intros He x. destruct b; [by intros [= <-]|done]. Qed.
Lemma errs_ok_or {A} (o : option A) e : Q e -> errs Q (ok_or o e).
Proof. intros He x. destruct o; [done|by intros [= <-]]. Qed.
Ltac bad := eexists; split; [reflexivity|first [left; reflexivity|right; reflexivity]].
Ltac errs_walk := repeat first
  [ solve [eauto with swift nocore]
  | apply errs_bind; [|intros ?]
  | apply errs_if; bad
  | apply errs_ok_or; bad
  | match goal with
    | |- errs _ (Ok _) => intros ? [=]
    | |- errs _ Panic => intros ? [=]
    | |- errs _ (Err _) => intros ? [= <-]; bad
    end
  | case_match ].

Lemma out_value_errs tx : errs Q (total_out_value tx).
Proof. unfold total_out_value. generalize 0. induction (tx_output tx) as [|o l IH]; intros v; cbn; errs_walk. Qed.
Lemma check_inputs_errs tx l : errs Q (check_inputs tx l).
Proof. induction l as [|o l IH]; cbn; unfold validate_script_size; errs_walk. Qed.
Hint Resolve out_value_errs check_inputs_errs : swift.
Lemma context_free_errs tx : errs Q (check_transaction_context_free tx).
Proof. unfold check_transaction_context_free. errs_walk. Qed.
Lemma check_block_errs p b h : errs Q (check_block p b h).
Proof.
  unfold check_block, check_bip34. apply errs_bind; [|intros; errs_walk].
  intros e. destruct (check_block_structure b) as [|x| |]; cbn; intros [= <-]. destruct x; bad.
Qed.
Lemma hint_outputs_errs sp us t cb bip h bh outs : forall v i, errs Q (hint_outputs sp us t cb bip h bh v i outs).
Proof. induction outs as [|o l IH]; intros v i; cbn; errs_walk. Qed.
Lemma hint_txs_errs sp us bip h bh l : forall i, errs Q (hint_txs sp us bip h bh i l).
Proof. induction l as [|[tx t] l IH]; intros i; cbn; [errs_walk|]. apply errs_bind; [apply hint_outputs_errs|intros [? ?]]. errs_walk. Qed.
Hint Resolve context_free_errs check_block_errs hint_txs_errs : swift.
Lemma swift_txs_errs us sl bip l : forall n st, errs Q (swift_txs us sl bip n l st).
Proof.
  induction l as [|[tx t] l IH]; intros n st; cbn [swift_txs]; [errs_walk|]. apply errs_bind; [|intros; apply IH].
  unfold swift_tx_step, verify_coinbase. errs_walk.
Qed.
Hint Resolve swift_txs_errs : swift.
(** Steps that only panic. *)
Definition never {E} (_ : E) : Prop := False.
Lemma never_expect {E A} (o : option A) : errs never (@expect E A o).
Proof. by destruct o. Qed.
Lemma never_u32 {E} a b : errs never (@u32_add E a b).
Proof. unfold u32_add. intros e. by case_match. Qed.
Lemma never_u64 {E} a b : errs never (@u64_add E a b).
Proof. unfold u64_add. intros e. by case_match. Qed.
Lemma never_sub {E} a b : errs never (@u64_sub E a b).
Proof. unfold u64_sub. intros e. by case_match. Qed.
Hint Resolve never_expect never_u32 never_u64 never_sub : swift.
Lemma sparse_never {E} l : errs never (@sparse_new E l).
Proof.
  unfold sparse_new. apply errs_bind; [|intros a e [=]]. generalize 0. induction l as [|x l IH]; intros i; cbn; [by intros e [=]|].
  case_bool_decide; [apply IH|]. apply errs_bind; [auto with swift|]. intros j. apply errs_bind; [apply IH|intros a e [=]].
Qed.
Lemma dense_never {E} (s : SparseUtreexoAdds) : errs never (@into_dense E s).
Proof.
  unfold into_dense. generalize (replicate (sp_len s) EmptyHash). induction (sp_entries s) as [|[i x] l IH]; intros d; cbn; [by intros e [=]|].
  apply errs_bind; [auto with swift|]. intros ?. apply IH.
Qed.
Hint Resolve dense_never : swift.
Lemma try_next_never `{!ProofDefault} {E} n : forall u, errs never (@try_next _ _ E n u).
Proof.
  induction n as [|n IH]; intros u; cbn [try_next]; [by intros e [=]|]. apply errs_bind; [auto with swift|]. intros h.
  destruct (k ← _; _); [|by intros e [=]]. apply errs_bind; [auto with swift|]. intros c.
  apply errs_bind; [auto with swift|]. intros d. destruct (stump_modify _ _ _ _); [by intros e [=]|apply IH].
Qed.
Lemma updater_never `{!ProofDefault} {E} stop l : forall u, errs never (@updater_run _ _ E stop l u).
Proof.
  induction l as [|[h x] l IH]; intros u; cbn [updater_run]; destruct (_ <? _); try (by intros e [=]).
  apply errs_bind.
  - unfold queue_update. destruct (_ || _); [by intros e [=]|]. destruct (_ !! _); [by intros e [=]|].
    apply errs_bind; [auto with swift|by intros a e [=]].
  - intros u1. apply errs_bind; [apply try_next_never|]. intros u2. apply IH.
Qed.
Lemma handle_result_never `{!ProofBuild} {E} u : errs never (@handle_result _ _ E u).
Proof.
  unfold handle_result, run_updater. apply errs_bind; [unfold updater_spawn; intros e; by case_match|]. intros x. apply updater_never.
Qed.
Lemma handle_send_never `{!ProofBuild} {E} m u : errs never (@handle_send _ _ E m u).
Proof. unfold handle_send. apply errs_bind; [apply handle_result_never|]. intros [a|] e [=]. Qed.

Lemma process_swift_errs p b h us sl : errs Q (process_block_swiftsync p b h us sl).
Proof. unfold process_block_swiftsync, get_block_adds_from_hints, verify_block_transactions_swiftsync. errs_walk. Qed.
End Errors.

(** * The node itself stays consistent *)

Section Consistent.
Context `{HashLib, TxLib, HeaderLib, UtreexoLib, ScriptBuild} `{!Codec TxOut}.
Context {C MP Hints : Type} `{!ProofBuild, !ChainBackend C, !HashOrder, !MempoolBase MP} `{!Json (list DiskLocalAddress)}.
Context `{!HintsLib Hints}.
Context (seeds : Network -> list Z) (average : option Z -> Z -> Z).

Abbreviation Node := (NodeCommon C MP) (only parsing).
Abbreviation M := (stm (NodeCommon C MP) WireError) (only parsing).
Abbreviation Sw := (stm (@SwiftNode.Swift _ C MP Hints) WireError) (only parsing).

Definition consistent (s : @Swift _ C MP Hints) : Prop := node_inv (sw_node s).

Lemma consistent_on {A} (m : M A) : keeps node_inv m -> keeps consistent (on_swift m : Sw A).
Proof.
  intros Hm. constructor. intros s r s' Hs. unfold on_swift. destruct (m (sw_node s)) as [o n] eqn:E.
  pose proof (keeps_run Hm (sw_node s) o n Hs E) as Hk. intros [= <- <-]. by destruct o.
Qed.
Lemma consistent_ignore {A} (m : Sw A) : keeps consistent m -> keeps consistent (ignore_swift m).
Proof.
  intros Hm. constructor. intros s r s' Hs. unfold ignore_swift. destruct (m s) as [o s1] eqn:E.
  pose proof (keeps_run Hm s o s1 Hs E). destruct o; by intros [= <- <-].
Qed.
Ltac swift_keep := repeat first
  [ solve [auto with swift]
  | match goal with
    | |- keeps _ (mret _) => apply keeps_ret
    | |- keeps _ (lift _) => apply keeps_lift
    | |- keeps _ (gets _) => apply keeps_gets
    | |- keeps _ (on_swift _) => apply consistent_on; solve [auto with node | keep]
    | |- keeps _ (modify _) => apply keeps_modify; intros ? ?; done
    | |- keeps _ (ignore_swift _) => apply consistent_ignore
    | |- keeps _ (gets Ok ≫= _) => apply keeps_state_bind; intros ? ?
    | |- keeps _ (_ ≫= _) => apply keeps_bind; [|intros ?]
    | |- keeps _ (if ?b then _ else _) => destruct b eqn:?
    | |- keeps _ (match ?x with _ => _ end) => destruct x eqn:?
    end ].

Lemma keeps_refill_loop k stop : keeps node_inv (refill_loop k stop : M _).
Proof. induction k as [|k IH]; cbn [refill_loop]; keep. Qed.
Lemma keeps_rollback now p l : keeps node_inv (request_or_rollback now p l : M _).
Proof.
  constructor. intros n r n' Hn. unfold request_or_rollback. destruct (request_blocks now l n) as [o n1] eqn:E.
  pose proof (keeps_run (keeps_request_blocks now l) n o n1 Hn E). destruct o; intros [= <- <-]; cbn in *; auto with node.
Qed.
Hint Resolve keeps_refill_loop keeps_rollback : node.
Lemma consistent_refill now : keeps consistent (refill_block_requests now : Sw unit).
Proof. unfold refill_block_requests. swift_keep. Qed.
Hint Resolve consistent_refill : swift.

Lemma consistent_processing now x h : keeps consistent (start_processing_swiftsync now x h : Sw unit).
Proof.
  unfold start_processing_swiftsync. apply keeps_state_at. intros s r s' Hs. unfold mbind, stm_bind, gets, lift, modify, on_swift.
  destruct (blocks (sw_node s) !! x) as [b|] eqn:Eb; cbn [ok_or]; [|by intros [= <- <-]]. destruct (is_processing b); [by intros [= <- <-]|].
  destruct (indices_at_height _ _); cbn [expect]; [|by intros [= <- <-]]. intros [= <- <-]. unfold consistent, alive, spawn_worker.
  assert (Hb : node_inv (set_blocks (<[x := set_processing now b]> (blocks (sw_node s))) (sw_node s))).
  { apply inv_insert_block; [done|]. exact (ni_blocks _ Hs x b Eb). }
  by destruct (process_block_swiftsync _ _ _ _ _).
Qed.
Hint Resolve consistent_processing : swift.
Lemma consistent_start_all now l : keeps consistent (start_all now l : Sw unit).
Proof. induction l as [|x l IH]; cbn [start_all]; swift_keep. Qed.
Hint Resolve consistent_start_all : swift.
Lemma consistent_pump now : keeps consistent (pump_swiftsync now : Sw unit).
Proof. unfold pump_swiftsync. swift_keep. Qed.
Lemma consistent_adds h l : keeps consistent (pump_utreexo_adds h l : Sw unit).
Proof. unfold pump_utreexo_adds. swift_keep. Qed.
Lemma consistent_valid now b : keeps consistent (handle_valid_worker_block now b : Sw unit).
Proof. unfold handle_valid_worker_block. swift_keep. Qed.
Lemma consistent_invalid now e x h peer : keeps consistent (handle_invalid_swift_block now e x h peer : Sw unit).
Proof. unfold handle_invalid_swift_block. swift_keep; apply consistent_on, keeps_ignore, keeps_chain_step; auto with node. Qed.
Hint Resolve consistent_pump consistent_adds consistent_valid consistent_invalid : swift.
Lemma consistent_report now d h b : keeps consistent (handle_valid_report now d h b : Sw unit).
Proof. unfold handle_valid_report. swift_keep; apply keeps_modify; intros s1 Hs1; by apply inv_chain. Qed.
Hint Resolve consistent_report : swift.
Lemma consistent_worker now r x h : keeps consistent (handle_worker_notification now r x h : Sw unit).
Proof.
  unfold handle_worker_notification. swift_keep; apply consistent_on, keeps_modify; intros n Hn; by apply inv_delete_block.
Qed.
Hint Resolve consistent_worker : swift.
Lemma consistent_block now b peer : keeps consistent (handle_swift_block now b peer : Sw unit).
Proof. unfold handle_swift_block. swift_keep. Qed.
Hint Resolve consistent_block : swift.
Lemma consistent_peer_message now unix peer msg : keeps consistent (handle_swift_message now unix peer msg : Sw unit).
Proof. unfold handle_swift_message. swift_keep. Qed.
Hint Resolve consistent_peer_message : swift.
Lemma consistent_message now unix msg : keeps consistent (swift_message average now unix msg : Sw unit).
Proof. unfold swift_message. swift_keep. Qed.
Lemma keeps_swift_connections now unix : keeps node_inv (check_swift_connections seeds now unix : M _).
Proof. unfold check_swift_connections. keep. Qed.
Hint Resolve keeps_swift_connections : node.
Lemma consistent_stop acc : keeps consistent (handle_stop_height_reached acc : Sw unit).
Proof. unfold handle_stop_height_reached. swift_keep. Qed.
Hint Resolve consistent_stop : swift.
Lemma consistent_tick now unix : keeps consistent (swift_maintenance_tick seeds now unix : Sw LoopControl).
Proof. unfold swift_maintenance_tick, swift_jobs. swift_keep. Qed.

Lemma enter_consistent stop (n : Node) : node_inv n -> node_inv (enter_swift stop n).
Proof. intros []. by split. Qed.
(** Through SwiftSync, and into the proof sync that follows it. *)
Lemma swift_node_inv file par (start : Node) s : node_inv start -> swift_reachable seeds average file par start s ->
  node_inv (sw_node s) /\ node_inv (into_proof_sync s).
Proof.
  intros Hstart Hr. assert (Hs : consistent s).
  { induction Hr as [s Hs|s s' _ IH Hst].
    - unfold swift_start in Hs. destruct (parse_hints_file file) as [hints|]; [|done]. apply obind_ok in Hs as (ok & _ & Hs).
      destruct (negb ok); [done|]. apply obind_ok in Hs as (u & _ & [= <-]). by apply enter_consistent.
    - destruct Hst as [now unix msg s s' _ E|now unix before r after s s' _ E|now unix s s' E|u s _ _|peer s].
      + exact (keeps_run (consistent_ignore _ (consistent_message now unix msg)) s _ s' IH E).
      + exact (keeps_run (consistent_ignore _ (consistent_message now unix _)) (set_workers (before ++ after) s) _ s' IH E).
      + exact (keeps_run (consistent_tick now unix) s _ s' IH E).
      + done.
      + by apply inv_alter_peer. }
  split; [done|]. unfold into_proof_sync. assert (Hl : node_inv (sw_node (swift_leave s))) by (destruct Hs; by split).
  destruct (was_aborted s); [|done]. apply inv_blocks; [by apply inv_inflight|]. intros h b. by rewrite lookup_empty.
Qed.
End Consistent.
