(* ===== verification/SwiftFacts.v ===== *)
(** SwiftSync of the node: no block is lost or counted twice, the sums are those
    of the blocks processed, and a run that ends with an accumulator has
    processed every block up to the stop height with the hints of its height. *)

From stdpp Require Import base gmap list strings fin_maps.
From Stdlib Require Import ZArith Lia.
From S2P Require Import Prelude Bitcoin Errors ChainParams Codec Merkle Sigops Extensions Udata SwiftSync Consensus ConsensusFacts.
From S2P Require Import ChainStore ChainQuery PartialChain ChainState ChainShape ChainFacts ChainReorg ChainReach.
From S2P Require Import Filters StumpUpdater BlockProof Text Onion SocketAddr.
From S2P Require Import Mempool AddressMan Node NodeBlocks NodePeers NodeConn SyncNode NodeFacts NodeChain SwiftNode SwiftFrame.

(** * Where the blocks are *)

Section Held.
Context `{HashLib, TxLib, HeaderLib, UtreexoLib, ScriptBuild} `{!Codec TxOut}.
Context {C MP : Type} `{!ProofBuild, !ChainBackend C, !HashOrder, !MempoolBase MP} `{!Json (list DiskLocalAddress)}.
Context `{!IbdNeutral C}.
(** The chain as the sync starts, and the stop height. *)
Context (c0 : C) (net : Network) (stop : Z).
Context (Hindex : forall h x, 1 <= h <= stop -> chain_block_hash c0 h = Ok x -> chain_block_height c0 x = Ok (Some h)).

Abbreviation Node := (NodeCommon C MP) (only parsing).
Abbreviation M := (stm (NodeCommon C MP) WireError) (only parsing).

Definition at_height (h : Z) (x : BlockHash) : Prop := chain_block_hash c0 h = Ok x.

(** The blocks up to the last one requested are on their way, stored or in
    [ds], those done with, and in one of them only. *)
Record held (ds : list BlockHash) (n : Node) : Prop := {
  hd_heights : forall x, chain_block_height (chain n) x = chain_block_height c0 x;
  hd_hashes : forall h, chain_block_hash (chain n) h = chain_block_hash c0 h;
  hd_net : cfg_network (config n) = net;
  hd_apart : apart n;
  hd_stored : forall x b, blocks n !! x = Some b -> blk_hash (ib_block b) = x;
  hd_new : forall x, x ∈ ds -> ~ requested n x /\ blocks n !! x = None;
  hd_nodup : NoDup ds;
  hd_known : forall x, requested n x \/ is_Some (blocks n !! x) \/ x ∈ ds -> exists h, 1 <= h <= last_block_request n /\ at_height h x;
  hd_filled : forall h, 1 <= h <= last_block_request n -> exists x, at_height h x /\ (requested n x \/ is_Some (blocks n !! x) \/ x ∈ ds);
  hd_last : 0 <= last_block_request n <= stop
}.

Lemma framed_refl (n : Node) : apart n -> framed n n.
Proof. by split. Qed.
Lemma held_framed ds n0 n : held ds n0 -> framed n0 n -> held ds n.
Proof.
  intros [D1 D2 D3 D4 D5 D6 D7 D8 D9 D10] [E1 E2 E3 E4 E5 E6].
  split; rewrite ?E1, ?E2, ?E3, ?E4; try done; unfold apart.
  - intros x Hx. rewrite E2. apply E6, E5, Hx.
  - intros x Hx. rewrite E5. by apply D6.
  - intros x. rewrite E5. apply D8.
  - intros h Hh. destruct (D9 h Hh) as (x & Hx & Hw). exists x. by rewrite E5.
Qed.
Lemma held_ibd ds n i : held ds n -> held ds (set_chain (chain_update_ibd i (chain n)) n).
Proof.
  intros [D1 D2 D3 D4 D5 D6 D7 D8 D9 D10]. split; try done; intros; cbn; [rewrite ibd_block_height|rewrite ibd_block_hash]; auto.
Qed.

(** A block in another state of processing. *)
Lemma held_update ds n x b b' : held ds n -> blocks n !! x = Some b -> ib_block b' = ib_block b ->
  held ds (set_blocks (<[x := b']> (blocks n)) n).
Proof.
  intros [D1 D2 D3 D4 D5 D6 D7 D8 D9 D10] Hb Eb.
  assert (Hi : forall y, is_Some (<[x := b']> (blocks n) !! y) <-> is_Some (blocks n !! y)).
  { intros y. rewrite lookup_insert_is_Some'. split; [intros [<-|?]; [by exists b|done]|by right]. }
  assert (Hn : forall y, <[x := b']> (blocks n) !! y = None <-> blocks n !! y = None).
  { intros y. rewrite !eq_None_not_Some. by rewrite Hi. }
  split; try done; cbn.
  - intros y Hy. apply Hn, D4, Hy.
  - intros y z [[<- <-]|[_ Hy]]%lookup_insert_Some; [rewrite Eb|]; by apply D5.
  - intros y Hy. destruct (D6 y Hy) as [? ?]. split; [done|by apply Hn].
  - intros y. rewrite Hi. apply D8.
  - intros h Hh. destruct (D9 h Hh) as (y & Hy & Hw). exists y. by rewrite Hi.
Qed.

(** A block on its way arrives, goes back, or is done with. *)
Lemma held_arrives ds n x b : held ds n -> requested n x -> blk_hash (ib_block b) = x ->
  held ds (set_blocks (<[x := b]> (blocks n)) (remove_inflight (InBlocks x) n)).
Proof.
  intros [D1 D2 D3 D4 D5 D6 D7 D8 D9 D10] Hx Hb.
  assert (Hw : forall y, requested (set_blocks (<[x := b]> (blocks n)) (remove_inflight (InBlocks x) n)) y \/ is_Some (<[x := b]> (blocks n) !! y) \/ y ∈ ds
    <-> requested n y \/ is_Some (blocks n !! y) \/ y ∈ ds).
  { intros y. unfold requested in *. cbn. rewrite lookup_insert_is_Some', lookup_delete_is_Some.
    destruct (decide (x = y)) as [<-|Hne]; [tauto|]. intuition congruence. }
  split; try done; cbn [chain config blocks last_block_request set_blocks remove_inflight set_inflight].
  - intros y. unfold requested. cbn. rewrite lookup_delete_is_Some. intros [Hne Hy]. rewrite lookup_insert_ne by congruence. by apply D4.
  - intros y z [[<- <-]|[_ Hy]]%lookup_insert_Some; [done|by apply D5].
  - intros y Hy. destruct (D6 y Hy) as [Hr Hn]. split; [unfold requested; cbn; rewrite lookup_delete_is_Some; by intros [_ ?]|].
    rewrite lookup_insert_ne; [done|]. intros <-. by apply Hr.
  - intros y Hy. by apply D8, Hw.
  - intros h Hh. destruct (D9 h Hh) as (y & Hy & Hw'). exists y. split; [done|by apply Hw].
Qed.
Lemma held_again ds n x b now peer : held ds n -> blocks n !! x = Some b ->
  held ds (insert_inflight now (InBlocks x) peer (set_blocks (delete x (blocks n)) n)).
Proof.
  intros [D1 D2 D3 D4 D5 D6 D7 D8 D9 D10] Hb. set (n' := insert_inflight _ _ _ _).
  assert (Hr : forall y, requested n' y <-> y = x \/ requested n y).
  { intros y. unfold requested, n'. cbn. rewrite lookup_insert_is_Some'. intuition congruence. }
  assert (Hw : forall y, requested n' y \/ is_Some (blocks n' !! y) \/ y ∈ ds <-> requested n y \/ is_Some (blocks n !! y) \/ y ∈ ds).
  { intros y. rewrite Hr. unfold n'. cbn. rewrite lookup_delete_is_Some. destruct (decide (y = x)) as [->|Hne]; [|intuition congruence].
    split; [intros _; right; left; by exists b|tauto]. }
  split; try done; cbn [chain config blocks last_block_request set_blocks insert_inflight set_inflight n'].
  - intros y [->|Hy]%Hr; [apply lookup_delete_eq|]. apply lookup_delete_None. right. by apply D4.
  - intros y z [_ Hy]%lookup_delete_Some. by apply D5.
  - intros y Hy. destruct (D6 y Hy) as [Hq Hn]. split; [|apply lookup_delete_None; by right]. rewrite Hr. intros [->|?]; congruence.
  - intros y Hy. by apply D8, Hw.
  - intros h Hh. destruct (D9 h Hh) as (y & Hy & Hw'). exists y. split; [done|by apply Hw].
Qed.
Lemma held_done ds n x b : held ds n -> blocks n !! x = Some b -> held (ds ++ [x]) (set_blocks (delete x (blocks n)) n).
Proof.
  intros [D1 D2 D3 D4 D5 D6 D7 D8 D9 D10] Hb.
  assert (Hw : forall y, requested n y \/ is_Some (delete x (blocks n) !! y) \/ y ∈ ds ++ [x] <-> requested n y \/ is_Some (blocks n !! y) \/ y ∈ ds).
  { intros y. rewrite elem_of_app, list_elem_of_singleton, lookup_delete_is_Some. destruct (decide (y = x)) as [->|Hne]; [|intuition congruence].
    split; [intros _; right; left; by exists b|tauto]. }
  assert (Hnr : ~ requested n x) by (intros Hx; rewrite (D4 x Hx) in Hb; done).
  split; try done; cbn.
  - intros y Hy. apply lookup_delete_None. right. by apply D4.
  - intros y z [_ Hy]%lookup_delete_Some. by apply D5.
  - intros y [Hy| ->%list_elem_of_singleton]%elem_of_app; [destruct (D6 y Hy); split; [done|apply lookup_delete_None; by right]|].
    split; [done|apply lookup_delete_eq].
  - apply NoDup_app. split_and!; [done| |apply NoDup_singleton]. intros y Hy ->%list_elem_of_singleton. destruct (D6 x Hy). congruence.
  - intros y Hy. by apply D8, Hw.
  - intros h Hh. destruct (D9 h Hh) as (y & Hy & Hw'). exists y. split; [done|by apply Hw].
Qed.

(** ** New requests *)

Lemma refill_loop_ok k : forall (n : Node) r n', (forall h, chain_block_hash (chain n) h = chain_block_hash c0 h) -> last_block_request n <= stop ->
  refill_loop k stop n = (r, n') ->
  match r with
  | Ok l => n' = set_last_block_request (last_block_request n + Z.of_nat (length l)) n /\ last_block_request n + Z.of_nat (length l) <= stop /\
      forall i x, l !! i = Some x -> at_height (last_block_request n + 1 + Z.of_nat i) x
  | Err _ => False
  | _ => True
  end.
Proof.
  assert (Hret : forall n : Node, n = set_last_block_request (last_block_request n + Z.of_nat (length (@nil BlockHash))) n).
  { intros []. cbn. by rewrite Z.add_0_r. }
  induction k as [|k IH]; intros n r n' Hc Hl; cbn [refill_loop].
  { intros [= <- <-]. split_and!; [apply Hret|cbn; lia|done]. }
  unfold mbind at 1, stm_bind at 1, gets at 1. destruct (u32_add (last_block_request n) 1) as [next|?| |] eqn:Eu;
    try (intros [= <- <-]; done); [|unfold u32_add in Eu; by case_match]. apply u32_add_ok in Eu as [-> _].
  destruct (Z.ltb_spec stop (last_block_request n + 1)) as [Hlt|Hle].
  { intros [= <- <-]. split_and!; [apply Hret|cbn; lia|done]. }
  unfold mbind at 1, stm_bind at 1, gets. rewrite Hc. destruct (chain_block_hash c0 _) as [x|?| |] eqn:Ex;
    try (intros [= <- <-]; done); [|intros [= <- <-]; split_and!; [apply Hret|cbn; lia|done]].
  unfold mbind, stm_bind, modify. destruct (refill_loop k stop _) as [o n1] eqn:E1. apply IH in E1; [|done|cbn; lia].
  destruct o as [l|?| |]; try done; intros [= <- <-]; try done. cbn [last_block_request set_last_block_request length] in *.
  destruct E1 as (-> & Hb & Hi). split_and!.
  - by replace (last_block_request n + Z.of_nat (S (length l))) with (last_block_request n + 1 + Z.of_nat (length l)) by lia.
  - lia.
  - intros [|i] y; cbn [lookup list_lookup]; [intros [= <-]; by rewrite Z.add_0_r|]. intros Hy. specialize (Hi i y Hy).
    by replace (last_block_request n + 1 + Z.of_nat (S i)) with (last_block_request n + 1 + 1 + Z.of_nat i) by lia.
Qed.

Lemma requested_all now l peer : forall (n : Node) y,
  requested (foldl (fun n h => insert_inflight now (InBlocks h) peer n) n l) y <-> y ∈ l \/ requested n y.
Proof.
  induction l as [|x l IH]; intros n y; cbn [foldl]; [rewrite elem_of_nil; tauto|]. rewrite IH, elem_of_cons.
  unfold requested. cbn. rewrite lookup_insert_is_Some'. intuition congruence.
Qed.
Lemma inserted_same now l peer : forall n : Node, let n' := foldl (fun n h => insert_inflight now (InBlocks h) peer n) n l in
  chain n' = chain n /\ blocks n' = blocks n /\ last_block_request n' = last_block_request n /\ config n' = config n.
Proof. induction l as [|x l IH]; intros n; cbn [foldl]; [done|]. apply (IH (insert_inflight now (InBlocks x) peer n)). Qed.

(** Blocks of the next heights that are now on their way. *)
Lemma held_more now ds (n n1 : Node) l peer : held ds n -> framed n n1 -> last_block_request n + Z.of_nat (length l) <= stop ->
  (forall i x, l !! i = Some x -> at_height (last_block_request n + 1 + Z.of_nat i) x) ->
  held ds (foldl (fun n h => insert_inflight now (InBlocks h) peer n) (set_last_block_request (last_block_request n + Z.of_nat (length l)) n1) l).
Proof.
  intros Hd Hf Hle Hl. pose proof (held_framed _ _ _ Hd Hf) as [D1 D2 D3 D4 D5 D6 D7 D8 D9 D10].
  set (n2 := set_last_block_request _ n1). destruct (inserted_same now l peer n2) as (E1 & E2 & E3 & E4).
  pose proof (requested_all now l peer n2) as Er. set (n3 := foldl _ n2 l) in *. change (requested n2) with (requested n1) in Er.
  pose proof (fr_last _ _ Hf) as El.
  assert (Hnew : forall x, x ∈ l -> ~ (requested n1 x \/ is_Some (blocks n1 !! x) \/ x ∈ ds)).
  { intros x [i Hi]%list_elem_of_lookup Hw. pose proof (lookup_lt_Some _ _ _ Hi). pose proof (Hl i x Hi) as Ha.
    destruct (D8 x Hw) as (h & Hh & Hx). apply Hindex in Ha; [|lia]. apply Hindex in Hx; [|lia]. rewrite Ha in Hx. injection Hx. lia. }
  assert (Hw : forall x, requested n3 x \/ is_Some (blocks n1 !! x) \/ x ∈ ds <-> x ∈ l \/ (requested n1 x \/ is_Some (blocks n1 !! x) \/ x ∈ ds)).
  { intros x. rewrite Er. tauto. }
  split; rewrite ?E1, ?E2, ?E3, ?E4; try done; cbn [last_block_request n2 set_last_block_request blocks].
  - intros x [Hx|Hx]%Er; [|rewrite E2; by apply D4]. rewrite E2. apply eq_None_not_Some. intros ?. apply (Hnew x Hx). by right; left.
  - intros x Hx. rewrite Er. destruct (D6 x Hx) as [? ?]. split; [|done]. intros [Hl'|?]; [|done]. apply (Hnew x Hl'). by right; right.
  - intros x [Hx|Hx]%Hw.
    + apply list_elem_of_lookup in Hx as [i Hi]. pose proof (lookup_lt_Some _ _ _ Hi). eexists. split; [|by apply (Hl i)]. lia.
    + destruct (D8 x Hx) as (h & Hh & Hx'). exists h. split; [lia|done].
  - intros h Hh. destruct (decide (h <= last_block_request n1)) as [Hlt|Hgt].
    + destruct (D9 h ltac:(lia)) as (x & Hx & Hw'). exists x. split; [done|]. apply Hw. by right.
    + destruct (lookup_lt_is_Some_2 l (Z.to_nat (h - last_block_request n - 1))) as [x Hx]; [lia|]. exists x. split.
      * specialize (Hl _ x Hx). by replace (last_block_request n + 1 + Z.of_nat (Z.to_nat (h - last_block_request n - 1))) with h in Hl by lia.
      * apply Hw. left. by apply list_elem_of_lookup_2 in Hx.
  - lia.
Qed.

Lemma framed_set_last (n n2 : Node) L : framed (set_last_block_request L n) n2 ->
  framed n (set_last_block_request (last_block_request n) n2) /\ n2 = set_last_block_request L (set_last_block_request (last_block_request n) n2).
Proof. intros [E1 E2 E3 E4 E5 E6]. split; [by split|]. cbn in E3. rewrite <-E3. by destruct n2. Qed.
Lemma filter_everything {A} (Q : A -> Prop) `{!forall x, Decision (Q x)} (l : list A) : (forall x, x ∈ l -> Q x) -> filter Q l = l.
Proof.
  induction l as [|x l IH]; intros Hl; [done|]. rewrite filter_cons, decide_True by (apply Hl; by left). f_equal. apply IH. intros y Hy. apply Hl. by right.
Qed.

Definition refill (now : Z) : M unit :=
  n ← gets Ok;
  hashes ← refill_loop (BLOCKS_PER_GETDATA SwiftContext) stop;
  request_or_rollback now (last_block_request n) hashes.
Lemma refill_held now ds (n : Node) r n' : held ds n -> refill now n = (r, n') ->
  alive (fun n' => held ds n' /\ blocks n' = blocks n) r n'.
Proof.
  intros Hd. unfold refill, mbind, stm_bind, gets. destruct (refill_loop _ stop n) as [o n1] eqn:E1.
  apply refill_loop_ok in E1; [|apply (hd_hashes _ _ Hd)|apply (hd_last _ _ Hd)].
  destruct o as [l|?| |]; try done; try (intros [= <- <-]; done). destruct E1 as (-> & Hle & Hl).
  set (L := last_block_request n + _) in *. set (n1 := set_last_block_request L n).
  assert (Ha1 : apart n1) by exact (hd_apart _ _ Hd).
  assert (Hall : filter (should_request n1) l = l).
  { apply filter_everything. intros x [i Hi]%list_elem_of_lookup. pose proof (lookup_lt_Some _ _ _ Hi). pose proof (Hl i x Hi) as Ha.
    assert (Hno : ~ (requested n x \/ is_Some (blocks n !! x) \/ x ∈ ds)).
    { intros Hw. destruct (hd_known _ _ Hd x Hw) as (h & Hh & Hx). pose proof (hd_last _ _ Hd).
      apply Hindex in Ha; [|lia]. apply Hindex in Hx; [|lia]. rewrite Ha in Hx. injection Hx. lia. }
    split; apply eq_None_not_Some; intros Hs; apply Hno; [by left|by right; left]. }
  unfold request_or_rollback, request_blocks, mbind, stm_bind, gets, modify. rewrite Hall. case_bool_decide as Hnil.
  { intros [= <- <-]. subst l. unfold n1, L. cbn [length]. rewrite Z.add_0_r. cbn. split; [|done].
    apply (held_framed _ n); [done|]. by split; try apply (hd_apart _ _ Hd). }
  destruct (send_to_fast_peer _ _ n1) as [o n2] eqn:E2. pose proof (keeps_run (fr_fast n1 _ _) n1 o n2 (framed_refl n1 Ha1) E2) as Hk.
  destruct o as [peer|?| |]; intros [= <- <-]; cbn in Hk; try done; destruct (framed_set_last n n2 L Hk) as [Hf Hn2]; cbn [alive].
  - rewrite Hn2. destruct (inserted_same now l peer (set_last_block_request L (set_last_block_request (last_block_request n) n2))) as (_ & -> & _).
    split; [by apply held_more|]. exact (fr_blocks _ _ Hf).
  - split; [exact (held_framed _ _ _ Hd Hf)|exact (fr_blocks _ _ Hf)].
Qed.
End Held.

(** * Runs *)

(** A block that was processed: its height, the hints of its height, and what a
    worker made of it. *)
Record Processed := mkProcessed { pr_block : Block; pr_height : Z; pr_hints : list Z; pr_delta : SwiftSyncDelta }.

Section SwiftFacts.
Context `{HashLib, TxLib, HeaderLib, UtreexoLib, ScriptBuild} `{!Codec TxOut}.
Context {C MP Hints : Type} `{!ProofBuild, !ChainBackend C, !HashOrder, !MempoolBase MP} `{!Json (list DiskLocalAddress)}.
Context `{!HintsLib Hints, !HintsOk Hints, !IbdNeutral C}.
Context (seeds : Network -> list Z) (average : option Z -> Z -> Z).
(** The chain and the hints as the sync starts, the salt, and the stop height. *)
Context (c0 : C) (h0 : Hints) (net : Network) (keys : SipHashKeys) (stop : Z).

Abbreviation Node := (NodeCommon C MP) (only parsing).
Abbreviation Swift := (@Swift _ C MP Hints) (only parsing).
Abbreviation Sw := (stm (@SwiftNode.Swift _ C MP Hints) WireError) (only parsing).

(** What a worker reports of a block of the chain, with the hints of its height. *)
Definition works (b : Block) (h : Z) (hints : list Z) (r : outcome BlockchainError SwiftSyncDelta) : Prop :=
  chain_block_height c0 (blk_hash b) = Ok (Some h) /\ indices_at_height h0 h = Some hints /\
  process_block_swiftsync (chain_params_from net) b h (list_to_set hints) keys = r.
Definition report_ok (r : WorkerReport) : Prop :=
  exists b hints, blk_hash b = wr_hash r /\
    works b (wr_height r) hints (match wr_result r with inr delta => Ok delta | inl e => Err e end).
Definition done_ok (p : Processed) : Prop := works (pr_block p) (pr_height p) (pr_hints p) (Ok (pr_delta p)).
Definition pr_hash (p : Processed) : BlockHash := blk_hash (pr_block p).

(** [checked_add(..).unwrap_or(MAX)]. *)
Definition saturating_supply (a b : Z) : Z := default AMOUNT_MAX (checked_add64 a b).

(** The context after the blocks [l]. *)
Record counted (l : list Processed) (c : SwiftSync) (hs : Hints) : Prop := {
  ct_salt : salt c = keys;
  ct_stop : stop_height c = stop;
  ct_agg : agg c = foldl agg_plus agg_zero (map (fun p => aggregator_delta (pr_delta p)) l);
  ct_supply : supply c = foldl saturating_supply 0 (map (fun p => unspent_amount (pr_delta p)) l);
  ct_sent : exists u, stump_updater c = Some u /\ h_acc u = stump_new /\ h_height u = 0 /\ h_stop u = stop /\
    Forall2 (fun m p => m.1 = pr_height p /\ into_dense (E := WireError) m.2 = Ok (utreexo_adds (pr_delta p))) (h_tx u) l;
  ct_count : processed_blocks c = Z.of_nat (length l) /\ Z.of_nat (length l) <= stop;
  ct_hints : forall h x, indices_at_height hs h = Some x -> indices_at_height h0 h = Some x;
  ct_done : Forall done_ok l
}.
(** The reports still to come are of distinct blocks that are being processed. *)
Definition reported (bs : gmap Z InflightBlock) (ws : list WorkerReport) : Prop :=
  NoDup (map wr_hash ws) /\
  forall r, r ∈ ws -> report_ok r /\ exists b, bs !! wr_hash r = Some b /\ is_Some (processing_since b).

Record accounts (l : list Processed) (s : Swift) : Prop := {
  ac_held : held c0 net stop (map pr_hash l) (sw_node s);
  ac_counted : counted l (context s) (sw_hints s);
  ac_reported : reported (blocks (sw_node s)) (workers s)
}.
Definition swift_inv (s : Swift) : Prop := abort_height (context s) = None -> exists l, accounts l s.

Context (Hindex : forall h x, 1 <= h <= stop -> chain_block_hash c0 h = Ok x -> chain_block_height c0 x = Ok (Some h)).

(** ** Operations of the node alone *)

Lemma inv_node s n : swift_inv s -> (forall l, accounts l s -> held c0 net stop (map pr_hash l) n /\ blocks n = blocks (sw_node s)) ->
  swift_inv (set_sw_node n s).
Proof.
  intros Hs Hn Ha. destruct (Hs Ha) as [l Hl]. destruct (Hn l Hl) as [Hh Hb]. exists l. destruct Hl as [A1 A2 A3].
  split; [done..|]. cbn. by rewrite Hb.
Qed.
Lemma inv_framed s n : swift_inv s -> (apart (sw_node s) -> framed (sw_node s) n) -> swift_inv (set_sw_node n s).
Proof.
  intros Hs Hf. apply inv_node; [done|]. intros l Hl. specialize (Hf (hd_apart _ _ _ _ _ (ac_held _ _ Hl))).
  split; [exact (held_framed _ _ _ _ _ _ (ac_held _ _ Hl) Hf)|exact (fr_blocks _ _ Hf)].
Qed.
Lemma keeps_swift {A} (m : stm (NodeCommon C MP) WireError A) : (forall n0, keeps (framed n0) m) -> keeps swift_inv (on_swift m : Sw A).
Proof.
  intros Hm. constructor. intros s r s' Hs. unfold on_swift. destruct (m (sw_node s)) as [o n] eqn:E. intros [= <- <-].
  assert (Hk : apart (sw_node s) -> alive (framed (sw_node s)) o n).
  { intros Ha. apply (keeps_run (Hm (sw_node s)) _ _ _ (framed_refl _ Ha) E). }
  destruct o; cbn in *; try done; by apply inv_framed.
Qed.
Lemma keeps_ignore_swift {A} (m : Sw A) : keeps swift_inv m -> keeps swift_inv (ignore_swift m).
Proof.
  intros Hm. constructor. intros s r s' Hs. unfold ignore_swift. destruct (m s) as [o s1] eqn:E.
  pose proof (keeps_run Hm s o s1 Hs E). destruct o; by intros [= <- <-].
Qed.

(** ** Downloads *)

Lemma keeps_refill now : keeps swift_inv (refill_block_requests now : Sw unit).
Proof.
  unfold refill_block_requests. apply keeps_state_at. intros s r s' Hs. destruct (_ || _); [by intros [= <- <-]|].
  unfold on_swift. match goal with |- context [let '(_, _) := ?m in _] => destruct m as [o n] eqn:E end. intros [= <- <-].
  assert (Hk : forall l, accounts l s -> alive (fun n' => held c0 net stop (map pr_hash l) n' /\ blocks n' = blocks (sw_node s)) o n).
  { intros l Hl. rewrite (ct_stop _ _ _ (ac_counted _ _ Hl)) in E. exact (refill_held c0 net stop Hindex now _ _ _ _ (ac_held _ _ Hl) E). }
  destruct o; cbn in *; try done; by apply inv_node.
Qed.

(** ** Workers *)

Lemma set_same_node (s : Swift) : set_sw_node (sw_node s) s = s.
Proof. by destruct s. Qed.

Lemma reported_new bs ws x b now r : reported bs ws -> bs !! x = Some b -> processing_since b = None ->
  report_ok r -> wr_hash r = x -> reported (<[x := set_processing now b]> bs) (ws ++ [r]).
Proof.
  intros [Hn Hw] Hb Hp Hr <-. split.
  - rewrite map_app. apply NoDup_app. split_and!; [done| |apply NoDup_singleton].
    intros y (r' & -> & Hr')%list_elem_of_fmap Hy%list_elem_of_singleton. destruct (Hw r' Hr') as (_ & b' & Hb' & [t Ht]).
    rewrite Hy, Hb in Hb'. injection Hb' as <-. congruence.
  - intros r' [Hr'| ->%list_elem_of_singleton]%elem_of_app.
    + destruct (Hw r' Hr') as (Hok & b' & Hb' & Ht). split; [done|]. destruct (decide (wr_hash r' = wr_hash r)) as [Heq|Hne].
      * rewrite Heq, lookup_insert_eq. eexists. split; [done|]. by eexists.
      * rewrite lookup_insert_ne by done. by exists b'.
    + split; [done|]. rewrite lookup_insert_eq. eexists. split; [done|]. by eexists.
Qed.
Lemma reported_update bs ws x b now : reported bs ws -> bs !! x = Some b -> reported (<[x := set_processing now b]> bs) ws.
Proof.
  intros [Hn Hw] Hb. split; [done|]. intros r Hr. destruct (Hw r Hr) as (Hok & b' & Hb' & Ht). split; [done|].
  destruct (decide (wr_hash r = x)) as [->|Hne]; [rewrite lookup_insert_eq; eexists; split; [done|by eexists]|].
  rewrite lookup_insert_ne by done. by exists b'.
Qed.

Lemma processing_inv now x h s r s' : swift_inv s -> chain_block_height (chain (sw_node s)) x = Ok (Some h) ->
  start_processing_swiftsync now x h s = (r, s') -> alive swift_inv r s'.
Proof.
  intros Hs Hh. unfold start_processing_swiftsync, mbind, stm_bind, gets, lift, modify, on_swift.
  destruct (blocks (sw_node s) !! x) as [b|] eqn:Eb; cbn [ok_or]; [|by intros [= <- <-]].
  destruct (is_processing b) eqn:Ep; [by intros [= <- <-]|].
  destruct (indices_at_height (sw_hints s) h) as [hints|] eqn:Ei; cbn [expect]; [|by intros [= <- <-]].
  apply bool_decide_eq_false in Ep. rewrite <-eq_None_not_Some in Ep.
  set (n' := set_blocks _ _). set (s1 := set_sw_node n' s). cbn [context sw_node].
  set (res := process_block_swiftsync _ _ _ _ _). intros [= <- <-]. cbn [alive].
  intros Ha. assert (Ha' : abort_height (context s) = None) by (revert Ha; destruct res; cbn; done).
  destruct (Hs Ha') as [l [A1 A2 A3]]. exists l. pose proof (held_update _ _ _ _ _ x b (set_processing now b) A1 Eb eq_refl) as Hd.
  assert (Hrep : forall w, match wr_result w with inr delta => Ok delta | inl e => Err e end = res -> wr_hash w = x -> wr_height w = h -> report_ok w).
  { intros w Hw <- <-. exists (ib_block b), hints. pose proof (hd_stored _ _ _ _ _ A1 _ _ Eb) as Hx. split; [done|]. split_and!.
    - rewrite Hx, <-Hh. symmetry. apply (hd_heights _ _ _ _ _ A1).
    - by apply (ct_hints _ _ _ A2).
    - rewrite Hw. unfold res, swift_consensus. by rewrite (hd_net _ _ _ _ _ A1), (ct_salt _ _ _ A2). }
  unfold spawn_worker. destruct res as [delta|e| |]; split; cbn; try done;
    first [by apply reported_update|apply reported_new; [done..| |done]; by apply Hrep].
Qed.
Lemma keeps_start_all now l : keeps swift_inv (start_all now l : Sw unit).
Proof.
  induction l as [|x l IH]; cbn [start_all]; [apply keeps_ret|]. constructor. intros s r s' Hs.
  unfold mbind at 1, stm_bind at 1, on_swift at 1, on_chain, gets. rewrite set_same_node.
  destruct (chain_block_height (chain (sw_node s)) x) as [[h|]|?| |] eqn:Eh; cbn [map_err]; try (by intros [= <- <-]).
  unfold mbind, stm_bind, lift, ok_or. destruct (start_processing_swiftsync now x h s) as [o s1] eqn:E.
  pose proof (processing_inv now x h s o s1 Hs Eh E) as Hk. destruct o; try (by intros [= <- <-]). by apply (keeps_run IH).
Qed.
Lemma keeps_pump now : keeps swift_inv (pump_swiftsync now : Sw unit).
Proof.
  unfold pump_swiftsync. apply keeps_state_bind. intros s Hs. destruct (was_aborted s); [apply keeps_ret|].
  destruct (_ =? 0)%nat; [apply keeps_ret|apply keeps_start_all].
Qed.

(** ** Reports *)

Lemma reported_delete bs before r after : reported bs (before ++ r :: after) -> reported (delete (wr_hash r) bs) (before ++ after).
Proof.
  intros [Hn Hw]. rewrite map_app in Hn. cbn [map] in Hn.
  assert (Hp : wr_hash r :: (map wr_hash before ++ map wr_hash after) ≡ₚ map wr_hash before ++ wr_hash r :: map wr_hash after)
    by apply Permutation_middle.
  rewrite <-Hp in Hn. apply NoDup_cons in Hn as [Hni Hn]. split; [by rewrite map_app|].
  intros r' Hr'. destruct (Hw r') as (Hok & b & Hb & Ht).
  { apply elem_of_app in Hr' as [?|?]; apply elem_of_app; [by left|right; by right]. } split; [done|]. exists b. split; [|done].
  rewrite lookup_delete_ne; [done|]. intros Heq. apply Hni. rewrite Heq, <-map_app. by apply list_elem_of_fmap_2.
Qed.

(** The state after a valid report, before more blocks are requested. *)
Definition after_report (now : Z) (p : Processed) (u : StumpUpdaterHandle) (s : Swift) : Swift :=
  show_progress (alter_context (set_processed_blocks (processed_blocks (context s) + 1))
    (set_sw_node (alter_timers (set_last_tip_update now) (sw_node s))
      (set_sw_hints (take_indices (pr_height p) (sw_hints s))
        (alter_context (set_updater (Some u)) (alter_context (add_delta (pr_delta p)) s))))).

Lemma valid_report_ok now p b s o s' : handle_valid_report now (pr_delta p) (pr_height p) b s = (o, s') ->
  (o = Panic \/ o = Diverge) \/
  exists u sparse u', stump_updater (context s) = Some u /\ sparse_new (E := WireError) (utreexo_adds (pr_delta p)) = Ok sparse /\
    handle_send (E := WireError) (pr_height p, sparse) u = Ok u' /\ processed_blocks (context s) < stop_height (context s) /\
    refill_block_requests now (after_report now p u' s) = (o, s').
Proof.
  unfold handle_valid_report, pump_utreexo_adds, handle_valid_worker_block, mbind, stm_bind, gets, lift, modify, on_swift.
  cbn [context alter_context add_delta set_sums stump_updater].
  destruct (stump_updater (context s)) as [u|]; cbn [expect]; [|intros [= <- <-]; tauto].
  destruct (sparse_new _) as [sparse|e| |] eqn:Es; try (intros [= <- <-]; tauto); [|by apply sparse_never in Es].
  destruct (handle_send _ _) as [u'|e| |] eqn:Eu; try (intros [= <- <-]; tauto); [|by apply handle_send_never in Eu].
  destruct (processing_since b); cbn [expect]; [|intros [= <- <-]; tauto].
  cbn -[u32_add refill_block_requests show_progress].
  destruct (Z.ltb_spec (processed_blocks (context s)) (stop_height (context s))) as [Hlt|]; [|intros [= <- <-]; tauto].
  destruct (u32_add _ 1) as [n|e| |] eqn:En; try (intros [= <- <-]; tauto); [|by apply never_u32 in En].
  apply u32_add_ok in En as [-> _]. intros Hr. right. exists u, sparse, u'. done.
Qed.

Lemma handle_send_ok {E} m u u' : handle_send (E := E) m u = Ok u' ->
  u' = mkHandle (h_acc u) (h_height u) (h_stop u) (h_tx u ++ [m]) (h_received u).
Proof. unfold handle_send. intros (r & _ & Hr)%obind_ok. destruct r; [done|by injection Hr as <-]. Qed.

Lemma counted_more l p now u sparse u' (s : Swift) : counted l (context s) (sw_hints s) -> done_ok p ->
  stump_updater (context s) = Some u -> sparse_new (E := WireError) (utreexo_adds (pr_delta p)) = Ok sparse ->
  handle_send (E := WireError) (pr_height p, sparse) u = Ok u' -> processed_blocks (context s) < stop_height (context s) ->
  counted (l ++ [p]) (context (after_report now p u' s)) (sw_hints (after_report now p u' s)).
Proof.
  intros [T1 T2 T3 T4 T5 T6 T7 T8] Hp Hu Hs ->%handle_send_ok Hlt. rewrite T2 in Hlt. destruct T6 as [Hc Hcs].
  split; cbn; try done.
  - rewrite map_app, foldl_app, T3. done.
  - rewrite map_app, foldl_app, T4. done.
  - destruct T5 as (u0 & E & E1 & E2 & E3 & Hf). rewrite Hu in E. injection E as <-. eexists. split; [done|]. cbn. split_and!; try done.
    apply Forall2_app; [done|]. constructor; [|constructor]. split; [done|]. by apply sparse_dense.
  - rewrite length_app. cbn. lia.
  - intros h x. rewrite indices_taken. destruct (h =? pr_height p); [done|apply T7].
  - by apply Forall_app_2; [|constructor].
Qed.

Definition aborted (s : Swift) : Prop := abort_height (context s) <> None.
Lemma inv_aborted s : aborted s -> swift_inv s.
Proof. by intros Ha Hn. Qed.
Lemma keeps_aborted {A} (m : stm (NodeCommon C MP) WireError A) : keeps aborted (on_swift m : Sw A).
Proof. constructor. intros s r s' Hs. unfold on_swift. destruct (m (sw_node s)) as [o n]. intros [= <- <-]. by destruct o. Qed.

(** A block that is invalid stops the sync, any other is asked for again. *)
Lemma invalid_inv now e x h peer l s n o s' : retried_or_invalid e ->
  sw_node s = n -> (forall n', n' = insert_inflight now (InBlocks x) peer n -> held c0 net stop (map pr_hash l) n') ->
  counted l (context s) (sw_hints s) -> reported (blocks n) (workers s) ->
  handle_invalid_swift_block now e x h peer s = (o, s') -> alive swift_inv o s'.
Proof.
  intros (e' & He & Hf) Hn Hh Hc Hr. unfold handle_invalid_swift_block. rewrite He.
  destruct (swift_fault e') eqn:Ef; try (destruct Hf; done).
  - intros Hrun. assert (Hk : alive aborted o s').
    { revert Hrun. unfold mbind at 1, stm_bind at 1. unfold mbind at 1, stm_bind at 1, modify.
      set (s1 := alter_context _ s). match goal with |- match ?m s1 with _ => _ end = _ -> _ => destruct (m s1) as [o1 s2] eqn:E1 end.
      pose proof (keeps_run (keeps_aborted _) s1 o1 s2 ltac:(done) E1) as Hk2. destruct o1; try (by intros [= <- <-]).
      match goal with |- ?m s2 = _ -> _ => assert (Hm : keeps aborted m) end.
      { apply keeps_bind; [apply keeps_aborted|intros _; apply keeps_lift]. }
      by apply (keeps_run Hm). }
    destruct o; cbn in *; try done; by apply inv_aborted.
  - unfold mbind at 1, stm_bind at 1, on_swift at 1, modify. set (s1 := set_sw_node _ s).
    assert (Hs1 : swift_inv s1).
    { intros _. exists l. split; [apply Hh; cbn; by rewrite Hn|done|]. cbn. by rewrite Hn. }
    match goal with |- ?m s1 = _ -> _ => assert (Hm : keeps swift_inv m) end.
    { apply keeps_bind; [|intros _; apply keeps_lift]. apply keeps_swift. intros n0. auto with swift. }
    by apply (keeps_run Hm).
Qed.

Lemma report_delta before r after l s b (Hl : accounts l s) : workers s = before ++ r :: after -> blocks (sw_node s) !! wr_hash r = Some b ->
  let s1 := set_sw_node (set_blocks (delete (wr_hash r) (blocks (sw_node s))) (sw_node s)) (set_workers (before ++ after) s) in
  reported (blocks (sw_node s1)) (workers s1) /\ counted l (context s1) (sw_hints s1) /\
  (forall now peer, held c0 net stop (map pr_hash l) (insert_inflight now (InBlocks (wr_hash r)) peer (sw_node s1))) /\
  held c0 net stop (map pr_hash l ++ [wr_hash r]) (sw_node s1).
Proof.
  destruct Hl as [A1 A2 A3]. intros Hw Hb. cbn. rewrite Hw in A3. split_and!; [by apply reported_delete|done| |].
  - intros now peer. by apply (held_again _ _ _ _ _ _ b).
  - by apply (held_done _ _ _ _ _ _ b).
Qed.
Lemma worker_inv now before r after s o s' : swift_inv s -> workers s = before ++ r :: after ->
  handle_worker_notification now (wr_result r) (wr_hash r) (wr_height r) (set_workers (before ++ after) s) = (o, s') -> alive swift_inv o s'.
Proof.
  intros Hs Hw. unfold handle_worker_notification. unfold mbind at 1, stm_bind at 1, gets at 1.
  destruct (was_aborted _) eqn:Ea.
  { intros [= <- <-]. apply bool_decide_eq_true in Ea as [h Hh]. apply inv_aborted. unfold aborted. cbn in *. by rewrite Hh. }
  apply bool_decide_eq_false in Ea. rewrite <-eq_None_not_Some in Ea. destruct (Hs Ea) as [l Hl].
  pose proof (ac_reported _ _ Hl) as [_ Hrep]. rewrite Hw in Hrep.
  destruct (Hrep r) as ((b' & hints & Hb' & Hok) & b & Hb & _); [apply elem_of_app; right; by left|].
  destruct (report_delta before r after l s b Hl Hw Hb) as (R1 & R2 & R3 & R4).
  unfold mbind at 1, stm_bind at 1, lift. change (sw_node (set_workers (before ++ after) s)) with (sw_node s). rewrite Hb. cbn [ok_or].
  unfold mbind at 1, stm_bind at 1, on_swift at 1, modify. change (sw_node (set_workers (before ++ after) s)) with (sw_node s).
  set (s1 := set_sw_node _ _) in *. destruct (wr_result r) as [e|delta].
  - pose proof (hd_stored _ _ _ _ _ (ac_held _ _ Hl) _ _ Hb) as Hx. unfold blk_hash in Hx. rewrite Hx.
    apply (invalid_inv now e _ _ _ l s1 (sw_node s1)); try done.
    + destruct Hok as (_ & _ & He). by apply process_swift_errs in He.
    + intros n' ->. apply R3.
  - set (p := mkProcessed b' (wr_height r) hints delta). change delta with (pr_delta p). change (wr_height r) with (pr_height p). intros Hrun.
    apply valid_report_ok in Hrun as [[-> | ->]|(u & sparse & u' & Hu & Hsp & Hse & Hlt & Hrun)]; try done.
    refine (keeps_run (keeps_refill now) _ _ _ _ Hrun). intros _. exists (l ++ [p]). split.
    + rewrite map_app. cbn [map]. replace (pr_hash p) with (wr_hash r) by exact (eq_sym Hb').
      apply held_ibd. apply (held_framed _ _ _ _ (sw_node s1)); [done|]. by split; try apply (hd_apart _ _ _ _ _ R4).
    + by apply (counted_more l p now u sparse).
    + exact R1.
Qed.

(** ** Messages, ticks and runs *)

Lemma reported_arrives bs ws x b : reported bs ws -> bs !! x = None -> reported (<[x := b]> bs) ws.
Proof.
  intros [Hn Hw] Hx. split; [done|]. intros r Hr. destruct (Hw r Hr) as (Hok & b' & Hb' & Ht). split; [done|]. exists b'.
  split; [|done]. rewrite lookup_insert_ne; [done|]. congruence.
Qed.
Lemma keeps_swift_block now b peer : keeps swift_inv (handle_swift_block now b peer : Sw unit).
Proof.
  unfold handle_swift_block. apply keeps_state_at. intros s o s' Hs. case_bool_decide as Hst; [by intros [= <- <-]|].
  rewrite <-eq_None_not_Some in Hst. destruct (inflight (sw_node s) !! InBlocks (blk_hash b)) as [v|] eqn:Er.
  2:{ apply (keeps_run (keeps_swift _ (fun n0 => fr_banscore n0 peer 5)) s o s' Hs). }
  unfold mbind at 1, stm_bind at 1, on_swift at 1, modify at 1. unfold mbind at 1, stm_bind at 1, on_swift at 1, modify at 1.
  set (s1 := set_sw_node _ (set_sw_node _ s)). assert (Hs1 : swift_inv s1).
  { intros Ha. destruct (Hs Ha) as [l [A1 A2 A3]]. exists l. split; [|done|by apply reported_arrives].
    exact (held_arrives c0 net stop (map pr_hash l) (sw_node s) (blk_hash b) (mkInflight peer b None None) A1 (mk_is_Some _ _ Er) eq_refl). }
  match goal with |- ?m s1 = _ -> _ => assert (Hm : keeps swift_inv m) end.
  { apply keeps_bind; [apply keeps_pump|intros _; apply keeps_refill]. }
  by apply (keeps_run Hm).
Qed.
Lemma keeps_swift_message now unix peer msg : keeps swift_inv (handle_swift_message now unix peer msg : Sw unit).
Proof.
  unfold handle_swift_message. destruct msg; try apply keeps_ret; [apply keeps_swift_block|..]; apply keeps_swift; intros n0;
    try apply keeps_ignore; auto with swift.
Qed.
Lemma keeps_message_swift now unix msg : is_report msg = false -> keeps swift_inv (swift_message average now unix msg : Sw unit).
Proof.
  intros Hm. unfold swift_message. destruct msg as [l|peer m t|req resp|]; try done.
  - apply keeps_swift. intros n0. apply keeps_modify. intros n Hn. by apply (framed_from n0 n).
  - apply keeps_bind; [apply keeps_swift; intros n0; apply keeps_modify; intros n; apply framed_message_time|intros _].
    apply keeps_bind; [apply keeps_swift; intros n0; auto with swift|intros [u|]; [apply keeps_swift_message|apply keeps_ret]].
  - destruct req; try apply keeps_ret; apply keeps_swift; intros n0; auto with swift.
Qed.
Lemma report_inv now unix before r after s o s' : swift_inv s -> workers s = before ++ r :: after ->
  swift_message average now unix (FromWorker (wr_result r) (wr_hash r) (wr_height r)) (set_workers (before ++ after) s) = (o, s') ->
  alive swift_inv o s'.
Proof.
  intros Hs Hw. unfold swift_message, mbind, stm_bind. destruct (handle_worker_notification _ _ _ _ _) as [o1 s1] eqn:E.
  pose proof (worker_inv now before r after s o1 s1 Hs Hw E) as Hk. destruct o1; try (by intros [= <- <-]). by apply (keeps_run (keeps_pump now)).
Qed.

Lemma keeps_jobs now unix : keeps swift_inv (swift_jobs seeds now unix : Sw LoopControl).
Proof.
  unfold swift_jobs. do 3 (apply keeps_bind; [apply keeps_swift; intros n0; try apply keeps_ignore; auto with swift|intros _]).
  apply keeps_state_bind. intros s _. destruct (_ <? _).
  - apply keeps_bind; [apply keeps_swift; intros n0; apply keeps_ignore; auto with swift|intros _].
    apply keeps_bind; [|intros _; apply keeps_ret]. apply keeps_swift. intros n0. apply keeps_modify. intros n Hn. by apply (framed_from n0 n).
  - apply keeps_bind; [apply keeps_ignore_swift, keeps_pump|intros _]. apply keeps_bind; [apply keeps_refill|intros _; apply keeps_ret].
Qed.
Lemma tick_inv now unix s s' : swift_inv s -> swift_maintenance_tick seeds now unix s = (Ok Continue, s') -> swift_inv s'.
Proof.
  intros Hs. unfold swift_maintenance_tick, mbind at 1, stm_bind at 1, gets. destruct (kill_signal _); [done|].
  destruct (abort_height _); [done|]. unfold mbind at 1, stm_bind at 1, lift. destruct (swift_sync_finished s) as [[acc|]|?| |]; try done.
  - unfold mbind, stm_bind. by destruct (handle_stop_height_reached acc s) as [[] ?].
  - apply (keeps_run (keeps_jobs now unix)). done.
Qed.
Lemma swift_step_inv s s' : swift_inv s -> swift_step seeds average s s' -> swift_inv s'.
Proof.
  intros Hs Hst. destruct Hst as [now unix msg s s' Hm E|now unix before r after s s' Hw E|now unix s s' E|u s Hu Hlt|peer s].
  - exact (keeps_run (keeps_ignore_swift _ (keeps_message_swift now unix msg Hm)) s _ s' Hs E).
  - unfold ignore_swift in E. destruct (swift_message _ _ _ _ _) as [o s1] eqn:E1. pose proof (report_inv _ _ _ _ _ _ _ _ Hs Hw E1) as Hk.
    destruct o; try done; by injection E as <-.
  - exact (tick_inv now unix s s' Hs E).
  - intros Ha. destruct (Hs Ha) as [l [A1 [T1 T2 T3 T4 T5 T6 T7 T8] A3]]. exists l. split; [done| |done]. split; try done.
    destruct T5 as (u0 & E & Ht). cbn in *. rewrite Hu in E. injection E as <-. eexists. split; [done|]. exact Ht.
  - apply inv_framed; [done|]. intros Hap. by apply (framed_from _ (sw_node s)); [apply framed_refl|..].
Qed.

(** ** The end of a run *)

(** The blocks that were processed, in the order of their heights. *)
Lemma updates_of_blocks tx l (hs : list Z) dense :
  Forall2 (fun m p => m.1 = pr_height p /\ into_dense (E := WireError) m.2 = Ok (utreexo_adds (pr_delta p))) tx l ->
  Forall2 (sent_for (E := WireError) tx) hs dense ->
  exists bs, bs ⊆ l /\ map pr_height bs = hs /\ dense = map (fun p => utreexo_adds (pr_delta p)) bs.
Proof.
  intros Ht. induction 1 as [|h d hs dense (x & Hx & Hd) _ (bs & Hbs & <- & ->)].
  { exists []. split_and!; [intros x Hx; by apply not_elem_of_nil in Hx|done..]. }
  apply list_elem_of_lookup in Hx as [i Hi]. destruct (Forall2_lookup_l _ _ _ _ _ Ht Hi) as (p & Hp & Eh & Ed). cbn in *.
  exists (p :: bs). split_and!.
  - intros q [->|Hq]%elem_of_cons; [by apply list_elem_of_lookup_2 in Hp|by apply Hbs].
  - cbn. by rewrite <-Eh.
  - cbn. f_equal. congruence.
Qed.
Lemma all_processed l s acc : accounts l s -> swift_sync_finished s = Ok (Some acc) ->
  exists bs, bs ≡ₚ l /\ map pr_height bs = seqZ 1 stop /\ acc = foldl add_only stump_new (map (fun p => utreexo_adds (pr_delta p)) bs).
Proof.
  intros [A1 A2 A3]. unfold swift_sync_finished. destruct (_ || _); [done|].
  destruct (ct_sent _ _ _ A2) as (u & -> & E1 & E2 & E3 & Ht). cbn [expect mbind outcome_bind]. unfold handle_result. rewrite E1, E2, E3.
  intros Hrun. apply run_updater_sound in Hrun as (Hlt & dense & Hd & ->); [|lia].
  assert (Hd' : Forall2 (sent_for (E := WireError) (h_tx u)) (seqZ 1 stop) dense).
  { rewrite Z.sub_0_r in Hd. apply (Forall2_impl _ _ _ _ Hd). intros h d (x & Hx & Hy). exists x. split; [|done].
    apply elem_of_take in Hx as (i & Hi & _). by apply list_elem_of_lookup_2 in Hi. }
  destruct (updates_of_blocks _ _ _ _ Ht Hd') as (bs & Hbs & Hh & ->). exists bs. split; [|done].
  assert (Hn : NoDup bs). { apply (NoDup_fmap_1 pr_height). change (pr_height <$> bs) with (map pr_height bs). rewrite Hh. apply NoDup_seqZ. }
  apply submseteq_length_Permutation; [by apply NoDup_submseteq|].
  assert (Hl : length bs = Z.to_nat stop) by (rewrite <-(length_map pr_height bs), Hh; apply length_seqZ).
  pose proof (ct_count _ _ _ A2) as [_ ?]. lia.
Qed.

Lemma supply_stays_max l : (forall x, x ∈ l -> 0 <= x) -> foldl saturating_supply AMOUNT_MAX l = AMOUNT_MAX.
Proof.
  induction l as [|x l IH]; intros Hl; [done|]. cbn [foldl]. assert (Hx : 0 <= x) by (apply Hl; by left).
  assert (saturating_supply AMOUNT_MAX x = AMOUNT_MAX) as ->.
  { unfold saturating_supply, checked_add64. destruct (Z.leb_spec (AMOUNT_MAX + x) u64_max); cbn; unfold AMOUNT_MAX in *; lia. }
  apply IH. intros y Hy. apply Hl. by right.
Qed.
Lemma saturating_total l : (forall x, x ∈ l -> 0 <= x) -> forall a,
  foldl saturating_supply a l = AMOUNT_MAX \/ foldl saturating_supply a l = a + sum_Z id l.
Proof.
  induction l as [|x l IH]; intros Hl a; cbn [foldl sum_Z]; [right; lia|].
  assert (Hl' : forall y, y ∈ l -> 0 <= y) by (intros y Hy; apply Hl; by right).
  destruct (Z.leb_spec (a + x) u64_max) as [Hle|Hgt].
  - assert (saturating_supply a x = a + x) as -> by (unfold saturating_supply, checked_add64; by rewrite (proj2 (Z.leb_le _ _) Hle)).
    destruct (IH Hl' (a + x)) as [-> | ->]; [by left|right; unfold id; lia].
  - assert (saturating_supply a x = AMOUNT_MAX) as -> by (unfold saturating_supply, checked_add64; by rewrite (proj2 (Z.leb_gt _ _) Hgt)).
    left. by apply supply_stays_max.
Qed.

Lemma no_saturation l : (forall x, x ∈ l -> 0 <= x) -> forall a, a + sum_Z id l <= u64_max -> foldl saturating_supply a l = a + sum_Z id l.
Proof.
  induction l as [|x l IH]; intros Hl a Hle; cbn [foldl sum_Z] in *; [lia|].
  assert (Hl' : forall y, y ∈ l -> 0 <= y) by (intros y Hy; apply Hl; by right). pose proof (sum_Z_nonneg id l Hl') as Hs. unfold id at 1 in Hle.
  assert (saturating_supply a x = a + x) as -> by (unfold saturating_supply, checked_add64; by rewrite (proj2 (Z.leb_le _ _)) by lia).
  rewrite IH by (done || lia). unfold id at 2. lia.
Qed.
Lemma amounts_nonneg (bs : list Processed) : Forall done_ok bs -> (forall p, p ∈ bs -> amounts_unsigned (pr_block p)) ->
  (forall x, x ∈ map (fun p => unspent_amount (pr_delta p)) bs -> 0 <= x) /\
  sum_Z id (map (fun p => unspent_amount (pr_delta p)) bs) = sum_Z (fun p => unspent_amount (pr_delta p)) bs.
Proof.
  intros Hd Hu. split.
  - intros x (p & -> & Hp)%list_elem_of_fmap. rewrite Forall_forall in Hd. destruct (Hd p Hp) as (_ & _ & Hw).
    by apply swift_amount_nonneg in Hw; [|apply Hu].
  - clear. induction bs as [|p bs IH]; cbn; [done|]. by rewrite IH.
Qed.

(** The outputs of the blocks that the hints say are spent, and the outputs the
    blocks spend. *)
Definition all_hinted (bs : list Processed) : list OutPoint :=
  concat (map (fun p => hinted_spent (pr_block p) (pr_height p) (list_to_set (pr_hints p))) bs).
Definition all_spent (bs : list Processed) : list OutPoint := concat (map (fun p => spent_outputs (pr_block p)) bs).

Lemma agg_of_blocks (bs : list Processed) : Forall done_ok bs ->
  foldl agg_plus agg_zero (map (fun p => aggregator_delta (pr_delta p)) bs) = agg_delta keys (all_hinted bs) (all_spent bs).
Proof.
  intros Hd. assert (map (fun p => aggregator_delta (pr_delta p)) bs =
    map (fun d => agg_delta keys d.1 d.2) (map (fun p => (hinted_spent (pr_block p) (pr_height p) (list_to_set (pr_hints p)), spent_outputs (pr_block p))) bs)) as ->.
  { rewrite map_map. induction Hd as [|p bs (_ & _ & Hp) _ IH]; cbn; [done|]. rewrite IH. f_equal. by apply swift_delta_spec in Hp. }
  change agg_zero with (agg_delta keys [] []). rewrite agg_plus_deltas, !map_map. done.
Qed.
Lemma supply_of_blocks (bs : list Processed) limit : Forall done_ok bs -> (forall p, p ∈ bs -> amounts_unsigned (pr_block p)) ->
  limit < u64_max -> foldl saturating_supply 0 (map (fun p => unspent_amount (pr_delta p)) bs) <= limit ->
  sum_Z (fun p => unspent_amount (pr_delta p)) bs <= limit.
Proof.
  intros Hd Hu Hlt Hle. destruct (amounts_nonneg bs Hd Hu) as [Hn Hs].
  destruct (saturating_total _ Hn 0) as [E|E]; rewrite E in Hle; [unfold AMOUNT_MAX in Hle; lia|]. lia.
Qed.
End SwiftFacts.

Section SwiftTheorems.
Context `{HashLib, TxLib, HeaderLib, UtreexoLib, ScriptBuild} `{!Codec TxOut}.
Context {C MP Hints : Type} `{!ProofBuild, !ChainBackend C, !HashOrder, !MempoolBase MP} `{!Json (list DiskLocalAddress)}.
Context `{!HintsLib Hints, !HintsOk Hints, !IbdNeutral C}.
Context (seeds : Network -> list Z) (average : option Z -> Z -> Z).

Abbreviation Node := (NodeCommon C MP) (only parsing).
Abbreviation Swift := (@Swift _ C MP Hints) (only parsing).

(** No block is asked for or stored before the sync, and the chain knows the
    height of each of its blocks. *)
Definition fresh_node (n : Node) : Prop := blocks n = ∅ /\ forall x, ~ requested n x.
Definition indexed (c : C) (stop : Z) : Prop :=
  forall h x, 1 <= h <= stop -> chain_block_hash c h = Ok x -> chain_block_height c x = Ok (Some h).
Definition start_keys (n : Node) : SipHashKeys := generate_salt (hd (fun _ => 0%nat) (draws n)).
Definition start_network (n : Node) : Network := cfg_network (config n).

Lemma swift_start_inv file par (start : Node) hints s : parse_hints_file file = Some hints -> fresh_node start ->
  swift_start file par swift_default start = Ok (Some s) ->
  accounts (chain start) hints (start_network start) (start_keys start) (hints_stop_height hints) [] s.
Proof.
  intros Hf [Hb Hr]. unfold swift_start. rewrite Hf. intros (ok & _ & Hs)%obind_ok. destruct (negb ok); [done|].
  apply obind_ok in Hs as (u & Hu & [= <-]). unfold handle_spawn, updater_spawn in Hu.
  destruct (Z.ltb_spec 0 (hints_stop_height hints)) as [Hlt|]; [|done]. injection Hu as <-.
  split; cbn.
  - split; cbn; try done; try (intros; by rewrite ?ibd_block_height, ?ibd_block_hash).
    + intros x Hx. by destruct (Hr x).
    + rewrite Hb. intros x b. by rewrite lookup_empty.
    + intros x Hx. by apply not_elem_of_nil in Hx.
    + constructor.
    + intros x [Hx|[[b Hx]|Hx]]; [by destruct (Hr x)|by rewrite Hb, lookup_empty in Hx|by apply not_elem_of_nil in Hx].
    + intros h Hh. lia.
    + lia.
  - split; cbn; try done. by eexists. lia.
  - split; [constructor|]. intros r Hx. by apply not_elem_of_nil in Hx.
Qed.

Lemma swift_reaches file par (start : Node) hints s : parse_hints_file file = Some hints -> fresh_node start ->
  indexed (chain start) (hints_stop_height hints) -> swift_reachable seeds average file par start s ->
  swift_inv (chain start) hints (start_network start) (start_keys start) (hints_stop_height hints) s.
Proof.
  intros Hf Hn Hi. induction 1 as [s Hs|s s' _ IH Hst].
  - intros _. exists []. by apply (swift_start_inv file par).
  - by apply (swift_step_inv seeds average _ _ _ _ _ Hi s).
Qed.

(** C9: In every state of a SwiftSync that was not aborted, whatever peers and users
    send, whatever fails and in whatever order workers report, no block is lost or
    counted twice: each block up to the last height asked for is in exactly one of three
    places, requested from a peer, stored under its hash, or processed; the aggregator,
    the supply, the progress and the additions sent to the updater are those of the
    processed blocks, each once; the hints left are those of the file; and every pending
    report is what process_block_swiftsync returns for a distinct stored block with the
    hints of its height. *)
Theorem swift_accounts_every_block file par (start : Node) hints s : parse_hints_file file = Some hints -> fresh_node start ->
  indexed (chain start) (hints_stop_height hints) -> swift_reachable seeds average file par start s ->
  abort_height (context s) = None ->
  exists l, accounts (chain start) hints (start_network start) (start_keys start) (hints_stop_height hints) l s.
Proof. intros Hf Hn Hi Hr Ha. by eapply swift_reaches. Qed.

(** What marking the chain needs. *)
Lemma stop_height_marks now unix (s s' : Swift) : swift_maintenance_tick seeds now unix s = (Ok Break, s') ->
  kill_signal (sw_node s) = false -> abort_height (context s') = None ->
  exists acc limit tip b, abort_height (context s) = None /\ swift_sync_finished s = Ok (Some acc) /\
    agg_is_zero (agg (context s)) = true /\ max_supply_at_height (swift_consensus (sw_node s)) (stop_height (context s)) = Ok limit /\
    supply (context s) <= limit /\ chain_block_hash (chain (sw_node s)) (stop_height (context s)) = Ok tip /\
    chain_mark_assumed acc tip (chain (sw_node s)) = (Ok b, chain (sw_node s')).
Proof.
  unfold swift_maintenance_tick, mbind at 1, stm_bind at 1, gets. intros Hrun Hk Ha. revert Hrun. rewrite Hk.
  destruct (abort_height (context s)) eqn:Ea; [intros [= <-]; congruence|]. unfold mbind at 1, stm_bind at 1, lift.
  destruct (swift_sync_finished s) as [[acc|]|?| |]; try done.
  2:{ unfold swift_jobs. intros Hrun. exfalso. revert Hrun. unfold mbind, stm_bind, gets. repeat (case_match; try done). }
  unfold mbind at 1, stm_bind at 1. unfold handle_stop_height_reached, mbind, stm_bind, gets, lift, on_swift, chain_do, on_chain.
  destruct (agg_is_zero (agg (context s))); cbn [negb]; [|intros [= <-]; done].
  destruct (max_supply_at_height _ _) as [limit|?| |]; try done. cbn [unwrap].
  destruct (Z.ltb_spec limit (supply (context s))); [intros [= <-]; done|].
  unfold gets. destruct (chain_block_hash _ _) as [tip|?| |] eqn:Et; try done. cbn [map_err].
  rewrite set_same_node. destruct (chain_mark_assumed acc tip _) as [[b|?| |] c] eqn:Em; try done. cbn. intros [= <-].
  exists acc, limit, tip, b. split_and!; try done.
Qed.

(** The blocks of a finished run: one for each height up to the stop height, each
    accepted by process_block_swiftsync with the hints of its height. *)
Definition chain_blocks (start : Node) (hints : Hints) (bs : list Processed) : Prop :=
  map pr_height bs = seqZ 1 (hints_stop_height hints) /\
  Forall (done_ok (chain start) hints (start_network start) (start_keys start)) bs.

Lemma finished_blocks start hints l (s : Swift) acc :
  accounts (chain start) hints (start_network start) (start_keys start) (hints_stop_height hints) l s ->
  swift_sync_finished s = Ok (Some acc) ->
  exists bs, chain_blocks start hints bs /\ bs ≡ₚ l /\ acc = foldl add_only stump_new (map (fun p => utreexo_adds (pr_delta p)) bs) /\
    agg (context s) = agg_delta (start_keys start) (all_hinted bs) (all_spent bs).
Proof.
  intros Hl Hfin. destruct (all_processed _ _ _ _ _ l s acc Hl Hfin) as (bs & Hp & Hh & ->). destruct Hl as [_ [T1 T2 T3 T4 T5 T6 T7 T8] _].
  exists bs. split_and!; [split; [done|by rewrite Hp]|done..|]. rewrite <-(agg_of_blocks (chain start) hints (start_network start)) by (by rewrite Hp).
  rewrite T3. apply agg_plus_perm. by rewrite Hp.
Qed.

Lemma sync_sound now unix file par (start : Node) hints s s' : parse_hints_file file = Some hints -> fresh_node start ->
  indexed (chain start) (hints_stop_height hints) -> swift_reachable seeds average file par start s ->
  swift_maintenance_tick seeds now unix s = (Ok Break, s') -> kill_signal (sw_node s) = false -> abort_height (context s') = None ->
  exists bs tip b, chain_blocks start hints bs /\
    agg_is_zero (agg_delta (start_keys start) (all_hinted bs) (all_spent bs)) = true /\
    ((forall p, p ∈ bs -> amounts_unsigned (pr_block p)) ->
      sum_Z (fun p => unspent_amount (pr_delta p)) bs <=
        sum_Z (get_subsidy (chain_params_from (start_network start))) (seqZ 1 (hints_stop_height hints))) /\
    chain_block_hash (chain start) (hints_stop_height hints) = Ok tip /\
    chain_mark_assumed (foldl add_only stump_new (map (fun p => utreexo_adds (pr_delta p)) bs)) tip (chain (sw_node s)) =
      (Ok b, chain (sw_node s')).
Proof.
  intros Hf Hn Hi Hr Ht Hk Ha. destruct (stop_height_marks now unix s s' Ht Hk Ha) as (acc & limit & tip & b & Ha' & Hfin & Hz & Hm & Hs & Htip & Hmark).
  destruct (swift_reaches file par start hints s Hf Hn Hi Hr Ha') as [l Hl].
  destruct (finished_blocks start hints l s acc Hl Hfin) as (bs & Hbs & Hp & -> & Hagg). rewrite Hagg in Hz.
  exists bs, tip, b. destruct Hl as [A1 [T1 T2 T3 T4 T5 T6 T7 T8] A3]. rewrite T2 in *.
  split_and!; try done; [|by rewrite <-(hd_hashes _ _ _ _ _ A1)]. intros Hu. unfold swift_consensus in Hm. rewrite (hd_net _ _ _ _ _ A1) in Hm.
  apply max_supply_ok in Hm as [-> Hlt]; [|lia]. rewrite (sum_Z_perm _ _ _ Hp).
  apply (supply_of_blocks (chain start) hints (start_network start) (start_keys start) l); [done| |done|by rewrite <-T4].
  intros p Hpl. apply Hu. by rewrite Hp.
Qed.

(** Hints that tell the truth on blocks: the outputs they call spent are those
    the blocks spend, and the others are worth no more than the subsidies. *)
Definition honest_blocks (net : Network) (stop : Z) (bs : list Processed) : Prop :=
  all_hinted bs ≡ₚ all_spent bs /\ (forall p, p ∈ bs -> amounts_unsigned (pr_block p)) /\
  sum_Z (fun p => unspent_amount (pr_delta p)) bs <= sum_Z (get_subsidy (chain_params_from net)) (seqZ 1 stop).

(** C10: Once all blocks are processed and the updater has its accumulator, honest hints
    are not rejected: there is one processed block for each height up to the stop height
    such that, if the outputs hinted as spent are those that the blocks spend and the
    other amounts add up to at most the subsidies, the next tick ends the SwiftSync
    without an abort and marks the chain, whatever the salt, and however the sums were
    accumulated. *)
Theorem honest_hints_complete now unix file par (start : Node) hints s acc tip b c' : parse_hints_file file = Some hints -> fresh_node start ->
  indexed (chain start) (hints_stop_height hints) -> swift_reachable seeds average file par start s ->
  kill_signal (sw_node s) = false -> abort_height (context s) = None -> swift_sync_finished s = Ok (Some acc) ->
  hints_stop_height hints < u32_max -> chain_block_hash (chain start) (hints_stop_height hints) = Ok tip ->
  chain_mark_assumed acc tip (chain (sw_node s)) = (Ok b, c') ->
  exists bs, chain_blocks start hints bs /\
    (honest_blocks (start_network start) (hints_stop_height hints) bs ->
     exists s', swift_maintenance_tick seeds now unix s = (Ok Break, s') /\ abort_height (context s') = None /\ chain (sw_node s') = c').
Proof.
  intros Hf Hn Hi Hr Hk Ha Hfin Hmax Htip Hmark. destruct (swift_reaches file par start hints s Hf Hn Hi Hr Ha) as [l Hl].
  destruct (finished_blocks start hints l s acc Hl Hfin) as (bs & Hbs & Hp & _ & Hagg). exists bs. split; [exact Hbs|]. intros (Hperm & Hu & Hsum).
  rewrite (agg_delta_perm _ _ _ _ _ Hperm (Permutation_refl _)), agg_delta_balanced in Hagg.
  destruct Hl as [A1 [T1 T2 T3 T4 T5 T6 T7 T8] A3]. eexists. split; [|split].
  - unfold swift_maintenance_tick, mbind at 1, stm_bind at 1, gets. rewrite Hk, Ha. unfold mbind at 1, stm_bind at 1, lift. rewrite Hfin.
    unfold mbind at 1, stm_bind at 1. unfold handle_stop_height_reached, mbind, stm_bind, gets, lift, on_swift, chain_do, on_chain.
    rewrite Hagg, T2. cbn [agg_is_zero agg_zero agg0 agg1 Z.eqb andb negb]. unfold swift_consensus. rewrite (hd_net _ _ _ _ _ A1).
    destruct (max_supply_is_sum (chain_params_from (start_network start)) (hints_stop_height hints)) as [-> Hle]; [lia|]. cbn [unwrap].
    assert (Hsup : supply (context s) <= sum_Z (get_subsidy (chain_params_from (start_network start))) (seqZ 1 (hints_stop_height hints))).
    { rewrite T4. destruct (amounts_nonneg (chain start) hints (start_network start) (start_keys start) l T8) as [Hn0 Hs0];
        [intros p Hpl; apply Hu; by rewrite Hp|].
      rewrite no_saturation by (done || (rewrite Hs0, <-(sum_Z_perm _ _ _ Hp); unfold MAX_MONEY, u64_max in *; lia)).
      rewrite Hs0, <-(sum_Z_perm _ _ _ Hp). lia. }
    rewrite (proj2 (Z.ltb_ge _ _) Hsup). unfold gets. rewrite (hd_hashes _ _ _ _ _ A1), Htip. cbn [map_err]. rewrite set_same_node, Hmark. cbn. done.
  - done.
  - done.
Qed.
End SwiftTheorems.

(** * On the chain state *)

Section OnChainState.
Context `{HashLib, TxLib, HeaderLib, KernelLib, UtreexoLib, ScriptBuild} `{!Codec TxOut}.
Context {S DbErr : Type} `{!ChainStore S DbErr} (fuel : nat).
Context {MP Hints : Type} `{!ProofBuild, !HashOrder, !MempoolBase MP} `{!Json (list DiskLocalAddress)}.
Context `{!HintsLib Hints, !HintsOk Hints}.
Context (seeds : Network -> list Z) (average : option Z -> Z -> Z).
Context (rep : S -> StoreView -> Prop) (roots_room : S -> Prop) `{!ChainStoreOk S DbErr rep roots_room}.

#[local] Instance swift_backend : ChainBackend (ChainStateInner S) := chain_state_backend fuel.
#[export] Instance chain_state_ibd : IbdNeutral (ChainStateInner S).
Proof. by split. Qed.

(** SwiftSync only runs below the assumed-valid block, so below the tip, where
    the headers of the best chain know their heights. *)
Lemma applies_below (hints : Hints) (c : ChainStateInner S) : swift_applies hints c = Ok true -> hints_stop_height hints <= get_height c.
Proof.
  unfold swift_applies. cbn [chain_validation_index chain_assume_valid_height swift_backend chain_state_backend].
  intros (vi & _ & Hs)%obind_ok. destruct (_ || _); [done|]. apply obind_ok in Hs as ([h|] & Hav & Hs); [|done]. injection Hs as Hs%Z.leb_le.
  unfold get_assume_valid_height in Hav. destruct (assume_valid c) as [x|]; [|done].
  apply obind_ok in Hav as (o & _ & Hav). assert (Hd : forall n, (if depth (best_chain c) <? n then Ok None else
      idx ← db (store_block_hash n (chainstore c)); if bool_decide (idx = Some x) then Ok (Some n) else Ok None) = Ok (Some h) ->
      hints_stop_height hints <= get_height c).
  { intros n. unfold get_height. destruct (Z.ltb_spec (depth (best_chain c)) n); [done|]. intros (i & _ & Hi)%obind_ok. case_bool_decide; [|done].
    injection Hi as ->. lia. }
  destruct o as [[]|]; try done; by eapply Hd.
Qed.
Lemma chain_state_indexed (c : ChainStateInner S) v stop : chain_inv rep c v -> stop <= get_height c -> indexed c stop.
Proof.
  intros Hi Hle h x Hh Hx. unfold get_height in Hle. pose proof (ci_shape _ _ _ Hi) as Hs.
  destruct (sh_slot _ _ _ _ _ Hs h ltac:(lia)) as (d & Hd & Hhd & _ & Hn & _).
  destruct (slot_read rep roots_room c v h d (ci_rep _ _ _ Hi) Hd) as [_ E]. cbn in Hx. rewrite E in Hx. injection Hx as <-.
  cbn. unfold get_block_height. rewrite (proj2 (get_disk_ok rep roots_room _ _ _ _ Hi) Hhd). cbn. by rewrite Hn.
Qed.
Lemma reachable_started file par (start : NodeCommon (ChainStateInner S) MP) hints s : parse_hints_file file = Some hints ->
  swift_reachable seeds average file par start s -> swift_applies hints (chain start) = Ok true.
Proof.
  intros Hf. induction 1 as [s Hs|]; [|done]. unfold swift_start in Hs. rewrite Hf in Hs.
  destruct (swift_applies hints (chain start)) as [[]| | |]; done.
Qed.

(** C8: A SwiftSync that ends by itself and without an abort, over the chain state and
    any store that keeps its promises, has processed exactly one block for each height
    up to the stop height, in whatever order they arrived and their workers reported,
    each accepted by process_block_swiftsync with the hints of its height; the
    aggregator of the outputs hinted as spent minus the outputs spent is zero; the
    unspent amounts add up to at most the subsidies of these heights; and what it did to
    the chain is mark_chain_as_assumed on the block of the stop height with the
    accumulator of all additions in the order of their heights. *)
Theorem swift_sync_sound now unix file par (start : NodeCommon (ChainStateInner S) MP) hints v s s' : parse_hints_file file = Some hints ->
  fresh_node start -> chain_inv rep (chain start) v -> swift_reachable seeds average file par start s ->
  swift_maintenance_tick seeds now unix s = (Ok Break, s') -> kill_signal (sw_node s) = false -> abort_height (context s') = None ->
  exists bs tip b, chain_blocks start hints bs /\
    agg_is_zero (agg_delta (start_keys start) (all_hinted bs) (all_spent bs)) = true /\
    ((forall p, p ∈ bs -> amounts_unsigned (pr_block p)) ->
      sum_Z (fun p => unspent_amount (pr_delta p)) bs <=
        sum_Z (get_subsidy (chain_params_from (start_network start))) (seqZ 1 (hints_stop_height hints))) /\
    get_block_hash (chain start) (hints_stop_height hints) = Ok tip /\
    mark_chain_as_assumed fuel (foldl add_only stump_new (map (fun p => utreexo_adds (pr_delta p)) bs)) tip (chain (sw_node s)) =
      (Ok b, chain (sw_node s')).
Proof.
  intros Hf Hn Hi Hr Ht Hk Ha. pose proof (reachable_started file par start hints s Hf Hr) as Hap.
  pose proof (chain_state_indexed _ v _ Hi (applies_below _ _ Hap)) as Hix.
  exact (sync_sound seeds average now unix file par start hints s s' Hf Hn Hix Hr Ht Hk Ha).
Qed.
End OnChainState.
