(* ===== verification/RunNode.v ===== *)
(** The node in normal operation
    ([src/crates/floresta-wire/src/p2p_wire/node/running_ctx.rs]): new blocks
    and headers, compact filters, connections and maintenance.  The loop of
    [run] is the relation [running_step]. *)

From stdpp Require Import base gmap list strings.
From Stdlib Require Import ZArith Lia.
From S2P Require Import Prelude Bitcoin Errors Codec Sigops Udata ChainQuery Filters BlockProof Text Onion SocketAddr.
From S2P Require Import Mempool AddressMan Node NodeBlocks NodePeers NodeConn SyncNode.

Definition MAX_INV_RETENTION_TIME : Z := 60 * 60.
Definition MAX_LAST_INVS : nat := 144.
Definition MAX_REORG_DEPTH : Z := 288.

(** The intervals of the periodic jobs, in seconds. *)
Definition PEER_DB_DUMP_INTERVAL : Z := 30.
Definition ADDRESS_REARRANGE_INTERVAL : Z := 60 * 60.
Definition ASK_FOR_PEERS_INTERVAL : Z := 60 * 60.
Definition SEND_ADDRESSES_INTERVAL : Z := 60 * 60.

Section RunNode.
Context `{HashLib, TxLib, HeaderLib, UtreexoLib, ScriptBuild} `{!Codec TxOut}.
Context {C MP : Type} `{!ProofBuild, !ChainBackend C, !HashOrder, !MempoolBase MP} `{!Json (list DiskLocalAddress)}.
Context (seeds : Network -> list Z) (average : option Z -> Z -> Z).

Abbreviation Node := (NodeCommon C MP) (only parsing).
Abbreviation M := (stm (NodeCommon C MP) WireError) (only parsing).

(** [RunningNode], with the part of the node all contexts share. *)
Record Running := mkRunning {
  common : Node;
  last_address_rearrange : Z;
  last_invs : gmap Z (Z * list PeerId);
  inflight_filters : gmap Z BlockFilter
}.
Abbreviation R := (stm Running WireError) (only parsing).

Definition set_common (n : Node) (s : Running) : Running :=
  mkRunning n (last_address_rearrange s) (last_invs s) (inflight_filters s).
Definition set_last_address_rearrange (x : Z) (s : Running) : Running :=
  mkRunning (common s) x (last_invs s) (inflight_filters s).
Definition set_last_invs (x : gmap Z (Z * list PeerId)) (s : Running) : Running :=
  mkRunning (common s) (last_address_rearrange s) x (inflight_filters s).
Definition set_inflight_filters (x : gmap Z BlockFilter) (s : Running) : Running :=
  mkRunning (common s) (last_address_rearrange s) (last_invs s) x.

(** A method of the shared part. *)
Definition on_common {A} (m : M A) : R A := fun s => let '(o, n) := m (common s) in (o, set_common n s).

Section Handlers.
Context (now unix : Z).

(** * Connections *)

Definition to_message (x : AddrV2 * Z * ServiceFlags * Z) : AddrV2Message :=
  let '(addr, time, services, port) := x in mkAddrV2Msg (wrap32 time) services addr port.
Definition send_addresses : M unit :=
  n ← gets Ok;
  let addresses := take MAX_ADDRV2_ADDRESSES (map to_message (get_addresses_to_send (address_man n))) in
  _ ← send_to_random_peer_with_predicate (SendAddresses addresses) NONE
        (fun p => bool_decide (p_state p = Ready) && is_full_relay (kind p));
  mret tt.

(** A random regular peer is told to shut down. *)
Definition shutdown_random_peer : M unit :=
  r ← draw;
  n ← gets Ok;
  match choose r (filter (fun x => is_regular (kind x.2) = true) (map_to_list (peers n))).*1 with
  | Some id => ignore_err (send_on_channel id Shutdown)
  | None => mret tt
  end.
Definition make_room : M unit :=
  n ← gets Ok;
  if (MAX_OUTGOING_PEERS RunningNode <=? connected_peers n)%nat then shutdown_random_peer else mret tt.
Definition check_run_connections : M unit :=
  _ ← maybe_open_connection_with_added_peers now unix;
  n ← gets Ok;
  _ ← (if negb (has_utreexo_peers n)
       then _ ← make_room; maybe_open_connection seeds RunningNode now unix UTREEXO else mret tt);
  n ← gets Ok;
  _ ← (if negb (bool_decide (block_filters n = None)) && negb (has_compact_filters_peer n)
       then _ ← make_room; maybe_open_connection seeds RunningNode now unix COMPACT_FILTERS else mret tt);
  maybe_open_connection seeds RunningNode now unix NONE.

(** * Filters *)

(** The height the filters start at, when there are none yet. *)
Definition start_height (n : Node) (best_height : Z) : Z :=
  let user_height := default 1 (filter_start_height (config n)) in
  let height := if user_height <? 0 then saturating_sub best_height (- user_height) else user_height in
  saturating_sub height 1.
Definition download_filters : M unit :=
  n ← gets Ok;
  if bool_decide (is_Some (inflight n !! InGetFilters)) then mret tt
  else if negb (has_compact_filters_peer n) then mret tt
  else match block_filters n with
  | None => mret tt
  | Some filters =>
      height ← lift (map_err CompactBlockFiltersError (filters_height filters));
      best_height ← on_chain chain_height;
      let first := start_height n best_height in
      _ ← modify (if height =? 0 then set_block_filters (Some (Filters.set_height first filters)) else id);
      let height := if height =? 0 then first else height in
      if best_height <=? height then mret tt
      else
        far ← lift (u32_add height 500);
        let stop := if best_height <? far then best_height else far in
        stop_hash ← on_chain (fun c => chain_block_hash c stop);
        _ ← modify (set_last_filter stop_hash);
        next ← lift (u32_add height 1);
        peer ← send_to_fast_peer (GetFilter stop_hash next) COMPACT_FILTERS;
        modify (insert_inflight now InGetFilters peer)
  end.

(** * Missed blocks and stale tips *)

Definition requested (n : Node) (h : BlockHash) : bool := bool_decide (is_Some (inflight n !! InBlocks h)).
Definition downloaded (n : Node) (h : BlockHash) : bool := bool_decide (is_Some (blocks n !! h)).
Fixpoint missed_loop (n : Node) (heights : list Z) (l : list BlockHash) : outcome BlockchainError (list BlockHash) :=
  match heights with
  | [] => Ok l
  | i :: rest =>
      hash ← chain_block_hash (chain n) i;
      if requested n hash then missed_loop n rest l
      else if (MAX_INFLIGHT_REQUESTS RunningNode <=? length l)%nat then Ok l
      else if downloaded n hash then missed_loop n rest l
      else missed_loop n rest (l ++ [hash])
  end.
Definition ask_missed_block : M unit :=
  n ← gets Ok;
  tip ← lift (unwrap (chain_height (chain n)));
  next ← lift (unwrap (chain_validation_index (chain n)));
  if tip =? next then mret tt
  else
    first ← lift (u32_add next 1);
    l ← lift (map_err Blockchain (missed_loop n (seqZ first (tip - first + 1)) []));
    if bool_decide (l = []) then mret tt else request_blocks now l.

Definition check_for_stale_tip : M unit :=
  n ← gets Ok;
  vi ← lift (unwrap (chain_validation_index (chain n)));
  _ ← modify (set_last_block_request vi);
  _ ← modify (alter_timers (set_last_tip_update now));
  _ ← create_connection seeds now unix Extra;
  n ← gets Ok;
  locator ← lift (unwrap (chain_block_locator (chain n)));
  _ ← send_to_random_peer (GetHeaders locator) NONE;
  mret tt.

(** * Announcements *)

Definition handle_new_block (block : BlockHash) (peer : PeerId) : M unit :=
  n ← gets Ok;
  if bool_decide (is_Some (inflight n !! InHeaders)) then mret tt
  else match chain_block_header (chain n) block with
  | Panic => lift Panic
  | Diverge => lift Diverge
  | Ok _ => mret tt
  | Err _ =>
      locator ← lift (unwrap (chain_block_locator (chain n)));
      _ ← send_to_peer peer (GetHeaders locator);
      modify (insert_inflight now InHeaders peer)
  end.

(** The announcements of a block, or [None] when this one was seen already. *)
Definition note_inv (block : BlockHash) (peer : PeerId) (invs : gmap Z (Z * list PeerId)) : option (gmap Z (Z * list PeerId)) :=
  let invs := if (MAX_LAST_INVS <=? size invs)%nat then ∅ else invs in
  match invs !! block with
  | Some (when, ps) =>
      if bool_decide (peer ∈ ps) then None
      else Some (if saturating_sub now when <? 5 then <[block := (when, ps ++ [peer])]> invs else invs)
  | None =>
      Some (<[block := (now, [peer])]> (filter (fun x => saturating_sub now x.2.1 <= MAX_INV_RETENTION_TIME) invs))
  end.
Definition handle_inv (block : BlockHash) (peer : PeerId) : R unit :=
  s ← gets Ok;
  match note_inv block peer (last_invs s) with
  | None => mret tt
  | Some invs =>
      _ ← modify (set_last_invs invs);
      if requested (common s) block || downloaded (common s) block then mret tt
      else match chain_block_header (chain (common s)) block with
      | Panic => lift Panic
      | Diverge => lift Diverge
      | Ok _ => mret tt
      | Err _ => on_common (handle_new_block block peer)
      end
  end.

(** * Headers *)

(** The loop over the headers of a message. *)
Fixpoint headers_loop (peer : PeerId) (headers : list BlockHeader) : M unit :=
  match headers with
  | [] => mret tt
  | header :: rest =>
      n ← gets Ok;
      let hash := block_hash header in
      if requested n hash || downloaded n hash then headers_loop peer rest
      else match chain_block_header (chain n) hash with
      | Panic => lift Panic
      | Diverge => lift Diverge
      | Ok _ => headers_loop peer rest
      | Err _ =>
          previous ← on_chain (fun c => chain_block_height c (prev_blockhash header));
          match previous with
          | None => disconnect_and_ban peer
          | Some previous_height =>
              best ← on_chain chain_best_block;
              if previous_height <? saturating_sub best.1 MAX_REORG_DEPTH then disconnect_and_ban peer
              else
                _ ← chain_do (chain_accept_header header);
                best ← on_chain chain_best_block;
                if negb (hash =? best.2) then headers_loop peer rest
                else
                  _ ← send_to_peer peer (GetBlock [hash] WitnessFull);
                  _ ← modify (insert_inflight now (InBlocks hash) peer);
                  headers_loop peer rest
          end
      end
  end.

(** The first of the regular peers with the lowest score. *)
Definition get_peer_score (invs : gmap Z (Z * list PeerId)) (peer : PeerId) : nat :=
  length (filter (fun x : Z * (Z * list PeerId) => peer ∈ x.2.2) (map_to_list invs)).
Fixpoint min_by_score (score : PeerId -> nat) (l : list PeerId) : option PeerId :=
  match l with
  | [] => None
  | id :: rest =>
      match min_by_score score rest with
      | None => Some id
      | Some id' => Some (if (score id <=? score id')%nat then id else id')
      end
  end.
Definition regular_ids (n : Node) : list PeerId :=
  filter (fun id => from_option (fun p => is_regular (kind p)) false (peers n !! id) = true) (order_peers (peers n)).

(** An extra peer that has new headers replaces the worst regular peer. *)
Definition promote_extra (invs : gmap Z (Z * list PeerId)) (peer : PeerId) (services : ServiceFlags) : M unit :=
  n ← gets Ok;
  _ ← (match min_by_score (get_peer_score invs) (regular_ids n) with
       | Some id => send_to_peer id Shutdown
       | None => mret tt
       end);
  _ ← modify (alter_peer (set_kind (BlockRelayOnly services)) peer);
  modify (fun n => if bool_decide (peer ∈ peer_ids n) then n else set_peer_ids (peer_ids n ++ [peer]) n).

Definition handle_headers (peer : PeerId) (headers : list BlockHeader) : R unit :=
  _ ← on_common (modify (remove_inflight InHeaders));
  s ← gets Ok;
  p ← lift (expect (peers (common s) !! peer));
  if bool_decide (kind p = Extra) then
    if bool_decide (headers = []) then on_common (increase_banscore peer 5)
    else
      _ ← on_common (promote_extra (last_invs s) peer (p_services p));
      on_common (headers_loop peer headers)
  else on_common (headers_loop peer headers).

(** * Filters that arrive *)

(** A write of the filter store. *)
Definition push_filter (filter : BlockFilter) (height : Z) (store : FlatFiltersStore) : R FlatFiltersStore := fun s =>
  let '(o, store') := put_filter filter height store in
  (o' ← map_err CompactBlockFiltersError o; Ok store', set_common (set_block_filters (Some store') (common s)) s).
(** The filters that were kept for later; every round takes one out. *)
Fixpoint filters_loop (fuel : nat) (height : Z) (store : FlatFiltersStore) : R (Z * FlatFiltersStore) :=
  match fuel with
  | O => lift Diverge
  | S k =>
      s ← gets Ok;
      match inflight_filters s !! height with
      | None => mret (height, store)
      | Some filter =>
          _ ← modify (set_inflight_filters (delete height (inflight_filters s)));
          store ← push_filter filter height store;
          next ← lift (u32_add height 1);
          filters_loop k next store
      end
  end.
(** The new height is saved, and the next filters are asked for after the last one. *)
Definition filters_done (height : Z) (store : FlatFiltersStore) : R unit :=
  _ ← modify (fun s => set_common (set_block_filters (Some (Filters.set_height height store)) (common s)) s);
  s ← gets Ok;
  current_hash ← lift (map_err Blockchain (chain_block_hash (chain (common s)) height));
  if bool_decide (last_filter (common s) = current_hash) && bool_decide (inflight_filters s = ∅) then
    _ ← on_common (modify (remove_inflight InGetFilters));
    on_common download_filters
  else mret tt.
Definition handle_filter (hash : BlockHash) (filter : BlockFilter) : R unit :=
  s ← gets Ok;
  match block_filters (common s) with
  | None => mret tt
  | Some store =>
      current ← lift (map_err CompactBlockFiltersError (filters_height store));
      this ← lift (map_err Blockchain (chain_block_height (chain (common s)) hash));
      match this with
      | None => mret tt
      | Some this_height =>
          next ← lift (u32_add current 1);
          if negb (next =? this_height) then
            modify (fun s => set_inflight_filters (<[this_height := filter]> (inflight_filters s)) s)
          else
            store ← push_filter filter next store;
            '(height, store) ← filters_loop (S (size (inflight_filters s))) next store;
            filters_done height store
      end
  end.

(** * Messages and maintenance *)

Definition handle_run_message (peer : PeerId) (msg : PeerMessages) : R unit :=
  match msg with
  | MsgUtreexoProof uproof =>
      _ ← on_common (attach_proof uproof peer);
      on_common (process_pending_blocks now)
  | MsgNewBlock block => handle_inv block peer
  | MsgBlock block => on_common (request_block_proof now block peer)
  | MsgHeaders headers => handle_headers peer headers
  | MsgReady version => on_common (handle_peer_ready RunningNode now unix peer version)
  | MsgDisconnected idx => on_common (handle_disconnection now unix peer idx)
  | MsgBlockFilter hash filter => handle_filter hash filter
  | _ => lift Panic
  end.
Definition handle_notification (msg : NodeNotification) : R unit :=
  match msg with
  | FromUser request responder => on_common (perform_user_request now unix request responder)
  | DnsSeedAddresses addresses => on_common (modify (alter_man (push_addresses order_addresses addresses)))
  | FromPeer peer message time =>
      _ ← on_common (modify (register_message_time average message peer time));
      unhandled ← on_common (handle_peer_msg_common unix message peer);
      match unhandled with
      | None => mret tt
      | Some msg => handle_run_message peer msg
      end
  | FromWorker _ _ _ => mret tt
  end.

Definition ignore {A} (m : R A) : R unit := fun s =>
  match m s with
  | (Ok _, s') | (Err _, s') => (Ok tt, s')
  | (Panic, s') => (Panic, s')
  | (Diverge, s') => (Diverge, s')
  end.

Definition rearrange : R unit := fun s =>
  let '(o, am) := rearrange_buckets order_addresses unix (address_man (common s)) in
  (unwrap o, set_common (set_address_man am (common s)) s).
Definition rearrange_job : R unit :=
  s ← gets Ok;
  if ADDRESS_REARRANGE_INTERVAL <? saturating_sub now (last_address_rearrange s) then
    _ ← rearrange;
    modify (set_last_address_rearrange now)
  else mret tt.
(** The jobs before and after the test for peers. *)
Definition unconnected_jobs : R unit :=
  _ ← ignore (on_common (process_pending_blocks now));
  _ ← on_common (periodic_job now last_peer_db_dump set_last_peer_db_dump PEER_DB_DUMP_INTERVAL (modify (save_peers unix)));
  _ ← rearrange_job;
  _ ← on_common (periodic_job now last_connection set_last_connection (TRY_NEW_CONNECTION RunningNode) check_run_connections);
  _ ← ignore (on_common (check_for_timeout RunningNode now unix));
  on_common (periodic_job now last_feeler set_last_feeler (FEELER_INTERVAL RunningNode)
               (open_feeler_connection seeds RunningNode now unix)).
Definition connected_jobs : R unit :=
  _ ← on_common (periodic_job now last_get_address_request set_last_get_address_request ASK_FOR_PEERS_INTERVAL ask_for_addresses);
  _ ← on_common (periodic_job now last_send_addresses set_last_send_addresses SEND_ADDRESSES_INTERVAL send_addresses);
  _ ← on_common (periodic_job now last_tip_update set_last_tip_update (TIP_ASSUME_STALE RunningNode) check_for_stale_tip);
  _ ← ignore (on_common download_filters);
  _ ← ignore (on_common ask_missed_block);
  s ← gets Ok;
  if negb (has_utreexo_peers (common s)) then mret tt else ignore (on_common (ask_for_missed_proofs now)).
Definition run_maintenance_tick : R LoopControl :=
  s ← gets Ok;
  if kill_signal (common s) then mret Break
  else
    _ ← unconnected_jobs;
    s ← gets Ok;
    _ ← (if bool_decide (peer_ids (common s) = []) then mret tt else connected_jobs);
    mret Continue.
End Handlers.

(** * Runs *)

(** The end of [catch_up], when the node has synced: half of the peers go. *)
Definition leave_sync : M unit :=
  n ← gets Ok;
  disconnect_random_peers (connected_peers n - MAX_OUTGOING_PEERS RunningNode / 2) [UTREEXO].

(** The start of the loop of [run], when the chain has caught up; [created] is
    the time the context was made. *)
Definition running_start (created : Z) (n : Node) : outcome WireError Running :=
  let vi := match chain_validation_index (chain n) with Ok vi => Ok vi | Err _ => Ok 0 | Panic => Panic | Diverge => Diverge end in
  vi ← vi;
  n' ← (match block_filters n with
        | None => Ok n
        | Some filters =>
            let height := match filters_height filters with Ok h => h | _ => 1 end in
            hash ← unwrap (chain_block_hash (chain n) height);
            Ok (set_last_filter hash n)
        end);
  Ok (mkRunning (set_last_block_request vi n') created ∅ ∅).

Inductive running_step : Running -> Running -> Prop :=
  | RunMessage now unix msg s s' : ignore (handle_notification now unix msg) s = (Ok tt, s') -> running_step s s'
  | RunTick now unix s s' : run_maintenance_tick now unix s = (Ok Continue, s') -> running_step s s'
  | RunClosed peer s : running_step s (set_common (alter_peer close_channel peer (common s)) s).
Inductive running_reachable (start : Running) : Running -> Prop :=
  | RunStart : running_reachable start start
  | RunNext s s' : running_reachable start s -> running_step s s' -> running_reachable start s'.
End RunNode.
