(* ===== verification/RunFilters.v ===== *)
(** Compact filters in the running node: filters that come in order, filters
    that come early, and filters that come again. *)

From stdpp Require Import base gmap list strings fin_maps.
From Stdlib Require Import ZArith Lia.
From S2P Require Import Prelude Bitcoin Errors Codec Sigops Udata ChainQuery Filters BlockProof Text Onion SocketAddr.
From S2P Require Import Mempool AddressMan Node NodeBlocks NodePeers NodeConn SyncNode NodeRetry RunNode.

(** * Computations that keep a predicate whatever they return *)

Lemma stays_bind {S E A B} (P : S -> Prop) (m : stm S E A) (k : A -> stm S E B) :
  (forall s, P s -> P (m s).2) -> (forall a s, P s -> P (k a s).2) -> forall s, P s -> P ((m ≫= k) s).2.
Proof.
  intros Hm Hk s Hs. unfold mbind, stm_bind. specialize (Hm s Hs). destruct (m s) as [[a|e| |] s1]; try done. by apply Hk.
Qed.

(** * The store *)

Definition fits (f : BlockFilter) : Prop := Z.of_nat (length f) < MAX_FILTER_SIZE.

Lemma put_filter_file f h st o st' : put_filter f h st = (o, st') -> exists x, f_file st' = f_file st ++ x.
Proof.
  unfold put_filter, mbind, stm_bind, lift, gets, modify. destruct (err_if _ _); try (intros [= <- <-]; exists []; by rewrite app_nil_r).
  destruct (_ =? 0); intros [= <- <-]; by eexists.
Qed.
Lemma put_filter_fits f h st : fits f -> exists st', put_filter f h st = (Ok tt, st') /\ f_file st' = f_file st ++ enc_rec (h, f).
Proof.
  unfold fits, MAX_FILTER_SIZE. intros Hf. assert (Hw : wrap32 (Z.of_nat (length f)) = Z.of_nat (length f)) by (apply Z.mod_small; lia).
  unfold put_filter, mbind, stm_bind, lift, gets, modify. rewrite Hw.
  rewrite (proj2 (Z.ltb_ge _ _)) by (unfold MAX_FILTER_SIZE; lia). cbn [err_if].
  destruct (_ =? 0); (eexists; split; [reflexivity|done]).
Qed.
Lemma filters_height_app st st' x k : filters_height st = Ok k -> f_file st' = f_file st ++ x -> filters_height st' = Ok k.
Proof.
  unfold filters_height, read_u32, read_exact. intros Hh E. rewrite E, length_app.
  destruct (Nat.leb_spec 4 (length (f_file st))); [|done]. rewrite (proj2 (Nat.leb_le _ _)) by lia.
  cbn in Hh |- *. rewrite take_app_le by lia. injection Hh as <-. done.
Qed.
Lemma set_height_height st h : is_u32 h -> filters_height (Filters.set_height h st) = Ok h.
Proof.
  intros Hh. unfold filters_height, Filters.set_height, write_at. cbn [f_file]. by rewrite take_0, app_nil_l, read_u32_bytes.
Qed.
Lemma filters_height_long st k : filters_height st = Ok k -> (4 <= length (f_file st))%nat.
Proof. unfold filters_height, read_u32, read_exact. by destruct (Nat.leb_spec 4 (length (f_file st))). Qed.
Lemma set_height_records st h : drop 4 (f_file (Filters.set_height h st)) = drop 4 (f_file st).
Proof. unfold Filters.set_height, write_at. cbn [f_file]. by rewrite take_0, app_nil_l, length_le_bytes, drop_app_length' by (by rewrite length_le_bytes). Qed.
Lemma set_height_length st h : (4 <= length (f_file st))%nat -> length (f_file (Filters.set_height h st)) = length (f_file st).
Proof.
  intros Hl. unfold Filters.set_height, write_at. cbn [f_file]. rewrite take_0, app_nil_l, length_app, length_drop, length_le_bytes. lia.
Qed.
Lemma records_app st st' x : (4 <= length (f_file st))%nat -> f_file st' = f_file st ++ x ->
  drop 4 (f_file st') = drop 4 (f_file st) ++ x /\ (4 <= length (f_file st'))%nat.
Proof. intros Hl ->. rewrite drop_app_le, length_app by done. split; [done|lia]. Qed.

Section RunFilters.
Context `{HashLib, TxLib, HeaderLib, UtreexoLib, ScriptBuild} `{!Codec TxOut}.
Context {C MP : Type} `{!ProofBuild, !ChainBackend C, !HashOrder, !MempoolBase MP} `{!Json (list DiskLocalAddress)}.

Abbreviation Node := (NodeCommon C MP) (only parsing).
Abbreviation M := (stm (NodeCommon C MP) WireError) (only parsing).
Abbreviation R := (stm (@Running _ C MP) WireError) (only parsing).

(** ** Asking for more filters leaves the stored ones alone *)

Definition stored (store : FlatFiltersStore) (c : C) (n : Node) : Prop := block_filters n = Some store /\ chain n = c.

Lemma stored_send id req store c (n : Node) : stored store c n -> stored store c (send_on_channel id req n).2.
Proof. intros [? ?]. unfold send_on_channel. destruct (peers n !! id) as [p|]; [destruct (channel_open p)|]; done. Qed.
Lemma stored_fast req s store c (n : Node) : stored store c n -> stored store c (send_to_fast_peer req s n).2.
Proof.
  unfold send_to_fast_peer, choose_peer_by_latency, draw, draw_stream.
  apply stays_bind; [intros n0 [? ?]; done|]. intros found. apply stays_bind; [done|]. intros id.
  apply stays_bind; [|done]. intros n0. apply stored_send.
Qed.
Lemma stored_download now store c (n : Node) k : filters_height store = Ok k -> k <> 0 ->
  stored store c n -> stored store c (download_filters now n).2.
Proof.
  intros Hk Hne Hst. unfold download_filters. unfold mbind at 1, stm_bind at 1. cbn [gets].
  case_bool_decide as Hi; [done|]. destruct (negb _); [done|]. rewrite (proj1 Hst), Hk. unfold mbind at 1, stm_bind at 1. cbn [lift map_err].
  rewrite (proj2 (Z.eqb_neq k 0)) by done. generalize (start_height n). intros sh. cbn zeta. clear Hi. revert n Hst.
  apply stays_bind; [done|]. intros best. apply stays_bind; [done|]. intros _ n Hst. destruct (best <=? k); [done|]. revert n Hst.
  apply stays_bind; [done|]. intros far. apply stays_bind; [done|]. intros stop.
  apply stays_bind; [by intros n [? ?]|]. intros _. apply stays_bind; [done|]. intros next.
  apply stays_bind; [intros n; apply stored_fast|]. by intros peer n [? ?].
Qed.

(** ** One filter *)

Lemma loop_none k h st (s : @Running _ C MP) : inflight_filters s !! h = None -> filters_loop (S k) h st s = (Ok (h, st), s).
Proof. intros Hn. cbn [filters_loop]. unfold mbind, stm_bind, gets. by rewrite Hn. Qed.

(** One filter was kept for the height of the one just stored. *)
Lemma loop_one k h st f st' (s : @Running _ C MP) : h < u32_max -> inflight_filters s !! h = Some f ->
  put_filter f h st = (Ok tt, st') -> inflight_filters s !! (h + 1) = None ->
  filters_loop (S (S k)) h st s =
    (Ok (h + 1, st'), set_common (set_block_filters (Some st') (common s)) (set_inflight_filters (delete h (inflight_filters s)) s)).
Proof.
  intros Hh Hf Hp Hn. cbn [filters_loop]. unfold mbind at 1, stm_bind at 1. cbn [gets]. rewrite Hf.
  unfold mbind at 1, stm_bind at 1. cbn [modify]. unfold mbind at 1, stm_bind at 1, push_filter at 1. rewrite Hp. cbn [map_err mbind outcome_bind].
  unfold stm_bind at 1. unfold u32_add. rewrite (proj2 (Z.leb_le _ _)) by lia. cbn [lift].
  apply loop_none. cbn. rewrite lookup_delete_ne by lia. done.
Qed.

(** The store, the chain, and the filters kept for later. *)
Definition filters_are (store : FlatFiltersStore) (c : C) (early : gmap Z BlockFilter) (s : @Running _ C MP) : Prop :=
  stored store c (common s) /\ inflight_filters s = early.

Lemma on_common_stays store c early (m : M unit) :
  (forall n, stored store c n -> stored store c (m n).2) -> forall s, filters_are store c early s -> filters_are store c early (on_common m s).2.
Proof. intros Hm s [Hs He]. unfold on_common. specialize (Hm _ Hs). by destruct (m (common s)) as [o n]. Qed.
Lemma done_filters now h st c early (s : @Running _ C MP) : chain (common s) = c -> inflight_filters s = early -> is_u32 h -> h <> 0 ->
  filters_are (Filters.set_height h st) c early (filters_done now h st s).2.
Proof.
  intros Hc He Hu Hne. unfold filters_done. unfold mbind at 1, stm_bind at 1. cbn [modify]. set (s1 := set_common _ s).
  assert (Hf : filters_are (Filters.set_height h st) c early s1) by done. clearbody s1. revert s1 Hf.
  apply stays_bind; [done|]. intros s2. apply stays_bind; [done|]. intros ch s3 Hf. destruct (_ && _); [|done]. revert s3 Hf.
  apply stays_bind; [apply on_common_stays; by intros ? []|]. intros _. apply on_common_stays. intros n.
  apply (stored_download now _ c n h); [by apply set_height_height|done].
Qed.

(** The filter the store waits for. *)
Lemma next_filter now hash f (s : @Running _ C MP) store c k st1 :
  stored store c (common s) -> filters_height store = Ok k -> 0 <= k < u32_max ->
  chain_block_height c hash = Ok (Some (k + 1)) -> put_filter f (k + 1) store = (Ok tt, st1) ->
  handle_filter now hash f s =
    (filters_loop (S (size (inflight_filters s))) (k + 1) st1 ≫= (fun '(h, st) => filters_done now h st))
      (set_common (set_block_filters (Some st1) (common s)) s).
Proof.
  intros [Hs Hc] Hk Hb Hh Hp. unfold handle_filter. unfold mbind at 1, stm_bind at 1. cbn [gets]. rewrite Hs, Hk, Hc, Hh.
  unfold mbind at 1 2 3, stm_bind at 1 2 3. cbn [lift map_err].
  unfold u32_add at 1. rewrite (proj2 (Z.leb_le _ _)) by lia. rewrite Z.eqb_refl. cbn [negb].
  unfold mbind at 1, stm_bind at 1, push_filter at 1. by rewrite Hp.
Qed.

(** A filter for another height is kept. *)
Lemma early_filter now hash f (s : @Running _ C MP) store c early k h :
  filters_are store c early s -> filters_height store = Ok k -> 0 <= k < u32_max ->
  chain_block_height c hash = Ok (Some h) -> h <> k + 1 ->
  filters_are store c (<[h := f]> early) (handle_filter now hash f s).2.
Proof.
  intros [[Hs Hc] He] Hk Hb Hh Hne. unfold handle_filter. unfold mbind at 1, stm_bind at 1. cbn [gets]. rewrite Hs, Hk, Hc, Hh.
  unfold mbind at 1 2 3, stm_bind at 1 2 3. cbn [lift map_err].
  unfold u32_add. rewrite (proj2 (Z.leb_le _ _)) by lia. rewrite (proj2 (Z.eqb_neq (k + 1) h)) by lia. cbn. rewrite <-He. done.
Qed.

(** The next filter, when none is kept for its height. *)
Lemma next_filter_plain now hash f (s : @Running _ C MP) store c early k st1 :
  filters_are store c early s -> filters_height store = Ok k -> 0 <= k < u32_max ->
  chain_block_height c hash = Ok (Some (k + 1)) -> put_filter f (k + 1) store = (Ok tt, st1) -> early !! (k + 1) = None ->
  filters_are (Filters.set_height (k + 1) st1) c early (handle_filter now hash f s).2.
Proof.
  intros [Hs He] Hk Hb Hh Hp Hn. rewrite (next_filter now hash f s store c k st1) by done.
  unfold mbind, stm_bind. rewrite loop_none by (cbn; by rewrite He). apply done_filters; [by apply Hs|done| |lia]. split; lia.
Qed.

(** The next filter, when one was kept for its height and none for the next. *)
Lemma next_filter_again now hash f g (s : @Running _ C MP) store c early k st1 st2 :
  filters_are store c early s -> filters_height store = Ok k -> 0 <= k -> k + 2 <= u32_max ->
  chain_block_height c hash = Ok (Some (k + 1)) -> put_filter f (k + 1) store = (Ok tt, st1) ->
  early !! (k + 1) = Some g -> put_filter g (k + 1) st1 = (Ok tt, st2) -> early !! (k + 2) = None ->
  filters_are (Filters.set_height (k + 2) st2) c (delete (k + 1) early) (handle_filter now hash f s).2.
Proof.
  intros [Hs He] Hk Hb Hu Hh Hp Hg Hp2 Hn. rewrite (next_filter now hash f s store c k st1) by (done || lia).
  assert (Hsz : exists j, size early = S j).
  { destruct (size early) eqn:E; [|by eexists]. apply map_size_empty_inv in E as ->. by rewrite lookup_empty in Hg. }
  destruct Hsz as [j Hj]. unfold mbind, stm_bind. rewrite He, Hj. replace (k + 2) with (k + 1 + 1) in Hn |- * by lia.
  rewrite (loop_one j (k + 1) st1 g st2) by (cbn; rewrite ?He; done || lia).
  apply done_filters; [by apply Hs|cbn; by rewrite He| |lia]. split; lia.
Qed.

(** * Runs *)

(** A filter of a block, and when it arrives. *)
Definition filter_msg : Type := Z * BlockHash * BlockFilter.
Definition deliver (s : @Running _ C MP) (m : filter_msg) : @Running _ C MP := (handle_filter m.1.1 m.1.2 m.2 s).2.

(** Filters that come in the order of their heights. *)
Inductive in_order (c : C) : Z -> list filter_msg -> list Rec -> Prop :=
  | OrderDone k : in_order c k [] []
  | OrderNext k now hash f l recs : chain_block_height c hash = Ok (Some (k + 1)) -> fits f -> in_order c (k + 1) l recs ->
      in_order c k ((now, hash, f) :: l) ((k + 1, f) :: recs).

(** C11: Compact filters that arrive in the order of their heights are all stored, each
    once, under their heights and after the ones already there, the recorded height is
    the height of the last one, and none is left waiting. *)
Theorem filters_in_order (c : C) (k : Z) (msgs : list filter_msg) (recs : list Rec) (stored_recs : list Rec)
  (store : FlatFiltersStore) (s : @Running _ C MP)
  (Hs : filters_are store c ∅ s) (Hrun : filters_run store stored_recs) (Hk : filters_height store = Ok k)
  (Hlow : Forall (fun r => r.1 <= k) stored_recs) (Hpos : 0 <= k)
  (Horder : in_order c k msgs recs) (Hu : k + Z.of_nat (length msgs) <= u32_max)
  (Hroom : Z.of_nat (length (f_file store) + length (enc_recs recs)) < 2 ^ 64) :
  exists store', filters_are store' c ∅ (foldl deliver s msgs) /\ filters_run store' (stored_recs ++ recs) /\
    filters_height store' = Ok (k + Z.of_nat (length msgs)).
Proof.
  revert s store stored_recs Hs Hrun Hk Hlow Hpos Hu Hroom.
  induction Horder as [k|k now hash f l recs Hh Hf _ IH]; intros s store old Hs Hrun Hk Hlow Hpos Hu Hroom.
  { exists store. rewrite app_nil_r, Z.add_0_r. done. }
  cbn [length foldl enc_recs] in *. destruct (put_filter_fits f (k + 1) store Hf) as (st1 & Hp & Ef).
  rewrite length_app, length_enc_rec in Hroom. cbn [snd] in Hroom.
  assert (Hput : filters_run st1 (old ++ [(k + 1, f)])).
  { eapply run_put; [done| | |lia|done]; [split; cbn; [split; lia|unfold fits in Hf; lia]|].
    eapply Forall_impl; [exact Hlow|]. cbn. lia. }
  destruct (IH (deliver s (now, hash, f)) (Filters.set_height (k + 1) st1) (old ++ [(k + 1, f)])) as (store' & Ha & Hr & Hh').
  - apply (next_filter_plain now hash f s store c ∅ k st1); done || lia.
  - by apply run_height.
  - apply set_height_height. split; lia.
  - apply Forall_app. split; [|repeat constructor; cbn; lia]. eapply Forall_impl; [exact Hlow|]. cbn. lia.
  - lia.
  - lia.
  - pose proof (filters_height_long _ _ Hk). rewrite set_height_length, Ef, length_app, length_enc_rec by (rewrite Ef, length_app; lia).
    cbn [snd]. lia.
  - exists store'. rewrite <-app_assoc in Hr. split_and!; [done|done|]. rewrite Hh'. f_equal. lia.
Qed.

(** C12: A filter that arrives one height early is kept but not stored when the filter
    before it arrives, because the loop looks for it at the height just stored; when it
    is sent again it is stored twice, and the recorded height goes one too far, so the
    filter of the next height is never stored. *)
Theorem early_filter_skips_height (c : C) (k : Z) (t1 t2 t3 t4 : Z) (h1 h2 h3 : BlockHash) (f1 f2 f2' f3 : BlockFilter)
  (store : FlatFiltersStore) (s : @Running _ C MP)
  (Hs : filters_are store c ∅ s) (Hk : filters_height store = Ok k) (Hpos : 0 <= k) (Hu : k + 4 <= u32_max)
  (Hh1 : chain_block_height c h1 = Ok (Some (k + 1))) (Hh2 : chain_block_height c h2 = Ok (Some (k + 2)))
  (Hh3 : chain_block_height c h3 = Ok (Some (k + 3))) (Hf1 : fits f1) (Hf2 : fits f2) (Hf2' : fits f2') :
  exists store', filters_are store' c {[k + 3 := f3]} (foldl deliver s [(t1, h2, f2); (t2, h1, f1); (t3, h2, f2'); (t4, h3, f3)]) /\
    drop 4 (f_file store') = drop 4 (f_file store) ++ enc_recs [(k + 1, f1); (k + 2, f2'); (k + 2, f2)] /\
    filters_height store' = Ok (k + 3).
Proof.
  pose proof (filters_height_long _ _ Hk) as Hlen. cbn [foldl].
  pose proof (early_filter t1 h2 f2 s store c ∅ k (k + 2) Hs Hk ltac:(lia) Hh2 ltac:(lia)) as Ha. rewrite insert_empty in Ha.
  destruct (put_filter_fits f1 (k + 1) store Hf1) as (st1 & Hp1 & Ef1).
  pose proof (next_filter_plain t2 h1 f1 _ store c _ k st1 Ha Hk ltac:(lia) Hh1 Hp1 ltac:(by apply lookup_singleton_ne; lia)) as Hb.
  set (s2 := (handle_filter t2 h1 f1 _).2) in Hb.
  destruct (put_filter_fits f2' (k + 2) (Filters.set_height (k + 1) st1) Hf2') as (st2 & Hp2 & Ef2).
  destruct (put_filter_fits f2 (k + 2) st2 Hf2) as (st3 & Hp3 & Ef3).
  pose proof (set_height_height st1 (k + 1) ltac:(split; lia)) as Hk1.
  pose proof (next_filter_again t3 h2 f2' f2 s2 _ c _ (k + 1) st2 st3 Hb Hk1 ltac:(lia) ltac:(lia)) as Hc.
  replace (k + 1 + 1) with (k + 2) in Hc by lia. replace (k + 1 + 2) with (k + 3) in Hc by lia.
  specialize (Hc Hh2 Hp2 (lookup_singleton_eq _ _) Hp3 ltac:(by apply lookup_singleton_ne; lia)). rewrite delete_singleton_eq in Hc.
  pose proof (set_height_height st3 (k + 3) ltac:(split; lia)) as Hk3.
  pose proof (early_filter t4 h3 f3 _ _ c ∅ (k + 3) (k + 3) Hc Hk3 ltac:(lia) Hh3 ltac:(lia)) as Hd. rewrite insert_empty in Hd.
  eexists. split_and!; [exact Hd| |exact Hk3].
  destruct (records_app _ _ _ Hlen Ef1) as [E1 L1]. rewrite <-(set_height_records st1 (k + 1)) in E1.
  rewrite <-(set_height_length st1 (k + 1) L1) in L1. destruct (records_app _ _ _ L1 Ef2) as [E2 L2].
  destruct (records_app _ _ _ L2 Ef3) as [E3 _]. rewrite set_height_records, E3, E2, E1, <-!app_assoc. cbn [enc_recs]. by rewrite app_nil_r.
Qed.

(** * A filter that is kept for good *)

Definition stuck (h : Z) (requests : gmap InflightRequests (PeerId * Z)) (st : FlatFiltersStore) (k : Z) (s : @Running _ C MP) : Prop :=
  block_filters (common s) = Some st /\ filters_height st = Ok k /\ is_Some (inflight_filters s !! h) /\ inflight (common s) = requests.
Definition is_stuck (h : Z) (requests : gmap InflightRequests (PeerId * Z)) (s : @Running _ C MP) : Prop :=
  exists st k, stuck h requests st k s /\ 0 <= h <= k /\ k <= u32_max.

Lemma stuck_push h reqs f height st k (s : @Running _ C MP) o s' : stuck h reqs st k s -> push_filter f height st s = (o, s') ->
  exists st', stuck h reqs st' k s' /\ (forall x, o = Ok x -> x = st').
Proof.
  intros (Hs & Hk & Hh & Hi). unfold push_filter. destruct (put_filter f height st) as [o1 st1] eqn:E. intros [= <- <-].
  destruct (put_filter_file _ _ _ _ _ E) as [x Ex]. exists st1. split; [|by destruct o1; intros ? [= <-]].
  split_and!; try done. exact (filters_height_app _ _ _ _ Hk Ex).
Qed.
Lemma stuck_loop h reqs k n : forall height st (s : @Running _ C MP) o s', h < height -> is_u32 height -> stuck h reqs st k s ->
  filters_loop n height st s = (o, s') ->
  exists st', stuck h reqs st' k s' /\ (forall h' x, o = Ok (h', x) -> h < h' /\ is_u32 h').
Proof.
  induction n as [|n IH]; intros height st s o s' Hlt Hu Hst; cbn [filters_loop]; [intros [= <- <-]; by exists st|].
  unfold mbind at 1, stm_bind at 1. cbn [gets]. destruct (inflight_filters s !! height) as [f|] eqn:Ef.
  2:{ intros [= <- <-]. exists st. split; [done|]. by intros h' x [= <- <-]. }
  unfold mbind at 1, stm_bind at 1. cbn [modify]. unfold mbind at 1, stm_bind at 1.
  assert (Hd : stuck h reqs st k (set_inflight_filters (delete height (inflight_filters s)) s)).
  { destruct Hst as (? & ? & ? & ?). split_and!; try done. cbn. by rewrite lookup_delete_ne by lia. }
  destruct (push_filter f height st _) as [o1 s1] eqn:E1. destruct (stuck_push _ _ _ _ _ _ _ _ _ Hd E1) as (st1 & Hst1 & Hx).
  destruct o1 as [x| | |]; try (intros [= <- <-]; by exists st1). rewrite (Hx x eq_refl).
  unfold mbind, stm_bind, lift, u32_add. destruct (Z.leb_spec (height + 1) u32_max); [|intros [= <- <-]; by exists st1].
  apply IH; [lia|unfold is_u32 in *; lia|done].
Qed.
Lemma stuck_done now h reqs height st k (s : @Running _ C MP) st0 : 0 <= h < height -> is_u32 height -> stuck h reqs st0 k s ->
  is_stuck h reqs (filters_done now height st s).2.
Proof.
  intros Hlt Hu (Hs & Hk & Hh & Hi). unfold filters_done. unfold mbind at 1, stm_bind at 1. cbn [modify]. set (s1 := set_common _ s).
  assert (Hst : is_stuck h reqs s1).
  { exists (Filters.set_height height st), height. unfold is_u32 in Hu. split; [|lia]. split_and!; try done. by apply set_height_height. }
  assert (Hne : inflight_filters s1 <> ∅) by (intros E; cbn in E; rewrite E, lookup_empty in Hh; by destruct Hh).
  clearbody s1. unfold mbind at 1, stm_bind at 1. cbn [gets]. unfold mbind, stm_bind, lift. destruct (map_err _ _); try done.
  by rewrite (bool_decide_eq_false_2 (inflight_filters s1 = ∅)), andb_false_r.
Qed.
Lemma stuck_deliver h reqs m (s : @Running _ C MP) : is_stuck h reqs s -> is_stuck h reqs (deliver s m).
Proof.
  intros Hst0. pose proof Hst0 as (st & k & Hst & Hle). pose proof Hst as (Hs & Hk & Hh & Hi). unfold deliver, handle_filter.
  unfold mbind at 1, stm_bind at 1. cbn [gets]. rewrite Hs, Hk. unfold mbind at 1 2, stm_bind at 1 2. cbn [lift map_err].
  destruct (chain_block_height _ _) as [[height|]| | |]; cbn [map_err]; try done.
  unfold mbind at 1, stm_bind at 1, u32_add. cbn [lift]. destruct (Z.leb_spec (k + 1) u32_max); [|done].
  destruct (Z.eqb_spec (k + 1) height) as [<-|Hne]; cbn [negb].
  2:{ exists st, k. split; [|done]. split_and!; try done. cbn. rewrite lookup_insert. by case_decide. }
  unfold mbind at 1, stm_bind at 1. destruct (push_filter _ _ _ s) as [o1 s1] eqn:E1.
  destruct (stuck_push _ _ _ _ _ _ _ _ _ Hst E1) as (st1 & Hst1 & Hx). destruct o1 as [x| | |]; try (by exists st1, k).
  rewrite (Hx x eq_refl). unfold mbind, stm_bind. destruct (filters_loop _ _ st1 s1) as [o2 s2] eqn:E2.
  apply (stuck_loop h reqs k) in E2 as (st2 & Hst2 & Ho); [|lia|split; lia|done]. destruct o2 as [[h' x']| | |]; try (by exists st2, k).
  destruct (Ho h' x' eq_refl). eapply stuck_done; [lia|done..].
Qed.

(** A filter kept for a height that is already stored stays there whatever filters
    arrive later, and as long as it does, the end of a batch is not recognised: the
    request for filters stays in flight and download_filters asks for no more. *)
Theorem stale_filter_stalls (h k : Z) (store : FlatFiltersStore) (s : @Running _ C MP) (msgs : list filter_msg) (now : Z)
  (Hs : block_filters (common s) = Some store) (Hk : filters_height store = Ok k) (Hle : 0 <= h <= k) (Hu : k <= u32_max)
  (Hstale : is_Some (inflight_filters s !! h)) (Hasked : is_Some (inflight (common s) !! InGetFilters)) :
  let s' := foldl deliver s msgs in
  is_Some (inflight_filters s' !! h) /\ inflight (common s') = inflight (common s) /\
  download_filters now (common s') = (Ok tt, common s').
Proof.
  assert (Hst : is_stuck h (inflight (common s)) s) by (exists store, k; done). cbn zeta.
  assert (Hend : is_stuck h (inflight (common s)) (foldl deliver s msgs)).
  { clear -Hst. revert Hst. generalize (inflight (common s)). intros reqs. revert s.
    induction msgs as [|m msgs IH]; intros s Hst; [done|]. apply IH, stuck_deliver, Hst. }
  destruct Hend as (st & k' & (_ & _ & Hh & Hi) & _). split_and!; [done|done|].
  unfold download_filters, mbind, stm_bind, gets. by rewrite Hi, bool_decide_eq_true_2.
Qed.
End RunFilters.
