(* ===== verification/RunFacts.v ===== *)
(** The node in normal operation: its invariant, and what becomes of the headers
    it receives: which ones reach the chain, which blocks are asked for, and
    what happens to headers without a known parent. *)

From stdpp Require Import base gmap list strings fin_maps.
From Stdlib Require Import ZArith Lia.
From S2P Require Import Prelude Bitcoin Errors ChainParams Codec Merkle Sigops Extensions Udata SwiftSync Consensus ChainStore.
From S2P Require Import ChainQuery PartialChain ChainState ChainShape ChainFacts ChainReorg ChainAccept ChainTerm ChainReach Mempool Filters BlockProof.
From S2P Require Import Text Onion SocketAddr AddressMan AddressManFacts AddressManRuns Node NodeBlocks NodePeers NodeConn SyncNode NodeFacts.
From S2P Require Import NodeRetry NodeChain RunNode.

Lemma keeps_expire_all now ids : keeps am_inv (expire_all now ids).
Proof.
  induction ids as [|x ids IH]; cbn [expire_all]; [apply keeps_ret|]. apply keeps_state_at. intros am r am' Hi.
  unfold mbind, stm_bind. destruct (addresses am !! x) as [a|] eqn:Ea; [|by apply (keeps_run IH)].
  unfold lift, modify. destruct (expire now a) as [a'| | |] eqn:Ee; try (by intros [= <- <-]).
  apply expire_expired in Ee as ->. rewrite (expired_insert now x a _ Ea). apply (keeps_run IH), expired_inv, Hi.
Qed.
Lemma keeps_rearrange order now : keeps am_inv (rearrange_buckets order now).
Proof. apply keeps_state_bind. intros am _. apply keeps_expire_all. Qed.

Section RunFacts.
Context `{HashLib, TxLib, HeaderLib, UtreexoLib, ScriptBuild} `{!Codec TxOut}.
Context {C MP : Type} `{!ProofBuild, !ChainBackend C, !HashOrder, !MempoolBase MP} `{!Json (list DiskLocalAddress)}.
Context (seeds : Network -> list Z) (average : option Z -> Z -> Z).

Abbreviation Node := (NodeCommon C MP) (only parsing).
Abbreviation M := (stm (NodeCommon C MP) WireError) (only parsing).
Abbreviation R := (stm (@Running _ C MP) WireError) (only parsing).

(** * The invariant *)

(** The announcements: at most [MAX_LAST_INVS] blocks, each with the peers that
    announced it, every peer once. *)
Record invs_ok (invs : gmap Z (Z * list PeerId)) : Prop := {
  io_size : (size invs <= MAX_LAST_INVS)%nat;
  io_nodup : forall b when ps, invs !! b = Some (when, ps) -> ps <> [] /\ NoDup ps
}.
Record running_inv (s : @Running _ C MP) : Prop := {
  ri_common : node_inv (common s);
  ri_invs : invs_ok (last_invs s)
}.

Lemma invs_empty : invs_ok ∅.
Proof. split; [rewrite map_size_empty; lia|]. intros ???. by rewrite lookup_empty. Qed.
Lemma note_inv_ok now b p invs invs' : invs_ok invs -> note_inv now b p invs = Some invs' -> invs_ok invs'.
Proof.
  intros Hi. unfold note_inv. set (m := if (MAX_LAST_INVS <=? size invs)%nat then ∅ else invs).
  assert (Hm : invs_ok m /\ (size m < MAX_LAST_INVS)%nat).
  { unfold m. destruct (Nat.leb_spec MAX_LAST_INVS (size invs)); [|done]. rewrite map_size_empty.
    split; [apply invs_empty|vm_compute; lia]. }
  destruct Hm as [[_ Hn] Hs]. clearbody m. destruct (m !! b) as [[when ps]|] eqn:Eb.
  - case_bool_decide as Hp; [done|]. destruct (_ <? 5); intros [= <-]; split; try lia; try done.
    + rewrite map_size_insert, Eb. cbn. lia.
    + intros b' w' ps'. rewrite lookup_insert. case_decide as Hbb; [|apply Hn]. intros [= <- <-]. split; [by destruct ps|].
      apply NoDup_app. split_and!; [by eapply Hn| |apply NoDup_singleton].
      intros x Hx [->|?%not_elem_of_nil]%elem_of_cons; done.
  - intros [= <-]. set (k := filter _ m). assert (Hk : k ⊆ m) by apply map_filter_subseteq. split.
    + rewrite map_size_insert. pose proof (map_subseteq_size _ _ Hk). destruct (k !! b); cbn; lia.
    + intros b' w' ps'. rewrite lookup_insert. case_decide as Hbb.
      * intros [= <- <-]. split; [done|apply NoDup_singleton].
      * intros Hb'. apply (Hn b' w' ps'), (lookup_weaken _ _ _ _ Hb' Hk).
Qed.

Lemma inv_common n (s : @Running _ C MP) : running_inv s -> node_inv n -> running_inv (set_common n s).
Proof. intros [_ ?] ?. by split. Qed.
Lemma inv_rearranged x (s : @Running _ C MP) : running_inv s -> running_inv (set_last_address_rearrange x s).
Proof. by intros []. Qed.
Lemma inv_inflight_filters x (s : @Running _ C MP) : running_inv s -> running_inv (set_inflight_filters x s).
Proof. by intros []. Qed.
Hint Resolve inv_common inv_rearranged inv_inflight_filters ri_common : node.
Lemma keeps_common {A} (m : M A) : keeps node_inv m -> keeps running_inv (on_common m : R A).
Proof.
  intros Hm. constructor. intros s r s' Hs. unfold on_common. destruct (m (common s)) as [o n] eqn:E.
  intros [= <- <-]. pose proof (keeps_run Hm (common s) o n (ri_common s Hs) E). destruct o; cbn; auto with node.
Qed.
Lemma keeps_run_ignore {A} (m : R A) : keeps running_inv m -> keeps running_inv (ignore m).
Proof.
  intros Hm. constructor. intros s r s' Hs. unfold ignore. destruct (m s) as [o s1] eqn:E.
  pose proof (keeps_run Hm s o s1 Hs E). destruct o; by intros [= <- <-].
Qed.
Lemma keeps_run_modify (f : @Running _ C MP -> @Running _ C MP) : (forall s, running_inv s -> running_inv (f s)) -> keeps running_inv (modify f : R unit).
Proof. apply keeps_modify. Qed.

(** Walks through a computation of the running node. *)
Ltac run1 :=
  match goal with
  | |- keeps running_inv (mret _) => apply keeps_ret
  | |- keeps running_inv (lift _) => apply keeps_lift
  | |- keeps running_inv (gets _) => apply keeps_gets
  | |- keeps running_inv (on_common _) => apply keeps_common
  | |- keeps running_inv (ignore _) => apply keeps_run_ignore
  | |- keeps running_inv (modify _) => apply keeps_run_modify; intros ? ?; auto with node
  | |- keeps running_inv (gets Ok ≫= _) => apply keeps_state_bind; intros ? ?
  | |- keeps running_inv (_ ≫= _) => apply keeps_bind; [|intros ?]
  | |- keeps running_inv (if ?b then _ else _) => destruct b eqn:?
  | |- keeps running_inv (match ?x with _ => _ end) => destruct x eqn:?
  end.
Ltac run_keep := repeat (first [run1 | progress keep]; try (solve [auto with node])).

Lemma inv_filters (n : Node) x : node_inv n -> node_inv (set_block_filters x n).
Proof. by intros []. Qed.
Lemma inv_last_filter (n : Node) x : node_inv n -> node_inv (set_last_filter x n).
Proof. by intros []. Qed.
Lemma inv_files (n : Node) x : node_inv n -> node_inv (set_peer_files x n).
Proof. by intros []. Qed.
Hint Resolve inv_filters inv_last_filter inv_files : node.

Lemma keeps_send_addresses : keeps node_inv (send_addresses : M _).
Proof. unfold send_addresses. keep. Qed.
Lemma keeps_make_room : keeps node_inv (make_room : M _).
Proof. unfold make_room, shutdown_random_peer. keep. Qed.
Hint Resolve keeps_send_addresses keeps_make_room : node.
Lemma keeps_run_connections now unix : keeps node_inv (check_run_connections seeds now unix : M _).
Proof. unfold check_run_connections. keep. Qed.
Lemma keeps_download_filters now : keeps node_inv (download_filters now : M _).
Proof. unfold download_filters. keep; case_match; auto with node. Qed.
Lemma keeps_ask_missed now : keeps node_inv (ask_missed_block now : M _).
Proof. unfold ask_missed_block. keep. Qed.
Lemma keeps_stale_tip now unix : keeps node_inv (check_for_stale_tip seeds now unix : M _).
Proof. unfold check_for_stale_tip. keep. Qed.
Lemma keeps_new_block now b p : keeps node_inv (handle_new_block now b p : M _).
Proof. unfold handle_new_block. keep. Qed.
Hint Resolve keeps_run_connections keeps_download_filters keeps_ask_missed keeps_stale_tip keeps_new_block : node.
Lemma keeps_headers_loop now p l : keeps node_inv (headers_loop now p l : M _).
Proof. induction l as [|x l IH]; cbn [headers_loop]; keep. Qed.
Hint Resolve keeps_headers_loop : node.

(** A promoted peer is a known one. *)
Definition known_inv (peer : PeerId) (n : Node) : Prop := node_inv n /\ is_Some (peers n !! peer).
Lemma keeps_known_send peer id req : keeps (known_inv peer) (send_to_peer id req : M _).
Proof.
  apply keeps_and; [auto with node|]. constructor. intros n r n' [p Hp] E. destruct (send_to_same id req n r n' E) as (_ & _ & Hd).
  assert (Hk : is_Some (peers n' !! peer)) by (rewrite <-elem_of_dom, Hd; by apply elem_of_dom_2 in Hp). by destruct r.
Qed.
Lemma keeps_promote invs peer sv : keeps (known_inv peer) (promote_extra invs peer sv : M _).
Proof.
  unfold promote_extra. apply keeps_state_bind. intros n _. apply keeps_bind.
  { destruct (min_by_score _ _); [apply keeps_known_send|apply keeps_ret]. }
  intros _. apply keeps_bind; [|intros _]; apply keeps_modify; intros s [Hs [p Hp]].
  - split; [auto with node|]. cbn. rewrite lookup_alter_eq, Hp. by eexists.
  - case_bool_decide; split; try done. destruct Hs as [Hi Hsv Hf Hb Hm]. split; cbn; try done.
    intros id [Hid|[->|?%not_elem_of_nil]%elem_of_cons]%elem_of_app; [by apply Hi|by eexists|done].
Qed.
Lemma keeps_handle_headers now peer l : keeps running_inv (handle_headers now peer l : R _).
Proof.
  unfold handle_headers. apply keeps_bind; [run_keep|intros _]. apply keeps_state_at. intros s r s' Hs.
  unfold mbind at 1, stm_bind at 1, lift at 1. destruct (peers (common s) !! peer) as [p|] eqn:Ep; cbn [expect]; [|by intros [= <- <-]].
  case_bool_decide; [case_bool_decide|]; [by apply (keeps_run (keeps_common _ (keeps_banscore _ _)))| |
    by apply (keeps_run (keeps_common _ (keeps_headers_loop _ _ _)))].
  unfold mbind, stm_bind, on_common at 1. destruct (promote_extra _ _ _ (common s)) as [o n1] eqn:E.
  pose proof (keeps_run (keeps_promote _ peer _) (common s) o n1 (conj (ri_common s Hs) (mk_is_Some _ _ Ep)) E) as Hk.
  destruct o; try (intros [= <- <-]; exact I || exact (inv_common _ _ Hs (proj1 Hk))).
  apply (keeps_run (keeps_common _ (keeps_headers_loop now peer l))). exact (inv_common _ _ Hs (proj1 Hk)).
Qed.
Lemma keeps_inv now b p : keeps running_inv (handle_inv now b p : R _).
Proof.
  unfold handle_inv. apply keeps_state_bind. intros s Hs. destruct (note_inv _ _ _ _) as [invs|] eqn:E; [|run_keep].
  apply keeps_bind; [|intros _; run_keep]. apply keeps_run_modify. intros s1 []. split; [done|]. exact (note_inv_ok _ _ _ _ _ (ri_invs s Hs) E).
Qed.
Lemma keeps_push_filter f h st : keeps running_inv (push_filter f h st : R _).
Proof.
  constructor. intros s r s' Hs. unfold push_filter. destruct (put_filter f h st) as [o st']. intros [= <- <-].
  destruct o; cbn; auto with node.
Qed.
Hint Resolve keeps_inv keeps_push_filter : node.
Lemma keeps_filters_loop k : forall h st, keeps running_inv (filters_loop k h st : R _).
Proof. induction k as [|k IH]; intros h st; cbn [filters_loop]; run_keep. Qed.
Hint Resolve keeps_filters_loop : node.
Lemma keeps_filters_done now h st : keeps running_inv (filters_done now h st : R _).
Proof. unfold filters_done. run_keep. Qed.
Hint Resolve keeps_filters_done : node.
Lemma keeps_filter now b f : keeps running_inv (handle_filter now b f : R _).
Proof. unfold handle_filter. run_keep. Qed.
Hint Resolve keeps_handle_headers keeps_filter : node.

Lemma keeps_run_message now unix peer msg : keeps running_inv (handle_run_message now unix peer msg : R _).
Proof. unfold handle_run_message. run_keep. Qed.
Hint Resolve keeps_run_message : node.
Lemma keeps_notification now unix msg : keeps running_inv (handle_notification average now unix msg : R _).
Proof. unfold handle_notification. run_keep. Qed.
Lemma keeps_rearrange_job now unix : keeps running_inv (rearrange_job now unix : R _).
Proof.
  unfold rearrange_job. run_keep. constructor. intros st r st' Hst. unfold rearrange.
  destruct (rearrange_buckets _ _ _) as [o am] eqn:E. intros [= <- <-].
  pose proof (keeps_run (keeps_rearrange _ _) _ _ _ (ni_man _ (ri_common _ Hst)) E) as Ha.
  destruct o; cbn; try done; (apply inv_common; [done|apply inv_man; auto with node]).
Qed.
Lemma keeps_save_peers unix : keeps node_inv (modify (save_peers unix) : M _).
Proof. apply keeps_modify. intros n. apply inv_files. Qed.
Lemma keeps_ask_addresses : keeps node_inv (ask_for_addresses : M _).
Proof. unfold ask_for_addresses. keep. Qed.
Hint Resolve keeps_notification keeps_rearrange_job keeps_save_peers keeps_ask_addresses : node.
Lemma keeps_unconnected now unix : keeps running_inv (unconnected_jobs seeds now unix : R _).
Proof. unfold unconnected_jobs. run_keep. Qed.
Lemma keeps_connected now unix : keeps running_inv (connected_jobs seeds now unix : R _).
Proof. unfold connected_jobs. run_keep. Qed.
Hint Resolve keeps_unconnected keeps_connected : node.
Lemma keeps_run_tick now unix : keeps running_inv (run_maintenance_tick seeds now unix : R _).
Proof. unfold run_maintenance_tick. run_keep. Qed.
Hint Resolve keeps_run_tick : node.

Lemma running_step_inv s s' : running_inv s -> running_step seeds average s s' -> running_inv s'.
Proof.
  intros Hs Hstep. destruct Hstep as [now unix msg s1 s1' E|now unix s1 s1' E|peer s1].
  - exact (keeps_run (keeps_run_ignore _ (keeps_notification now unix msg)) s1 _ s1' Hs E).
  - exact (keeps_run (keeps_run_tick now unix) s1 _ s1' Hs E).
  - auto with node.
Qed.
Lemma running_start_inv created (n : Node) s : node_inv n -> running_start created n = Ok s -> running_inv s.
Proof.
  intros Hn. unfold running_start. destruct (chain_validation_index _); cbn; try done;
    destruct (block_filters n); cbn; try destruct (unwrap _); cbn; try done; intros [= <-]; (split; cbn; [auto with node|apply invs_empty]).
Qed.
Lemma inv_shutdowns l : forall (n : Node), node_inv n -> node_inv (foldl (fun n id => (send_on_channel id Shutdown n).2) n l).
Proof.
  induction l as [|id l IH]; intros n Hn; [done|]. cbn [foldl]. apply IH. destruct (send_on_channel id Shutdown n) as [o n'] eqn:E.
  pose proof (keeps_run (keeps_send_on_channel id Shutdown) n o n' Hn E) as Ha. revert E.
  unfold send_on_channel. destruct (peers n !! id) as [p|]; [|by intros [= <- <-]]. destruct (channel_open p); by intros [= <- <-].
Qed.
Lemma keeps_leave_sync : keeps node_inv (leave_sync : M _).
Proof. unfold leave_sync, disconnect_random_peers. keep. by apply inv_shutdowns. Qed.

(** C6: In every state the node reaches while it syncs, and then while it runs, whatever
    its peers and users send, whatever fails and whenever connections break, the lists
    of peers and of peers by service name known peers, peer ids are fresh, every stored
    block is stored under its hash, and the address manager is consistent; while it
    runs, it remembers the announcements of at most MAX_LAST_INVS blocks, with each peer
    at most once per block. *)
Theorem node_reachable_inv (start n : Node) (Hstart : node_inv start) (Hreach : sync_reachable seeds average start n) :
  node_inv n /\
  forall n' created s0 s, leave_sync n = (Ok tt, n') -> running_start created n' = Ok s0 -> running_reachable seeds average s0 s ->
    running_inv s.
Proof.
  pose proof (sync_node_inv seeds average start n Hstart Hreach) as Hn. split; [done|]. intros n' created s0 s El Es Hs.
  pose proof (keeps_run keeps_leave_sync n _ n' Hn El) as Hn'.
  induction Hs as [|s1 s2 _ IH Hstep]; [by eapply running_start_inv|by eapply running_step_inv].
Qed.
End RunFacts.

Section RunHeaders.
Context `{HashLib, TxLib, HeaderLib, UtreexoLib, ScriptBuild} `{!Codec TxOut}.
Context {C MP : Type} `{!ProofBuild, !ChainBackend C, !HashOrder, !MempoolBase MP} `{!Json (list DiskLocalAddress)}.

Abbreviation Node := (NodeCommon C MP) (only parsing).

(** A header on a known block that is at most [MAX_REORG_DEPTH] below the tip. *)
Definition shallow (c : C) (header : BlockHeader) : Prop := exists h best,
  chain_block_height c (prev_blockhash header) = Ok (Some h) /\ chain_best_block c = Ok best /\
  saturating_sub best.1 MAX_REORG_DEPTH <= h.

(** The headers the chain accepts one after the other, and the blocks that are
    its best block right after their header. *)
Inductive header_steps : C -> list BlockHeader -> list BlockHash -> C -> Prop :=
  | HeadersDone c : header_steps c [] [] c
  | HeaderSide c header c1 hs asked c2 :
      shallow c header -> chain_accept_header header c = (Ok tt, c1) -> header_steps c1 hs asked c2 ->
      header_steps c (header :: hs) asked c2
  | HeaderTip c header c1 height hs asked c2 :
      shallow c header -> chain_accept_header header c = (Ok tt, c1) -> chain_best_block c1 = Ok (height, block_hash header) ->
      header_steps c1 hs asked c2 -> header_steps c (header :: hs) (block_hash header :: asked) c2.

Definition asked_from (peer : PeerId) (now : Z) (m : gmap InflightRequests (PeerId * Z)) (h : BlockHash) :=
  <[InBlocks h := (peer, now)]> m.

Definition same_chain (n n' : Node) : Prop := chain n' = chain n /\ inflight n' = inflight n.
Lemma send_to_chain id req (n : Node) r n' : send_to_peer id req n = (r, n') -> same_chain n n'.
Proof.
  unfold send_to_peer, send_on_channel. destruct (peers n !! id) as [p|]; [|by intros [= <- <-]].
  case_bool_decide; [by intros [= <- <-]|]. destruct (channel_open p); by intros [= <- <-].
Qed.
Lemma ban_chain id (n : Node) r n' : disconnect_and_ban id n = (r, n') -> same_chain n n'.
Proof.
  unfold disconnect_and_ban. destruct (peers n !! id) as [p|]; [|apply send_to_chain].
  destruct (is_manual _); [by intros [= <- <-]|]. by intros [? ?]%send_to_chain.
Qed.

(** The chain the accepted headers lead to, and at most one header that fails. *)
Definition loop_ends (r : outcome WireError unit) (c1 c' : C) : Prop :=
  c' = c1 \/ exists x o, r = map_err Blockchain o /\ o <> Ok tt /\ shallow c1 x /\ chain_accept_header x c1 = (o, c').

Definition loop_result (now : Z) (peer : PeerId) (headers : list BlockHeader) (n : Node) (r : outcome WireError unit) (n' : Node) : Prop :=
  exists hs asked c1, hs `sublist_of` headers /\ header_steps (chain n) hs asked c1 /\ loop_ends r c1 (chain n') /\
    inflight n' = foldl (asked_from peer now) (inflight n) asked.

Lemma result_stop now peer headers n r n' : same_chain n n' -> loop_result now peer headers n r n'.
Proof. intros [Ec Ei]. exists [], [], (chain n). split_and!; [apply sublist_nil_l|constructor|by left|done]. Qed.
Lemma result_skip now peer x headers n r n' : loop_result now peer headers n r n' -> loop_result now peer (x :: headers) n r n'.
Proof. intros (hs & asked & c1 & Hsub & Hst & He & Hi). exists hs, asked, c1. split_and!; try done. by constructor. Qed.
Lemma result_fail now peer x headers n o c1 : shallow (chain n) x -> chain_accept_header x (chain n) = (o, c1) -> o <> Ok tt ->
  loop_result now peer headers n (map_err Blockchain o) (set_chain c1 n).
Proof.
  intros Hsh Ha Ho. exists [], [], (chain n). split_and!; [apply sublist_nil_l|constructor|right; by exists x, o|done].
Qed.
Lemma result_side now peer x headers n r n' c1 : shallow (chain n) x -> chain_accept_header x (chain n) = (Ok tt, c1) ->
  loop_result now peer headers (set_chain c1 n) r n' -> loop_result now peer (x :: headers) n r n'.
Proof.
  intros Hsh Ha (hs & asked & c2 & Hsub & Hst & He & Hi). exists (x :: hs), asked, c2.
  split_and!; [by constructor|by eapply HeaderSide|done..].
Qed.
Lemma result_tip now peer x headers n n1 r n' c1 height : shallow (chain n) x -> chain_accept_header x (chain n) = (Ok tt, c1) ->
  chain_best_block c1 = Ok (height, block_hash x) -> same_chain (set_chain c1 n) n1 ->
  loop_result now peer headers (insert_inflight now (InBlocks (block_hash x)) peer n1) r n' -> loop_result now peer (x :: headers) n r n'.
Proof.
  intros Hsh Ha Hb [Ec Ei] (hs & asked & c2 & Hsub & Hst & He & Hi). exists (x :: hs), (block_hash x :: asked), c2.
  cbn [chain insert_inflight set_inflight] in Hst. cbn [inflight insert_inflight set_inflight] in Hi. cbn in Ec, Ei.
  rewrite Ec in Hst. rewrite Ei in Hi. split_and!; [by constructor|by eapply HeaderTip|done..].
Qed.

Lemma headers_loop_steps now peer headers : forall (n : Node) r n', headers_loop now peer headers n = (r, n') ->
  loop_result now peer headers n r n'.
Proof.
  induction headers as [|x headers IH]; intros n r n'; cbn [headers_loop]; [by intros [= <- <-]; apply result_stop|].
  unfold mbind at 1, stm_bind at 1. cbn [gets]. destruct (_ || _); [intros ?; by apply result_skip, IH|].
  destruct (chain_block_header _ _); [intros ?; by apply result_skip, IH| |by intros [= <- <-]; apply result_stop..].
  unfold mbind at 1, stm_bind at 1, on_chain at 1. cbn [gets].
  destruct (chain_block_height (chain n) _) as [[h|]| | |] eqn:Eh; cbn [map_err]; [|intros ?%ban_chain; by apply result_stop|
    by intros [= <- <-]; apply result_stop..].
  unfold mbind at 1, stm_bind at 1, on_chain at 1. cbn [gets].
  destruct (chain_best_block (chain n)) as [best| | |] eqn:Eb; cbn [map_err]; [|by intros [= <- <-]; apply result_stop..].
  destruct (Z.ltb_spec h (saturating_sub best.1 MAX_REORG_DEPTH)); [intros ?%ban_chain; by apply result_stop|].
  assert (Hsh : shallow (chain n) x) by (by exists h, best).
  unfold mbind at 1, stm_bind at 1, chain_do at 1. destruct (chain_accept_header x (chain n)) as [o c1] eqn:Ea.
  destruct o as [[]|?| |]; cbn [map_err]; [|by intros [= <- <-]; apply (result_fail now peer x (x :: headers) n _ c1 Hsh Ea)..].
  unfold mbind at 1, stm_bind at 1, on_chain at 1. cbn [gets]. change (chain (set_chain c1 n)) with c1.
  destruct (chain_best_block c1) as [[height tip]| | |] eqn:Eb1; cbn [map_err snd];
    [|by intros [= <- <-]; eapply result_side, result_stop..].
  destruct (Z.eqb_spec (block_hash x) tip) as [<-|Hne]; cbn [negb]; [|intros ?; by eapply result_side, IH].
  unfold mbind at 1, stm_bind at 1. destruct (send_to_peer _ _ _) as [[[]| | |] n2] eqn:Es; apply send_to_chain in Es;
    try (by intros [= <- <-]; eapply result_side, result_stop).
  unfold mbind at 1, stm_bind at 1. cbn [modify]. intros Hl%IH. by eapply result_tip.
Qed.
End RunHeaders.

(** * On the chain state *)

Section OnChain.
Context `{HashLib, TxLib, HeaderLib, KernelLib, UtreexoLib, ScriptBuild} `{!Codec TxOut}.
Context {S DbErr : Type} `{!ChainStore S DbErr} (rep : S -> StoreView -> Prop) (roots_room : S -> Prop).
Context `{!ChainStoreOk S DbErr rep roots_room} `{!StoreTotal S DbErr} `{!HeaderLibOk} `{!StumpOk} (fuel : nat).
Context {MP : Type} `{!ProofBuild, !HashOrder, !MempoolBase MP} `{!Json (list DiskLocalAddress)}.
#[local] Instance headers_backend : ChainBackend (ChainStateInner S) := chain_state_backend fuel.

Abbreviation Node := (NodeCommon (ChainStateInner S) MP) (only parsing).

Lemma header_steps_run c hs asked c' : Forall (fun x => block_hash x <> 0) hs -> header_steps c hs asked c' ->
  forall c0, run fuel roots_room c0 c -> run fuel roots_room c0 c'.
Proof.
  intros Hz Hst. revert Hz. induction Hst as [c|c x c1 hs asked c2 _ Ha _ IH|c x c1 height hs asked c2 _ Ha _ _ IH];
    intros Hz c0 Hr; [done|apply Forall_cons in Hz as [Hx Hz]..]; (apply IH; [done|]); eapply run_step; try done; by eapply step_header.
Qed.

(** C7: Over the chain state and any store that keeps its promises, the headers of a
    message that reach the chain are a sublist of the message, accepted one after the
    other, each with a known parent at most MAX_REORG_DEPTH below the best block of that
    moment; the chain stays readable and keeps its invariant, up to at most one last
    header whose error ends the loop; and the blocks marked as requested from the peer
    are only ones that were the best block right after their header was accepted. *)
Theorem headers_on_chain (now : Z) (peer : PeerId) (headers : list BlockHeader) (n : Node) (v : StoreView) r (n' : Node)
  (Hinv : chain_inv rep (chain n) v) (Hz : Forall (fun x => block_hash x <> 0) headers)
  (Hrun : headers_loop now peer headers n = (r, n')) :
  exists hs asked c1, hs `sublist_of` headers /\ header_steps (chain n) hs asked c1 /\
    (exists v1, chain_inv rep c1 v1) /\ ChainReach.readable c1 /\ (r = Ok tt -> chain n' = c1) /\
    (chain n' = c1 \/ exists x o, r = map_err Blockchain o /\ shallow c1 x /\ accept_header fuel x c1 = (o, chain n')) /\
    inflight n' = foldl (asked_from peer now) (inflight n) asked.
Proof.
  apply headers_loop_steps in Hrun as (hs & asked & c1 & Hsub & Hst & He & Hi).
  assert (Hz' : Forall (fun x => block_hash x <> 0) hs) 
    by (rewrite Forall_forall in *; intros x Hx; apply Hz; by eapply elem_of_sublist).
  pose proof (header_steps_run _ _ _ _ Hz' Hst _ (run_refl _ _ _)) as Hr.
  destruct (ChainReach.run_inv fuel rep roots_room _ _ _ Hinv Hr) as [v1 Hv1].
  exists hs, asked, c1. split_and!; try done; [by exists v1|by eapply chain_inv_readable| |].
  - intros ->. destruct He as [|(x & o & Eo & Ho & _)]; [done|]. destruct o as [[]| | |]; done.
  - destruct He as [|(x & o & Eo & _ & Hsh & Ha)]; [by left|right]. by exists x, o.
Qed.

(** Headers whose parent the chain does not know end with an error that is only
    logged: the peer that sent them is not banned, and nothing else changes. *)
Theorem unknown_parent_unpunished (now : Z) (peer : PeerId) (x : BlockHeader) (rest : list BlockHeader)
  (s : @Running _ (ChainStateInner S) MP) (p : LocalPeerView) (v : StoreView)
  (Hinv : chain_inv rep (chain (common s)) v) (Hp : peers (common s) !! peer = Some p) (Hk : kind p <> Extra)
  (Hnew : requested (common s) (block_hash x) = false) (Hblk : downloaded (common s) (block_hash x) = false)
  (Hx : v_headers v !! block_hash x = None) (Hprev : v_headers v !! prev_blockhash x = None) :
  handle_headers now peer (x :: rest) s =
    (Err (Blockchain BlockNotPresent), set_common (remove_inflight InHeaders (common s)) s).
Proof.
  assert (Hget : forall h, v_headers v !! h = None -> get_header h (chainstore (chain (common s))) = Ok None).
  { intros h Hh. by rewrite (get_header_rep _ _ _ (ci_rep _ _ _ Hinv)), Hh. }
  unfold handle_headers, mbind, stm_bind, lift, gets. cbn [on_common modify common set_common peers remove_inflight set_inflight].
  rewrite Hp. cbn [expect]. rewrite bool_decide_eq_false_2 by done. unfold on_common.
  assert (Hr : requested (remove_inflight InHeaders (common s)) (block_hash x) = false).
  { revert Hnew. unfold requested. cbn. by rewrite lookup_delete_ne. }
  cbn [headers_loop common set_common]. unfold mbind, stm_bind. cbn [gets]. rewrite Hr. cbn [orb].
  change (downloaded (remove_inflight InHeaders (common s))) with (downloaded (common s)). rewrite Hblk.
  cbn [chain remove_inflight set_inflight chain_block_header headers_backend chain_state_backend]. unfold get_block_header, db.
  rewrite Hget by done. cbn. unfold get_block_height, get_disk_block_header, db. by rewrite Hget.
Qed.
End OnChain.
