(* ===== verification/Backfill.v ===== *)
(** The backfill of the running node
    ([src/crates/floresta-wire/src/p2p_wire/node/running_ctx.rs], [backfill]):
    the partial chain it starts from, the state file it leaves when it stops
    early, and the blocks it marks when it is done. *)

From stdpp Require Import base gmap list strings.
From Stdlib Require Import ZArith Lia.
From S2P Require Import Prelude Bitcoin Errors ChainParams Codec Merkle Sigops Extensions Udata.
From S2P Require Import SwiftSync Consensus ChainStore ChainQuery PartialChain ChainState.

Section Backfill.
Context `{HashLib, TxLib, HeaderLib, KernelLib, UtreexoLib} `{!Codec TxOut}.
Context {S DbErr : Type} `{!ChainStore S DbErr}.

Abbreviation Inner := (ChainStateInner S) (only parsing).

(** The start: [state] is what the file [.sync_node_state] holds, if it can be
    read.  [None] is a backfill that has finished already. *)
Definition backfill_start (state : option (list Z)) (c : Inner) : outcome BlockchainError (option (PartialChainStateInner * Z)) :=
  match state with
  | Some [] => Ok None
  | Some state =>
      if (length state <? 8)%nat then Panic
      else
        let n := (length state - 8)%nat in
        a ← expect (ok_opt (deserialize (take n state)));
        let tip := le_int (take 4 (drop n state)) in
        let last := le_int (drop (n + 4) state) in
        p ← expect (ok_opt (get_partial_chain c tip last a));
        Ok (Some (p, last))
  | None =>
      last ← expect (ok_opt (get_validation_index c));
      p ← expect (ok_opt (get_partial_chain c 0 last stump_new));
      Ok (Some (p, last))
  end.

(** The end: the file and the chain. *)
Fixpoint mark_all (l : list BlockHeader) : stm Inner BlockchainError unit :=
  match l with
  | [] => mret tt
  | x :: rest => fun c =>
      match mark_block_as_valid (block_hash x) c with
      | (Ok _, c') => mark_all rest c'
      | (Diverge, c') => (Diverge, c')
      | (_, c') => (Panic, c')
      end
  end.
Definition backfill_done (last : Z) (p : PartialChainStateInner) : stm (option (list Z) * Inner) BlockchainError unit := fun '(file, c) =>
  if has_invalid_blocks p then (Panic, (file, c))
  else if p_is_in_ibd p then
    match stump_serialize (current_acc p) with
    | inl _ => (Panic, (file, c))
    | inr bytes => (Ok tt, (Some (bytes ++ le_bytes 4 (current_height p) ++ le_bytes 4 last), c))
    end
  else let '(o, c') := mark_all (list_valid_blocks p) c in (o, (Some [], c')).

(** * What it keeps *)

Context `{!StumpOk}.

(** A partial chain of this chain state up to [last]: only the accumulator and
    the height depend on where it starts. *)
Lemma expect_opt {E A} (o : outcome E A) a : @expect E A (ok_opt o) = Ok a -> o = Ok a.
Proof. destruct o; cbn; congruence. Qed.
Lemma start_partial state (c : Inner) p last : backfill_start state c = Ok (Some (p, last)) ->
  exists tip a, get_partial_chain c tip last a = Ok p.
Proof.
  unfold backfill_start. destruct state as [[|b state]|]; [done| |].
  - destruct (_ <? 8)%nat; [done|]. intros (a & _ & (p1 & Hp & [= <- <-])%obind_ok)%obind_ok. apply expect_opt in Hp. by eexists _, _.
  - intros (last1 & _ & (p1 & Hp & [= <- <-])%obind_ok)%obind_ok. apply expect_opt in Hp. by eexists _, _.
Qed.
Lemma partial_restart (c : Inner) tip last a p h a' : get_partial_chain c tip last a = Ok p ->
  get_partial_chain c h last a' = Ok (update_state h a' p) /\ final_height p = last.
Proof. unfold get_partial_chain. intros (hs & -> & [= <-])%obind_ok. done. Qed.

(** The state file read back. *)
Lemma start_saved bytes h last a (c : Inner) : is_u32 h -> is_u32 last -> stump_serialize a = inr bytes ->
  backfill_start (Some (bytes ++ le_bytes 4 h ++ le_bytes 4 last)) c =
    (p ← expect (ok_opt (get_partial_chain c h last a)); Ok (Some (p, last))).
Proof.
  intros Hh Hl Hs. destruct (stump_roundtrip a bytes Hs) as [Hne Hd].
  assert (Hlen : length (bytes ++ le_bytes 4 h ++ le_bytes 4 last) = (length bytes + 8)%nat) by (by rewrite !length_app, !length_le_bytes).
  unfold backfill_start. set (file := bytes ++ _) in *. assert (Hf : file <> []) by (intros E; rewrite E in Hlen; cbn in Hlen; lia).
  destruct file as [|b file'] eqn:Ef; [done|]. rewrite <-Ef in *. rewrite Hlen. rewrite (proj2 (Nat.ltb_ge _ _)) by lia.
  replace (length bytes + 8 - 8)%nat with (length bytes) by lia. unfold file.
  rewrite <-drop_drop, take_app_length, drop_app_length. unfold deserialize. rewrite Hd. cbn [ok_opt expect mbind outcome_bind].
  rewrite take_app_length', drop_app_length' by (by rewrite length_le_bytes).
  unfold is_u32, u32_max in *. by rewrite !le_int_bytes by (cbn; lia).
Qed.

(** C13: A backfill that stops before its last block leaves a state file from which the
    next start, on an unchanged chain, builds exactly the partial chain it left, with
    its accumulator, height, headers and end, whether it started from the genesis block
    or from such a file itself. *)
Theorem backfill_resumes (state state' : option (list Z)) (c c' : Inner) (p p' : PartialChainStateInner) (last : Z) (l : list BlockInput)
  (Hstart : backfill_start state c = Ok (Some (p, last))) (Hrun : process_all l p = (Ok tt, p'))
  (Hearly : current_height p' <> last) (Hlast : is_u32 last) (Hheight : is_u32 (current_height p'))
  (Hdone : backfill_done last p' (state, c) = (Ok tt, (state', c'))) :
  c' = c /\ backfill_start state' c' = Ok (Some (p', last)).
Proof.
  apply start_partial in Hstart as (tip & a0 & Hp). apply process_all_ok in Hrun as (a & _ & -> & _).
  set (h := current_height p + Z.of_nat (length l)) in *. destruct (partial_restart c tip last a0 p h a Hp) as [Hr Hfin].
  unfold backfill_done in Hdone. destruct (has_invalid_blocks _); [done|].
  unfold p_is_in_ibd, is_sync in Hdone. cbn [update_state current_height final_height current_acc] in Hdone, Hearly, Hheight.
  rewrite Hfin, (proj2 (Z.eqb_neq _ _)) in Hdone by done. cbn [negb] in Hdone.
  destruct (stump_serialize a) as [|bytes] eqn:Es; [done|]. injection Hdone as <- <-. split; [done|].
  exact (eq_trans (start_saved bytes h last a c Hheight Hlast Es) (f_equal (fun o => p ← expect (ok_opt o); Ok (Some (p, last))) Hr)).
Qed.
End Backfill.
