(* ===== verification/Sample.v ===== *)
(** A concrete instance of the library interfaces, small enough to evaluate,
    and sample data on it.  The header's nonce decides its hash, every header
    has one unit of work, the accumulator counts the blocks it has seen, and
    hashes are a polynomial of the bytes.  The instances satisfy the
    documented behaviour the theorems rely on, so the theorems can be applied
    to the sample chain. *)

From stdpp Require Import base gmap list strings.
From Stdlib Require Import ZArith Lia.
From S2P Require Import Prelude Bitcoin Errors ChainParams Codec Merkle Sigops Extensions Udata.
From S2P Require Import SwiftSync Consensus ChainStore ChainQuery PartialChain ChainState.
From S2P Require Import FlatStore.

Definition poly (l : list Z) : Z := foldl (fun a b => (a * 257 + b + 1) mod 256 ^ 32) 7 l.

#[export] Instance sample_hash : HashLib := {|
  sha256d := poly;
  sha512_256 := poly;
  siphash24 k0 k1 l := wrap64 (k0 + 3 * k1 + poly l);
  pubkey_hash l := [poly l];
  script_hash l := [poly l];
  wpubkey_hash l := [poly l];
  wscript_hash l := [poly l]
|}.

Definition is_null_outpoint (o : OutPoint) : bool := (op_txid o =? 0) && (op_vout o =? u32_max).

#[export] Instance sample_tx : TxLib := {|
  compute_txid tx :=
    poly (tx_version tx :: map (fun i => op_txid (previous_output i)) (tx_input tx)
          ++ map txo_value (tx_output tx));
  is_coinbase tx :=
    match tx_input tx with [i] => is_null_outpoint (previous_output i) | _ => false end;
  is_null := is_null_outpoint;
  sequence_is_final s := s =? u32_max;
  to_relative_lock_time s := if s <? 65536 then Some (RelBlocks s) else None;
  is_time_locked _ := false;
  is_op_return s := match s with 0x6a :: _ => true | _ => false end;
  is_p2pkh _ := false;
  is_p2sh _ := false;
  is_p2wpkh _ := false;
  is_p2wsh _ := false;
  is_witness_program _ := false;
  is_push_only _ := true;
  instructions s := map (fun b => Some (Op b)) s;
  instructions_minimal s := map (fun b => Some (Op b)) s;
  read_scriptint l := head l;
  classify_legacy b := if b =? 0xac then OrdinaryCheckSig else OtherClass;
  total_sigop_cost_no_prevouts _ := 0;
  check_witness_commitment _ := true;
  block_weight _ := 800;
  block_coinbase b := head (txdata b)
|}.

Definition sample_params : Params := mkParams 1000 1000 1000 2016 600 100 false true.

(** A coinbase that pays [value], and a block with that coinbase only. *)
Definition coinbase_tx (value : Z) : Transaction :=
  mkTransaction 1 (Blocks 0) [mkTxIn (mkOutPoint 0 u32_max) [1; 2] u32_max []]
    [mkTxOut value [0x51]].
Definition header_at (prev nonce value : Z) : BlockHeader :=
  mkBlockHeader 4 prev (poly [1; 0; value]) (600 * nonce) 100 nonce.
Definition block_at (prev nonce value : Z) : Block :=
  mkBlock (header_at prev nonce value) [coinbase_tx value].

#[export] Instance sample_header : HeaderLib := {|
  block_hash hd := hd_nonce hd + 1;
  header_target hd := hd_bits hd;
  header_work _ := 1;
  validate_pow hd t := if hd_bits hd <=? t then Some (hd_nonce hd + 1) else None;
  to_compact_lossy t := t;
  from_next_work_required bits _ _ := bits;
  genesis_block _ := block_at 0 0 50;
  params_new _ := sample_params
|}.

#[export] Instance sample_header_ok : HeaderLibOk.
Proof. intros hd t h. cbn. destruct (_ <=? _); congruence. Qed.

#[export] Instance sample_kernel : KernelLib := {|
  bitcoinkernel := false;
  KERNEL_VERIFY_P2SH := 1;
  KERNEL_VERIFY_WITNESS := 2048;
  KERNEL_VERIFY_TAPROOT := 131072;
  KERNEL_VERIFY_CHECKLOCKTIMEVERIFY := 512;
  KERNEL_VERIFY_DERSIG := 4;
  KERNEL_VERIFY_CHECKSEQUENCEVERIFY := 1024;
  KERNEL_VERIFY_NULLDUMMY := 16;
  KTransaction := unit;
  KScriptPubkey := unit;
  KPrecomputed := unit;
  ktransaction_try_from _ := inr tt;
  kscript_try_from _ := inr tt;
  kprecomputed_new _ _ := inr tt;
  kernel_verify _ _ _ _ _ _ := None
|}.

#[export] Instance sample_utreexo : UtreexoLib := {|
  Stump := Z;
  Proof_ := unit;
  StumpError := unit;
  stump_new := 0;
  stump_modify a _ _ _ := inr (a + 1);
  stump_verify _ _ _ := inr true;
  stump_roots a := [SomeHash a];
  stump_serialize a := inr [a];
  stump_deserialize l := match l with [a] => inr a | _ => inl tt end
|}.

#[export] Instance sample_stump_ok : StumpOk.
Proof. intros a b [= <-]. done. Qed.

#[export] Instance sample_txout_codec : Codec TxOut := {|
  enc o := le_bytes 8 (txo_value o);
  dec r := '(v, r) ← dec_le 8 r; Ok (mkTxOut v [], r)
|}.

#[export] Instance sample_script_build : ScriptBuild := {|
  new_p2pkh h := 0x76 :: h;
  new_p2sh h := 0xa9 :: h;
  new_p2wpkh h := 0 :: h;
  new_p2wsh h := 1 :: h
|}.

(** An LRU cache that never has to evict. *)
#[export] Instance sample_flat : FlatLib := {|
  Lru := gmap BlockHash DiskBlockHeader;
  lru_new _ := ∅;
  lru_get h c := (c !! h, c);
  lru_put h d c := <[h := d]> c;
  xxh3_headers _ n := n;
  xxh3_index _ n := n;
  size_of_hashed_header := 136;
  size_of_metadata := 2200
|}.

Definition sample_entries : @Lru sample_flat -> gmap BlockHash DiskBlockHeader := fun c => c.

#[export] Instance sample_lru_ok : LruOk sample_entries.
Proof.
  split; cbn.
  - done.
  - intros h d c. apply lookup_insert_eq.
  - intros h d c h' d' Hne. by rewrite lookup_insert_ne.
  - done.
Qed.

(** * A sample chain: [g - h1 - h2] and the fork [h1 - f2 - f3] *)

Definition g : BlockHeader := header_at 0 0 50.
Definition h1 : BlockHeader := header_at 1 1 50.
Definition h2 : BlockHeader := header_at 2 2 50.
Definition f2 : BlockHeader := header_at 2 3 50.
Definition f3 : BlockHeader := header_at 4 4 50.
Definition b1 : Block := block_at 1 1 50.
Definition b2 : Block := block_at 2 2 50.

(** The state of a computation after it ran, and whether it succeeded. *)
Definition run_ok {S E A} (m : stm S E A) (s : S) (a : A) : Prop := (m s).1 = Ok a.

Lemma run_ok_pair {S E A} (m : stm S E A) s a : run_ok m s a -> m s = (Ok a, (m s).2).
Proof. unfold run_ok. destruct (m s). cbn. by intros ->. Qed.

(** On the reference store, from its genesis state. *)
Abbreviation vfuel := 10%nat (only parsing).
Definition genesis_store : ViewStore :=
  mkViewStore (mkStoreView {[1 := FullyValid g 0]} {[0 := FullyValid g 0]} ∅) None.
Definition c0 : ChainStateInner ViewStore :=
  initial_inner stump_new genesis_store (mkBestChain 1 0 1 []) Regtest Disabled.
Definition c1 := (accept_header vfuel h1 c0).2.
Definition c2 := (accept_header vfuel h2 c1).2.
Definition c3 := (connect_block (S := ViewStore) b1 tt ∅ [] c2).2.
Definition c4 := (accept_header vfuel f2 c3).2.
Definition c5 := (accept_header vfuel f3 c4).2.

(** On the flat-file store, from an empty directory. *)
Definition sample_config : FlatChainStoreConfig := mkConfig (Some 16) (Some 16) (Some 4) (Some 16).
Definition empty_dir : DataDir := mkDataDir None ∅ ∅ ∅ [].
Definition fs0 : FlatChainStore :=
  match flat_new sample_config empty_dir with Ok s => s | _ =>
    mkFlat ∅ (mkMetadata 0 0 0 0 0 [] 0 0 0 0 0 (mkCheckSum 0 0 0)) ∅ 0 ∅ [] ∅ [] end.
Definition fc0 : ChainStateInner FlatChainStore :=
  match new_chain_state fs0 Regtest Disabled with
  | Ok c => c
  | _ => initial_inner stump_new fs0 (mkBestChain 1 0 1 []) Regtest Disabled
  end.
Definition fc1 := (accept_header vfuel h1 fc0).2.
Definition fc2 := (accept_header vfuel h2 fc1).2.
Definition fc3 := (connect_block (S := FlatChainStore) b1 tt ∅ [] fc2).2.
Definition fc4 := (accept_header vfuel f2 fc3).2.
Definition fc5 := (accept_header vfuel f3 fc4).2.
