(* ===== verification/SampleRules.v ===== *)
(** The theorems about the rules of consensus, proofs and encodings, applied
    to sample data. *)

From stdpp Require Import base gmap list strings.
From Stdlib Require Import ZArith Lia.
From S2P Require Import Prelude Bitcoin Errors ChainParams Codec Merkle Sigops Extensions Udata.
From S2P Require Import SwiftSync Consensus ConsensusFacts BlockFacts ChainStore PartialChain.
From S2P Require Import PartialChain FlatStore FlatFacts Sample.

Lemma poly_range l : is_hash (poly l).
Proof.
  unfold poly, is_hash. destruct l as [|x l] using rev_ind; [cbn; lia|].
  rewrite foldl_app. cbn [foldl]. apply Z.mod_pos_bound. lia.
Qed.

(** Bounds of concrete numbers. *)
Ltac bounds := vm_compute; (split; (reflexivity || discriminate)) || (reflexivity || discriminate).

(** * Merkle trees *)

Lemma calculate_root_spec_witness :
  exists n, tree_depth n [5; 6; 7] /\
    calculate_root [5; 6; 7] = Some (mroot n [5; 6; 7], mutated_levels n [5; 6; 7]).
Proof. apply (calculate_root_spec [5; 6; 7]). discriminate. Defined.

Lemma check_merkle_root_no_malleation_witness :
  let ids := [compute_txid (coinbase_tx 50)] in
  ids = ids \/ collision (tree_inputs 0 ids) (tree_inputs 0 ids).
Proof.
  apply (check_merkle_root_no_malleation b1 b2 [compute_txid (coinbase_tx 50)]
           [compute_txid (coinbase_tx 50)] 0).
  - exact poly_range.
  - intros tx. apply poly_range.
  - split; cbn; lia.
  - split; cbn; lia.
  - vm_compute. reflexivity.
  - vm_compute. reflexivity.
  - reflexivity.
Defined.

Lemma wallet_proof_verifies_witness :
  exists p root mutated, from_block_hashes [5; 6; 7] 2 = Ok p /\
    calculate_root [5; 6; 7] = Some (root, mutated) /\ mp_verify p root = true.
Proof. apply (wallet_proof_verifies [5; 6; 7] 2); cbn; lia. Defined.

(** The proof for the third of three transactions. *)
Definition sample_proof : MerkleProof :=
  mkMerkleProof 7 2 [7; parent_hash 5 6].

Lemma wallet_proof_sound_witness :
  7 = 7 \/ collision (verify_inputs 7 2 [7; parent_hash 5 6]) (tree_inputs 2 [5; 6; 7]).
Proof.
  apply (wallet_proof_sound [5; 6; 7] sample_proof 2 7 (mroot 2 [5; 6; 7]) false).
  - exact poly_range.
  - split; cbn; lia.
  - vm_compute. reflexivity.
  - repeat (apply Forall_cons; split); [bounds..|apply Forall_nil; done].
  - repeat (apply Forall_cons; split); [bounds..|apply Forall_nil; done].
  - bounds.
  - reflexivity.
  - bounds.
  - reflexivity.
  - vm_compute. reflexivity.
Defined.

Lemma merkle_proof_roundtrip_witness :
  mp_dec (mp_enc (mkMerkleProof 7 2 [8; 9]) ++ [1]) = Ok (mkMerkleProof 7 2 [8; 9], [1]).
Proof.
  apply (merkle_proof_roundtrip (mkMerkleProof 7 2 [8; 9]) [1]).
  - bounds.
  - bounds.
  - bounds.
  - repeat (apply Forall_cons; split); [bounds..|apply Forall_nil; done].
Defined.

(** * Work and time *)

Lemma multiply_work_by_u32_exact_witness :
  multiply_work_by_u32 (2 ^ 250 + 7) 2016 = Err tt /\ multiply_work_by_u32 (2 ^ 200) 2016 = Ok (2016 * 2 ^ 200).
Proof.
  split.
  - rewrite (multiply_work_by_u32_exact (2 ^ 250 + 7) 2016); [reflexivity|lia|].
    unfold is_u32, u32_max. lia.
  - rewrite (multiply_work_by_u32_exact (2 ^ 200) 2016); [reflexivity|lia|].
    unfold is_u32, u32_max. lia.
Defined.

(** A chain of headers whose times count down from the given one. *)
Definition countdown (n : Z) (h : BlockHeader) : outcome unit (BlockHeader * Z) :=
  Ok (header_at (hd_nonce h - 2) (hd_nonce h - 1) 50, n - 1).

Lemma median_time_past_is_median_witness :
  exists m, median_time_past_with countdown 20 (header_at 19 20 50) = Ok m /\ m = 600 * 15.
Proof.
  destruct (median_time_past_is_median countdown 20 (header_at 19 20 50)
    (map (Z.mul 600) (rev (seqZ 10 11)))) as (_ & m & Hm & _).
  - vm_compute. reflexivity.
  - exists m. split; [exact Hm|]. vm_compute in Hm. injection Hm as <-. reflexivity.
Defined.

(** * Transactions and blocks *)

Definition regtest : ChainParams := chain_params_from Regtest.

Lemma get_subsidy_schedule_witness :
  get_subsidy regtest 300 = 50 * ONE_BTC / 4 /\ get_subsidy regtest 451 <= get_subsidy regtest 300.
Proof.
  destruct (get_subsidy_schedule regtest 300) as [E Hm]; [lia|].
  split; [rewrite E; reflexivity|]. apply Hm. lia.
Defined.

Lemma max_supply_is_sum_witness :
  max_supply_at_height regtest 400 = Ok (sum_Z (get_subsidy regtest) (seqZ 1 400)) /\
  sum_Z (get_subsidy regtest) (seqZ 1 400) <= MAX_MONEY.
Proof. apply (max_supply_is_sum regtest 400). unfold u32_max. lia. Defined.

(** A transaction that spends an output of 70 and pays 60. *)
Definition spend_tx : Transaction :=
  mkTransaction 2 (Blocks 0) [mkTxIn (mkOutPoint 9 0) [] u32_max []] [mkTxOut 60 [0x51]].
Definition sample_utxos : gmap OutPoint UtxoData :=
  {[mkOutPoint 9 0 := mkUtxoData (mkTxOut 70 [0x51]) false 5 0]}.
Definition cutoff : LockTimeCutoff := HeaderTime 0.

Lemma check_transaction_context_free_iff_witness :
  check_transaction_context_free spend_tx = Ok 60 <->
  tx_input spend_tx <> [] /\ tx_output spend_tx <> [] /\
  Forall (fun i => is_null (previous_output i) = false /\ is_unspendable (script_sig i) = false)
    (tx_input spend_tx) /\
  NoDup (map previous_output (tx_input spend_tx)) /\
  60 = out_sum (tx_output spend_tx) /\ 60 <= MAX_MONEY.
Proof. apply (check_transaction_context_free_iff spend_tx 60). repeat constructor. cbn. lia. Defined.

Lemma verify_transaction_sound_witness :
  60 = out_sum (tx_output spend_tx) /\ utxo_total (∅ : gmap OutPoint UtxoData) = utxo_total sample_utxos - 70.
Proof.
  destruct (verify_transaction_sound spend_tx sample_utxos ∅ 8 cutoff true 1 70 60)
    as (E & _ & Ht & _).
  - vm_compute. reflexivity.
  - split; [exact E|exact Ht].
Defined.

Definition sample_txs : list Transaction := [coinbase_tx 55; spend_tx].
Definition sample_state : BlockState :=
  match verify_block_transactions_state 8 cutoff sample_utxos sample_txs 50 true 1 with
  | Ok st => st
  | _ => mkBlockState ∅ 0 0
  end.

Lemma block_value_conserved_witness :
  utxo_total (bs_utxos sample_state) <= utxo_total sample_utxos + 50.
Proof.
  apply (block_value_conserved 8 cutoff sample_utxos sample_txs 50 true 1 sample_state).
  - apply map_Forall_singleton. cbn. lia.
  - repeat constructor; cbn; lia.
  - vm_compute. reflexivity.
Defined.

Lemma block_no_double_spend_witness : NoDup (block_spends 0 sample_txs).
Proof.
  apply (block_no_double_spend 8 cutoff sample_utxos sample_txs 50 true 1 sample_state).
  - apply (bool_decide_unpack _). vm_compute. exact I.
  - intros o [u Hu]. unfold sample_utxos in Hu. apply lookup_singleton_Some in Hu as [<- _].
    apply (bool_decide_unpack _). vm_compute. exact I.
  - vm_compute. reflexivity.
Defined.

Lemma block_inputs_exist_witness :
  is_final_transaction spend_tx 8 cutoff = true /\
  forall o, o ∈ map previous_output (tx_input spend_tx) ->
    is_Some (sample_utxos !! o) \/ exists t, t ∈ [coinbase_tx 55] /\ creates t o.
Proof.
  apply (block_inputs_exist 8 cutoff sample_utxos (coinbase_tx 55) [] spend_tx [] 50 true 1 sample_state).
  vm_compute. reflexivity.
Defined.

(** * Utreexo data *)

Definition leaf_error (_ : UtreexoLeafError) : unit := tt.
Definition hash_of_height (n : Z) : outcome unit BlockHash := Ok (n + 1).
Definition mtp_of_height (n : Z) : outcome unit Z := Ok (600 * n).
Definition spend_input : TxIn := mkTxIn (mkOutPoint 9 0) [] u32_max [].
Definition sample_leaf : CompactLeafData := compact_leaf false 5 (mkTxOut 70 [0x51]).

Lemma deleted_leaf_is_added_leaf_witness :
  process_input leaf_error hash_of_height mtp_of_height ∅ spend_tx 3 0 spend_input
    (mkProofState [sample_leaf] [] ∅) =
  Ok (mkProofState [] [get_leaf_hashes 9 false 0 (mkTxOut 70 [0x51]) 5 6]
        {[mkOutPoint 9 0 := mkUtxoData (mkTxOut 70 [0x51]) false 5 0]}).
Proof.
  assert (Hrev : reveals [0x51] spend_input) by (repeat split; discriminate).
  pose proof (deleted_leaf_is_added_leaf leaf_error hash_of_height mtp_of_height ∅ spend_tx 3 0
    spend_input false 5 6 (mkTxOut 70 [0x51]) 2400 [] [] ∅ ltac:(lia) eq_refl eq_refl eq_refl Hrev) as Hp.
  exact Hp.
Defined.

Definition sample_block : Block := mkBlock h1 sample_txs.

Lemma block_adds_from_full_hints_witness :
  exists adds,
    get_block_adds (E := unit) sample_block 8 2 = Ok adds /\
    get_block_adds_from_hints (E := unit) sample_block (map compute_txid sample_txs) 8 2 {[0; 1]} = Ok adds.
Proof.
  apply (block_adds_from_full_hints sample_block 8 2 {[0; 1]}).
  - intros i Hi. change (output_count (txdata sample_block)) with 2 in Hi.
    assert (i = 0 \/ i = 1) as [-> | ->] by lia; set_solver.
  - intros tx Htx. unfold u32_max. repeat (apply elem_of_cons in Htx as [->|Htx]; [cbn; lia|]).
    by apply elem_of_nil in Htx.
Defined.

Lemma process_proof_utxos_witness :
  exists dels utxos,
    process_proof leaf_error hash_of_height mtp_of_height [sample_leaf] sample_txs = Ok (dels, utxos) /\
    (length dels <= 1)%nat /\ forall o u, utxos !! o = Some u -> creation_height u <> GENESIS_HEIGHT.
Proof.
  eexists _, _. split; [vm_compute; reflexivity|].
  destruct (process_proof_utxos leaf_error hash_of_height mtp_of_height [sample_leaf] sample_txs
    [get_leaf_hashes 9 false 0 (mkTxOut 70 [0x51]) 5 6]
    {[mkOutPoint 9 0 := mkUtxoData (mkTxOut 70 [0x51]) false 5 0]}) as [Hl Hu].
  - vm_compute. reflexivity.
  - split; [exact Hl|]. intros o u Ho. by apply (Hu o u).
Defined.

Lemma swift_sync_cancels_witness :
  agg_is_zero (foldl (fun a d =>
    agg_plus a (foldl (agg_remove (mkSipHashKeys 1 2 3 4))
                  (foldl (agg_add (mkSipHashKeys 1 2 3 4)) agg_zero d.1) d.2))
    agg_zero [([mkOutPoint 1 0; mkOutPoint 1 1], []); ([], [mkOutPoint 1 1; mkOutPoint 1 0])]) = true.
Proof.
  apply (swift_sync_cancels (mkSipHashKeys 1 2 3 4)
    [([mkOutPoint 1 0; mkOutPoint 1 1], []); ([], [mkOutPoint 1 1; mkOutPoint 1 0])]).
  cbn. apply Permutation_swap.
Defined.
