(* ===== verification/SampleStore.v ===== *)
(** The theorems about encodings, the flat-file store and partial chains,
    applied to sample data. *)

From stdpp Require Import base gmap list strings.
From Stdlib Require Import ZArith Lia.
From S2P Require Import Prelude Bitcoin Errors ChainParams Codec Merkle Sigops Extensions Udata.
From S2P Require Import SwiftSync Consensus ChainStore ChainQuery PartialChain.
From S2P Require Import ChainState FlatStore FlatFacts FlatRefine FlatOk Sample.

(** * Codecs *)

#[export] Instance sample_header_codec : Codec BlockHeader := {|
  enc h := enc (U32 (hd_version h)) ++ enc (H32 (prev_blockhash h)) ++ enc (H32 (hd_merkle_root h))
           ++ enc (U32 (hd_time h)) ++ enc (U32 (hd_bits h)) ++ enc (U32 (hd_nonce h));
  dec r :=
    '(v, r) ← dec r; '(p, r) ← dec r; '(m, r) ← dec r; '(t, r) ← dec r; '(b, r) ← dec r;
    '(n, r) ← dec r;
    Ok (mkBlockHeader (u32_val v) (h32_val p) (h32_val m) (u32_val t) (u32_val b) (u32_val n), r)
|}.

Definition header_wf (h : BlockHeader) : Prop :=
  is_u32 (hd_version h) /\ 0 <= prev_blockhash h < 256 ^ 32 /\ 0 <= hd_merkle_root h < 256 ^ 32 /\
  is_u32 (hd_time h) /\ is_u32 (hd_bits h) /\ is_u32 (hd_nonce h).

#[export] Instance sample_header_codec_ok : CodecOk BlockHeader header_wf.
Proof.
  intros h rest (H1 & H2 & H3 & H4 & H5 & H6). unfold enc, dec, sample_header_codec.
  rewrite <-!app_assoc.
  rewrite (dec_enc (A := u32)) by exact H1. cbn [mbind outcome_bind].
  rewrite (dec_enc (A := hash32)) by exact H2. cbn [mbind outcome_bind].
  rewrite (dec_enc (A := hash32)) by exact H3. cbn [mbind outcome_bind].
  rewrite (dec_enc (A := u32)) by exact H4. cbn [mbind outcome_bind].
  rewrite (dec_enc (A := u32)) by exact H5. cbn [mbind outcome_bind].
  rewrite (dec_enc (A := u32)) by exact H6. cbn [mbind outcome_bind]. by destruct h.
Qed.

#[export] Instance sample_header_codec_len : CodecLen BlockHeader 80.
Proof.
  intros h. change (enc h) with (enc (U32 (hd_version h)) ++ enc (H32 (prev_blockhash h)) ++
    enc (H32 (hd_merkle_root h)) ++ enc (U32 (hd_time h)) ++ enc (U32 (hd_bits h)) ++
    enc (U32 (hd_nonce h))).
  rewrite !length_app, !enc_length. reflexivity.
Qed.

#[export] Instance sample_list_codec : Codec (list hash32) := {|
  enc l := enc (U8 (Z.of_nat (length l))) ++ (l ≫= enc);
  dec r := '(n, r) ← dec r; dec_many (Z.to_nat (u8_val n)) r
|}.

Definition list_wf (l : list hash32) : Prop :=
  (length l < 256)%nat /\ Forall (fun a => 0 <= h32_val a < 256 ^ 32) l.

#[export] Instance sample_list_codec_ok : CodecOk (list hash32) list_wf.
Proof.
  intros l rest [Hl Hf]. unfold enc, dec, sample_list_codec. rewrite <-app_assoc.
  rewrite (dec_enc (A := u8)) by (cbn; lia). cbn [mbind outcome_bind u8_val]. rewrite Nat2Z.id.
  by apply (dec_many_ok (fun a => 0 <= h32_val a < 256 ^ 32)).
Qed.

(** Bounds of concrete numbers. *)
Ltac within := vm_compute; repeat split; (reflexivity || discriminate).

Lemma disk_header_roundtrip_witness :
  disk_header_dec (disk_header_enc (HeadersOnly h1 1) ++ [9]) = Ok (HeadersOnly h1 1, [9]) /\
  Z.of_nat (length (disk_header_enc (HeadersOnly h1 1))) = disk_header_enc_len (HeadersOnly h1 1).
Proof. apply (disk_header_roundtrip header_wf (HeadersOnly h1 1) [9]). within. Defined.

Lemma disk_header_bad_tag_witness : disk_header_dec (enc (U8 6) ++ enc h1 ++ []) = Err INVALID_TAG.
Proof. apply (disk_header_bad_tag header_wf 6 h1 []); within. Defined.

Lemma best_chain_roundtrip_witness :
  best_chain_dec (best_chain_enc (mkBestChain 5 3 2 [4]) ++ [9]) = Ok (mkBestChain 5 3 2 [4], [9]).
Proof.
  apply (best_chain_roundtrip (mkBestChain 5 3 2 [4]) [9] list_wf); [within..|].
  split; [apply Nat.ltb_lt; reflexivity|]. apply Forall_cons. split; [within|by apply Forall_nil].
Defined.

(** * The flat-file store *)

Lemma index_tags_faithful_witness :
  (exists m f, Index.new 7 = Ok m /\ Index.new_fork 7 = Ok f /\ Index.index m = 7 /\ Index.index f = 7 /\
     Index.is_main_chain m = true /\ Index.is_main_chain f = false /\
     (Index.is_empty m = true <-> 7 = 0) /\ Index.is_empty f = false) /\
  Index.new (2 ^ 31) = Err OversizedIndex.
Proof.
  split.
  - destruct (index_tags_faithful 7) as [Hm _]; [within|]. apply Hm. lia.
  - destruct (index_tags_faithful (2 ^ 31)) as [_ Hb]; [within|]. apply Hb. lia.
Defined.

Lemma truncate_to_pow2_rounds_up_witness :
  truncate_to_pow2 (E := FlatChainstoreError) 10000000 = Ok (2 ^ Z.log2_up 10000000) /\
  10000000 <= 2 ^ Z.log2_up 10000000 < 2 * 10000000.
Proof. apply (truncate_to_pow2_rounds_up 10000000). within. Defined.

Definition fs1 : FlatChainStore := (flat_save_header (FullyValid g 0) fs0).2.
Definition fs2 : FlatChainStore := (flat_update_block_index 0 1 fs1).2.

Lemma fresh_store_represents_genesis_witness :
  flat_rep sample_entries fs2
    (mkStoreView {[block_hash g := FullyValid g 0]} {[0 := FullyValid g 0]} ∅).
Proof.
  apply (fresh_store_represents_genesis sample_entries sample_config g 16 fs0 fs1 fs2).
  - reflexivity.
  - lia.
  - vm_compute. reflexivity.
  - discriminate.
  - refine (run_ok_pair (flat_save_header (FullyValid g 0)) fs0 tt _). vm_compute. reflexivity.
  - refine (run_ok_pair (flat_update_block_index 0 1) fs1 tt _). vm_compute. reflexivity.
Defined.

(** The store of the sample chain before and after the accumulator of its
    first block was saved. *)
Definition fs3 : FlatChainStore := chainstore fc2.
Definition fs4 : FlatChainStore := (flat_save_roots [1] 1 fs3).2.

Lemma roots_roundtrip_witness : flat_load_roots 1 fs4 = Ok (Some [1]).
Proof.
  destruct (roots_roundtrip [1] 1 0 fs3 fs4) as [Hl _].
  - lia.
  - discriminate.
  - vm_compute. reflexivity.
  - vm_compute. reflexivity.
  - lia.
  - refine (run_ok_pair (flat_save_roots [1] 1) fs3 tt _). vm_compute. reflexivity.
  - exact Hl.
Defined.

(** The chain with both blocks validated and flushed, where the second one is
    connected again: the accumulator of the first one is lost. *)
Definition fd2 := (connect_block (S := FlatChainStore) b2 tt ∅ [] fc3).2.
Definition fd3 : FlatChainStore := (do_save_height (best_chain fd2) (chainstore fd2)).2.
Definition fd4 : FlatChainStore := (flat_save_header (FullyValid h2 2) fd3).2.
Definition fd5 : FlatChainStore := (flat_update_block_index 2 3 fd4).2.
Definition fd6 : FlatChainStore := (flat_save_roots [2] 2 fd5).2.

Lemma resaved_block_drops_accumulators_witness :
  f_acc_file fd3 = [1; 2] /\ f_acc_file fd6 = [2].
Proof.
  split; [vm_compute; reflexivity|].
  apply (resaved_block_drops_accumulators (FullyValid h2 2) 2 2 [2] fd3 fd4 fd5 fd6).
  - reflexivity.
  - reflexivity.
  - lia.
  - discriminate.
  - refine (run_ok_pair (flat_save_header (FullyValid h2 2)) fd3 tt _). vm_compute. reflexivity.
  - refine (run_ok_pair (flat_update_block_index 2 3) fd4 tt _). vm_compute. reflexivity.
  - vm_compute. reflexivity.
  - lia.
  - refine (run_ok_pair (flat_save_roots [2] 2) fd5 tt _). vm_compute. reflexivity.
Defined.

(** * Partial chains *)

Definition p0 : PartialChainStateInner :=
  mkPartial 0 [g; h1; h2] 0 2 None (chain_params_from Regtest) false.
Definition in1 : BlockInput := mkBlockInput b1 tt ∅ [].
Definition in2 : BlockInput := mkBlockInput b2 tt ∅ [].
Definition p2 : PartialChainStateInner := (process_all [in1; in2] p0).2.

Lemma partial_sync_correct_witness :
  current_height p2 = 2 /\ fold_acc 0 1 [in1; in2] = Ok (current_acc p2) /\
  prev_blockhash (blk_header b2) = block_hash h1.
Proof.
  destruct (partial_sync_correct [in1; in2] p0 p2) as (Eh & Ea & _ & _ & _ & Hall).
  - cbn. lia.
  - refine (run_ok_pair (process_all [in1; in2]) p0 tt _). vm_compute. reflexivity.
  - split; [exact Eh|split; [exact Ea|]]. destruct (Hall 1%nat in2 eq_refl) as [_ Hl].
    destruct Hl as (hd & Hd & E); [vm_compute; reflexivity|]. injection Hd as <-. exact E.
Defined.

(** A block that pays too much: the error is recorded. *)
Definition greedy : BlockInput := mkBlockInput (block_at 1 1 (51 * ONE_BTC)) tt ∅ [].

Lemma process_block_error_witness :
  error (process_block_input greedy p0).2 = Some BadCoinbaseOutValue.
Proof.
  apply (process_block_error greedy p0 (BlockValidation BadCoinbaseOutValue)
    (process_block_input greedy p0).2).
  assert (E : (process_block_input greedy p0).1 = Err (BlockValidation BadCoinbaseOutValue))
    by (vm_compute; reflexivity).
  rewrite <-E. apply surjective_pairing.
Defined.

(** A block whose second transaction spends an output that is not there. *)
Definition bad_txs : list Transaction :=
  [coinbase_tx 50;
   mkTransaction 2 (Blocks 0) [mkTxIn (mkOutPoint 9 0) [] u32_max []] [mkTxOut 60 [0x51]]].
Definition bad_block : Block :=
  mkBlock (mkBlockHeader 4 1 (mroot 1 (map compute_txid bad_txs)) 600 100 1) bad_txs.
Definition bad_input : BlockInput := mkBlockInput bad_block tt ∅ [].

Lemma partial_chain_accepts_invalid_transaction_witness :
  process_block_input bad_input p0 = (Ok 1, update_state 1 1 p0) /\
  has_invalid_blocks (update_state 1 1 p0) = has_invalid_blocks p0.
Proof.
  apply (partial_chain_accepts_invalid_transaction bad_input p0
    (mkTransactionError (compute_txid (mkTransaction 2 (Blocks 0)
       [mkTxIn (mkOutPoint 9 0) [] u32_max []] [mkTxOut 60 [0x51]])) (UtxoNotFound (mkOutPoint 9 0))) 1).
  - vm_compute. reflexivity.
  - within.
  - vm_compute. reflexivity.
Defined.
