(* ===== verification/SampleChain.v ===== *)
(** The theorems about the chain state applied to the sample chain, on the
    reference store and on the flat-file store. *)

From stdpp Require Import base gmap list strings.
From Stdlib Require Import ZArith Lia Sorted.
From S2P Require Import Prelude Bitcoin Errors ChainParams Codec Merkle Sigops Extensions Udata.
From S2P Require Import SwiftSync Consensus ChainStore ChainQuery PartialChain ChainState.
From S2P Require Import FlatStore FlatFacts FlatRefine FlatOk ChainShape ChainFacts ChainReorg.
From S2P Require Import ChainAccept ChainTerm ChainReach ChainWork Sample.

Abbreviation vrep := (fun (s : ViewStore) v => vs_view s = v).
Abbreviation vroom := (fun _ : ViewStore => True).

(** The sample accumulator needs no proof. *)
Abbreviation no_proof := (tt : @Proof_ sample_utreexo).

(** A concrete computation that succeeds. *)
Ltac runs m s a := refine (run_ok_pair m s a _); vm_compute; reflexivity.

(** * Runs on the reference store *)

Lemma c0_inv : chain_inv vrep c0 (genesis_view g).
Proof.
  assert (Hz : block_hash (blk_header (genesis_block Regtest)) <> 0) by (vm_compute; discriminate).
  exact (initial_inv vrep genesis_store Regtest Disabled Hz eq_refl).
Qed.

Lemma step_h1 : step vfuel vroom c0 c1.
Proof.
  apply (step_header vfuel vroom h1); [discriminate|]. runs (accept_header (S := ViewStore) vfuel h1) c0 tt.
Qed.
Lemma step_h2 : step vfuel vroom c1 c2.
Proof.
  apply (step_header vfuel vroom h2); [discriminate|]. runs (accept_header (S := ViewStore) vfuel h2) c1 tt.
Qed.
Lemma step_b1 : step vfuel vroom c2 c3.
Proof.
  apply (step_block vfuel vroom b1 no_proof ∅ [] 1); [done| |discriminate|].
  - intros d Hd. vm_compute in Hd. injection Hd as <-. reflexivity.
  - runs (connect_block (S := ViewStore) b1 no_proof ∅ []) c2 1.
Qed.
Lemma step_f2 : step vfuel vroom c3 c4.
Proof.
  apply (step_header vfuel vroom f2); [discriminate|]. runs (accept_header (S := ViewStore) vfuel f2) c3 tt.
Qed.

Lemma run_c2 : run vfuel vroom c0 c2.
Proof. eapply run_step; [eapply run_step; [apply run_refl|apply step_h1]|apply step_h2]. Qed.
Lemma run_c4 : run vfuel vroom c0 c4.
Proof. eapply run_step; [eapply run_step; [apply run_c2|apply step_b1]|apply step_f2]. Qed.

(** The reference store is its view. *)
Lemma view_inv c : run vfuel vroom c0 c -> chain_inv vrep c (vs_view (chainstore c)).
Proof.
  intros Hr. destruct (run_inv vfuel vrep vroom c0 c _ c0_inv Hr) as [v Hi].
  pose proof (ci_rep _ _ _ Hi) as E. cbn in E. by rewrite E.
Qed.

Lemma connect_block_correct_witness :
  exists v' vi, chain_inv vrep c3 v' /\ validated_to c2 (vs_view (chainstore c2)) vi /\
    validated_to c3 v' 1 /\ (1 = vi + 1 \/ 1 = vi).
Proof.
  destruct (connect_block_correct vrep vroom b1 no_proof ∅ [] c2 (vs_view (chainstore c2)) 1 c3)
    as (v' & vi & Hi & Hv & Hv' & Hn & _).
  - exact (view_inv c2 run_c2).
  - exact I.
  - intros d Hd. vm_compute in Hd. injection Hd as <-. reflexivity.
  - vm_compute. discriminate.
  - runs (connect_block (S := ViewStore) b1 no_proof ∅ []) c2 1.
  - exists v', vi. auto.
Defined.

(** The second block before the first one. *)
Definition c_rejected := (connect_block (S := ViewStore) b2 no_proof ∅ [] c2).2.

Lemma rejected_block_no_effect_witness : c_rejected = c2.
Proof.
  apply (rejected_block_no_effect b2 no_proof ∅ [] c2 (BlockValidation BlockDoesntExtendTip) c_rejected).
  - reflexivity.
  - assert (E : (connect_block (S := ViewStore) b2 no_proof ∅ [] c2).1
                = Err (BlockValidation BlockDoesntExtendTip)) by (vm_compute; reflexivity).
    rewrite <-E. apply surjective_pairing.
Defined.

(** The header [f3] gives its branch more work than the best chain has. *)
Lemma accept_header_correct_witness :
  exists vi, accepted vrep c4 (vs_view (chainstore c4)) vi f3 c5 /\
    best_block (best_chain c4) = block_hash h2 /\ best_block (best_chain c5) = block_hash f3.
Proof.
  destruct (ci_valid _ _ _ (view_inv c4 run_c4)) as [vi Hvt]. exists vi. split.
  - apply (accept_header_correct vrep vroom vfuel c4 (vs_view (chainstore c4)) vi f3 c5).
    + exact (view_inv c4 run_c4).
    + exact Hvt.
    + discriminate.
    + runs (accept_header (S := ViewStore) vfuel f3) c4 tt.
  - vm_compute. split; reflexivity.
Defined.

(** A header with too large a target. *)
Definition f3_bad : BlockHeader := mkBlockHeader 4 4 0 0 99 7.
Definition c_bad := (accept_header (S := ViewStore) vfuel f3_bad c4).2.

Lemma accept_header_total_witness :
  exists vi, ends (accept_header (S := ViewStore) vfuel f3_bad c4).1 /\
    exists s', c_bad = set_store s' c4 /\ chain_inv vrep c_bad (vs_view (chainstore c4)) /\
      validated_to c_bad (vs_view (chainstore c4)) vi.
Proof.
  destruct (ci_valid _ _ _ (view_inv c4 run_c4)) as [vi Hvt]. exists vi.
  destruct (accept_header_total vrep vroom vfuel c4 (vs_view (chainstore c4)) vi f3_bad
    (accept_header (S := ViewStore) vfuel f3_bad c4).1 c_bad) as [He Herr].
  - exact (view_inv c4 run_c4).
  - exact Hvt.
  - discriminate.
  - intros h d n Hd Hn.
    assert (Hall : map_Forall (fun _ d => match dh_height d with Some n => n + 1 <? 10 | None => true end = true)
              (v_headers (vs_view (chainstore c4)))).
    { apply (bool_decide_unpack _). vm_compute. exact I. }
    specialize (Hall h d Hd). cbn in Hall. rewrite Hn in Hall. apply Z.ltb_lt in Hall. exact Hall.
  - apply surjective_pairing.
  - split; [exact He|].
    destruct (Herr (BlockValidation BadDiffBits)) as [Hok|[Hdb _]]; [vm_compute; reflexivity| |].
    + exact Hok.
    + discriminate Hdb.
Defined.

Lemma run_keeps_chain_readable_witness : readable c4.
Proof.
  apply (run_keeps_chain_readable vfuel vrep vroom genesis_store Regtest Disabled c4).
  - vm_compute. discriminate.
  - reflexivity.
  - exact run_c4.
Defined.

Lemma get_branch_work_exact_witness :
  get_branch_work c2 h2 = Ok (chain_work (vs_view (chainstore c2)) 2) /\
  chain_work (vs_view (chainstore c2)) 2 = 3.
Proof.
  split; [|vm_compute; reflexivity].
  apply (get_branch_work_exact vrep vroom c2 (vs_view (chainstore c2)) h2 (HeadersOnly h2 2) 2).
  - exact (view_inv c2 run_c2).
  - vm_compute. reflexivity.
  - reflexivity.
  - reflexivity.
  - vm_compute. discriminate.
  - intros m. unfold slot_work. destruct (v_slots _ !! m); cbn; lia.
  - intros m Hm. assert (m = 0 \/ m = 1 \/ m = 2) as [-> | [-> | ->]] by lia; vm_compute; reflexivity.
  - vm_compute. reflexivity.
Defined.

Lemma block_locator_correct_witness :
  exists hashes, get_block_locator c4 = Ok hashes /\ head hashes = Some (block_hash h2) /\
    last hashes = Some (block_hash g).
Proof.
  destruct (block_locator_correct vrep vroom c4 (vs_view (chainstore c4)))
    as (heights & hashes & _ & El & _ & _ & _ & _ & Hh & Hl).
  - exact (view_inv c4 run_c4).
  - vm_compute. discriminate.
  - exists hashes. split; [exact El|split; [exact Hh|exact Hl]].
Defined.

(** * A run on the flat-file store *)

Lemma flat_step_h1 : step vfuel flat_room fc0 fc1.
Proof.
  apply (step_header vfuel flat_room h1); [discriminate|].
  runs (accept_header (S := FlatChainStore) vfuel h1) fc0 tt.
Qed.
Lemma flat_step_h2 : step vfuel flat_room fc1 fc2.
Proof.
  apply (step_header vfuel flat_room h2); [discriminate|].
  runs (accept_header (S := FlatChainStore) vfuel h2) fc1 tt.
Qed.
Lemma flat_step_b1 : step vfuel flat_room fc2 fc3.
Proof.
  apply (step_block vfuel flat_room b1 no_proof ∅ [] 1);
    [vm_compute; reflexivity| |vm_compute; discriminate|].
  - intros d Hd. vm_compute in Hd. injection Hd as <-. reflexivity.
  - runs (connect_block (S := FlatChainStore) b1 no_proof ∅ []) fc2 1.
Qed.
Lemma flat_step_f2 : step vfuel flat_room fc3 fc4.
Proof.
  apply (step_header vfuel flat_room f2); [discriminate|].
  runs (accept_header (S := FlatChainStore) vfuel f2) fc3 tt.
Qed.
Lemma flat_step_f3 : step vfuel flat_room fc4 fc5.
Proof.
  apply (step_header vfuel flat_room f3); [discriminate|].
  runs (accept_header (S := FlatChainStore) vfuel f3) fc4 tt.
Qed.

Lemma flat_run3 : run vfuel flat_room fc0 fc3.
Proof.
  apply (run_step vfuel flat_room fc0 fc2); [|exact flat_step_b1].
  apply (run_step vfuel flat_room fc0 fc1); [|exact flat_step_h2].
  apply (run_step vfuel flat_room fc0 fc0); [apply run_refl|exact flat_step_h1].
Qed.
Lemma flat_run : run vfuel flat_room fc0 fc5.
Proof.
  apply (run_step vfuel flat_room fc0 fc4); [|exact flat_step_f3].
  apply (run_step vfuel flat_room fc0 fc3); [exact flat_run3|exact flat_step_f2].
Qed.
Lemma fc3_inv : exists v, flat_rep sample_entries (chainstore fc3) v.
Proof.
  destruct (flat_run_inv vfuel sample_entries sample_config 16 fs0 Regtest Disabled fc0 fc3) as [v Hv].
  - reflexivity.
  - lia.
  - vm_compute. discriminate.
  - vm_compute. reflexivity.
  - vm_compute. reflexivity.
  - exact flat_run3.
  - exists v. exact (ci_rep _ _ _ Hv).
Qed.

Lemma flat_node_stays_readable_witness :
  readable fc5 /\ best_block (best_chain fc5) = block_hash f3.
Proof.
  split; [|vm_compute; reflexivity].
  apply (flat_node_stays_readable vfuel sample_entries sample_config 16 fs0 Regtest Disabled fc0 fc5).
  - reflexivity.
  - lia.
  - vm_compute. discriminate.
  - vm_compute. reflexivity.
  - vm_compute. reflexivity.
  - exact flat_run.
Defined.

(** The interface of the store, for this cache, and a best chain written and
    read back. *)
Lemma flat_store_implements_interface_witness :
  ChainStoreOk FlatChainStore FlatChainstoreError (flat_rep sample_entries) flat_room /\
  exists tips, flat_load_height (do_save_height (mkBestChain 3 2 2 []) (chainstore fc3)).2 = Ok (Some (mkBestChain 3 2 2 tips)).
Proof.
  destruct (flat_store_implements_interface sample_entries) as (Hok & _ & Hbest). split; [exact Hok|].
  destruct fc3_inv as [v Hv].
  destruct (Hbest (chainstore fc3) v (mkBestChain 3 2 2 []) (do_save_height (mkBestChain 3 2 2 []) (chainstore fc3)).2 Hv eq_refl) as [_ Hl].
  destruct (flat_load_height (do_save_height (mkBestChain 3 2 2 []) (chainstore fc3)).2) as [o| | |] eqn:E; [|vm_compute in E; discriminate E..].
  destruct (Hl o eq_refl) as (tips & _ & ->). exists tips. reflexivity.
Defined.
