(* ===== verification/SampleNode.v ===== *)
(** The theorems about the mempool, the filter store, the accumulator updater
    and proof requests applied to sample data. *)

From stdpp Require Import base gmap list strings sorting.
From Stdlib Require Import ZArith Lia.
From S2P Require Import Prelude Bitcoin Errors ChainParams Codec Merkle Sigops Extensions Udata.
From S2P Require Import SwiftSync Consensus Mempool MempoolFacts Filters StumpUpdater.
From S2P Require Import StumpUpdater BlockProof ChainStore ChainQuery PartialChain ChainState FlatStore.
From S2P Require Import Sample.

(** * Mempool *)

#[export] Instance sample_mempool : MempoolLib := {|
  total_size _ := 100;
  weight _ := 400;
  compute_merkle_root txs := Some (poly (map compute_txid txs));
  hash_one seeds txid := seed_a seeds + txid
|}.
#[export] Instance sample_mempool_ok : MempoolLibOk.
Proof. split; intros; cbn; lia. Qed.

Definition spending (version txid vout value : Z) : Transaction :=
  mkTransaction version (Blocks 0) [mkTxIn (mkOutPoint txid vout) [] u32_max []] [mkTxOut value [0x51]].

(** A parent, its child, and a transaction in conflict with the parent. *)
Definition parent_tx : Transaction := spending 1 77 0 50.
Definition child_tx : Transaction := spending 1 (compute_txid parent_tx) 0 40.
Definition rival_tx : Transaction := spending 2 77 0 45.

Definition m0 : Mempool := mempool_new 1 2 3 4 1000.
Definition m1 : Mempool := (accept_to_mempool 0 parent_tx m0).2.
Definition m2 : Mempool := (accept_to_mempool 0 child_tx m1).2.

Lemma m2_run : rtc mempool_step m0 m2.
Proof.
  apply (rtc_l _ _ m1).
  { apply (step_accept m0 0 parent_tx (accept_to_mempool 0 parent_tx m0).1); [vm_compute; discriminate|].
    apply surjective_pairing. }
  apply (rtc_l _ _ m2); [|apply rtc_refl].
  apply (step_accept m1 0 child_tx (accept_to_mempool 0 child_tx m1).1); [vm_compute; discriminate|].
  apply surjective_pairing.
Qed.

Lemma mempool_reachable_inv_witness : mempool_inv m2.
Proof. apply (mempool_reachable_inv 1 2 3 4 1000 m2); [lia|exact m2_run]. Defined.

Lemma m1_inv : mempool_inv m1.
Proof.
  apply (mempool_step_inv m0).
  - split; cbn; try done. exists (fun _ => 0%nat). by split.
  - apply (step_accept m0 0 parent_tx (accept_to_mempool 0 parent_tx m0).1); [vm_compute; discriminate|].
    apply surjective_pairing.
Qed.
Lemma m2_inv : mempool_inv m2.
Proof.
  apply (mempool_step_inv m1 _ m1_inv).
  apply (step_accept m1 0 child_tx (accept_to_mempool 0 child_tx m1).1); [vm_compute; discriminate|].
  apply surjective_pairing.
Qed.


Lemma consume_block_correct_witness :
  exists m', consume_block (E := unit) (mkBlock g [parent_tx]) m2 = (Ok [compute_txid parent_tx], m') /\
    mempool_inv m' /\ pool m' = delete (short_of m2 parent_tx) (pool m2).
Proof. apply (consume_block_correct (E := unit) m2 (mkBlock g [parent_tx]) m2_inv). Defined.

(** The entries in the order child, parent. *)
Definition parent_entry : MempoolTransaction :=
  mkMempoolTx parent_tx 0 [] [short_of m1 child_tx].
Definition child_entry : MempoolTransaction := mkMempoolTx child_tx 0 [short_of m1 parent_tx] [].

Lemma sample_visit : visit m2 [child_entry; parent_entry].
Proof.
  unfold visit.
  assert (E : (map_to_list (transactions m2)).*2 = [child_entry; parent_entry] \/
              (map_to_list (transactions m2)).*2 = [parent_entry; child_entry])
    by (vm_compute; first [left; reflexivity|right; reflexivity]).
  destruct E as [-> | ->]; [done|apply Permutation_swap].
Qed.

Lemma block_template_correct_witness :
  exists b, get_block_template (E := unit) 3 m2 [child_entry; parent_entry] 4 1 600 100 1000 = Ok b /\
    good_template m2 (txdata b) /\ txdata b ≡ₚ [child_tx; parent_tx].
Proof.
  destruct (block_template_correct (E := unit) 3 m2 [child_entry; parent_entry] 4 1 600 100 1000)
    as (b & Eb & _ & Hg & Hall & _).
  - exact m2_inv.
  - exact sample_visit.
  - vm_compute. repeat constructor.
  - lia.
  - intros t _. vm_compute. discriminate.
  - exists b. split; [exact Eb|]. split; [exact Hg|]. apply Hall. vm_compute. discriminate.
Defined.

Lemma template_ignores_parent_weight_witness :
  exists b, get_block_template (E := unit) 3 m2 [child_entry; parent_entry] 4 1 600 100 500 = Ok b /\
    txdata b = [parent_tx; child_tx] /\ 500 < sum_Z weight (txdata b).
Proof.
  apply (template_ignores_parent_weight (E := unit) 0 m2 parent_entry child_entry 4 1 600 100 500);
    first [vm_compute; reflexivity|vm_compute; discriminate].
Defined.

Lemma confirmed_conflict_accepted_witness :
  (accept_to_mempool 0 rival_tx m1).1 = Ok tt /\
  pool (accept_to_mempool 0 rival_tx m1).2 !! short_of m1 rival_tx = Some rival_tx /\
  pool (accept_to_mempool 0 rival_tx m1).2 !! short_of m1 parent_tx = Some parent_tx /\
  short_of m1 rival_tx <> short_of m1 parent_tx.
Proof.
  apply (confirmed_conflict_accepted m1 0 rival_tx parent_tx (short_of m1 parent_tx) (mkOutPoint 77 0)
    (accept_to_mempool 0 rival_tx m1).2 45).
  - exact m1_inv.
  - vm_compute. discriminate.
  - vm_compute. discriminate.
  - vm_compute. reflexivity.
  - vm_compute. reflexivity.
  - vm_compute. reflexivity.
  - left.
  - left.
  - intros o [->|Ho]%elem_of_cons; [vm_compute; reflexivity|by apply not_elem_of_nil in Ho].
  - reflexivity.
Defined.

(** * Compact filters *)

(** A store with filters at heights 999, 1000 and 1001. *)
Definition fs0 : FlatFiltersStore :=
  match filters_open [] [] with Ok s => network_filters_new s | _ => mkFiltersStore [] [] end.
Definition fs1 : FlatFiltersStore := (put_filter [1; 2] 999 fs0).2.
Definition fs2 : FlatFiltersStore := (put_filter [3] 1000 fs1).2.
Definition fs3 : FlatFiltersStore := (put_filter [4; 5; 6] 1001 fs2).2.
Definition sample_recs : list (Z * list Z) := [(999, [1; 2]); (1000, [3]); (1001, [4; 5; 6])].

Lemma rec_fits h c : 0 <= h <= 10000 -> (length c <= 10)%nat -> rec_ok (h, c).
Proof. split; cbn; unfold is_u32, u32_max, MAX_FILTER_SIZE; lia. Qed.

Lemma fs0_run : filters_run fs0 [].
Proof. by apply (run_new (mkFiltersStore [] (le_bytes 8 HEADER_SIZE))). Qed.

Lemma fs3_run : filters_run fs3 sample_recs.
Proof.
  apply (run_put fs2 [(999, [1; 2]); (1000, [3])] 1001 [4; 5; 6]);
    [|apply rec_fits; cbn; lia|repeat constructor|vm_compute; reflexivity|vm_compute; reflexivity].
  apply (run_put fs1 [(999, [1; 2])] 1000 [3]);
    [|apply rec_fits; cbn; lia|repeat constructor|vm_compute; reflexivity|vm_compute; reflexivity].
  apply (run_put fs0 [] 999 [1; 2] fs1 fs0_run);
    [apply rec_fits; cbn; lia|constructor|vm_compute; reflexivity|vm_compute; reflexivity].
Qed.

Lemma small_u32 z : 0 <= z <= 10000 -> is_u32 z.
Proof. unfold is_u32, u32_max. lia. Qed.

Lemma filters_iter_correct_witness :
  exists r, filters_iter (Some 1000) fs3 = Ok r /\
    filters_collect (S (length r)) r = Ok [(1000, [3]); (1001, [4; 5; 6])].
Proof. apply (filters_iter_correct fs3 sample_recs 1000 fs3_run); [apply small_u32; lia|]. repeat constructor. Defined.

(** Every block is known; the filters that start with an odd byte match. *)
Definition hash_at (h : Z) : option Z := Some (7000 + h).
Definition odd_match (content : list Z) (_ : Z) : option bool := Some (Z.odd (nth 0 content 0)).

Lemma rescan_correct_witness :
  match_any hash_at odd_match (Some 999) (Some 1000) fs3 = Ok [7999; 8000].
Proof.
  apply (rescan_correct hash_at odd_match fs3 sample_recs 999 (Some 1000)).
  - exact fs3_run.
  - apply small_u32. lia.
  - repeat constructor; eexists _, _; by split.
  - repeat constructor.
  - intros h [= <-]. split; [lia|]. left. exists (1000, [3]). split; [right; left|done].
Defined.

Lemma index_rebuild_correct_witness :
  exists s', filters_open (f_file fs3) [] = Ok s' /\ f_file s' = f_file fs3 /\
    filters_iter (Some 1001) s' = filters_iter (Some 1001) fs3.
Proof.
  eexists. split; [vm_compute; reflexivity|].
  apply (index_rebuild_correct fs3 sample_recs _ 1001 fs3_run); [vm_compute; reflexivity|].
  apply small_u32. lia.
Defined.

(** * The accumulator updater *)

(** An accumulator that keeps the additions in the order it receives them. *)
Definition log_utreexo : UtreexoLib := {|
  Stump := list NodeHash;
  Proof_ := unit;
  StumpError := unit;
  stump_new := [];
  stump_modify a adds _ _ := inr (a ++ adds);
  stump_verify _ _ _ := inr true;
  stump_roots a := a;
  stump_serialize _ := inr [];
  stump_deserialize _ := inl tt
|}.
Definition log_proof : @ProofDefault log_utreexo := {| proof_default := tt : @Proof_ log_utreexo |}.
Definition log_acc : @Stump log_utreexo := [SomeHash 9].

Lemma sparse_adds_roundtrip_witness :
  exists s, sparse_new (E := unit) [SomeHash 5; EmptyHash; SomeHash 6] = Ok s /\
    into_dense (E := unit) s = Ok [SomeHash 5; EmptyHash; SomeHash 6] /\ utxo_count s = 2.
Proof.
  apply (sparse_adds_roundtrip (E := unit) [SomeHash 5; EmptyHash; SomeHash 6]).
  unfold u32_max. cbn. lia.
Defined.

(** The additions of three blocks, sent in the order 3, 1, 2. *)
Definition adds_at (h : Z) : list NodeHash := [SomeHash h; EmptyHash].
Definition sparse_at (h : Z) : SparseUtreexoAdds := mkSparse 2 [(0, SomeHash h)].
Definition sample_msgs : list (Z * SparseUtreexoAdds) := [(3, sparse_at 3); (1, sparse_at 1); (2, sparse_at 2)].

Lemma updater_order_independent_witness :
  @run_updater log_utreexo log_proof unit log_acc 0 3 sample_msgs =
    Ok (Some [SomeHash 9; SomeHash 1; EmptyHash; SomeHash 2; EmptyHash; SomeHash 3; EmptyHash]) /\
  @run_updater log_utreexo log_proof unit log_acc 0 4 sample_msgs = Ok None.
Proof.
  assert (Hm : forall stop h s, 3 <= stop -> (h, s) ∈ sample_msgs ->
            0 < h <= stop /\ into_dense (E := unit) s = Ok (adds_at h)).
  { intros stop h s Hs Hin. repeat (apply elem_of_cons in Hin as [[= -> ->]|Hin]; [split; [lia|done]|]).
    by apply not_elem_of_nil in Hin. }
  split.
  - refine (proj1 (@updater_order_independent log_utreexo log_proof unit log_acc 0 3 adds_at sample_msgs _ _ _ _ _ _) _).
    + intros a adds. by eexists.
    + lia.
    + unfold u32_max. lia.
    + by apply (bool_decide_unpack _).
    + intros h s. apply Hm. lia.
    + vm_compute. discriminate.
    + by apply (bool_decide_unpack _).
  - refine (proj2 (@updater_order_independent log_utreexo log_proof unit log_acc 0 4 adds_at sample_msgs _ _ _ _ _ _) 4 _ _).
    + intros a adds. by eexists.
    + lia.
    + unfold u32_max. lia.
    + by apply (bool_decide_unpack _).
    + intros h s. apply Hm. lia.
    + vm_compute. discriminate.
    + lia.
    + by apply (bool_decide_unpack _).
Defined.

(** * Proof requests *)

Lemma bitmap_holds_requests_witness :
  exists b, fold_loop (E := unit) push_input bitmap_new
      [true; false; true; false; false; false; false; false; true] = Ok b /\
    bitmap_of b [true; false; true; false; false; false; false; false; true].
Proof. apply (bitmap_holds_requests (E := unit)). unfold u32_max. cbn. lia. Defined.

(** Lengths of four bytes and variable-length integers of eight. *)
#[export] Instance sample_vec_codec : Codec (list Z) := {|
  enc l := enc (U32 (Z.of_nat (length l))) ++ l;
  dec r := '(n, r) ← dec r; take_bytes (Z.to_nat (u32_val n)) r
|}.
#[export] Instance sample_vec_codec_ok : CodecOk (list Z) is_vec.
Proof.
  intros l rest [Hl _]. unfold enc at 1, dec at 1, sample_vec_codec. rewrite <-app_assoc.
  rewrite (dec_enc (A := u32)) by (unfold is_u32, u32_max; cbn; lia). cbn [mbind outcome_bind u32_val].
  rewrite Nat2Z.id. unfold take_bytes. rewrite (proj2 (Nat.leb_le _ _)) by (rewrite length_app; lia).
  by rewrite take_app_length, drop_app_length.
Qed.
#[export] Instance sample_varint_codec : Codec varint := {|
  enc v := enc (U64 (varint_val v));
  dec r := '(n, r) ← dec r; Ok (VarInt (u64_val n), r)
|}.
#[export] Instance sample_varint_codec_ok : CodecOk varint (fun v => is_u64 (varint_val v)).
Proof.
  intros [n] rest Hn. unfold enc at 1, dec at 1, sample_varint_codec.
  by rewrite (dec_enc (A := u64)) by exact Hn.
Qed.

Lemma utreexo_proof_decoded_witness :
  utreexo_proof_dec (utreexo_proof_wire 3 [4; 5] [0; 1] [mkCompactLeafData 7 50 PubKeyHash] ++ [9]) =
    Ok (mkUtreexoProof 3 [SomeHash 4; SomeHash 5] [0; 1] [mkCompactLeafData 7 50 PubKeyHash], [9]).
Proof.
  apply (utreexo_proof_decoded 3 [4; 5] [0; 1] [mkCompactLeafData 7 50 PubKeyHash] [9]).
  all: repeat constructor; vm_compute; discriminate.
Defined.
