(* ===== verification/SampleWallet.v ===== *)
(** The theorems about the watch-only wallet applied to a sample wallet with
    one descriptor, over the in-memory database. *)

From stdpp Require Import base gmap list strings.
From Stdlib Require Import ZArith Lia Sorted.
From S2P Require Import Prelude Bitcoin Errors ChainParams Codec Merkle Descriptors Wallet WalletDb.
From S2P Require Import WalletFacts WalletTx WalletBlocks WalletRuns Sample.

#[export] Instance sample_sha256 : Sha256Lib := {| sha256 := poly |}.

(** One kind of descriptor, whose script at an index has the index in it. *)
#[export] Instance sample_descriptor : DescriptorLib := {|
  base58_decode_check _ := inl EmptyString;
  Xpub := unit;
  xpub_decode _ := inr tt;
  xpub_to_string _ := EmptyString;
  Descriptor := string;
  descriptor_from_str s := if String.eqb s "bad" then inl s else inr s;
  descriptor_to_string d := d;
  sanity_check _ := inr tt;
  into_single_descriptors d := inr [d];
  descriptor_has_wildcard _ := true;
  at_derivation_index _ i := inr [0x51; i]
|}.

Definition w0 : AddressCacheInner MemoryDatabase :=
  match inner_new (E := unit) memory_new with Ok w => w | _ => mkInner memory_new ∅ ∅ ∅ ∅ end.
Definition w1 : AddressCacheInner MemoryDatabase := (push_descriptor "wpkh" w0).2.

(** A payment to the script at index 85, beyond which 20 indices are not
    derived yet, and its spend in the same block. *)
Definition paid_script : Script := [0x51; 85].
Definition paid_hash : Z := get_spk_hash paid_script.
Definition pay_tx : Transaction :=
  mkTransaction 1 (Blocks 0) [mkTxIn (mkOutPoint 7 0) [] u32_max []] [mkTxOut 50 paid_script; mkTxOut 30 paid_script].
Definition spend_tx : Transaction :=
  mkTransaction 2 (Blocks 0) [mkTxIn (mkOutPoint (compute_txid pay_tx) 0) [] u32_max []] [mkTxOut 40 [1; 2; 3]].
Definition pay_block : Block := mkBlock (header_at 0 1 50) [pay_tx; spend_tx].

Definition w2 : AddressCacheInner MemoryDatabase := (block_process (E := unit) pay_block 1 w1).2.
(** The payment while it is unconfirmed. *)
Definition w1m : AddressCacheInner MemoryDatabase := (cache_mempool_transaction (E := unit) pay_tx w1).2.

Lemma w0_new : inner_new (E := unit) memory_new = Ok w0.
Proof. vm_compute. reflexivity. Qed.

Lemma w1_step : wallet_step w0 w1.
Proof. apply (step_descriptor w0 "wpkh" (push_descriptor "wpkh" w0).1), surjective_pairing. Qed.

Lemma w0_ok : wallet_ok w0.
Proof.
  destruct (reopen_ok memory_new (memory_view memory_new)) as (w & E1 & Hok).
  - reflexivity.
  - split; cbn; [by intros h a ?%lookup_empty_Some|by intros x t ?%lookup_empty_Some].
  - done.
  - split; [done|constructor].
  - done.
  - rewrite w0_new in E1. injection E1 as <-. exact Hok.
Qed.

Abbreviation view w := (memory_view (database w)).

Lemma w1_inv : wallet_inv w1 (view w1) /\ desc_inv w1 (view w1).
Proof.
  destruct (wallet_step_ok w0 w1 w0_ok w1_step) as (v & Hi & Hd). pose proof (wi_db _ _ Hi) as E. cbn in E. by subst v.
Qed.

Lemma w1_horizon : horizon (view w1) = 100.
Proof. vm_compute. reflexivity. Qed.
Lemma w1_utxos : utxo_index w1 = ∅.
Proof. vm_compute. reflexivity. Qed.
Lemma w1_transactions : v_transactions (view w1) = ∅.
Proof. vm_compute. reflexivity. Qed.

Lemma w1_capped : capped w1 0.
Proof.
  intros h a Ha. rewrite (ao_balance _ _ _ (wi_address _ _ (proj1 w1_inv) h a Ha)).
  destruct (ca_utxos a) as [|o l] eqn:Eu; [done|]. exfalso.
  assert (utxo_index w1 !! o = Some h) as Hx.
  { apply (wi_index _ _ (proj1 w1_inv)). exists a. rewrite Eu. split; [done|by left]. }
  rewrite w1_utxos in Hx. by apply lookup_empty_Some in Hx.
Qed.

Lemma pay_block_fits : block_fits w1 (view w1) (txdata pay_block) 0.
Proof.
  split.
  - intros tx o k _. rewrite w1_utxos. by intros ?%lookup_empty_Some.
  - apply (bool_decide_unpack _). vm_compute. exact I.
  - intros tx _ t. rewrite w1_transactions. by intros ?%lookup_empty_Some.
  - apply Forall_forall. repeat constructor; done.
  - apply Forall_forall. repeat constructor; done.
  - split_and!; [done|exact w1_capped|by vm_compute].
  - rewrite w1_horizon. by vm_compute.
Qed.

(** The wallet after the block holds the second output of the payment. *)
Lemma block_process_exact_witness :
  exists w' v' l, block_process (E := unit) pay_block 1 w1 = (Ok l, w') /\ wallet_inv w' v' /\
    forall h, h ∈ script_set w1 -> exists a,
      address_map w' !! h = Some a /\
      list_to_set (ca_utxos a) = foldl (ledger_tx h) (owned h (utxo_index w1)) (txdata pay_block) /\
      NoDup (ca_utxos a) /\ ca_balance a = sum_Z (coin_value v') (ca_utxos a).
Proof.
  apply (block_process_exact pay_block 1 w1 (view w1) 0).
  - apply w1_inv.
  - lia.
  - apply pay_block_fits.
Defined.

Lemma w2_balance : get_address_balance paid_hash w2 = Some 30.
Proof. vm_compute. reflexivity. Qed.

Lemma w2_step : wallet_step w1 w2.
Proof.
  destruct (block_process (E := unit) pay_block 1 w1) as [[l| | |] w] eqn:E;
    [|exfalso; assert ((block_process (E := unit) pay_block 1 w1).1 = Ok [(pay_tx, mkTxOut 50 paid_script); (pay_tx, mkTxOut 30 paid_script)])
       as Hx by (vm_compute; reflexivity); rewrite E in Hx; discriminate Hx..].
  assert (w = w2) as -> by (unfold w2; by rewrite E).
  apply (step_block w1 pay_block 1 0 l w2); [lia| |done]. intros v Hv. cbn in Hv. subst v. exact pay_block_fits.
Qed.


Lemma gap_limit_kept_witness :
  exists w' v', maybe_derive_addresses (E := unit) paid_hash w1 = (Ok tt, w') /\ wallet_inv w' v' /\
    85 + GAP_LIMIT < horizon v' /\ v_descriptors v' = v_descriptors (view w1) /\
    Forall (range_tracked w' INDEX_INITIAL (horizon v')) (v_descriptors v').
Proof.
  apply (gap_limit_kept w1 (view w1) paid_hash 85).
  - apply w1_inv.
  - apply w1_inv.
  - vm_compute. reflexivity.
  - vm_compute. reflexivity.
  - vm_compute. discriminate.
  - replace (v_descriptors (view w1)) with ["wpkh"%string] by (vm_compute; reflexivity). constructor; [|constructor].
    vm_compute. eexists. reflexivity.
Defined.

Lemma pay_tx_new : same_outputs (view w1) pay_tx.
Proof. intros t. rewrite w1_transactions. by intros ?%lookup_empty_Some. Qed.
Lemma pay_tx_horizon : horizon (view w1) +
  DERIVATION_COUNT * (Z.of_nat (length (tx_input pay_tx) + length (tx_output pay_tx)) + 2) <= u32_max.
Proof. rewrite w1_horizon. by vm_compute. Qed.

(** The unconfirmed payment is in the history of its address; confirming its
    first output does not reach the database. *)
Lemma w1m_step : wallet_step w1 w1m.
Proof.
  destruct (cache_mempool_transaction (E := unit) pay_tx w1) as [[l| | |] w] eqn:E;
    [|exfalso; assert ((cache_mempool_transaction (E := unit) pay_tx w1).1 = Ok [mkTxOut 50 paid_script; mkTxOut 30 paid_script])
       as Hx by (vm_compute; reflexivity); rewrite E in Hx; discriminate Hx..].
  assert (w = w1m) as -> by (unfold w1m; by rewrite E).
  apply (step_mempool w1 pay_tx l w1m); [|done]. intros v Hv. cbn in Hv. subst v.
  exact (conj pay_tx_new pay_tx_horizon).
Qed.

Lemma w1m_inv : wallet_inv w1m (view w1m) /\ desc_inv w1m (view w1m).
Proof.
  destruct (wallet_step_ok w1 w1m (ex_intro _ _ w1_inv) w1m_step) as (v & Hi & Hd).
  pose proof (wi_db _ _ Hi) as E. cbn in E. by subst v.
Qed.

Definition seen_address : CachedAddress := mkCachedAddress paid_hash 0 paid_script [compute_txid pay_tx] [].

Lemma known_transaction_not_persisted_witness :
  exists u1 u2,
    cache_transaction (E := unit) pay_tx 1 50 merkle_proof_default 0 0 false paid_hash w1m = (Ok tt, u1) /\
    get_address_balance paid_hash u1 = Some 50 /\
    inner_new (E := unit) (database u1) = Ok u2 /\ get_address_balance paid_hash u2 = Some 0.
Proof.
  apply (known_transaction_not_persisted w1m (view w1m) pay_tx 1 merkle_proof_default 0 0 (mkTxOut 50 paid_script) seen_address).
  - apply w1m_inv.
  - apply w1m_inv.
  - vm_compute. discriminate.
  - intros t Ht. vm_compute in Ht. injection Ht as <-. reflexivity.
  - lia.
  - vm_compute. reflexivity.
  - vm_compute. reflexivity.
  - apply list_elem_of_singleton. reflexivity.
  - vm_compute. discriminate.
Defined.

Lemma get_address_history_ordered_witness :
  exists confirmed unconfirmed, get_address_history paid_hash w1m = Some (confirmed ++ unconfirmed) /\
    map (fun t => compute_txid (ct_tx t)) (confirmed ++ unconfirmed) ≡ₚ ca_transactions seen_address /\
    NoDup (map (fun t => compute_txid (ct_tx t)) (confirmed ++ unconfirmed)) /\
    StronglySorted tx_le confirmed /\
    Forall (fun t => ct_height t <> 0) confirmed /\ Forall (fun t => ct_height t = 0) unconfirmed.
Proof.
  apply (get_address_history_ordered w1m (view w1m) paid_hash seen_address).
  - apply w1m_inv.
  - vm_compute. reflexivity.
Defined.
