(* ===== verification/SampleNet.v ===== *)
(** Concrete addresses and managers at which the theorems on addresses and on
    the address manager apply. *)

From stdpp Require Import base gmap list strings countable fin_maps.
From Stdlib Require Import ZArith Lia.
From S2P Require Import Prelude Bitcoin Codec Text Onion SocketAddr AddressMan AddressManFacts AddressManRuns AddressManReach.

(** * Libraries *)

(** A hash with 32 bytes. *)
Definition sum_hash (l : list Z) : list Z := (foldr Z.add 0 l mod 256) :: repeat 7 31.
#[local] Program Instance sample_sha3 : Sha3Lib := {| sha3_256 := sum_hash |}.
Next Obligation. done. Qed.
Next Obligation.
  intros l. constructor; [|by repeat constructor]. unfold is_byte.
  pose proof (Z.mod_pos_bound (foldr Z.add 0 l) 256). lia.
Qed.

(** Lists of stored addresses as one number. *)
Definition state_code (s : AddressState) : (unit + unit) + (Z + (Z + Z)) :=
  match s with
  | NeverTried => inl (inl tt)
  | Connected => inl (inr tt)
  | Tried t => inr (inl t)
  | Banned t => inr (inr (inl t))
  | Failed t => inr (inr (inr t))
  end.
Definition code_state (x : (unit + unit) + (Z + (Z + Z))) : AddressState :=
  match x with
  | inl (inl _) => NeverTried
  | inl (inr _) => Connected
  | inr (inl t) => Tried t
  | inr (inr (inl t)) => Banned t
  | inr (inr (inr t)) => Failed t
  end.
#[local] Instance state_countable : Countable AddressState.
Proof. apply (inj_countable' state_code code_state). by intros []. Defined.

Definition address_code (a : Address) : Z * list Z :=
  match a with
  | AV4 ip => (0, [oct1 ip; oct2 ip; oct3 ip; oct4 ip])
  | AV6 l => (1, l)
  | AOnionV2 l => (2, l)
  | AOnionV3 l => (3, l)
  | ACjdns l => (4, l)
  | AI2p l => (5, l)
  end.
Definition code_address (x : Z * list Z) : Address :=
  match x with
  | (0, [a; b; c; d]) => AV4 (mkIpv4 a b c d)
  | (1, l) => AV6 l
  | (2, l) => AOnionV2 l
  | (3, l) => AOnionV3 l
  | (4, l) => ACjdns l
  | (_, l) => AI2p l
  end.
#[local] Instance address_eq_dec : EqDecision Address.
Proof. solve_decision. Defined.
#[local] Instance address_countable : Countable Address.
Proof. apply (inj_countable' address_code code_address). intros a. by destruct a as [[]| | | | |]. Defined.

#[local] Instance disk_eq_dec : EqDecision DiskLocalAddress.
Proof. solve_decision. Defined.
#[local] Instance disk_countable : Countable DiskLocalAddress.
Proof.
  apply (inj_countable' (fun d => (dl_address d, dl_last_connected d, dl_state d, dl_services d, dl_port d, dl_id d))
    (fun '(a, t, s, f, p, i) => mkDisk a t s f p i)). by intros [].
Defined.

#[local] Instance sample_json : Json (list DiskLocalAddress) := {|
  to_vec := fun l => [Zpos (encode l)];
  from_slice := fun b => match b with
                         | [Zpos p] => match decode p with Some l => inr l | None => inl "data"%string end
                         | _ => inl "syntax"%string
                         end
|}.
#[local] Instance sample_json_ok : JsonOk (list DiskLocalAddress).
Proof. intros l. cbn. by rewrite decode_encode. Qed.

(** * Peers *)

Definition sample_order : Order := fun m => (map_to_list m).*1.
Lemma sample_order_ok : order_ok sample_order.
Proof. by intros m. Qed.

Definition utreexo_services : ServiceFlags := Z.lor (Z.lor WITNESS NETWORK_LIMITED) UTREEXO.
Definition peer (id seen : Z) (s : AddressState) : LocalAddress :=
  mkLocal (mkSockAddr (Ipv4 (mkIpv4 8 8 8 id)) 8333) seen s utreexo_services id.
Definition onion_peer : LocalAddress := mkLocal (mkSockAddr (TorV3 (repeat 5 32)) 8333) 30 NeverTried utreexo_services 4.
Definition sample_peers : list LocalAddress := [peer 1 10 NeverTried; peer 2 20 (Tried 20); onion_peer].
Definition sample_man : AddressMan := push_addresses sample_order sample_peers (addrman_new (Some 3%nat) SUPPORTED).

Lemma sample_safe : am_safe (Some 3%nat) SUPPORTED sample_man.
Proof.
  apply (am_step_safe sample_order _ _ _ _ sample_order_ok (new_safe (Some 3%nat) SUPPORTED)).
  constructor. by repeat constructor.
Qed.

(** * Witnesses *)

Lemma socket_addr_roundtrip_witness :
  (exists t, sock_to_string (la_address onion_peer) = Ok t /\
     parse_address t (Some Bitcoin) (fun _ => None) 0 = Ok (la_address onion_peer)) /\
  sock_to_string (la_address (peer 1 10 NeverTried)) = Ok (txt "8.8.8.1:8333").
Proof.
  split; [|vm_compute; reflexivity]. apply (socket_addr_roundtrip (la_address onion_peer)).
  split; [done|]. split; [done|]. by repeat constructor.
Defined.

Lemma is_routable_blocks_witness : is_routable (peer 1 10 NeverTried) = true /\
  is_routable (peer 1 10 NeverTried) =
    negb (existsb (fun b => in_block 32 (ipv4_value (mkIpv4 8 8 8 1)) (ipv4_value b.1) b.2) ipv4_blocks).
Proof.
  split; [reflexivity|]. apply (is_routable_blocks (peer 1 10 NeverTried)). by repeat constructor.
Defined.

Lemma push_addresses_keeps_recent_witness :
  let kept := addresses (push_addresses sample_order [peer 5 40 NeverTried] sample_man) in
  size kept = 3%nat /\ kept !! 1 = None /\ kept !! 5 = Some (peer 5 40 NeverTried).
Proof.
  cbn zeta. split; [|split; vm_compute; reflexivity].
  destruct (push_addresses_keeps_recent sample_order [peer 5 40 NeverTried] sample_man sample_order_ok) as (_ & _ & _ & _ & E & _).
  rewrite E. vm_compute. reflexivity.
Defined.

Lemma get_address_to_connect_sound_witness :
  exists o am', get_address_to_connect sample_order 100 (fun i => i) UTREEXO false sample_man = (Ok o, am') /\ is_Some o.
Proof.
  destruct (get_address_to_connect_sound sample_order 100 (fun i => i) UTREEXO false sample_man sample_order_ok
              (as_inv _ _ _ sample_safe) (as_times _ _ _ sample_safe)) as (o & am' & E & _ & _ & _ & H & _).
  exists o, am'. split; [exact E|]. apply (H 1 (peer 1 10 NeverTried)); [reflexivity| |vm_compute; reflexivity|exact I|].
  - apply (bool_decide_unpack _). vm_compute. exact I.
  - intros i x t Hx. apply elem_of_map_to_list in Hx.
    assert (Hall : Forall (fun p => la_state p.2 = NeverTried \/ la_state p.2 = Tried 20) (map_to_list (addresses sample_man))).
    { apply (bool_decide_unpack _). vm_compute. exact I. }
    rewrite Forall_forall in Hall. destruct (Hall (i, x) Hx) as [Es|Es]; cbn in Es; rewrite Es; by split.
Defined.

Lemma addr_man_reachable_safe_witness :
  am_inv (update_set_state 50 1 Connected sample_man) /\
  size (addresses (update_set_state 50 1 Connected sample_man)) = 3%nat.
Proof.
  split; [|vm_compute; reflexivity].
  apply (addr_man_reachable_safe sample_order (Some 3%nat) SUPPORTED _ sample_order_ok).
  apply (ReachStep _ _ _ sample_man); [|by constructor].
  apply (ReachStep _ _ _ (addrman_new (Some 3%nat) SUPPORTED)); [constructor|]. constructor. by repeat constructor.
Defined.

Lemma peers_roundtrip_witness :
  let am := update_set_state 50 1 Connected sample_man in
  let am' := (start_addr_man sample_order (fun _ => 0) (dump_peers sample_order 60 am (mkPeerFiles None None))
                (addrman_new (Some 3%nat) SUPPORTED)).2 in
  addresses am' = reconnected 60 <$> addresses am /\ la_state <$> addresses am' !! 1 = Some (Tried 60).
Proof.
  cbn zeta. split; [|vm_compute; reflexivity].
  apply (peers_roundtrip sample_order sample_order 60 (fun _ => 0) (update_set_state 50 1 Connected sample_man)
           (mkPeerFiles None None) sample_order_ok sample_order_ok).
  - apply update_set_state_inv, (as_inv _ _ _ sample_safe).
  - vm_compute. lia.
Defined.
