(* ===== verification/SampleSync.v ===== *)
(** A node over the sample chain, at which the theorems on the node apply, while
    it syncs and in normal operation. *)

From stdpp Require Import base gmap list strings fin_maps.
From Stdlib Require Import ZArith Lia.
From S2P Require Import Prelude Bitcoin Errors ChainParams Codec Merkle Sigops Extensions Udata Consensus ChainStore ChainQuery.
From S2P Require Import PartialChain ChainState ChainFacts ChainReach Mempool Filters BlockProof Text Onion SocketAddr AddressMan AddressManFacts.
From S2P Require Import AddressManRuns AddressManReach Node NodeBlocks NodePeers NodeConn SyncNode NodeFacts NodeRetry NodeDownload NodeChain RunNode.
From S2P Require Import RunFilters RunFacts Backfill Sample SampleStore SampleChain SampleNode SampleNet.

(** * Libraries *)

#[local] Instance sync_json : Json (list DiskLocalAddress) := {| to_vec _ := []; from_slice _ := inr [] |}.
#[local] Instance sync_proofs : ProofBuild := fun _ _ => tt.
#[local] Instance sync_orders : HashOrder := {|
  order_addresses := sample_order;
  order_inflight m := (map_to_list m).*1;
  order_peers m := (map_to_list m).*1;
  order_blocks := elements
|}.
#[local] Hint Extern 0 (ChainBackend (ChainStateInner ViewStore)) => exact (chain_state_backend vfuel) : typeclass_instances.
#[local] Instance sync_mempool : MempoolBase unit := fun _ s => (Ok tt, s).

Lemma sync_visits_all : visits_all.
Proof. intros m req [v Hv]. apply list_elem_of_fmap. exists (req, v). split; [done|]. by apply elem_of_map_to_list. Qed.

(** * A node with two peers *)

Definition all_services : ServiceFlags := Z.lor NETWORK utreexo_services.
Definition view (s : PeerStatus) (id : Z) : LocalPeerView :=
  mkPeer (Some 5) s [] true all_services EmptyString (SampleNet.peer id 10 NeverTried) (OutboundFullRelay NETWORK) 2 0 0 TransportV2.

(** The chain of two headers, of which only the genesis block is validated. *)
Definition node_with (s : PeerStatus) (bs : gmap Z InflightBlock) : NodeCommon (ChainStateInner ViewStore) unit :=
  mkNode c2 bs tt None 0 2 [0; 1] {[0 := view s 1; 1 := view Ready 2]} {[UTREEXO := [0; 1]; NETWORK := [0; 1]]}
    sample_man [] [] {[InBlocks 2 := (0, 100)]} [] (mkTimers 100 100 100 100 100 100 100 100) 1 false
    (mkConfig Regtest [] 100 true true None false None) WitnessFull false [] [] [] (mkPeerFiles None None).
Definition n0 := node_with Ready ∅.
Definition no_seeds (_ : Network) : list Z := [].
Definition last_latency (_ : option Z) (x : Z) : Z := x.

Lemma node_with_inv s bs : (forall h b, bs !! h = Some b -> blk_hash (ib_block b) = h) -> node_inv (node_with s bs).
Proof.
  intros Hb. assert (Hk : forall id, id ∈ [0; 1] -> is_Some (peers (node_with s bs) !! id)).
  { intros id [->|[->|?%not_elem_of_nil]%elem_of_cons]%elem_of_cons; [by eexists..|done]. }
  split.
  - exact Hk.
  - intros sv id. unfold ids_of. destruct (peer_by_service (node_with s bs) !! sv) as [l|] eqn:E; cbn; [|by intros ?%not_elem_of_nil].
    intros Hid. apply Hk. cbn [peer_by_service node_with] in E. apply lookup_insert_Some in E as [[_ <-]|[_ [_ <-]%lookup_singleton_Some]]; done.
  - intros id [p Hp]. cbn [peers node_with] in Hp. apply lookup_insert_Some in Hp as [[<- _]|[_ [<- _]%lookup_singleton_Some]]; cbn; lia.
  - exact Hb.
  - exact (as_inv _ _ _ sample_safe).
Qed.

(** The state after a computation that returns [a]. *)
Ltac run_pair m s a := refine (run_ok_pair m s a _); vm_compute; reflexivity.

(** * Runs *)

(** The node starts, and its peer sends the first block. *)
Definition n1 := (sync_start n0).2.
Definition got_block : stm _ WireError unit :=
  ignore_err (handle_message (C := ChainStateInner ViewStore) (MP := unit) last_latency 110 2000 (FromPeer 0 (MsgBlock b1) 105)).
Definition n2 := (got_block n1).2.

Lemma n0_inv : node_inv n0.
Proof. apply node_with_inv. intros h b E. discriminate E. Qed.
Lemma n2_reached : sync_reachable no_seeds last_latency n0 n2.
Proof.
  apply (SyncNext _ _ _ n1); [apply SyncStart|apply (SyncMessage _ _ 110 2000 (FromPeer 0 (MsgBlock b1) 105))].
  - run_pair (sync_start (C := ChainStateInner ViewStore) (MP := unit)) n0 tt.
  - run_pair got_block n1 tt.
Qed.

(** Peer 0 goes away, and peer 1 is asked for the block. *)
Definition gone_run : stm _ WireError unit := handle_disconnection (C := ChainStateInner ViewStore) (MP := unit) 110 2000 0 1.
Lemma disconnection_hands_over_witness : tracked 2 n0 /\ tracked 2 (gone_run n0).2 /\
  inflight (gone_run n0).2 !! InBlocks 2 = Some (1, 110).
Proof.
  assert (Ht : tracked 2 n0) by (left; by eexists).
  destruct (disconnection_hands_over 110 2000 0 1 n0 (Ok tt) (gone_run n0).2) as (Hk & _ & _).
  - exact sync_visits_all.
  - run_pair gone_run n0 tt.
  - discriminate.
  - discriminate.
  - split; [exact Ht|]. split; [exact (Hk 2 Ht)|]. vm_compute. reflexivity.
Defined.

(** A ban ends with the connection. *)
Definition nb := node_with BannedPeer ∅.
Lemma ban_ends_with_connection_witness : exists a', addresses (address_man (gone_run nb).2) !! 1 = Some a' /\
  la_state a' = Banned 86400.
Proof.
  destruct (ban_ends_with_connection 110 2000 0 1 (view BannedPeer 1) (SampleNet.peer 1 10 NeverTried) nb (Ok tt) (gone_run nb).2)
    as (a' & Ha & Hs & _).
  - reflexivity.
  - reflexivity.
  - vm_compute. reflexivity.
  - run_pair gone_run nb tt.
  - discriminate.
  - discriminate.
  - exists a'. split; [exact Ha|exact Hs].
Defined.

(** The first block is there, with the proof of a block without inputs. *)
Definition nr := node_with Ready {[2 := inflight_new b1 0]}.
Lemma process_pending_blocks_total_witness : exists r n', process_pending_blocks 110 nr = (r, n') /\ r = Ok tt /\
  chain_validation_index (chain n') = Ok 1 /\ forall h, ~ ready n' h.
Proof.
  destruct (process_pending_blocks_total 110 nr) as (r & n' & E & _ & Hr). exists r, n'. split; [exact E|].
  assert (Er : r = Ok tt) by (change r with (fst (r, n')); rewrite <-E; vm_compute; reflexivity).
  split; [exact Er|]. split; [change n' with (snd (r, n')); rewrite <-E; vm_compute; reflexivity|]. apply Hr. exact Er.
Defined.

Definition processed := process_block (C := ChainStateInner ViewStore) (MP := unit) 110 2.
Lemma process_block_on_chain_witness : get_validation_index (chain (processed nr).2) = Ok 1.
Proof.
  pose proof (process_block_on_chain vfuel vrep vroom 110 2 (inflight_new b1 0) [] tt 0 0 (vs_view (chainstore c2)) nr (Ok tt) (processed nr).2)
    as Hp.
  destruct Hp as [(_ & Hv & _)|(e & c & dels & inputs & Ec & Hs)].
  - exact (view_inv c2 run_c2).
  - exact I.
  - vm_compute. reflexivity.
  - vm_compute. discriminate.
  - vm_compute. reflexivity.
  - reflexivity.
  - reflexivity.
  - reflexivity.
  - intros d Hd. vm_compute in Hd. injection Hd as <-. reflexivity.
  - run_pair processed nr tt.
  - discriminate.
  - discriminate.
  - exact Hv.
  - vm_compute. reflexivity.
Defined.

(** A block with a wrong Merkle root: the peer that sent it is banned. *)
Definition bad_root := handle_block_error (C := ChainStateInner ViewStore) (MP := unit) (BlockValidation BadMerkleRoot) b1 0 (Some 1).
Lemma block_error_blames_witness : punished (Some 0) (peers n0) (peers (bad_root n0).2) /\
  (p_state <$> peers (bad_root n0).2 !! 0) = Some BannedPeer /\ (p_state <$> peers (bad_root n0).2 !! 1) = Some Ready.
Proof.
  split; [|vm_compute; split; reflexivity].
  apply (block_error_blames (BlockValidation BadMerkleRoot) b1 0 1 n0 (bad_root n0).1 (bad_root n0).2).
  - apply surjective_pairing.
  - vm_compute. discriminate.
  - vm_compute. discriminate.
Defined.

(** The blocks after the last request. *)
Definition plan := get_blocks_to_download (C := ChainStateInner ViewStore) (MP := unit) 110.
Lemma download_plan_witness : exists l, last_block_request (plan n0).2 = 1 + Z.of_nat (length l) /\
  forall i h, l !! i = Some h -> get_block_hash c2 (2 + Z.of_nat i) = Ok h.
Proof.
  destruct (download_plan 110 0 n0 (plan n0).2) as (l & Hl & Hh & _).
  - vm_compute. reflexivity.
  - vm_compute. reflexivity.
  - run_pair plan n0 tt.
  - exists l. split; [exact Hl|]. intros i h Hi. specialize (Hh i h Hi). unfold plan_height in Hh. cbn in Hh.
    rewrite andb_false_r in Hh. exact Hh.
Defined.

(** A leaf that claims to be created at height 50 of a chain of height 2. *)
Definition far_leaf : CompactLeafData := mkCompactLeafData 100 7 (OtherKind [0x51]).
Definition spend_tx : Transaction := mkTransaction 1 (Blocks 0) [mkTxIn (mkOutPoint 99 0) [] u32_max []] [mkTxOut 7 [0x51]].
Definition b_spend : Block := mkBlock (header_at 1 1 50) [coinbase_tx 50; spend_tx].
Definition nf := node_with Ready {[2 := add_utreexo_data [far_leaf] no_proof 1 (inflight_new b_spend 0)]}.
Lemma absent_height_unpunished_witness :
  process_block 110 2 nf = (Ok tt, set_blocks (delete 2 (blocks nf)) nf).
Proof.
  apply (absent_height_unpunished 110 2 (add_utreexo_data [far_leaf] no_proof 1 (inflight_new b_spend 0)) far_leaf [] no_proof 1
    (coinbase_tx 50) spend_tx [] (mkTxIn (mkOutPoint 99 0) [] u32_max []) [] BlockNotPresent nf).
  - reflexivity.
  - reflexivity.
  - reflexivity.
  - reflexivity.
  - vm_compute. reflexivity.
  - discriminate.
  - vm_compute. reflexivity.
  - reflexivity.
Defined.

#[local] Existing Instances sync_json sync_proofs sync_orders sync_mempool.
#[local] Hint Extern 0 (ChainBackend (ChainStateInner ViewStore)) => exact (chain_state_backend vfuel) : typeclass_instances.

Abbreviation RunState := (@Running _ (ChainStateInner ViewStore) unit).

(** * A run *)

(** The node has synced, and peer 0 announces an unknown block. *)
Definition s0 : RunState :=
  match running_start 100 (leave_sync n2).2 with Ok s => s | _ => mkRunning n2 0 ∅ ∅ end.
Definition announced : stm RunState WireError unit :=
  ignore (handle_notification (C := ChainStateInner ViewStore) (MP := unit) last_latency 120 2010 (FromPeer 0 (MsgNewBlock 4) 120)).
Definition s1 := (announced s0).2.

Lemma node_reachable_inv_witness : running_inv s1 /\ last_invs s1 = {[4 := (120, [0])]} /\
  inflight (common s1) !! InHeaders = Some (0, 120).
Proof.
  split; [|vm_compute; split; reflexivity].
  refine (proj2 (node_reachable_inv no_seeds last_latency n0 n2 n0_inv n2_reached) (leave_sync n2).2 100 s0 s1 _ _ _).
  - run_pair (leave_sync (C := ChainStateInner ViewStore) (MP := unit)) n2 tt.
  - vm_compute. reflexivity.
  - apply (RunNext _ _ _ s0); [apply RunStart|apply (RunMessage _ _ 120 2010 (FromPeer 0 (MsgNewBlock 4) 120))].
    run_pair announced s0 tt.
Defined.

(** * Filters *)

(** A node on the chain of three blocks with an empty filter store. *)
Definition with_filters (store : FlatFiltersStore) (early : gmap Z BlockFilter) : RunState :=
  mkRunning (insert_inflight 100 InGetFilters 1 (set_last_filter 5 (set_block_filters (Some store) (set_chain c5 n0)))) 100 ∅ early.
Definition s_filters := with_filters fs0 ∅.

Lemma filters_in_order_witness : exists store',
  filters_are store' c5 ∅ (foldl deliver s_filters [(110, 2, [1]); (111, 4, [2; 2])]) /\ filters_height store' = Ok 2.
Proof.
  destruct (filters_in_order (C := ChainStateInner ViewStore) (MP := unit) c5 0 [(110, 2, [1]); (111, 4, [2; 2])] [(1, [1]); (2, [2; 2])] [] fs0
    s_filters) as (store' & Ha & _ & Hh).
  - done.
  - exact fs0_run.
  - vm_compute. reflexivity.
  - constructor.
  - lia.
  - apply OrderNext; [vm_compute; reflexivity..|]. apply (OrderNext _ 1); [vm_compute; reflexivity..|]. apply OrderDone.
  - vm_compute. discriminate.
  - vm_compute. reflexivity.
  - exists store'. split; [exact Ha|exact Hh].
Defined.

Lemma early_filter_skips_height_witness : exists store',
  filters_are store' c5 {[3 := [9]]} (foldl deliver s_filters [(110, 4, [2; 2]); (111, 2, [1]); (300, 4, [2; 2]); (301, 5, [9])]) /\
  drop 4 (f_file store') = enc_recs [(1, [1]); (2, [2; 2]); (2, [2; 2])] /\ filters_height store' = Ok 3.
Proof.
  destruct (early_filter_skips_height (C := ChainStateInner ViewStore) (MP := unit) c5 0 110 111 300 301 2 4 5 [1] [2; 2] [2; 2] [9] fs0 s_filters)
    as (store' & Ha & Hf & Hh); [done|vm_compute; reflexivity|lia|vm_compute; discriminate|vm_compute; reflexivity..|].
  exists store'. split; [exact Ha|]. split; [exact Hf|exact Hh].
Defined.

Lemma stale_filter_stalls_witness :
  let s := foldl deliver (with_filters (Filters.set_height 3 fs0) {[3 := [9]]}) [(400, 2, [1]); (401, 5, [9])] in
  is_Some (inflight_filters s !! 3) /\ inflight (common s) !! InGetFilters = Some (1, 100) /\ download_filters 500 (common s) = (Ok tt, common s).
Proof.
  destruct (stale_filter_stalls 3 3 (Filters.set_height 3 fs0) (with_filters (Filters.set_height 3 fs0) {[3 := [9]]})
    [(400, 2, [1]); (401, 5, [9])] 500) as (Hs & Hi & Hd).
  - reflexivity.
  - vm_compute. reflexivity.
  - lia.
  - vm_compute. discriminate.
  - by eexists.
  - by eexists.
  - cbn zeta. split; [exact Hs|]. rewrite Hi. split; [reflexivity|exact Hd].
Defined.

(** * Headers *)

(** The fork of two headers reaches the chain, and its tip is asked for. *)
Definition s_fork : RunState := mkRunning (set_chain c3 n0) 100 ∅ ∅.
Definition forked : stm (NodeCommon (ChainStateInner ViewStore) unit) WireError unit := headers_loop 120 0 [f2; f3].
Lemma run_c3 : run vfuel vroom c0 c3.
Proof. eapply run_step; [apply run_c2|apply step_b1]. Qed.
Lemma headers_on_chain_witness : exists v, chain_inv vrep (chain (forked (common s_fork)).2) v /\
  chain_best_block (chain (forked (common s_fork)).2) = Ok (3, 5) /\
  inflight (forked (common s_fork)).2 !! InBlocks 5 = Some (0, 120) /\ inflight (forked (common s_fork)).2 !! InBlocks 4 = None.
Proof.
  destruct (headers_on_chain vrep vroom vfuel 120 0 [f2; f3] (common s_fork) (vs_view (chainstore c3)) (Ok tt) (forked (common s_fork)).2)
    as (hs & asked & c' & _ & _ & (v & Hv) & _ & Hc & _).
  - exact (view_inv c3 run_c3).
  - repeat constructor; discriminate.
  - run_pair forked (common s_fork) tt.
  - exists v. rewrite (Hc eq_refl). split; [exact Hv|]. rewrite <-(Hc eq_refl). vm_compute. split_and!; reflexivity.
Defined.

(** A header whose parent nobody knows. *)
Definition orphan : BlockHeader := header_at 70 80 50.
Lemma unknown_parent_unpunished_witness :
  handle_headers 120 0 [orphan; f3] s_fork = (Err (Blockchain BlockNotPresent), s_fork).
Proof.
  refine (eq_trans (unknown_parent_unpunished vrep vroom vfuel 120 0 orphan [f3] s_fork (view Ready 1) (vs_view (chainstore c3))
    (view_inv c3 run_c3) _ _ _ _ _ _) _); [vm_compute; reflexivity|discriminate|vm_compute; reflexivity..].
Defined.

(** * The backfill *)

(** Two blocks were assumed; the backfill stops after the first. *)
Definition c_two : ChainStateInner ViewStore := (connect_block (S := ViewStore) b2 no_proof ∅ [] c3).2.
Definition p_one : PartialChainStateInner := (process_all [in1] p0).2.
Definition left_state : option (list Z) * ChainStateInner ViewStore := (backfill_done 2 p_one (None, c_two)).2.
Lemma backfill_resumes_witness : left_state.2 = c_two /\ backfill_start left_state.1 c_two = Ok (Some (p_one, 2)) /\
  current_height p_one = 1.
Proof.
  destruct (backfill_resumes (S := ViewStore) None left_state.1 c_two left_state.2 p0 p_one 2 [in1]) as [Hc Hs].
  - vm_compute. reflexivity.
  - refine (run_ok_pair (process_all [in1]) p0 tt _). vm_compute. reflexivity.
  - vm_compute. discriminate.
  - split; [lia|vm_compute; discriminate].
  - split; vm_compute; discriminate.
  - vm_compute. reflexivity.
  - rewrite Hc in Hs. split; [exact Hc|]. split; [exact Hs|vm_compute; reflexivity].
Defined.
