(* ===== verification/SampleSelect.v ===== *)
(** Chain selection at work: three peers on the sample chain, one of which may
    lie about the accumulator. *)

From stdpp Require Import base gmap list strings fin_maps.
From Stdlib Require Import ZArith Lia.
From S2P Require Import Prelude Bitcoin Errors ChainParams Codec Merkle Sigops Extensions Udata Consensus ChainStore ChainQuery.
From S2P Require Import ChainState Filters BlockProof Text Onion SocketAddr Mempool AddressMan Node NodeBlocks NodePeers NodeConn.
From S2P Require Import SyncNode NodeFacts NodeChain SelectNode SelectFacts Sample SampleChain SampleNet SampleSync.

#[local] Existing Instances sync_json sync_proofs sync_orders sync_mempool.
#[local] Hint Extern 0 (ChainBackend (ChainStateInner ViewStore)) => exact (chain_state_backend vfuel) : typeclass_instances.
#[local] Instance select_stumps : StumpBuild := {| stump_of leaves _ := leaves; node_hash_from _ := EmptyHash |}.
#[local] Instance select_stump_dec : EqDecision (@Stump sample_utreexo) := Z.eq_dec.

Abbreviation Chain := (ChainStateInner ViewStore).
Abbreviation NodeState := (NodeCommon Chain unit).

(** * The chain and its accumulators *)

Definition x3 : BlockHeader := header_at 3 10 50.
Definition x4 : BlockHeader := header_at 11 11 50.
Definition x5 : BlockHeader := header_at 12 12 50.
Definition c_long : Chain := (accept_header vfuel x5 (accept_header vfuel x4 (accept_header vfuel x3 c2).2).2).2.
Definition block4 : Block := block_at 11 11 50.
Definition proof4 : UtreexoProof := mkUtreexoProof 12 [] [] [].

(** The accumulator with [z] leaves, and one that is wrong after block 3. *)
Definition acc_bytes (z : Z) : list Z := le_bytes 8 z ++ replicate (32 * count_ones z) 0.
Definition wrong_bytes (h : Z) : list Z := if h <=? 3 then acc_bytes h else acc_bytes (h + 7).

(** * The peers *)

Definition archive_view (id : Z) : LocalPeerView :=
  mkPeer (Some 5) Ready [] true (Z.lor all_services UTREEXO_ARCHIVE) EmptyString (SampleNet.peer id 10 NeverTried) (OutboundFullRelay NETWORK) 2 0 0
    TransportV2.
Definition select_node : NodeState :=
  mkNode c_long ∅ tt None 0 3 [0; 1; 2] {[0 := archive_view 1; 1 := archive_view 2; 2 := archive_view 3]} ∅
    sample_man [] [] ∅ [] (mkTimers 100 100 100 100 100 100 100 100) 1 false
    (mkConfig Regtest [] 100 true true None true None) WitnessFull false [] [] [] (mkPeerFiles None None).

(** Peers answer in turn; after the first round of three only the first two are
    asked.  [liar] has the wrong accumulators. *)
Record Peers := mkPeers { turn : nat; liar : PeerId }.
Definition state_at (liar peer : PeerId) (h : Z) : list Z := if peer =? liar then wrong_bytes h else acc_bytes h.
Definition reply (liar peer : PeerId) (n : NodeState) : option NodeNotification :=
  p ← peers n !! peer;
  req ← last (channel p);
  match req with
  | GetUtreexoState _ h => Some (FromPeer peer (MsgUtreexoState (state_at liar peer h)) 110)
  | GetBlock _ _ => Some (FromPeer peer (MsgBlock block4) 110)
  | GetBlockProof _ _ _ => Some (FromPeer peer (MsgUtreexoProof proof4) 110)
  | _ => None
  end.
Definition asks_state (peer : PeerId) (n : NodeState) : bool :=
  match (p ← peers n !! peer; last (channel p)) with Some (GetUtreexoState _ _) => true | _ => false end.
#[local] Instance peers_world : World Peers NodeState := fun n w =>
  if (turn w <? 3)%nat then (110, reply (liar w) (Z.of_nat (turn w)) n, mkPeers (S (turn w)) (liar w))
  else if Nat.even (turn w - 3) then (110, reply (liar w) 0 n, mkPeers (if asks_state 0 n then S (turn w) else turn w) (liar w))
  else (110, reply (liar w) 1 n, mkPeers (S (turn w)) (liar w)).
Definition is_idle (l : PeerId) (w : Peers) : Prop := (3 <= turn w)%nat /\ Nat.even (turn w - 3) = true /\ liar w = l.

Lemma peers_answer l : answers 100 0 1 (state_at l 0) (state_at l 1) (is_idle l).
Proof.
  intros n hash h w (Ht & He & Hl) (p & Hp & Hreq) (q & Hq & Hreq'). unfold world_recv, peers_world.
  rewrite (proj2 (Nat.ltb_ge _ _)) by done. rewrite He. unfold asks_state, reply. rewrite Hp. cbn [mbind option_bind]. rewrite Hreq.
  cbn [mbind option_bind turn liar].
  eexists _, _, _, _, _, _. split; [reflexivity|]. cbn [turn liar]. rewrite (proj2 (Nat.ltb_ge _ _)) by lia.
  replace (S (turn w) - 3)%nat with (S (turn w - 3)) by lia. rewrite Nat.even_succ, <-Nat.negb_even, He. cbn [negb].
  rewrite Hq. cbn [mbind option_bind]. rewrite Hreq'. cbn [mbind option_bind]. split; [reflexivity|].
  split; [lia|]. split; [|exists 110, 110; left; rewrite Hl; done].
  unfold is_idle. cbn [turn liar]. split; [lia|]. split; [|done]. replace (S (S (turn w)) - 3)%nat with (S (S (turn w - 3))) by lia. done.
Qed.
Lemma peer_sends_block4 l : sends_block (C := Chain) (MP := unit) 100 0 (is_idle l) 12 block4 proof4.
Proof.
  split; [vm_compute; reflexivity|]. split; [vm_compute; reflexivity|]. intros n w (Ht & He & Hl) (p & Hp & Hreq).
  unfold world_recv, peers_world. rewrite (proj2 (Nat.ltb_ge _ _)) by done. rewrite He. unfold asks_state, reply. rewrite Hp.
  cbn [mbind option_bind]. rewrite Hreq. cbn [mbind option_bind turn liar]. eexists _, _, _. split; [reflexivity|]. split; [lia|].
  intros n' (p' & Hp' & Hreq'). cbn [turn liar]. rewrite (proj2 (Nat.ltb_ge _ _)) by done. rewrite He, Hp'.
  cbn [mbind option_bind]. rewrite Hreq'. cbn [mbind option_bind]. by eexists _, _, _.
Qed.

(** * Who is lying *)

Definition select_at (w : Peers) : @Selecting _ Chain unit Peers := mkSelecting select_node (LookingForForks 100) ∅ ∅ w 100.

Lemma quiet_at l t : (3 <= t)%nat -> Nat.even (t - 3) = true -> quiet 100 0 1 (is_idle l) c_long (select_at (mkPeers t l)).
Proof.
  intros Ht He. split; [done|..|done|cbn; lia].
  - exists (archive_view 1). split_and!; [vm_compute; reflexivity|discriminate|reflexivity].
  - exists (archive_view 2). split_and!; [vm_compute; reflexivity|discriminate|reflexivity].
Qed.
Lemma five_cases (P : Z -> Prop) : P 0 -> P 1 -> P 2 -> P 3 -> P 4 -> P 5 -> forall h, 0 <= h <= 5 -> P h.
Proof.
  intros P0 P1 P2 P3 P4 P5 h Hh. assert (h = 0 \/ h = 1 \/ h = 2 \/ h = 3 \/ h = 4 \/ h = 5) as Hc by lia.
  by destruct Hc as [->|[->|[->|[->|[->| ->]]]]].
Qed.
Lemma long_chain : chain_to c_long 5.
Proof.
  split; [exists 13; vm_compute; reflexivity|]. split; [vm_compute; split; discriminate|].
  apply (five_cases (fun h => exists b, chain_block_hash c_long h = Ok b)); eexists; vm_compute; reflexivity.
Qed.

(** Peer 1 lies from block 4 on. *)
Lemma liar_is_found_witness : exists s', find_who_is_lying 10 0 1 (select_at (mkPeers 3 1)) = (Ok (OneLying 1), s').
Proof.
  destruct (liar_is_found 100 0 1 (state_at 1 0) (state_at 1 1) (is_idle 1) c_long 5 3 10 (select_at (mkPeers 3 1)) 12 block4 proof4
    [] ∅ 3 4 4 11) as (check & s' & E & _ & Hok & _).
  - discriminate.
  - apply peers_answer.
  - apply quiet_at; [lia|reflexivity].
  - apply long_chain.
  - refine (five_cases (fun h => state_at 1 0 h = state_at 1 1 h <-> h <= 3) _ _ _ _ _ _);
      (split; [intros E; try lia; vm_compute in E; discriminate E|intros Hle; try lia; vm_compute; reflexivity]).
  - lia.
  - lia.
  - vm_compute. reflexivity.
  - apply peer_sends_block4.
  - vm_compute. reflexivity.
  - vm_compute. reflexivity.
  - vm_compute. reflexivity.
  - vm_compute. reflexivity.
  - vm_compute. reflexivity.
  - exists s'. rewrite <-(Hok eq_refl). exact E.
Defined.

(** Peers 0 and 1 tell the truth and peer 2 lies: the node panics. *)
Definition step3 := find_accumulator_for_block_step (C := Chain) (MP := unit) (W := Peers) 10 2000 13 5.
Definition after_step := (step3 (select_at (mkPeers 0 2))).2.
Definition three_accs : list (PeerId * list Z) := [(0, acc_bytes 5); (1, acc_bytes 5); (2, acc_bytes 12)].
Lemma agreeing_peers_panic_witness : exists s', find_accumulator_for_block 10 2000 5 13 (select_at (mkPeers 0 2)) = (Panic, s').
Proof.
  apply (agreeing_peers_panic 100 0 1 (state_at 2 0) (state_at 2 1) (is_idle 2) c_long 5 10 2000 (select_at (mkPeers 0 2)) after_step 13 5
    three_accs [(2, acc_bytes 12)] (acc_bytes 5)).
  - run_pair step3 (select_at (mkPeers 0 2)) (KeepLooking three_accs).
  - vm_compute. reflexivity.
  - discriminate.
  - apply peers_answer.
  - split; [vm_compute; reflexivity| | |split_and!; vm_compute; repeat constructor|vm_compute; discriminate].
    + eexists. split_and!; [vm_compute; reflexivity|discriminate|reflexivity].
    + eexists. split_and!; [vm_compute; reflexivity|discriminate|reflexivity].
  - apply long_chain.
  - lia.
  - reflexivity.
  - eexists. vm_compute. reflexivity.
Defined.

(** Two peers that agree on the genesis block only make the search panic. *)
Definition early_reply (peer : PeerId) (n : NodeState) : option NodeNotification :=
  p ← peers n !! peer;
  req ← last (channel p);
  match req with
  | GetUtreexoState _ h => Some (FromPeer peer (MsgUtreexoState [if h =? 0 then 0 else peer + 1]) 110)
  | _ => None
  end.
Definition early_world : World Peers NodeState := fun n w =>
  (110, early_reply (if Nat.even (turn w) then 0 else 1) n, mkPeers (S (turn w)) (liar w)).
Example fork_at_genesis_panics :
  (find_fork (W := Peers) (World0 := early_world) (C := Chain) (MP := unit) 10 0 1 (select_at (mkPeers 0 1))).1 = Panic.
Proof. vm_compute. reflexivity. Qed.

(** The accumulator with three leaves. *)
Lemma parse_acc_exact_witness : parse_acc (acc_bytes 3) = Ok (3 : @Stump sample_utreexo).
Proof.
  apply (parse_acc_exact (acc_bytes 3) (3 : @Stump sample_utreexo)); [by repeat constructor; vm_compute|]. right. exists 3, [replicate 32 0; replicate 32 0].
  split_and!; [vm_compute; split; discriminate|reflexivity|repeat constructor|reflexivity..].
Defined.
