(* ===== verification/SamplePeer.v ===== *)
(** Connections at work: a concrete wire format, a proxy that accepts, and the
    task of a peer that shakes hands, announces addresses and falls silent. *)

From stdpp Require Import base gmap list strings.
From Stdlib Require Import ZArith Lia.
From S2P Require Import Prelude Bitcoin Errors Codec Sigops Udata Filters BlockProof Text Onion SocketAddr AddressMan Node SyncNode.
From S2P Require Import NetMessage Transport PeerTask PeerFacts Sample SampleStore SampleNode.

(** * A wire format *)

#[local] Instance unit_types : NetTypes := {|
  NetAddress := unit; GetBlocksMessage := unit; MerkleBlock := unit; FilterLoad := unit; FilterAdd := unit; GetCFCheckpt := unit;
  CFCheckpt := unit; SendCmpct := unit; CmpctBlock := unit; GetBlockTxn := unit; BlockTxn := unit; Reject := unit
|}.
(** Contents that are always the same take no bytes. *)
Definition const_codec {A} (a : A) : Codec A := {| enc _ := []; dec r := Ok (a, r) |}.
Definition cmd_codec : Codec CommandString := {|
  enc c := cmd_text c ++ replicate (12 - length (cmd_text c)) 0;
  dec r := '(name, r) ← take_bytes 12 r; Ok (Command (List.filter (fun b => negb (b =? 0)) name), r)
|}.
Definition any_version : VersionMessage := mkVersionMessage 70016 advertised_services 1000 tt tt 7 "/Satoshi/" 42 false.
Definition any_header : BlockHeader := mkBlockHeader 1 2 3 4 5 6.
Definition fixed_codecs (encode : NetworkMessage -> list Z) : NetCodecs := {|
  net_encode := encode;
  message_command m := Command (default [] (name_of m));
  command_codec := cmd_codec;
  version_codec := const_codec any_version;
  addr_codec := const_codec [];
  inv_codec := const_codec [];
  get_blocks_codec := const_codec tt;
  get_headers_codec := const_codec (mkGetHeaders 0 [] 0);
  tx_codec := const_codec (mkTransaction 1 (Blocks 0) [] []);
  block_codec := const_codec (mkBlock any_header []);
  net_header_codec := sample_header_codec;
  net_varint_codec := sample_varint_codec;
  merkle_block_codec := const_codec tt;
  filter_load_codec := const_codec tt;
  filter_add_codec := const_codec tt;
  get_cfilters_codec := const_codec (mkGetCFilters 0 0 0);
  cfilter_codec := const_codec (mkCFilter 0 0 []);
  get_cfheaders_codec := const_codec (mkGetCFHeaders 0 0 0);
  cfheaders_codec := const_codec (mkCFHeadersMessage 0 (mkCFHeaders 0 0 []));
  get_cfcheckpt_codec := const_codec tt;
  cfcheckpt_codec := const_codec tt;
  send_cmpct_codec := const_codec tt;
  cmpct_block_codec := const_codec tt;
  get_block_txn_codec := const_codec tt;
  block_txn_codec := const_codec tt;
  net_bytes_codec := sample_vec_codec;
  reject_codec := const_codec tt;
  i64_codec := const_codec (I64 1000);
  addr_v2_codec := const_codec []
|}.
#[local] Instance sample_net : NetCodecs := fixed_codecs (payload_of (H0 := fixed_codecs (fun _ => []))).

Lemma filter_command c k : Forall (fun b => 0x20 <= b <= 0x7e) c -> List.filter (fun b => negb (b =? 0)) (c ++ replicate k 0) = c.
Proof.
  intros Hc. rewrite List.filter_app. assert (List.filter (fun b => negb (b =? 0)) (replicate k 0) = []) as ->.
  { induction k as [|k IH]; [done|]. exact IH. }
  rewrite app_nil_r. induction Hc as [|b c Hb _ IH]; [done|]. cbn [List.filter]. rewrite (proj2 (Z.eqb_neq b 0)) by lia. cbn [negb]. by rewrite IH.
Qed.
#[local] Instance sample_net_ok : NetCodecsOk.
Proof.
  split.
  - intros m Hm. by destruct m.
  - intros m name Hn. unfold message_command, sample_net, fixed_codecs. by rewrite Hn.
  - done.
  - intros c [Hl Hc] rest. unfold enc, dec, command_codec, sample_net, fixed_codecs, cmd_codec. cbn [cmd_text].
    unfold take_bytes. rewrite (proj2 (Nat.leb_le _ _)) by (rewrite !length_app, length_replicate; lia).
    rewrite take_app_length', drop_app_length' by (rewrite length_app, length_replicate; lia). cbn [mbind outcome_bind].
    by rewrite filter_command.
Qed.

(** Frames are named by the type of the message, or by its name. *)
Definition frame_name (m : NetworkMessage) : list Z :=
  match name_of m with
  | Some name => name ++ replicate (12 - length name) 0
  | None => take 1 (short_prefix m) ++ replicate 11 0
  end.
Definition frame_decode (data : list Z) : outcome DecodeError NetworkMessage :=
  let name := take 12 (drop 4 data) in
  let payload := drop 24 data in
  if bool_decide (name = txt "getuproof" ++ replicate 3 0) then Ok (NetUnknown GETUPROOF payload)
  else
    match deserialize_v2 (if 32 <=? hd 0 name then 0 :: name ++ payload else hd 0 name :: payload) with
    | Ok m => Ok m
    | Err (V2Deserialize e) => Err e
    | _ => Err (ParseFailed "unknown message")
    end.
#[local] Instance sample_raw : RawLib := {|
  magic n := match n with Bitcoin => [0xf9; 0xbe; 0xb4; 0xd9] | _ => [0xfa; 0xbf; 0xb5; 0xda] end;
  MAX_MSG_SIZE := 4000;
  raw_encode mg m := v1_frame mg (frame_name m) (net_encode m);
  raw_decode := frame_decode
|}.

Lemma frame_name_length m : ~ is_unknown m -> length (frame_name m) = 12%nat.
Proof. intros Hm. by destruct m. Qed.
Lemma frame_parts mg name payload : length mg = 4%nat -> length name = 12%nat ->
  take 12 (drop 4 (v1_frame mg name payload)) = name /\ drop 24 (v1_frame mg name payload) = payload.
Proof.
  intros Hm Hn. unfold v1_frame. split.
  - by rewrite drop_app_length', take_app_length'.
  - rewrite !app_assoc. apply drop_app_length'. rewrite !length_app, length_le_bytes, from_payload_length. lia.
Qed.
Lemma frame_back net m : ~ is_unknown m -> message_ok m -> frame_decode (v1_frame (magic net) (frame_name m) (net_encode m)) = Ok m.
Proof.
  intros Hu Hm. assert (Hmg : length (magic net) = 4%nat) by (by destruct net). unfold frame_decode.
  destruct (frame_parts (magic net) (frame_name m) (net_encode m) Hmg (frame_name_length m Hu)) as [-> ->].
  pose proof (v2_roundtrip m [] Hm ltac:(done)) as E. rewrite app_nil_r in E.
  rewrite bool_decide_eq_false_2 by (intros Hx; destruct m; try by destruct Hu; vm_compute in Hx; discriminate Hx).
  assert (Es : serialize_v2 m = (if 32 <=? hd 0 (frame_name m) then 0 :: frame_name m ++ net_encode m else hd 0 (frame_name m) :: net_encode m)).
  { destruct m; try done; by destruct Hu. }
  by rewrite <-Es, E.
Qed.
#[local] Instance sample_raw_ok : RawLibOk.
Proof.
  split.
  - by intros [].
  - unfold MAX_MSG_SIZE, sample_raw, u32_max. lia.
  - intros mg m Hm. exists (frame_name m). split; [by apply frame_name_length|done].
  - apply frame_back.
  - intros net payload. change raw_decode with frame_decode. unfold frame_decode.
    destruct (frame_parts (magic net) (txt "getuproof" ++ replicate 3 0) payload) as [E1 E2]; [by destruct net|done|].
    rewrite E1, E2. by rewrite bool_decide_eq_true_2.
Qed.

(** A ping over both transports. *)
Lemma transport_roundtrip_witness : exists data packet,
  write_message (NetPing 7) (WriteV1 [] true Regtest) = (Ok tt, WriteV1 data true Regtest) /\
  read_message (ReadV1 (data ++ [1; 2]) Regtest) = (Ok (NetPing 7), ReadV1 [1; 2] Regtest) /\
  read_message (ReadV2 [packet]) = (Ok (NetPing 7), ReadV2 []).
Proof.
  destruct (transport_roundtrip Regtest (NetPing 7)) as [H1 H2].
  - intros _. split; vm_compute; discriminate.
  - destruct H1 as (data & Hw & Hr); [left; by intros []|vm_compute; discriminate|].
    destruct H2 as (packet & _ & Hr2); [split; vm_compute; discriminate|].
    exists data, packet. split; [exact (Hw [])|]. split; [exact (Hr [1; 2])|exact (Hr2 [])].
Defined.

(** The bytes of that ping. *)
Definition ping_frame : list Z := v1_frame (magic Regtest) (frame_name (NetPing 7)) (net_encode (NetPing 7)).
Lemma read_message_exact_witness : read_message (ReadV1 ping_frame Regtest) = (Ok (NetPing 7), ReadV1 [] Regtest).
Proof.
  apply (read_message_exact Regtest ping_frame [] (NetPing 7)).
  - repeat (constructor; [vm_compute; split; [discriminate|reflexivity]|]). constructor.
  - exists (frame_name (NetPing 7)), (net_encode (NetPing 7)). split; [reflexivity|]. split; [vm_compute; discriminate|].
    split; [symmetry; apply app_nil_r|]. vm_compute. reflexivity.
Defined.
(** A frame of another network is refused. *)
Example wrong_magic : (read_message (ReadV1 ping_frame Bitcoin)).1 =
  Err (BadMagicBits [0xf9; 0xbe; 0xb4; 0xd9] [0xfa; 0xbf; 0xb5; 0xda]).
Proof. vm_compute. reflexivity. Qed.

(** * A proxy *)

Definition proxy : Socket := mkSocket ([5; 0] ++ [5; 0; 0] ++ [1; 127; 0; 0; 1; 0; 80] ++ [42]) [] true.
Lemma socks_connect_exact_witness : exists s', socks_connect (SocksDomain (txt "floresta")) 8333 proxy = (Ok tt, s') /\ s_input s' = [42].
Proof.
  eexists (mkSocket [42] _ true). split; [|reflexivity].
  apply (socks_connect_exact (SocksDomain (txt "floresta")) 8333 proxy); [reflexivity|].
  exists 0, [1; 127; 0; 0; 1; 0; 80]. split; [by constructor|]. split; [reflexivity|]. split; reflexivity.
Defined.

(** * A peer *)

#[local] Instance unit_addresses : NetAddressBuild := fun _ _ => tt.
Definition no_tx : unit -> Txid -> option Transaction := fun _ _ => None.
Definition peer_conf : PeerConf :=
  mkConf 3 (mkLocal (mkSockAddr (Ipv4 (mkIpv4 10 0 0 1)) 8333) 0 NeverTried NONE 9) (OutboundFullRelay NETWORK) "/Floresta/" 5 TransportV1
    100 default_timeouts.
Definition start_writer : WriteTransport := WriteV1 [] true Regtest.
Abbreviation body := (loop_body (MP := unit) no_tx tt) (only parsing).
Definition peer0 : Peer := (peer_start 100 1000 1 (create_peer peer_conf start_writer)).2.
Definition peer1 : Peer := (body 101 1001 2 (ReaderMessage (NetVersion any_version) 101) peer0).2.
Definition peer2 : Peer := (body 102 1002 3 (ReaderMessage NetVerack 102) peer1).2.
Definition peer3 : Peer := (body 103 1003 4 (ReaderMessage (NetInv [InvBlock 7; InvWitnessBlock 8]) 103) peer2).2.
Definition peer4 : Peer := (body 104 1004 5 (ReaderMessage (NetAddrV2 []) 104) peer3).2.

Lemma reachable_p2 : peer_reachable no_tx peer_conf start_writer 102 peer2.
Proof.
  eapply (PeerNext _ _ _ 101 peer1 102 tt 1002 3 (ReaderMessage NetVerack 102)); [|lia|vm_compute; reflexivity].
  eapply (PeerNext _ _ _ 100 peer0 101 tt 1001 2 (ReaderMessage (NetVersion any_version) 101)); [|lia|vm_compute; reflexivity].
  apply (PeerStart _ _ _ 100 1000 1); [vm_compute; discriminate|vm_compute; reflexivity].
Qed.
Lemma reachable_p4 : peer_reachable no_tx peer_conf start_writer 104 peer4.
Proof.
  eapply (PeerNext _ _ _ 103 peer3 104 tt 1004 5 (ReaderMessage (NetAddrV2 []) 104)); [|lia|vm_compute; reflexivity].
  eapply (PeerNext _ _ _ 102 peer2 103 tt 1003 4 (ReaderMessage (NetInv [InvBlock 7; InvWitnessBlock 8]) 103)); [|lia|vm_compute; reflexivity].
  apply reachable_p2.
Qed.

Lemma handshake_first_witness : exists unix v t rest, heard no_tx peer_conf start_writer unix v 102 peer2 /\
  node_tx peer2 = FromPeer 3 (MsgReady (version_of peer_conf unix v)) t :: rest /\ Forall (ordinary 3) rest.
Proof. apply (proj1 (handshake_first no_tx peer_conf start_writer) 102 peer2 reachable_p2). vm_compute. reflexivity. Defined.
Example ready_says : ready_version peer2 = mkVersion "/Satoshi/" 0 42 3 9 advertised_services (-1) (OutboundFullRelay NETWORK) TransportV1.
Proof. vm_compute. reflexivity. Qed.

Lemma peer_rates_bounded_witness : ADDRV2_MESSAGE_INTERVAL * count is_addr (node_tx peer4) <= 4 + ADDRV2_MESSAGE_INTERVAL /\
  count is_addr (node_tx peer4) = 1 /\ count is_new_block (node_tx peer4) = 2.
Proof.
  split; [exact (proj1 (peer_rates_bounded no_tx peer_conf start_writer 104 peer4 reachable_p4))|]. split; vm_compute; reflexivity.
Defined.

(** Silent rounds every 20 seconds: the third one sends a ping, the one at 210
    ends the connection. *)
Definition silent_rounds (k : nat) : Round := mkRound (150 + 20 * Z.of_nat k) tt 1050 6 PollTimeout.
Lemma silent_peer_dropped_witness : exists k q r q', before_round no_tx silent_rounds peer2 k = Some q /\
  play no_tx (silent_rounds k) q = (r, q') /\ r <> Ok Continue /\ rd_time (silent_rounds k) <= 242 + 50.
Proof.
  apply (silent_peer_dropped no_tx 50 102 peer2 silent_rounds 242).
  - vm_compute. reflexivity.
  - lia.
  - vm_compute. discriminate.
  - vm_compute. discriminate.
  - intros k. exact I.
  - cbn. lia.
  - intros k. cbn [silent_rounds rd_time]. lia.
  - exists 5%nat. vm_compute. reflexivity.
Defined.
Example dropped_at_210 : (q ← before_round no_tx silent_rounds peer2 3; Some (play no_tx (silent_rounds 3) q).1) = Some (Err PingTimeout).
Proof. vm_compute. reflexivity. Qed.
