(* ===== verification/SampleSwift.v ===== *)
(** A SwiftSync of the sample chain: one block is asked for, processed by a
    worker and applied by the updater, and the chain is marked. *)

From stdpp Require Import base gmap list strings fin_maps.
From Stdlib Require Import ZArith Lia.
From S2P Require Import Prelude Bitcoin Errors ChainParams Codec Merkle Sigops Extensions Udata SwiftSync Consensus ConsensusFacts.
From S2P Require Import ChainStore ChainQuery PartialChain ChainState ChainShape ChainFacts ChainReach.
From S2P Require Import Mempool Filters StumpUpdater BlockProof Text Onion SocketAddr AddressMan Node NodeBlocks NodePeers NodeConn SyncNode NodeFacts NodeChain.
From S2P Require Import SwiftNode SwiftFrame SwiftFacts Sample SampleStore SampleChain SampleNode SampleNet SampleSync.

#[local] Existing Instances sync_json sync_proofs sync_orders sync_mempool.
#[local] Hint Extern 0 (ChainBackend (ChainStateInner ViewStore)) => exact (chain_state_backend vfuel) : typeclass_instances.

(** * Blocks *)

(** A witness commitment that commits to the whole of a block. *)
#[local] Instance block_eq_dec : EqDecision Block.
Proof. solve_decision. Defined.
#[local] Instance strict_tx : TxLib := {|
  compute_txid := compute_txid (TxLib := sample_tx);
  is_coinbase := is_coinbase (TxLib := sample_tx);
  is_null := is_null (TxLib := sample_tx);
  sequence_is_final := sequence_is_final (TxLib := sample_tx);
  to_relative_lock_time := to_relative_lock_time (TxLib := sample_tx);
  is_time_locked := is_time_locked (TxLib := sample_tx);
  is_op_return := is_op_return (TxLib := sample_tx);
  is_p2pkh := is_p2pkh (TxLib := sample_tx);
  is_p2sh := is_p2sh (TxLib := sample_tx);
  is_p2wpkh := is_p2wpkh (TxLib := sample_tx);
  is_p2wsh := is_p2wsh (TxLib := sample_tx);
  is_witness_program := is_witness_program (TxLib := sample_tx);
  is_push_only := is_push_only (TxLib := sample_tx);
  instructions := instructions (TxLib := sample_tx);
  instructions_minimal := instructions_minimal (TxLib := sample_tx);
  read_scriptint := read_scriptint (TxLib := sample_tx);
  classify_legacy := classify_legacy (TxLib := sample_tx);
  total_sigop_cost_no_prevouts := total_sigop_cost_no_prevouts (TxLib := sample_tx);
  check_witness_commitment b := bool_decide (b = b1);
  block_weight := block_weight (TxLib := sample_tx);
  block_coinbase := block_coinbase (TxLib := sample_tx)
|}.

(** * The hints *)

(** A hints file is its stop height and the unspent outputs of each height. *)
Record SampleHints := mkHints { sh_stop : Z; sh_indices : gmap Z (list Z) }.
#[local] Instance sample_hints : HintsLib SampleHints := {|
  hints_from_reader bytes := match bytes with stop :: unspent => Some (mkHints stop {[1 := unspent]}) | [] => None end;
  hints_stop_height := sh_stop;
  indices_at_height hs h := sh_indices hs !! h;
  take_indices h hs := mkHints (sh_stop hs) (delete h (sh_indices hs))
|}.
#[local] Instance sample_hints_ok : HintsOk SampleHints.
Proof.
  intros k hs h. cbn. destruct (Z.eqb_spec h k) as [->|Hne]; [apply lookup_delete_eq|by apply lookup_delete_ne].
Qed.

(** * The node *)

(** The chain of two headers, the second of which is assumed to be valid. *)
Definition a0 : ChainStateInner ViewStore := initial_inner stump_new genesis_store (mkBestChain 1 0 1 []) Regtest (UserInput 3).
Definition a1 := (accept_header vfuel h1 a0).2.
Definition a2 := (accept_header vfuel h2 a1).2.
Lemma a2_run : run vfuel vroom a0 a2.
Proof.
  eapply run_step; [eapply run_step; [apply run_refl|]|].
  - apply (step_header vfuel vroom h1); [discriminate|]. runs (accept_header (S := ViewStore) vfuel h1) a0 tt.
  - apply (step_header vfuel vroom h2); [discriminate|]. runs (accept_header (S := ViewStore) vfuel h2) a1 tt.
Qed.
Lemma a2_inv : exists v, chain_inv vrep a2 v.
Proof.
  assert (Hz : block_hash (blk_header (genesis_block Regtest)) <> 0) by (vm_compute; discriminate).
  exact (run_inv vfuel vrep vroom a0 a2 _ (initial_inv vrep genesis_store Regtest (UserInput 3) Hz eq_refl) a2_run).
Qed.

Definition swift_node : NodeCommon (ChainStateInner ViewStore) unit := set_inflight ∅ (set_chain a2 n0).
Lemma swift_fresh : fresh_node swift_node.
Proof. split; [reflexivity|]. intros x [v Hv]. discriminate Hv. Qed.

(** The only output of the first block is never spent. *)
Definition hint_bytes : list Z := [1; 0].
Definition honest : SampleHints := mkHints 1 {[1 := [0]]}.

Abbreviation SwiftState := (@Swift _ (ChainStateInner ViewStore) unit SampleHints).
Definition w0 : option SwiftState := match swift_start (Some hint_bytes) (Some 1%nat) swift_default swift_node with Ok o => o | _ => None end.
Definition w0' : SwiftState := match w0 with Some s => s | None => mkSwift swift_node swift_default honest [] end.

(** * A run *)

Definition swift_got (msg : NodeNotification) : stm SwiftState WireError unit :=
  ignore_swift (swift_message (C := ChainStateInner ViewStore) (MP := unit) (Hints := SampleHints) last_latency 110 2005 msg).
Definition swift_tick : stm SwiftState WireError LoopControl :=
  swift_maintenance_tick (C := ChainStateInner ViewStore) (MP := unit) (Hints := SampleHints) no_seeds 120 2010.

(** A tick asks for the block, the block is processed, and the worker reports. *)
Definition w1 := (swift_tick w0').2.
Definition w2 := (swift_got (FromPeer 0 (MsgBlock b1) 106) w1).2.
Definition b1_report : WorkerReport := hd (mkReport (inl Database) 0 0) (workers w2).
Definition w3 := (swift_got (FromWorker (wr_result b1_report) (wr_hash b1_report) (wr_height b1_report)) (set_workers [] w2)).2.
Definition w3_updater : StumpUpdaterHandle := match stump_updater (context w3) with Some h => h | None => mkHandle 0 0 0 [] 0 end.
Definition w4 := alter_context (set_updater (Some (handle_receive w3_updater))) w3.
Definition w5 := (swift_tick w4).2.

Lemma w3_reached : swift_reachable no_seeds last_latency (Some hint_bytes) (Some 1%nat) swift_node w3.
Proof.
  apply (SwiftNext _ _ _ _ _ w2); [apply (SwiftNext _ _ _ _ _ w1); [apply (SwiftNext _ _ _ _ _ w0'); [apply SwiftStart; vm_compute; reflexivity|]|]|].
  - apply (SwiftTick _ _ 120 2010). run_pair swift_tick w0' Continue.
  - apply (SwiftMessage _ _ 110 2005 (FromPeer 0 (MsgBlock b1) 106)); [reflexivity|]. run_pair (swift_got (FromPeer 0 (MsgBlock b1) 106)) w1 tt.
  - apply (SwiftReport _ _ 110 2005 [] b1_report []); [vm_compute; reflexivity|].
    run_pair (swift_got (FromWorker (wr_result b1_report) (wr_hash b1_report) (wr_height b1_report))) (set_workers [] w2) tt.
Qed.
Lemma swift_indexed : indexed a2 1.
Proof. intros h x Hh. assert (h = 1) as -> by lia. vm_compute. by intros [= <-]. Qed.
Lemma w3_sent : stump_updater (context w3) = Some w3_updater /\ (h_received w3_updater < length (h_tx w3_updater))%nat.
Proof. split; [vm_compute; reflexivity|]. apply Nat.ltb_lt. vm_compute. reflexivity. Qed.
Lemma w4_reached : swift_reachable no_seeds last_latency (Some hint_bytes) (Some 1%nat) swift_node w4.
Proof. exact (SwiftNext _ _ _ _ _ w3 _ w3_reached (SwiftReceive _ _ w3_updater w3 (proj1 w3_sent) (proj2 w3_sent))). Qed.

(** * Witnesses *)

Lemma swift_accounts_every_block_witness : exists l,
  accounts (chain swift_node) honest (start_network swift_node) (start_keys swift_node) 1 l w4 /\ processed_blocks (context w4) = 1.
Proof.
  destruct (swift_accounts_every_block no_seeds last_latency (Some hint_bytes) (Some 1%nat) swift_node honest w4) as [l Hl].
  - reflexivity.
  - exact swift_fresh.
  - exact swift_indexed.
  - exact w4_reached.
  - vm_compute. reflexivity.
  - exists l. split; [exact Hl|vm_compute; reflexivity].
Defined.

(** The only block that can be processed is the first one. *)
Lemma only_b1 bs : chain_blocks swift_node honest bs -> exists delta, bs = [mkProcessed b1 1 [0] delta] /\ unspent_amount delta = 50.
Proof.
  intros [Hh Hd]. destruct bs as [|[b h i d] [|]]; [discriminate Hh| |discriminate Hh]. injection Hh as Hh. cbn in Hh. subst h.
  apply Forall_inv in Hd as (_ & Hi & Hw). cbn [pr_block pr_height pr_hints pr_delta] in *. injection Hi as <-.
  assert (Hb : b = b1).
  { revert Hw. unfold process_block_swiftsync, check_block, check_block_structure. destruct (check_merkle_root b); [|done]. cbn -[decide].
    destruct (decide (b = b1)) as [->|Hne]; [done|]. by rewrite bool_decide_eq_false_2. }
  subst b. exists d. split; [reflexivity|]. vm_compute in Hw. injection Hw as <-. reflexivity.
Qed.
Lemma only_b1_honest bs : chain_blocks swift_node honest bs -> honest_blocks (start_network swift_node) 1 bs.
Proof.
  intros Hb. destruct (only_b1 bs Hb) as (delta & -> & Hu). split; [|split].
  - vm_compute. constructor.
  - intros p ->%list_elem_of_singleton. apply (bool_decide_unpack _). vm_compute. exact I.
  - cbn [sum_Z pr_delta]. rewrite Hu. vm_compute. discriminate.
Qed.

Definition marked := mark_chain_as_assumed (S := ViewStore) vfuel 1 2 (chain (sw_node w4)).
Lemma honest_hints_complete_witness : exists s', swift_tick w4 = (Ok Break, s') /\
  abort_height (context s') = None /\ get_validation_index (chain (sw_node s')) = Ok 1.
Proof.
  destruct (honest_hints_complete no_seeds last_latency 120 2010 (Some hint_bytes) (Some 1%nat) swift_node honest w4 1 2 true marked.2)
    as (bs & Hbs & Hdone).
  - reflexivity.
  - exact swift_fresh.
  - exact swift_indexed.
  - exact w4_reached.
  - vm_compute. reflexivity.
  - vm_compute. reflexivity.
  - vm_compute. reflexivity.
  - vm_compute. reflexivity.
  - vm_compute. reflexivity.
  - run_pair (mark_chain_as_assumed (S := ViewStore) vfuel 1 2) (chain (sw_node w4)) true.
  - destruct (Hdone (only_b1_honest bs Hbs)) as (s' & Ht & Ha & Hc). exists s'. split; [exact Ht|]. split; [exact Ha|].
    rewrite Hc. vm_compute. reflexivity.
Defined.

Lemma swift_sync_sound_witness : exists bs tip b, chain_blocks swift_node honest bs /\ tip = 2 /\
  mark_chain_as_assumed vfuel (foldl add_only stump_new (map (fun p => utreexo_adds (pr_delta p)) bs)) tip (chain (sw_node w4)) =
    (Ok b, chain (sw_node w5)).
Proof.
  destruct a2_inv as [v Hv].
  destruct (swift_sync_sound vfuel no_seeds last_latency vrep vroom 120 2010 (Some hint_bytes) (Some 1%nat) swift_node honest v w4 w5)
    as (bs & tip & b & Hbs & _ & _ & Htip & Hm).
  - reflexivity.
  - exact swift_fresh.
  - exact Hv.
  - exact w4_reached.
  - run_pair swift_tick w4 Break.
  - vm_compute. reflexivity.
  - vm_compute. reflexivity.
  - exists bs, tip, b. split; [exact Hbs|]. split; [|exact Hm]. vm_compute in Htip. by injection Htip.
Defined.
